(* ===== verification/_CoqProject ===== *)
-Q . S2P
Prelude.v
Text.v
Sha256.v
Base64.v
Errors.v
Platform.v
Pagination.v
Scopes.v
Domain.v
Opaque.v
SessionTokens.v
NetAddr.v
Url.v
AuditEvents.v
Database.v
Queries.v
RegistryQueries.v
BrowserQueries.v
Tx.v
StoreCommon.v
ServiceCommon.v
AuthorizationStore.v
TokenStore.v
ConsentStore.v
SessionStore.v
FlowStore.v
LoginStore.v
LogoutStore.v
UserStore.v
ClientStore.v
Invariants.v
RegistryInvariants.v
StatementFacts.v
ExchangeProofs.v
Writes.v
Lifecycle.v
Quiet.v
ServiceSteps.v
RefreshProofs.v
IssueProofs.v
TokenService.v
AuthorizationService.v
SessionService.v
FlowService.v
IdentityService.v
AuthnService.v
ClientService.v
AdminService.v
LogoutService.v
Requests.v
Endpoints.v
Api.v
Config.v
Perimeter.v
KeyStore.v
Commands.v
SessionProofs.v
Demo.v
CodeTheorems.v
RefreshTheorems.v
RevocationTheorems.v
CredentialTheorems.v
TokenTheorems.v
AuthorizationTheorems.v
SessionTheorems.v
LogoutTheorems.v
LoginTheorems.v
AdminTheorems.v
RegistryTheorems.v
SystemTheorems.v
FlowTheorems.v
IdentityTheorems.v
AuthnTheorems.v
ClientTheorems.v
AdminServiceTheorems.v
LogoutServiceTheorems.v
EndpointTheorems.v
ApiTheorems.v
ConfigTheorems.v
PerimeterTheorems.v
