(* ===== verification/Prelude.v ===== *)
(** * OneIssuer: a verification development

    OneIssuer is an OpenID Connect provider: a browser flow authenticates a user and
    asks for consent, the authorization endpoint issues a single-use code, the token
    endpoint turns the code into an ID token, an access token and (for offline_access)
    a rotating refresh token, and UserInfo, revocation and introspection answer for the
    tokens; a JSON API serves account owners and administrators.  All authority lives in
    PostgreSQL rows: a handler reads the request, a service validates it and hands the
    store one transaction, which locks and re-checks every row it relies on.  This
    development models the provider from the source, from the statements up to the
    routers and the configuration, and proves it correct.

    ** The parts, and where they are modelled

    - Values.  [Text.v] (UTF-8, strings, strconv), [Sha256.v], [Base64.v], [NetAddr.v]
      (net/netip) and [Url.v] (net/url) are the standard-library functions the code
      calls.  [Scopes.v] is the scope algebra of internal/consent/consent.go.
      [Opaque.v] holds the bearer values and lifetimes of internal/authorization and
      internal/token/refresh.go: code, refresh token, JWT identifier, PKCE, deadlines,
      scope selection; [SessionTokens.v] those of internal/session and
      internal/authflow.  [Pagination.v] is internal/pagination and the page limits.
      [AuditEvents.v] is internal/audit/audit.go.  [Errors.v] has the sentinel errors
      and the classification of internal/storage/postgres/errors.go; [Domain.v] the
      structs of the domain packages, one [Record] per Go struct.
    - The database.  [Database.v] has the rows of sqlcgen/models.go and the tables as
      finite maps keyed by id.  [Queries.v], [RegistryQueries.v] and [BrowserQueries.v]
      have one definition per generated query (sqlcgen/*.sql.go) with the CHECK
      constraints, unique indexes, foreign keys and triggers of migrations/ that the
      statement meets, so an INSERT or UPDATE fails where PostgreSQL would refuse it.
    - Effects.  [Platform.v] is reading a random source; [Tx.v] the state-and-error
      monad of store code.  A [World] holds the tables, the two random sources (the
      service's reader and uuid.New's), the faults the driver will raise, the rows that
      other transactions hold when a SKIP LOCKED statement runs, the audit events of the
      running operation, the observer's calls and the password digests Argon2 was run
      against.  [inTx]
      is internal/storage/postgres/domain_helpers.go: begin, run, commit or roll back,
      retry once after a serialization failure or deadlock, and the ambiguous commit
      error, where the transaction may or may not have been applied.
    - The store (internal/storage/postgres), one definition per method and one [_tx]
      definition per transaction body: [StoreCommon.v] (row mappings, [loadClient],
      [insertAudit]), [AuthorizationStore.v] (issue and deny), [TokenStore.v] (code
      exchange, refresh rotation with reuse detection, token reads, revocation,
      cleanup), [ConsentStore.v], [SessionStore.v], [FlowStore.v] (browser
      transactions), [LoginStore.v] (registration and login), [LogoutStore.v],
      [UserStore.v] (administration) and [ClientStore.v] (the client registry).
    - The services: [ServiceCommon.v] and one file per domain package.
      [TokenService.v] (internal/token: mint, verify, exchange, refresh, UserInfo,
      revoke, introspect), [AuthorizationService.v] (internal/authorization and the use
      cases of internal/consent), [SessionService.v], [FlowService.v]
      (internal/authflow), [IdentityService.v] (internal/identity with the PHC strings
      and the password workers), [AuthnService.v], [ClientService.v], [AdminService.v]
      and [LogoutService.v].  A service reaches its store through a type class named
      after the Go interface ([Repository] and the like) with the PostgreSQL store as
      its instance; what the reads of the token service promise is [RepositoryLaws],
      which the store satisfies.
    - HTTP.  [Requests.v] is internal/oidc: the strict readers of protocol requests,
      client authentication, redirects, the provider metadata.  [Endpoints.v] has the
      handlers of the protocol, of the hosted forms and of logout, [Api.v] the JSON API
      and the router of application.go, [Perimeter.v] what surrounds them: request
      identifiers, trusted proxies, route labels, readiness, the outer router and the
      rate limiters (internal/httpserver).
    - Operation.  [Config.v] is internal/config (every setting with its reader, bounds
      and cross checks) and the services that [Serve] builds from it; [KeyStore.v] is
      internal/keystore; [Commands.v] the subcommands of internal/app with Go's flag
      parser, the cleanup round and the supervision of the server.

    Operations keep the names of the source; a Go function [f] that returns a value or
    an error is a [Tx] or [Rnd] computation with a result of type [A + error], a pure
    one an [option] or [bool] where the error carries no information.

    ** What is proved

    - The proof library.  [Invariants.v] and [RegistryInvariants.v] have the schema
      invariant [db_ok] and that every statement keeps it; [StatementFacts.v],
      [ExchangeProofs.v], [RefreshProofs.v], [IssueProofs.v] and [SessionProofs.v] what
      each successful transaction did (inversion, by the tactic [tx_step]); [Writes.v]
      the per-row write policies from which "once revoked or consumed, always so"
      follows; [Quiet.v] the fault-free runs; [ServiceSteps.v] how a service call
      unfolds into store operations.  [Lifecycle.v] is the provider as a transition
      system: [op_step] runs one store transaction in any world, [reaches] is any
      sequence of them.
    - Codes and tokens.  [CodeTheorems.v], [AuthorizationTheorems.v]: a code is exchanged
      at most once and a valid one is not refused, exchange and issue refine their
      specifications, consent is never widened silently and the consent screen agrees
      with the commit.  [RefreshTheorems.v]: a refresh token is used at most once,
      rotation refines its specification, reuse kills the family and its access tokens
      for good.  [RevocationTheorems.v]: revoking a grant takes down everything that
      rests on it; a client revokes its own tokens only.  [TokenTheorems.v],
      [CredentialTheorems.v]: tokens open nothing once an authority behind them is gone,
      minted tokens verify back to their claims, the credential grammars are exact and
      disjoint, scope lists refine finite sets.
    - Browser state.  [SessionTheorems.v], [LogoutTheorems.v], [LoginTheorems.v],
      [FlowTheorems.v], [AuthnTheorems.v], [IdentityTheorems.v],
      [LogoutServiceTheorems.v]: a cookie is accepted on current state only, a revoked
      session takes down what its binding carries, a logout completes in one of three
      ways and redirects only where a verified hint allows, a login proves knowledge of
      an active account's password, a flow buys at most five attempts, a refusal does
      not tell why, passwords round trip.
    - Registries.  [AdminTheorems.v], [RegistryTheorems.v], [ClientTheorems.v],
      [AdminServiceTheorems.v]: an active administrator remains, disabling a client
      cuts it off, the registry holds only what passed the rules, administration is for
      administrators that authenticated recently.
    - The whole store.  [SystemTheorems.v]: transactions are atomic under faults, every
      reachable state satisfies the schema, the audit log only grows, the cleanup of codes
      and access tokens ends, deletes retired rows only, and leaves of them only what other
      transactions held.
    - Requests and routes.  [EndpointTheorems.v]: the authorization endpoint redirects to
      hosted forms and registered URIs only, codes enter the tables only when they are
      owed, the back channel works for authenticated clients.  [ApiTheorems.v]: the API
      works for its owner, and administration for administrators.  [PerimeterTheorems.v]:
      the client's address cannot be chosen, the limiters count exactly at one instant
      and stay bounded, labels and routes agree.
    - Operation.  [ConfigTheorems.v]: every accepted configuration starts the service, a
      production configuration is hardened, redaction hides secrets, bootstrap creates
      the first administrator or nothing.  [KeyStore.v]: published keys verify and hold
      no secret, a generated key loads, no key is replaced.

    Each property with hypotheses has a witness, most of them at the installation of
    [Demo.v], which issues a code, exchanges it, refreshes and replays by evaluation.

    ** Choices

    - Time is an integer of nanoseconds, a UUID a number below 2^128 in byte order, a
      string or byte slice a string of bytes, a 64-bit float the [spec_float] of the
      Standard Library.  [Time.Add] does not wrap, [Time.Sub] saturates as in Go.
    - Code outside the repository is a parameter, a type class whose laws, where a
      theorem needs any, are a second class: [Platform] (the timestamptz codec, the UUID
      constructor), [TokenCodec] and [HintCodec] (JSON, signatures, the key set),
      [TextLibrary] (Unicode tables, mail addresses), [KeyDerivation] (Argon2),
      [Fosite], [HttpLibrary] (media types), [GrantCursorCodec] and [ApiLibrary] (JSON),
      [RSA] and [Jose].  Demo instances satisfy the laws.
    - Transactions run one after another.  The code takes FOR UPDATE locks on every row
      it re-checks, so concurrent runs of these transactions are serialized on those
      rows; rows read before a transaction (the candidates of refresh and revocation)
      are arguments of the step and so may be arbitrarily stale.  [locking] marks the
      statements that lock explicitly.  The locks themselves, those that UPDATE statements
      and foreign keys take included, are not modelled: waiting and deadlock appear as
      driver faults, and nothing is said about the order of locks.
    - FOR UPDATE SKIP LOCKED is the exception to the serialization: the cleanup passes
      over rows held elsewhere.  The sets of held rows are part of the world, one per
      statement, and arbitrary.
    - A CHECK that evaluates to NULL accepts, as in SQL.  A statement outside a
      transaction commits by itself.  A query that finds no row is an answer, not a
      driver fault.  SQL text order is byte order and intervals are fixed numbers of
      hours.
    - What the outer world decides is an argument: the readings of the clock along a
      path, whether a password worker is free, what a rate limiter answers to a handler,
      the file system at each access of the key store, how the server ends.
    - Fuel: [sort_Search] gets the interval's length, which shrinks at every turn; the
      cleanup loops get the number of rows, each turn of which deletes at least one, and
      [cleanup_exact] proves the end of the protocol's; the parsers get the length of the
      text they consume, printing a 64-bit number twenty digits; [inTx] makes the two attempts of the source.

    ** What is not modelled

    - The HTML templates, the response headers that do not decide a redirect, the
      buffering that recovers a panic, the access log, the attributes of cookies and the
      listener: they format an answer the model already has.
    - internal/observability: counters and log output; calls of it are left out.
    - Opening the database and running migrations: pool set-up and the migration tool's
      driver.  The schema that results is modelled.
    - The top-level dispatch of the command line, signals and what the commands print.
    - The getters and formatters of the configuration for diagnostics.
    - examples/oidc-client: a demonstration relying party, no part of the provider. *)

From Stdlib Require Export Lia Ascii.
From stdpp Require Export sorting.
From stdpp Require Export base numbers gmap strings list.

#[global] Open Scope Z_scope.

(** ** Notations that read like the Go source

    Go's [==] is decidable equality on every type the model uses; the boolean
    connectives of a Go condition are [&&], [||] and [negb]. *)

Declare Scope go_scope.
Delimit Scope go_scope with go.

Notation "x == y" := (bool_decide (x = y)) (at level 70, no associativity) : go_scope.
Notation "x != y" := (negb (bool_decide (x = y))) (at level 70, no associativity) : go_scope.
#[global] Open Scope go_scope.

(** ** Automation for Go conditions

    [go_bools] turns every boolean test in the context into the proposition it
    decides; the rewriting rules live in the database [go]. *)

Create HintDb go.
Create Rewrite HintDb go_rw.

Lemma negb_true_iff' (b : bool) : negb b = true ↔ b = false.
Proof. by destruct b. Qed.
Lemma negb_false_iff' (b : bool) : negb b = false ↔ b = true.
Proof. by destruct b. Qed.
Lemma bool_decide_true_iff (P : Prop) `{Decision P} : bool_decide P = true ↔ P.
Proof. apply bool_decide_eq_true. Qed.
Lemma bool_decide_false_iff (P : Prop) `{Decision P} : bool_decide P = false ↔ ¬ P.
Proof. apply bool_decide_eq_false. Qed.

#[export] Hint Rewrite andb_true_iff orb_true_iff andb_false_iff orb_false_iff
  negb_true_iff' negb_false_iff' bool_decide_true_iff bool_decide_false_iff Z.ltb_lt Z.ltb_ge Z.leb_le Z.leb_gt Z.eqb_eq Z.eqb_neq
  Nat.ltb_lt Nat.ltb_ge Nat.leb_le Nat.leb_gt Nat.eqb_eq Nat.eqb_neq : go_rw.

Ltac go_bools :=
  repeat (autorewrite with go_rw in *;
          repeat match goal with
                 | H : _ ∧ _ |- _ => destruct H
                 | H : bool_decide _ = true |- _ => apply bool_decide_eq_true in H
                 | H : bool_decide _ = false |- _ => apply bool_decide_eq_false in H
                 | H : true = bool_decide _ |- _ => symmetry in H
                 | H : false = bool_decide _ |- _ => symmetry in H
                 end).

(** Case split on the scrutinee of the first [if] or [match] of a hypothesis. *)
Ltac split_match_in H :=
  match type of H with
  | context [if ?b then _ else _] => let E := fresh "E" in destruct b eqn:E
  | context [match ?x with _ => _ end] => let E := fresh "E" in destruct x eqn:E
  end.

(** ** Time

    A [time.Time] is the number of nanoseconds since the Unix epoch.  Go's zero
    time is 1 January of year 1; a [time.Duration] is an [int64] of nanoseconds. *)

Abbreviation time := Z (only parsing).
Abbreviation duration := Z (only parsing).

Module Time.
Definition Second : duration := 1000000000.
Definition Minute : duration := 60 * Second.
Definition Hour : duration := 60 * Minute.
Definition zero : time := -62135596800 * Second.
Definition max_duration : Z := 2 ^ 63 - 1.
Definition min_duration : Z := - 2 ^ 63.

Definition IsZero (t : time) : bool := t == zero.
Definition Before (t u : time) : bool := t <? u.
Definition After (t u : time) : bool := u <? t.
Definition Equal (t u : time) : bool := t =? u.
Definition Add (t : time) (d : duration) : time := t + d.
(** [Sub] saturates at the bounds of a 64-bit duration. *)
Definition Sub (t u : time) : duration := Z.max min_duration (Z.min max_duration (t - u)).
(** [Unix] rounds towards negative infinity. *)
Definition Unix (t : time) : Z := t / Second.
End Time.

#[export] Hint Unfold Time.IsZero Time.Before Time.After Time.Equal Time.Add : go.

Ltac time_unfold := unfold Time.IsZero, Time.Before, Time.After, Time.Equal, Time.Add in *.

(** ** Identifiers

    A [uuid.UUID] is sixteen bytes, kept as the number they spell in big-endian
    order, so that byte-wise comparison (PostgreSQL's [ORDER BY id]) is [N.compare].
    [uuid.Nil] is zero. *)

Abbreviation uuid := N (only parsing).
Definition uuid_Nil : uuid := 0%N.

(** ** Strings and byte slices

    A Go [string] and a Go [[]byte] are both a sequence of bytes: a Rocq [string],
    whose characters are the 256 values of [ascii]. *)

Abbreviation bytes := string (only parsing).

Definition len (s : string) : Z := Z.of_nat (String.length s).

Definition HasPrefix (s p : string) : bool := String.prefix p s.

Fixpoint str_drop (n : nat) (s : string) : string :=
  match n, s with
  | O, _ => s
  | S n', String _ s' => str_drop n' s'
  | S _, EmptyString => EmptyString
  end.

Definition TrimPrefix (s p : string) : string :=
  if HasPrefix s p then str_drop (String.length p) s else s.

Lemma length_app_string (a b : string) :
  String.length (a +:+ b) = (String.length a + String.length b)%nat.
Proof. induction a as [|c a IH]; simpl; [done|]. by rewrite IH. Qed.

Lemma len_app (a b : string) : len (a +:+ b) = len a + len b.
Proof. unfold len. rewrite length_app_string. lia. Qed.

Lemma len_nonneg (s : string) : 0 <= len s.
Proof. unfold len. lia. Qed.

Lemma prefix_app (p s : string) : String.prefix p (p +:+ s) = true.
Proof. induction p as [|c p IH]; simpl; [by destruct s|]. by destruct (Ascii.ascii_dec c c). Qed.

Lemma prefix_inv (p s : string) : String.prefix p s = true → ∃ r, s = p +:+ r.
Proof.
  revert s. induction p as [|c p IH]; intros s H; [by exists s|].
  destruct s as [|d s]; [done|]. simpl in H.
  destruct (Ascii.ascii_dec c d) as [->|]; [|done].
  destruct (IH s H) as [r ->]. by exists r.
Qed.

Lemma str_drop_app (p s : string) : str_drop (String.length p) (p +:+ s) = s.
Proof. induction p as [|c p IH]; simpl; [by destruct s|done]. Qed.

Lemma TrimPrefix_app (p s : string) : TrimPrefix (p +:+ s) p = s.
Proof. unfold TrimPrefix, HasPrefix. by rewrite prefix_app, str_drop_app. Qed.

Lemma string_app_inj (p a b : string) : p +:+ a = p +:+ b → a = b.
Proof. induction p as [|c p IH]; simpl; [done|]. intros H. injection H. done. Qed.

(** A condition on every byte. *)
Fixpoint every (f : ascii → bool) (s : string) : bool :=
  match s with EmptyString => true | String c s' => f c && every f s' end.

Lemma every_app f a b : every f (a +:+ b) = every f a && every f b.
Proof. induction a as [|c a IH]; simpl; [done|]. by rewrite IH, andb_assoc. Qed.
Lemma every_impl (f g : ascii → bool) s : (∀ c, f c = true → g c = true) → every f s = true → every g s = true.
Proof. intros Hfg. induction s as [|c s IH]; simpl; [done|]. rewrite !andb_true_iff. naive_solver. Qed.

(** [strings.Join(parts, " ")]. *)
Fixpoint join_space (parts : list string) : string :=
  match parts with
  | [] => ""
  | [p] => p
  | p :: rest => p +:+ " " +:+ join_space rest
  end.

(** [strings.Split(s, " ")]: every space separates, so the result is never empty. *)
Fixpoint split_space (s : string) : list string :=
  match s with
  | EmptyString => [""]
  | String c s' =>
      if Ascii.eqb c " "%char then "" :: split_space s'
      else match split_space s' with
           | [] => [String c ""]
           | p :: rest => String c p :: rest
           end
  end.

(** ** Options of row values *)

(** Go's [valueString]: the empty string stands for SQL NULL. *)
Definition valueString (v : option string) : string := default "" v.
(** Go's [pointerString]: an empty string is written as SQL NULL. *)
Definition pointerString (v : string) : option string := if v == "" then None else Some v.

Lemma valueString_pointerString (v : string) : valueString (pointerString v) = v.
Proof. unfold pointerString. case_bool_decide; by subst. Qed.
