(* ===== verification/Text.v ===== *)
(** * Text: UTF-8, [strings] and [strconv]

    Decoding of UTF-8, white space and the text functions of the database; then the
    searching, cutting and splitting functions the request parsers and the domain services
    call, on byte strings, decimal numbers and case folding. *)

From S2P Require Import Prelude.
Module utf8.

Definition byte (c : ascii) : Z := Z.of_N (N_of_ascii c).
Definition between (lo hi : Z) (c : ascii) : bool := (lo <=? byte c) && (byte c <=? hi).
(** A continuation byte [10xxxxxx]. *)
Definition continuation (c : ascii) : bool := between 128 191 c.

Definition RuneError : Z := 65533.

(** The six low bits of a continuation byte. *)
Definition low6 (c : ascii) : Z := Z.land (byte c) 63.

(** [DecodeRuneInString]: the rune and its width; a malformed sequence is one byte wide.
    The range of the second byte excludes overlong forms, surrogates and values above
    U+10FFFF. *)
Definition DecodeRune (s : string) : Z * nat :=
  match s with
  | EmptyString => (RuneError, 0%nat)
  | String a r =>
      if between 0 127 a then (byte a, 1%nat)
      else if between 194 223 a then
        match r with
        | String b _ => if continuation b then (Z.lor (Z.shiftl (Z.land (byte a) 31) 6) (low6 b), 2%nat) else (RuneError, 1%nat)
        | _ => (RuneError, 1%nat)
        end
      else if between 224 239 a then
        let lo := if byte a =? 224 then 160 else 128 in
        let hi := if byte a =? 237 then 159 else 191 in
        match r with
        | String b (String c _) =>
            if between lo hi b && continuation c
            then (Z.lor (Z.shiftl (Z.land (byte a) 15) 12) (Z.lor (Z.shiftl (low6 b) 6) (low6 c)), 3%nat)
            else (RuneError, 1%nat)
        | _ => (RuneError, 1%nat)
        end
      else if between 240 244 a then
        let lo := if byte a =? 240 then 144 else 128 in
        let hi := if byte a =? 244 then 143 else 191 in
        match r with
        | String b (String c (String d _)) =>
            if between lo hi b && continuation c && continuation d
            then (Z.lor (Z.shiftl (Z.land (byte a) 7) 18)
                    (Z.lor (Z.shiftl (low6 b) 12) (Z.lor (Z.shiftl (low6 c) 6) (low6 d))), 4%nat)
            else (RuneError, 1%nat)
        | _ => (RuneError, 1%nat)
        end
      else (RuneError, 1%nat)
  end.

(** The runes of a string, each with its bytes; the length bounds their number. *)
Fixpoint segments_fuel (fuel : nat) (s : string) : list (Z * string) :=
  match fuel, s with
  | O, _ | _, EmptyString => []
  | S fuel', _ =>
      let '(rune, width) := DecodeRune s in
      (rune, String.substring 0 width s) :: segments_fuel fuel' (str_drop width s)
  end.
Definition segments (s : string) : list (Z * string) := segments_fuel (String.length s) s.

Definition RuneCountInString (s : string) : Z := Z.of_nat (length (segments s)).
(** A one-byte [RuneError] is a malformed byte; U+FFFD itself is three bytes wide. *)
Definition ValidString (s : string) : bool :=
  forallb (λ '(rune, bytes), negb ((rune =? RuneError) && (len bytes =? 1))) (segments s).

End utf8.

(** ** [strings] *)

(** [unicode.IsSpace]: the White_Space property. *)
Definition IsSpace (rune : Z) : bool :=
  bool_decide (rune ∈ [9; 10; 11; 12; 13; 32; 133; 160; 5760; 8232; 8233; 8239; 8287; 12288]) ||
  ((8192 <=? rune) && (rune <=? 8202)).

Fixpoint drop_spaces (l : list (Z * string)) : list (Z * string) :=
  match l with
  | (rune, bytes) :: rest => if IsSpace rune then drop_spaces rest else l
  | [] => []
  end.

Fixpoint concat_strings (l : list string) : string :=
  match l with [] => "" | s :: rest => s +:+ concat_strings rest end.

Definition TrimSpace (s : string) : string :=
  concat_strings (snd <$> rev (drop_spaces (rev (drop_spaces (utf8.segments s))))).

(** [strings.ContainsRune(s, '\x00')] and friends for an ASCII byte. *)
Definition contains_byte (c : ascii) (s : string) : bool := negb (every (λ d, negb (Ascii.eqb c d)) s).

(** ** PostgreSQL text *)

(** [length(text)] counts characters: the bytes that do not continue one. *)
Definition char_length (s : string) : Z :=
  Z.of_nat (length (List.filter (λ c, negb (utf8.continuation c)) (String.list_ascii_of_string s))).

(** [btrim(text)] removes spaces at both ends. *)
Fixpoint ltrim (s : string) : string :=
  match s with String c r => if Ascii.eqb c " " then ltrim r else s | EmptyString => "" end.
Definition btrim (s : string) : string :=
  String.string_of_list_ascii (rev (String.list_ascii_of_string (ltrim (String.string_of_list_ascii (rev (String.list_ascii_of_string (ltrim s))))))).

(** The characters of a text: a byte and those that continue it. *)
Fixpoint chars (s : string) : list string :=
  match s with
  | EmptyString => []
  | String c r =>
      match chars r with
      | String d x :: rest =>
          if utf8.continuation d then String c (String d x) :: rest else String c "" :: String d x :: rest
      | l => String c "" :: l
      end
  end.

(** [text LIKE pattern]: percent is any sequence, underscore any character, a backslash
    makes the next character of the pattern itself. *)
Fixpoint like_chars (pattern text : list string) : bool :=
  match pattern with
  | [] => match text with [] => true | _ => false end
  | p :: pattern' =>
      if String.eqb p "%" then
        (fix any (text : list string) : bool :=
           if like_chars pattern' text then true else match text with [] => false | _ :: text' => any text' end) text
      else if String.eqb p "_" then
        match text with [] => false | _ :: text' => like_chars pattern' text' end
      else if String.eqb p "\" then
        match pattern', text with
        | q :: pattern'', c :: text' => if String.eqb q c then like_chars pattern'' text' else false
        | _, _ => false
        end
      else match text with [] => false | c :: text' => if String.eqb p c then like_chars pattern' text' else false end
  end.

Definition LIKE (text pattern : string) : bool := like_chars (chars pattern) (chars text).

Example like_wildcards : (LIKE "ois_cli_abc" "ois_cli_%", LIKE "oisXcliYabc" "ois_cli_%", LIKE "ois_cl" "ois_cli_%") =
  (true, true, false).
Proof. reflexivity. Qed.
Example like_escape : (LIKE "a_b" "a\_%", LIKE "axb" "a\_%") = (true, false).
Proof. reflexivity. Qed.
Example trim_space : TrimSpace (String (ascii_of_nat 194) (String (ascii_of_nat 160) "a b ")) = "a b".
Proof. reflexivity. Qed.

(** ** The [strings] and [strconv] packages *)
(** [strings.Cut(s, sep)] for a one-byte separator. *)
Fixpoint Cut (sep : ascii) (s : string) : string * string * bool :=
  match s with
  | EmptyString => ("", "", false)
  | String c r => if Ascii.eqb c sep then ("", r, true) else let '(a, b, found) := Cut sep r in (String c a, b, found)
  end.

(** The parts before and after the last [sep] ([strings.LastIndexByte]). *)
Fixpoint CutLast (sep : ascii) (s : string) : option (string * string) :=
  match s with
  | EmptyString => None
  | String c r =>
      match CutLast sep r with
      | Some (a, b) => Some (String c a, b)
      | None => if Ascii.eqb c sep then Some ("", r) else None
      end
  end.

(** The parts before and from the first occurrence of [pattern] ([strings.Index]). *)
Fixpoint CutBefore (pattern s : string) : option (string * string) :=
  if HasPrefix s pattern then Some ("", s)
  else match s with
       | EmptyString => None
       | String c r => match CutBefore pattern r with Some (a, b) => Some (String c a, b) | None => None end
       end.

(** [strings.Split(s, sep)] for a one-byte separator: never empty. *)
Fixpoint Split (sep : ascii) (s : string) : list string :=
  match s with
  | EmptyString => [""]
  | String c r =>
      if Ascii.eqb c sep then "" :: Split sep r
      else match Split sep r with [] => [String c ""] | p :: rest => String c p :: rest end
  end.

(** [strings.Count(s, sep)] for one byte. *)
Fixpoint Count (sep : ascii) (s : string) : Z :=
  match s with EmptyString => 0 | String c r => (if Ascii.eqb c sep then 1 else 0) + Count sep r end.

(** [strings.HasSuffix(s, c)] for one byte. *)
Fixpoint ends_with (c : ascii) (s : string) : bool :=
  match s with EmptyString => false | String d EmptyString => Ascii.eqb c d | String _ r => ends_with c r end.

(** [strings.ContainsAny(s, chars)] for ASCII characters. *)
Definition ContainsAny (s : string) (set : list ascii) : bool := existsb (λ c, contains_byte c s) set.

Definition CR : ascii := "013".
Definition LF : ascii := "010".
Definition TAB : ascii := "009".
Definition NUL : ascii := "000".

(** [strings.ToLower] on ASCII text. *)
Definition lower_byte (c : ascii) : ascii :=
  if (65 <=? utf8.byte c) && (utf8.byte c <=? 90) then ascii_of_N (N_of_ascii c + 32) else c.
Fixpoint lower_ascii (s : string) : string :=
  match s with EmptyString => "" | String c r => String (lower_byte c) (lower_ascii r) end.

(** [strings.EqualFold(s, t)] where [t] is ASCII: besides its other case, the letter k
    folds with the Kelvin sign and the letter s with the long s. *)
Definition fold_rune (r : Z) : Z :=
  if (65 <=? r) && (r <=? 90) then r + 32 else if r =? 8490 then 107 else if r =? 383 then 115 else r.
Definition EqualFold (s t : string) : bool :=
  (fold_rune <$> (fst <$> utf8.segments s)) == (fold_rune <$> (fst <$> utf8.segments t)).

(** ** [strconv] *)

Definition digit (c : ascii) : option Z :=
  if (48 <=? utf8.byte c) && (utf8.byte c <=? 57) then Some (utf8.byte c - 48) else None.

Fixpoint decimal (acc : Z) (s : string) : option Z :=
  match s with
  | EmptyString => Some acc
  | String c r => match digit c with Some d => decimal (10 * acc + d) r | None => None end
  end.

(** [strconv.ParseUint(s, 10, bits)]: digits only, at least one, and in range. *)
Definition ParseUint (s : string) (bits : Z) : option Z :=
  if s == "" then None
  else match decimal 0 s with Some n => if n <? 2 ^ bits then Some n else None | None => None end.

(** [strconv.ParseInt(s, 10, bits)]: an optional sign, then digits, in range. *)
Definition ParseInt (s : string) (bits : Z) : option Z :=
  let '(negative, digits) :=
    match s with
    | String c r => if Ascii.eqb c "-" then (true, r) else if Ascii.eqb c "+" then (false, r) else (false, s)
    | EmptyString => (false, s)
    end in
  match (if digits == "" then None else decimal 0 digits) with
  | Some n => let value := if negative : bool then - n else n in
              if (- 2 ^ (bits - 1) <=? value) && (value <? 2 ^ (bits - 1)) then Some value else None
  | None => None
  end.
(** [strconv.Atoi] where [int] has sixty-four bits. *)
Definition Atoi (s : string) : option Z := ParseInt s 64.

(** [strconv.ParseBool]. *)
Definition ParseBool (s : string) : option bool :=
  if bool_decide (s ∈ ["1"; "t"; "T"; "TRUE"; "true"; "True"]) then Some true
  else if bool_decide (s ∈ ["0"; "f"; "F"; "FALSE"; "false"; "False"]) then Some false
  else None.

(** [strconv.FormatUint(n, 10)]: twenty digits suffice for sixty-four bits. *)
Fixpoint format_fuel (fuel : nat) (n : Z) (acc : string) : string :=
  match fuel with
  | O => acc
  | S fuel' =>
      let acc' := String (ascii_of_N (48 + Z.to_N (n mod 10))) acc in
      if n <? 10 then acc' else format_fuel fuel' (n / 10) acc'
  end.
Definition FormatUint (n : Z) : string := format_fuel 20 n "".

(** ** Facts *)

Lemma Cut_app sep a b : contains_byte sep a = false → Cut sep (a +:+ String sep b) = (a, b, true).
Proof.
  unfold contains_byte. rewrite negb_false_iff. induction a as [|c a IH]; simpl.
  - by rewrite Ascii.eqb_refl.
  - rewrite andb_true_iff, negb_true_iff, Ascii.eqb_sym. intros [-> H]. by rewrite IH.
Qed.
Lemma Cut_none sep a : contains_byte sep a = false → Cut sep a = (a, "", false).
Proof.
  unfold contains_byte. rewrite negb_false_iff. induction a as [|c a IH]; simpl; [done|].
  rewrite andb_true_iff, negb_true_iff, Ascii.eqb_sym. intros [-> H]. by rewrite IH.
Qed.
Lemma Split_app sep a b : contains_byte sep a = false → Split sep (a +:+ String sep b) = a :: Split sep b.
Proof.
  unfold contains_byte. rewrite negb_false_iff. induction a as [|c a IH]; simpl.
  - by rewrite Ascii.eqb_refl.
  - rewrite andb_true_iff, negb_true_iff, Ascii.eqb_sym. intros [-> H]. by rewrite IH.
Qed.
Lemma Split_none sep a : contains_byte sep a = false → Split sep a = [a].
Proof.
  unfold contains_byte. rewrite negb_false_iff. induction a as [|c a IH]; simpl; [done|].
  rewrite andb_true_iff, negb_true_iff, Ascii.eqb_sym. intros [-> H]. by rewrite IH.
Qed.
Lemma contains_byte_app c a b : contains_byte c (a +:+ b) = contains_byte c a || contains_byte c b.
Proof. unfold contains_byte. by rewrite every_app, negb_andb. Qed.
Lemma every_not_contains (f : ascii → bool) c s : every f s = true → f c = false → contains_byte c s = false.
Proof.
  unfold contains_byte. rewrite negb_false_iff. intros H Hc. apply every_impl with (f := f); [|done].
  intros d Hd. apply negb_true_iff, Ascii.eqb_neq. intros ->. congruence.
Qed.

Lemma digit_format n : 0 <= n < 10 → digit (ascii_of_N (48 + Z.to_N n)) = Some n.
Proof.
  intros H. unfold digit, utf8.byte. rewrite N_ascii_embedding by lia.
  rewrite !(proj2 (Z.leb_le _ _)) by lia. simpl. f_equal. lia.
Qed.

Lemma decimal_format fuel n acc k :
  0 <= n < 10 ^ Z.of_nat fuel →
  decimal k (format_fuel fuel n acc) = decimal (k * 10 ^ Z.of_nat (String.length (format_fuel fuel n "")) + n) acc.
Proof.
  enough (Hg : ∀ fuel n acc, 0 <= n < 10 ^ Z.of_nat fuel →
            ∃ m, String.length (format_fuel fuel n "") = m ∧ String.length (format_fuel fuel n acc) = (m + String.length acc)%nat ∧
              ∀ k, decimal k (format_fuel fuel n acc) = decimal (k * 10 ^ Z.of_nat m + n) acc).
  { intros H. destruct (Hg fuel n acc H) as (m & -> & _ & E). apply E. }
  clear. induction fuel as [|fuel IH]; intros n acc H.
  - simpl in H. exists 0%nat. split_and!; [done|done|]. intros k. simpl. f_equal. lia.
  - cbn [format_fuel]. rewrite Nat2Z.inj_succ, Z.pow_succ_r in H by lia.
    pose proof (Z.mod_pos_bound n 10 ltac:(lia)) as Hm. pose proof (Z.div_mod n 10 ltac:(lia)) as Hd.
    destruct (Z.ltb_spec n 10).
    + exists 1%nat. split_and!; [done|done|]. intros k. cbn [decimal]. rewrite digit_format by lia.
      f_equal. rewrite Z.mod_small by lia. lia.
    + destruct (IH (n / 10) (String (ascii_of_N (48 + Z.to_N (n mod 10))) "")) as (m1 & E1 & E2 & _); [lia|].
      destruct (IH (n / 10) (String (ascii_of_N (48 + Z.to_N (n mod 10))) acc)) as (m2 & E3 & E4 & E5); [lia|].
      rewrite E1 in E3. subst m2. exists (S m1). rewrite E2, E4. simpl. split_and!; [lia|lia|].
      intros k. rewrite E5. cbn [decimal]. rewrite digit_format by lia. f_equal.
      rewrite <- (Nat2Z.inj_succ m1) at 1 || idtac. rewrite Nat2Z.inj_succ, Z.pow_succ_r by lia. lia.
Qed.

Lemma format_digits fuel n acc :
  every (λ c, bool_decide (is_Some (digit c))) acc = true → 0 <= n →
  every (λ c, bool_decide (is_Some (digit c))) (format_fuel fuel n acc) = true.
Proof.
  revert n acc. induction fuel as [|fuel IH]; intros n acc Hacc Hn; [done|]. cbn [format_fuel].
  assert (E : every (λ c, bool_decide (is_Some (digit c))) (String (ascii_of_N (48 + Z.to_N (n mod 10))) acc) = true).
  { simpl. rewrite digit_format by (apply Z.mod_pos_bound; lia). rewrite bool_decide_eq_true_2 by done. done. }
  destruct (n <? 10); [done|]. apply IH; [done|]. apply Z.div_pos; lia.
Qed.
Lemma format_nonempty fuel n acc : fuel ≠ O → format_fuel fuel n acc ≠ "".
Proof.
  enough (∀ fuel n acc, acc ≠ "" → format_fuel fuel n acc ≠ "") as Hne.
  { destruct fuel; [done|]. intros _. cbn [format_fuel]. destruct (n <? 10); [done|]. by apply Hne. }
  clear. induction fuel as [|fuel IH]; intros n acc Hacc; [done|]. cbn [format_fuel]. destruct (n <? 10); [done|]. by apply IH.
Qed.

(** Numbers are read back as they were written. *)
Lemma ParseUint_FormatUint n bits : 0 <= n < 2 ^ bits → 0 <= bits <= 64 → ParseUint (FormatUint n) bits = Some n.
Proof.
  intros Hn Hb. unfold ParseUint, FormatUint.
  rewrite bool_decide_eq_false_2 by (by apply format_nonempty).
  assert (2 ^ bits <= 2 ^ 64) by (apply Z.pow_le_mono_r; lia).
  rewrite decimal_format by (change (10 ^ Z.of_nat 20) with 100000000000000000000; lia).
  cbn [decimal]. rewrite Z.mul_0_l, Z.add_0_l. by rewrite (proj2 (Z.ltb_lt _ _)) by lia.
Qed.
Lemma FormatUint_no c n : digit c = None → 0 <= n → contains_byte c (FormatUint n) = false.
Proof.
  intros Hc Hn. eapply every_not_contains; [by apply (format_digits 20 n "")|].
  simpl. by rewrite Hc.
Qed.

Example format_uint : FormatUint <$> [0; 7; 19456; 4294967295] = ["0"; "7"; "19456"; "4294967295"].
Proof. reflexivity. Qed.
Example equal_fold : (EqualFold "LocalHost" "localhost", EqualFold "localhosts" "localhost") = (true, false).
Proof. reflexivity. Qed.
