(* ===== verification/Sha256.v ===== *)
(** * SHA-256

    [crypto/sha256] of Go's standard library, as FIPS 180-4 defines it: every
    digest the server stores or compares (authorization codes, refresh tokens,
    access-token identifiers, sessions, client secrets, PKCE challenges) goes
    through [Sum256].  A word is a [Z] below [2 ^ 32]; addition wraps. *)

From S2P Require Import Prelude.

Module Sha256.

Definition mask32 : Z := 4294967295.
Definition add32 (x y : Z) : Z := Z.land (x + y) mask32.
Definition shr (x n : Z) : Z := Z.shiftr x n.
Definition rotr (x n : Z) : Z := Z.lor (Z.shiftr x n) (Z.land (Z.shiftl x (32 - n)) mask32).
Definition not32 (x : Z) : Z := Z.lxor x mask32.

Definition Ch (x y z : Z) : Z := Z.lxor (Z.land x y) (Z.land (not32 x) z).
Definition Maj (x y z : Z) : Z := Z.lxor (Z.lxor (Z.land x y) (Z.land x z)) (Z.land y z).
Definition Sigma0 (x : Z) : Z := Z.lxor (Z.lxor (rotr x 2) (rotr x 13)) (rotr x 22).
Definition Sigma1 (x : Z) : Z := Z.lxor (Z.lxor (rotr x 6) (rotr x 11)) (rotr x 25).
Definition sigma0 (x : Z) : Z := Z.lxor (Z.lxor (rotr x 7) (rotr x 18)) (shr x 3).
Definition sigma1 (x : Z) : Z := Z.lxor (Z.lxor (rotr x 17) (rotr x 19)) (shr x 10).

(** The constants of FIPS 180-4, computed from their definition: the first
    thirty-two bits of the fractional parts of the cube roots ([K]) and of the
    square roots ([H0]) of the first primes. *)
Definition is_prime (n : nat) : bool :=
  forallb (fun d => negb (Nat.eqb (Nat.modulo n d) 0)) (seq 2 (n - 2)).

Definition primes : list Z := Z.of_nat <$> filter (fun n => is_prime n = true) (seq 2 310).

(** The integer cube root, one bit at a time from bit [bits - 1] down. *)
Fixpoint cbrt (bits : nat) (n acc : Z) : Z :=
  match bits with
  | O => acc
  | S b =>
      let candidate := acc + 2 ^ Z.of_nat b in
      cbrt b n (if candidate ^ 3 <=? n then candidate else acc)
  end.

Definition K : list Z :=
  Eval vm_compute in (fun p => Z.land (cbrt 40 (p * 2 ^ 96) 0) mask32) <$> primes.

Record state := mkState { sa : Z; sb : Z; sc : Z; sd : Z; se : Z; sf : Z; sg : Z; sh : Z }.

Definition root_word (i : nat) : Z := Z.land (Z.sqrt (nth i primes 0 * 2 ^ 64)) mask32.

Definition H0 : state :=
  Eval vm_compute in
    mkState (root_word 0) (root_word 1) (root_word 2) (root_word 3)
            (root_word 4) (root_word 5) (root_word 6) (root_word 7).

Definition round (s : state) (kw : Z * Z) : state :=
  let t1 := add32 (add32 (add32 (add32 (sh s) (Sigma1 (se s))) (Ch (se s) (sf s) (sg s))) kw.1) kw.2 in
  let t2 := add32 (Sigma0 (sa s)) (Maj (sa s) (sb s) (sc s)) in
  mkState (add32 t1 t2) (sa s) (sb s) (sc s) (add32 (sd s) t1) (se s) (sf s) (sg s).

(** The message schedule, newest word first. *)
Definition extend1 (w : list Z) : list Z :=
  add32 (add32 (sigma1 (nth 1 w 0)) (nth 6 w 0)) (add32 (sigma0 (nth 14 w 0)) (nth 15 w 0)) :: w.

Definition schedule (block : list Z) : list Z := rev (Nat.iter 48 extend1 (rev block)).

Definition compress (h : state) (block : list Z) : state :=
  let r := fold_left round (zip K (schedule block)) h in
  mkState (add32 (sa h) (sa r)) (add32 (sb h) (sb r)) (add32 (sc h) (sc r)) (add32 (sd h) (sd r))
          (add32 (se h) (se r)) (add32 (sf h) (sf r)) (add32 (sg h) (sg r)) (add32 (sh h) (sh r)).

(** ** Bytes and words *)

Fixpoint bytes_of (s : string) : list Z :=
  match s with
  | EmptyString => []
  | String c s' => Z.of_N (N_of_ascii c) :: bytes_of s'
  end.

Fixpoint string_of (l : list Z) : string :=
  match l with
  | [] => EmptyString
  | b :: l' => String (ascii_of_N (Z.to_N b)) (string_of l')
  end.

Definition be32 (w : Z) : list Z :=
  [Z.land (Z.shiftr w 24) 255; Z.land (Z.shiftr w 16) 255; Z.land (Z.shiftr w 8) 255; Z.land w 255].

Fixpoint words (l : list Z) : list Z :=
  match l with
  | a :: b :: c :: d :: r =>
      Z.lor (Z.lor (Z.shiftl a 24) (Z.shiftl b 16)) (Z.lor (Z.shiftl c 8) d) :: words r
  | _ => []
  end.

Definition pad (m : list Z) : list Z :=
  let n := length m in
  let zeros := Z.to_nat ((55 - Z.of_nat n) mod 64) in
  let bits := 8 * Z.of_nat n in
  m ++ [128] ++ replicate zeros 0 ++ be32 (Z.land (Z.shiftr bits 32) mask32) ++ be32 (Z.land bits mask32).

(** The blocks of sixteen words, in order; [fuel] bounds their number. *)
Fixpoint blocks (fuel : nat) (ws : list Z) : list (list Z) :=
  match fuel with
  | O => []
  | S fuel' => match ws with [] => [] | _ => take 16 ws :: blocks fuel' (drop 16 ws) end
  end.

Definition digest_bytes (s : state) : list Z :=
  be32 (sa s) ++ be32 (sb s) ++ be32 (sc s) ++ be32 (sd s) ++ be32 (se s) ++ be32 (sf s) ++ be32 (sg s) ++ be32 (sh s).

Definition Sum256 (m : bytes) : bytes :=
  let ws := words (pad (bytes_of m)) in
  string_of (digest_bytes (fold_left compress (blocks (length ws) ws) H0)).

Definition Size : Z := 32.

Lemma string_of_length l : String.length (string_of l) = length l.
Proof. induction l as [|b l IH]; simpl; [done|]. by rewrite IH. Qed.

(** Every digest is thirty-two bytes. *)
Lemma Sum256_length m : len (Sum256 m) = Size.
Proof. unfold len, Sum256. rewrite string_of_length. reflexivity. Qed.

(** FIPS 180-4 vector: one padded block. *)
Example Sum256_abc :
  bytes_of (Sum256 "abc") =
    [186; 120; 22; 191; 143; 1; 207; 234; 65; 65; 64; 222; 93; 174; 34; 35;
     176; 3; 97; 163; 150; 23; 122; 156; 180; 16; 255; 97; 242; 0; 21; 173].
Proof. vm_compute. reflexivity. Qed.

End Sha256.

#[export] Hint Rewrite Sha256.Sum256_length : go_rw.
