(* ===== verification/Base64.v ===== *)
(** * Base64url without padding

    [base64.RawURLEncoding] of Go's standard library: [EncodeToString], and
    [DecodeString] of the [Strict()] variant.  The decoder skips CR and LF (strict
    mode does not change that), refuses every other byte outside the alphabet, a
    dangling single sextet, and non-zero trailing bits. *)

From Stdlib Require Import ZifyN.
From S2P Require Import Prelude.

#[local] Ltac Zify.zify_post_hook ::= Z.to_euclidean_division_equations.

Module Base64.

Definition enc6 (n : N) : ascii :=
  ascii_of_N
    (if (n <? 26)%N then n + 65
     else if (n <? 52)%N then n + 71
     else if (n <? 62)%N then n - 4
     else if (n =? 62)%N then 45 else 95)%N.

Definition dec6 (c : ascii) : option N :=
  let n := N_of_ascii c in
  if (65 <=? n)%N && (n <=? 90)%N then Some (n - 65)%N
  else if (97 <=? n)%N && (n <=? 122)%N then Some (n - 71)%N
  else if (48 <=? n)%N && (n <=? 57)%N then Some (n + 4)%N
  else if (n =? 45)%N then Some 62%N
  else if (n =? 95)%N then Some 63%N
  else None.

Fixpoint Encode (s : bytes) : string :=
  match s with
  | String a (String b (String c r)) =>
      let v := (N_of_ascii a * 65536 + N_of_ascii b * 256 + N_of_ascii c)%N in
      String (enc6 (v / 262144)) (String (enc6 (v / 4096 mod 64))
        (String (enc6 (v / 64 mod 64)) (String (enc6 (v mod 64)) (Encode r))))
  | String a (String b EmptyString) =>
      let v := (N_of_ascii a * 1024 + N_of_ascii b * 4)%N in
      String (enc6 (v / 4096)) (String (enc6 (v / 64 mod 64)) (String (enc6 (v mod 64)) EmptyString))
  | String a EmptyString =>
      let v := (N_of_ascii a * 16)%N in
      String (enc6 (v / 64)) (String (enc6 (v mod 64)) EmptyString)
  | EmptyString => EmptyString
  end.

(** One output byte of a quantum. *)
Definition byte_of (n : N) : ascii := ascii_of_N (n mod 256).

Fixpoint DecodeQuanta (s : string) : option bytes :=
  match s with
  | String c0 (String c1 (String c2 (String c3 r))) =>
      x0 ← dec6 c0; x1 ← dec6 c1; x2 ← dec6 c2; x3 ← dec6 c3; tail ← DecodeQuanta r;
      let v := (x0 * 262144 + x1 * 4096 + x2 * 64 + x3)%N in
      Some (String (byte_of (v / 65536)) (String (byte_of (v / 256)) (String (byte_of v) tail)))
  | String c0 (String c1 (String c2 EmptyString)) =>
      x0 ← dec6 c0; x1 ← dec6 c1; x2 ← dec6 c2;
      let v := (x0 * 4096 + x1 * 64 + x2)%N in
      if (v mod 4 =? 0)%N
      then Some (String (byte_of (v / 1024)) (String (byte_of (v / 4)) EmptyString)) else None
  | String c0 (String c1 EmptyString) =>
      x0 ← dec6 c0; x1 ← dec6 c1;
      let v := (x0 * 64 + x1)%N in
      if (v mod 16 =? 0)%N then Some (String (byte_of (v / 16)) EmptyString) else None
  | String _ EmptyString => None
  | EmptyString => Some EmptyString
  end.

Definition is_newline (c : ascii) : bool := Ascii.eqb c "010" || Ascii.eqb c "013".

Fixpoint strip_newlines (s : string) : string :=
  match s with
  | EmptyString => EmptyString
  | String c s' => if is_newline c then strip_newlines s' else String c (strip_newlines s')
  end.

Definition DecodeString (s : string) : option bytes := DecodeQuanta (strip_newlines s).

(** ** The alphabet *)

Lemma sextet_ind (P : N → Prop) :
  Forall P (N.of_nat <$> seq 0 64) → ∀ n, (n < 64)%N → P n.
Proof.
  intros HF n Hn. rewrite Forall_fmap, Forall_seq in HF.
  specialize (HF (N.to_nat n)). simpl in HF. rewrite N2Nat.id in HF. apply HF. lia.
Qed.

Lemma dec6_enc6 n : (n < 64)%N → dec6 (enc6 n) = Some n.
Proof. apply (sextet_ind (λ n, dec6 (enc6 n) = Some n)). repeat constructor. Qed.

Lemma enc6_not_newline n : (n < 64)%N → is_newline (enc6 n) = false.
Proof. apply (sextet_ind (λ n, is_newline (enc6 n) = false)). repeat constructor. Qed.

Lemma ascii_forall (P : ascii → bool) :
  forallb (λ k, P (ascii_of_N (N.of_nat k))) (seq 0 256) = true → ∀ c, P c = true.
Proof.
  intros HF c. rewrite forallb_forall in HF. rewrite <- (ascii_N_embedding c).
  rewrite <- (N2Nat.id (N_of_ascii c)). apply HF, in_seq. pose proof (N_ascii_bounded c). lia.
Qed.

Lemma dec6_inv c n : dec6 c = Some n → (n < 64)%N ∧ c = enc6 n.
Proof.
  intros H.
  pose proof (ascii_forall
    (λ c, match dec6 c with Some n => (n <? 64)%N && Ascii.eqb c (enc6 n) | None => true end)
    eq_refl c) as HP.
  cbv beta in HP. rewrite H in HP. apply andb_true_iff in HP as [Hn Hc].
  split; [by apply N.ltb_lt|by apply Ascii.eqb_eq].
Qed.

Lemma byte_of_ascii c n : (n mod 256 = N_of_ascii c)%N → byte_of n = c.
Proof. intros H. unfold byte_of. rewrite H. apply ascii_N_embedding. Qed.

Lemma N_byte_of n : N_of_ascii (byte_of n) = (n mod 256)%N.
Proof. unfold byte_of. apply N_ascii_embedding. lia. Qed.

(** ** Induction by quanta *)

Lemma string_ind3 (P : string → Prop) :
  P "" → (∀ a, P (String a "")) → (∀ a b, P (String a (String b ""))) →
  (∀ a b c r, P r → P (String a (String b (String c r)))) → ∀ s, P s.
Proof.
  intros H0 H1 H2 H3. fix IH 1. intros [|a [|b [|c r]]]; [apply H0|apply H1|apply H2|apply H3, IH].
Qed.

Lemma string_ind4 (P : string → Prop) :
  P "" → (∀ a, P (String a "")) → (∀ a b, P (String a (String b ""))) →
  (∀ a b c, P (String a (String b (String c "")))) →
  (∀ a b c d r, P r → P (String a (String b (String c (String d r))))) → ∀ s, P s.
Proof.
  intros H0 H1 H2 H3 H4. fix IH 1. intros [|a [|b [|c [|d r]]]]; [apply H0|apply H1|apply H2|apply H3|apply H4, IH].
Qed.

(** Arithmetic on the bytes of a quantum. *)
Ltac quantum :=
  repeat match goal with
         | c : ascii |- _ =>
             lazymatch goal with
             | _ : (N_of_ascii c < 256)%N |- _ => fail
             | _ => pose proof (N_ascii_bounded c)
             end
         end; lia.

(** ** Round trip *)

Lemma strip_newlines_Encode s : strip_newlines (Encode s) = Encode s.
Proof.
  induction s as [|a|a b|a b c r IH] using string_ind3; cbn -[N.div N.modulo N.mul N.add enc6];
    rewrite ?enc6_not_newline by quantum; [done..|by rewrite IH].
Qed.

(** An encoding is made of the alphabet. *)
Lemma Encode_every (f : ascii → bool) s : Forall (λ n, f (enc6 n) = true) (N.of_nat <$> seq 0 64) → every f (Encode s) = true.
Proof.
  intros HF. assert (Hf : ∀ n, (n < 64)%N → f (enc6 n) = true) by (by apply sextet_ind).
  induction s as [|a|a b|a b c r IH] using string_ind3; cbn -[N.div N.modulo N.mul N.add enc6];
    rewrite ?Hf by quantum; done.
Qed.

Lemma DecodeQuanta_Encode s : DecodeQuanta (Encode s) = Some s.
Proof.
  induction s as [|a|a b|a b c r IH] using string_ind3; cbn -[N.div N.modulo N.mul N.add enc6 dec6 byte_of];
    rewrite ?dec6_enc6 by quantum; cbn -[N.div N.modulo N.mul N.add byte_of].
  - done.
  - rewrite (proj2 (N.eqb_eq _ _)) by quantum. repeat f_equal; apply byte_of_ascii; quantum.
  - rewrite (proj2 (N.eqb_eq _ _)) by quantum. repeat f_equal; apply byte_of_ascii; quantum.
  - rewrite IH. simpl. repeat f_equal; apply byte_of_ascii; quantum.
Qed.

Lemma DecodeString_Encode s : DecodeString (Encode s) = Some s.
Proof. unfold DecodeString. rewrite strip_newlines_Encode. apply DecodeQuanta_Encode. Qed.

Lemma Encode_inj s t : Encode s = Encode t → s = t.
Proof.
  intros H. pose proof (DecodeString_Encode s) as Hs.
  rewrite H, DecodeString_Encode in Hs. by injection Hs.
Qed.

(** ** Strictness: a decodable string is the encoding of what it decodes to,
    up to the newlines the decoder skips. *)

Lemma DecodeQuanta_inv s b : DecodeQuanta s = Some b → s = Encode b.
Proof.
  revert b. induction s as [|a|a b|a b c|a b c d r IH] using string_ind4; intros o H;
    cbn -[N.div N.modulo N.mul N.add dec6 byte_of] in H; simplify_option_eq; try done.
  all: repeat match goal with H : dec6 _ = Some _ |- _ => apply dec6_inv in H as [? ->] end.
  all: repeat match goal with
              | H : (if (?x =? ?y)%N then _ else _) = Some _ |- _ =>
                  destruct (N.eqb_spec x y); [injection H as <-|discriminate]
              end.
  all: cbn -[N.div N.modulo N.mul N.add enc6 N_of_ascii byte_of]; rewrite ?N_byte_of.
  3: erewrite <- IH by done.
  all: repeat f_equal; lia.
Qed.

Lemma DecodeString_inv s b : DecodeString s = Some b → strip_newlines s = Encode b.
Proof. apply DecodeQuanta_inv. Qed.

(** ** Lengths *)

Lemma Encode_length s :
  Z.of_nat (String.length (Encode s)) = (4 * Z.of_nat (String.length s) + 2) / 3.
Proof.
  induction s as [|a|a b|a b c r IH] using string_ind3; cbn -[Z.div Z.mul]; [done..|].
  rewrite !Nat2Z.inj_succ, IH. lia.
Qed.

Lemma len_Encode s : len (Encode s) = (4 * len s + 2) / 3.
Proof. apply Encode_length. Qed.

Lemma strip_newlines_length s :
  (String.length (strip_newlines s) <= String.length s)%nat ∧
  (String.length (strip_newlines s) = String.length s → strip_newlines s = s).
Proof.
  induction s as [|c s [IH1 IH2]]; simpl; [done|]. destruct (is_newline c); simpl.
  - split; [lia|]. intros H. lia.
  - split; [lia|]. intros H. f_equal. apply IH2. lia.
Qed.

(** A string whose length is the length of the encoding of what it decodes to is
    that encoding: there is no room left for a newline. *)
Lemma DecodeString_exact s b :
  DecodeString s = Some b → len s = (4 * len b + 2) / 3 → s = Encode b.
Proof.
  intros H Hl. apply DecodeString_inv in H as H'.
  rewrite <- (proj2 (strip_newlines_length s)); [done|].
  apply (f_equal len) in H'. rewrite len_Encode, <- Hl in H'. unfold len in H'. lia.
Qed.

End Base64.
