(* ===== verification/Errors.v ===== *)
(** * Errors

    The sentinel errors of the domain packages, the PostgreSQL error wrapper of
    [internal/storage/postgres/errors.go], and the retry classification of
    [domain_helpers.go].  A Go [error] is a value of [error]; [errors.Is] and
    [errors.As] follow the [Unwrap] chain, which here is the structure of the value. *)

From S2P Require Import Prelude.

(** What the driver can report for one statement. *)
Inductive driver_error :=
| NoRows
| CtxCanceled
| CtxDeadlineExceeded
| PgError (code : string)
| NetworkError
| OtherDriverError.

Inductive ErrorKind :=
| ErrorKindCanceled | ErrorKindConfig | ErrorKindAuth
| ErrorKindUnavailable | ErrorKindQuery | ErrorKindUnknown.

Inductive error :=
(* token *)
| token_ErrInvalid | token_ErrInvalidGrant | token_ErrInvalidToken | token_ErrInvalidScope
(* authorization *)
| authz_ErrInvalid | authz_ErrNotFound | authz_ErrExpired | authz_ErrConsumed
| authz_ErrConsentRequired | authz_ErrInactive
(* authflow *)
| authflow_ErrInvalid | authflow_ErrNotFound | authflow_ErrExpired | authflow_ErrConsumed
(* consent *)
| consent_ErrInvalid | consent_ErrNotFound
(* client registry *)
| client_ErrInvalid | client_ErrNotFound | client_ErrConflict | client_ErrPublicSecret
(* session *)
| session_ErrUnauthenticated | session_ErrInvalidCSRF | session_ErrNotFound | session_ErrConsumed
(* identity *)
| identity_ErrInvalidInput | identity_ErrDuplicate | identity_ErrConflict | identity_ErrInvalidCredentials
| identity_ErrDisabled | identity_ErrNotFound | identity_ErrLastAdmin | identity_ErrBootstrapExists
| identity_ErrHashBusy | identity_ErrInvalidHash
| identity_ValidationError (field code : string)
(* authn *)
| authn_ErrInvalidFlow | authn_ErrRegistrationDisabled
(* logout *)
| logout_ErrInvalid | logout_ErrNotFound | logout_ErrCapacity | logout_ErrCSRF
(* admin *)
| admin_ErrForbidden | admin_ErrRecentAuth | admin_ErrInvalidFilter
(* client.ValidationError *)
| client_ValidationError (field code : string)
(* pagination *)
| pagination_ErrInvalidCursor
(* audit *)
| audit_ErrInvalidEvent
(* errors.New(msg) at the point of use *)
| errors_New (msg : string)
(* *postgres.Error *)
| postgres_Error (operation : string) (kind : ErrorKind) (cause : driver_error)
(* *auditAppendError *)
| auditAppendError (event : string) (inner : error)
(* a panic of uuid.New when the system random source fails *)
| go_panic.

#[export] Instance driver_error_eq_dec : EqDecision driver_error.
Proof. solve_decision. Defined.
#[export] Instance ErrorKind_eq_dec : EqDecision ErrorKind.
Proof. solve_decision. Defined.
#[export] Instance error_eq_dec : EqDecision error.
Proof. solve_decision. Defined.

(** [classify] of errors.go: SQLSTATE class 28 is authentication, the listed codes
    mean the server is not available, everything else keeps the caller's fallback. *)
Definition unavailable_codes : list string :=
  ["57P01"; "57P02"; "57P03"; "08000"; "08001"; "08003"; "08004"; "08006"; "08007"; "08P01"].

Definition classify (e : driver_error) (fallback : ErrorKind) : ErrorKind :=
  match e with
  | CtxCanceled | CtxDeadlineExceeded => ErrorKindCanceled
  | PgError code =>
      if HasPrefix code "28" then ErrorKindAuth
      else if bool_decide (code ∈ unavailable_codes) then ErrorKindUnavailable
      else fallback
  | NetworkError => ErrorKindUnavailable
  | NoRows | OtherDriverError => fallback
  end.

Definition wrapError (operation : string) (fallback : ErrorKind) (e : driver_error) : error :=
  postgres_Error operation (classify e fallback) e.

(** [isRetryableTransactionError]: only a serialization failure or a deadlock. *)
Definition retryable_driver_error (e : driver_error) : bool :=
  match e with
  | PgError code => (code == "40001") || (code == "40P01")
  | _ => false
  end.

Fixpoint isRetryableTransactionError (e : error) : bool :=
  match e with
  | postgres_Error _ _ cause => retryable_driver_error cause
  | auditAppendError _ inner => isRetryableTransactionError inner
  | _ => false
  end.

(** [observeAuditWriteFailure] fires for an [auditAppendError] in the chain. *)
Definition auditWriteFailure (e : error) : option string :=
  match e with auditAppendError event _ => Some event | _ => None end.
