(* ===== verification/Platform.v ===== *)
(** * Third-party behaviour and randomness

    Code the sources only call is a parameter here: [google/uuid]'s version-4
    construction and the [timestamptz] codec of the PostgreSQL driver.  [Platform]
    holds the operations, [PlatformLaws] what their documentation promises.  The
    second half is the monad of code that reads a random source ([io.Reader]). *)

From S2P Require Import Prelude Errors.

Class Platform := {
  (** [uuid.NewRandomFromReader] applied to the sixteen bytes it read. *)
  uuid_v4 : bytes → uuid;
  (** The instant PostgreSQL stores for a [pgtype.Timestamptz] parameter. *)
  pg_timestamptz : time → time }.

Class PlatformLaws (P : Platform) : Prop := {
  (** A version-4 UUID has its version and variant bits set (RFC 9562). *)
  uuid_v4_not_Nil : ∀ b, uuid_v4 b ≠ uuid_Nil;
  (** [timestamptz] has a resolution of one microsecond; the driver truncates. *)
  pg_timestamptz_mono : ∀ t u, t <= u → pg_timestamptz t <= pg_timestamptz u;
  pg_timestamptz_shift : ∀ t k, pg_timestamptz (t + 1000 * k) = pg_timestamptz t + 1000 * k;
  pg_timestamptz_le : ∀ t, pg_timestamptz t <= t;
  pg_timestamptz_idemp : ∀ t, pg_timestamptz (pg_timestamptz t) = pg_timestamptz t }.

(** The concrete platform of the witnesses: truncation to microseconds, and a UUID
    with the version bits of RFC 9562 over the number its bytes spell. *)
Fixpoint be_bytes (acc : N) (b : bytes) : N :=
  match b with
  | EmptyString => acc
  | String c b' => be_bytes (acc * 256 + N_of_ascii c)%N b'
  end.

Definition demo_platform : Platform := {|
  uuid_v4 b := N.lor (N.shiftl 4 76) (be_bytes 0 b);
  pg_timestamptz t := t / 1000 * 1000 |}.

Lemma demo_platform_laws : PlatformLaws demo_platform.
Proof.
  split; simpl.
  - intros b H. apply (f_equal (λ n, N.testbit n 78)) in H.
    rewrite N.lor_spec in H. vm_compute (N.testbit (N.shiftl 4 76) 78) in H. done.
  - intros t u Htu. apply Z.mul_le_mono_nonneg_r; [lia|]. apply Z.div_le_mono; lia.
  - intros t k. replace (t + 1000 * k) with (t + k * 1000) by lia. rewrite Z.div_add by lia. lia.
  - intros t. pose proof (Z.mul_div_le t 1000). lia.
  - intros t. by rewrite Z.div_mul by lia.
Qed.

Section lemmas.
Context {P : Platform} {PL : PlatformLaws P}.

(** A span of at least [lo] and at most [hi] whole microseconds survives the codec. *)
Lemma pg_timestamptz_span t d lo hi :
  1000 * lo <= d <= 1000 * hi →
  pg_timestamptz t + 1000 * lo <= pg_timestamptz (t + d) <= pg_timestamptz t + 1000 * hi.
Proof.
  intros [Hlo Hhi]. rewrite <- !pg_timestamptz_shift. split; apply pg_timestamptz_mono; lia.
Qed.

(** Less than one microsecond is lost. *)
Lemma pg_timestamptz_close t : t - 1000 < pg_timestamptz t.
Proof.
  set (u := pg_timestamptz t). set (k := (t - u) / 1000).
  pose proof (Z.div_mod (t - u) 1000 ltac:(lia)). pose proof (Z.mod_pos_bound (t - u) 1000 ltac:(lia)).
  assert (Hle : pg_timestamptz (u + 1000 * k) <= u) by (apply pg_timestamptz_mono; lia).
  rewrite pg_timestamptz_shift in Hle. unfold u in Hle at 1. rewrite pg_timestamptz_idemp in Hle. fold u in Hle. lia.
Qed.

Lemma pg_timestamptz_before t u : t < u → pg_timestamptz t < u.
Proof. intros H. pose proof (pg_timestamptz_le t). lia. Qed.
End lemmas.

(** ** Reading a random source

    [Rnd A] consumes bytes from the source; [io.ReadFull] fails when they run out. *)

Definition Rnd (A : Type) : Type := string → string * (A + error).

#[export] Instance Rnd_ret : MRet Rnd := λ A a s, (s, inl a).
#[export] Instance Rnd_bind : MBind Rnd := λ A B f m s,
  match m s with (s', inl a) => f a s' | (s', inr e) => (s', inr e) end.

Definition rnd_throw {A} (e : error) : Rnd A := λ s, (s, inr e).
Definition rnd_reject (b : bool) (e : error) : Rnd unit := if b then rnd_throw e else mret ().

Fixpoint str_take (n : nat) (s : string) : string :=
  match n, s with
  | O, _ => EmptyString
  | S n', String c s' => String c (str_take n' s')
  | S _, EmptyString => EmptyString
  end.

Definition ReadFull (n : nat) (e : error) : Rnd bytes := λ s,
  if (n <=? String.length s)%nat then (str_drop n s, inl (str_take n s)) else ("", inr e).

Definition NewRandomFromReader `{Platform} (e : error) : Rnd uuid :=
  b ← ReadFull 16 e; mret (uuid_v4 b).

Lemma str_take_length n s : (n <= String.length s)%nat → String.length (str_take n s) = n.
Proof. revert s. induction n as [|n IH]; intros [|c s]; simpl; try lia. intros. rewrite IH; lia. Qed.

Lemma str_take_app a b : str_take (String.length a) (a +:+ b) = a.
Proof. induction a as [|c a IH]; simpl; [by destruct b|by rewrite IH]. Qed.

Lemma str_take_drop n s : str_take n s +:+ str_drop n s = s.
Proof.
  revert s. induction n as [|n IH]; intros [|c s]; cbn [str_take str_drop]; try done.
  change (String c (str_take n s +:+ str_drop n s) = String c s). by rewrite IH.
Qed.

Lemma str_drop_length n s : String.length (str_drop n s) = (String.length s - n)%nat.
Proof. revert s. induction n as [|n IH]; intros [|c s]; simpl; auto. Qed.

Section Rnd.
Context {A B : Type}.

Lemma Rnd_bind_inl (m : Rnd A) (k : A → Rnd B) s s' b :
  (m ≫= k) s = (s', inl b) ↔ ∃ s1 a, m s = (s1, inl a) ∧ k a s1 = (s', inl b).
Proof. unfold mbind, Rnd_bind. destruct (m s) as [s1 [a|e]]; naive_solver. Qed.

Lemma rnd_reject_inl b e s s' x :
  rnd_reject b e s = (s', inl x) ↔ b = false ∧ s' = s.
Proof. unfold rnd_reject, rnd_throw, mret, Rnd_ret. destruct b, x; naive_solver. Qed.

Lemma ReadFull_inl n e s s' x :
  ReadFull n e s = (s', inl x) ↔
  (n <= String.length s)%nat ∧ s' = str_drop n s ∧ x = str_take n s.
Proof. unfold ReadFull. destruct (Nat.leb_spec n (String.length s)); naive_solver lia. Qed.

Lemma ReadFull_enough n e s :
  (n <= String.length s)%nat → ReadFull n e s = (str_drop n s, inl (str_take n s)).
Proof. intros H. unfold ReadFull. by rewrite (proj2 (Nat.leb_le _ _) H). Qed.
End Rnd.
