(* ===== verification/Pagination.v ===== *)
(** * Cursor pagination

    [internal/pagination/cursor.go], the page limits of [internal/storage/postgres]
    and the [nextCursor] step of [internal/httpserver/application.go]: the opaque
    time-and-identifier cursor of the administrative lists and how a page decides
    whether another one follows. *)

From S2P Require Import Prelude Base64 Platform.

Module pagination.

Record Cursor := mkCursor { Cursor_Time : time; Cursor_ID : uuid }.
(** [Cursor{}]. *)
Definition zero_cursor : Cursor := mkCursor Time.zero uuid_Nil.

(** [n] bytes in big-endian order ([binary.BigEndian.PutUint64], [copy(payload[9:], id[:])]). *)
Fixpoint put_bytes (n : nat) (v : N) : bytes :=
  match n with O => "" | S n => String (ascii_of_N (v / 256 ^ N.of_nat n mod 256)) (put_bytes n v) end.

(** [uint64(t.UnixNano())] and back: two's complement of 64 bits. *)
Definition uint64_of (n : Z) : N := Z.to_N (n mod 2 ^ 64).
Definition int64_of (n : N) : Z := if Z.of_N n <? 2 ^ 63 then Z.of_N n else Z.of_N n - 2 ^ 64.

Definition Encode (cursor : Cursor) : string :=
  Base64.Encode (String "001" (put_bytes 8 (uint64_of (Cursor_Time cursor)) +:+ put_bytes 16 (Cursor_ID cursor))).

(** The first instant of a year of the proleptic Gregorian calendar, in UTC. *)
Definition year_start (y : Z) : time :=
  (365 * (y - 1) + (y - 1) / 4 - (y - 1) / 100 + (y - 1) / 400 - 719162) * (24 * Time.Hour).

Definition Decode (raw : string) : option Cursor :=
  if raw == "" then Some zero_cursor
  else
    match Base64.DecodeString raw with
    | Some payload =>
        if (len payload != 25) || negb (HasPrefix payload (String "001" "")) then None
        else if Base64.Encode payload != raw then None
        else
          let id := be_bytes 0 (str_drop 9 payload) in
          if id == uuid_Nil then None
          else
            let value := int64_of (be_bytes 0 (str_take 8 (str_drop 1 payload))) in
            if (value <? year_start 2000) || (year_start 10000 <=? value) then None
            else Some (mkCursor value id)
    | None => None
    end.

Definition Limit (requested : Z) : Z := if requested <=? 0 then 20 else if 100 <? requested then 100 else requested.

End pagination.
Import pagination.

(** [postgresPageLimit] of admin.go. *)
Definition postgresPageLimit (limit : Z) : Z := Limit limit.

(** [nextCursor] of application.go: the page and the cursor of the one after it.  The
    limit is at least 1 ([parsePage]), so the page it cuts has a last item. *)
Definition nextCursor {A} (items : list A) (limit : Z) (position : A → Cursor) : list A * string :=
  if Z.of_nat (length items) <=? limit then (items, "")
  else
    let page := take (Z.to_nat limit) items in
    match last page with Some item => (page, Encode (position item)) | None => (page, "") end.

(** The page of an administrative list: the service asks the store for one row more than
    the page, the query returns at most [postgresPageLimit] of the rows after the cursor,
    the handler cuts the page. *)
Definition list_page {A} (remaining : list A) (limit : Z) (position : A → Cursor) : list A * string :=
  nextCursor (take (Z.to_nat (postgresPageLimit (Limit limit + 1))) remaining) limit position.

(** ** Facts *)

Lemma put_bytes_length n v : String.length (put_bytes n v) = n.
Proof. induction n as [|n IH]; simpl; [done|]. by rewrite IH. Qed.

Lemma pow256_S n : (256 ^ N.of_nat (S n) = 256 ^ N.of_nat n * 256)%N.
Proof. rewrite Nat2N.inj_succ, N.pow_succ_r'. lia. Qed.

Lemma pow256_pos n : (0 < 256 ^ N.of_nat n)%N.
Proof. apply N.neq_0_lt_0, N.pow_nonzero. lia. Qed.

Lemma be_bytes_put n v acc : be_bytes acc (put_bytes n v) = (acc * 256 ^ N.of_nat n + v mod 256 ^ N.of_nat n)%N.
Proof.
  revert acc. induction n as [|n IH]; intros acc; cbn [put_bytes be_bytes]; [rewrite N.mod_1_r; simpl; lia|].
  rewrite IH, N_ascii_embedding by (apply N.mod_lt; lia). pose proof (pow256_pos n).
  rewrite pow256_S, N.Div0.mod_mul_r. lia.
Qed.

Lemma be_bytes_split s acc :
  (∃ r, r < 256 ^ N.of_nat (String.length s) ∧ be_bytes acc s = acc * 256 ^ N.of_nat (String.length s) + r)%N.
Proof.
  revert acc. induction s as [|c s IH]; intros acc; cbn [be_bytes String.length]; [exists 0%N; simpl; lia|].
  destruct (IH (acc * 256 + N_of_ascii c)%N) as (r & Hr & ->). rewrite pow256_S. pose proof (N_ascii_bounded c).
  exists (N_of_ascii c * 256 ^ N.of_nat (String.length s) + r)%N. nia.
Qed.

Lemma put_be_bytes s acc : put_bytes (String.length s) (be_bytes acc s) = s.
Proof.
  revert acc. induction s as [|c s IH]; intros acc; cbn [put_bytes be_bytes String.length]; [done|]. rewrite IH. f_equal.
  destruct (be_bytes_split s (acc * 256 + N_of_ascii c)) as (r & Hr & ->). pose proof (pow256_pos (String.length s)).
  rewrite N.div_add_l, N.div_small, N.add_0_r, N.add_comm, N.Div0.mod_add by lia.
  rewrite N.mod_small by apply N_ascii_bounded. apply ascii_N_embedding.
Qed.

Lemma int64_uint64 t : - 2 ^ 63 <= t < 2 ^ 63 → int64_of (uint64_of t) = t.
Proof.
  intros H. unfold int64_of, uint64_of. rewrite Z2N.id by (apply Z.mod_pos_bound; lia).
  destruct (Z.ltb_spec (t mod 2 ^ 64) (2 ^ 63)) as [Hlt|Hge]; Z.div_mod_to_equations; lia.
Qed.

Lemma uint64_int64 n : (n < 2 ^ 64)%N → uint64_of (int64_of n) = n ∧ - 2 ^ 63 <= int64_of n < 2 ^ 63.
Proof.
  intros H. unfold int64_of, uint64_of. destruct (Z.ltb_spec (Z.of_N n) (2 ^ 63)).
  - rewrite Z.mod_small by lia. split; lia.
  - split; [|lia]. replace (Z.of_N n - 2 ^ 64) with (Z.of_N n + (-1) * 2 ^ 64) by lia. rewrite Z.mod_add, Z.mod_small; lia.
Qed.

(** A cursor a row can have: an identifier that is set, a time of the year 2000 or later. *)
Definition cursor_valid (c : Cursor) : Prop :=
  Cursor_ID c ≠ uuid_Nil ∧ (Cursor_ID c < 2 ^ 128)%N ∧ year_start 2000 <= Cursor_Time c < 2 ^ 63.

(** The 25 bytes of a cursor, and reading them back. *)
Definition payload_of (T I : bytes) : bytes := String "001" (T +:+ I).

Lemma payload_parts T I : String.length T = 8%nat →
  str_take 8 (str_drop 1 (payload_of T I)) = T ∧ str_drop 9 (payload_of T I) = I.
Proof.
  intros HT. change (str_drop 9 (payload_of T I)) with (str_drop 8 (T +:+ I)).
  change (str_drop 1 (payload_of T I)) with (T +:+ I). rewrite <- HT. split; [apply str_take_app|apply str_drop_app].
Qed.

Lemma payload_shape payload :
  len payload = 25 → HasPrefix payload (String "001" "") = true →
  ∃ T I, payload = payload_of T I ∧ String.length T = 8%nat ∧ String.length I = 16%nat.
Proof.
  intros Hl [r ->]%prefix_inv. exists (str_take 8 r), (str_drop 8 r). rewrite len_app in Hl. unfold len in Hl. simpl in Hl.
  split; [unfold payload_of; by rewrite str_take_drop|]. rewrite str_drop_length, str_take_length; lia.
Qed.

Lemma year_start_2000 : year_start 2000 = 946684800000000000.
Proof. by vm_compute. Qed.
Lemma year_start_10000 : year_start 10000 = 253402300800000000000.
Proof. by vm_compute. Qed.
Lemma pow256_8 : (256 ^ N.of_nat 8 = 2 ^ 64)%N.
Proof. by vm_compute. Qed.
Lemma pow256_16 : (256 ^ N.of_nat 16 = 2 ^ 128)%N.
Proof. by vm_compute. Qed.

Lemma Decode_Encode c : cursor_valid c → Decode (Encode c) = Some c.
Proof.
  intros (Hid & Hb & Ht). destruct c as [t id]. simpl in *.
  assert (HT : String.length (put_bytes 8 (uint64_of t)) = 8%nat) by apply put_bytes_length.
  assert (HI : String.length (put_bytes 16 id) = 16%nat) by apply put_bytes_length.
  assert (HvT : be_bytes 0 (put_bytes 8 (uint64_of t)) = uint64_of t).
  { rewrite be_bytes_put, N.mod_small; [lia|]. unfold uint64_of. pose proof (Z.mod_pos_bound t (2 ^ 64)).
    rewrite pow256_8. lia. }
  assert (HvI : be_bytes 0 (put_bytes 16 id) = id) by (rewrite be_bytes_put, N.mod_small; [lia|by rewrite pow256_16]).
  unfold Decode, Encode. cbn [Cursor_Time Cursor_ID]. fold (payload_of (put_bytes 8 (uint64_of t)) (put_bytes 16 id)).
  revert HT HI HvT HvI. generalize (put_bytes 8 (uint64_of t)), (put_bytes 16 id). intros T I HT HI HvT HvI.
  assert (Hl : len (payload_of T I) = 25) by (unfold payload_of, len; simpl; rewrite length_app_string; lia).
  rewrite bool_decide_eq_false_2, Base64.DecodeString_Encode, Hl.
  2: { intros H. apply (f_equal len) in H. rewrite Base64.len_Encode, Hl in H. done. }
  rewrite (prefix_app (String "001" "") (T +:+ I) : HasPrefix (payload_of T I) (String "001" "") = true).
  cbn [negb orb bool_decide]. rewrite (bool_decide_eq_true_2 (_ = Base64.Encode _)) by done.
  destruct (payload_parts T I HT) as [-> ->]. rewrite HvI, HvT, (bool_decide_eq_false_2 _ Hid), int64_uint64 by (rewrite year_start_2000 in Ht; lia). cbn [negb].
  rewrite (proj2 (Z.ltb_ge t _)), (proj2 (Z.leb_gt _ t)); [done|rewrite year_start_10000; lia|lia].
Qed.

Lemma Decode_inv raw c : raw ≠ "" → Decode raw = Some c → cursor_valid c ∧ raw = Encode c.
Proof.
  intros Hne. unfold Decode. rewrite (bool_decide_eq_false_2 _ Hne). destruct (Base64.DecodeString raw) as [payload|]; [|done].
  destruct (_ || _) eqn:E1; [done|]. apply orb_false_iff in E1 as [E1 E2]. apply negb_false_iff in E1, E2. apply bool_decide_eq_true in E1.
  destruct (Base64.Encode payload != raw) eqn:E3; [done|]. apply negb_false_iff, bool_decide_eq_true in E3 as <-.
  destruct (payload_shape payload E1 E2) as (T & I & -> & HT & HI). destruct (payload_parts T I HT) as [-> ->].
  case_bool_decide as Hid; [done|]. destruct (_ || _) eqn:E4; [done|]. apply orb_false_iff in E4 as [E4 E5]. intros [= <-].
  apply Z.ltb_ge in E4. apply Z.leb_gt in E5.
  destruct (be_bytes_split T 0) as (rT & HrT & HvT). destruct (be_bytes_split I 0) as (rI & HrI & HvI).
  rewrite HT in HrT. rewrite HI in HrI. rewrite pow256_8 in HrT. rewrite pow256_16 in HrI.
  destruct (uint64_int64 (be_bytes 0 T)) as [Hu Hr]; [lia|].
  split; [by split_and!; simpl; lia|]. unfold Encode. cbn [Cursor_Time Cursor_ID].
  pose proof (put_be_bytes T 0) as HpT. pose proof (put_be_bytes I 0) as HpI. rewrite HT in HpT. rewrite HI in HpI.
  by rewrite Hu, HpT, HpI.
Qed.

(** Pagination cursors round trip and cannot be varied.  A cursor string decodes
    exactly when it is the encoding of a cursor with a set identifier and a time from the
    year 2000 on, to that cursor; the empty string is the first page. *)
Theorem cursor_roundtrip raw c :
  Decode raw = Some c ↔ (raw = "" ∧ c = zero_cursor) ∨ (raw ≠ "" ∧ cursor_valid c ∧ raw = Encode c).
Proof.
  destruct (decide (raw = "")) as [->|Hne].
  - change (Decode "") with (Some zero_cursor). naive_solver.
  - split; [intros H; right; split; [done|by apply Decode_inv]|]. intros [[? _]|(_ & Hv & ->)]; [done|by apply Decode_Encode].
Qed.

(** ** Pages *)

Lemma len_Encode_cursor c : len (Encode c) = 34.
Proof.
  unfold Encode. rewrite Base64.len_Encode.
  assert (len (payload_of (put_bytes 8 (uint64_of (Cursor_Time c))) (put_bytes 16 (Cursor_ID c))) = 25) as Hl.
  { unfold payload_of, len. cbn [String.length]. by rewrite length_app_string, !put_bytes_length. }
  unfold payload_of in Hl. by rewrite Hl.
Qed.

Lemma nextCursor_take {A} (rows : list A) n limit position :
  1 <= limit → (Z.to_nat limit <= n)%nat →
  (nextCursor (take n rows) limit position).1 = take (Z.to_nat limit) rows ∧
  ((nextCursor (take n rows) limit position).2 = "" ↔ (length rows <= Z.to_nat limit \/ n <= Z.to_nat limit)%nat).
Proof.
  intros Hl Hn. unfold nextCursor. rewrite length_take. destruct (Z.leb_spec (Z.of_nat (n `min` length rows)) limit) as [Hle|Hgt]; simpl.
  - split; [|split; [lia|done]]. destruct (decide (length rows ≤ n)%nat).
    + rewrite !take_ge; [done|lia|lia].
    + by replace n with (Z.to_nat limit) by lia.
  - rewrite take_take, Nat.min_l by lia.
    destruct (last (take (Z.to_nat limit) rows)) as [x|] eqn:Ex; simpl.
    + split; [done|]. split; [|lia]. intros H. apply (f_equal len) in H. by rewrite len_Encode_cursor in H.
    + apply last_None in Ex. apply (f_equal length) in Ex. rewrite length_take in Ex. simpl in Ex. lia.
Qed.

(** A page is followed exactly when rows are left, below the largest page size.  For a
    page size from 1 to 99 an administrative list serves the first rows after the cursor
    and announces a next page exactly when more rows remain. *)
Theorem page_announces_next {A} (remaining : list A) limit position :
  1 <= limit < 100 →
  (list_page remaining limit position).1 = take (Z.to_nat limit) remaining ∧
  ((list_page remaining limit position).2 ≠ "" ↔ (Z.to_nat limit < length remaining)%nat).
Proof.
  intros Hl. unfold list_page, postgresPageLimit, Limit.
  destruct (Z.leb_spec limit 0); [lia|]. destruct (Z.ltb_spec 100 limit); [lia|].
  destruct (Z.leb_spec (limit + 1) 0); [lia|]. destruct (Z.ltb_spec 100 (limit + 1)); [lia|].
  destruct (nextCursor_take remaining (Z.to_nat (limit + 1)) limit position) as [Hpage Hnext]; [lia|lia|]. split; [done|].
  rewrite Hnext. lia.
Qed.

(** At the largest page size the next page is never announced.  The services ask for
    101 rows, [postgresPageLimit] cuts that to 100, and so a list read with the page size
    100 stops after the first hundred rows whatever remains. *)
Theorem page_of_100_is_last {A} (remaining : list A) position :
  list_page remaining 100 position = (take 100 remaining, "").
Proof.
  unfold list_page. change (Z.to_nat (postgresPageLimit (Limit 100 + 1))) with 100%nat. unfold nextCursor.
  rewrite length_take. destruct (Z.leb_spec (Z.of_nat (100 `min` length remaining)) 100); [done|lia].
Qed.

Lemma page_announces_next_witness : 1 <= 2 < 100 ∧
  (list_page [1%N; 2%N; 3%N] 2 (mkCursor (1700000000 * Time.Second))).1 = [1%N; 2%N].
Proof. split; [lia|]. exact (proj1 (page_announces_next [1%N; 2%N; 3%N] 2 (mkCursor (1700000000 * Time.Second)) ltac:(lia))). Defined.
