(* ===== verification/Scopes.v ===== *)
(** * Scope sets

    The scope algebra of [internal/consent/consent.go]: [CanonicalScopes], [Union],
    [Intersection], [Difference], [subset], and the binary search behind [contains].
    Every authority decision of the server (grants, codes, families, access tokens,
    introspection) compares canonical scope lists, so these are the reference
    definitions the other components use. *)

From S2P Require Import Prelude Errors.

(** ** The byte order of Go strings *)

Definition string_le (s t : string) : Prop := String.leb s t = true.
#[export] Instance string_le_dec : RelDecision string_le.
Proof. intros s t. unfold string_le. apply _. Defined.

Lemma ascii_compare_N (a b : ascii) :
  Ascii.compare a b = N.compare (N_of_ascii a) (N_of_ascii b).
Proof. reflexivity. Qed.

Lemma string_compare_refl s : String.compare s s = Eq.
Proof. induction s as [|a s IH]; simpl; [done|]. by rewrite ascii_compare_N, N.compare_refl. Qed.

Lemma string_compare_trans s t u c :
  String.compare s t = c → String.compare t u = c → String.compare s u = c.
Proof.
  revert t u. induction s as [|a s IH]; intros [|b t] [|d u]; simpl; try congruence.
  rewrite !ascii_compare_N.
  destruct (N.compare_spec (N_of_ascii a) (N_of_ascii b)) as [E1|E1|E1],
    (N.compare_spec (N_of_ascii b) (N_of_ascii d)) as [E2|E2|E2],
    (N.compare_spec (N_of_ascii a) (N_of_ascii d)) as [E3|E3|E3];
    try congruence; try lia; eauto.
Qed.

#[export] Instance string_le_po : PreOrder string_le.
Proof.
  split.
  - intros s. unfold string_le, String.leb. by rewrite string_compare_refl.
  - intros s t u. unfold string_le, String.leb.
    destruct (String.compare s t) eqn:E1, (String.compare t u) eqn:E2; intros H1 H2; try discriminate.
    + by rewrite (string_compare_trans _ _ _ _ E1 E2).
    + apply String.compare_eq_iff in E1. subst. by rewrite E2.
    + apply String.compare_eq_iff in E2. subst. by rewrite E1.
    + by rewrite (string_compare_trans _ _ _ _ E1 E2).
Qed.

#[export] Instance string_le_antisymm : AntiSymm (=) string_le.
Proof. intros s t Hst Hts. by apply String.leb_antisym. Qed.

#[export] Instance string_le_total : Total string_le.
Proof. intros s t. apply String.leb_total. Qed.

(** [sort.Strings]. *)
Definition sort_Strings (l : list string) : list string := merge_sort string_le l.

Lemma sort_Strings_perm l : sort_Strings l ≡ₚ l.
Proof. apply merge_sort_Permutation. Qed.

Lemma sort_Strings_sorted l : StronglySorted string_le (sort_Strings l).
Proof. apply Sorted_StronglySorted; [apply _|]. apply Sorted_merge_sort, _. Qed.

Lemma sort_Strings_unique l k :
  StronglySorted string_le k → l ≡ₚ k → sort_Strings l = k.
Proof.
  intros Hk Hp. apply (StronglySorted_unique string_le); [apply sort_Strings_sorted|done|].
  by rewrite sort_Strings_perm.
Qed.

Lemma elem_of_sort_Strings x l : x ∈ sort_Strings l ↔ x ∈ l.
Proof. by rewrite sort_Strings_perm. Qed.

Lemma NoDup_sort_Strings l : NoDup (sort_Strings l) ↔ NoDup l.
Proof. by rewrite sort_Strings_perm. Qed.

Lemma length_sort_Strings l : length (sort_Strings l) = length l.
Proof. by rewrite sort_Strings_perm. Qed.

(** ** Binary search

    [sort.Search(n, f)] and [sort.SearchStrings]; the interval shrinks at every
    turn, so its length is enough fuel. *)

Fixpoint sort_Search (fuel : nat) (f : nat → bool) (i j : nat) : nat :=
  match fuel with
  | O => i
  | S fuel' =>
      if (i <? j)%nat then
        let h := ((i + j) / 2)%nat in
        if f h then sort_Search fuel' f i h else sort_Search fuel' f (S h) j
      else i
  end.

Definition sort_SearchStrings (a : list string) (x : string) : nat :=
  sort_Search (length a) (λ h, String.leb x (default "" (a !! h))) 0 (length a).

Definition contains (scopes : list string) (target : string) : bool :=
  let index := sort_SearchStrings scopes target in
  (index <? length scopes)%nat && (scopes !! index == Some target).

(** ** The scope operations *)

Definition supported (scope : string) : bool :=
  (scope == "openid") || (scope == "profile") || (scope == "email") || (scope == "offline_access").

Fixpoint adjacent_duplicate (l : list string) : bool :=
  match l with
  | a :: (b :: _) as l' => (a == b) || adjacent_duplicate l'
  | _ => false
  end.

Definition CanonicalScopes (scopes : list string) : option (list string) :=
  if (Z.of_nat (length scopes) <? 1) || (4 <? Z.of_nat (length scopes)) then None
  else if negb (forallb supported scopes) then None
  else
    let result := sort_Strings scopes in
    if adjacent_duplicate result then None
    else if negb (contains result "openid") then None
    else Some result.

(** A Go [map[string]bool] used as a set. *)
Definition sortedSet (set : gset string) : list string := sort_Strings (elements set).

Definition Union (left right : list string) : list string :=
  sortedSet (list_to_set (filter supported left) ∪ list_to_set (filter supported right)).

Definition Intersection (left right : list string) : list string :=
  sortedSet (list_to_set (filter (λ scope, supported scope && bool_decide (scope ∈ right)) left)).

Definition Difference (left right : list string) : list string :=
  sortedSet (list_to_set (filter (λ scope, supported scope && negb (bool_decide (scope ∈ right))) left)).

(** [subset] of consent.go and [scopeSubset] of token.go and storage: every element
    of the first list occurs in the second. *)
Definition scopeSubset (requested allowed : list string) : bool :=
  forallb (λ scope, bool_decide (scope ∈ allowed)) requested.

(** The specification of a canonical list: sorted, duplicate-free, supported values
    that include [openid]. *)
Definition canonical (l : list string) : Prop :=
  StronglySorted string_le l ∧ NoDup l ∧ Forall supported l ∧ "openid" ∈ l.

(** ** Binary search finds exactly the members of a sorted list *)

Lemma sort_Search_spec fuel f i j n :
  (∀ a b, (a ≤ b)%nat → (b < n)%nat → f a = true → f b = true) →
  (i ≤ j)%nat → (j ≤ n)%nat → (j - i ≤ fuel)%nat →
  (∀ k, (k < i)%nat → f k = false) → (∀ k, (j ≤ k < n)%nat → f k = true) →
  let r := sort_Search fuel f i j in
  (r ≤ n)%nat ∧ (∀ k, (k < r)%nat → f k = false) ∧ (∀ k, (r ≤ k < n)%nat → f k = true).
Proof.
  revert i j. induction fuel as [|fuel IH]; intros i j Hm Hij Hjn Hf Hlo Hhi; cbn -[Nat.div Nat.ltb].
  { split; [lia|]. split; [done|]. intros k Hk. apply Hhi. lia. }
  destruct (Nat.ltb_spec i j) as [Hlt|Hge]; [|split; [lia|]; split; [done|]; intros; apply Hhi; lia].
  set (h := ((i + j) / 2)%nat).
  assert (i ≤ h < j)%nat as Hh.
  { unfold h. split; [apply Nat.div_le_lower_bound; lia|apply Nat.Div0.div_lt_upper_bound; lia]. }
  destruct (f h) eqn:Efh; apply IH; try done; try lia.
  - intros k Hk. apply (Hm h k); [lia..|done].
  - intros k Hk. destruct (f k) eqn:Efk; [|done].
    rewrite <- Efh. symmetry. apply (Hm k h); [lia..|done].
Qed.

Lemma StronglySorted_lookup_le (l : list string) i j x y :
  StronglySorted string_le l → (i ≤ j)%nat → l !! i = Some x → l !! j = Some y → string_le x y.
Proof.
  intros Hs. revert i j x y. induction Hs as [|a l Hs IH Ha]; intros i j x y Hij Hi Hj; [done|].
  destruct i as [|i], j as [|j]; simpl in *; simplify_eq; [done| |lia|].
  - rewrite Forall_forall in Ha. apply Ha, list_elem_of_lookup. eauto.
  - apply (IH i j); [lia|done..].
Qed.

Lemma contains_spec l x : StronglySorted string_le l → contains l x = bool_decide (x ∈ l).
Proof.
  intros Hs. unfold contains, sort_SearchStrings.
  destruct (sort_Search_spec (length l) (λ h, String.leb x (default "" (l !! h))) 0 (length l) (length l))
    as (Hr & Hlo & Hhi); try lia.
  { intros a b Hab Hb Ha. destruct (l !! a) eqn:Ea; [|apply lookup_ge_None in Ea; lia].
    destruct (lookup_lt_is_Some_2 l b Hb) as [y Eb]. rewrite Eb. simpl in *.
    apply (transitivity (R := string_le) (y := s)); [exact Ha|].
    exact (StronglySorted_lookup_le l a b s y Hs Hab Ea Eb). }
  set (r := sort_Search _ _ _ _) in *.
  destruct (Nat.ltb_spec r (length l)) as [Hlt|Hge]; simpl.
  - apply bool_decide_ext. split; [intros E; apply list_elem_of_lookup; eauto|].
    intros [k Hk]%list_elem_of_lookup.
    assert (r ≤ k)%nat as Hrk.
    { destruct (Nat.lt_ge_cases k r) as [Hkr|]; [|done]. specialize (Hlo k Hkr). simpl in Hlo.
      rewrite Hk in Hlo. simpl in Hlo. by rewrite (reflexivity (R := string_le) x) in Hlo. }
    destruct (lookup_lt_is_Some_2 l r Hlt) as [y Hy]. rewrite Hy. f_equal.
    apply (anti_symm string_le); [exact (StronglySorted_lookup_le l r k y x Hs Hrk Hy Hk)|].
    specialize (Hhi r (conj (le_n r) Hlt)). simpl in Hhi. by rewrite Hy in Hhi.
  - symmetry. apply bool_decide_eq_false. intros [k Hk]%list_elem_of_lookup.
    assert (k < length l)%nat by (by eapply lookup_lt_Some).
    specialize (Hlo k ltac:(lia)). simpl in Hlo. rewrite Hk in Hlo. simpl in Hlo.
    by rewrite (reflexivity (R := string_le) x) in Hlo.
Qed.

(** ** Canonical lists *)

Lemma adjacent_duplicate_spec l :
  StronglySorted string_le l → adjacent_duplicate l = false ↔ NoDup l.
Proof.
  induction 1 as [|a l Hs IH Ha]; [by split; [constructor|]|].
  destruct l as [|b l]; [split; [intros _; apply NoDup_singleton|done]|].
  change (adjacent_duplicate (a :: b :: l)) with ((a == b) || adjacent_duplicate (b :: l)).
  rewrite orb_false_iff, bool_decide_eq_false, (NoDup_cons _ (b :: l)), IH, elem_of_cons. split; [|tauto].
  intros [Hne Hnd]. split; [|done]. intros [->|Hin]; [done|].
  inversion Hs as [|?? _ Hb]; subst. inversion Ha as [|?? Hab _]; subst.
  rewrite Forall_forall in Hb. apply Hne, (anti_symm string_le); auto.
Qed.

(** The supported values, in byte order. *)
Definition all_scopes : list string := ["email"; "offline_access"; "openid"; "profile"].

Lemma supported_spec s : supported s = true ↔ s ∈ all_scopes.
Proof.
  unfold supported, all_scopes. rewrite !orb_true_iff, !bool_decide_eq_true, !elem_of_cons, elem_of_nil.
  tauto.
Qed.

Lemma NoDup_supported_length l : NoDup l → Forall supported l → (length l ≤ 4)%nat.
Proof.
  intros Hnd Hs. apply (submseteq_length l all_scopes), NoDup_submseteq; [done|].
  intros x Hx. rewrite Forall_forall in Hs. apply supported_spec, Is_true_true, Hs, Hx.
Qed.

Lemma forallb_Forall_true (f : string → bool) l : forallb f l = true ↔ Forall f l.
Proof. rewrite forallb_forall, Forall_forall. setoid_rewrite Is_true_true. by setoid_rewrite list_elem_of_In. Qed.

(** [CanonicalScopes] accepts exactly the duplicate-free lists of supported values
    with [openid], and returns the one sorted rearrangement. *)
Lemma CanonicalScopes_Some l r :
  CanonicalScopes l = Some r ↔
  r = sort_Strings l ∧ NoDup l ∧ Forall supported l ∧ "openid" ∈ l.
Proof.
  unfold CanonicalScopes.
  destruct (_ || _) eqn:Elen.
  { split; [done|]. intros (_ & Hnd & Hs & Ho).
    apply NoDup_supported_length in Hnd; [|done]. go_bools.
    destruct l; [by apply not_elem_of_nil in Ho|]. simpl in *. lia. }
  destruct (forallb supported l) eqn:Es; simpl.
  2: { split; [done|]. intros (_ & _ & Hs & _). apply forallb_Forall_true in Hs. congruence. }
  apply forallb_Forall_true in Es.
  pose proof (adjacent_duplicate_spec _ (sort_Strings_sorted l)) as Hd. rewrite NoDup_sort_Strings in Hd.
  destruct (adjacent_duplicate _).
  { split; [done|]. intros (_ & Hnd%Hd & _). done. }
  rewrite contains_spec by apply sort_Strings_sorted.
  case_bool_decide as Ho; rewrite elem_of_sort_Strings in Ho; simpl; naive_solver.
Qed.

Lemma CanonicalScopes_canonical l r : CanonicalScopes l = Some r → canonical r.
Proof.
  intros (-> & Hnd & Hs & Ho)%CanonicalScopes_Some. split_and!.
  - apply sort_Strings_sorted.
  - by apply NoDup_sort_Strings.
  - by rewrite sort_Strings_perm.
  - by apply elem_of_sort_Strings.
Qed.

Lemma canonical_CanonicalScopes l : canonical l → CanonicalScopes l = Some l.
Proof.
  intros (Hst & Hnd & Hs & Ho). apply CanonicalScopes_Some. split_and!; try done.
  symmetry. by apply sort_Strings_unique.
Qed.

Lemma canonical_iff l : canonical l ↔ CanonicalScopes l = Some l.
Proof.
  split; [apply canonical_CanonicalScopes|]. intros H. by eapply CanonicalScopes_canonical.
Qed.

Lemma CanonicalScopes_elem l r x : CanonicalScopes l = Some r → x ∈ r ↔ x ∈ l.
Proof. intros (-> & _)%CanonicalScopes_Some. apply elem_of_sort_Strings. Qed.

Lemma CanonicalScopes_idemp l r : CanonicalScopes l = Some r → CanonicalScopes r = Some r.
Proof. intros H. by eapply canonical_CanonicalScopes, CanonicalScopes_canonical. Qed.

(** Two canonical lists with the same members are the same list. *)
Lemma canonical_ext l k : canonical l → canonical k → (∀ x, x ∈ l ↔ x ∈ k) → l = k.
Proof.
  intros (Hl & Hnl & _) (Hk & Hnk & _) H. apply (StronglySorted_unique string_le); [done..|].
  by apply NoDup_Permutation.
Qed.

(** ** The set operations *)

Lemma elem_of_sortedSet x set : x ∈ sortedSet set ↔ x ∈ set.
Proof. unfold sortedSet. by rewrite elem_of_sort_Strings, elem_of_elements. Qed.

Lemma sortedSet_sorted set : StronglySorted string_le (sortedSet set) ∧ NoDup (sortedSet set).
Proof. split; [apply sort_Strings_sorted|]. apply NoDup_sort_Strings, NoDup_elements. Qed.

Lemma elem_of_Union x l r : x ∈ Union l r ↔ supported x = true ∧ (x ∈ l ∨ x ∈ r).
Proof.
  unfold Union. rewrite elem_of_sortedSet, elem_of_union, !elem_of_list_to_set, !list_elem_of_filter.
  rewrite !Is_true_true. naive_solver.
Qed.

Lemma elem_of_Intersection x l r : x ∈ Intersection l r ↔ supported x = true ∧ x ∈ l ∧ x ∈ r.
Proof.
  unfold Intersection. rewrite elem_of_sortedSet, elem_of_list_to_set, list_elem_of_filter.
  rewrite Is_true_true, andb_true_iff, bool_decide_eq_true. naive_solver.
Qed.

Lemma elem_of_Difference x l r : x ∈ Difference l r ↔ supported x = true ∧ x ∈ l ∧ x ∉ r.
Proof.
  unfold Difference. rewrite elem_of_sortedSet, elem_of_list_to_set, list_elem_of_filter.
  rewrite Is_true_true, andb_true_iff, negb_true_iff, bool_decide_eq_false. naive_solver.
Qed.

Lemma sortedSet_canonical set :
  (∀ x, x ∈ set → supported x = true) → "openid" ∈ set → canonical (sortedSet set).
Proof.
  intros Hs Ho. destruct (sortedSet_sorted set). split_and!; try done.
  - apply Forall_forall. intros x Hx%elem_of_sortedSet. by apply Is_true_true, Hs.
  - by apply elem_of_sortedSet.
Qed.

(** Every result of the set operations is sorted and duplicate-free; it is canonical
    as soon as it has [openid]. *)
Lemma Intersection_canonical l r : "openid" ∈ Intersection l r → canonical (Intersection l r).
Proof.
  intros Ho. apply sortedSet_canonical; [|by apply elem_of_sortedSet].
  intros x Hx%elem_of_sortedSet. by apply (elem_of_Intersection x l r) in Hx as [? _].
Qed.

Lemma Union_canonical l r : "openid" ∈ l → canonical (Union l r).
Proof.
  intros Ho. apply sortedSet_canonical.
  - intros x Hx%elem_of_sortedSet. by apply (elem_of_Union x l r) in Hx as [? _].
  - apply elem_of_sortedSet, (elem_of_Union "openid" l r). split; [reflexivity|by left].
Qed.

Lemma scopeSubset_spec l r : scopeSubset l r = true ↔ ∀ x, x ∈ l → x ∈ r.
Proof.
  unfold scopeSubset. rewrite forallb_forall. setoid_rewrite bool_decide_eq_true.
  by setoid_rewrite list_elem_of_In.
Qed.

(** An empty difference is inclusion, for lists of supported values. *)
Lemma Difference_nil l r :
  Forall supported l → Difference l r = [] ↔ ∀ x, x ∈ l → x ∈ r.
Proof.
  intros Hs. rewrite Forall_forall in Hs. split.
  - intros HD x Hx. destruct (decide (x ∈ r)) as [|Hn]; [done|].
    exfalso. apply (not_elem_of_nil x). rewrite <- HD.
    apply elem_of_Difference. split_and!; try done. by apply Is_true_true, Hs.
  - intros H. apply elem_of_nil_inv. intros x (_ & Hx & Hn)%elem_of_Difference. auto.
Qed.
