(* ===== verification/Domain.v ===== *)
(** * Domain records

    The credential-free domain structs the services and the storage adapter exchange:
    [identity.User], [client.Client], [consent.Grant], [authflow.Transaction], and the
    token lifecycle structs of [internal/token].  Go's [type X string] enumerations
    stay strings with the source's constants, because the code compares them as
    strings and keeps a default branch for any other value. *)

From S2P Require Import Prelude Errors Scopes.

(** ** identity *)

Definition identity_StatusActive : string := "active".
Definition identity_StatusDisabled : string := "disabled".
Definition RoleUser : string := "user".
Definition RoleAdmin : string := "admin".

Record User := mkUser {
  User_ID : uuid; User_Subject : string; User_Username : string; User_UsernameNormalized : string;
  User_DisplayName : string; User_Email : string; User_EmailNormalized : string;
  User_EmailVerified : bool; User_Status : string; User_Role : string;
  User_CreatedAt : time; User_UpdatedAt : time; User_LastLoginAt : option time; User_Version : Z }.

(** ** client *)

Definition TypePublic : string := "public".
Definition TypeConfidential : string := "confidential".
Definition AuthMethodNone : string := "none".
Definition AuthMethodClientSecretBasic : string := "client_secret_basic".
Definition client_StatusActive : string := "active".
Definition client_StatusDisabled : string := "disabled".

Record Client := mkClient {
  Client_ID : uuid; Client_ClientID : string; Client_Type : string;
  Client_TokenEndpointAuthMethod : string; Client_Name : string; Client_Description : string;
  Client_LogoURI : string; Client_Status : string; Client_RegistrationEnabled : bool;
  Client_RedirectURIs : list string; Client_LogoutURIs : list string; Client_Scopes : list string;
  Client_CreatedAt : time; Client_UpdatedAt : time; Client_Version : Z }.

(** The type/authentication-method pairing every active-client test repeats. *)
Definition authenticationProfile (c : Client) : bool :=
  ((Client_Type c == TypePublic) && (Client_TokenEndpointAuthMethod c == AuthMethodNone)) ||
  ((Client_Type c == TypeConfidential) && (Client_TokenEndpointAuthMethod c == AuthMethodClientSecretBasic)).

(** [activeClient] of token.go. *)
Definition activeClient (c : Client) : bool :=
  (Client_ID c != uuid_Nil) && (Client_ClientID c != "") && (Client_Status c == client_StatusActive) &&
  authenticationProfile c.

(** [activeClientRecord] of client.go. *)
Definition activeClientRecord (c : Client) : bool :=
  (Client_ID c != uuid_Nil) && (Client_Status c == client_StatusActive) && authenticationProfile c.

(** [sameAuthenticatedClient] of storage token.go. *)
Definition sameAuthenticatedClient (current authenticated : Client) : bool :=
  (Client_ID current == Client_ID authenticated) && (Client_ClientID current == Client_ClientID authenticated) &&
  (Client_Status current == client_StatusActive) && (Client_Type current == Client_Type authenticated) &&
  (Client_TokenEndpointAuthMethod current == Client_TokenEndpointAuthMethod authenticated) &&
  authenticationProfile current.

(** ** consent *)

Record Grant := mkGrant {
  Grant_ID : uuid; Grant_UserID : uuid; Grant_ClientID : uuid; Grant_Scopes : list string;
  Grant_CreatedAt : time; Grant_UpdatedAt : time; Grant_RevokedAt : option time; Grant_Version : Z }.

(** ** authflow *)

Definition KindLocal : string := "local".
Definition KindAuthorization : string := "authorization".

Record Transaction := mkTransaction {
  Transaction_ID : uuid; Transaction_TokenHash : bytes; Transaction_Kind : string;
  Transaction_ClientID : option uuid; Transaction_RedirectURI : string; Transaction_Scopes : list string;
  Transaction_PKCEChallenge : string; Transaction_PKCEMethod : string; Transaction_State : string;
  Transaction_Nonce : string; Transaction_PromptCreate : bool; Transaction_ResponseType : string;
  Transaction_ResponseMode : string; Transaction_Prompts : list string;
  Transaction_MaxAgeSeconds : option Z; Transaction_CreatedAt : time; Transaction_ExpiresAt : time;
  Transaction_ConsumedAt : option time; Transaction_FailureReason : string }.

(** ** token: lifecycle *)

Definition IssuanceAuthorizationCode : string := "authorization_code".
Definition IssuanceRefreshToken : string := "refresh_token".

Record RefreshFamily := mkRefreshFamily {
  RefreshFamily_ID : uuid; RefreshFamily_OriginAuthorizationCodeID : option uuid;
  RefreshFamily_ConsentGrantID : uuid; RefreshFamily_UserID : uuid; RefreshFamily_ClientID : uuid;
  RefreshFamily_OriginSessionID : option uuid; RefreshFamily_SessionBindingID : uuid;
  RefreshFamily_Scopes : list string; RefreshFamily_CreatedAt : time;
  RefreshFamily_AbsoluteExpiresAt : time; RefreshFamily_RevokedAt : option time;
  RefreshFamily_RevokeReason : string }.

Record RefreshGeneration := mkRefreshGeneration {
  RefreshGeneration_ID : uuid; RefreshGeneration_FamilyID : uuid; RefreshGeneration_TokenHash : bytes;
  RefreshGeneration_Generation : Z; RefreshGeneration_IssuedAt : time; RefreshGeneration_ExpiresAt : time;
  RefreshGeneration_ConsumedAt : option time }.

Record AccessMetadata := mkAccessMetadata {
  AccessMetadata_ID : uuid; AccessMetadata_JTIHash : bytes;
  AccessMetadata_AuthorizationCodeID : option uuid; AccessMetadata_ConsentGrantID : uuid;
  AccessMetadata_UserID : uuid; AccessMetadata_ClientID : uuid; AccessMetadata_Scopes : list string;
  AccessMetadata_IssuedAt : time; AccessMetadata_ExpiresAt : time;
  AccessMetadata_IssuanceSource : string; AccessMetadata_SourceRefreshTokenID : option uuid;
  AccessMetadata_RefreshFamilyID : option uuid; AccessMetadata_OriginSessionID : option uuid;
  AccessMetadata_SessionBindingID : option uuid; AccessMetadata_RevokedAt : option time;
  AccessMetadata_RevokeReason : string }.

Record AccessAuthority := mkAccessAuthority {
  AccessAuthority_Metadata : AccessMetadata; AccessAuthority_Grant : Grant;
  AccessAuthority_User : User; AccessAuthority_Client : Client;
  AccessAuthority_Family : option RefreshFamily }.

Record RefreshTokenAuthority := mkRefreshTokenAuthority {
  RTA_Generation : RefreshGeneration; RTA_Family : RefreshFamily; RTA_Grant : Grant;
  RTA_User : User; RTA_Client : Client }.

(** ** token: exchange inputs, authorities and results *)

Record ExchangeInput := mkExchangeInput {
  ExchangeInput_CodeHash : bytes; ExchangeInput_Client : Client; ExchangeInput_RedirectURI : string;
  ExchangeInput_CodeVerifier : string; ExchangeInput_RequestID : string; ExchangeInput_Now : time }.

Record Authority := mkAuthority {
  Authority_CodeID : uuid; Authority_GrantID : uuid; Authority_OriginSessionID : option uuid;
  Authority_SessionBindingID : option uuid; Authority_User : User; Authority_Client : Client;
  Authority_Scopes : list string; Authority_Nonce : string; Authority_AuthenticatedAt : time;
  Authority_IssuedAt : time }.

Record InitialRefresh := mkInitialRefresh {
  InitialRefresh_FamilyID : uuid; InitialRefresh_TokenID : uuid; InitialRefresh_TokenHash : bytes;
  InitialRefresh_ClearToken : string; InitialRefresh_ExpiresAt : time;
  InitialRefresh_AbsoluteExpiresAt : time }.

Record Minted := mkMinted {
  Minted_AccessTokenID : uuid; Minted_JTIHash : bytes; Minted_AccessToken : string;
  Minted_IDToken : string; Minted_IssuedAt : time; Minted_AccessExpiresAt : time;
  Minted_IDExpiresAt : time; Minted_InitialRefresh : option InitialRefresh }.

(** [None] for [RequestedScopes] is the nil slice: the scope parameter was omitted. *)
Record RefreshInput := mkRefreshInput {
  RefreshInput_TokenHash : bytes; RefreshInput_Client : Client;
  RefreshInput_RequestedScopes : option (list string); RefreshInput_RequestID : string;
  RefreshInput_Now : time }.

Record RefreshAuthority := mkRefreshAuthority {
  RA_Presented : RefreshGeneration; RA_Family : RefreshFamily; RA_Grant : Grant; RA_User : User;
  RA_Client : Client; RA_AccessScopes : list string; RA_IssuedAt : time }.

Record RefreshMinted := mkRefreshMinted {
  RefreshMinted_AccessTokenID : uuid; RefreshMinted_JTIHash : bytes; RefreshMinted_AccessToken : string;
  RefreshMinted_IssuedAt : time; RefreshMinted_AccessExpiresAt : time;
  RefreshMinted_ReplacementTokenID : uuid; RefreshMinted_ReplacementTokenHash : bytes;
  RefreshMinted_ReplacementClearToken : string; RefreshMinted_ReplacementExpiresAt : time }.

Record Response := mkResponse {
  Response_AccessToken : string; Response_TokenType : string; Response_ExpiresIn : Z;
  Response_IDToken : string; Response_RefreshToken : string; Response_Scope : string }.

Record RevocationLookup := mkRevocationLookup {
  RevocationLookup_Client : Client; RevocationLookup_AccessJTIHash : bytes;
  RevocationLookup_RefreshTokenHash : bytes; RevocationLookup_RequestID : string;
  RevocationLookup_Now : time }.

(** ** authorization: commits *)

Record IssueCommit := mkIssueCommit {
  IssueCommit_Transaction : Transaction; IssueCommit_UserID : uuid; IssueCommit_SessionID : uuid;
  IssueCommit_SessionBindingID : uuid; IssueCommit_AuthenticatedAt : time;
  IssueCommit_InteractiveConsent : bool; IssueCommit_CodeID : uuid; IssueCommit_CodeHash : bytes;
  IssueCommit_ProposedGrantID : uuid; IssueCommit_CreatedAt : time; IssueCommit_ExpiresAt : time;
  IssueCommit_RequestID : string }.

Record DenyCommit := mkDenyCommit {
  DenyCommit_Transaction : Transaction; DenyCommit_UserID : uuid; DenyCommit_DeniedAt : time;
  DenyCommit_RequestID : string }.

(** [audit.Event]. *)
Record AuditEvent := mkAuditEvent {
  Event_ID : uuid; Event_Type : string; Event_Result : string; Event_ActorUserID : option uuid;
  Event_TargetType : option string; Event_TargetID : option uuid; Event_RequestID : string;
  Event_ChangedFields : list string; Event_OccurredAt : time }.

(** An active client the token endpoint accepted is active for the service too. *)
Lemma sameAuthenticatedClient_spec c a :
  sameAuthenticatedClient c a = true →
  Client_ID c = Client_ID a ∧ Client_ClientID c = Client_ClientID a ∧
  Client_Status c = client_StatusActive ∧ authenticationProfile c = true.
Proof. unfold sameAuthenticatedClient. intros. go_bools. done. Qed.
