(* ===== verification/Opaque.v ===== *)
(** * Opaque values

    The versioned bearer values of [internal/authorization] and [internal/token]:
    a prefix and the base64url form of fresh random bytes, stored only as a
    domain-separated SHA-256 digest; the PKCE verifier check; and the deadlines and
    scope selection of the refresh lifecycle. *)

From S2P Require Import Prelude Text Sha256 Base64 Errors Platform Scopes Domain.

Module Authorization.

Definition codePrefix : string := "c1_".

Definition newCode : Rnd string :=
  value ← ReadFull 32 (errors_New "secure authorization code generation failed");
  mret (codePrefix +:+ Base64.Encode value).

Definition HashCode (clearCode : string) : bytes :=
  Sha256.Sum256 ("oneissuer:authorization-code:v1:" +:+ clearCode).

Definition DigestPresentedCode (clearCode : string) : option bytes :=
  if (len clearCode != len codePrefix + 43) || (len clearCode <? len codePrefix)
     || negb (HasPrefix clearCode codePrefix) then None
  else
    match Base64.DecodeString (str_drop (String.length codePrefix) clearCode) with
    | None => None
    | Some raw => if len raw != 32 then None else Some (HashCode clearCode)
    end.

Definition byte_in (lo hi : Z) (c : ascii) : bool :=
  let n := Z.of_N (N_of_ascii c) in (lo <=? n) && (n <=? hi).

Definition isVerifierCharacter (c : ascii) : bool :=
  byte_in 65 90 c || byte_in 97 122 c || byte_in 48 57 c ||
  (c == "-"%char) || (c == "."%char) || (c == "_"%char) || (c == "~"%char).

(** [ValidateVerifier] returns nil: the RFC 7636 grammar, 43 to 128 unreserved bytes. *)
Definition ValidateVerifier (verifier : string) : bool :=
  if (len verifier <? 43) || (128 <? len verifier) then false
  else every isVerifierCharacter verifier.

(** [VerifyS256] returns nil. *)
Definition VerifyS256 (verifier expectedChallenge : string) : bool :=
  if negb (ValidateVerifier verifier) || (len expectedChallenge != 43) then false
  else Base64.Encode (Sha256.Sum256 verifier) == expectedChallenge.

End Authorization.

Module Refresh.

Definition refreshTokenPrefix : string := "r1_".
Definition refreshTokenBytes : nat := 32.
Definition maxRefreshRolling : duration := 30 * 24 * Time.Hour.
Definition maxRefreshAbsolute : duration := 365 * 24 * Time.Hour.
Definition defaultRefreshTTL : duration := 30 * 24 * Time.Hour.
Definition defaultAbsoluteTTL : duration := 90 * 24 * Time.Hour.

Definition HashRefreshToken (tokenValue : string) : bytes :=
  Sha256.Sum256 ("oneissuer:refresh-token:v1:" +:+ tokenValue).

Definition GenerateRefreshToken : Rnd (string * bytes) :=
  raw ← ReadFull refreshTokenBytes (errors_New "secure refresh token generation failed");
  let tokenValue := refreshTokenPrefix +:+ Base64.Encode raw in
  mret (tokenValue, HashRefreshToken tokenValue).

Definition DigestPresentedRefreshToken (tokenValue : string) : option bytes :=
  if (len tokenValue != len refreshTokenPrefix + 43) || negb (HasPrefix tokenValue refreshTokenPrefix) then None
  else
    match Base64.DecodeString (TrimPrefix tokenValue refreshTokenPrefix) with
    | None => None
    | Some raw =>
        if len raw != Z.of_nat refreshTokenBytes then None else Some (HashRefreshToken tokenValue)
    end.

(** Rolling and absolute deadline of a new family. *)
Definition RefreshDeadlines (issuedAt : time) (rollingTTL absoluteTTL : duration) : option (time * time) :=
  if Time.IsZero issuedAt || (rollingTTL <? Time.Hour) || (maxRefreshRolling <? rollingTTL)
     || (absoluteTTL <? 24 * Time.Hour) || (maxRefreshAbsolute <? absoluteTTL) || (absoluteTTL <? rollingTTL)
  then None
  else
    let absolute := Time.Add issuedAt absoluteTTL in
    let rolling := Time.Add issuedAt rollingTTL in
    Some (if Time.After rolling absolute then absolute else rolling, absolute).

Definition ReplacementRefreshExpiry (issuedAt : time) (rollingTTL : duration) (absolute : time) : option time :=
  if Time.IsZero issuedAt || Time.IsZero absolute || negb (Time.Before issuedAt absolute)
     || (rollingTTL <? Time.Hour) || (maxRefreshRolling <? rollingTTL)
  then None
  else
    let expires := Time.Add issuedAt rollingTTL in
    Some (if Time.After expires absolute then absolute else expires).

Definition CanonicalRefreshScopes (scopes : list string) : option (list string) :=
  match CanonicalScopes scopes with
  | None => None
  | Some c => if bool_decide ("openid" ∈ c) && bool_decide ("offline_access" ∈ c) then Some c else None
  end.

Definition SelectRefreshAccessScopes (requested : option (list string))
    (familyScopes grantScopes clientScopes : list string) : list string + error :=
  match CanonicalRefreshScopes familyScopes with
  | None => inr token_ErrInvalidGrant
  | Some family =>
      let effective := Intersection (Intersection family grantScopes) clientScopes in
      if negb (bool_decide ("openid" ∈ effective)) || negb (bool_decide ("offline_access" ∈ effective))
      then inr token_ErrInvalidGrant
      else
        match requested with
        | None => inl effective
        | Some req =>
            match CanonicalScopes req with
            | None => inr token_ErrInvalidScope
            | Some c =>
                if (c != req) || negb (scopeSubset c effective) then inr token_ErrInvalidScope else inl c
            end
        end
  end.

End Refresh.

Module AccessID.

Definition jtiPrefix : string := "jti_".

Definition HashJTI (jti : string) : bytes := Sha256.Sum256 ("oneissuer:access-token-jti:v1:" +:+ jti).

Definition newJTI : Rnd string :=
  value ← ReadFull 16 (errors_New "secure access token identifier generation failed");
  mret (jtiPrefix +:+ Base64.Encode value).

Definition validJTI (value : string) : bool :=
  if negb (HasPrefix value jtiPrefix) then false
  else
    match Base64.DecodeString (TrimPrefix value jtiPrefix) with
    | None => false
    | Some decoded => len decoded == 16
    end.

End AccessID.

(** ** Facts *)

Import Authorization Refresh AccessID.

(** A decodable value of the encoded length of [n] bytes, with the prefix in front,
    is exactly the prefix and the encoding of those bytes. *)
Lemma prefixed_exact prefix s raw :
  HasPrefix s prefix = true → len s = len prefix + (4 * len raw + 2) / 3 →
  Base64.DecodeString (TrimPrefix s prefix) = Some raw → s = prefix +:+ Base64.Encode raw.
Proof.
  intros [r ->]%prefix_inv Hlen HD. rewrite TrimPrefix_app in HD. rewrite len_app in Hlen.
  f_equal. apply Base64.DecodeString_exact; [done|lia].
Qed.

Lemma DigestPresentedRefreshToken_Some s h :
  DigestPresentedRefreshToken s = Some h ↔
  ∃ raw, len raw = 32 ∧ s = refreshTokenPrefix +:+ Base64.Encode raw ∧ h = HashRefreshToken s.
Proof.
  unfold DigestPresentedRefreshToken. split.
  - destruct (_ || _) eqn:E; [done|]. apply orb_false_iff in E as [E1 E2]. go_bools.
    destruct (Base64.DecodeString _) as [raw|] eqn:ED; [|done].
    destruct (len raw != _) eqn:El; [done|]. intros [= <-]. go_bools.
    exists raw. split; [done|]. split; [|done]. apply prefixed_exact; [done|by rewrite El|done].
  - intros (raw & Hr & -> & ->).
    rewrite len_app, Base64.len_Encode, Hr, TrimPrefix_app, Base64.DecodeString_Encode.
    unfold HasPrefix. rewrite prefix_app, Hr. reflexivity.
Qed.

Lemma DigestPresentedCode_Some s h :
  DigestPresentedCode s = Some h ↔
  ∃ raw, len raw = 32 ∧ s = codePrefix +:+ Base64.Encode raw ∧ h = HashCode s.
Proof.
  unfold DigestPresentedCode. split.
  - destruct (_ || _) eqn:E; [done|]. apply orb_false_iff in E as [[E1 E2]%orb_false_iff E3].
    go_bools.
    destruct (Base64.DecodeString _) as [raw|] eqn:ED; [|done].
    destruct (len raw != _) eqn:El; [done|]. intros [= <-]. go_bools.
    exists raw. split; [done|]. split; [|done]. apply prefixed_exact; [done|by rewrite El|].
    unfold TrimPrefix. by rewrite E3.
  - intros (raw & Hr & -> & ->).
    rewrite len_app, Base64.len_Encode, Hr, str_drop_app, Base64.DecodeString_Encode.
    unfold HasPrefix. rewrite prefix_app, Hr. reflexivity.
Qed.

(** ** Visible text

    A string of visible ASCII characters, such as a token, has nothing to trim. *)
Definition visible_byte (c : ascii) : bool := (32 <? utf8.byte c) && (utf8.byte c <? 127).

Lemma DecodeRune_visible c s : visible_byte c = true → utf8.DecodeRune (String c s) = (utf8.byte c, 1%nat).
Proof.
  unfold visible_byte. rewrite andb_true_iff, !Z.ltb_lt. intros [H1 H2]. unfold utf8.DecodeRune.
  unfold utf8.between. by rewrite !(proj2 (Z.leb_le _ _)) by lia.
Qed.

Lemma segments_visible c s : visible_byte c = true → utf8.segments (String c s) = (utf8.byte c, String c "") :: utf8.segments s.
Proof.
  intros H. unfold utf8.segments. cbn [String.length utf8.segments_fuel]. rewrite DecodeRune_visible by done.
  by destruct s.
Qed.

Lemma visible_not_space c : visible_byte c = true → IsSpace (utf8.byte c) = false.
Proof.
  unfold visible_byte, IsSpace. rewrite andb_true_iff, !Z.ltb_lt. intros [H1 H2]. apply orb_false_iff. split.
  - apply bool_decide_eq_false. intros H. repeat (apply elem_of_cons in H as [H|H]; [lia|]). by apply not_elem_of_nil in H.
  - apply andb_false_iff. left. apply Z.leb_gt. lia.
Qed.

Lemma drop_spaces_id l : Forall (λ p, IsSpace p.1 = false) l → drop_spaces l = l.
Proof. intros H. destruct H as [|[r b] l Hr _]; [done|]. simpl in *. by rewrite Hr. Qed.

Lemma segments_not_space s : every visible_byte s = true → Forall (λ p, IsSpace p.1 = false) (utf8.segments s).
Proof.
  induction s as [|c s IH]; [constructor|]. cbn [every]. rewrite andb_true_iff. intros [Hc Hs]. rewrite segments_visible by done.
  constructor; [by apply visible_not_space|by apply IH].
Qed.
Lemma segments_concat s : every visible_byte s = true → concat_strings (snd <$> utf8.segments s) = s.
Proof.
  induction s as [|c s IH]; [done|]. cbn [every]. rewrite andb_true_iff. intros [Hc Hs]. rewrite segments_visible by done.
  change (String c (concat_strings (snd <$> utf8.segments s)) = String c s). by rewrite IH.
Qed.

Lemma TrimSpace_visible s : every visible_byte s = true → TrimSpace s = s.
Proof.
  intros Hs. unfold TrimSpace. pose proof (segments_not_space s Hs) as Hn. rewrite (drop_spaces_id (utf8.segments s)) by done.
  rewrite drop_spaces_id by (by apply Forall_rev). rewrite rev_involutive. by apply segments_concat.
Qed.

Lemma token_visible prefix b : every visible_byte prefix = true → every visible_byte (prefix +:+ Base64.Encode b) = true.
Proof. intros Hp. rewrite every_app, Hp. apply Base64.Encode_every, (bool_decide_unpack _). by vm_compute. Qed.
