(* ===== verification/SessionTokens.v ===== *)
(** * Browser session values

    [internal/session/types.go] and [token.go]: the records of login and
    pre-authentication sessions, the versioned opaque cookies and CSRF values with
    their digests, and the lifetimes the token manager gives them. *)

From S2P Require Import Prelude Sha256 Base64 Errors Platform Scopes Domain.

(** ** Records *)

Record SessionRecord := mkSessionRecord {
  SR_ID : uuid; SR_UserID : uuid; SR_SessionBindingID : uuid; SR_TokenHash : bytes; SR_CSRFHash : bytes;
  SR_CSRFExpiresAt : time; SR_CreatedAt : time; SR_LastSeenAt : time; SR_AuthenticatedAt : time; SR_ExpiresAt : time;
  SR_IdleExpiresAt : time; SR_UserAgentHash : option bytes; SR_IPPrefix : string }.

Record Issued := mkIssued { Issued_Token : string; Issued_CSRFToken : string; Issued_Record : SessionRecord }.

Record PreAuthRecord := mkPreAuthRecord {
  PreAuth_ID : uuid; PreAuth_TokenHash : bytes; PreAuth_CSRFHash : bytes; PreAuth_AuthTransactionID : uuid;
  PreAuth_CreatedAt : time; PreAuth_ExpiresAt : time; PreAuth_ConsumedAt : option time; PreAuth_AttemptCount : Z }.

Record IssuedPreAuth := mkIssuedPreAuth {
  IssuedPreAuth_Token : string; IssuedPreAuth_CSRFToken : string; IssuedPreAuth_Record : PreAuthRecord }.

Record Principal := mkPrincipal {
  Principal_SessionID : uuid; Principal_SessionBindingID : uuid; Principal_User : User; Principal_CSRFHash : bytes;
  Principal_CSRFExpiresAt : time; Principal_CreatedAt : time; Principal_LastSeenAt : time;
  Principal_AuthenticatedAt : time; Principal_ExpiresAt : time; Principal_IdleExpiresAt : time;
  Principal_RevokedAt : option time }.

Record Summary := mkSummary {
  Summary_ID : uuid; Summary_UserID : uuid; Summary_Username : string; Summary_UserStatus : string;
  Summary_CreatedAt : time; Summary_LastSeenAt : time; Summary_AuthenticatedAt : time; Summary_ExpiresAt : time;
  Summary_IdleExpiresAt : time; Summary_RevokedAt : option time; Summary_RevokeReason : string;
  Summary_IPPrefix : string; Summary_Current : bool }.

(** ** Addresses

    [net/netip]: an address is invalid, four bytes, or sixteen; its groups are numbers. *)

Inductive Addr := AddrInvalid | Addr4 (octets : list N) | Addr6 (groups : list N).

Fixpoint digits_fuel (fuel : nat) (base n : N) (acc : string) : string :=
  match fuel with
  | O => acc
  | S fuel' =>
      let d := (n mod base)%N in
      let c := ascii_of_N (if d <? 10 then 48 + d else 87 + d)%N in
      if (n <? base)%N then String c acc else digits_fuel fuel' base (n / base)%N (String c acc)
  end.
(** [strconv] in a base of at most sixteen; a group has at most five digits. *)
Definition digits (base n : N) : string := digits_fuel 20 base n "".

Fixpoint join_on (sep : string) (parts : list string) : string :=
  match parts with
  | [] => ""
  | [p] => p
  | p :: rest => p +:+ sep +:+ join_on sep rest
  end.

(** [Unmap]: an IPv4 address mapped into IPv6. *)
Definition Unmap (a : Addr) : Addr :=
  match a with
  | Addr6 [g0; g1; g2; g3; g4; g5; hi; lo] =>
      if forallb (N.eqb 0) [g0; g1; g2; g3; g4] && (g5 =? 65535)%N
      then Addr4 [hi / 256; hi mod 256; lo / 256; lo mod 256]%N else a
  | _ => a
  end.

Fixpoint strip_zero_groups (groups : list N) : list N :=
  match groups with
  | [] => []
  | g :: rest => match strip_zero_groups rest with [] => if (g =? 0)%N then [] else [g] | kept => g :: kept end
  end.

(** The /24 of an IPv4 address or the /56 of an IPv6 one, in its canonical text form:
    the last four groups are zero, which is the longest zero run, so it is elided. *)
Definition coarseIP (address : Addr) : string :=
  match Unmap address with
  | Addr4 [a; b; c; _] => join_on "." [digits 10 a; digits 10 b; digits 10 c; "0"] +:+ "/24"
  | Addr6 (g0 :: g1 :: g2 :: g3 :: _) =>
      join_on ":" (digits 16 <$> strip_zero_groups [g0; g1; g2; g3 - g3 mod 256]%N) +:+ "::/56"
  | _ => ""
  end.

Example coarse_ip : coarseIP <$> [Addr4 [203; 0; 113; 9]%N; Addr6 [8193; 3512; 0; 4660; 1; 2; 3; 4]%N;
                                 Addr6 [0; 0; 0; 0; 0; 65535; 49320; 257]%N; AddrInvalid] =
  ["203.0.113.0/24"; "2001:db8:0:1200::/56"; "192.168.1.0/24"; ""].
Proof. reflexivity. Qed.

(** ** Values *)

Definition tokenBytes : nat := 32.

Definition newToken (prefix : string) : Rnd string :=
  value ← ReadFull tokenBytes (errors_New "secure token generation failed");
  mret (prefix +:+ Base64.Encode value).

Definition validToken (value prefix : string) : bool :=
  if negb (HasPrefix value prefix) then false
  else match Base64.DecodeString (TrimPrefix value prefix) with
       | None => false
       | Some decoded => len decoded =? Z.of_nat tokenBytes
       end.

Definition HashToken (token : string) : bytes := Sha256.Sum256 ("oneissuer:browser-token:v1:" +:+ token).
Definition HashCSRF (token : string) : bytes := Sha256.Sum256 ("oneissuer:csrf:v1:" +:+ token).

Definition csrfMatches (token : string) (expected : bytes) : bool :=
  if negb (validToken token "c1_") || (len expected != Sha256.Size) then false
  else HashCSRF token == expected.

Definition hashOptional (prefix value : string) : option bytes :=
  if value == "" then None else Some (Sha256.Sum256 (prefix +:+ value)).

(** ** The token manager *)

Record TokenManager := mkTokenManager { sessionTTL : duration; idleTimeout : duration; csrfTTL : duration }.

Definition NewTokenManager (sessionTTL idleTimeout csrfTTL : duration) : option TokenManager :=
  if (sessionTTL <=? 0) || (idleTimeout <=? 0) || (sessionTTL <? idleTimeout) || (csrfTTL <=? 0) then None
  else Some (mkTokenManager sessionTTL idleTimeout csrfTTL).

Section manager.
Context {P : Platform} (m : TokenManager).

Definition NewAuthenticated (userID : uuid) (now : time) (userAgent : string) (clientIP : Addr) : Rnd Issued :=
  token ← newToken "s1_";
  csrf ← newToken "c1_";
  id ← NewRandomFromReader (errors_New "session identifier generation failed");
  let expires := Time.Add now (sessionTTL m) in
  let idleExpires := Time.Add now (idleTimeout m) in
  let idleExpires := if Time.After idleExpires expires then expires else idleExpires in
  mret (mkIssued token csrf (mkSessionRecord id userID id (HashToken token) (HashCSRF csrf) (Time.Add now (csrfTTL m))
    now now now expires idleExpires (hashOptional "oneissuer:user-agent:v1:" userAgent) (coarseIP clientIP))).

Definition NewPreAuth (transactionID : uuid) (now : time) : Rnd IssuedPreAuth :=
  token ← newToken "p1_";
  csrf ← newToken "c1_";
  id ← NewRandomFromReader (errors_New "pre-auth identifier generation failed");
  mret (mkIssuedPreAuth token csrf (mkPreAuthRecord id (HashToken token) (HashCSRF csrf) transactionID now
    (Time.Add now (csrfTTL m)) None 0)).

Definition NewCSRF (now : time) : Rnd (string * bytes * time) :=
  token ← newToken "c1_";
  mret (token, HashCSRF token, Time.Add now (csrfTTL m)).

(** [None] is the nil error. *)
Definition ValidatePreAuth (record : PreAuthRecord) (clearCookie clearCSRF : string) (now : time) : option error :=
  if negb (validToken clearCookie "p1_") || bool_decide (is_Some (PreAuth_ConsumedAt record)) ||
     negb (Time.Before now (PreAuth_ExpiresAt record))
  then Some session_ErrUnauthenticated
  else if (HashToken clearCookie != PreAuth_TokenHash record) || negb (csrfMatches clearCSRF (PreAuth_CSRFHash record))
  then Some session_ErrInvalidCSRF
  else None.

Definition NextIdleExpiry (now absolute : time) : time :=
  let next := Time.Add now (idleTimeout m) in if Time.After next absolute then absolute else next.
End manager.
