(* ===== verification/NetAddr.v ===== *)
(** * [net/netip]: parsing addresses

    [netip.ParseAddr] with its IPv4 and IPv6 grammars, [net.ParseIP], prefixes and the
    loopback test.  An IPv6 zone is kept beside the address. *)

From S2P Require Import Prelude Text SessionTokens.

(** The four fields of a dotted quad: [digits] counts those of the field being read. *)
Fixpoint parse_quad (fields : list N) (digits : nat) (val : Z) (s : string) : option (list N) :=
  match s with
  | EmptyString =>
      match digits, fields with
      | O, _ => None
      | _, [c; b; a] => Some [a; b; c; Z.to_N val]
      | _, _ => None
      end
  | String ch r =>
      match digit ch with
      | Some d =>
          if (digits =? 1)%nat && (val =? 0) then None
          else if 255 <? 10 * val + d then None
          else parse_quad fields (S digits) (10 * val + d) r
      | None =>
          if negb (Ascii.eqb ch ".") || (digits =? 0)%nat || (3 <=? length fields)%nat then None
          else parse_quad (Z.to_N val :: fields) 0 0 r
      end
  end.

Definition hex_digit (c : ascii) : option N :=
  let b := N_of_ascii c in
  if (48 <=? b)%N && (b <=? 57)%N then Some (b - 48)%N
  else if (97 <=? b)%N && (b <=? 102)%N then Some (b - 87)%N
  else if (65 <=? b)%N && (b <=? 70)%N then Some (b - 55)%N
  else None.

(** The leading hexadecimal digits: their number, their value, the rest. *)
Fixpoint hex_run (count : nat) (acc : N) (s : string) : nat * N * string :=
  match s with
  | EmptyString => (count, acc, "")
  | String c r => match hex_digit c with Some d => hex_run (S count) (acc * 16 + d)%N r | None => (count, acc, s) end
  end.

(** Expansion of the ellipsis: [before] and [after] are the groups on its two sides. *)
Definition expand (before : list N) (ellipsis : option nat) : option (list N) :=
  let n := length before in
  match ellipsis with
  | None => if (n =? 8)%nat then Some before else None
  | Some at_ => if (8 <=? n)%nat then None else Some (take at_ before ++ replicate (8 - n) 0%N ++ drop at_ before)
  end.

(** The loop over the groups; every turn but the last consumes a colon, so the length of
    the text bounds the turns. *)
Fixpoint parse_groups (fuel : nat) (groups : list N) (ellipsis : option nat) (s : string) : option (list N) :=
  match fuel with
  | O => None
  | S fuel' =>
      if (8 <=? length groups)%nat then None
      else
        let '(count, acc, rest) := hex_run 0 0 s in
        if (count =? 0)%nat || (4 <? count)%nat then None
        else match rest with
             | EmptyString => expand (groups ++ [acc]) ellipsis
             | String "." _ =>
                 if (bool_decide (ellipsis = None) && negb (length groups =? 6)%nat) || (6 <? length groups)%nat then None
                 else match parse_quad [] 0 0 s with
                      | Some [a; b; c; d] => expand (groups ++ [a * 256 + b; c * 256 + d]%N) ellipsis
                      | _ => None
                      end
             | String ":" EmptyString => None
             | String ":" (String ":" more) =>
                 if ellipsis != None then None
                 else if more == "" then expand (groups ++ [acc]) (Some (S (length groups)))
                 else parse_groups fuel' (groups ++ [acc]) (Some (S (length groups))) more
             | String ":" more => parse_groups fuel' (groups ++ [acc]) ellipsis more
             | _ => None
             end
  end.

Definition parse_ipv6 (s : string) : option (Addr * string) :=
  let '(address, zone, zoned) := Cut "%" s in
  if zoned && (zone == "") then None
  else
    let groups :=
      if HasPrefix address "::" then
        let rest := str_drop 2 address in
        if rest == "" then Some (replicate 8 0%N) else parse_groups (S (String.length rest)) [] (Some 0%nat) rest
      else parse_groups (S (String.length address)) [] None address in
    match groups with Some g => Some (Addr6 g, zone) | None => None end.

(** The first of '.', ':' and '%' decides the grammar. *)
Fixpoint addr_kind (s : string) : option ascii :=
  match s with
  | EmptyString => None
  | String c r => if existsb (Ascii.eqb c) ["."; ":"; "%"]%char then Some c else addr_kind r
  end.

Definition ParseAddr (s : string) : option (Addr * string) :=
  match addr_kind s with
  | Some "."%char => match parse_quad [] 0 0 s with Some octets => Some (Addr4 octets, "") | None => None end
  | Some ":"%char => parse_ipv6 s
  | _ => None
  end.

(** [net.ParseIP]: an address without a zone. *)
Definition ParseIP (s : string) : option Addr :=
  match ParseAddr s with Some (a, zone) => if zone == "" then Some a else None | None => None end.

(** [IP.IsLoopback]: 127.0.0.0/8, also mapped into IPv6, or ::1. *)
Definition IsLoopback (a : Addr) : bool :=
  match Unmap a with
  | Addr4 (b :: _) => (b =? 127)%N
  | Addr6 groups => groups == [0; 0; 0; 0; 0; 0; 0; 1]%N
  | _ => false
  end.

(** ** Prefixes *)

Record Prefix := mkPrefix { Prefix_Addr : Addr; Prefix_Bits : Z }.

Definition addr_value (width : N) (fields : list N) : N := fold_left (λ acc f, (acc * 2 ^ width + f)%N) fields 0%N.

(** [Prefix.Contains] of an address without zone: the same family and the same leading bits. *)
Definition Prefix_Contains (p : Prefix) (a : Addr) : bool :=
  match Prefix_Addr p, a with
  | Addr4 f, Addr4 g =>
      (0 <=? Prefix_Bits p) && (Prefix_Bits p <=? 32) &&
      (N.shiftr (N.lxor (addr_value 8 f) (addr_value 8 g)) (Z.to_N (32 - Prefix_Bits p)) =? 0)%N
  | Addr6 f, Addr6 g =>
      (0 <=? Prefix_Bits p) && (Prefix_Bits p <=? 128) &&
      (N.shiftr (N.lxor (addr_value 16 f) (addr_value 16 g)) (Z.to_N (128 - Prefix_Bits p)) =? 0)%N
  | _, _ => false
  end.

#[export] Instance Addr_eq_dec : EqDecision Addr.
Proof. solve_decision. Defined.

Example parse_addrs : ParseAddr <$> ["203.0.113.9"; "1.2.3"; "1.2.3.04"; "1.2.3.256"; "2001:db8::1"; "::"; "::ffff:192.168.1.1"; "1:2:3:4:5:6:7:8"; "1::2::3"; "fe80::1%eth0"; "1:2:3:4:5:6:7::"; "::1:2:3:4:5:6:7:8"; "12345::"; "1.2.3.4."] =
  [Some (Addr4 [203; 0; 113; 9]%N, ""); None; None; None; Some (Addr6 [8193; 3512; 0; 0; 0; 0; 0; 1]%N, "");
   Some (Addr6 [0; 0; 0; 0; 0; 0; 0; 0]%N, ""); Some (Addr6 [0; 0; 0; 0; 0; 65535; 49320; 257]%N, "");
   Some (Addr6 [1; 2; 3; 4; 5; 6; 7; 8]%N, ""); None; Some (Addr6 [65152; 0; 0; 0; 0; 0; 0; 1]%N, "eth0");
   Some (Addr6 [1; 2; 3; 4; 5; 6; 7; 0]%N, ""); None; None; None].
Proof. vm_compute. reflexivity. Qed.
Example loopbacks : (λ s, IsLoopback <$> ParseIP s) <$> ["127.0.0.1"; "::1"; "::ffff:127.0.0.2"; "10.0.0.1"; "::1%lo"] =
  [Some true; Some true; Some true; Some false; None].
Proof. vm_compute. reflexivity. Qed.
Example prefixes : (λ a, Prefix_Contains (mkPrefix (Addr4 [10; 0; 0; 0]%N) 8) a) <$> [Addr4 [10; 9; 8; 7]%N; Addr4 [11; 0; 0; 0]%N; AddrInvalid] =
  [true; false; false].
Proof. vm_compute. reflexivity. Qed.
