(* ===== verification/Url.v ===== *)
(** * [net/url]

    Percent-encoding, [url.Parse] and [URL.String], query strings and [url.Values], as
    the Go release of the Dockerfile has them.  [Values] is a finite map: Go iterates over
    it in no fixed order, and [Encode] sorts the keys. *)

From S2P Require Import Prelude Text Scopes SessionTokens NetAddr.

Inductive encoding := encodePath | encodeHost | encodeZone | encodeUserPassword | encodeQueryComponent | encodeFragment.
#[export] Instance encoding_eq_dec : EqDecision encoding.
Proof. solve_decision. Defined.

Definition one_of (set : list ascii) (c : ascii) : bool := existsb (Ascii.eqb c) set.
Definition alphanumeric (c : ascii) : bool :=
  let b := utf8.byte c in
  ((97 <=? b) && (b <=? 122)) || ((65 <=? b) && (b <=? 90)) || ((48 <=? b) && (b <=? 57)).
Definition DQUOTE : ascii := "034".

Definition shouldEscape (c : ascii) (mode : encoding) : bool :=
  if alphanumeric c then false
  else if ((mode == encodeHost) || (mode == encodeZone)) &&
          one_of ["!"; "$"; "&"; "'"; "("; ")"; "*"; "+"; ","; ";"; "="; ":"; "["; "]"; "<"; ">"; DQUOTE]%char c then false
  else if one_of ["-"; "_"; "."; "~"]%char c then false
  else if one_of ["$"; "&"; "+"; ","; "/"; ":"; ";"; "="; "?"; "@"]%char c then
    match mode with
    | encodePath => Ascii.eqb c "?"
    | encodeUserPassword => one_of ["@"; "/"; "?"; ":"]%char c
    | encodeQueryComponent => true
    | encodeFragment => false
    | encodeHost | encodeZone => true
    end
  else if (mode == encodeFragment) && one_of ["!"; "("; ")"; "*"]%char c then false
  else true.

Definition hex_upper (n : N) : ascii := ascii_of_N (if (n <? 10)%N then 48 + n else 55 + n)%N.

Fixpoint escape (mode : encoding) (s : string) : string :=
  match s with
  | EmptyString => ""
  | String c r =>
      if Ascii.eqb c " " && (mode == encodeQueryComponent) then String "+" (escape mode r)
      else if shouldEscape c mode then
        String "%" (String (hex_upper (N_of_ascii c / 16)) (String (hex_upper (N_of_ascii c mod 16)) (escape mode r)))
      else String c (escape mode r)
  end.

(** What an escaped byte may not be in a host or a zone. *)
Definition escape_refused (mode : encoding) (hi lo : N) : bool :=
  let percent := (hi =? 2)%N && (lo =? 5)%N in
  let v := ascii_of_N (hi * 16 + lo) in
  match mode with
  | encodeHost => (hi <? 8)%N && negb percent
  | encodeZone => negb percent && negb (Ascii.eqb v " ") && shouldEscape v encodeHost
  | _ => false
  end.

Fixpoint unescape (mode : encoding) (s : string) : option string :=
  match s with
  | EmptyString => Some ""
  | String "%" (String a (String b r)) =>
      match hex_digit a, hex_digit b with
      | Some hi, Some lo =>
          if escape_refused mode hi lo then None
          else String (ascii_of_N (hi * 16 + lo)) <$> unescape mode r
      | _, _ => None
      end
  | String "%" _ => None
  | String c r =>
      if ((mode == encodeHost) || (mode == encodeZone)) && (utf8.byte c <? 128) && shouldEscape c mode then None
      else String (if Ascii.eqb c "+" && (mode == encodeQueryComponent) then " "%char else c) <$> unescape mode r
  end.

Definition QueryEscape : string → string := escape encodeQueryComponent.
Definition QueryUnescape : string → option string := unescape encodeQueryComponent.

(** ** URLs *)

(** The user of a URL: a name and, after a colon, a password. *)
Record URL := mkURL {
  URL_Scheme : string; URL_Opaque : string; URL_User : option (string * option string); URL_Host : string;
  URL_Path : string; URL_RawPath : string; URL_OmitHost : bool; URL_ForceQuery : bool; URL_RawQuery : string;
  URL_Fragment : string; URL_RawFragment : string }.

Definition IsAbs (u : URL) : bool := URL_Scheme u != "".

Definition letter (c : ascii) : bool :=
  let b := utf8.byte c in ((97 <=? b) && (b <=? 122)) || ((65 <=? b) && (b <=? 90)).
Definition scheme_byte (c : ascii) : bool := alphanumeric c || one_of ["+"; "-"; "."]%char c.

(** The length of the scheme before the first colon; [inr] is a colon with nothing before it. *)
Definition getScheme (raw : string) : option (string * string) :=
  let '(scheme, rest, found) := Cut ":" raw in
  match scheme with
  | EmptyString => if found then None else Some ("", raw)
  | String c _ => if found && letter c && every scheme_byte scheme then Some (scheme, rest) else Some ("", raw)
  end.

(** ":" and digits, or nothing. *)
Definition validOptionalPort (port : string) : bool :=
  match port with
  | EmptyString => true
  | String c digits => Ascii.eqb c ":" && every (λ d, bool_decide (is_Some (digit d))) digits
  end.

Definition parseHost (scheme host : string) : option string :=
  match CutLast "[" host with
  | Some (EmptyString, literal) =>
      match CutLast "]" literal with
      | None => None
      | Some (name, colonPort) =>
          if negb (validOptionalPort colonPort) then None
          else
            let unescaped :=
              match CutBefore "%25" name with
              | Some (before, zone) => h ← unescape encodeHost before; z ← unescape encodeZone zone; Some (h +:+ z)
              | None => unescape encodeHost name
              end in
            match unescaped with
            | None => None
            | Some h =>
                match ParseAddr h with
                | Some (Addr6 _, _) => p ← unescape encodeHost colonPort; Some ("[" +:+ h +:+ "]" +:+ p)
                | _ => None
                end
            end
      end
  | Some _ => None
  | None =>
      let port :=
        if (scheme == "postgresql") || (scheme == "postgres")
        then match CutLast ":" host with Some (_, p) => ":" +:+ p | None => "" end
        else let '(_, p, found) := Cut ":" host in if found then ":" +:+ p else "" in
      if validOptionalPort port then unescape encodeHost host else None
  end.

Definition valid_userinfo_byte (c : ascii) : bool :=
  alphanumeric c || one_of ["-"; "."; "_"; ":"; "~"; "!"; "$"; "&"; "'"; "("; ")"; "*"; "+"; ","; ";"; "="; "%"; "@"]%char c.

Definition parseUser (info : string) : option (string * option string) :=
  if negb (every valid_userinfo_byte info) then None
  else let '(name, password, found) := Cut ":" info in
       n ← unescape encodeUserPassword name;
       if found then p ← unescape encodeUserPassword password; Some (n, Some p) else Some (n, None).

Definition parseAuthority (scheme authority : string) : option (option (string * option string) * string) :=
  match CutLast "@" authority with
  | None => host ← parseHost scheme authority; Some (None, host)
  | Some (info, hostport) => host ← parseHost scheme hostport; user ← parseUser info; Some (Some user, host)
  end.

Definition validEncoded (mode : encoding) (s : string) : bool :=
  every (λ c, one_of ["!"; "$"; "&"; "'"; "("; ")"; "*"; "+"; ","; ";"; "="; ":"; "@"; "["; "]"; "%"]%char c ||
              negb (shouldEscape c mode)) s.

Definition setPath (p : string) : option (string * string) :=
  path ← unescape encodePath p; Some (path, if escape encodePath path == p then "" else p).
Definition setFragment (f : string) : option (string * string) :=
  fragment ← unescape encodeFragment f; Some (fragment, if escape encodeFragment fragment == f then "" else f).

Definition ctl_byte (c : ascii) : bool := (utf8.byte c <? 32) || (utf8.byte c =? 127).

(** The part before a slash and the part from it. *)
Definition cut_slash (s : string) : string * string :=
  let '(a, b, found) := Cut "/" s in if found then (a, "/" +:+ b) else (s, "").

(** [parse(rawURL, false)]: everything but the fragment. *)
Definition parse (raw : string) : option URL :=
  if negb (every (λ c, negb (ctl_byte c)) raw) then None
  else if raw == "*" then Some (mkURL "" "" None "" "*" "" false false "" "" "")
  else match getScheme raw with
       | None => None
       | Some (scheme, rest) =>
           let scheme := lower_ascii scheme in
           let force := ends_with "?" rest && (Count "?" rest =? 1) in
           let '(rest, query, _) := Cut "?" rest in
           if negb (HasPrefix rest "/") && (scheme != "") then Some (mkURL scheme rest None "" "" "" false force query "" "")
           else if negb (HasPrefix rest "/") && contains_byte ":" (cut_slash rest).1 then None
           else if ((scheme != "") || negb (HasPrefix rest "///")) && HasPrefix rest "//" then
             let '(authority, path) := cut_slash (str_drop 2 rest) in
             match parseAuthority scheme authority, setPath path with
             | Some (user, host), Some (p, rawPath) => Some (mkURL scheme "" user host p rawPath false force query "" "")
             | _, _ => None
             end
           else match setPath rest with
                | Some (p, rawPath) =>
                    Some (mkURL scheme "" None "" p rawPath ((scheme != "") && HasPrefix rest "/") force query "" "")
                | None => None
                end
       end.

Definition with_fragment (f : string * string) (u : URL) : URL :=
  mkURL (URL_Scheme u) (URL_Opaque u) (URL_User u) (URL_Host u) (URL_Path u) (URL_RawPath u) (URL_OmitHost u)
    (URL_ForceQuery u) (URL_RawQuery u) f.1 f.2.
Definition with_raw_query (q : string) (u : URL) : URL :=
  mkURL (URL_Scheme u) (URL_Opaque u) (URL_User u) (URL_Host u) (URL_Path u) (URL_RawPath u) (URL_OmitHost u)
    (URL_ForceQuery u) q (URL_Fragment u) (URL_RawFragment u).
Definition with_path (p : string) (u : URL) : URL :=
  mkURL (URL_Scheme u) (URL_Opaque u) (URL_User u) (URL_Host u) p (URL_RawPath u) (URL_OmitHost u)
    (URL_ForceQuery u) (URL_RawQuery u) (URL_Fragment u) (URL_RawFragment u).

Definition Parse (raw : string) : option URL :=
  let '(before, fragment, _) := Cut "#" raw in
  url ← parse before;
  if fragment == "" then Some url else f ← setFragment fragment; Some (with_fragment f url).

(** [URL.Hostname]: the host without brackets and port. *)
Definition Hostname (u : URL) : string :=
  let host := match CutLast ":" (URL_Host u) with
              | Some (name, port) => if validOptionalPort (":" +:+ port) then name else URL_Host u
              | None => URL_Host u
              end in
  if HasPrefix host "[" && ends_with "]" host then String.substring 1 (String.length host - 2) host else host.

Definition EscapedPath (u : URL) : string :=
  if (URL_RawPath u != "") && validEncoded encodePath (URL_RawPath u) && (unescape encodePath (URL_RawPath u) == Some (URL_Path u))
  then URL_RawPath u
  else if URL_Path u == "*" then "*" else escape encodePath (URL_Path u).
Definition EscapedFragment (u : URL) : string :=
  if (URL_RawFragment u != "") && validEncoded encodeFragment (URL_RawFragment u) &&
     (unescape encodeFragment (URL_RawFragment u) == Some (URL_Fragment u))
  then URL_RawFragment u else escape encodeFragment (URL_Fragment u).

Definition user_string (user : string * option string) : string :=
  escape encodeUserPassword user.1 +:+ match user.2 with Some p => ":" +:+ escape encodeUserPassword p | None => "" end.

Definition authority_string (u : URL) : string :=
  if (URL_Scheme u == "") && (URL_Host u == "") && (URL_User u == None) then ""
  else if URL_OmitHost u && (URL_Host u == "") && (URL_User u == None) then ""
  else (if (URL_Host u != "") || (URL_Path u != "") || (URL_User u != None) then "//" else "") +:+
       match URL_User u with Some user => user_string user +:+ "@" | None => "" end +:+ escape encodeHost (URL_Host u).

(** [URL.String]. *)
Definition URL_String (u : URL) : string :=
  let start := if URL_Scheme u != "" then URL_Scheme u +:+ ":" else "" in
  let body :=
    if URL_Opaque u != "" then start +:+ URL_Opaque u
    else
      let front := start +:+ authority_string u in
      let path := EscapedPath u in
      let slash := if (path != "") && negb (HasPrefix path "/") && (URL_Host u != "") then "/" else "" in
      let dot := if (front +:+ slash == "") && contains_byte ":" (cut_slash path).1 then "./" else "" in
      front +:+ slash +:+ dot +:+ path in
  body +:+ (if URL_ForceQuery u || (URL_RawQuery u != "") then "?" +:+ URL_RawQuery u else "") +:+
  (if URL_Fragment u != "" then "#" +:+ EscapedFragment u else "").

(** ** Query strings *)

Abbreviation Values := (gmap string (list string)) (only parsing).

Definition values_at (values : Values) (key : string) : list string := default [] (values !! key).
Definition Get (values : Values) (key : string) : string := match values_at values key with [] => "" | v :: _ => v end.
Definition values_add (values : Values) (key value : string) : Values := <[key := values_at values key ++ [value]]> values.
Definition Has (values : Values) (key : string) : bool := bool_decide (is_Some (values !! key)).

(** One setting: an empty one is skipped, a bad one is remembered as an error. *)
Definition parse_setting (acc : Values * bool) (setting : string) : Values * bool :=
  let '(values, ok) := acc in
  if contains_byte ";" setting then (values, false)
  else if setting == "" then (values, ok)
  else let '(key, value, _) := Cut "=" setting in
       match QueryUnescape key, QueryUnescape value with
       | Some k, Some v => (values_add values k v, ok)
       | _, _ => (values, false)
       end.

(** [ParseQuery]: the values and whether there was no error; at most ten thousand settings. *)
Definition maxQueryParams : Z := 10000.
Definition ParseQuery (query : string) : Values * bool :=
  if maxQueryParams <? Count "&" query + 1 then (∅, false)
  else fold_left parse_setting (Split "&" query) (∅, true).

Definition setting (kv : string * string) : string := QueryEscape kv.1 +:+ "=" +:+ QueryEscape kv.2.
Definition pairs_of (values : Values) (key : string) : list (string * string) := (λ v, (key, v)) <$> values_at values key.
Definition sorted_keys (values : Values) : list string := sort_Strings (map_to_list values).*1.

(** [Values.Encode]: sorted by key. *)
Definition Encode_values (values : Values) : string :=
  join_on "&" (setting <$> (sorted_keys values ≫= pairs_of values)).

(** ** Facts *)

Lemma query_byte c r :
  unescape encodeQueryComponent (escape encodeQueryComponent (String c r)) =
  String c <$> unescape encodeQueryComponent (escape encodeQueryComponent r).
Proof.
  set (q := escape encodeQueryComponent). change (q (String c r)) with
    (if Ascii.eqb c " " && true then String "+" (q r)
     else if shouldEscape c encodeQueryComponent then
       String "%" (String (hex_upper (N_of_ascii c / 16)) (String (hex_upper (N_of_ascii c mod 16)) (q r)))
     else String c (q r)). clearbody q.
  destruct c as [[|] [|] [|] [|] [|] [|] [|] [|]]; reflexivity.
Qed.

Lemma QueryUnescape_QueryEscape s : QueryUnescape (QueryEscape s) = Some s.
Proof.
  unfold QueryUnescape, QueryEscape. induction s as [|c s IH]; [done|]. by rewrite query_byte, IH.
Qed.

(** The characters of an escaped component. *)
Definition query_character (c : ascii) : bool := alphanumeric c || one_of ["-"; "_"; "."; "~"; "+"; "%"]%char c.

Lemma query_character_byte c s :
  every query_character (QueryEscape (String c s)) = every query_character (QueryEscape s).
Proof.
  unfold QueryEscape. set (q := escape encodeQueryComponent). change (q (String c s)) with
    (if Ascii.eqb c " " && true then String "+" (q s)
     else if shouldEscape c encodeQueryComponent then
       String "%" (String (hex_upper (N_of_ascii c / 16)) (String (hex_upper (N_of_ascii c mod 16)) (q s)))
     else String c (q s)). clearbody q.
  destruct c as [[|] [|] [|] [|] [|] [|] [|] [|]]; reflexivity.
Qed.
Lemma QueryEscape_characters s : every query_character (QueryEscape s) = true.
Proof. induction s as [|c s IH]; [done|]. by rewrite query_character_byte. Qed.

Lemma QueryEscape_no c s : query_character c = false → contains_byte c (QueryEscape s) = false.
Proof. intros H. eapply every_not_contains; [apply QueryEscape_characters|done]. Qed.

Lemma setting_no c kv : query_character c = false → Ascii.eqb "=" c = false → contains_byte c (setting kv) = false.
Proof.
  intros Hc He. unfold setting. rewrite !contains_byte_app, !QueryEscape_no by done.
  unfold contains_byte. simpl. rewrite Ascii.eqb_sym, He. done.
Qed.

(** A written setting is read back. *)
Lemma parse_setting_setting values ok kv :
  parse_setting (values, ok) (setting kv) = (values_add values kv.1 kv.2, ok).
Proof.
  unfold parse_setting. rewrite setting_no by done.
  rewrite bool_decide_eq_false_2.
  2: { unfold setting. intros E. apply (f_equal String.length) in E. rewrite !length_app_string in E. simpl in E. lia. }
  unfold setting. change ("=" +:+ QueryEscape kv.2) with (String "=" (QueryEscape kv.2)).
  rewrite Cut_app by (by apply QueryEscape_no). by rewrite !QueryUnescape_QueryEscape.
Qed.

Definition add_pair (values : Values) (kv : string * string) : Values := values_add values kv.1 kv.2.

Lemma Split_join (l : list (string * string)) :
  l ≠ [] → Split "&" (join_on "&" (setting <$> l)) = setting <$> l.
Proof.
  induction l as [|kv [|kv' l] IH]; intros Hl; [done| |].
  - simpl. by rewrite Split_none by (by apply setting_no).
  - rewrite fmap_cons. change (join_on "&" (setting kv :: (setting <$> kv' :: l)))
      with (setting kv +:+ String "&" (join_on "&" (setting <$> kv' :: l))).
    rewrite Split_app by (by apply setting_no). f_equal. by apply IH.
Qed.

Lemma Count_none c s : contains_byte c s = false → Count c s = 0.
Proof.
  unfold contains_byte. rewrite negb_false_iff. induction s as [|d s IH]; simpl; [done|].
  rewrite andb_true_iff, negb_true_iff, Ascii.eqb_sym. intros [-> H]. by rewrite IH.
Qed.
Lemma Count_app c a b : Count c (a +:+ b) = Count c a + Count c b.
Proof.
  induction a as [|d a IH]; [done|]. change (Count c (String d a +:+ b)) with ((if Ascii.eqb d c then 1 else 0) + Count c (a +:+ b)).
  rewrite IH. simpl. lia.
Qed.
Lemma Count_join (l : list (string * string)) :
  l ≠ [] → Count "&" (join_on "&" (setting <$> l)) + 1 = Z.of_nat (length l).
Proof.
  induction l as [|kv [|kv' l] IH]; intros Hl; [done| |].
  - simpl. by rewrite Count_none by (by apply setting_no).
  - rewrite fmap_cons. change (join_on "&" (setting kv :: (setting <$> kv' :: l)))
      with (setting kv +:+ ("&" +:+ join_on "&" (setting <$> kv' :: l))).
    rewrite !Count_app, Count_none by (by apply setting_no). specialize (IH ltac:(done)).
    cbn [length] in *. simpl (Count "&" "&"). lia.
Qed.

Lemma fold_settings l values ok :
  fold_left parse_setting (setting <$> l) (values, ok) = (fold_left add_pair l values, ok).
Proof.
  revert values. induction l as [|kv l IH]; intros values; [done|]. rewrite fmap_cons. cbn [fold_left].
  by rewrite parse_setting_setting, IH.
Qed.

(** Adding the pairs of one key to a map without it. *)
Lemma fold_one_key key vs values :
  fold_left add_pair ((λ v, (key, v)) <$> vs) values =
  if vs == [] then values else <[key := values_at values key ++ vs]> values.
Proof.
  revert values. induction vs as [|v vs IH]; intros values; [done|]. rewrite fmap_cons. cbn [fold_left]. rewrite IH.
  rewrite (bool_decide_eq_false_2 (v :: vs = [])) by done. unfold add_pair, values_add, values_at. cbn [fst snd].
  case_bool_decide as E; [by subst|]. rewrite lookup_insert_eq, insert_insert_eq. simpl. by rewrite <- app_assoc.
Qed.

Lemma fold_left_app' {A B} (f : A → B → A) l k a : fold_left f (l ++ k) a = fold_left f k (fold_left f l a).
Proof. revert a. induction l as [|x l IH]; intros a; [done|]. apply IH. Qed.

Lemma lookup_fold_keys (values : Values) keys acc k :
  NoDup keys → (∀ x, x ∈ keys → acc !! x = None) →
  fold_left add_pair (keys ≫= pairs_of values) acc !! k =
  if bool_decide (k ∈ keys) then (if values_at values k == [] then None else Some (values_at values k)) else acc !! k.
Proof.
  revert acc. induction keys as [|key keys IH]; intros acc Hnd Hacc.
  - by rewrite bool_decide_eq_false_2 by set_solver.
  - apply NoDup_cons in Hnd as [Hk Hnd]. rewrite bind_cons, fold_left_app'. unfold pairs_of at 2.
    rewrite fold_one_key.
    set (acc' := if values_at values key == [] then acc else <[key := values_at acc key ++ values_at values key]> acc).
    assert (Hkey : acc' !! key = if values_at values key == [] then None else Some (values_at values key)).
    { unfold acc'. destruct (values_at values key == []); [apply Hacc; set_solver|]. rewrite lookup_insert_eq. unfold values_at at 1.
      rewrite Hacc by set_solver. done. }
    assert (Hother : ∀ x, x ≠ key → acc' !! x = acc !! x).
    { intros x Hx. unfold acc'. destruct (values_at values key == []); [done|]. by rewrite lookup_insert_ne. }
    rewrite IH; [|done|].
    2: { intros x Hx. rewrite Hother by (intros ->; done). apply Hacc. set_solver. }
    destruct (decide (k = key)) as [->|Hne].
    + rewrite (bool_decide_eq_false_2 (key ∈ keys)) by done. rewrite Hkey.
      by rewrite (bool_decide_eq_true_2 (key ∈ key :: keys)) by set_solver.
    + rewrite Hother by done. destruct (decide (k ∈ keys)).
      * by rewrite (bool_decide_eq_true_2 (k ∈ keys)), (bool_decide_eq_true_2 (k ∈ key :: keys)) by set_solver.
      * by rewrite (bool_decide_eq_false_2 (k ∈ keys)), (bool_decide_eq_false_2 (k ∈ key :: keys)) by set_solver.
Qed.

Lemma elem_of_sorted_keys (values : Values) k : k ∈ sorted_keys values ↔ is_Some (values !! k).
Proof.
  unfold sorted_keys. rewrite elem_of_sort_Strings, list_elem_of_fmap. split.
  - intros ([k' v] & -> & H%elem_of_map_to_list). by exists v.
  - intros [v H]. exists (k, v). by rewrite elem_of_map_to_list.
Qed.

Lemma fold_sorted_keys (values : Values) :
  map_Forall (λ _ vs, vs ≠ []) values → fold_left add_pair (sorted_keys values ≫= pairs_of values) ∅ = values.
Proof.
  intros Hv. apply map_eq. intros k. rewrite lookup_fold_keys.
  - destruct (values !! k) as [vs|] eqn:E.
    + rewrite bool_decide_eq_true_2 by (rewrite elem_of_sorted_keys; eauto). unfold values_at. rewrite E. simpl.
      by rewrite bool_decide_eq_false_2 by (by apply (Hv k)).
    + rewrite bool_decide_eq_false_2 by (rewrite elem_of_sorted_keys, E; by intros [? ?]). by rewrite lookup_empty.
  - unfold sorted_keys. apply NoDup_sort_Strings, NoDup_fst_map_to_list.
  - intros x _. apply lookup_empty.
Qed.

(** How many settings an encoded query has. *)
Definition settings_count (values : Values) : Z := Z.of_nat (length (sorted_keys values ≫= pairs_of values)).

(** Encoding and parsing a query give back the values. *)
Lemma ParseQuery_Encode (values : Values) :
  map_Forall (λ _ vs, vs ≠ []) values → settings_count values <= maxQueryParams →
  ParseQuery (Encode_values values) = (values, true).
Proof.
  intros Hv Hc. unfold ParseQuery, Encode_values. unfold settings_count in Hc. pose proof (fold_sorted_keys values Hv) as Hf.
  destruct (sorted_keys values ≫= pairs_of values) as [|kv l] eqn:E.
  - simpl in *. by rewrite <- Hf.
  - rewrite Count_join by done. rewrite (proj2 (Z.ltb_ge _ _)) by lia.
    rewrite Split_join by done. by rewrite fold_settings, Hf.
Qed.

Example parse_urls : (λ s : string, match Parse s with Some u => Some (URL_Scheme u, URL_Host u, Hostname u, URL_Path u, URL_RawQuery u) | None => None end) <$>
    ["HTTPS://Example.com:8443/cb%20x?a=1"; "http://[::1]:80/x"; "http://[1.2.3.4]/"; "http://a:80:80/"; "http://a b/"; "mailto:x@y"; "//h/p"; "1http://h"; ":x"] =
  [Some ("https", "Example.com:8443", "Example.com", "/cb x", "a=1"); Some ("http", "[::1]:80", "::1", "/x", ""); None; None; None;
   Some ("mailto", "", "", "", ""); Some ("", "h", "h", "/p", ""); None; None].
Proof. vm_compute. reflexivity. Qed.
Example url_strings : (λ s : string, URL_String <$> Parse s) <$> ["HTTPS://Example.com:8443/cb%20x?a=1#f"; "http://u:p@h/%2F?"; "mailto:x@y"; "/a/b"] =
  Some <$> ["https://Example.com:8443/cb%20x?a=1#f"; "http://u:p@h/%2F?"; "mailto:x@y"; "/a/b"].
Proof. vm_compute. reflexivity. Qed.

(** ** The query of a parsed URL *)

Lemma Cut_true sep s a b : Cut sep s = (a, b, true) → s = a +:+ String sep b.
Proof.
  revert a. induction s as [|c s IH]; intros a; simpl; [done|]. destruct (Ascii.eqb c sep) eqn:E.
  - intros [= <- <-]. apply Ascii.eqb_eq in E as ->. done.
  - destruct (Cut sep s) as [[a' b'] f]. intros [= <- <- ->]. by rewrite (IH a').
Qed.
Lemma Cut_skip sep a r : contains_byte sep a = false → (Cut sep (a +:+ r)).1.2 = (Cut sep r).1.2.
Proof.
  unfold contains_byte. rewrite negb_false_iff. induction a as [|c a IH]; simpl; [done|].
  rewrite andb_true_iff, negb_true_iff, Ascii.eqb_sym. intros [-> H]. rewrite <- IH by done. by destruct (Cut sep (a +:+ r)) as [[? ?] ?].
Qed.

Lemma scheme_no_query s : every scheme_byte s = true → contains_byte "?" s = false.
Proof. intros H. by apply (every_not_contains scheme_byte). Qed.

Lemma getScheme_query raw scheme rest : getScheme raw = Some (scheme, rest) → (Cut "?" rest).1.2 = (Cut "?" raw).1.2.
Proof.
  unfold getScheme. destruct (Cut ":" raw) as [[sc r] found] eqn:Ec. destruct sc as [|c sc]; [destruct found; [done|by intros [= <- <-]]|].
  destruct found; simpl; [|by intros [= <- <-]]. destruct (letter c); simpl; [|by intros [= <- <-]].
  destruct (_ && every _ _) eqn:Es; [|by intros [= <- <-]]. intros [= <- <-].
  apply Cut_true in Ec as ->. change (String c sc +:+ String ":" r) with (String c sc +:+ (":" +:+ r)).
  rewrite Cut_skip by (by apply scheme_no_query). symmetry. by apply (Cut_skip "?" ":" r).
Qed.

(** What follows the first question mark. *)
Definition query_of (uri : string) : string := (Cut "?" uri).1.2.

Lemma parse_query raw u : parse raw = Some u → URL_RawQuery u = query_of raw ∧ URL_Fragment u = "".
Proof.
  unfold parse, query_of. destruct (negb _); [done|]. destruct (raw == "*") eqn:Ea.
  { apply bool_decide_eq_true in Ea as ->. by intros [= <-]. }
  destruct (getScheme raw) as [[scheme rest]|] eqn:Eg; [|done]. apply getScheme_query in Eg. rewrite <- Eg. clear Eg.
  destruct (Cut "?" rest) as [[body query] f]. simpl. intros H. repeat case_match; simplify_eq; done.
Qed.

Lemma Parse_query raw u : Parse raw = Some u → contains_byte "#" raw = false → URL_RawQuery u = query_of raw.
Proof.
  unfold Parse. intros H Hh. rewrite Cut_none in H by done. simpl in H. destruct (parse raw) as [v|] eqn:E; [|done].
  injection H as <-. by apply parse_query in E as [E _].
Qed.
