(* ===== verification/AuditEvents.v ===== *)
(** * Audit events

    [internal/audit/audit.go]: the fixed vocabulary, the constructor [New] with its
    canonical changed-field list, and [Validate]. *)

From S2P Require Import Prelude Errors Platform Scopes Domain.

Module audit.

Definition AdminBootstrapSucceeded : string := "admin_bootstrap_succeeded".
Definition AdminBootstrapRejected : string := "admin_bootstrap_rejected".
Definition UserRegistered : string := "user_registered".
Definition UserRegistrationRejected : string := "user_registration_rejected".
Definition UserCreated : string := "user_created".
Definition UserUpdated : string := "user_updated".
Definition UserStatusChanged : string := "user_status_changed".
Definition UserRoleChanged : string := "user_role_changed".
Definition LoginSucceeded : string := "login_succeeded".
Definition LoginFailed : string := "login_failed".
Definition LoginDisabledUser : string := "login_disabled_user".
Definition SessionCreated : string := "session_created".
Definition SessionRevoked : string := "session_revoked".
Definition SessionsRevokedAll : string := "sessions_revoked_all".
Definition ClientCreated : string := "client_created".
Definition ClientUpdated : string := "client_updated".
Definition ClientDisabled : string := "client_disabled".
Definition ClientSecretRotated : string := "client_secret_rotated".
Definition RPLogoutCompleted : string := "rp_logout_completed".
Definition LogoutTransactionRejected : string := "logout_transaction_rejected".
Definition AuthorizationTransactionCreated : string := "authorization_transaction_created".
Definition AuthorizationTransactionConsumed : string := "authorization_transaction_consumed".
Definition AuthorizationTransactionExpired : string := "authorization_transaction_expired".
Definition AuthorizationTransactionRejected : string := "authorization_transaction_rejected".
Definition AuthorizationGranted : string := "authorization_granted".
Definition AuthorizationDenied : string := "authorization_denied".
Definition AuthorizationCodeIssued : string := "authorization_code_issued".
Definition AuthorizationCodeExchangeSucceeded : string := "authorization_code_exchange_succeeded".
Definition AuthorizationCodeExchangeRejected : string := "authorization_code_exchange_rejected".
Definition ConsentGrantCreated : string := "consent_grant_created".
Definition ConsentGrantExpanded : string := "consent_grant_expanded".
Definition AccessTokenIssued : string := "access_token_issued".
Definition RefreshTokenIssued : string := "refresh_token_issued".
Definition RefreshTokenRotated : string := "refresh_token_rotated".
Definition RefreshTokenReuseDetected : string := "refresh_token_reuse_detected".
Definition RefreshTokenFamilyRevoked : string := "refresh_token_family_revoked".
Definition AccessTokenRevoked : string := "access_token_revoked".
Definition ConsentGrantRevoked : string := "consent_grant_revoked".
Definition ConsentGrantReactivated : string := "consent_grant_reactivated".

Definition ResultSuccess : string := "success".
Definition ResultRejected : string := "rejected".
Definition ResultFailure : string := "failure".

Definition TargetUser : string := "user".
Definition TargetClient : string := "client".
Definition TargetSession : string := "session".
Definition TargetAuthTransaction : string := "auth_transaction".
Definition TargetConsentGrant : string := "consent_grant".
Definition TargetAuthorizationCode : string := "authorization_code".
Definition TargetAccessToken : string := "access_token".
Definition TargetRefreshToken : string := "refresh_token".
Definition TargetRefreshFamily : string := "refresh_token_family".
Definition TargetLogoutTransaction : string := "logout_transaction".

Definition validEvents : list string :=
  [AdminBootstrapSucceeded; AdminBootstrapRejected; UserRegistered;
   UserRegistrationRejected; UserCreated; UserUpdated; UserStatusChanged;
   UserRoleChanged; LoginSucceeded; LoginFailed; LoginDisabledUser;
   SessionCreated; SessionRevoked; SessionsRevokedAll; ClientCreated;
   ClientUpdated; ClientDisabled; ClientSecretRotated;
   AuthorizationTransactionCreated; AuthorizationTransactionConsumed;
   AuthorizationTransactionExpired; AuthorizationTransactionRejected; AuthorizationGranted;
   AuthorizationDenied; AuthorizationCodeIssued; AuthorizationCodeExchangeSucceeded;
   AuthorizationCodeExchangeRejected; ConsentGrantCreated; ConsentGrantExpanded; AccessTokenIssued;
   "signing_key_loaded"; RefreshTokenIssued; RefreshTokenRotated; "refresh_token_exchange_rejected";
   RefreshTokenReuseDetected; RefreshTokenFamilyRevoked; AccessTokenRevoked; ConsentGrantRevoked;
   ConsentGrantReactivated; RPLogoutCompleted; LogoutTransactionRejected].

Definition validResults : list string := [ResultSuccess; ResultRejected; ResultFailure].

Definition validTargets : list string :=
  [TargetUser; TargetClient; TargetSession; TargetAuthTransaction; TargetConsentGrant;
   TargetAuthorizationCode; TargetAccessToken; TargetRefreshToken; TargetRefreshFamily;
   TargetLogoutTransaction].

Definition validChangedFields : list string :=
  ["status"; "role"; "username"; "display_name"; "email"; "name"; "description"; "logo_uri";
   "registration_enabled"; "redirect_uris"; "logout_uris"; "scopes"; "secret"; "revoked"; "created";
   "expanded"; "issued"; "consumed"; "rotated"; "reused"; "reactivated"].

(** [requestIDPattern]: one to 128 characters of [A-Za-z0-9._:-]. *)
Definition requestIDCharacter (c : ascii) : bool :=
  let n := Z.of_N (N_of_ascii c) in
  ((65 <=? n) && (n <=? 90)) || ((97 <=? n) && (n <=? 122)) || ((48 <=? n) && (n <=? 57)) ||
  (c == "."%char) || (c == "_"%char) || (c == ":"%char) || (c == "-"%char).

Definition requestIDPattern (s : string) : bool :=
  (1 <=? len s) && (len s <=? 128) && every requestIDCharacter s.

Definition ValidEventType (value : string) : bool := (value == "") || bool_decide (value ∈ validEvents).

Definition Validate (e : AuditEvent) : option error :=
  if (Event_ID e == uuid_Nil) || negb (bool_decide (Event_Type e ∈ validEvents))
     || negb (bool_decide (Event_Result e ∈ validResults)) || Time.IsZero (Event_OccurredAt e)
  then Some audit_ErrInvalidEvent
  else if (Event_RequestID e != "") && negb (requestIDPattern (Event_RequestID e))
  then Some audit_ErrInvalidEvent
  else
    match Event_TargetType e, Event_TargetID e with
    | None, Some _ | Some _, None => Some audit_ErrInvalidEvent
    | Some ty, Some id =>
        if negb (bool_decide (ty ∈ validTargets)) || (id == uuid_Nil) then Some audit_ErrInvalidEvent
        else if forallb (λ field, bool_decide (field ∈ validChangedFields)) (Event_ChangedFields e)
        then None else Some audit_ErrInvalidEvent
    | None, None =>
        if forallb (λ field, bool_decide (field ∈ validChangedFields)) (Event_ChangedFields e)
        then None else Some audit_ErrInvalidEvent
    end.

(** [compact] drops a value equal to the one kept before it. *)
Fixpoint compact_after (kept : string) (values : list string) : list string :=
  match values with
  | [] => []
  | v :: rest => if v != kept then v :: compact_after v rest else compact_after kept rest
  end.
Definition compact (values : list string) : list string :=
  match values with [] => [] | v :: rest => v :: compact_after v rest end.

(** [New]; [uuid.New] panics when the system random source fails. *)
Definition New `{Platform} (eventType result : string) (actor : option uuid) (targetType : string)
    (target : option uuid) (requestID : string) (changed : list string) (at_ : time) : Rnd AuditEvent :=
  id ← NewRandomFromReader go_panic;
  let targeted := (targetType != "") || bool_decide (is_Some target) in
  let event := mkAuditEvent id eventType result actor
                 (if targeted then Some targetType else None) (if targeted then target else None)
                 requestID (compact (sort_Strings changed)) at_ in
  match Validate event with Some e => rnd_throw e | None => mret event end.

(** ** Facts *)

Lemma compact_after_subset kept l x : x ∈ compact_after kept l → x ∈ l.
Proof.
  revert kept. induction l as [|v l IH]; intros kept; simpl; [done|].
  destruct (v != kept); rewrite ?elem_of_cons; naive_solver.
Qed.

Lemma elem_of_compact l x : x ∈ compact l ↔ x ∈ l.
Proof.
  destruct l as [|v l]; [done|]. simpl. rewrite !elem_of_cons.
  revert v. induction l as [|w l IH]; intros v; simpl; [done|].
  case_bool_decide as E; simpl; rewrite ?elem_of_cons; [subst; rewrite <- (IH v)|rewrite <- (IH w)]; naive_solver.
Qed.

(** The changed-field list of a new event is sorted and free of duplicates. *)
Lemma compact_sorted l :
  StronglySorted string_le l → StronglySorted string_le (compact l) ∧ NoDup (compact l).
Proof.
  destruct l as [|v l]; intros Hs; [split; constructor|]. simpl.
  revert v Hs. induction l as [|w l IH]; intros v Hs; simpl.
  - split; [by repeat constructor|apply NoDup_singleton].
  - apply StronglySorted_inv in Hs as [Hs Hv]. rewrite Forall_cons in Hv. destruct Hv as [Hvw Hvl].
    case_bool_decide as E; simpl.
    + subst. by apply IH.
    + destruct (IH w Hs) as [H1 H2]. split.
      * constructor; [done|]. constructor; [done|]. apply Forall_forall. intros x Hx.
        rewrite Forall_forall in Hvl. apply Hvl. by eapply compact_after_subset.
      * apply NoDup_cons. split; [|done]. intros Hin. apply elem_of_cons in Hin as [->|Hin]; [done|].
        apply compact_after_subset in Hin. apply E. symmetry. apply (anti_symm string_le); [done|].
        apply StronglySorted_inv in Hs as [_ Hw]. rewrite Forall_forall in Hw. by apply Hw.
Qed.

End audit.
