(* ===== verification/Database.v ===== *)
(** * The PostgreSQL tables and the queries of [sqlcgen]

    A row record per table, as [internal/storage/postgres/sqlcgen/models.go]
    declares it (SQL NULL is [None]); the constraints the migrations put on a row
    (CHECK 23514, UNIQUE 23505, foreign key 23503 and the BEFORE triggers); and one
    definition per generated query, with the WHERE, SET and RETURNING of its SQL text.
    A statement either fails and leaves the tables alone or returns a result and the
    new tables.  Text compares in byte order and intervals are added in UTC. *)

From S2P Require Import Prelude Errors Scopes.

(** ** Rows *)

Record UserRow := mkUserRow {
  u_ID : uuid; u_Subject : string; u_Username : string; u_UsernameNormalized : string;
  u_DisplayName : string; u_Email : string; u_EmailNormalized : string; u_EmailVerified : bool;
  u_Status : string; u_Role : string; u_CreatedAt : time; u_UpdatedAt : time;
  u_LastLoginAt : option time; u_Version : Z }.

Record OidcClientRow := mkOidcClientRow {
  cl_ID : uuid; cl_ClientID : string; cl_ClientType : string; cl_TokenEndpointAuthMethod : string;
  cl_Name : string; cl_Description : string; cl_LogoUri : option string; cl_Status : string;
  cl_RegistrationEnabled : bool; cl_CreatedAt : time; cl_UpdatedAt : time; cl_Version : Z }.

Record ConsentGrantRow := mkConsentGrantRow {
  g_ID : uuid; g_UserID : uuid; g_ClientID : uuid; g_Scopes : list string; g_CreatedAt : time;
  g_UpdatedAt : time; g_RevokedAt : option time; g_Version : Z }.

Record AuthTransactionRow := mkAuthTransactionRow {
  tx_ID : uuid; tx_TokenHash : bytes; tx_TransactionKind : string; tx_ClientID : option uuid;
  tx_RedirectUri : option string; tx_Scopes : list string; tx_PkceChallenge : option string;
  tx_PkceMethod : option string; tx_StateValue : option string; tx_NonceValue : option string;
  tx_PromptCreate : bool; tx_CreatedAt : time; tx_ExpiresAt : time; tx_ConsumedAt : option time;
  tx_FailureReason : option string; tx_ResponseType : option string; tx_ResponseMode : option string;
  tx_PromptValues : list string; tx_MaxAgeSeconds : option Z }.

Record AuthorizationCodeRow := mkAuthorizationCodeRow {
  code_ID : uuid; code_CodeHash : bytes; code_AuthTransactionID : uuid; code_ConsentGrantID : uuid;
  code_UserID : uuid; code_ClientID : uuid; code_RedirectUri : string; code_Scopes : list string;
  code_PkceChallenge : string; code_PkceMethod : string; code_NonceValue : option string;
  code_AuthTime : time; code_CreatedAt : time; code_ExpiresAt : time; code_ConsumedAt : option time;
  code_ConsentGrantVersion : Z; code_OriginSessionID : option uuid; code_SessionBindingID : option uuid }.

Record AccessTokenRow := mkAccessTokenRow {
  at_ID : uuid; at_JtiHash : bytes; at_AuthorizationCodeID : option uuid; at_ConsentGrantID : uuid;
  at_UserID : uuid; at_ClientID : uuid; at_Scopes : list string; at_IssuedAt : time; at_ExpiresAt : time;
  at_IssuanceSource : string; at_SourceRefreshTokenID : option uuid; at_RefreshFamilyID : option uuid;
  at_OriginSessionID : option uuid; at_SessionBindingID : option uuid; at_RevokedAt : option time;
  at_RevokeReason : option string }.

Record RefreshTokenFamilyRow := mkRefreshTokenFamilyRow {
  rf_ID : uuid; rf_OriginAuthorizationCodeID : option uuid; rf_ConsentGrantID : uuid; rf_UserID : uuid;
  rf_ClientID : uuid; rf_OriginSessionID : option uuid; rf_SessionBindingID : uuid;
  rf_Scopes : list string; rf_CreatedAt : time; rf_AbsoluteExpiresAt : time;
  rf_RevokedAt : option time; rf_RevokeReason : option string }.

Record RefreshTokenRow := mkRefreshTokenRow {
  rt_ID : uuid; rt_FamilyID : uuid; rt_TokenHash : bytes; rt_Generation : Z; rt_IssuedAt : time;
  rt_ExpiresAt : time; rt_ConsumedAt : option time }.

Record LoginSessionRow := mkLoginSessionRow {
  ls_ID : uuid; ls_UserID : uuid; ls_TokenHash : bytes; ls_CsrfHash : bytes; ls_CsrfExpiresAt : time;
  ls_CreatedAt : time; ls_LastSeenAt : time; ls_AuthenticatedAt : time; ls_ExpiresAt : time;
  ls_IdleExpiresAt : time; ls_RevokedAt : option time; ls_RevokeReason : option string;
  ls_UserAgentHash : option bytes; ls_IpPrefix : option string; ls_SessionBindingID : uuid }.

Record AuditEventRow := mkAuditEventRow {
  ae_ID : uuid; ae_EventType : string; ae_Result : string; ae_ActorUserID : option uuid;
  ae_TargetType : option string; ae_TargetID : option uuid; ae_RequestID : option string;
  ae_ChangedFields : list string; ae_OccurredAt : time }.

Record CredentialRow := mkCredentialRow {
  cr_UserID : uuid; cr_CredentialType : string; cr_PasswordHash : string; cr_CreatedAt : time; cr_UpdatedAt : time }.

Record OidcClientSecretRow := mkOidcClientSecretRow {
  sec_ID : uuid; sec_ClientID : uuid; sec_SecretHash : bytes; sec_Version : Z; sec_CreatedAt : time;
  sec_RevokedAt : option time }.

Record PreauthSessionRow := mkPreauthSessionRow {
  pa_ID : uuid; pa_TokenHash : bytes; pa_CsrfHash : bytes; pa_AuthTransactionID : uuid; pa_CreatedAt : time;
  pa_ExpiresAt : time; pa_ConsumedAt : option time; pa_AttemptCount : Z }.

Record LogoutTransactionRow := mkLogoutTransactionRow {
  lo_ID : uuid; lo_LookupHash : bytes; lo_Stage : string; lo_CsrfHash : option bytes;
  lo_VerifiedClientID : option uuid; lo_PostLogoutRedirectUri : option string; lo_StateValue : option string;
  lo_HintSubject : option string; lo_UserID : option uuid; lo_SessionID : option uuid;
  lo_SessionBindingID : option uuid; lo_CreatedAt : time; lo_ExpiresAt : time; lo_BoundAt : option time;
  lo_ConsumedAt : option time; lo_AttemptCount : Z }.

(** ** The database

    Tables are keyed by their primary key (that of [credentials] is the user); the
    three client child tables by (client, value). *)

Record DB := mkDB {
  users : gmap uuid UserRow;
  oidc_clients : gmap uuid OidcClientRow;
  oidc_client_redirect_uris : gmap (uuid * string) time;
  oidc_client_logout_uris : gmap (uuid * string) time;
  oidc_client_scopes : gmap (uuid * string) time;
  consent_grants : gmap uuid ConsentGrantRow;
  auth_transactions : gmap uuid AuthTransactionRow;
  authorization_codes : gmap uuid AuthorizationCodeRow;
  access_tokens : gmap uuid AccessTokenRow;
  refresh_token_families : gmap uuid RefreshTokenFamilyRow;
  refresh_tokens : gmap uuid RefreshTokenRow;
  login_sessions : gmap uuid LoginSessionRow;
  audit_events : gmap uuid AuditEventRow;
  credentials : gmap uuid CredentialRow;
  oidc_client_secrets : gmap uuid OidcClientSecretRow;
  preauth_sessions : gmap uuid PreauthSessionRow;
  logout_transactions : gmap uuid LogoutTransactionRow }.

Definition with_users (t : gmap uuid UserRow) (db : DB) : DB :=
  mkDB t (oidc_clients db) (oidc_client_redirect_uris db) (oidc_client_logout_uris db) (oidc_client_scopes db)
    (consent_grants db) (auth_transactions db) (authorization_codes db) (access_tokens db)
    (refresh_token_families db) (refresh_tokens db) (login_sessions db) (audit_events db) (credentials db)
    (oidc_client_secrets db) (preauth_sessions db) (logout_transactions db).
Definition with_oidc_clients (t : gmap uuid OidcClientRow) (db : DB) : DB :=
  mkDB (users db) t (oidc_client_redirect_uris db) (oidc_client_logout_uris db) (oidc_client_scopes db)
    (consent_grants db) (auth_transactions db) (authorization_codes db) (access_tokens db)
    (refresh_token_families db) (refresh_tokens db) (login_sessions db) (audit_events db) (credentials db)
    (oidc_client_secrets db) (preauth_sessions db) (logout_transactions db).
Definition with_oidc_client_redirect_uris (t : gmap (uuid * string) time) (db : DB) : DB :=
  mkDB (users db) (oidc_clients db) t (oidc_client_logout_uris db) (oidc_client_scopes db) (consent_grants db)
    (auth_transactions db) (authorization_codes db) (access_tokens db) (refresh_token_families db)
    (refresh_tokens db) (login_sessions db) (audit_events db) (credentials db) (oidc_client_secrets db)
    (preauth_sessions db) (logout_transactions db).
Definition with_oidc_client_logout_uris (t : gmap (uuid * string) time) (db : DB) : DB :=
  mkDB (users db) (oidc_clients db) (oidc_client_redirect_uris db) t (oidc_client_scopes db)
    (consent_grants db) (auth_transactions db) (authorization_codes db) (access_tokens db)
    (refresh_token_families db) (refresh_tokens db) (login_sessions db) (audit_events db) (credentials db)
    (oidc_client_secrets db) (preauth_sessions db) (logout_transactions db).
Definition with_oidc_client_scopes (t : gmap (uuid * string) time) (db : DB) : DB :=
  mkDB (users db) (oidc_clients db) (oidc_client_redirect_uris db) (oidc_client_logout_uris db) t
    (consent_grants db) (auth_transactions db) (authorization_codes db) (access_tokens db)
    (refresh_token_families db) (refresh_tokens db) (login_sessions db) (audit_events db) (credentials db)
    (oidc_client_secrets db) (preauth_sessions db) (logout_transactions db).
Definition with_consent_grants (t : gmap uuid ConsentGrantRow) (db : DB) : DB :=
  mkDB (users db) (oidc_clients db) (oidc_client_redirect_uris db) (oidc_client_logout_uris db)
    (oidc_client_scopes db) t (auth_transactions db) (authorization_codes db) (access_tokens db)
    (refresh_token_families db) (refresh_tokens db) (login_sessions db) (audit_events db) (credentials db)
    (oidc_client_secrets db) (preauth_sessions db) (logout_transactions db).
Definition with_auth_transactions (t : gmap uuid AuthTransactionRow) (db : DB) : DB :=
  mkDB (users db) (oidc_clients db) (oidc_client_redirect_uris db) (oidc_client_logout_uris db)
    (oidc_client_scopes db) (consent_grants db) t (authorization_codes db) (access_tokens db)
    (refresh_token_families db) (refresh_tokens db) (login_sessions db) (audit_events db) (credentials db)
    (oidc_client_secrets db) (preauth_sessions db) (logout_transactions db).
Definition with_authorization_codes (t : gmap uuid AuthorizationCodeRow) (db : DB) : DB :=
  mkDB (users db) (oidc_clients db) (oidc_client_redirect_uris db) (oidc_client_logout_uris db)
    (oidc_client_scopes db) (consent_grants db) (auth_transactions db) t (access_tokens db)
    (refresh_token_families db) (refresh_tokens db) (login_sessions db) (audit_events db) (credentials db)
    (oidc_client_secrets db) (preauth_sessions db) (logout_transactions db).
Definition with_access_tokens (t : gmap uuid AccessTokenRow) (db : DB) : DB :=
  mkDB (users db) (oidc_clients db) (oidc_client_redirect_uris db) (oidc_client_logout_uris db)
    (oidc_client_scopes db) (consent_grants db) (auth_transactions db) (authorization_codes db) t
    (refresh_token_families db) (refresh_tokens db) (login_sessions db) (audit_events db) (credentials db)
    (oidc_client_secrets db) (preauth_sessions db) (logout_transactions db).
Definition with_refresh_token_families (t : gmap uuid RefreshTokenFamilyRow) (db : DB) : DB :=
  mkDB (users db) (oidc_clients db) (oidc_client_redirect_uris db) (oidc_client_logout_uris db)
    (oidc_client_scopes db) (consent_grants db) (auth_transactions db) (authorization_codes db)
    (access_tokens db) t (refresh_tokens db) (login_sessions db) (audit_events db) (credentials db)
    (oidc_client_secrets db) (preauth_sessions db) (logout_transactions db).
Definition with_refresh_tokens (t : gmap uuid RefreshTokenRow) (db : DB) : DB :=
  mkDB (users db) (oidc_clients db) (oidc_client_redirect_uris db) (oidc_client_logout_uris db)
    (oidc_client_scopes db) (consent_grants db) (auth_transactions db) (authorization_codes db)
    (access_tokens db) (refresh_token_families db) t (login_sessions db) (audit_events db) (credentials db)
    (oidc_client_secrets db) (preauth_sessions db) (logout_transactions db).
Definition with_login_sessions (t : gmap uuid LoginSessionRow) (db : DB) : DB :=
  mkDB (users db) (oidc_clients db) (oidc_client_redirect_uris db) (oidc_client_logout_uris db)
    (oidc_client_scopes db) (consent_grants db) (auth_transactions db) (authorization_codes db)
    (access_tokens db) (refresh_token_families db) (refresh_tokens db) t (audit_events db) (credentials db)
    (oidc_client_secrets db) (preauth_sessions db) (logout_transactions db).
Definition with_audit_events (t : gmap uuid AuditEventRow) (db : DB) : DB :=
  mkDB (users db) (oidc_clients db) (oidc_client_redirect_uris db) (oidc_client_logout_uris db)
    (oidc_client_scopes db) (consent_grants db) (auth_transactions db) (authorization_codes db)
    (access_tokens db) (refresh_token_families db) (refresh_tokens db) (login_sessions db) t (credentials db)
    (oidc_client_secrets db) (preauth_sessions db) (logout_transactions db).
Definition with_credentials (t : gmap uuid CredentialRow) (db : DB) : DB :=
  mkDB (users db) (oidc_clients db) (oidc_client_redirect_uris db) (oidc_client_logout_uris db)
    (oidc_client_scopes db) (consent_grants db) (auth_transactions db) (authorization_codes db)
    (access_tokens db) (refresh_token_families db) (refresh_tokens db) (login_sessions db) (audit_events db) t
    (oidc_client_secrets db) (preauth_sessions db) (logout_transactions db).
Definition with_oidc_client_secrets (t : gmap uuid OidcClientSecretRow) (db : DB) : DB :=
  mkDB (users db) (oidc_clients db) (oidc_client_redirect_uris db) (oidc_client_logout_uris db)
    (oidc_client_scopes db) (consent_grants db) (auth_transactions db) (authorization_codes db)
    (access_tokens db) (refresh_token_families db) (refresh_tokens db) (login_sessions db) (audit_events db)
    (credentials db) t (preauth_sessions db) (logout_transactions db).
Definition with_preauth_sessions (t : gmap uuid PreauthSessionRow) (db : DB) : DB :=
  mkDB (users db) (oidc_clients db) (oidc_client_redirect_uris db) (oidc_client_logout_uris db)
    (oidc_client_scopes db) (consent_grants db) (auth_transactions db) (authorization_codes db)
    (access_tokens db) (refresh_token_families db) (refresh_tokens db) (login_sessions db) (audit_events db)
    (credentials db) (oidc_client_secrets db) t (logout_transactions db).
Definition with_logout_transactions (t : gmap uuid LogoutTransactionRow) (db : DB) : DB :=
  mkDB (users db) (oidc_clients db) (oidc_client_redirect_uris db) (oidc_client_logout_uris db)
    (oidc_client_scopes db) (consent_grants db) (auth_transactions db) (authorization_codes db)
    (access_tokens db) (refresh_token_families db) (refresh_tokens db) (login_sessions db) (audit_events db)
    (credentials db) (oidc_client_secrets db) (preauth_sessions db) t.

(** ** Statements *)

Definition Stmt (A : Type) : Type := DB → (A * DB) + driver_error.

Definition check_violation : driver_error := PgError "23514".
Definition unique_violation : driver_error := PgError "23505".
Definition foreign_key_violation : driver_error := PgError "23503".
Definition numeric_out_of_range : driver_error := PgError "22003".

(** A [:one] SELECT. *)
Definition select_one {A} (q : DB → option A) : Stmt A := λ db,
  match q db with Some a => inl (a, db) | None => inr NoRows end.
(** A [:many] SELECT. *)
Definition select_many {A} (q : DB → list A) : Stmt (list A) := λ db, inl (q db, db).

Section table.
Context {K : Type} `{Countable K} {R : Type}.
Implicit Types (t : gmap K R) (p : R → bool) (f : R → R) (chk : R → bool).

Definition rows (t : gmap K R) : list R := snd <$> map_to_list t.
(** The row a condition on a unique column selects. *)
Definition find_row (p : R → bool) (t : gmap K R) : option R := head (List.filter p (rows t)).
Definition exists_row (p : R → bool) (t : gmap K R) : bool := existsb p (rows t).
(** [UPDATE t SET f WHERE p], when every new row passes the table's checks. *)
Definition update_where (p : R → bool) (f : R → R) (t : gmap K R) : gmap K R :=
  (λ r, if p r then f r else r) <$> t.
Definition update_checks (p : R → bool) (f : R → R) (chk : R → bool) (t : gmap K R) : bool :=
  forallb (λ r, negb (p r) || chk (f r)) (rows t).
Definition count_where (p : R → bool) (t : gmap K R) : Z := Z.of_nat (length (List.filter p (rows t))).

Lemma elem_of_rows t r : r ∈ rows t ↔ ∃ k, t !! k = Some r.
Proof.
  unfold rows. rewrite list_elem_of_fmap. split.
  - intros ([k r'] & -> & Hin). exists k. by apply elem_of_map_to_list in Hin.
  - intros [k Hk]. exists (k, r). split; [done|]. by apply elem_of_map_to_list.
Qed.

Lemma find_row_Some p t r : find_row p t = Some r → p r = true ∧ ∃ k, t !! k = Some r.
Proof.
  unfold find_row. intros Hh. destruct (List.filter p (rows t)) as [|r' l] eqn:E; [done|].
  injection Hh as ->. assert (Hin : In r (List.filter p (rows t))) by (rewrite E; left; done).
  apply filter_In in Hin as [Hin Hp]. split; [done|]. apply elem_of_rows. by apply list_elem_of_In.
Qed.

Lemma find_row_None p t : find_row p t = None ↔ ∀ k r, t !! k = Some r → p r = false.
Proof.
  unfold find_row. split.
  - intros Hh k r Hk. destruct (p r) eqn:Ep; [|done]. exfalso.
    destruct (List.filter p (rows t)) as [|r' l] eqn:E; [|done].
    assert (Hin : In r (List.filter p (rows t))); [|rewrite E in Hin; done].
    apply filter_In. split; [|done]. apply list_elem_of_In, elem_of_rows. by exists k.
  - intros Hno. destruct (List.filter p (rows t)) as [|r l] eqn:E; [done|]. exfalso.
    assert (Hin : In r (List.filter p (rows t))) by (rewrite E; left; done).
    apply filter_In in Hin as [Hin Hp]. apply list_elem_of_In, elem_of_rows in Hin as [k Hk].
    rewrite (Hno k r Hk) in Hp. done.
Qed.

(** When only one row can satisfy the condition, [find_row] finds exactly it. *)
Lemma find_row_unique p t k r :
  t !! k = Some r → p r = true → (∀ k' r', t !! k' = Some r' → p r' = true → r' = r) →
  find_row p t = Some r.
Proof.
  intros Hk Hp Hu. destruct (find_row p t) as [r'|] eqn:E.
  - apply find_row_Some in E as [Hp' [k' Hk']]. f_equal. by eapply Hu.
  - rewrite find_row_None in E. rewrite (E k r Hk) in Hp. done.
Qed.

Lemma exists_row_true p t : exists_row p t = true ↔ ∃ k r, t !! k = Some r ∧ p r = true.
Proof.
  unfold exists_row. rewrite existsb_exists. split.
  - intros (r & Hin & Hp). apply list_elem_of_In, elem_of_rows in Hin as [k Hk]. by exists k, r.
  - intros (k & r & Hk & Hp). exists r. split; [|done]. apply list_elem_of_In, elem_of_rows. by exists k.
Qed.

Lemma exists_row_false p t : exists_row p t = false ↔ ∀ k r, t !! k = Some r → p r = false.
Proof.
  rewrite <- not_true_iff_false, exists_row_true. split.
  - intros Hn k r Hk. destruct (p r) eqn:E; [|done]. exfalso. apply Hn. by exists k, r.
  - intros Hf (k & r & Hk & Hp). rewrite (Hf k r Hk) in Hp. done.
Qed.

Lemma update_checks_true p f chk t :
  update_checks p f chk t = true ↔ ∀ k r, t !! k = Some r → p r = true → chk (f r) = true.
Proof.
  unfold update_checks. rewrite forallb_forall. split.
  - intros Hf k r Hk Hp. specialize (Hf r). rewrite Hp in Hf. apply Hf.
    apply list_elem_of_In, elem_of_rows. by exists k.
  - intros Hf r Hin. apply list_elem_of_In, elem_of_rows in Hin as [k Hk].
    destruct (p r) eqn:E; [|done]. simpl. by eapply Hf.
Qed.

Lemma lookup_update_where p f t k :
  update_where p f t !! k = (λ r, if p r then f r else r) <$> t !! k.
Proof. unfold update_where. apply lookup_fmap. Qed.
End table.

(** ** Tables as values

    What a statement needs to know of a table keyed by a UUID: where it is, its primary
    key, its CHECKs and its unique indexes ([tbl_conflict r o]: the index refuses [r]
    beside [o]). *)

Record Table (R : Type) := mkTable {
  tbl_get : DB → gmap uuid R; tbl_put : gmap uuid R → DB → DB; tbl_key : R → uuid;
  tbl_check : R → bool; tbl_conflict : R → R → bool }.
#[global] Arguments mkTable {_} _ _ _ _ _.
#[global] Arguments tbl_get {_} _ _.
#[global] Arguments tbl_put {_} _ _ _.
#[global] Arguments tbl_key {_} _ _.
#[global] Arguments tbl_check {_} _ _.
#[global] Arguments tbl_conflict {_} _ _ _.

(** A reference that may be NULL points at an existing row. *)
Definition references {R} (id : option uuid) (t : gmap uuid R) : bool :=
  match id with None => true | Some id => bool_decide (is_Some (t !! id)) end.

Section statements.
Context {R : Type} (T : Table R).

(** [INSERT INTO T]: the BEFORE trigger, the CHECKs, the unique indexes, the foreign keys. *)
Definition insert_row (trigger foreign_keys : DB → bool) (r : R) : Stmt R := λ db,
  if negb (trigger db) then inr check_violation
  else if negb (tbl_check T r) then inr check_violation
  else if bool_decide (is_Some (tbl_get T db !! tbl_key T r)) || exists_row (tbl_conflict T r) (tbl_get T db)
  then inr unique_violation
  else if negb (foreign_keys db) then inr foreign_key_violation
  else inl (r, tbl_put T (<[tbl_key T r := r]> (tbl_get T db)) db).

(** [UPDATE T SET f WHERE id = $1 AND p RETURNING *] where [f] leaves the unique columns alone. *)
Definition update_row (id : uuid) (p : R → bool) (f : R → R) : Stmt R := λ db,
  match tbl_get T db !! id with
  | Some r =>
      if negb (p r) then inr NoRows
      else if negb (tbl_check T (f r)) then inr check_violation
      else inl (f r, tbl_put T (<[id := f r]> (tbl_get T db)) db)
  | None => inr NoRows
  end.

(** [UPDATE T SET f WHERE p], with what the query returns of the old table. *)
Definition update_rows {A} (p : R → bool) (f : R → R) (result : gmap uuid R → A) : Stmt A := λ db,
  if update_checks p f (tbl_check T) (tbl_get T db)
  then inl (result (tbl_get T db), tbl_put T (update_where p f (tbl_get T db)) db)
  else inr check_violation.
End statements.

(** An [:exec] UPDATE: no row is no error. *)
Definition exec {A} (s : Stmt A) : Stmt unit := λ db,
  match s db with
  | inl (_, db') => inl ((), db')
  | inr NoRows => inl ((), db)
  | inr e => inr e
  end.

(** [SELECT pg_advisory_xact_lock(...)]. *)
Definition advisory_lock : Stmt unit := λ db, inl ((), db).

(** ** What a successful statement did *)

Section statement_facts.
Context {R : Type} (T : Table R).

Lemma insert_row_inl trigger fk r db x db' :
  insert_row T trigger fk r db = inl (x, db') →
  x = r ∧ db' = tbl_put T (<[tbl_key T r := r]> (tbl_get T db)) db ∧ trigger db = true ∧ fk db = true ∧
  tbl_check T r = true ∧ tbl_get T db !! tbl_key T r = None ∧ exists_row (tbl_conflict T r) (tbl_get T db) = false.
Proof.
  unfold insert_row. intros H. destruct (trigger db); [|done]. destruct (tbl_check T r); [|done]. simpl in H.
  destruct (bool_decide _ || _) eqn:E; [done|]. destruct (fk db); [|done]. injection H as <- <-.
  apply orb_false_iff in E as [E1 E2]. apply bool_decide_eq_false, eq_None_not_Some in E1. done.
Qed.

Lemma update_row_inl id p f db x db' :
  update_row T id p f db = inl (x, db') →
  ∃ r, tbl_get T db !! id = Some r ∧ p r = true ∧ tbl_check T (f r) = true ∧ x = f r ∧
       db' = tbl_put T (<[id := f r]> (tbl_get T db)) db.
Proof.
  unfold update_row. intros H. destruct (tbl_get T db !! id) as [r|]; [|done].
  destruct (p r) eqn:Ep; [|done]. destruct (tbl_check T (f r)) eqn:Ec; [|done]. injection H as <- <-. by exists r.
Qed.

Lemma update_rows_inl {A} p f (result : _ → A) db x db' :
  update_rows T p f result db = inl (x, db') →
  x = result (tbl_get T db) ∧ db' = tbl_put T (update_where p f (tbl_get T db)) db ∧
  update_checks p f (tbl_check T) (tbl_get T db) = true.
Proof. unfold update_rows. destruct (update_checks _ _ _ _) eqn:E; [|done]. by intros [= <- <-]. Qed.

Lemma exec_inl {A} (s : Stmt A) db x db' :
  exec s db = inl (x, db') → (∃ a, s db = inl (a, db')) ∨ (s db = inr NoRows ∧ db' = db).
Proof. unfold exec. destruct (s db) as [[a d]|[]]; intros [= _ <-]; [left; by exists a|by right]. Qed.
End statement_facts.
