(* ===== verification/Queries.v ===== *)
(** * The generated queries

    One definition per [sqlcgen] query the protocol core uses, with the constraints
    and triggers of the tables it writes (migrations 4 to 15).  On
    INSERT the BEFORE trigger runs first, then the CHECKs, the unique indexes, and
    last the foreign keys. *)

From S2P Require Import Prelude Errors Scopes Domain AuditEvents Database.

(** ** Constraints *)

(** [oneissuer_text_array_is_sorted_unique]: equal to its distinct items in order. *)
Definition sorted_unique (l : list string) : bool := l == sortedSet (list_to_set l).

(** The scope check shared by codes, grants and access tokens. *)
Definition scopes_valid (l : list string) : bool :=
  (1 <=? Z.of_nat (length l)) && (Z.of_nat (length l) <=? 4) &&
  forallb (λ s, bool_decide (s ∈ ["email"; "offline_access"; "openid"; "profile"])) l &&
  bool_decide ("openid" ∈ l) && sorted_unique l.

(** [pkce_challenge ~ '^[A-Za-z0-9_-]{43}$']. *)
Definition challenge_character (c : ascii) : bool :=
  let n := Z.of_N (N_of_ascii c) in
  ((65 <=? n) && (n <=? 90)) || ((97 <=? n) && (n <=? 122)) || ((48 <=? n) && (n <=? 57)) ||
  (c == "_"%char) || (c == "-"%char).
Definition challenge_valid (s : string) : bool := (len s == 43) && every challenge_character s.

Definition not_before (t : option time) (bound : time) : bool :=
  match t with None => true | Some t => bound <=? t end.

Definition consent_grants_check (r : ConsentGrantRow) : bool :=
  scopes_valid (g_Scopes r) && (0 <? g_Version r) && (g_CreatedAt r <=? g_UpdatedAt r) &&
  not_before (g_RevokedAt r) (g_CreatedAt r).

Definition authorization_codes_check (r : AuthorizationCodeRow) : bool :=
  (len (code_CodeHash r) == 32) && (1 <=? len (code_RedirectUri r)) && (len (code_RedirectUri r) <=? 2048) &&
  scopes_valid (code_Scopes r) && challenge_valid (code_PkceChallenge r) && (code_PkceMethod r == "S256") &&
  match code_NonceValue r with None => true | Some n => (1 <=? len n) && (len n <=? 1024) end &&
  (code_AuthTime r <=? code_CreatedAt r) && (code_CreatedAt r <? code_ExpiresAt r) &&
  (code_ExpiresAt r <=? code_CreatedAt r + 5 * Time.Minute) &&
  not_before (code_ConsumedAt r) (code_CreatedAt r) && (0 <? code_ConsentGrantVersion r) &&
  (negb (bool_decide ("offline_access" ∈ code_Scopes r)) || bool_decide (is_Some (code_SessionBindingID r))).

Definition access_revoke_reasons : list string :=
  ["client_revocation"; "family_revoked"; "grant_revoked"; "session_revoked"; "user_disabled";
   "client_disabled"; "offline_scope_removed"; "account_switch"].

(** A CHECK accepts NULL: a condition on a NULL column is no reason to refuse the row. *)
Definition unless_null {A} (v : option A) (p : A → bool) : bool := match v with None => true | Some a => p a end.

Definition revoke_reason_valid (reasons : list string) (at_ : option time) (reason : option string) : bool :=
  match at_ with
  | None => bool_decide (reason = None)
  | Some _ => unless_null reason (λ r, bool_decide (r ∈ reasons))
  end.

Definition access_tokens_check (r : AccessTokenRow) : bool :=
  (len (at_JtiHash r) == 32) && scopes_valid (at_Scopes r) &&
  bool_decide (at_IssuanceSource r ∈ ["authorization_code"; "refresh_token"]) &&
  (((at_IssuanceSource r == "authorization_code") && (at_SourceRefreshTokenID r == None)) ||
   ((at_IssuanceSource r == "refresh_token") && (at_AuthorizationCodeID r == None) &&
    bool_decide (is_Some (at_SourceRefreshTokenID r)) && bool_decide (is_Some (at_RefreshFamilyID r)) &&
    bool_decide (is_Some (at_SessionBindingID r)))) &&
  (negb (bool_decide ("offline_access" ∈ at_Scopes r)) ||
   (bool_decide (is_Some (at_RefreshFamilyID r)) && bool_decide (is_Some (at_SessionBindingID r)))) &&
  (at_IssuedAt r <? at_ExpiresAt r) && (at_ExpiresAt r <=? at_IssuedAt r + 30 * Time.Minute) &&
  not_before (at_RevokedAt r) (at_IssuedAt r) &&
  revoke_reason_valid access_revoke_reasons (at_RevokedAt r) (at_RevokeReason r).

Definition family_revoke_reasons : list string :=
  ["reuse"; "client_revocation"; "grant_revoked"; "session_revoked"; "user_disabled";
   "client_disabled"; "offline_scope_removed"; "account_switch"].

Definition refresh_token_families_check (r : RefreshTokenFamilyRow) : bool :=
  (2 <=? Z.of_nat (length (rf_Scopes r))) && scopes_valid (rf_Scopes r) &&
  bool_decide ("offline_access" ∈ rf_Scopes r) &&
  (rf_CreatedAt r <? rf_AbsoluteExpiresAt r) &&
  (rf_AbsoluteExpiresAt r <=? rf_CreatedAt r + 365 * 24 * Time.Hour) &&
  not_before (rf_RevokedAt r) (rf_CreatedAt r) &&
  revoke_reason_valid family_revoke_reasons (rf_RevokedAt r) (rf_RevokeReason r).

Definition refresh_tokens_check (r : RefreshTokenRow) : bool :=
  (len (rt_TokenHash r) == 32) && (0 <=? rt_Generation r) && (rt_IssuedAt r <? rt_ExpiresAt r) &&
  (rt_ExpiresAt r <=? rt_IssuedAt r + 30 * 24 * Time.Hour) &&
  not_before (rt_ConsumedAt r) (rt_IssuedAt r).

Definition audit_events_check (r : AuditEventRow) : bool :=
  bool_decide (ae_EventType r ∈ audit.validEvents) && bool_decide (ae_Result r ∈ audit.validResults) &&
  match ae_TargetType r, ae_TargetID r with
  | None, _ => true
  | Some ty, Some _ => bool_decide (ty ∈ audit.validTargets)
  | Some _, None => false
  end &&
  match ae_RequestID r with None => true | Some s => audit.requestIDPattern s end &&
  forallb (λ f, bool_decide (f ∈ audit.validChangedFields)) (ae_ChangedFields r).

Definition failure_reasons : list string :=
  ["expired"; "consumed"; "invalid"; "client_disabled"; "registration_disabled"; "canceled"; "login_required";
   "consent_required"; "interaction_required"; "access_denied"; "server_error"].

Definition transaction_context_bounds (r : AuthTransactionRow) : bool :=
  unless_null (tx_RedirectUri r) (λ s, (1 <=? len s) && (len s <=? 2048)) &&
  unless_null (tx_PkceChallenge r) (λ s, len s =? 43) &&
  unless_null (tx_StateValue r) (λ s, (1 <=? len s) && (len s <=? 1024)) &&
  unless_null (tx_NonceValue r) (λ s, (1 <=? len s) && (len s <=? 1024)) &&
  (Z.of_nat (length (tx_PromptValues r)) <=? 4) &&
  unless_null (tx_MaxAgeSeconds r) (λ n, (0 <=? n) && (n <=? 2592000)).

Definition transaction_prompt_valid (r : AuthTransactionRow) : bool :=
  sorted_unique (tx_PromptValues r) &&
  forallb (λ v, bool_decide (v ∈ ["consent"; "create"; "login"; "none"])) (tx_PromptValues r) &&
  (negb (bool_decide ("none" ∈ tx_PromptValues r)) || (Z.of_nat (length (tx_PromptValues r)) =? 1)) &&
  negb (bool_decide ("create" ∈ tx_PromptValues r) && bool_decide ("login" ∈ tx_PromptValues r)) &&
  eqb (tx_PromptCreate r) (bool_decide ("create" ∈ tx_PromptValues r)).

Definition transaction_local_context (r : AuthTransactionRow) : bool :=
  (tx_TransactionKind r != KindLocal) ||
  ((tx_ClientID r == None) && (tx_RedirectUri r == None) && (tx_Scopes r == []) && (tx_PkceChallenge r == None) &&
   (tx_PkceMethod r == None) && (tx_StateValue r == None) && (tx_NonceValue r == None) && negb (tx_PromptCreate r) &&
   (tx_ResponseType r == None) && (tx_ResponseMode r == None) && (tx_PromptValues r == []) && (tx_MaxAgeSeconds r == None)).

Definition transaction_authorization_context (r : AuthTransactionRow) : bool :=
  (tx_TransactionKind r != KindAuthorization) ||
  (bool_decide (is_Some (tx_ClientID r)) && bool_decide (is_Some (tx_RedirectUri r)) &&
   unless_null (tx_ResponseType r) (λ s, s == "code") && unless_null (tx_ResponseMode r) (λ s, s == "query") &&
   unless_null (tx_PkceChallenge r) challenge_valid && unless_null (tx_PkceMethod r) (λ s, s == "S256") &&
   scopes_valid (tx_Scopes r)).

Definition auth_transactions_check (r : AuthTransactionRow) : bool :=
  (len (tx_TokenHash r) =? 32) && bool_decide (tx_TransactionKind r ∈ [KindLocal; KindAuthorization]) &&
  (tx_CreatedAt r <? tx_ExpiresAt r) && not_before (tx_ConsumedAt r) (tx_CreatedAt r) &&
  (Z.of_nat (length (tx_Scopes r)) <=? 32) && transaction_context_bounds r &&
  (((tx_PkceChallenge r == None) && (tx_PkceMethod r == None)) ||
   (unless_null (tx_PkceChallenge r) challenge_valid && unless_null (tx_PkceMethod r) (λ s, s == "S256"))) &&
  transaction_prompt_valid r && transaction_local_context r && transaction_authorization_context r &&
  unless_null (tx_FailureReason r) (λ s, bool_decide (s ∈ failure_reasons)).

(** ** Triggers *)

(** [oneissuer_validate_refresh_family_origin]. *)
Definition refresh_family_origin_guard (db : DB) (r : RefreshTokenFamilyRow) : bool :=
  match rf_OriginAuthorizationCodeID r with
  | None => true
  | Some id =>
      match authorization_codes db !! id with
      | None => false
      | Some origin =>
          (code_UserID origin == rf_UserID r) && (code_ClientID origin == rf_ClientID r) &&
          (code_ConsentGrantID origin == rf_ConsentGrantID r) &&
          bool_decide ("offline_access" ∈ code_Scopes origin) &&
          (code_SessionBindingID origin == Some (rf_SessionBindingID r))
      end
  end.

(** [oneissuer_validate_refresh_token_lifetime]. *)
Definition refresh_token_lifetime_guard (db : DB) (r : RefreshTokenRow) : bool :=
  match refresh_token_families db !! rt_FamilyID r with
  | None => false
  | Some family => (rf_CreatedAt family <=? rt_IssuedAt r) && (rt_ExpiresAt r <=? rf_AbsoluteExpiresAt family)
  end.

(** [oneissuer_validate_access_token_authority] on INSERT (migration 15). *)
Definition access_token_authority_guard (db : DB) (r : AccessTokenRow) : bool :=
  if at_IssuanceSource r == "authorization_code" then
    match at_AuthorizationCodeID r ≫= λ id, authorization_codes db !! id with
    | None => false
    | Some code =>
        (code_ConsentGrantID code == at_ConsentGrantID r) && (code_UserID code == at_UserID r) &&
        (code_ClientID code == at_ClientID r) && (code_Scopes code == at_Scopes r) &&
        (code_OriginSessionID code == at_OriginSessionID r) &&
        (code_SessionBindingID code == at_SessionBindingID r) && (at_SourceRefreshTokenID r == None) &&
        match at_RefreshFamilyID r with
        | None => true
        | Some fid =>
            match refresh_token_families db !! fid with
            | None => false
            | Some family =>
                (rf_OriginAuthorizationCodeID family == at_AuthorizationCodeID r) &&
                (rf_ConsentGrantID family == at_ConsentGrantID r) && (rf_UserID family == at_UserID r) &&
                (rf_ClientID family == at_ClientID r) && (rf_OriginSessionID family == at_OriginSessionID r) &&
                (Some (rf_SessionBindingID family) == at_SessionBindingID r) &&
                (rf_Scopes family == code_Scopes code) && (at_Scopes r == code_Scopes code) &&
                bool_decide ("offline_access" ∈ at_Scopes r)
            end
        end
    end
  else
    match at_SourceRefreshTokenID r ≫= λ id, refresh_tokens db !! id,
          at_RefreshFamilyID r ≫= λ id, refresh_token_families db !! id with
    | Some generation, Some family =>
        (Some (rt_FamilyID generation) == at_RefreshFamilyID r) && (Some (rf_ID family) == at_RefreshFamilyID r) &&
        (rf_ConsentGrantID family == at_ConsentGrantID r) && (rf_UserID family == at_UserID r) &&
        (rf_ClientID family == at_ClientID r) && (rf_OriginSessionID family == at_OriginSessionID r) &&
        (Some (rf_SessionBindingID family) == at_SessionBindingID r) &&
        scopeSubset (at_Scopes r) (rf_Scopes family) && (at_AuthorizationCodeID r == None)
    | _, _ => false
    end.

(** ** users and oidc_clients *)

Definition GetUserByID (id : uuid) : Stmt UserRow := select_one (λ db, users db !! id).
Definition LockUserByID (id : uuid) : Stmt UserRow := select_one (λ db, users db !! id).

Definition GetOIDCClientByID (id : uuid) : Stmt OidcClientRow := select_one (λ db, oidc_clients db !! id).
Definition LockOIDCClientByID (id : uuid) : Stmt OidcClientRow := select_one (λ db, oidc_clients db !! id).
Definition GetOIDCClientByClientID (clientID : string) : Stmt OidcClientRow :=
  select_one (λ db, find_row (λ r, cl_ClientID r == clientID) (oidc_clients db)).
Definition LockOIDCClientByClientID (clientID : string) : Stmt OidcClientRow :=
  select_one (λ db, find_row (λ r, cl_ClientID r == clientID) (oidc_clients db)).

(** [SELECT value FROM child WHERE client_id = $1 ORDER BY value]. *)
Definition child_values (t : gmap (uuid * string) time) (clientID : uuid) : list string :=
  sort_Strings (snd <$> List.filter (λ k, k.1 == clientID) (fst <$> map_to_list t)).

Definition ListOIDCClientRedirectURIs (clientID : uuid) : Stmt (list string) :=
  select_many (λ db, child_values (oidc_client_redirect_uris db) clientID).
Definition ListOIDCClientLogoutURIs (clientID : uuid) : Stmt (list string) :=
  select_many (λ db, child_values (oidc_client_logout_uris db) clientID).
Definition ListOIDCClientScopes (clientID : uuid) : Stmt (list string) :=
  select_many (λ db, child_values (oidc_client_scopes db) clientID).

(** ** consent_grants *)

Definition grant_of (userID clientID : uuid) (r : ConsentGrantRow) : bool :=
  (g_UserID r == userID) && (g_ClientID r == clientID).

Definition GetConsentGrantByUserClient (userID clientID : uuid) : Stmt ConsentGrantRow :=
  select_one (λ db, find_row (grant_of userID clientID) (consent_grants db)).
Definition LockConsentGrantByUserClient (userID clientID : uuid) : Stmt ConsentGrantRow :=
  select_one (λ db, find_row (grant_of userID clientID) (consent_grants db)).

(** [revoked_at] defaults to NULL and [version] to 1. *)
Definition CreateConsentGrant (id userID clientID : uuid) (scopes : list string) (createdAt updatedAt : time)
    : Stmt ConsentGrantRow := λ db,
  let r := mkConsentGrantRow id userID clientID scopes createdAt updatedAt None 1 in
  if negb (consent_grants_check r) then inr check_violation
  else if bool_decide (is_Some (consent_grants db !! id)) || exists_row (grant_of userID clientID) (consent_grants db)
  then inr unique_violation
  else if negb (bool_decide (is_Some (users db !! userID))) || negb (bool_decide (is_Some (oidc_clients db !! clientID)))
  then inr foreign_key_violation
  else inl (r, with_consent_grants (<[id := r]> (consent_grants db)) db).

(** An UPDATE of one grant by id, [None] when the WHERE clause selects no row. *)
Definition update_grant (id : uuid) (p : ConsentGrantRow → bool) (f : ConsentGrantRow → ConsentGrantRow)
    : Stmt ConsentGrantRow := λ db,
  match consent_grants db !! id with
  | Some r =>
      if negb (p r) then inr NoRows
      else if 2 ^ 63 <=? g_Version (f r) then inr numeric_out_of_range
      else if negb (consent_grants_check (f r)) then inr check_violation
      else inl (f r, with_consent_grants (<[id := f r]> (consent_grants db)) db)
  | None => inr NoRows
  end.

Definition ReactivateConsentGrant (scopes : list string) (updatedAt : time) (id : uuid) : Stmt ConsentGrantRow :=
  update_grant id (λ r, bool_decide (is_Some (g_RevokedAt r)))
    (λ r, mkConsentGrantRow (g_ID r) (g_UserID r) (g_ClientID r) scopes (g_CreatedAt r) updatedAt None (g_Version r + 1)).

Definition RevokeConsentGrant (revokedAt : time) (id : uuid) : Stmt ConsentGrantRow :=
  update_grant id (λ r, g_RevokedAt r == None)
    (λ r, mkConsentGrantRow (g_ID r) (g_UserID r) (g_ClientID r) (g_Scopes r) (g_CreatedAt r) revokedAt
            (Some revokedAt) (g_Version r + 1)).

Definition UpdateConsentGrantScopes (scopes : list string) (updatedAt : time) (id : uuid) : Stmt ConsentGrantRow :=
  update_grant id (λ r, g_RevokedAt r == None)
    (λ r, mkConsentGrantRow (g_ID r) (g_UserID r) (g_ClientID r) scopes (g_CreatedAt r) updatedAt
            (g_RevokedAt r) (g_Version r + 1)).

(** ** auth_transactions *)

Definition LockAuthTransactionByID (id : uuid) : Stmt AuthTransactionRow :=
  select_one (λ db, auth_transactions db !! id).

Definition finish_transaction (consumedAt : time) (reason : option string) (r : AuthTransactionRow) : AuthTransactionRow :=
  mkAuthTransactionRow (tx_ID r) (tx_TokenHash r) (tx_TransactionKind r) (tx_ClientID r) (tx_RedirectUri r)
    (tx_Scopes r) (tx_PkceChallenge r) (tx_PkceMethod r) (tx_StateValue r) (tx_NonceValue r)
    (tx_PromptCreate r) (tx_CreatedAt r) (tx_ExpiresAt r) (Some consumedAt) reason
    (tx_ResponseType r) (tx_ResponseMode r) (tx_PromptValues r) (tx_MaxAgeSeconds r).

Definition update_live_transaction (consumedAt : time) (id : uuid) (f : AuthTransactionRow → AuthTransactionRow)
    : Stmt AuthTransactionRow := λ db,
  match auth_transactions db !! id with
  | Some r =>
      if negb ((tx_ConsumedAt r == None) && (consumedAt <? tx_ExpiresAt r)) then inr NoRows
      else if negb (auth_transactions_check (f r)) then inr check_violation
      else inl (f r, with_auth_transactions (<[id := f r]> (auth_transactions db)) db)
  | None => inr NoRows
  end.

Definition ConsumeAuthTransaction (consumedAt : time) (id : uuid) : Stmt AuthTransactionRow :=
  update_live_transaction consumedAt id (λ r, finish_transaction consumedAt (tx_FailureReason r) r).

Definition RejectAuthTransaction (consumedAt : time) (reason : option string) (id : uuid) : Stmt AuthTransactionRow :=
  update_live_transaction consumedAt id (finish_transaction consumedAt reason).

(** ** authorization_codes *)

Record CreateAuthorizationCodeParams := mkCreateAuthorizationCodeParams {
  CAC_ID : uuid; CAC_CodeHash : bytes; CAC_AuthTransactionID : uuid; CAC_ConsentGrantID : uuid;
  CAC_UserID : uuid; CAC_ClientID : uuid; CAC_RedirectUri : string; CAC_Scopes : list string;
  CAC_PkceChallenge : string; CAC_PkceMethod : string; CAC_NonceValue : option string;
  CAC_AuthTime : time; CAC_CreatedAt : time; CAC_ExpiresAt : time; CAC_ConsentGrantVersion : Z;
  CAC_OriginSessionID : option uuid; CAC_SessionBindingID : option uuid }.

Definition new_code_row (a : CreateAuthorizationCodeParams) : AuthorizationCodeRow :=
  mkAuthorizationCodeRow (CAC_ID a) (CAC_CodeHash a) (CAC_AuthTransactionID a) (CAC_ConsentGrantID a)
    (CAC_UserID a) (CAC_ClientID a) (CAC_RedirectUri a) (CAC_Scopes a) (CAC_PkceChallenge a)
    (CAC_PkceMethod a) (CAC_NonceValue a) (CAC_AuthTime a) (CAC_CreatedAt a) (CAC_ExpiresAt a) None
    (CAC_ConsentGrantVersion a) (CAC_OriginSessionID a) (CAC_SessionBindingID a).

Definition CreateAuthorizationCode (a : CreateAuthorizationCodeParams) : Stmt unit := λ db,
  let r := new_code_row a in
  if negb (authorization_codes_check r) then inr check_violation
  else if bool_decide (is_Some (authorization_codes db !! code_ID r))
          || exists_row (λ o, (code_CodeHash o == code_CodeHash r)
                              || (code_AuthTransactionID o == code_AuthTransactionID r)) (authorization_codes db)
  then inr unique_violation
  else if negb (references (Some (code_AuthTransactionID r)) (auth_transactions db))
          || negb (references (Some (code_ConsentGrantID r)) (consent_grants db))
          || negb (references (Some (code_UserID r)) (users db))
          || negb (references (Some (code_ClientID r)) (oidc_clients db))
          || negb (references (code_OriginSessionID r) (login_sessions db))
  then inr foreign_key_violation
  else inl ((), with_authorization_codes (<[code_ID r := r]> (authorization_codes db)) db).

Definition GetAuthorizationCodeByHash (codeHash : bytes) : Stmt AuthorizationCodeRow :=
  select_one (λ db, find_row (λ r, code_CodeHash r == codeHash) (authorization_codes db)).
Definition LockAuthorizationCodeByHash (codeHash : bytes) : Stmt AuthorizationCodeRow :=
  select_one (λ db, find_row (λ r, code_CodeHash r == codeHash) (authorization_codes db)).

Definition consume_code (consumedAt : time) (r : AuthorizationCodeRow) : AuthorizationCodeRow :=
  mkAuthorizationCodeRow (code_ID r) (code_CodeHash r) (code_AuthTransactionID r) (code_ConsentGrantID r)
    (code_UserID r) (code_ClientID r) (code_RedirectUri r) (code_Scopes r) (code_PkceChallenge r)
    (code_PkceMethod r) (code_NonceValue r) (code_AuthTime r) (code_CreatedAt r) (code_ExpiresAt r)
    (Some consumedAt) (code_ConsentGrantVersion r) (code_OriginSessionID r) (code_SessionBindingID r).

Definition ConsumeAuthorizationCode (consumedAt : time) (id : uuid) : Stmt AuthorizationCodeRow := λ db,
  match authorization_codes db !! id with
  | Some r =>
      if negb ((code_ConsumedAt r == None) && (consumedAt <? code_ExpiresAt r)) then inr NoRows
      else if negb (authorization_codes_check (consume_code consumedAt r)) then inr check_violation
      else inl (consume_code consumedAt r,
                with_authorization_codes (<[id := consume_code consumedAt r]> (authorization_codes db)) db)
  | None => inr NoRows
  end.

(** ** access_tokens *)

Record CreateAccessTokenParams := mkCreateAccessTokenParams {
  CAT_ID : uuid; CAT_JtiHash : bytes; CAT_AuthorizationCodeID : option uuid; CAT_ConsentGrantID : uuid;
  CAT_UserID : uuid; CAT_ClientID : uuid; CAT_Scopes : list string; CAT_IssuedAt : time;
  CAT_ExpiresAt : time; CAT_RefreshFamilyID : option uuid; CAT_OriginSessionID : option uuid;
  CAT_SessionBindingID : option uuid }.

Record CreateRefreshAccessTokenParams := mkCreateRefreshAccessTokenParams {
  CRA_ID : uuid; CRA_JtiHash : bytes; CRA_ConsentGrantID : uuid; CRA_UserID : uuid; CRA_ClientID : uuid;
  CRA_Scopes : list string; CRA_IssuedAt : time; CRA_ExpiresAt : time;
  CRA_SourceRefreshTokenID : option uuid; CRA_RefreshFamilyID : option uuid;
  CRA_OriginSessionID : option uuid; CRA_SessionBindingID : option uuid }.

Definition code_access_row (a : CreateAccessTokenParams) : AccessTokenRow :=
  mkAccessTokenRow (CAT_ID a) (CAT_JtiHash a) (CAT_AuthorizationCodeID a) (CAT_ConsentGrantID a)
    (CAT_UserID a) (CAT_ClientID a) (CAT_Scopes a) (CAT_IssuedAt a) (CAT_ExpiresAt a)
    "authorization_code" None (CAT_RefreshFamilyID a) (CAT_OriginSessionID a) (CAT_SessionBindingID a) None None.

Definition refresh_access_row (a : CreateRefreshAccessTokenParams) : AccessTokenRow :=
  mkAccessTokenRow (CRA_ID a) (CRA_JtiHash a) None (CRA_ConsentGrantID a) (CRA_UserID a) (CRA_ClientID a)
    (CRA_Scopes a) (CRA_IssuedAt a) (CRA_ExpiresAt a) "refresh_token" (CRA_SourceRefreshTokenID a)
    (CRA_RefreshFamilyID a) (CRA_OriginSessionID a) (CRA_SessionBindingID a) None None.

(** The unique columns of [access_tokens]: jti_hash, and when not NULL the source
    refresh token and the source code. *)
Definition access_conflict (r o : AccessTokenRow) : bool :=
  (at_JtiHash o == at_JtiHash r) ||
  (bool_decide (is_Some (at_SourceRefreshTokenID r)) && (at_SourceRefreshTokenID o == at_SourceRefreshTokenID r)) ||
  (bool_decide (is_Some (at_AuthorizationCodeID r)) && (at_AuthorizationCodeID o == at_AuthorizationCodeID r)).

Definition insert_access_token (r : AccessTokenRow) : Stmt unit := λ db,
  if negb (access_token_authority_guard db r) then inr check_violation
  else if negb (access_tokens_check r) then inr check_violation
  else if bool_decide (is_Some (access_tokens db !! at_ID r)) || exists_row (access_conflict r) (access_tokens db)
  then inr unique_violation
  else if negb (references (at_AuthorizationCodeID r) (authorization_codes db))
          || negb (references (Some (at_ConsentGrantID r)) (consent_grants db))
          || negb (references (Some (at_UserID r)) (users db))
          || negb (references (Some (at_ClientID r)) (oidc_clients db))
          || negb (references (at_SourceRefreshTokenID r) (refresh_tokens db))
          || negb (references (at_RefreshFamilyID r) (refresh_token_families db))
          || negb (references (at_OriginSessionID r) (login_sessions db))
  then inr foreign_key_violation
  else inl ((), with_access_tokens (<[at_ID r := r]> (access_tokens db)) db).

Definition CreateAccessToken (a : CreateAccessTokenParams) : Stmt unit := insert_access_token (code_access_row a).
Definition CreateRefreshAccessToken (a : CreateRefreshAccessTokenParams) : Stmt unit :=
  insert_access_token (refresh_access_row a).

Definition GetAccessTokenByJTIHash (jtiHash : bytes) : Stmt AccessTokenRow :=
  select_one (λ db, find_row (λ r, at_JtiHash r == jtiHash) (access_tokens db)).
Definition LockAccessTokenByID (id : uuid) : Stmt AccessTokenRow := select_one (λ db, access_tokens db !! id).

Definition revoke_access (revokedAt : time) (reason : option string) (r : AccessTokenRow) : AccessTokenRow :=
  mkAccessTokenRow (at_ID r) (at_JtiHash r) (at_AuthorizationCodeID r) (at_ConsentGrantID r) (at_UserID r)
    (at_ClientID r) (at_Scopes r) (at_IssuedAt r) (at_ExpiresAt r) (at_IssuanceSource r)
    (at_SourceRefreshTokenID r) (at_RefreshFamilyID r) (at_OriginSessionID r) (at_SessionBindingID r)
    (Some revokedAt) reason.

Definition RevokeAccessToken (revokedAt : time) (reason : option string) (id : uuid) : Stmt AccessTokenRow := λ db,
  match access_tokens db !! id with
  | Some r =>
      if negb (at_RevokedAt r == None) then inr NoRows
      else if negb (access_tokens_check (revoke_access revokedAt reason r)) then inr check_violation
      else inl (revoke_access revokedAt reason r,
                with_access_tokens (<[id := revoke_access revokedAt reason r]> (access_tokens db)) db)
  | None => inr NoRows
  end.

(** [revoked_at IS NULL AND expires_at > $now]. *)
Definition live_access (now : time) (r : AccessTokenRow) : bool :=
  (at_RevokedAt r == None) && (now <? at_ExpiresAt r).

(** The [UPDATE access_tokens SET revoked_at, revoke_reason WHERE owner AND live]
    shared by the RevokeLiveAccessTokensBy... queries; the number of rows is returned. *)
Definition revoke_live_access (owner : AccessTokenRow → bool) (revokedAt : time) (reason : option string) : Stmt Z := λ db,
  let p r := owner r && live_access revokedAt r in
  let f := revoke_access revokedAt reason in
  if update_checks p f access_tokens_check (access_tokens db)
  then inl (count_where p (access_tokens db), with_access_tokens (update_where p f (access_tokens db)) db)
  else inr check_violation.

Definition RevokeLiveAccessTokensByFamily (revokedAt : time) (familyID : option uuid) : Stmt Z :=
  revoke_live_access (λ r, bool_decide (is_Some familyID) && (at_RefreshFamilyID r == familyID)) revokedAt (Some "family_revoked").
Definition RevokeLiveAccessTokensByGrant (revokedAt : time) (grantID : uuid) : Stmt Z :=
  revoke_live_access (λ r, at_ConsentGrantID r == grantID) revokedAt (Some "grant_revoked").
Definition RevokeLiveAccessTokensByUser (revokedAt : time) (reason : option string) (userID : uuid) : Stmt Z :=
  revoke_live_access (λ r, at_UserID r == userID) revokedAt reason.
Definition RevokeLiveAccessTokensByClient (revokedAt : time) (reason : option string) (clientID : uuid) : Stmt Z :=
  revoke_live_access (λ r, at_ClientID r == clientID) revokedAt reason.
Definition RevokeLiveRefreshAccessTokensByClient (revokedAt : time) (reason : option string) (clientID : uuid) : Stmt Z :=
  revoke_live_access (λ r, (at_ClientID r == clientID) && bool_decide (is_Some (at_RefreshFamilyID r))) revokedAt reason.

(** [SELECT id ... ORDER BY id FOR UPDATE]. *)
Definition ordered_ids {R} (id : R → uuid) (p : R → bool) (t : gmap uuid R) : list uuid :=
  merge_sort N.le (id <$> List.filter p (rows t)).

Definition LockLiveAccessTokensByGrant (grantID : uuid) (now : time) : Stmt (list uuid) :=
  select_many (λ db, ordered_ids at_ID (λ r, (at_ConsentGrantID r == grantID) && live_access now r) (access_tokens db)).
Definition LockLiveAccessTokensByUser (userID : uuid) (now : time) : Stmt (list uuid) :=
  select_many (λ db, ordered_ids at_ID (λ r, (at_UserID r == userID) && live_access now r) (access_tokens db)).
Definition LockLiveAccessTokensByClient (clientID : uuid) (now : time) : Stmt (list uuid) :=
  select_many (λ db, ordered_ids at_ID (λ r, (at_ClientID r == clientID) && live_access now r) (access_tokens db)).
Definition LockLiveRefreshAccessTokensByClient (clientID : uuid) (now : time) : Stmt (list uuid) :=
  select_many (λ db, ordered_ids at_ID (λ r, (at_ClientID r == clientID) &&
    bool_decide (is_Some (at_RefreshFamilyID r)) && live_access now r) (access_tokens db)).

(** ** refresh_token_families *)

Record CreateRefreshTokenFamilyParams := mkCreateRefreshTokenFamilyParams {
  CRF_ID : uuid; CRF_OriginAuthorizationCodeID : option uuid; CRF_ConsentGrantID : uuid; CRF_UserID : uuid;
  CRF_ClientID : uuid; CRF_OriginSessionID : option uuid; CRF_SessionBindingID : uuid;
  CRF_Scopes : list string; CRF_CreatedAt : time; CRF_AbsoluteExpiresAt : time }.

Definition new_family_row (a : CreateRefreshTokenFamilyParams) : RefreshTokenFamilyRow :=
  mkRefreshTokenFamilyRow (CRF_ID a) (CRF_OriginAuthorizationCodeID a) (CRF_ConsentGrantID a) (CRF_UserID a)
    (CRF_ClientID a) (CRF_OriginSessionID a) (CRF_SessionBindingID a) (CRF_Scopes a) (CRF_CreatedAt a)
    (CRF_AbsoluteExpiresAt a) None None.

Definition CreateRefreshTokenFamily (a : CreateRefreshTokenFamilyParams) : Stmt RefreshTokenFamilyRow := λ db,
  let r := new_family_row a in
  if negb (refresh_family_origin_guard db r) then inr check_violation
  else if negb (refresh_token_families_check r) then inr check_violation
  else if bool_decide (is_Some (refresh_token_families db !! rf_ID r))
          || exists_row (λ o, bool_decide (is_Some (rf_OriginAuthorizationCodeID r)) &&
                              (rf_OriginAuthorizationCodeID o == rf_OriginAuthorizationCodeID r)) (refresh_token_families db)
  then inr unique_violation
  else if negb (references (rf_OriginAuthorizationCodeID r) (authorization_codes db))
          || negb (references (Some (rf_ConsentGrantID r)) (consent_grants db))
          || negb (references (Some (rf_UserID r)) (users db))
          || negb (references (Some (rf_ClientID r)) (oidc_clients db))
          || negb (references (rf_OriginSessionID r) (login_sessions db))
  then inr foreign_key_violation
  else inl (r, with_refresh_token_families (<[rf_ID r := r]> (refresh_token_families db)) db).

Definition GetRefreshTokenFamilyByID (id : uuid) : Stmt RefreshTokenFamilyRow :=
  select_one (λ db, refresh_token_families db !! id).
Definition LockRefreshTokenFamilyByID (id : uuid) : Stmt RefreshTokenFamilyRow :=
  select_one (λ db, refresh_token_families db !! id).

Definition revoke_family (revokedAt : time) (reason : option string) (r : RefreshTokenFamilyRow) : RefreshTokenFamilyRow :=
  mkRefreshTokenFamilyRow (rf_ID r) (rf_OriginAuthorizationCodeID r) (rf_ConsentGrantID r) (rf_UserID r)
    (rf_ClientID r) (rf_OriginSessionID r) (rf_SessionBindingID r) (rf_Scopes r) (rf_CreatedAt r)
    (rf_AbsoluteExpiresAt r) (Some revokedAt) reason.

Definition RevokeRefreshTokenFamily (revokedAt : time) (reason : option string) (id : uuid) : Stmt RefreshTokenFamilyRow := λ db,
  match refresh_token_families db !! id with
  | Some r =>
      if negb (rf_RevokedAt r == None) then inr NoRows
      else if negb (refresh_token_families_check (revoke_family revokedAt reason r)) then inr check_violation
      else inl (revoke_family revokedAt reason r,
                with_refresh_token_families (<[id := revoke_family revokedAt reason r]> (refresh_token_families db)) db)
  | None => inr NoRows
  end.

(** [UPDATE refresh_token_families ... WHERE owner AND revoked_at IS NULL]. *)
Definition revoke_families {A} (owner : RefreshTokenFamilyRow → bool) (revokedAt : time) (reason : option string)
    (result : (RefreshTokenFamilyRow → bool) → gmap uuid RefreshTokenFamilyRow → A) : Stmt A := λ db,
  let p r := owner r && (rf_RevokedAt r == None) in
  let f := revoke_family revokedAt reason in
  if update_checks p f refresh_token_families_check (refresh_token_families db)
  then inl (result p (refresh_token_families db),
            with_refresh_token_families (update_where p f (refresh_token_families db)) db)
  else inr check_violation.

Definition RevokeRefreshTokenFamiliesByGrant (revokedAt : time) (grantID : uuid) : Stmt (list uuid) :=
  revoke_families (λ r, rf_ConsentGrantID r == grantID) revokedAt (Some "grant_revoked")
    (λ p t, rf_ID <$> List.filter p (rows t)).
Definition RevokeRefreshTokenFamiliesByUser (revokedAt : time) (reason : option string) (userID : uuid) : Stmt Z :=
  revoke_families (λ r, rf_UserID r == userID) revokedAt reason count_where.
Definition RevokeRefreshTokenFamiliesByClient (revokedAt : time) (reason : option string) (clientID : uuid) : Stmt Z :=
  revoke_families (λ r, rf_ClientID r == clientID) revokedAt reason count_where.

Definition LockUnrevokedRefreshTokenFamiliesByGrant (grantID : uuid) : Stmt (list uuid) :=
  select_many (λ db, ordered_ids rf_ID (λ r, (rf_ConsentGrantID r == grantID) && (rf_RevokedAt r == None)) (refresh_token_families db)).
Definition LockUnrevokedRefreshTokenFamiliesByUser (userID : uuid) : Stmt (list uuid) :=
  select_many (λ db, ordered_ids rf_ID (λ r, (rf_UserID r == userID) && (rf_RevokedAt r == None)) (refresh_token_families db)).
Definition LockUnrevokedRefreshTokenFamiliesByClient (clientID : uuid) : Stmt (list uuid) :=
  select_many (λ db, ordered_ids rf_ID (λ r, (rf_ClientID r == clientID) && (rf_RevokedAt r == None)) (refresh_token_families db)).

(** ** refresh_tokens *)

Record CreateRefreshTokenParams := mkCreateRefreshTokenParams {
  CRT_ID : uuid; CRT_FamilyID : uuid; CRT_TokenHash : bytes; CRT_Generation : Z; CRT_IssuedAt : time;
  CRT_ExpiresAt : time }.

Definition new_refresh_row (a : CreateRefreshTokenParams) : RefreshTokenRow :=
  mkRefreshTokenRow (CRT_ID a) (CRT_FamilyID a) (CRT_TokenHash a) (CRT_Generation a) (CRT_IssuedAt a)
    (CRT_ExpiresAt a) None.

Definition refresh_conflict (r o : RefreshTokenRow) : bool :=
  (rt_TokenHash o == rt_TokenHash r) ||
  ((rt_FamilyID o == rt_FamilyID r) && (rt_Generation o == rt_Generation r)).

Definition CreateRefreshToken (a : CreateRefreshTokenParams) : Stmt RefreshTokenRow := λ db,
  let r := new_refresh_row a in
  if negb (refresh_token_lifetime_guard db r) then inr check_violation
  else if negb (refresh_tokens_check r) then inr check_violation
  else if bool_decide (is_Some (refresh_tokens db !! rt_ID r)) || exists_row (refresh_conflict r) (refresh_tokens db)
  then inr unique_violation
  else if negb (references (Some (rt_FamilyID r)) (refresh_token_families db)) then inr foreign_key_violation
  else inl (r, with_refresh_tokens (<[rt_ID r := r]> (refresh_tokens db)) db).

Definition GetRefreshTokenByHash (tokenHash : bytes) : Stmt RefreshTokenRow :=
  select_one (λ db, find_row (λ r, rt_TokenHash r == tokenHash) (refresh_tokens db)).
Definition LockRefreshTokenByID (id : uuid) : Stmt RefreshTokenRow := select_one (λ db, refresh_tokens db !! id).

Definition consume_refresh (consumedAt : time) (r : RefreshTokenRow) : RefreshTokenRow :=
  mkRefreshTokenRow (rt_ID r) (rt_FamilyID r) (rt_TokenHash r) (rt_Generation r) (rt_IssuedAt r)
    (rt_ExpiresAt r) (Some consumedAt).

Definition ConsumeRefreshToken (consumedAt : time) (id : uuid) : Stmt RefreshTokenRow := λ db,
  match refresh_tokens db !! id with
  | Some r =>
      if negb (rt_ConsumedAt r == None) then inr NoRows
      else if negb (refresh_tokens_check (consume_refresh consumedAt r)) then inr check_violation
      else inl (consume_refresh consumedAt r,
                with_refresh_tokens (<[id := consume_refresh consumedAt r]> (refresh_tokens db)) db)
  | None => inr NoRows
  end.

(** ** audit_events *)

Record CreateAuditEventParams := mkCreateAuditEventParams {
  CAE_ID : uuid; CAE_EventType : string; CAE_Result : string; CAE_ActorUserID : option uuid;
  CAE_TargetType : option string; CAE_TargetID : option uuid; CAE_RequestID : option string;
  CAE_ChangedFields : list string; CAE_OccurredAt : time }.

Definition new_audit_row (a : CreateAuditEventParams) : AuditEventRow :=
  mkAuditEventRow (CAE_ID a) (CAE_EventType a) (CAE_Result a) (CAE_ActorUserID a) (CAE_TargetType a)
    (CAE_TargetID a) (CAE_RequestID a) (CAE_ChangedFields a) (CAE_OccurredAt a).

(** The partial unique indexes of migrations 11 and 14: one rejected code exchange,
    one rejected refresh exchange and one detected reuse per target. *)
Definition once_per_target : list (string * string) :=
  [("authorization_code_exchange_rejected", "authorization_code");
   ("refresh_token_exchange_rejected", "refresh_token"); ("refresh_token_reuse_detected", "refresh_token")].

Definition audit_conflict (r o : AuditEventRow) : bool :=
  existsb (λ '(ev, ty), (ae_EventType r == ev) && (ae_TargetType r == Some ty) && (ae_EventType o == ev) &&
    (ae_TargetType o == Some ty) && bool_decide (is_Some (ae_TargetID r)) && (ae_TargetID o == ae_TargetID r))
    once_per_target.

Definition CreateAuditEvent (a : CreateAuditEventParams) : Stmt unit := λ db,
  let r := new_audit_row a in
  if negb (audit_events_check r) then inr check_violation
  else if bool_decide (is_Some (audit_events db !! ae_ID r)) || exists_row (audit_conflict r) (audit_events db)
  then inr unique_violation
  else if negb (references (ae_ActorUserID r) (users db)) then inr foreign_key_violation
  else inl ((), with_audit_events (<[ae_ID r := r]> (audit_events db)) db).

Definition exchange_rejection_of (id : option uuid) (r : AuditEventRow) : bool :=
  (ae_EventType r == "authorization_code_exchange_rejected") &&
  (ae_TargetType r == Some "authorization_code") && bool_decide (is_Some id) && (ae_TargetID r == id).

Definition HasAuthorizationCodeExchangeRejection (id : option uuid) : Stmt bool := λ db,
  inl (exists_row (exchange_rejection_of id) (audit_events db), db).

(** ** Retirement

    [WITH candidates AS (SELECT id ... ORDER BY key, id LIMIT n FOR UPDATE SKIP LOCKED)
    DELETE ...]: the first [n] retired rows in order, of those that no other transaction
    holds. *)

Definition batch_le (a b : Z * uuid) : Prop := a.1 < b.1 ∨ (a.1 = b.1 ∧ (a.2 <= b.2)%N).
#[export] Instance batch_le_dec : RelDecision batch_le.
Proof. intros a b. unfold batch_le. apply _. Defined.

Definition batch {R} (held : gset uuid) (key : R → Z) (id : R → uuid) (p : R → bool) (limit : Z) (t : gmap uuid R) : list uuid :=
  take (Z.to_nat limit) (snd <$> merge_sort batch_le ((λ r, (key r, id r)) <$> List.filter (λ r, p r && bool_decide (id r ∉ held)) (rows t))).

Definition delete_ids {R} (ids : list uuid) (t : gmap uuid R) : gmap uuid R :=
  filter (λ '(k, _), k ∉ ids) t.

(** [ON DELETE SET NULL]. *)
Definition detach (ids : list uuid) (ref : option uuid) : option uuid :=
  match ref with Some id => if bool_decide (id ∈ ids) then None else Some id | None => None end.

Definition detach_access_code (ids : list uuid) (r : AccessTokenRow) : AccessTokenRow :=
  mkAccessTokenRow (at_ID r) (at_JtiHash r) (detach ids (at_AuthorizationCodeID r)) (at_ConsentGrantID r) (at_UserID r)
    (at_ClientID r) (at_Scopes r) (at_IssuedAt r) (at_ExpiresAt r) (at_IssuanceSource r)
    (at_SourceRefreshTokenID r) (at_RefreshFamilyID r) (at_OriginSessionID r) (at_SessionBindingID r)
    (at_RevokedAt r) (at_RevokeReason r).
Definition detach_family_code (ids : list uuid) (r : RefreshTokenFamilyRow) : RefreshTokenFamilyRow :=
  mkRefreshTokenFamilyRow (rf_ID r) (detach ids (rf_OriginAuthorizationCodeID r)) (rf_ConsentGrantID r) (rf_UserID r)
    (rf_ClientID r) (rf_OriginSessionID r) (rf_SessionBindingID r) (rf_Scopes r) (rf_CreatedAt r)
    (rf_AbsoluteExpiresAt r) (rf_RevokedAt r) (rf_RevokeReason r).

Definition DeleteRetiredAuthorizationCodes (held : gset uuid) (cutoff : time) (limit : Z) : Stmt Z := λ db,
  let ids := batch held code_ExpiresAt code_ID (λ r, code_ExpiresAt r <=? cutoff) limit (authorization_codes db) in
  inl (Z.of_nat (length ids),
       with_refresh_token_families (detach_family_code ids <$> refresh_token_families db)
         (with_access_tokens (detach_access_code ids <$> access_tokens db)
            (with_authorization_codes (delete_ids ids (authorization_codes db)) db))).

Definition DeleteRetiredAccessTokens (held : gset uuid) (cutoff : time) (limit : Z) : Stmt Z := λ db,
  let ids := batch held at_ExpiresAt at_ID (λ r, at_ExpiresAt r <=? cutoff) limit (access_tokens db) in
  inl (Z.of_nat (length ids), with_access_tokens (delete_ids ids (access_tokens db)) db).

(** [GREATEST(absolute_expires_at, COALESCE(revoked_at, absolute_expires_at))]. *)
Definition family_terminal (r : RefreshTokenFamilyRow) : time :=
  Z.max (rf_AbsoluteExpiresAt r) (default (rf_AbsoluteExpiresAt r) (rf_RevokedAt r)).

Definition DeleteRetiredRefreshTokens (held : gset uuid) (cutoff : time) (limit : Z) : Stmt Z := λ db,
  let terminal r := match refresh_token_families db !! rt_FamilyID r with
                    | Some family => Some (family_terminal family) | None => None end in
  let ids := batch held (λ r, default 0 (terminal r)) rt_ID
    (λ r, match terminal r with Some t => t <=? cutoff | None => false end &&
          negb (exists_row (λ a, at_SourceRefreshTokenID a == Some (rt_ID r)) (access_tokens db)))
    limit (refresh_tokens db) in
  inl (Z.of_nat (length ids), with_refresh_tokens (delete_ids ids (refresh_tokens db)) db).

Definition DeleteRetiredRefreshTokenFamilies (held : gset uuid) (cutoff : time) (limit : Z) : Stmt Z := λ db,
  let ids := batch held family_terminal rf_ID
    (λ r, (family_terminal r <=? cutoff) &&
          negb (exists_row (λ t, rt_FamilyID t == rf_ID r) (refresh_tokens db)) &&
          negb (exists_row (λ a, at_RefreshFamilyID a == Some (rf_ID r)) (access_tokens db)))
    limit (refresh_token_families db) in
  inl (Z.of_nat (length ids), with_refresh_token_families (delete_ids ids (refresh_token_families db)) db).
