(* ===== verification/RegistryQueries.v ===== *)
(** * The user and client registries

    The queries of [sqlcgen/identity.sql.go] and [sqlcgen/client.sql.go] with the
    constraints and triggers of migrations 1, 2 and 11. *)

From S2P Require Import Prelude Text Errors Scopes Domain AuditEvents Database Queries.

(** [$1 IS NULL OR (created_at, id) < ($1, $2)] and [ORDER BY created_at DESC, id DESC]. *)
Definition before_cursor (cursorTime : option time) (cursorID : uuid) (key : time * uuid) : bool :=
  unless_null cursorTime (λ t, (key.1 <? t) || ((key.1 =? t) && (key.2 <? cursorID)%N)).
Definition newest_first (a b : time * uuid) : Prop := b.1 < a.1 ∨ (b.1 = a.1 ∧ (b.2 <= a.2)%N).
#[export] Instance newest_first_dec : RelDecision newest_first.
Proof. intros a b. unfold newest_first. apply _. Defined.

Definition by_key {R} (key : R → time * uuid) (a b : R) : Prop := newest_first (key a) (key b).
#[export] Instance by_key_dec {R} (key : R → time * uuid) : RelDecision (by_key key).
Proof. intros a b. unfold by_key. apply _. Defined.

(** One page of the rows that satisfy a condition. *)
Definition page_of {R} (key : R → time * uuid) (p : R → bool) (cursorTime : option time) (cursorID : uuid) (limit : Z)
    (t : gmap uuid R) : list R :=
  take (Z.to_nat limit)
    (merge_sort (by_key key) (List.filter (λ r, p r && before_cursor cursorTime cursorID (key r)) (rows t))).

(** ** users *)

Definition text_between (lo hi : Z) (s : string) : bool := (lo <=? char_length s) && (char_length s <=? hi).

Definition users_check (r : UserRow) : bool :=
  text_between 20 255 (u_Subject r) && (u_Subject r == btrim (u_Subject r)) &&
  text_between 1 128 (u_Username r) && text_between 1 256 (u_UsernameNormalized r) &&
  text_between 1 256 (u_DisplayName r) && text_between 3 320 (u_Email r) && text_between 3 320 (u_EmailNormalized r) &&
  bool_decide (u_Status r ∈ ["active"; "disabled"]) && bool_decide (u_Role r ∈ ["user"; "admin"]) &&
  (u_CreatedAt r <=? u_UpdatedAt r) && not_before (u_LastLoginAt r) (u_CreatedAt r) && (0 <? u_Version r).

Definition users_conflict (r o : UserRow) : bool :=
  (u_Subject o == u_Subject r) || (u_UsernameNormalized o == u_UsernameNormalized r) ||
  (u_EmailNormalized o == u_EmailNormalized r).

Definition users_table : Table UserRow := mkTable users with_users u_ID users_check users_conflict.

Record CreateUserParams := mkCreateUserParams {
  CU_ID : uuid; CU_Subject : string; CU_Username : string; CU_UsernameNormalized : string; CU_DisplayName : string;
  CU_Email : string; CU_EmailNormalized : string; CU_EmailVerified : bool; CU_Status : string; CU_Role : string;
  CU_CreatedAt : time; CU_UpdatedAt : time }.

Definition new_user_row (a : CreateUserParams) : UserRow :=
  mkUserRow (CU_ID a) (CU_Subject a) (CU_Username a) (CU_UsernameNormalized a) (CU_DisplayName a) (CU_Email a)
    (CU_EmailNormalized a) (CU_EmailVerified a) (CU_Status a) (CU_Role a) (CU_CreatedAt a) (CU_UpdatedAt a) None 1.

Definition CreateUser (a : CreateUserParams) : Stmt UserRow :=
  insert_row users_table (λ _, true) (λ _, true) (new_user_row a).

Record UpdateUserParams := mkUpdateUserParams {
  UU_Username : string; UU_UsernameNormalized : string; UU_DisplayName : string; UU_Email : string;
  UU_EmailNormalized : string; UU_Status : string; UU_Role : string; UU_UpdatedAt : time; UU_ID : uuid;
  UU_ExpectedVersion : Z }.

Definition updated_user_row (a : UpdateUserParams) (r : UserRow) : UserRow :=
  mkUserRow (u_ID r) (u_Subject r) (UU_Username a) (UU_UsernameNormalized a) (UU_DisplayName a) (UU_Email a)
    (UU_EmailNormalized a) (u_EmailVerified r) (UU_Status a) (UU_Role a) (u_CreatedAt r) (UU_UpdatedAt a)
    (u_LastLoginAt r) (u_Version r + 1).

Definition UpdateUser (a : UpdateUserParams) : Stmt UserRow := λ db,
  match users db !! UU_ID a with
  | Some r =>
      let r' := updated_user_row a r in
      if u_Version r != UU_ExpectedVersion a then inr NoRows
      else if 2 ^ 63 <=? u_Version r' then inr numeric_out_of_range
      else if negb (users_check r') then inr check_violation
      else if exists_row (users_conflict r') (delete (UU_ID a) (users db)) then inr unique_violation
      else inl (r', with_users (<[UU_ID a := r']> (users db)) db)
  | None => inr NoRows
  end.

(** [updated_at = GREATEST(updated_at, $1)]. *)
Definition UpdateLastLogin (lastLoginAt : time) (id : uuid) : Stmt unit :=
  exec (update_row users_table id (λ _, true) (λ r,
    mkUserRow (u_ID r) (u_Subject r) (u_Username r) (u_UsernameNormalized r) (u_DisplayName r) (u_Email r)
      (u_EmailNormalized r) (u_EmailVerified r) (u_Status r) (u_Role r) (u_CreatedAt r)
      (Z.max (u_UpdatedAt r) lastLoginAt) (Some lastLoginAt) (u_Version r))).

Definition has_identifier (identifier : string) (r : UserRow) : bool :=
  (u_UsernameNormalized r == identifier) || (u_EmailNormalized r == identifier).
Definition active_admin (r : UserRow) : bool := (u_Role r == "admin") && (u_Status r == "active").

Definition LockLoginIdentifier (identifier : string) : Stmt unit := advisory_lock.
Definition LockAdminSet : Stmt unit := advisory_lock.
Definition LoginIdentifierExists (identifier : string) : Stmt bool := λ db,
  inl (exists_row (has_identifier identifier) (users db), db).
Definition LoginIdentifierOwnedByOther (id : uuid) (identifier : string) : Stmt bool := λ db,
  inl (exists_row (λ r, (u_ID r != id) && has_identifier identifier r) (users db), db).
Definition HasAdmin : Stmt bool := λ db, inl (exists_row (λ r, u_Role r == "admin") (users db), db).
Definition CountActiveAdmins : Stmt Z := λ db, inl (count_where active_admin (users db), db).

Definition ListUsers (search : string) (cursorTime : option time) (cursorID : uuid) (limit : Z) : Stmt (list UserRow) :=
  select_many (λ db, page_of (λ r, (u_CreatedAt r, u_ID r))
    (λ r, (search == "") || LIKE (u_UsernameNormalized r) (search +:+ "%") || LIKE (u_EmailNormalized r) (search +:+ "%"))
    cursorTime cursorID limit (users db)).

(** ** credentials *)

Definition credentials_check (r : CredentialRow) : bool :=
  (cr_CredentialType r == "password") && LIKE (cr_PasswordHash r) "$argon2id$v=%$m=%,t=%,p=%$%$%" &&
  text_between 80 512 (cr_PasswordHash r) && (cr_CreatedAt r <=? cr_UpdatedAt r).

Definition credentials_table : Table CredentialRow :=
  mkTable credentials with_credentials cr_UserID credentials_check (λ _ _, false).

Definition CreateCredential (userID : uuid) (passwordHash : string) (createdAt updatedAt : time) : Stmt CredentialRow :=
  insert_row credentials_table (λ _, true) (λ db, references (Some userID) (users db))
    (mkCredentialRow userID "password" passwordHash createdAt updatedAt).

Definition UpdateCredentialHash (passwordHash : string) (updatedAt : time) (userID : uuid) : Stmt unit :=
  exec (update_row credentials_table userID (λ r, cr_CredentialType r == "password")
    (λ r, mkCredentialRow (cr_UserID r) (cr_CredentialType r) passwordHash (cr_CreatedAt r) updatedAt)).

(** The user of the identifier, the username match first, with the password row. *)
Definition login_row (db : DB) (identifier : string) (matches : UserRow → bool) : option (UserRow * CredentialRow) :=
  u ← find_row (λ u, matches u && match credentials db !! u_ID u with
                                  | Some c => cr_CredentialType c == "password" | None => false end) (users db);
  c ← credentials db !! u_ID u;
  Some (u, c).

Definition FindCredentialForLogin (identifier : string) : Stmt (UserRow * CredentialRow) :=
  select_one (λ db,
    match login_row db identifier (λ u, u_UsernameNormalized u == identifier) with
    | Some found => Some found
    | None => login_row db identifier (λ u, u_EmailNormalized u == identifier)
    end).

(** ** oidc_clients *)

Definition client_profile_valid (clientType method : string) : bool :=
  ((clientType == TypePublic) && (method == AuthMethodNone)) ||
  ((clientType == TypeConfidential) && (method == AuthMethodClientSecretBasic)).

Definition oidc_clients_check (r : OidcClientRow) : bool :=
  LIKE (cl_ClientID r) "ois_cli_%" && text_between 40 128 (cl_ClientID r) &&
  bool_decide (cl_ClientType r ∈ [TypePublic; TypeConfidential]) &&
  client_profile_valid (cl_ClientType r) (cl_TokenEndpointAuthMethod r) &&
  text_between 1 256 (cl_Name r) && (char_length (cl_Description r) <=? 2048) &&
  unless_null (cl_LogoUri r) (λ s, char_length s <=? 2048) && bool_decide (cl_Status r ∈ ["active"; "disabled"]) &&
  (cl_CreatedAt r <=? cl_UpdatedAt r) && (0 <? cl_Version r).

Definition oidc_clients_table : Table OidcClientRow :=
  mkTable oidc_clients with_oidc_clients cl_ID oidc_clients_check (λ r o, cl_ClientID o == cl_ClientID r).

Record CreateOIDCClientParams := mkCreateOIDCClientParams {
  CC_ID : uuid; CC_ClientID : string; CC_ClientType : string; CC_TokenEndpointAuthMethod : string; CC_Name : string;
  CC_Description : string; CC_LogoUri : option string; CC_Status : string; CC_RegistrationEnabled : bool;
  CC_CreatedAt : time; CC_UpdatedAt : time }.

Definition new_client_row (a : CreateOIDCClientParams) : OidcClientRow :=
  mkOidcClientRow (CC_ID a) (CC_ClientID a) (CC_ClientType a) (CC_TokenEndpointAuthMethod a) (CC_Name a)
    (CC_Description a) (CC_LogoUri a) (CC_Status a) (CC_RegistrationEnabled a) (CC_CreatedAt a) (CC_UpdatedAt a) 1.

Definition CreateOIDCClient (a : CreateOIDCClientParams) : Stmt OidcClientRow :=
  insert_row oidc_clients_table (λ _, true) (λ _, true) (new_client_row a).

Record UpdateOIDCClientParams := mkUpdateOIDCClientParams {
  UC_Name : string; UC_Description : string; UC_LogoUri : option string; UC_Status : string;
  UC_RegistrationEnabled : bool; UC_UpdatedAt : time; UC_ID : uuid; UC_ExpectedVersion : Z }.

Definition updated_client_row (a : UpdateOIDCClientParams) (r : OidcClientRow) : OidcClientRow :=
  mkOidcClientRow (cl_ID r) (cl_ClientID r) (cl_ClientType r) (cl_TokenEndpointAuthMethod r) (UC_Name a)
    (UC_Description a) (UC_LogoUri a) (UC_Status a) (UC_RegistrationEnabled a) (cl_CreatedAt r) (UC_UpdatedAt a)
    (cl_Version r + 1).

Definition UpdateOIDCClient (a : UpdateOIDCClientParams) : Stmt OidcClientRow := λ db,
  match oidc_clients db !! UC_ID a with
  | Some r =>
      if (cl_Version r == UC_ExpectedVersion a) && (2 ^ 63 <=? cl_Version r + 1) then inr numeric_out_of_range
      else update_row oidc_clients_table (UC_ID a) (λ r, cl_Version r == UC_ExpectedVersion a) (updated_client_row a) db
  | None => inr NoRows
  end.

Definition ListOIDCClients (cursorTime : option time) (cursorID : uuid) (limit : Z) : Stmt (list OidcClientRow) :=
  select_many (λ db, page_of (λ r, (cl_CreatedAt r, cl_ID r)) (λ _, true) cursorTime cursorID limit (oidc_clients db)).

(** ** The child tables of a client *)

Definition insert_child (put : gmap (uuid * string) time → DB → DB) (get : DB → gmap (uuid * string) time)
    (valid : string → bool) (clientID : uuid) (value : string) (createdAt : time) : Stmt unit := λ db,
  if negb (valid value) then inr check_violation
  else if bool_decide (is_Some (get db !! (clientID, value))) then inr unique_violation
  else if negb (references (Some clientID) (oidc_clients db)) then inr foreign_key_violation
  else inl ((), put (<[(clientID, value) := createdAt]> (get db)) db).

Definition delete_children (clientID : uuid) (t : gmap (uuid * string) time) : gmap (uuid * string) time :=
  filter (λ kv, kv.1.1 ≠ clientID) t.

(** [scope ~ '^[a-z][a-z0-9:_-]{0,63}$']. *)
Definition scope_character (c : ascii) : bool :=
  let n := Z.of_N (N_of_ascii c) in
  ((97 <=? n) && (n <=? 122)) || ((48 <=? n) && (n <=? 57)) ||
  (c == ":"%char) || (c == "_"%char) || (c == "-"%char).
Definition scope_format (s : string) : bool :=
  match s with
  | EmptyString => false
  | String c rest =>
      let n := Z.of_N (N_of_ascii c) in
      (97 <=? n) && (n <=? 122) && every scope_character rest && (len rest <=? 63)
  end.

Definition CreateOIDCClientRedirectURI : uuid → string → time → Stmt unit :=
  insert_child with_oidc_client_redirect_uris oidc_client_redirect_uris (text_between 8 2048).
Definition CreateOIDCClientLogoutURI : uuid → string → time → Stmt unit :=
  insert_child with_oidc_client_logout_uris oidc_client_logout_uris (text_between 8 2048).
Definition CreateOIDCClientScope : uuid → string → time → Stmt unit :=
  insert_child with_oidc_client_scopes oidc_client_scopes scope_format.
Definition DeleteOIDCClientRedirectURIs (clientID : uuid) : Stmt unit := λ db,
  inl ((), with_oidc_client_redirect_uris (delete_children clientID (oidc_client_redirect_uris db)) db).
Definition DeleteOIDCClientLogoutURIs (clientID : uuid) : Stmt unit := λ db,
  inl ((), with_oidc_client_logout_uris (delete_children clientID (oidc_client_logout_uris db)) db).
Definition DeleteOIDCClientScopes (clientID : uuid) : Stmt unit := λ db,
  inl ((), with_oidc_client_scopes (delete_children clientID (oidc_client_scopes db)) db).

(** ** oidc_client_secrets *)

Definition oidc_client_secrets_check (r : OidcClientSecretRow) : bool :=
  (len (sec_SecretHash r) =? 32) && (sec_Version r =? 1) && not_before (sec_RevokedAt r) (sec_CreatedAt r).

Definition oidc_client_secrets_table : Table OidcClientSecretRow :=
  mkTable oidc_client_secrets with_oidc_client_secrets sec_ID oidc_client_secrets_check
    (λ r o, sec_SecretHash o == sec_SecretHash r).

(** [oneissuer_enforce_confidential_secret]. *)
Definition confidential_secret_guard (clientID : uuid) (db : DB) : bool :=
  match oidc_clients db !! clientID with
  | Some c => (cl_ClientType c == TypeConfidential) && (cl_TokenEndpointAuthMethod c == AuthMethodClientSecretBasic)
  | None => false
  end.

Definition CreateOIDCClientSecret (id clientID : uuid) (secretHash : bytes) (createdAt : time) : Stmt OidcClientSecretRow :=
  insert_row oidc_client_secrets_table (confidential_secret_guard clientID)
    (λ db, references (Some clientID) (oidc_clients db)) (mkOidcClientSecretRow id clientID secretHash 1 createdAt None).

Definition live_secret_of (clientID : uuid) (r : OidcClientSecretRow) : bool :=
  (sec_ClientID r == clientID) && (sec_RevokedAt r == None).

Definition RevokeActiveOIDCClientSecrets (revokedAt : time) (clientID : uuid) : Stmt (list uuid) :=
  update_rows oidc_client_secrets_table (live_secret_of clientID)
    (λ r, mkOidcClientSecretRow (sec_ID r) (sec_ClientID r) (sec_SecretHash r) (sec_Version r) (sec_CreatedAt r) (Some revokedAt))
    (λ t, sec_ID <$> List.filter (live_secret_of clientID) (rows t)).

Definition newest_secret (a b : OidcClientSecretRow) : Prop := sec_CreatedAt b <= sec_CreatedAt a.
#[export] Instance newest_secret_dec : RelDecision newest_secret.
Proof. intros a b. unfold newest_secret. apply _. Defined.

Definition ListActiveOIDCClientSecretHashes (clientID : uuid) : Stmt (list bytes) :=
  select_many (λ db, sec_SecretHash <$>
    merge_sort newest_secret (List.filter (live_secret_of clientID) (rows (oidc_client_secrets db)))).

(** ** audit_events *)

Definition ListAuditEvents (eventType : string) (cursorTime : option time) (cursorID : uuid) (limit : Z)
    : Stmt (list AuditEventRow) :=
  select_many (λ db, page_of (λ r, (ae_OccurredAt r, ae_ID r)) (λ r, (eventType == "") || (ae_EventType r == eventType))
    cursorTime cursorID limit (audit_events db)).

(** Proofs never compute a CHECK. *)
#[global] Strategy 1000 [LIKE char_length btrim credentials_check users_check oidc_clients_check].
