(* ===== verification/BrowserQueries.v ===== *)
(** * Browser state in the database

    The queries of [sqlcgen/session.sql.go], [authflow.sql.go] and [logout.sql.go] —
    login sessions, pre-authentication sessions, browser transactions and logout
    transactions — with the constraints of migrations 3, 5, 7, 11, 12 and 14. *)

From S2P Require Import Prelude Text Errors Scopes Domain AuditEvents Database Queries RegistryQueries.

Definition set_member (ids : list uuid) (id : uuid) : bool := bool_decide (id ∈ ids).

(** ** login_sessions *)

Definition session_revoke_reasons : list string :=
  ["logout"; "user"; "others"; "admin"; "user_disabled"; "role_changed"; "rotation"; "expired"; "account_switch"].

Definition login_sessions_check (r : LoginSessionRow) : bool :=
  (len (ls_TokenHash r) =? 32) && (len (ls_CsrfHash r) =? 32) && unless_null (ls_UserAgentHash r) (λ h, len h =? 32) &&
  unless_null (ls_IpPrefix r) (text_between 3 64) &&
  (ls_CreatedAt r <=? ls_LastSeenAt r) && (ls_CreatedAt r <=? ls_AuthenticatedAt r) &&
  (ls_CreatedAt r <? ls_ExpiresAt r) && (ls_CreatedAt r <? ls_IdleExpiresAt r) &&
  (ls_IdleExpiresAt r <=? ls_ExpiresAt r) && (ls_CreatedAt r <? ls_CsrfExpiresAt r) &&
  not_before (ls_RevokedAt r) (ls_CreatedAt r) &&
  revoke_reason_valid session_revoke_reasons (ls_RevokedAt r) (ls_RevokeReason r).

Definition login_sessions_table : Table LoginSessionRow :=
  mkTable login_sessions with_login_sessions ls_ID login_sessions_check (λ r o, ls_TokenHash o == ls_TokenHash r).

Record CreateLoginSessionParams := mkCreateLoginSessionParams {
  CLS_ID : uuid; CLS_UserID : uuid; CLS_SessionBindingID : uuid; CLS_TokenHash : bytes; CLS_CsrfHash : bytes;
  CLS_CsrfExpiresAt : time; CLS_CreatedAt : time; CLS_LastSeenAt : time; CLS_AuthenticatedAt : time;
  CLS_ExpiresAt : time; CLS_IdleExpiresAt : time; CLS_UserAgentHash : option bytes; CLS_IpPrefix : option string }.

Definition new_session_row (a : CreateLoginSessionParams) : LoginSessionRow :=
  mkLoginSessionRow (CLS_ID a) (CLS_UserID a) (CLS_TokenHash a) (CLS_CsrfHash a) (CLS_CsrfExpiresAt a) (CLS_CreatedAt a)
    (CLS_LastSeenAt a) (CLS_AuthenticatedAt a) (CLS_ExpiresAt a) (CLS_IdleExpiresAt a) None None (CLS_UserAgentHash a)
    (CLS_IpPrefix a) (CLS_SessionBindingID a).

Definition CreateLoginSession (a : CreateLoginSessionParams) : Stmt LoginSessionRow :=
  insert_row login_sessions_table (λ _, true) (λ db, references (Some (CLS_UserID a)) (users db)) (new_session_row a).

(** The session and its user, joined. *)
Definition GetLoginSessionByTokenHash (tokenHash : bytes) : Stmt (LoginSessionRow * UserRow) :=
  select_one (λ db,
    s ← find_row (λ r, ls_TokenHash r == tokenHash) (login_sessions db);
    u ← users db !! ls_UserID s;
    Some (s, u)).
Definition LockLoginSessionByTokenHash (tokenHash : bytes) : Stmt LoginSessionRow :=
  select_one (λ db, find_row (λ r, ls_TokenHash r == tokenHash) (login_sessions db)).
Definition LockLoginSessionByID (id : uuid) : Stmt LoginSessionRow := select_one (λ db, login_sessions db !! id).

Definition session_id_le (a b : LoginSessionRow) : Prop := (ls_ID a <= ls_ID b)%N.
#[export] Instance session_id_le_dec : RelDecision session_id_le.
Proof. intros a b. unfold session_id_le. apply _. Defined.

Definition unrevoked_of (userID : uuid) (r : LoginSessionRow) : bool := (ls_UserID r == userID) && (ls_RevokedAt r == None).

Definition LockActiveLoginSessionsByUser (userID : uuid) : Stmt (list LoginSessionRow) :=
  select_many (λ db, merge_sort session_id_le (List.filter (unrevoked_of userID) (rows (login_sessions db)))).

Definition touch_session (lastSeenAt idleExpiresAt : time) (r : LoginSessionRow) : LoginSessionRow :=
  mkLoginSessionRow (ls_ID r) (ls_UserID r) (ls_TokenHash r) (ls_CsrfHash r) (ls_CsrfExpiresAt r) (ls_CreatedAt r)
    lastSeenAt (ls_AuthenticatedAt r) (ls_ExpiresAt r) (Z.min (ls_ExpiresAt r) idleExpiresAt) (ls_RevokedAt r)
    (ls_RevokeReason r) (ls_UserAgentHash r) (ls_IpPrefix r) (ls_SessionBindingID r).

Definition TouchLoginSession (lastSeenAt idleExpiresAt : time) (id : uuid) : Stmt unit :=
  exec (update_row login_sessions_table id
    (λ r, (ls_RevokedAt r == None) && (lastSeenAt <? ls_ExpiresAt r) && (lastSeenAt <? ls_IdleExpiresAt r))
    (touch_session lastSeenAt idleExpiresAt)).

Definition rotate_session_csrf (csrfHash : bytes) (csrfExpiresAt : time) (r : LoginSessionRow) : LoginSessionRow :=
  mkLoginSessionRow (ls_ID r) (ls_UserID r) (ls_TokenHash r) csrfHash csrfExpiresAt (ls_CreatedAt r)
    (ls_LastSeenAt r) (ls_AuthenticatedAt r) (ls_ExpiresAt r) (ls_IdleExpiresAt r) (ls_RevokedAt r)
    (ls_RevokeReason r) (ls_UserAgentHash r) (ls_IpPrefix r) (ls_SessionBindingID r).

Definition RotateLoginSessionCSRF (csrfHash : bytes) (csrfExpiresAt : time) (id : uuid) : Stmt unit :=
  exec (update_row login_sessions_table id (λ r, ls_RevokedAt r == None) (rotate_session_csrf csrfHash csrfExpiresAt)).

Definition revoke_session (revokedAt : time) (reason : option string) (r : LoginSessionRow) : LoginSessionRow :=
  mkLoginSessionRow (ls_ID r) (ls_UserID r) (ls_TokenHash r) (ls_CsrfHash r) (ls_CsrfExpiresAt r) (ls_CreatedAt r)
    (ls_LastSeenAt r) (ls_AuthenticatedAt r) (ls_ExpiresAt r) (ls_IdleExpiresAt r) (Some revokedAt)
    reason (ls_UserAgentHash r) (ls_IpPrefix r) (ls_SessionBindingID r).

(** [UPDATE login_sessions SET revoked_at, revoke_reason WHERE id = $1 AND p AND revoked_at IS NULL]. *)
Definition revoke_session_where (id : uuid) (p : LoginSessionRow → bool) (revokedAt : time) (reason : option string)
    : Stmt LoginSessionRow :=
  update_row login_sessions_table id (λ r, p r && (ls_RevokedAt r == None)) (revoke_session revokedAt reason).

Definition RevokeLoginSessionByHash (revokedAt : time) (reason : option string) (tokenHash : bytes) : Stmt LoginSessionRow := λ db,
  match find_row (λ r, ls_TokenHash r == tokenHash) (login_sessions db) with
  | Some r => revoke_session_where (ls_ID r) (λ _, true) revokedAt reason db
  | None => inr NoRows
  end.
Definition RevokeLoginSessionByID (revokedAt : time) (reason : option string) (id : uuid) : Stmt LoginSessionRow :=
  revoke_session_where id (λ _, true) revokedAt reason.
Definition RevokeLoginSessionForUser (revokedAt : time) (reason : option string) (id userID : uuid) : Stmt LoginSessionRow :=
  revoke_session_where id (λ r, ls_UserID r == userID) revokedAt reason.
Definition RevokeLoginSessionAdmin (revokedAt : time) (reason : option string) (id : uuid) : Stmt LoginSessionRow :=
  revoke_session_where id (λ _, true) revokedAt reason.
Definition RevokeLoginSessionBindingByID (revokedAt : time) (reason : option string) (id : uuid) : Stmt LoginSessionRow :=
  revoke_session_where id (λ _, true) revokedAt reason.

(** [... WHERE user_id = $1 AND p AND revoked_at IS NULL RETURNING id]. *)
Definition revoke_sessions (p : LoginSessionRow → bool) (revokedAt : time) (reason : option string) : Stmt (list uuid) :=
  update_rows login_sessions_table p (revoke_session revokedAt reason) (λ t, ls_ID <$> List.filter p (rows t)).

Definition RevokeOtherLoginSessions (revokedAt : time) (userID currentSessionID : uuid) : Stmt (list uuid) :=
  revoke_sessions (λ r, unrevoked_of userID r && (ls_ID r != currentSessionID)) revokedAt (Some "others").
Definition RevokeAllUserLoginSessions (revokedAt : time) (reason : option string) (userID : uuid) : Stmt (list uuid) :=
  revoke_sessions (unrevoked_of userID) revokedAt reason.

Definition session_list_key (r : LoginSessionRow) : time * uuid := (ls_CreatedAt r, ls_ID r).

Definition ListUserLoginSessions (userID : uuid) (cursorTime : option time) (cursorID : uuid) (limit : Z)
    : Stmt (list LoginSessionRow) :=
  select_many (λ db, page_of session_list_key (λ r, ls_UserID r == userID) cursorTime cursorID limit (login_sessions db)).

(** The inner join drops a session without a user before the page is cut. *)
Definition ListLoginSessionsAdmin (cursorTime : option time) (cursorID : uuid) (limit : Z)
    : Stmt (list (LoginSessionRow * UserRow)) :=
  select_many (λ db,
    omap (λ s, match users db !! ls_UserID s with Some u => Some (s, u) | None => None end)
      (page_of session_list_key (λ s, bool_decide (is_Some (users db !! ls_UserID s))) cursorTime cursorID limit
         (login_sessions db))).

(** Not revoked, and both deadlines ahead. *)
Definition live_session (now : time) (r : LoginSessionRow) : bool :=
  (ls_RevokedAt r == None) && (now <? ls_ExpiresAt r) && (now <? ls_IdleExpiresAt r).

Definition CountActiveLoginSessions (now : time) : Stmt Z := λ db,
  inl (count_where (live_session now) (login_sessions db), db).

(** *** What hangs on a session binding *)

Definition bound_family (bindings : list uuid) (r : RefreshTokenFamilyRow) : bool :=
  set_member bindings (rf_SessionBindingID r).
Definition bound_access (bindings : list uuid) (r : AccessTokenRow) : bool :=
  match at_SessionBindingID r with Some b => set_member bindings b | None => false end.

Definition LockUnrevokedRefreshTokenFamiliesByBindings (bindings : list uuid) : Stmt (list uuid) :=
  select_many (λ db, ordered_ids rf_ID (λ r, bound_family bindings r && (rf_RevokedAt r == None)) (refresh_token_families db)).
Definition LockLiveAccessTokensByBindings (bindings : list uuid) (now : time) : Stmt (list uuid) :=
  select_many (λ db, ordered_ids at_ID (λ r, bound_access bindings r && live_access now r) (access_tokens db)).
Definition RevokeRefreshTokenFamiliesByBindings (revokedAt : time) (reason : option string) (bindings : list uuid) : Stmt Z :=
  revoke_families (bound_family bindings) revokedAt reason count_where.
Definition RevokeLiveAccessTokensByBindings (revokedAt : time) (reason : option string) (bindings : list uuid) : Stmt Z :=
  revoke_live_access (bound_access bindings) revokedAt reason.

Definition LockUnrevokedRefreshTokenFamiliesByBinding (binding : uuid) : Stmt (list uuid) :=
  LockUnrevokedRefreshTokenFamiliesByBindings [binding].
Definition LockLiveAccessTokensByBinding (binding : option uuid) (now : time) : Stmt (list uuid) :=
  LockLiveAccessTokensByBindings (option_list binding) now.
Definition RevokeRefreshTokenFamiliesByBinding (revokedAt : time) (reason : option string) (binding : uuid) : Stmt Z :=
  RevokeRefreshTokenFamiliesByBindings revokedAt reason [binding].
Definition RevokeLiveAccessTokensByBinding (revokedAt : time) (reason : option string) (binding : option uuid) : Stmt Z :=
  RevokeLiveAccessTokensByBindings revokedAt reason (option_list binding).

(** *** Retirement of sessions

    Deleting a session detaches codes, then families, then access tokens ([ON DELETE SET
    NULL]); the last update fires the authority trigger, which refuses a code-sourced
    token whose code row is gone.  A logout transaction refuses the deletion ([ON DELETE
    RESTRICT]). *)

Definition session_terminal (r : LoginSessionRow) : time :=
  Z.min (Z.min (ls_ExpiresAt r) (ls_IdleExpiresAt r)) (default (ls_ExpiresAt r) (ls_RevokedAt r)).
Definition session_retired (cutoff : time) (r : LoginSessionRow) : bool :=
  match ls_RevokedAt r with Some t => t <=? cutoff | None => false end ||
  (ls_ExpiresAt r <=? cutoff) || (ls_IdleExpiresAt r <=? cutoff).

Definition detach_code_session (ids : list uuid) (r : AuthorizationCodeRow) : AuthorizationCodeRow :=
  mkAuthorizationCodeRow (code_ID r) (code_CodeHash r) (code_AuthTransactionID r) (code_ConsentGrantID r)
    (code_UserID r) (code_ClientID r) (code_RedirectUri r) (code_Scopes r) (code_PkceChallenge r)
    (code_PkceMethod r) (code_NonceValue r) (code_AuthTime r) (code_CreatedAt r) (code_ExpiresAt r)
    (code_ConsumedAt r) (code_ConsentGrantVersion r) (detach ids (code_OriginSessionID r)) (code_SessionBindingID r).
Definition detach_family_session (ids : list uuid) (r : RefreshTokenFamilyRow) : RefreshTokenFamilyRow :=
  mkRefreshTokenFamilyRow (rf_ID r) (rf_OriginAuthorizationCodeID r) (rf_ConsentGrantID r) (rf_UserID r)
    (rf_ClientID r) (detach ids (rf_OriginSessionID r)) (rf_SessionBindingID r) (rf_Scopes r) (rf_CreatedAt r)
    (rf_AbsoluteExpiresAt r) (rf_RevokedAt r) (rf_RevokeReason r).
Definition detach_access_session (ids : list uuid) (r : AccessTokenRow) : AccessTokenRow :=
  mkAccessTokenRow (at_ID r) (at_JtiHash r) (at_AuthorizationCodeID r) (at_ConsentGrantID r) (at_UserID r)
    (at_ClientID r) (at_Scopes r) (at_IssuedAt r) (at_ExpiresAt r) (at_IssuanceSource r)
    (at_SourceRefreshTokenID r) (at_RefreshFamilyID r) (detach ids (at_OriginSessionID r)) (at_SessionBindingID r)
    (at_RevokedAt r) (at_RevokeReason r).

(** The reference is one of the deleted ids. *)
Definition points_into (ids : list uuid) (ref : option uuid) : bool :=
  match ref with Some id => set_member ids id | None => false end.

(** The tables once the references to the deleted sessions are NULL. *)
Definition detach_sessions (ids : list uuid) (db : DB) : DB :=
  with_access_tokens (detach_access_session ids <$> access_tokens db)
    (with_refresh_token_families (detach_family_session ids <$> refresh_token_families db)
       (with_authorization_codes (detach_code_session ids <$> authorization_codes db) db)).

Definition delete_login_session (id : uuid) : Stmt unit := λ db,
  let db' := detach_sessions [id] db in
  if negb (forallb (λ r, negb (points_into [id] (at_OriginSessionID r)) ||
                         access_token_authority_guard db' (detach_access_session [id] r)) (rows (access_tokens db)))
  then inr check_violation
  else if exists_row (λ l, points_into [id] (lo_SessionID l)) (logout_transactions db) then inr foreign_key_violation
  else inl ((), with_login_sessions (delete id (login_sessions db)) db').

Fixpoint delete_login_sessions (ids : list uuid) : Stmt unit := λ db,
  match ids with
  | [] => inl ((), db)
  | id :: rest => match delete_login_session id db with inl (_, db') => delete_login_sessions rest db' | inr e => inr e end
  end.

Definition retired_sessions (held : gset uuid) (cutoff : time) (limit : Z) (db : DB) : list uuid :=
  batch held session_terminal ls_ID (session_retired cutoff) limit (login_sessions db).

Definition DeleteRetiredLoginSessions (held : gset uuid) (cutoff : time) (limit : Z) : Stmt Z := λ db,
  let ids := retired_sessions held cutoff limit db in
  match delete_login_sessions ids db with
  | inl (_, db') => inl (Z.of_nat (length ids), db')
  | inr e => inr e
  end.

(** ** preauth_sessions *)

Definition preauth_sessions_check (r : PreauthSessionRow) : bool :=
  (len (pa_TokenHash r) =? 32) && (len (pa_CsrfHash r) =? 32) && (pa_CreatedAt r <? pa_ExpiresAt r) &&
  not_before (pa_ConsumedAt r) (pa_CreatedAt r) && (0 <=? pa_AttemptCount r) && (pa_AttemptCount r <=? 10).

Definition preauth_sessions_table : Table PreauthSessionRow :=
  mkTable preauth_sessions with_preauth_sessions pa_ID preauth_sessions_check (λ r o, pa_TokenHash o == pa_TokenHash r).

Definition CreatePreAuthSession (id : uuid) (tokenHash csrfHash : bytes) (authTransactionID : uuid)
    (createdAt expiresAt : time) : Stmt PreauthSessionRow :=
  insert_row preauth_sessions_table (λ _, true) (λ db, references (Some authTransactionID) (auth_transactions db))
    (mkPreauthSessionRow id tokenHash csrfHash authTransactionID createdAt expiresAt None 0).

Definition GetPreAuthSessionByTokenHash (tokenHash : bytes) : Stmt PreauthSessionRow :=
  select_one (λ db, find_row (λ r, pa_TokenHash r == tokenHash) (preauth_sessions db)).

Definition live_preauth (now : time) (r : PreauthSessionRow) : bool := (pa_ConsumedAt r == None) && (now <? pa_ExpiresAt r).

Definition ReservePreAuthAttempt (id : uuid) (now : time) (maxAttempts : Z) : Stmt PreauthSessionRow :=
  update_row preauth_sessions_table id (λ r, live_preauth now r && (pa_AttemptCount r <? maxAttempts))
    (λ r, mkPreauthSessionRow (pa_ID r) (pa_TokenHash r) (pa_CsrfHash r) (pa_AuthTransactionID r) (pa_CreatedAt r)
            (pa_ExpiresAt r) (pa_ConsumedAt r) (pa_AttemptCount r + 1)).

Definition consume_preauth (consumedAt : time) (r : PreauthSessionRow) : PreauthSessionRow :=
  mkPreauthSessionRow (pa_ID r) (pa_TokenHash r) (pa_CsrfHash r) (pa_AuthTransactionID r) (pa_CreatedAt r)
    (pa_ExpiresAt r) (Some consumedAt) (pa_AttemptCount r).

Definition ConsumePreAuthSession (consumedAt : time) (id : uuid) : Stmt PreauthSessionRow :=
  update_row preauth_sessions_table id (live_preauth consumedAt) (consume_preauth consumedAt).

Definition preauth_terminal (r : PreauthSessionRow) : time :=
  Z.min (pa_ExpiresAt r) (default (pa_ExpiresAt r) (pa_ConsumedAt r)).
Definition preauth_retired (cutoff : time) (r : PreauthSessionRow) : bool :=
  (pa_ExpiresAt r <=? cutoff) || match pa_ConsumedAt r with Some t => t <=? cutoff | None => false end.

Definition DeleteExpiredPreAuthSessions (held : gset uuid) (cutoff : time) (limit : Z) : Stmt Z := λ db,
  let ids := batch held preauth_terminal pa_ID (preauth_retired cutoff) limit (preauth_sessions db) in
  inl (Z.of_nat (length ids), with_preauth_sessions (delete_ids ids (preauth_sessions db)) db).

(** ** auth_transactions *)

Definition auth_transactions_table : Table AuthTransactionRow :=
  mkTable auth_transactions with_auth_transactions tx_ID auth_transactions_check (λ r o, tx_TokenHash o == tx_TokenHash r).

Record CreateAuthTransactionParams := mkCreateAuthTransactionParams {
  CTX_ID : uuid; CTX_TokenHash : bytes; CTX_TransactionKind : string; CTX_ClientID : option uuid;
  CTX_RedirectUri : option string; CTX_Scopes : list string; CTX_PkceChallenge : option string;
  CTX_PkceMethod : option string; CTX_StateValue : option string; CTX_NonceValue : option string;
  CTX_PromptCreate : bool; CTX_ResponseType : option string; CTX_ResponseMode : option string;
  CTX_PromptValues : list string; CTX_MaxAgeSeconds : option Z; CTX_CreatedAt : time; CTX_ExpiresAt : time }.

Definition new_transaction_row (a : CreateAuthTransactionParams) : AuthTransactionRow :=
  mkAuthTransactionRow (CTX_ID a) (CTX_TokenHash a) (CTX_TransactionKind a) (CTX_ClientID a) (CTX_RedirectUri a)
    (CTX_Scopes a) (CTX_PkceChallenge a) (CTX_PkceMethod a) (CTX_StateValue a) (CTX_NonceValue a) (CTX_PromptCreate a)
    (CTX_CreatedAt a) (CTX_ExpiresAt a) None None (CTX_ResponseType a) (CTX_ResponseMode a) (CTX_PromptValues a)
    (CTX_MaxAgeSeconds a).

Definition CreateAuthTransaction (a : CreateAuthTransactionParams) : Stmt AuthTransactionRow :=
  insert_row auth_transactions_table (λ _, true) (λ db, references (CTX_ClientID a) (oidc_clients db)) (new_transaction_row a).

Definition GetAuthTransactionByTokenHash (tokenHash : bytes) : Stmt AuthTransactionRow :=
  select_one (λ db, find_row (λ r, tx_TokenHash r == tokenHash) (auth_transactions db)).
Definition GetAuthTransactionByID (id : uuid) : Stmt AuthTransactionRow := select_one (λ db, auth_transactions db !! id).

Definition elapsed (now : time) (r : AuthTransactionRow) : bool := (tx_ConsumedAt r == None) && (tx_ExpiresAt r <=? now).
Definition expired_transactions (held : gset uuid) (now : time) (limit : Z) (db : DB) : list uuid :=
  batch held tx_ExpiresAt tx_ID (elapsed now) limit (auth_transactions db).

Definition ExpireAuthTransactions (held : gset uuid) (now : time) (limit : Z) : Stmt (list uuid) := λ db,
  let ids := expired_transactions held now limit db in
  update_rows auth_transactions_table (λ r, elapsed now r && set_member ids (tx_ID r)) (finish_transaction now (Some "expired"))
    (λ _, ids) db.

Definition transaction_retired (cutoff : time) (db : DB) (r : AuthTransactionRow) : bool :=
  match tx_ConsumedAt r with Some t => t <=? cutoff | None => false end &&
  negb (exists_row (λ p, pa_AuthTransactionID p == tx_ID r) (preauth_sessions db)) &&
  negb (exists_row (λ c, code_AuthTransactionID c == tx_ID r) (authorization_codes db)).

Definition DeleteRetiredAuthTransactions (held : gset uuid) (cutoff : time) (limit : Z) : Stmt Z := λ db,
  let ids := batch held (λ r, default 0 (tx_ConsumedAt r)) tx_ID (transaction_retired cutoff db) limit (auth_transactions db) in
  inl (Z.of_nat (length ids), with_auth_transactions (delete_ids ids (auth_transactions db)) db).

(** ** logout_transactions *)

Definition StagePreConfirm : string := "pre_confirm".
Definition StageBoundConfirmable : string := "bound_confirmable".
Definition StageConfirmed : string := "confirmed".
Definition StageCanceled : string := "canceled".

(** [logout_transactions_authority_stage_valid]. *)
Definition logout_authority_stage (r : LogoutTransactionRow) : bool :=
  ((lo_Stage r == StagePreConfirm) && (lo_CsrfHash r == None) && (lo_UserID r == None) && (lo_SessionID r == None) &&
   (lo_SessionBindingID r == None) && (lo_BoundAt r == None) && (lo_ConsumedAt r == None)) ||
  (bool_decide (is_Some (lo_UserID r)) && bool_decide (is_Some (lo_SessionID r)) &&
   bool_decide (is_Some (lo_SessionBindingID r)) && bool_decide (is_Some (lo_BoundAt r)) &&
   (((lo_Stage r == StageBoundConfirmable) && bool_decide (is_Some (lo_CsrfHash r)) && (lo_ConsumedAt r == None)) ||
    (bool_decide (lo_Stage r ∈ [StageConfirmed; StageCanceled]) && (lo_CsrfHash r == None) &&
     bool_decide (is_Some (lo_ConsumedAt r))))).

Definition logout_transactions_check (r : LogoutTransactionRow) : bool :=
  (len (lo_LookupHash r) =? 32) && unless_null (lo_CsrfHash r) (λ h, len h =? 32) &&
  bool_decide (lo_Stage r ∈ [StagePreConfirm; StageBoundConfirmable; StageConfirmed; StageCanceled]) &&
  unless_null (lo_PostLogoutRedirectUri r)
    (λ s, bool_decide (is_Some (lo_VerifiedClientID r)) && (8 <=? len s) && (len s <=? 2048)) &&
  unless_null (lo_StateValue r)
    (λ s, bool_decide (is_Some (lo_PostLogoutRedirectUri r)) && (1 <=? len s) && (len s <=? 1024)) &&
  unless_null (lo_HintSubject r) (λ s, (1 <=? len s) && (len s <=? 255)) &&
  logout_authority_stage r &&
  (lo_CreatedAt r <? lo_ExpiresAt r) && (lo_ExpiresAt r <=? lo_CreatedAt r + 15 * Time.Minute) &&
  not_before (lo_BoundAt r) (lo_CreatedAt r) &&
  not_before (lo_ConsumedAt r) (default (lo_CreatedAt r) (lo_BoundAt r)) &&
  (0 <=? lo_AttemptCount r) && (lo_AttemptCount r <=? 10).

Definition logout_transactions_table : Table LogoutTransactionRow :=
  mkTable logout_transactions with_logout_transactions lo_ID logout_transactions_check
    (λ r o, lo_LookupHash o == lo_LookupHash r).

Definition CreateLogoutTransaction (id : uuid) (lookupHash : bytes) (verifiedClientID : option uuid)
    (postLogoutRedirectURI stateValue hintSubject : option string) (createdAt expiresAt : time) : Stmt LogoutTransactionRow :=
  insert_row logout_transactions_table (λ _, true) (λ db, references verifiedClientID (oidc_clients db))
    (mkLogoutTransactionRow id lookupHash StagePreConfirm None verifiedClientID postLogoutRedirectURI stateValue
       hintSubject None None None createdAt expiresAt None None 0).

Definition GetLogoutTransactionByLookupHash (lookupHash : bytes) : Stmt LogoutTransactionRow :=
  select_one (λ db, find_row (λ r, lo_LookupHash r == lookupHash) (logout_transactions db)).
Definition LockLogoutTransactionByLookupHash (lookupHash : bytes) : Stmt LogoutTransactionRow :=
  select_one (λ db, find_row (λ r, lo_LookupHash r == lookupHash) (logout_transactions db)).

Definition live_bound (sessionID : uuid) (now : time) (r : LogoutTransactionRow) : bool :=
  (lo_SessionID r == Some sessionID) && (lo_Stage r == StageBoundConfirmable) && (lo_ConsumedAt r == None) &&
  (now <? lo_ExpiresAt r).

Definition CountLiveBoundLogoutTransactionsBySession (sessionID : uuid) (now : time) : Stmt Z := λ db,
  inl (count_where (live_bound sessionID now) (logout_transactions db), db).

Record BindLogoutParams := mkBindLogoutParams {
  BL_CsrfHash : bytes; BL_UserID : uuid; BL_SessionID : uuid; BL_SessionBindingID : uuid; BL_BoundAt : time;
  BL_Subject : option string; BL_ID : uuid }.

(** The redirect survives only when the hint, if any, names the signed-in subject. *)
Definition bind_logout (a : BindLogoutParams) (r : LogoutTransactionRow) : LogoutTransactionRow :=
  let keep := (lo_HintSubject r == None) || (lo_HintSubject r == BL_Subject a) in
  mkLogoutTransactionRow (lo_ID r) (lo_LookupHash r) StageBoundConfirmable (Some (BL_CsrfHash a)) (lo_VerifiedClientID r)
    (if keep then lo_PostLogoutRedirectUri r else None) (if keep then lo_StateValue r else None) (lo_HintSubject r)
    (Some (BL_UserID a)) (Some (BL_SessionID a)) (Some (BL_SessionBindingID a)) (lo_CreatedAt r) (lo_ExpiresAt r)
    (Some (BL_BoundAt a)) (lo_ConsumedAt r) (lo_AttemptCount r).

Definition BindPreConfirmLogoutTransaction (a : BindLogoutParams) : Stmt LogoutTransactionRow := λ db,
  match update_row logout_transactions_table (BL_ID a)
          (λ r, (lo_Stage r == StagePreConfirm) && (lo_ConsumedAt r == None) && (BL_BoundAt a <? lo_ExpiresAt r))
          (bind_logout a) db with
  | inl (r, db') =>
      if references (Some (BL_UserID a)) (users db) && references (Some (BL_SessionID a)) (login_sessions db)
      then inl (r, db') else inr foreign_key_violation
  | inr e => inr e
  end.

Definition set_logout_csrf (csrfHash : bytes) (r : LogoutTransactionRow) : LogoutTransactionRow :=
  mkLogoutTransactionRow (lo_ID r) (lo_LookupHash r) (lo_Stage r) (Some csrfHash) (lo_VerifiedClientID r)
    (lo_PostLogoutRedirectUri r) (lo_StateValue r) (lo_HintSubject r) (lo_UserID r) (lo_SessionID r)
    (lo_SessionBindingID r) (lo_CreatedAt r) (lo_ExpiresAt r) (lo_BoundAt r) (lo_ConsumedAt r) (lo_AttemptCount r).

Definition RotateBoundLogoutTransactionCSRF (csrfHash : bytes) (id : uuid) (now : time)
    (userID sessionID sessionBindingID : uuid) : Stmt LogoutTransactionRow :=
  update_row logout_transactions_table id
    (λ r, live_bound sessionID now r && (lo_UserID r == Some userID) && (lo_SessionBindingID r == Some sessionBindingID))
    (set_logout_csrf csrfHash).

Definition count_logout_attempt (r : LogoutTransactionRow) : LogoutTransactionRow :=
  mkLogoutTransactionRow (lo_ID r) (lo_LookupHash r) (lo_Stage r) (lo_CsrfHash r) (lo_VerifiedClientID r)
    (lo_PostLogoutRedirectUri r) (lo_StateValue r) (lo_HintSubject r) (lo_UserID r) (lo_SessionID r)
    (lo_SessionBindingID r) (lo_CreatedAt r) (lo_ExpiresAt r) (lo_BoundAt r) (lo_ConsumedAt r) (lo_AttemptCount r + 1).

Definition IncrementLogoutTransactionAttempt (id : uuid) (maxAttempts : Z) : Stmt LogoutTransactionRow :=
  update_row logout_transactions_table id (λ r, (lo_ConsumedAt r == None) && (lo_AttemptCount r <? maxAttempts))
    count_logout_attempt.

Definition finish_logout (stage : string) (consumedAt : time) (r : LogoutTransactionRow) : LogoutTransactionRow :=
  mkLogoutTransactionRow (lo_ID r) (lo_LookupHash r) stage None (lo_VerifiedClientID r)
    (lo_PostLogoutRedirectUri r) (lo_StateValue r) (lo_HintSubject r) (lo_UserID r) (lo_SessionID r)
    (lo_SessionBindingID r) (lo_CreatedAt r) (lo_ExpiresAt r) (lo_BoundAt r) (Some consumedAt) (lo_AttemptCount r).

Definition finish_bound_logout (stage : string) (consumedAt : time) (id : uuid) : Stmt LogoutTransactionRow :=
  update_row logout_transactions_table id (λ r, (lo_Stage r == StageBoundConfirmable) && (lo_ConsumedAt r == None))
    (finish_logout stage consumedAt).
Definition ConfirmLogoutTransaction (consumedAt : time) (id : uuid) : Stmt LogoutTransactionRow :=
  finish_bound_logout StageConfirmed consumedAt id.
Definition CancelLogoutTransaction (consumedAt : time) (id : uuid) : Stmt LogoutTransactionRow :=
  finish_bound_logout StageCanceled consumedAt id.

Definition logout_retired (now cutoff : time) (r : LogoutTransactionRow) : bool :=
  match lo_ConsumedAt r with None => lo_ExpiresAt r <=? now | Some t => t <=? cutoff end.

Definition DeleteRetiredLogoutTransactions (held : gset uuid) (now cutoff : time) (limit : Z) : Stmt Z := λ db,
  let ids := batch held (λ r, default (lo_ExpiresAt r) (lo_ConsumedAt r)) lo_ID (logout_retired now cutoff) limit
               (logout_transactions db) in
  inl (Z.of_nat (length ids), with_logout_transactions (delete_ids ids (logout_transactions db)) db).

(** Proofs never compute a CHECK. *)
#[global] Strategy 1000 [login_sessions_check preauth_sessions_check auth_transactions_check logout_transactions_check
  authorization_codes_check access_tokens_check refresh_token_families_check].
