(* ===== verification/Tx.v ===== *)
(** * Transactions

    The world one request runs in — the tables, the random sources, what the driver
    will fail at, the rows other transactions hold — and the monad of store code over it.  [inTx]
    is the transaction runner of [internal/storage/postgres/domain_helpers.go]: it
    begins, runs the operation, rolls back on an error, retries a serialization
    failure or a deadlock once, and never retries a commit. *)

From S2P Require Import Prelude Errors Platform Scopes Domain AuditEvents Database Queries.

(** What the driver does with one round trip.  A fault at COMMIT is ambiguous:
    [applied] says whether the server had made the transaction durable. *)
Inductive fault := NoFault | Fault (e : driver_error) (applied : bool).

Record World := mkWorld {
  w_db : DB;
  w_rand : string;            (* the service's random reader *)
  w_sysrand : string;         (* crypto/rand, read by uuid.New *)
  w_faults : list fault;      (* consumed one per round trip; none left means no fault *)
  w_held : list (gset uuid);  (* rows other transactions hold, one set per SKIP LOCKED statement *)
  w_events : list AuditEvent; (* the events variable of the running operation *)
  w_observed : list (string * string);  (* AuditObserver.AuditEvent calls *)
  w_write_failures : list string;       (* AuditObserver.AuditWriteFailure calls *)
  w_compared : list string              (* the password digests Argon2 was run against *) }.

Definition with_db (db : DB) (w : World) : World :=
  mkWorld db (w_rand w) (w_sysrand w) (w_faults w) (w_held w) (w_events w) (w_observed w) (w_write_failures w) (w_compared w).
Definition with_rand (s : string) (w : World) : World :=
  mkWorld (w_db w) s (w_sysrand w) (w_faults w) (w_held w) (w_events w) (w_observed w) (w_write_failures w) (w_compared w).
Definition with_sysrand (s : string) (w : World) : World :=
  mkWorld (w_db w) (w_rand w) s (w_faults w) (w_held w) (w_events w) (w_observed w) (w_write_failures w) (w_compared w).
Definition with_faults (f : list fault) (w : World) : World :=
  mkWorld (w_db w) (w_rand w) (w_sysrand w) f (w_held w) (w_events w) (w_observed w) (w_write_failures w) (w_compared w).
Definition with_held (l : list (gset uuid)) (w : World) : World :=
  mkWorld (w_db w) (w_rand w) (w_sysrand w) (w_faults w) l (w_events w) (w_observed w) (w_write_failures w) (w_compared w).
Definition with_events (l : list AuditEvent) (w : World) : World :=
  mkWorld (w_db w) (w_rand w) (w_sysrand w) (w_faults w) (w_held w) l (w_observed w) (w_write_failures w) (w_compared w).
Definition with_observed (l : list (string * string)) (w : World) : World :=
  mkWorld (w_db w) (w_rand w) (w_sysrand w) (w_faults w) (w_held w) (w_events w) l (w_write_failures w) (w_compared w).
Definition with_write_failures (l : list string) (w : World) : World :=
  mkWorld (w_db w) (w_rand w) (w_sysrand w) (w_faults w) (w_held w) (w_events w) (w_observed w) l (w_compared w).
Definition with_compared (l : list string) (w : World) : World :=
  mkWorld (w_db w) (w_rand w) (w_sysrand w) (w_faults w) (w_held w) (w_events w) (w_observed w) (w_write_failures w) l.

Definition Tx (A : Type) : Type := World → World * (A + error).

#[export] Instance Tx_ret : MRet Tx := λ A a w, (w, inl a).
#[export] Instance Tx_bind : MBind Tx := λ A B f m w,
  match m w with (w', inl a) => f a w' | (w', inr e) => (w', inr e) end.

Definition throw {A} (e : error) : Tx A := λ w, (w, inr e).
(** [if b { return e }]. *)
Definition reject_if (b : bool) (e : error) : Tx unit := if b then throw e else mret ().

Definition lift_rand {A} (m : Rnd A) : Tx A := λ w,
  let '(s, r) := m (w_rand w) in (with_rand s w, r).
Definition lift_sysrand {A} (m : Rnd A) : Tx A := λ w,
  let '(s, r) := m (w_sysrand w) in (with_sysrand s w, r).

(** ** Round trips *)

(** The absence of a row is the answer of a statement, never a fault. *)
Definition current_fault (w : World) : option (driver_error * bool) :=
  match head (w_faults w) with
  | Some (Fault NoRows _) | Some NoFault | None => None
  | Some (Fault e applied) => Some (e, applied)
  end.
Definition pop_fault (w : World) : World := with_faults (tail (w_faults w)) w.

Definition statement {A} (s : Stmt A) (w : World) : World * (A + driver_error) :=
  match current_fault w with
  | Some (e, _) => (pop_fault w, inr e)
  | None =>
      match s (w_db w) with
      | inl (a, db) => (with_db db (pop_fault w), inl a)
      | inr e => (pop_fault w, inr e)
      end
  end.

(** [row, err := q(...); if isNoRows(err) { absent }; if err != nil { wrapError(op, ErrorKindQuery, err) }]. *)
Definition query_opt {A} (op : string) (s : Stmt A) : Tx (option A) := λ w,
  match statement s w with
  | (w', inl a) => (w', inl (Some a))
  | (w', inr NoRows) => (w', inl None)
  | (w', inr e) => (w', inr (wrapError op ErrorKindQuery e))
  end.

(** The same, returning [missing] from the operation when the row is absent. *)
Definition query_row {A} (op : string) (missing : error) (s : Stmt A) : Tx A :=
  r ← query_opt op s; match r with Some a => mret a | None => throw missing end.

(** [if err != nil { wrapError(op, ErrorKindQuery, err) }], an absent row included. *)
Definition query {A} (op : string) (s : Stmt A) : Tx A := λ w,
  match statement s w with
  | (w', inl a) => (w', inl a)
  | (w', inr e) => (w', inr (wrapError op ErrorKindQuery e))
  end.

(** The same with the caller's own reading of the driver's error. *)
Definition query_map {A} (reading : driver_error → error) (s : Stmt A) : Tx A := λ w,
  match statement s w with
  | (w', inl a) => (w', inl a)
  | (w', inr e) => (w', inr (reading e))
  end.

(** A statement outside a transaction commits by itself: when its acknowledgement is
    lost it may have been applied although the driver reports an error. *)
Definition autocommit {A} (s : Stmt A) (w : World) : World * (A + driver_error) :=
  match current_fault w, s (w_db w) with
  | Some (e, true), inl (_, db) => (with_db db (pop_fault w), inr e)
  | _, _ => statement s w
  end.

Definition exec_opt {A} (op : string) (s : Stmt A) : Tx (option A) := λ w,
  match autocommit s w with
  | (w', inl a) => (w', inl (Some a))
  | (w', inr NoRows) => (w', inl None)
  | (w', inr e) => (w', inr (wrapError op ErrorKindQuery e))
  end.
Definition exec_row {A} (op : string) (missing : error) (s : Stmt A) : Tx A :=
  r ← exec_opt op s; match r with Some a => mret a | None => throw missing end.
Definition exec_query {A} (op : string) (s : Stmt A) : Tx A := λ w,
  match autocommit s w with
  | (w', inl a) => (w', inl a)
  | (w', inr e) => (w', inr (wrapError op ErrorKindQuery e))
  end.

(** A statement that takes locks: SELECT ... FOR UPDATE, or an advisory lock.  Transactions
    run one after another here, so the lock only marks the statement. *)
Definition locking {A} (m : Tx A) : Tx A := m.

(** FOR UPDATE SKIP LOCKED passes over the rows that transactions of other connections
    hold at that moment; no set left means that nothing is held. *)
Definition locked_elsewhere : Tx (gset uuid) := λ w,
  (with_held (tail (w_held w)) w, inl (default ∅ (head (w_held w)))).

(** ** [inTx] *)

Definition maxTransactionAttempts : nat := 2.

Definition observeAuditWriteFailure (e : error) (w : World) : World :=
  match auditWriteFailure e with
  | Some event => with_write_failures (w_write_failures w ++ [event]) w
  | None => w
  end.

(** The callbacks passed as [reset] clear the values an attempt produced. *)
Definition resetValues (w : World) : World := with_events [] w.

Fixpoint inTx_attempts {A} (remaining : nat) (attempt : Z) (operation : Tx A) : Tx A := λ w,
  match remaining with
  | O => (w, inr (wrapError "transaction retry exhausted" ErrorKindQuery OtherDriverError))
  | S remaining' =>
      let w0 := resetValues w in
      match current_fault w0 with
      | Some (e, _) => (pop_fault w0, inr (wrapError "begin transaction" ErrorKindQuery e))
      | None =>
          let w1 := pop_fault w0 in
          match operation w1 with
          | (w2, inr e) =>
              let w3 := with_db (w_db w1) w2 in
              if (attempt == 0) && isRetryableTransactionError e
              then inTx_attempts remaining' (attempt + 1) operation w3
              else (observeAuditWriteFailure e (resetValues w3), inr e)
          | (w2, inl a) =>
              match current_fault w2 with
              | None => (pop_fault w2, inl a)
              | Some (e, applied) =>
                  let w3 := resetValues (pop_fault w2) in
                  (if applied then w3 else with_db (w_db w1) w3,
                   inr (wrapError "commit transaction" ErrorKindQuery e))
              end
          end
      end
  end.

Definition inTx {A} (operation : Tx A) : Tx A := inTx_attempts maxTransactionAttempts 0 operation.

(** [observeAuditEvents(events)] after a successful transaction. *)
Definition observeAuditEvents : Tx unit := λ w,
  (with_observed (w_observed w ++ ((λ e, (Event_Type e, Event_Result e)) <$> w_events w)) w, inl ()).

(** [inTxWithAudit]: the caller's events are observed once the transaction committed. *)
Definition inTxWithAudit {A} (events : list AuditEvent) (operation : Tx A) : Tx A :=
  result ← inTx operation;
  (λ w, (with_events events w, inl ()));;
  observeAuditEvents;;
  mret result.

(** ** Success inverts to the run of every step *)

Section inversion.
Context {A B : Type}.

Lemma Tx_bind_inl (m : Tx A) (k : A → Tx B) w w' b :
  (m ≫= k) w = (w', inl b) ↔ ∃ w1 a, m w = (w1, inl a) ∧ k a w1 = (w', inl b).
Proof. unfold mbind, Tx_bind. destruct (m w) as [w1 [a|e]]; naive_solver. Qed.

Lemma reject_if_inl b e w w' x : reject_if b e w = (w', inl x) ↔ b = false ∧ w' = w.
Proof. unfold reject_if, throw, mret, Tx_ret. destruct b, x; naive_solver. Qed.

Lemma ret_inl (a b : A) w w' : (mret a : Tx A) w = (w', inl b) ↔ w' = w ∧ b = a.
Proof. unfold mret, Tx_ret. naive_solver. Qed.

Lemma throw_inl (e : error) w w' (a : A) : (throw e : Tx A) w = (w', inl a) ↔ False.
Proof. unfold throw. naive_solver. Qed.

Lemma statement_inl (s : Stmt A) w w' a :
  statement s w = (w', inl a) ↔
  current_fault w = None ∧ ∃ db, s (w_db w) = inl (a, db) ∧ w' = with_db db (pop_fault w).
Proof.
  unfold statement. destruct (current_fault w) as [[e ap]|]; [naive_solver|].
  destruct (s (w_db w)) as [[a' db]|e]; naive_solver.
Qed.

Lemma query_inl op (s : Stmt A) w w' a :
  query op s w = (w', inl a) ↔
  current_fault w = None ∧ ∃ db, s (w_db w) = inl (a, db) ∧ w' = with_db db (pop_fault w).
Proof.
  rewrite <- statement_inl. unfold query. destruct (statement s w) as [w1 [a'|e]]; naive_solver.
Qed.

Lemma query_map_inl reading (s : Stmt A) w w' a :
  query_map reading s w = (w', inl a) ↔
  current_fault w = None ∧ ∃ db, s (w_db w) = inl (a, db) ∧ w' = with_db db (pop_fault w).
Proof.
  rewrite <- statement_inl. unfold query_map. destruct (statement s w) as [w1 [a'|e]]; naive_solver.
Qed.

Lemma autocommit_inl (s : Stmt A) w w' a :
  autocommit s w = (w', inl a) ↔
  current_fault w = None ∧ ∃ db, s (w_db w) = inl (a, db) ∧ w' = with_db db (pop_fault w).
Proof.
  rewrite <- statement_inl. unfold autocommit, statement.
  destruct (current_fault w) as [[e []]|]; [|done|by destruct (s (w_db w)) as [[]|]].
  destruct (s (w_db w)) as [[a' db]|e']; naive_solver.
Qed.

Lemma exec_query_inl op (s : Stmt A) w w' a :
  exec_query op s w = (w', inl a) ↔
  current_fault w = None ∧ ∃ db, s (w_db w) = inl (a, db) ∧ w' = with_db db (pop_fault w).
Proof. rewrite <- autocommit_inl. unfold exec_query. destruct (autocommit s w) as [w1 [a'|e]]; naive_solver. Qed.

Lemma exec_row_inl op missing (s : Stmt A) w w' a :
  exec_row op missing s w = (w', inl a) ↔
  current_fault w = None ∧ ∃ db, s (w_db w) = inl (a, db) ∧ w' = with_db db (pop_fault w).
Proof.
  rewrite <- autocommit_inl. unfold exec_row, mbind, Tx_bind, exec_opt.
  destruct (autocommit s w) as [w1 [a'|[]]]; unfold mret, Tx_ret, throw; naive_solver.
Qed.

Lemma query_opt_inl op (s : Stmt A) w w' r :
  query_opt op s w = (w', inl r) →
  (∃ a db, r = Some a ∧ current_fault w = None ∧ s (w_db w) = inl (a, db) ∧ w' = with_db db (pop_fault w)) ∨
  (r = None ∧ w' = pop_fault w ∧ s (w_db w) = inr NoRows).
Proof.
  unfold query_opt, statement. destruct (current_fault w) as [[[] ap]|] eqn:Ef; try naive_solver.
  { unfold current_fault in Ef. by repeat case_match. }
  destruct (s (w_db w)) as [[a' db]|[]]; naive_solver.
Qed.

Lemma query_row_inl op missing (s : Stmt A) w w' a :
  query_row op missing s w = (w', inl a) ↔
  current_fault w = None ∧ ∃ db, s (w_db w) = inl (a, db) ∧ w' = with_db db (pop_fault w).
Proof.
  rewrite <- statement_inl. unfold query_row, mbind, Tx_bind, query_opt.
  destruct (statement s w) as [w1 [a'|[]]]; unfold mret, Tx_ret, throw; naive_solver.
Qed.

Lemma lift_rand_inl (m : Rnd A) w w' a :
  lift_rand m w = (w', inl a) ↔ ∃ s, m (w_rand w) = (s, inl a) ∧ w' = with_rand s w.
Proof. unfold lift_rand. destruct (m (w_rand w)) as [s [a'|e]]; naive_solver. Qed.

Lemma lift_sysrand_inl (m : Rnd A) w w' a :
  lift_sysrand m w = (w', inl a) ↔ ∃ s, m (w_sysrand w) = (s, inl a) ∧ w' = with_sysrand s w.
Proof. unfold lift_sysrand. destruct (m (w_sysrand w)) as [s [a'|e]]; naive_solver. Qed.

(** The first two of three steps, taken together. *)
Lemma bind_assoc_inl {C} (m : Tx A) (k : Tx B) (l : Tx C) w w' c :
  (m ≫= λ _, k ≫= λ _, l) w = (w', inl c) → ∃ w1 b, (m ≫= λ _, k) w = (w1, inl b) ∧ l w1 = (w', inl c).
Proof.
  unfold mbind, Tx_bind. destruct (m w) as [w1 [a|e]]; [|done]. destruct (k w1) as [w2 [b|e]]; [|done]. by exists w2, b.
Qed.

Lemma select_one_inl (q : DB → option A) db a db' :
  select_one q db = inl (a, db') ↔ q db = Some a ∧ db' = db.
Proof. unfold select_one. destruct (q db); naive_solver. Qed.

Lemma select_many_inl (q : DB → list A) db a db' : select_many q db = inl (a, db') ↔ a = q db ∧ db' = db.
Proof. unfold select_many. naive_solver. Qed.
End inversion.

(** The same facts with the intermediate world kept abstract: only its tables and
    its random source matter to what follows. *)
Section steps.
Context {A : Type}.

Lemma query_step op (s : Stmt A) w w' a :
  query op s w = (w', inl a) → ∃ db, s (w_db w) = inl (a, db) ∧ w_db w' = db ∧ w_rand w' = w_rand w.
Proof. intros (_ & db & Hs & ->)%query_inl. by exists db. Qed.

Lemma query_row_step op e (s : Stmt A) w w' a :
  query_row op e s w = (w', inl a) → ∃ db, s (w_db w) = inl (a, db) ∧ w_db w' = db ∧ w_rand w' = w_rand w.
Proof. intros (_ & db & Hs & ->)%query_row_inl. by exists db. Qed.

Lemma query_opt_step op (s : Stmt A) w w' r :
  query_opt op s w = (w', inl r) →
  w_rand w' = w_rand w ∧
  match r with
  | Some a => ∃ db, s (w_db w) = inl (a, db) ∧ w_db w' = db
  | None => s (w_db w) = inr NoRows ∧ w_db w' = w_db w
  end.
Proof. intros [(a & db & -> & _ & Hs & ->)|(-> & -> & Hs)]%query_opt_inl; [by split; [|exists db]|done]. Qed.

Lemma query_map_step reading (s : Stmt A) w w' a :
  query_map reading s w = (w', inl a) → ∃ db, s (w_db w) = inl (a, db) ∧ w_db w' = db ∧ w_rand w' = w_rand w.
Proof. intros (_ & db & Hs & ->)%query_map_inl. by exists db. Qed.

Lemma exec_query_step op (s : Stmt A) w w' a :
  exec_query op s w = (w', inl a) → ∃ db, s (w_db w) = inl (a, db) ∧ w_db w' = db ∧ w_rand w' = w_rand w.
Proof. intros (_ & db & Hs & ->)%exec_query_inl. by exists db. Qed.

Lemma exec_row_step op e (s : Stmt A) w w' a :
  exec_row op e s w = (w', inl a) → ∃ db, s (w_db w) = inl (a, db) ∧ w_db w' = db ∧ w_rand w' = w_rand w.
Proof. intros (_ & db & Hs & ->)%exec_row_inl. by exists db. Qed.

Lemma locking_step (m : Tx A) w w' a :
  locking m w = (w', inl a) → ∃ w0, w_db w0 = w_db w ∧ w_rand w0 = w_rand w ∧ m w0 = (w', inl a).
Proof. intros H. by exists w. Qed.

Lemma locked_elsewhere_step w w' held :
  locked_elsewhere w = (w', inl held) →
  w_db w' = w_db w ∧ w_rand w' = w_rand w ∧ held = default ∅ (head (w_held w)) ∧ w_held w' = tail (w_held w).
Proof. by intros [= <- <-]. Qed.

Lemma lift_rand_step (m : Rnd A) w w' a :
  lift_rand m w = (w', inl a) → ∃ s, m (w_rand w) = (s, inl a) ∧ w_db w' = w_db w ∧ w_rand w' = s.
Proof. intros (s & Hm & ->)%lift_rand_inl. by exists s. Qed.
End steps.

(** [select_inv H] reads the row a successful SELECT returned. *)
Ltac head_of t := lazymatch t with ?f _ => head_of f | _ => t end.
Ltac select_inv H :=
  match type of H with ?s _ = _ => let h := head_of s in try unfold h in H end;
  first [apply select_one_inl in H as [H ->] | apply select_many_inl in H as [-> ->]].

(** Rewrite what is known of a world into a hypothesis. *)
Ltac known_db w H := try match goal with E : w_db w = _ |- _ => rewrite E in H end.
Ltac known_rand w H := try match goal with E : w_rand w = _ |- _ => rewrite E in H end.

Ltac query_done w Hs Hdb Hr := known_db w Hs; known_rand w Hr; try select_inv Hs.

(** [tx_step H] inverts the first step of a successful run. *)
Ltac tx_step H :=
  lazymatch type of H with
  | mbind ?k ?m ?w = (?w', inl ?b) =>
      let w1 := fresh "w" in let a := fresh "a" in let H1 := fresh "Hrun" in let H2 := fresh in
      destruct (proj1 (Tx_bind_inl m k w w' b) H) as (w1 & a & H1 & H2); clear H; rename H2 into H;
      cbv beta in H; tx_step H1
  | reject_if ?b ?e ?w = (?w', inl ?x) =>
      let E := fresh "Hguard" in destruct (proj1 (reject_if_inl b e w w' x) H) as [E ->]; clear H
  | mret ?a ?w = (?w', inl ?b) =>
      let E := fresh "Hret" in
      destruct (proj1 (ret_inl a b w w') H) as [-> E]; clear H;
      first [subst b | discriminate E | injection E as E; try subst | clear E]
  | throw ?e ?w = (?w', inl ?a) => exfalso; exact (proj1 (throw_inl e w w' a) H)
  | query_row ?op ?e ?s ?w = (?w', inl ?a) =>
      let db := fresh "db" in let Hs := fresh "Hstmt" in let Hdb := fresh "Hdb" in let Hr := fresh "Hrand" in
      destruct (query_row_step op e s w w' a H) as (db & Hs & Hdb & Hr); clear H; query_done w Hs Hdb Hr
  | query ?op ?s ?w = (?w', inl ?a) =>
      let db := fresh "db" in let Hs := fresh "Hstmt" in let Hdb := fresh "Hdb" in let Hr := fresh "Hrand" in
      destruct (query_step op s w w' a H) as (db & Hs & Hdb & Hr); clear H; query_done w Hs Hdb Hr
  | query_map ?f ?s ?w = (?w', inl ?a) =>
      let db := fresh "db" in let Hs := fresh "Hstmt" in let Hdb := fresh "Hdb" in let Hr := fresh "Hrand" in
      destruct (query_map_step f s w w' a H) as (db & Hs & Hdb & Hr); clear H; query_done w Hs Hdb Hr
  | exec_query ?op ?s ?w = (?w', inl ?a) =>
      let db := fresh "db" in let Hs := fresh "Hstmt" in let Hdb := fresh "Hdb" in let Hr := fresh "Hrand" in
      destruct (exec_query_step op s w w' a H) as (db & Hs & Hdb & Hr); clear H; query_done w Hs Hdb Hr
  | exec_row ?op ?e ?s ?w = (?w', inl ?a) =>
      let db := fresh "db" in let Hs := fresh "Hstmt" in let Hdb := fresh "Hdb" in let Hr := fresh "Hrand" in
      destruct (exec_row_step op e s w w' a H) as (db & Hs & Hdb & Hr); clear H; query_done w Hs Hdb Hr
  | locking ?m ?w = (?w', inl ?a) =>
      let w0 := fresh "w" in let Hdb := fresh "Hdb" in let Hr := fresh "Hrand" in let H2 := fresh in
      destruct (locking_step m w w' a H) as (w0 & Hdb & Hr & H2); clear H; rename H2 into H;
      known_db w Hdb; known_rand w Hr; tx_step H
  | locked_elsewhere ?w = (?w', inl ?a) =>
      let Hdb := fresh "Hdb" in let Hr := fresh "Hrand" in let Hh := fresh "Hheld" in let Ht := fresh "Htail" in
      destruct (locked_elsewhere_step w w' a H) as (Hdb & Hr & Hh & Ht); clear H; known_db w Hdb; known_rand w Hr
  | lift_rand ?m ?w = (?w', inl ?a) =>
      let s := fresh "s" in let Hm := fresh "Hmint" in let Hdb := fresh "Hdb" in let Hr := fresh "Hrand" in
      destruct (lift_rand_step m w w' a H) as (s & Hm & Hdb & Hr); clear H; known_db w Hdb; known_rand w Hm
  | _ => idtac
  end.

(** ** A commit is all or nothing *)

(** [op] ran to success on tables [db], leaving [db'] and returning [a]. *)
Definition committed {A} (op : Tx A) (db : DB) (a : A) (db' : DB) : Prop :=
  ∃ w w', w_db w = db ∧ op w = (w', inl a) ∧ w_db w' = db'.

Lemma w_db_pop_fault w : w_db (pop_fault w) = w_db w.
Proof. done. Qed.
Lemma w_db_observeAuditWriteFailure e w : w_db (observeAuditWriteFailure e w) = w_db w.
Proof. unfold observeAuditWriteFailure. by destruct (auditWriteFailure e). Qed.

(** Whatever the driver fails at, the tables are the old ones or those of one
    successful run; a result is returned only for a committed run, and an error with
    changed tables is the ambiguous commit error. *)
Lemma inTx_attempts_cases {A} (op : Tx A) n k w w' r :
  inTx_attempts n k op w = (w', r) →
  match r with
  | inl a => committed op (w_db w) a (w_db w')
  | inr e => w_db w' = w_db w ∨
             (∃ a, committed op (w_db w) a (w_db w')) ∧
             ∃ d, e = wrapError "commit transaction" ErrorKindQuery d
  end.
Proof.
  revert k w. induction n as [|n IH]; intros k w; simpl; [intros [= <- <-]; by left|].
  destruct (current_fault (resetValues w)) as [[e ap]|]; [intros [= <- <-]; by left|].
  set (w1 := pop_fault (resetValues w)).
  destruct (op w1) as [w2 [a|e]] eqn:Eop.
  - assert (Hc : committed op (w_db w) a (w_db w2)) by (exists w1, w2; done).
    destruct (current_fault w2) as [[e ap]|]; intros [= <- <-]; [|done].
    destruct ap; [|by left]. right. split; [by exists a|by eexists].
  - destruct (_ && _).
    + intros H. apply IH in H. done.
    + intros [= <- <-]. left. by rewrite w_db_observeAuditWriteFailure.
Qed.

Lemma inTx_inl {A} (op : Tx A) w w' a :
  inTx op w = (w', inl a) → committed op (w_db w) a (w_db w').
Proof. apply (inTx_attempts_cases op _ _ w w' (inl a)). Qed.

Lemma inTxWithAudit_inl {A} events (op : Tx A) w w' a :
  inTxWithAudit events op w = (w', inl a) → committed op (w_db w) a (w_db w').
Proof.
  unfold inTxWithAudit. intros (w1 & b & H & Hk)%Tx_bind_inl. apply inTx_inl in H.
  unfold mbind, Tx_bind, mret, Tx_ret, observeAuditEvents in Hk. simpl in Hk. by injection Hk as <- <-.
Qed.

(** The same with the result set aside: nothing happened, or one run committed. *)
Lemma inTx_commits {A} (op : Tx A) w w' r :
  inTx op w = (w', r) → w_db w' = w_db w ∨ ∃ a, committed op (w_db w) a (w_db w').
Proof. intros H. apply inTx_attempts_cases in H. destruct r as [a|e]; [right; by exists a|]. destruct H as [H|[H _]]; auto. Qed.
Lemma inTxWithAudit_commits {A} events (op : Tx A) w w' r :
  inTxWithAudit events op w = (w', r) → w_db w' = w_db w ∨ ∃ a, committed op (w_db w) a (w_db w').
Proof.
  unfold inTxWithAudit, mbind, Tx_bind, mret, Tx_ret, observeAuditEvents. destruct (inTx op w) as [w1 o] eqn:E.
  apply inTx_commits in E. destruct o; simpl; by intros [= <- <-].
Qed.

(** ** Relations every run respects

    For a preorder [R] on tables, [tx_rel R m] says that a run of [m], successful or
    not, moves the tables along [R].  An invariant [I] is the preorder [I db → I db']. *)

Section relation.
Context (R : DB → DB → Prop) `{!PreOrder R}.

Definition stmt_rel {A} (s : Stmt A) : Prop := ∀ db a db', s db = inl (a, db') → R db db'.
Definition tx_rel {A} (m : Tx A) : Prop := ∀ w w' r, m w = (w', r) → R (w_db w) (w_db w').

Lemma tx_rel_ret {A} (a : A) : tx_rel (mret a).
Proof. intros w w' r [= <- <-]. done. Qed.
Lemma tx_rel_throw {A} e : tx_rel (throw (A := A) e).
Proof. intros w w' r [= <- <-]. done. Qed.
Lemma tx_rel_reject b e : tx_rel (reject_if b e).
Proof. unfold reject_if. destruct b; [apply tx_rel_throw|apply tx_rel_ret]. Qed.
Lemma tx_rel_bind {A B} (m : Tx A) (k : A → Tx B) : tx_rel m → (∀ a, tx_rel (k a)) → tx_rel (m ≫= k).
Proof.
  intros Hm Hk w w' r. unfold mbind, Tx_bind. destruct (m w) as [w1 [a|e]] eqn:E.
  - intros H. etrans; [by eapply Hm|by eapply Hk].
  - intros [= <- <-]. by eapply Hm.
Qed.
Lemma tx_rel_bind_dep {A B} (m : Tx A) (k : A → Tx B) :
  tx_rel m → (∀ w w1 a, m w = (w1, inl a) → tx_rel (k a)) → tx_rel (m ≫= k).
Proof.
  intros Hm Hk w w' r. unfold mbind, Tx_bind. destruct (m w) as [w1 [a|e]] eqn:E.
  - intros H. etrans; [by eapply Hm|by eapply Hk].
  - intros [= <- <-]. by eapply Hm.
Qed.
Lemma tx_rel_query_opt {A} op (s : Stmt A) : stmt_rel s → tx_rel (query_opt op s).
Proof.
  intros Hs w w' r. unfold query_opt, statement. destruct (current_fault w) as [[[] ap]|];
    try (intros [= <- <-]; done).
  destruct (s (w_db w)) as [[a db]|[]] eqn:E; intros [= <- <-]; try done. by eapply Hs.
Qed.
Lemma tx_rel_query_row {A} op e (s : Stmt A) : stmt_rel s → tx_rel (query_row op e s).
Proof.
  intros Hs. apply tx_rel_bind; [by apply tx_rel_query_opt|].
  intros []; [apply tx_rel_ret|apply tx_rel_throw].
Qed.
Lemma tx_rel_query {A} op (s : Stmt A) : stmt_rel s → tx_rel (query op s).
Proof.
  intros Hs w w' r. unfold query, statement. destruct (current_fault w) as [[e ap]|]; [by intros [= <- <-]|].
  destruct (s (w_db w)) as [[a db]|e] eqn:E; intros [= <- <-]; [by eapply Hs|done].
Qed.
Lemma tx_rel_query_map {A} f (s : Stmt A) : stmt_rel s → tx_rel (query_map f s).
Proof.
  intros Hs w w' r. unfold query_map, statement. destruct (current_fault w) as [[e ap]|]; [by intros [= <- <-]|].
  destruct (s (w_db w)) as [[a db]|e] eqn:E; intros [= <- <-]; [by eapply Hs|done].
Qed.
Lemma rel_autocommit {A} (s : Stmt A) w : stmt_rel s → R (w_db w) (w_db (autocommit s w).1).
Proof.
  intros Hs. unfold autocommit, statement. destruct (current_fault w) as [[e []]|];
    destruct (s (w_db w)) as [[a db]|e'] eqn:E; try done; by eapply Hs.
Qed.
Lemma tx_rel_exec_query {A} op (s : Stmt A) : stmt_rel s → tx_rel (exec_query op s).
Proof.
  intros Hs w w' r. unfold exec_query. pose proof (rel_autocommit s w Hs) as H.
  destruct (autocommit s w) as [w1 [a|e]]; by intros [= <- <-].
Qed.
Lemma tx_rel_exec_opt {A} op (s : Stmt A) : stmt_rel s → tx_rel (exec_opt op s).
Proof.
  intros Hs w w' r. unfold exec_opt. pose proof (rel_autocommit s w Hs) as H.
  destruct (autocommit s w) as [w1 [a|[]]]; by intros [= <- <-].
Qed.
Lemma tx_rel_exec_row {A} op e (s : Stmt A) : stmt_rel s → tx_rel (exec_row op e s).
Proof.
  intros Hs. apply tx_rel_bind; [by apply tx_rel_exec_opt|].
  intros []; [apply tx_rel_ret|apply tx_rel_throw].
Qed.
Lemma tx_rel_locking {A} (m : Tx A) : tx_rel m → tx_rel (locking m).
Proof. done. Qed.
Lemma tx_rel_locked_elsewhere : tx_rel locked_elsewhere.
Proof. by intros w w' r [= <- <-]. Qed.
Lemma tx_rel_lift_rand {A} (m : Rnd A) : tx_rel (lift_rand m).
Proof. intros w w' r. unfold lift_rand. destruct (m _). by intros [= <- <-]. Qed.
Lemma tx_rel_lift_sysrand {A} (m : Rnd A) : tx_rel (lift_sysrand m).
Proof. intros w w' r. unfold lift_sysrand. destruct (m _). by intros [= <- <-]. Qed.
Lemma tx_rel_observe : tx_rel observeAuditEvents.
Proof. intros w w' r [= <- <-]. done. Qed.
Lemma tx_rel_inTx {A} (op : Tx A) : tx_rel op → tx_rel (inTx op).
Proof.
  intros Hop w w' r H. apply inTx_attempts_cases in H.
  assert (Hc : ∀ a, committed op (w_db w) a (w_db w') → R (w_db w) (w_db w')).
  { intros a (w1 & w2 & <- & Hrun & <-). by eapply Hop. }
  destruct r as [a|e]; [by eapply Hc|]. destruct H as [->|[[a H] _]]; [done|by eapply Hc].
Qed.

Lemma tx_rel_inTxWithAudit {A} events (op : Tx A) : tx_rel op → tx_rel (inTxWithAudit events op).
Proof.
  intros Hop. apply tx_rel_bind; [by apply tx_rel_inTx|intros a].
  apply tx_rel_bind; [by intros w w' r [= <- <-]|intros _].
  apply tx_rel_bind; [apply tx_rel_observe|intros _; apply tx_rel_ret].
Qed.

Lemma stmt_rel_select_one {A} (q : DB → option A) : stmt_rel (select_one q).
Proof. intros db a db' [_ ->]%select_one_inl. done. Qed.
Lemma stmt_rel_exec {A} (s : Stmt A) : stmt_rel s → stmt_rel (exec s).
Proof. intros Hs db a db'. unfold exec. destruct (s db) as [[x d]|[]] eqn:E; intros [= _ <-]; [by eapply Hs|done]. Qed.
Lemma stmt_rel_advisory_lock : stmt_rel advisory_lock.
Proof. by intros db a db' [= _ <-]. Qed.
Lemma stmt_rel_read {A} (f : DB → A) : stmt_rel (λ db, inl (f db, db)).
Proof. by intros db a db' [= _ <-]. Qed.
Lemma stmt_rel_select_many {A} (q : DB → list A) : stmt_rel (select_many q).
Proof. intros db a db' [_ ->]%select_many_inl. done. Qed.
End relation.

#[export] Instance impl_PreOrder {T} (I : T → Prop) : PreOrder (λ a b, I a → I b).
Proof. split; [intros a; tauto|intros a b c; tauto]. Qed.

Create HintDb tx_rel.
#[export] Hint Resolve tx_rel_ret tx_rel_throw tx_rel_reject tx_rel_query_opt tx_rel_query_row tx_rel_query
  tx_rel_query_map tx_rel_exec_query tx_rel_exec_opt tx_rel_exec_row
  tx_rel_locking tx_rel_locked_elsewhere tx_rel_lift_rand tx_rel_lift_sysrand tx_rel_observe tx_rel_inTx tx_rel_inTxWithAudit
  stmt_rel_select_one stmt_rel_select_many stmt_rel_exec stmt_rel_advisory_lock stmt_rel_read : tx_rel.

Ltac tx_rel_step :=
  match goal with
  | |- tx_rel _ (mbind _ (lift_rand _)) =>
      apply tx_rel_bind_dep; [apply _|apply tx_rel_lift_rand; apply _|];
      let H := fresh "Hmint" in intros ? ? ? H; apply lift_rand_inl in H as (? & H & _)
  | |- tx_rel _ (mbind _ _) => apply tx_rel_bind; [apply _| |intros ?]
  | |- tx_rel _ (inTx _) => apply tx_rel_inTx; [apply _|]
  | |- tx_rel _ (inTxWithAudit _ _) => apply tx_rel_inTxWithAudit; [apply _|]
  | |- tx_rel _ (locking _) => apply tx_rel_locking
  | |- tx_rel _ (if ?b then _ else _) => destruct b
  | |- tx_rel _ (match ?x with _ => _ end) => destruct x
  | |- tx_rel _ (let '_ := ?x in _) => destruct x
  | |- tx_rel _ _ => solve [eauto with tx_rel typeclass_instances]
  end.
Ltac tx_rel_auto := repeat tx_rel_step.

(** ** Relations on the rest of the world

    [world_rel R m] says that a run of [m], successful or not, moves the world along the
    preorder [R], which does not see the tables, the random sources, the faults and the
    audit events; [inTx] respects it whatever it retries. *)

Class Unseen (R : World → World → Prop) : Prop := {
  unseen_preorder :: PreOrder R;
  unseen_db : ∀ db w, R w (with_db db w);
  unseen_rand : ∀ s w, R w (with_rand s w);
  unseen_sysrand : ∀ s w, R w (with_sysrand s w);
  unseen_faults : ∀ l w, R w (with_faults l w);
  unseen_events : ∀ l w, R w (with_events l w);
  unseen_observed : ∀ l w, R w (with_observed l w);
  unseen_failures : ∀ l w, R w (with_write_failures l w) }.

Section world.
Context (R : World → World → Prop) `{!Unseen R}.

Definition world_rel {A} (m : Tx A) : Prop := ∀ w, R w (m w).1.

Lemma world_ret {A} (a : A) : world_rel (mret a).
Proof. by intros w. Qed.
Lemma world_throw {A} e : world_rel (throw (A := A) e).
Proof. by intros w. Qed.
Lemma world_bind {A B} (m : Tx A) (k : A → Tx B) : world_rel m → (∀ a, world_rel (k a)) → world_rel (m ≫= k).
Proof.
  intros Hm Hk w. unfold mbind, Tx_bind. specialize (Hm w). destruct (m w) as [w1 [a|e]]; [|done]. etrans; [exact Hm|apply Hk].
Qed.
Lemma world_statement {A} (s : Stmt A) w : R w (statement s w).1.
Proof.
  unfold statement, pop_fault. destruct (current_fault w) as [[]|]; [apply unseen_faults|].
  destruct (s (w_db w)) as [[a db]|e]; [|apply unseen_faults]. etrans; [apply unseen_faults|apply unseen_db].
Qed.
Lemma world_query_opt {A} op (s : Stmt A) : world_rel (query_opt op s).
Proof. intros w. unfold query_opt. pose proof (world_statement s w). by destruct (statement s w) as [w1 [a|[]]]. Qed.
Lemma world_query_row {A} op e (s : Stmt A) : world_rel (query_row op e s).
Proof. apply world_bind; [apply world_query_opt|]. intros []; [apply world_ret|apply world_throw]. Qed.
Lemma world_query {A} op (s : Stmt A) : world_rel (query op s).
Proof. intros w. unfold query. pose proof (world_statement s w). by destruct (statement s w) as [w1 [a|e]]. Qed.
Lemma world_exec_query {A} op (s : Stmt A) : world_rel (exec_query op s).
Proof.
  intros w. unfold exec_query. assert (H : R w (autocommit s w).1); [|by destruct (autocommit s w) as [w1 [a|e]]].
  unfold autocommit, pop_fault. destruct (current_fault w) as [[e []]|]; try apply world_statement.
  destruct (s (w_db w)) as [[a db]|]; [|apply world_statement]. etrans; [apply unseen_faults|apply unseen_db].
Qed.
Lemma world_lift_sysrand {A} (m : Rnd A) : world_rel (lift_sysrand m).
Proof. intros w. unfold lift_sysrand. destruct (m (w_sysrand w)). apply unseen_sysrand. Qed.
Lemma world_observe : world_rel observeAuditEvents.
Proof. intros w. apply unseen_observed. Qed.

Lemma world_pop_fault w : R w (pop_fault w).
Proof. apply unseen_faults. Qed.
Lemma world_start w : R w (pop_fault (resetValues w)).
Proof. etrans; [apply unseen_events|apply world_pop_fault]. Qed.
Lemma world_failure e w : R w (observeAuditWriteFailure e w).
Proof. unfold observeAuditWriteFailure. destruct (auditWriteFailure e); [apply unseen_failures|done]. Qed.

(** A committed run of [inTx] started from a world the earlier attempts had reached. *)
Lemma inTx_attempts_world {A} (op : Tx A) n k w w' r :
  world_rel op → inTx_attempts n k op w = (w', r) →
  R w w' ∧ match r with
           | inl a => ∃ w1 w2, w_db w1 = w_db w ∧ R w w1 ∧ op w1 = (w2, inl a) ∧ w' = pop_fault w2
           | inr _ => True
           end.
Proof.
  intros Hop. revert k w. induction n as [|n IH]; intros k w; simpl; [by intros [= <- <-]|].
  destruct (current_fault (resetValues w)) as [[e ap]|]; [intros [= <- <-]; split; [apply world_start|done]|].
  pose proof (world_start w) as Hs. set (w1 := pop_fault (resetValues w)) in *.
  pose proof (Hop w1) as H1. destruct (op w1) as [w2 [a|e]] eqn:Eop; simpl in H1.
  - assert (H2 : R w (pop_fault w2)) by (etrans; [exact Hs|]; etrans; [exact H1|apply world_pop_fault]).
    destruct (current_fault w2) as [[e ap]|]; intros [= <- <-]; [|split; [done|by exists w1, w2]].
    split; [|done]. assert (H3 : R w (resetValues (pop_fault w2))) by (etrans; [exact H2|apply unseen_events]).
    destruct ap; [done|]. etrans; [exact H3|apply unseen_db].
  - assert (H2 : R w (with_db (w_db w1) w2)) by (etrans; [exact Hs|]; etrans; [exact H1|apply unseen_db]).
    destruct (_ && _).
    + intros H. apply IH in H as [H3 H4]. split; [by etrans|]. destruct r as [a|]; [|done].
      destruct H4 as (w3 & w4 & Hdb & H4 & H5). exists w3, w4. split; [done|]. split; [by etrans|done].
    + intros [= <- <-]. split; [|done]. etrans; [exact H2|]. etrans; [apply unseen_events|apply world_failure].
Qed.
Lemma world_inTx {A} (op : Tx A) : world_rel op → world_rel (inTx op).
Proof. intros Hop w. destruct (inTx op w) as [w' r] eqn:E. by apply inTx_attempts_world in E as [E _]. Qed.
Lemma inTx_world_inl {A} (op : Tx A) w w' a :
  world_rel op → inTx op w = (w', inl a) →
  R w w' ∧ ∃ w1 w2, w_db w1 = w_db w ∧ R w w1 ∧ op w1 = (w2, inl a) ∧ w' = pop_fault w2.
Proof. intros Hop H. by apply inTx_attempts_world in H. Qed.
End world.
