(* ===== verification/StoreCommon.v ===== *)
(** * Shared store code

    The row-to-domain mappings of [internal/storage/postgres], client loading, the
    authorization transaction checks, and the audit append used by every protocol
    transaction. *)

From S2P Require Import Prelude Errors Platform Scopes Domain AuditEvents Database Queries Tx.

Section with_platform.
Context {P : Platform}.

(** [timestamp] and the driver's codec behind it. *)
Definition timestamp (value : time) : time := pg_timestamptz value.

Definition mapUser (row : UserRow) : User :=
  mkUser (u_ID row) (u_Subject row) (u_Username row) (u_UsernameNormalized row) (u_DisplayName row)
    (u_Email row) (u_EmailNormalized row) (u_EmailVerified row) (u_Status row) (u_Role row)
    (u_CreatedAt row) (u_UpdatedAt row) (u_LastLoginAt row) (u_Version row).

Definition mapClient (row : OidcClientRow) : Client :=
  mkClient (cl_ID row) (cl_ClientID row) (cl_ClientType row) (cl_TokenEndpointAuthMethod row) (cl_Name row)
    (cl_Description row) (valueString (cl_LogoUri row)) (cl_Status row) (cl_RegistrationEnabled row)
    [] [] [] (cl_CreatedAt row) (cl_UpdatedAt row) (cl_Version row).

Definition mapConsentGrant (row : ConsentGrantRow) : Grant :=
  mkGrant (g_ID row) (g_UserID row) (g_ClientID row) (g_Scopes row) (g_CreatedAt row) (g_UpdatedAt row)
    (g_RevokedAt row) (g_Version row).

Definition int64ToUint32 (value : option Z) : option Z :=
  match value with
  | None => None
  | Some v => if (v <? 0) || (2 ^ 32 - 1 <? v) then None else Some v
  end.

Definition mapAuthTransaction (row : AuthTransactionRow) : Transaction :=
  mkTransaction (tx_ID row) (tx_TokenHash row) (tx_TransactionKind row) (tx_ClientID row)
    (valueString (tx_RedirectUri row)) (tx_Scopes row) (valueString (tx_PkceChallenge row))
    (valueString (tx_PkceMethod row)) (valueString (tx_StateValue row)) (valueString (tx_NonceValue row))
    (tx_PromptCreate row) (valueString (tx_ResponseType row)) (valueString (tx_ResponseMode row))
    (tx_PromptValues row) (int64ToUint32 (tx_MaxAgeSeconds row)) (tx_CreatedAt row) (tx_ExpiresAt row)
    (tx_ConsumedAt row) (valueString (tx_FailureReason row)).

Definition mapAccessMetadata (row : AccessTokenRow) : AccessMetadata :=
  mkAccessMetadata (at_ID row) (at_JtiHash row) (at_AuthorizationCodeID row) (at_ConsentGrantID row)
    (at_UserID row) (at_ClientID row) (at_Scopes row) (at_IssuedAt row) (at_ExpiresAt row)
    (at_IssuanceSource row) (at_SourceRefreshTokenID row) (at_RefreshFamilyID row)
    (at_OriginSessionID row) (at_SessionBindingID row) (at_RevokedAt row) (valueString (at_RevokeReason row)).

Definition mapRefreshFamily (row : RefreshTokenFamilyRow) : RefreshFamily :=
  mkRefreshFamily (rf_ID row) (rf_OriginAuthorizationCodeID row) (rf_ConsentGrantID row) (rf_UserID row)
    (rf_ClientID row) (rf_OriginSessionID row) (rf_SessionBindingID row) (rf_Scopes row) (rf_CreatedAt row)
    (rf_AbsoluteExpiresAt row) (rf_RevokedAt row) (valueString (rf_RevokeReason row)).

Definition mapRefreshGeneration (row : RefreshTokenRow) : RefreshGeneration :=
  mkRefreshGeneration (rt_ID row) (rt_FamilyID row) (rt_TokenHash row) (rt_Generation row)
    (rt_IssuedAt row) (rt_ExpiresAt row) (rt_ConsumedAt row).

(** [value.RedirectURIs, value.LogoutURIs, value.Scopes = redirects, logouts, scopes]. *)
Definition set_children (value : Client) (redirects logouts scopes : list string) : Client :=
  mkClient (Client_ID value) (Client_ClientID value) (Client_Type value) (Client_TokenEndpointAuthMethod value)
    (Client_Name value) (Client_Description value) (Client_LogoURI value) (Client_Status value)
    (Client_RegistrationEnabled value) redirects logouts scopes (Client_CreatedAt value)
    (Client_UpdatedAt value) (Client_Version value).

Definition loadClientChildren (value : Client) : Tx Client :=
  redirects ← query "list client redirect URIs" (ListOIDCClientRedirectURIs (Client_ID value));
  logouts ← query "list client logout URIs" (ListOIDCClientLogoutURIs (Client_ID value));
  scopes ← query "list client scopes" (ListOIDCClientScopes (Client_ID value));
  mret (set_children value redirects logouts scopes).

Definition loadClient (id : uuid) : Tx Client :=
  row ← query_row "get client" client_ErrNotFound (GetOIDCClientByID id);
  loadClientChildren (mapClient row).

Definition insertAudit (event : AuditEvent) : Tx unit :=
  match audit.Validate event with
  | Some e => throw (auditAppendError (Event_Type event) e)
  | None => λ w,
      match query "append audit event" (CreateAuditEvent (mkCreateAuditEventParams (Event_ID event)
              (Event_Type event) (Event_Result event) (Event_ActorUserID event) (Event_TargetType event)
              (Event_TargetID event) (pointerString (Event_RequestID event)) (Event_ChangedFields event)
              (timestamp (Event_OccurredAt event)))) w with
      | (w', inl _) => (w', inl ())
      | (w', inr e) => (w', inr (auditAppendError (Event_Type event) e))
      end
  end.

(** [*events = append( *events, event)]. *)
Definition append_event (event : AuditEvent) : Tx unit := λ w, (with_events (w_events w ++ [event]) w, inl ()).

Definition insertProtocolAudit (eventType result : string) (actor : uuid) (targetType : string) (target : uuid)
    (requestID : string) (changed : list string) (now : time) : Tx unit :=
  event ← lift_sysrand (audit.New eventType result (Some actor) targetType (Some target) requestID changed now);
  insertAudit event;;
  append_event event.

(** The client record the [oidc_clients] row and its child tables spell. *)
Definition client_of (db : DB) (row : OidcClientRow) : Client :=
  set_children (mapClient row) (child_values (oidc_client_redirect_uris db) (cl_ID row))
    (child_values (oidc_client_logout_uris db) (cl_ID row)) (child_values (oidc_client_scopes db) (cl_ID row)).

(** ** Facts *)

Lemma loadClientChildren_inl row w w' c :
  loadClientChildren (mapClient row) w = (w', inl c) →
  c = client_of (w_db w) row ∧ w_db w' = w_db w ∧ w_rand w' = w_rand w.
Proof. intros H. unfold loadClientChildren in H. repeat tx_step H. done. Qed.

Lemma loadClient_inl id w w' c :
  loadClient id w = (w', inl c) →
  ∃ row, oidc_clients (w_db w) !! id = Some row ∧ c = client_of (w_db w) row ∧ w_db w' = w_db w.
Proof.
  intros H. unfold loadClient in H. tx_step H.
  apply loadClientChildren_inl in H as (-> & Hdb' & _). rewrite Hdb', Hdb. by eexists.
Qed.

(** Appending an event only adds one row to [audit_events]. *)
Lemma insertAudit_inl event w w' x :
  insertAudit event w = (w', inl x) →
  ∃ r, audit_events (w_db w) !! ae_ID r = None ∧
       w_db w' = with_audit_events (<[ae_ID r := r]> (audit_events (w_db w))) (w_db w) ∧
       ae_EventType r = Event_Type event ∧ ae_TargetType r = Event_TargetType event ∧
       ae_TargetID r = Event_TargetID event ∧ ae_ActorUserID r = Event_ActorUserID event ∧
       ae_Result r = Event_Result event ∧ w_rand w' = w_rand w.
Proof.
  unfold insertAudit. destruct (audit.Validate event); [done|].
  set (a := mkCreateAuditEventParams _ _ _ _ _ _ _ _ _).
  destruct (query _ _ w) as [w1 [u|e]] eqn:E; [|done]. intros [= <- <-].
  apply query_inl in E as (_ & db & Hs & ->). unfold CreateAuditEvent in Hs.
  destruct (negb _); [done|]. destruct (_ || _) eqn:Eu; [done|].
  destruct (negb _); [done|]. injection Hs as _ <-. go_bools.
  exists (new_audit_row a). split_and!; try done. simpl. by apply eq_None_not_Some.
Qed.

(** A new event carries the values it was built from. *)
Lemma audit_New_inl ty res actor tty t rid ch now s s' e :
  audit.New ty res actor tty t rid ch now s = (s', inl e) →
  Event_Type e = ty ∧ Event_Result e = res ∧ Event_ActorUserID e = actor ∧
  (is_Some t → Event_TargetType e = Some tty ∧ Event_TargetID e = t).
Proof.
  unfold audit.New. intros H. apply Rnd_bind_inl in H as (s1 & id & _ & H).
  set (ev := mkAuditEvent _ _ _ _ _ _ _ _ _) in H.
  destruct (audit.Validate ev); [done|]. injection H as _ <-. subst ev. split_and!; try done.
  intros Ht. simpl. rewrite (bool_decide_eq_true_2 _ Ht), orb_true_r. done.
Qed.

Lemma insertProtocolAudit_inl ty res actor tty t rid ch now w w' x :
  insertProtocolAudit ty res actor tty t rid ch now w = (w', inl x) →
  ∃ r, audit_events (w_db w) !! ae_ID r = None ∧
       w_db w' = with_audit_events (<[ae_ID r := r]> (audit_events (w_db w))) (w_db w) ∧
       ae_EventType r = ty ∧ ae_TargetType r = Some tty ∧ ae_TargetID r = Some t ∧
       ae_ActorUserID r = Some actor ∧ ae_Result r = res ∧ w_rand w' = w_rand w.
Proof.
  intros H. unfold insertProtocolAudit in H.
  apply Tx_bind_inl in H as (w1 & e & He & H). apply lift_sysrand_inl in He as (s & He & ->).
  apply Tx_bind_inl in H as (w2 & u & Hi & H). injection H as <- _.
  apply audit_New_inl in He as (Hty & Hres & Hact & Ht). destruct (Ht (ltac:(by eexists))) as [Ht1 Ht2].
  apply insertAudit_inl in Hi as (r & Hr & Hdb & H1 & H2 & H3 & H4 & H5 & H6).
  exists r. simpl in *. split_and!; congruence.
Qed.

Lemma insertProtocolAudit_step ty res actor tty t rid ch now w w' x :
  insertProtocolAudit ty res actor tty t rid ch now w = (w', inl x) →
  ∃ audits, w_db w' = with_audit_events audits (w_db w) ∧ w_rand w' = w_rand w.
Proof. intros (r & _ & -> & _ & _ & _ & _ & _ & Hr)%insertProtocolAudit_inl. by eexists. Qed.

(** Audit appends respect every preorder the statement itself respects. *)
Lemma tx_rel_insertAudit R `{!PreOrder R} event :
  (∀ a, stmt_rel R (CreateAuditEvent a)) → tx_rel R (insertAudit event).
Proof.
  intros Hs. unfold insertAudit. destruct (audit.Validate event); [by apply tx_rel_throw|].
  intros w w' r. destruct (query _ _ w) as [w1 [u|e]] eqn:E; intros [= <- <-];
    (eapply tx_rel_query in E; [exact E|done|apply Hs]).
Qed.
Lemma tx_rel_insertProtocolAudit R `{!PreOrder R} ty res actor tty t rid ch now :
  (∀ a, stmt_rel R (CreateAuditEvent a)) → tx_rel R (insertProtocolAudit ty res actor tty t rid ch now).
Proof.
  intros Hs. apply tx_rel_bind; [done|by apply tx_rel_lift_sysrand|intros e].
  apply tx_rel_bind; [done|by apply tx_rel_insertAudit|]. intros _ w w' r [= <- <-]. done.
Qed.
Lemma tx_rel_loadClientChildren R `{!PreOrder R} c : tx_rel R (loadClientChildren c).
Proof. unfold loadClientChildren. tx_rel_auto. Qed.
Lemma tx_rel_loadClient R `{!PreOrder R} id : tx_rel R (loadClient id).
Proof.
  apply tx_rel_bind; [done| |intros; by apply tx_rel_loadClientChildren].
  apply tx_rel_query_row; [done|]. by apply stmt_rel_select_one.
Qed.
End with_platform.

#[export] Hint Resolve tx_rel_insertProtocolAudit tx_rel_insertAudit tx_rel_loadClientChildren tx_rel_loadClient : tx_rel.

(** [tx_step] over the composite steps of this file. *)
Ltac store_step H :=
  tx_step H;
  repeat match goal with
  | Hr : insertProtocolAudit ?a ?b ?c ?d ?e ?f ?g ?h ?w = (?w', inl ?x) |- _ =>
      let au := fresh "audits" in let Hdb := fresh "Hdb" in let Hrand := fresh "Hrand" in
      destruct (insertProtocolAudit_step a b c d e f g h w w' x Hr) as (au & Hdb & Hrand); clear Hr;
      known_db w Hdb; known_rand w Hrand
  | Hr : loadClientChildren (mapClient ?row) ?w = (?w', inl ?c) |- _ =>
      let Hc := fresh "Hclient" in let Hdb := fresh "Hdb" in let Hrand := fresh "Hrand" in
      destruct (loadClientChildren_inl row w w' c Hr) as (Hc & Hdb & Hrand); clear Hr;
      known_db w Hc; known_db w Hdb; known_rand w Hrand; subst c
  end.
