(* ===== verification/ServiceCommon.v ===== *)
(** * Errors as services handle them

    The ways a service looks at the error of a call: handle it ([attempt]), replace it
    ([replace_error]), ignore it ([ignore_error]).  A panic is not an error value: it
    passes through all of them. *)

From S2P Require Import Prelude Errors Platform Domain AuditEvents Database Tx StoreCommon.

(** [value, err := m()]. *)
Definition attempt {A} (m : Tx A) : Tx (A + error) := λ w,
  match m w with
  | (w', inl a) => (w', inl (inl a))
  | (w', inr go_panic) => (w', inr go_panic)
  | (w', inr e) => (w', inl (inr e))
  end.

(** [if err != nil { return e }]. *)
Definition replace_error {A} (e : error) (m : Tx A) : Tx A :=
  r ← attempt m; match r with inl a => mret a | inr _ => throw e end.

(** [_ = m()]. *)
Definition ignore_error (m : Tx unit) : Tx unit := attempt m;; mret ().

(** A pure function that returns a value or an error. *)
Definition or_error {A} (r : A + error) : Tx A := match r with inl a => mret a | inr e => throw e end.
(** A pure check that returns an error or nil. *)
Definition check (e : option error) : Tx unit := match e with Some e => throw e | None => mret () end.

(** A best-effort audit record, as [recordRejected] and its like write it:
    [event, err := audit.New(...); if err == nil { _ = append(event) }]. *)
Definition record_event (append : AuditEvent → Tx unit) (event : Rnd AuditEvent) : Tx unit :=
  made ← attempt (lift_sysrand event);
  match made with inl e => ignore_error (append e) | inr _ => mret () end.

Section inversion.
Context {A : Type}.

Lemma attempt_inl (m : Tx A) w w' r :
  attempt m w = (w', inl r) ↔ m w = (w', r) ∧ r ≠ inr go_panic.
Proof. unfold attempt. destruct (m w) as [w1 [a|e]]; [naive_solver|]. destruct e; naive_solver. Qed.

Lemma replace_error_inl e (m : Tx A) w w' a : replace_error e m w = (w', inl a) ↔ m w = (w', inl a).
Proof.
  unfold replace_error. rewrite Tx_bind_inl. split.
  - intros (w1 & [b|e1] & [H _]%attempt_inl & Hk); [|done]. injection Hk as <- <-. done.
  - intros H. exists w', (inl a). rewrite attempt_inl. done.
Qed.

Lemma replace_error_inr e (m : Tx A) w w' x :
  replace_error e m w = (w', inr x) → x = e ∨ x = go_panic.
Proof.
  unfold replace_error, mbind, Tx_bind, attempt. destruct (m w) as [w1 [a|e1]]; [done|].
  destruct e1; intros [= _ <-]; auto.
Qed.

Lemma or_error_inl (r : A + error) w w' a : or_error r w = (w', inl a) ↔ r = inl a ∧ w' = w.
Proof. destruct r as [b|e]; simpl; unfold mret, Tx_ret, throw; naive_solver. Qed.
Lemma check_passes e w w' x : check e w = (w', inl x) ↔ e = None ∧ w' = w.
Proof. destruct e, x; simpl; unfold mret, Tx_ret, throw; naive_solver. Qed.
Lemma attempt_run (m : Tx A) w w' a : m w = (w', inl a) → attempt m w = (w', inl (inl a)).
Proof. intros H. unfold attempt. by rewrite H. Qed.
Lemma replace_error_run e (m : Tx A) w w' a : m w = (w', inl a) → replace_error e m w = (w', inl a).
Proof. apply replace_error_inl. Qed.
End inversion.

(** Relations on the tables pass through. *)
Section rel.
Context (R : DB → DB → Prop) `{!PreOrder R}.

Lemma tx_rel_attempt {A} (m : Tx A) : tx_rel R m → tx_rel R (attempt m).
Proof.
  intros Hm w w' r. unfold attempt. destruct (m w) as [w1 [a|e]] eqn:E; [|destruct e];
    intros [= <- _]; exact (Hm _ _ _ E).
Qed.
Lemma tx_rel_or_error {A} (r : A + error) : tx_rel R (or_error r).
Proof. destruct r; intros w w' x [= <- _]; reflexivity. Qed.
Lemma tx_rel_check e : tx_rel R (check e).
Proof. destruct e; intros w w' x [= <- _]; reflexivity. Qed.
Lemma tx_rel_replace_error {A} e (m : Tx A) : tx_rel R m → tx_rel R (replace_error e m).
Proof. intros Hm. apply tx_rel_bind; [done|by apply tx_rel_attempt|]. intros [a|e1] w w' x [= <- _]; reflexivity. Qed.
Lemma tx_rel_ignore_error (m : Tx unit) : tx_rel R m → tx_rel R (ignore_error m).
Proof. intros Hm. apply tx_rel_bind; [done|by apply tx_rel_attempt|]. intros a w w' x [= <- _]; reflexivity. Qed.
Lemma tx_rel_record_event append event : (∀ e, tx_rel R (append e)) → tx_rel R (record_event append event).
Proof.
  intros Ha. apply tx_rel_bind; [done|apply tx_rel_attempt, tx_rel_lift_sysrand; done|].
  intros [e|e]; [by apply tx_rel_ignore_error|intros w w' x [= <- _]; reflexivity].
Qed.
End rel.

#[export] Hint Resolve tx_rel_attempt tx_rel_or_error tx_rel_check tx_rel_replace_error tx_rel_ignore_error
  tx_rel_record_event : tx_rel.

(** ** The errors a call can return *)

Definition fails_only {A} (E : error → Prop) (m : Tx A) : Prop := ∀ w w' e, m w = (w', inr e) → E e.

Section fails.
Context (E : error → Prop).

Lemma fails_bind {A B} (m : Tx A) (k : A → Tx B) : fails_only E m → (∀ a, fails_only E (k a)) → fails_only E (m ≫= k).
Proof.
  intros Hm Hk w w' e. unfold mbind, Tx_bind. destruct (m w) as [w1 [a|x]] eqn:H; [apply Hk|].
  intros [= _ <-]. exact (Hm _ _ _ H).
Qed.
Lemma fails_ret {A} (a : A) : fails_only E (mret a).
Proof. intros w w' e [=]. Qed.
Lemma fails_throw {A} e : E e → fails_only E (throw (A := A) e).
Proof. intros He w w' x [= _ <-]. done. Qed.
Lemma fails_reject b e : E e → fails_only E (reject_if b e).
Proof. intros He. destruct b; [by apply fails_throw|apply fails_ret]. Qed.
Lemma fails_replace {A} e (m : Tx A) : E e → E go_panic → fails_only E (replace_error e m).
Proof. intros He Hp w w' x [->| ->]%replace_error_inr; done. Qed.
Lemma fails_attempt {A} (m : Tx A) : E go_panic → fails_only E (attempt m).
Proof. intros Hp w w' e. unfold attempt. destruct (m w) as [w1 [a|x]]; [done|]. destruct x; intros [=]; by subst. Qed.
Lemma fails_ignore m : E go_panic → fails_only E (ignore_error m).
Proof. intros Hp. apply fails_bind; [by apply fails_attempt|intros a; apply fails_ret]. Qed.
Lemma fails_record append event : E go_panic → fails_only E (record_event append event).
Proof. intros Hp. apply fails_bind; [by apply fails_attempt|]. intros [e|e]; [by apply fails_ignore|apply fails_ret]. Qed.
End fails.

Create HintDb fails.
#[export] Hint Resolve fails_bind fails_ret fails_throw fails_reject fails_replace fails_attempt fails_ignore fails_record : fails.

(** A failure of a later step, or a failure of the first one. *)
Lemma bind_cases {A B} (m : Tx A) (k : A → Tx B) w w' r :
  (m ≫= k) w = (w', r) → (∃ w1 a, m w = (w1, inl a) ∧ k a w1 = (w', r)) ∨ (∃ e, r = inr e ∧ m w = (w', inr e)).
Proof.
  unfold mbind, Tx_bind. destruct (m w) as [w1 [a|e]]; intros H; [left; by exists w1, a|]. injection H as <- <-. right. by exists e.
Qed.

(** The next guard of a pure function whose result is a value: it is false. *)
Ltac next_guard E :=
  match goal with |- (if ?b then _ else _) = _ → _ => destruct b eqn:E; [discriminate|] end.
