(* ===== verification/AuthorizationStore.v ===== *)
(** * Issuing and denying an authorization

    [internal/storage/postgres/authorization.go]: the transaction that revalidates the
    browser transaction, the user, the client and the consent grant under row locks,
    applies the consent decision, stores the code digest, consumes the browser
    transaction and appends the audit events; and the denial. *)

From S2P Require Import Prelude Errors Platform Scopes Domain AuditEvents Database Queries Tx StoreCommon.

Section store.
Context {P : Platform}.

Definition validateIssueCommit (c : IssueCommit) : bool :=
  negb ((IssueCommit_UserID c == uuid_Nil) || (IssueCommit_SessionID c == uuid_Nil) ||
        (IssueCommit_SessionBindingID c == uuid_Nil) || (IssueCommit_CodeID c == uuid_Nil) ||
        (IssueCommit_ProposedGrantID c == uuid_Nil) || (len (IssueCommit_CodeHash c) != 32) ||
        Time.IsZero (IssueCommit_CreatedAt c) || Time.IsZero (IssueCommit_AuthenticatedAt c) ||
        Time.After (IssueCommit_AuthenticatedAt c) (IssueCommit_CreatedAt c) ||
        negb (Time.After (IssueCommit_ExpiresAt c) (IssueCommit_CreatedAt c)) ||
        Time.After (IssueCommit_ExpiresAt c) (Time.Add (IssueCommit_CreatedAt c) (5 * Time.Minute))).

(** [validateLockedAuthorizationTransaction]: [None] is the nil error. *)
Definition validateLockedAuthorizationTransaction (row : AuthTransactionRow) (expected : Transaction) (now : time)
    : option error :=
  if (tx_ConsumedAt row == None) && negb (Time.After (tx_ExpiresAt row) now) then Some authz_ErrExpired
  else if bool_decide (is_Some (tx_ConsumedAt row)) then
    if valueString (tx_FailureReason row) == "expired" then Some authz_ErrExpired else Some authz_ErrConsumed
  else
    let actual := mapAuthTransaction row in
    if (Transaction_Kind actual != KindAuthorization) || (Transaction_ClientID actual == None) ||
       (Transaction_ClientID expected == None) || (Transaction_ID actual != Transaction_ID expected) ||
       (Transaction_ClientID actual != Transaction_ClientID expected) ||
       (Transaction_TokenHash actual != Transaction_TokenHash expected) ||
       (Transaction_RedirectURI actual != Transaction_RedirectURI expected) ||
       (Transaction_Scopes actual != Transaction_Scopes expected) ||
       (Transaction_PKCEChallenge actual != Transaction_PKCEChallenge expected) ||
       (Transaction_PKCEMethod actual != Transaction_PKCEMethod expected) ||
       (Transaction_State actual != Transaction_State expected) ||
       (Transaction_Nonce actual != Transaction_Nonce expected) ||
       (Transaction_ResponseType actual != Transaction_ResponseType expected) ||
       (Transaction_ResponseMode actual != Transaction_ResponseMode expected) ||
       (Transaction_Prompts actual != Transaction_Prompts expected) ||
       (Transaction_MaxAgeSeconds actual != Transaction_MaxAgeSeconds expected)
    then Some authz_ErrInvalid else None.

Definition check (e : option error) : Tx unit := match e with Some e => throw e | None => mret () end.

Definition transactionRowRedirect (row : AuthTransactionRow) : string := valueString (tx_RedirectUri row).
Definition transactionRowPKCE (row : AuthTransactionRow) : string := valueString (tx_PkceChallenge row).

Definition validAuthenticationProfile (value : Client) : bool :=
  if Client_Type value == TypePublic then Client_TokenEndpointAuthMethod value == AuthMethodNone
  else if Client_Type value == TypeConfidential
  then Client_TokenEndpointAuthMethod value == AuthMethodClientSecretBasic
  else false.

Definition lockAndValidateAuthorizationClient (transaction : AuthTransactionRow) : Tx Client :=
  match tx_ClientID transaction with
  | None => throw authz_ErrInvalid
  | Some clientID =>
      row ← locking (query_row "lock authorization client" authz_ErrInactive (LockOIDCClientByID clientID));
      value ← loadClientChildren (mapClient row);
      reject_if ((Client_Status value != client_StatusActive) || negb (validAuthenticationProfile value) ||
                 negb (bool_decide (transactionRowRedirect transaction ∈ Client_RedirectURIs value)) ||
                 negb (scopeSubset (tx_Scopes transaction) (Client_Scopes value))) authz_ErrInactive;;
      mret value
  end.

(** [grant.Scopes = stored]. *)
Definition set_scopes (grant : Grant) (scopes : list string) : Grant :=
  mkGrant (Grant_ID grant) (Grant_UserID grant) (Grant_ClientID grant) scopes (Grant_CreatedAt grant)
    (Grant_UpdatedAt grant) (Grant_RevokedAt grant) (Grant_Version grant).

(** The grant in force after the consent decision, and what changed. *)
Definition lockAndApplyConsent (commit : IssueCommit) (clientValue : Client) (requested : list string)
    : Tx (Grant * string) :=
  found ← locking (query_opt "lock consent grant"
            (LockConsentGrantByUserClient (IssueCommit_UserID commit) (Client_ID clientValue)));
  match found with
  | None =>
      reject_if (negb (IssueCommit_InteractiveConsent commit)) authz_ErrConsentRequired;;
      created ← query "create consent grant"
        (CreateConsentGrant (IssueCommit_ProposedGrantID commit) (IssueCommit_UserID commit) (Client_ID clientValue)
           requested (timestamp (IssueCommit_CreatedAt commit)) (timestamp (IssueCommit_CreatedAt commit)));
      mret (mapConsentGrant created, "created")
  | Some row =>
      let grant := mapConsentGrant row in
      match CanonicalScopes (Grant_Scopes grant) with
      | None => throw authz_ErrInvalid
      | Some stored =>
          reject_if ((Grant_ID grant == uuid_Nil) || (Grant_UserID grant != IssueCommit_UserID commit) ||
                     (Grant_ClientID grant != Client_ID clientValue) || (Grant_Version grant <? 1)) authz_ErrInvalid;;
          if bool_decide (is_Some (Grant_RevokedAt grant)) then
            reject_if (negb (IssueCommit_InteractiveConsent commit)) authz_ErrConsentRequired;;
            updated ← query "reactivate consent grant"
              (ReactivateConsentGrant requested (timestamp (IssueCommit_CreatedAt commit)) (Grant_ID grant));
            mret (mapConsentGrant updated, "reactivated")
          else
            let effective := Intersection stored (Client_Scopes clientValue) in
            if negb (IssueCommit_InteractiveConsent commit) then
              reject_if (Difference requested effective != []) authz_ErrConsentRequired;;
              mret (set_scopes grant stored, "")
            else
              let updatedScopes := Union stored requested in
              if updatedScopes == stored then mret (set_scopes grant stored, "")
              else
                updated ← query "expand consent grant"
                  (UpdateConsentGrantScopes updatedScopes (timestamp (IssueCommit_CreatedAt commit)) (Grant_ID grant));
                mret (mapConsentGrant updated, "expanded")
      end
  end.

(** The audit events of an issue, in order. *)
Definition grantChangedAudit (commit : IssueCommit) (grant : Grant) (grantChanged : string) : Tx unit :=
  if grantChanged == "" then mret ()
  else
    let '(eventType, changed) :=
      if grantChanged == "expanded" then (audit.ConsentGrantExpanded, ["expanded"])
      else if grantChanged == "reactivated" then (audit.ConsentGrantReactivated, ["reactivated"])
      else (audit.ConsentGrantCreated, ["created"]) in
    insertProtocolAudit eventType audit.ResultSuccess (IssueCommit_UserID commit) audit.TargetConsentGrant
      (Grant_ID grant) (IssueCommit_RequestID commit) changed (IssueCommit_CreatedAt commit).

(** The operation [IssueAuthorizationCode] passes to [inTx]. *)
Definition issueAuthorizationCode_tx (commit : IssueCommit) : Tx Grant :=
  transactionRow ← locking (query_row "lock authorization transaction for code issue"
    authz_ErrNotFound (LockAuthTransactionByID (Transaction_ID (IssueCommit_Transaction commit))));
  check (validateLockedAuthorizationTransaction transactionRow (IssueCommit_Transaction commit) (IssueCommit_CreatedAt commit));;
  userRow ← locking (query_row "lock authorization user" authz_ErrInactive
    (LockUserByID (IssueCommit_UserID commit)));
  reject_if (u_Status userRow != identity_StatusActive) authz_ErrInactive;;
  clientValue ← lockAndValidateAuthorizationClient transactionRow;
  match CanonicalScopes (tx_Scopes transactionRow) with
  | None => throw authz_ErrInvalid
  | Some requested =>
      applied ← lockAndApplyConsent commit clientValue requested;
      let '(grant, grantChanged) := applied in
      query "create authorization code" (CreateAuthorizationCode (mkCreateAuthorizationCodeParams
        (IssueCommit_CodeID commit) (IssueCommit_CodeHash commit) (tx_ID transactionRow) (Grant_ID grant)
        (IssueCommit_UserID commit) (Client_ID clientValue) (transactionRowRedirect transactionRow) requested
        (transactionRowPKCE transactionRow) "S256" (tx_NonceValue transactionRow)
        (timestamp (IssueCommit_AuthenticatedAt commit)) (timestamp (IssueCommit_CreatedAt commit))
        (timestamp (IssueCommit_ExpiresAt commit)) (Grant_Version grant)
        (Some (IssueCommit_SessionID commit)) (Some (IssueCommit_SessionBindingID commit))));;
      query_row "consume transaction while issuing authorization code" authz_ErrConsumed
        (ConsumeAuthTransaction (timestamp (IssueCommit_CreatedAt commit)) (tx_ID transactionRow));;
      grantChangedAudit commit grant grantChanged;;
      insertProtocolAudit audit.AuthorizationTransactionConsumed audit.ResultSuccess (IssueCommit_UserID commit)
        audit.TargetAuthTransaction (tx_ID transactionRow) (IssueCommit_RequestID commit) [] (IssueCommit_CreatedAt commit);;
      insertProtocolAudit audit.AuthorizationGranted audit.ResultSuccess (IssueCommit_UserID commit)
        audit.TargetAuthTransaction (tx_ID transactionRow) (IssueCommit_RequestID commit) [] (IssueCommit_CreatedAt commit);;
      insertProtocolAudit audit.AuthorizationCodeIssued audit.ResultSuccess (IssueCommit_UserID commit)
        audit.TargetAuthorizationCode (IssueCommit_CodeID commit) (IssueCommit_RequestID commit) ["issued"]
        (IssueCommit_CreatedAt commit);;
      mret grant
  end.

Definition IssueAuthorizationCode (commit : IssueCommit) : Tx Grant :=
  reject_if (negb (validateIssueCommit commit)) authz_ErrInvalid;;
  result ← inTx (issueAuthorizationCode_tx commit);
  observeAuditEvents;;
  mret result.

Definition denyAuthorization_tx (commit : DenyCommit) : Tx unit :=
  transactionRow ← locking (query_row "lock authorization transaction for denial"
    authz_ErrNotFound (LockAuthTransactionByID (Transaction_ID (DenyCommit_Transaction commit))));
  check (validateLockedAuthorizationTransaction transactionRow (DenyCommit_Transaction commit) (DenyCommit_DeniedAt commit));;
  userRow ← locking (query_row "lock authorization user for denial" authz_ErrInactive
    (LockUserByID (DenyCommit_UserID commit)));
  reject_if (u_Status userRow != identity_StatusActive) authz_ErrInactive;;
  lockAndValidateAuthorizationClient transactionRow;;
  query_row "consume denied authorization transaction" authz_ErrConsumed
    (RejectAuthTransaction (timestamp (DenyCommit_DeniedAt commit)) (pointerString "access_denied") (tx_ID transactionRow));;
  insertProtocolAudit audit.AuthorizationTransactionRejected audit.ResultRejected (DenyCommit_UserID commit)
    audit.TargetAuthTransaction (tx_ID transactionRow) (DenyCommit_RequestID commit) [] (DenyCommit_DeniedAt commit);;
  insertProtocolAudit audit.AuthorizationDenied audit.ResultRejected (DenyCommit_UserID commit)
    audit.TargetAuthTransaction (tx_ID transactionRow) (DenyCommit_RequestID commit) [] (DenyCommit_DeniedAt commit).

Definition DenyAuthorization (commit : DenyCommit) : Tx unit :=
  reject_if ((DenyCommit_UserID commit == uuid_Nil) || (Transaction_ID (DenyCommit_Transaction commit) == uuid_Nil) ||
             Time.IsZero (DenyCommit_DeniedAt commit)) authz_ErrInvalid;;
  inTx (denyAuthorization_tx commit);;
  observeAuditEvents.

End store.
