(* ===== verification/TokenStore.v ===== *)
(** * Token transactions

    [internal/storage/postgres/token.go]: the authorization code exchange, the refresh
    rotation with reuse detection, revocation, the authority snapshots behind UserInfo
    and introspection, and artifact retirement.  The mint callbacks of the token service
    are arguments. *)

From S2P Require Import Prelude Errors Platform Scopes Domain Opaque AuditEvents Database Queries Tx StoreCommon.
Import Authorization Refresh.

Section store.
Context {P : Platform}.

(** [token.MintFunc] and [token.RefreshMintFunc] read the service's random source. *)
Definition MintFunc : Type := Authority → Rnd Minted.
Definition RefreshMintFunc : Type := RefreshAuthority → Rnd RefreshMinted.

Definition validLifecycleHash (value : bytes) : bool := len value == 32.

Definition validMintedTokens (value : Minted) (now : time) (offline : bool) : bool :=
  if (Minted_AccessTokenID value == uuid_Nil) || (len (Minted_JTIHash value) != 32) ||
     (Minted_AccessToken value == "") || (Minted_IDToken value == "") ||
     negb (Time.Equal (Minted_IssuedAt value) now) ||
     negb (Time.After (Minted_AccessExpiresAt value) (Minted_IssuedAt value)) ||
     negb (Time.After (Minted_IDExpiresAt value) (Minted_IssuedAt value)) ||
     Time.After (Minted_AccessExpiresAt value) (Time.Add (Minted_IssuedAt value) (30 * Time.Minute)) ||
     Time.After (Minted_IDExpiresAt value) (Time.Add (Minted_IssuedAt value) (15 * Time.Minute))
  then false
  else if negb offline then match Minted_InitialRefresh value with None => true | Some _ => false end
  else
    match Minted_InitialRefresh value with
    | None => false
    | Some initial =>
        if (InitialRefresh_FamilyID initial == uuid_Nil) || (InitialRefresh_TokenID initial == uuid_Nil) ||
           (len (InitialRefresh_TokenHash initial) != 32) || (InitialRefresh_ClearToken initial == "") ||
           negb (Time.After (InitialRefresh_ExpiresAt initial) (Minted_IssuedAt value)) ||
           Time.After (InitialRefresh_ExpiresAt initial) (InitialRefresh_AbsoluteExpiresAt initial) ||
           negb (Time.After (InitialRefresh_AbsoluteExpiresAt initial) (Minted_IssuedAt value)) ||
           Time.After (InitialRefresh_ExpiresAt initial) (Time.Add (Minted_IssuedAt value) (30 * 24 * Time.Hour)) ||
           Time.After (InitialRefresh_AbsoluteExpiresAt initial) (Time.Add (Minted_IssuedAt value) (365 * 24 * Time.Hour))
        then false
        else DigestPresentedRefreshToken (InitialRefresh_ClearToken initial) == Some (InitialRefresh_TokenHash initial)
    end.

Definition validRefreshMinted (value : RefreshMinted) (presented : RefreshGeneration) (family : RefreshFamily) (now : time) : bool :=
  if (RefreshMinted_AccessTokenID value == uuid_Nil) || (RefreshMinted_ReplacementTokenID value == uuid_Nil) ||
     (RefreshMinted_ReplacementTokenID value == RefreshGeneration_ID presented) ||
     (len (RefreshMinted_JTIHash value) != 32) || (len (RefreshMinted_ReplacementTokenHash value) != 32) ||
     (RefreshMinted_AccessToken value == "") || (RefreshMinted_ReplacementClearToken value == "") ||
     negb (Time.Equal (RefreshMinted_IssuedAt value) now) ||
     negb (Time.After (RefreshMinted_AccessExpiresAt value) (RefreshMinted_IssuedAt value)) ||
     Time.After (RefreshMinted_AccessExpiresAt value) (Time.Add (RefreshMinted_IssuedAt value) (30 * Time.Minute)) ||
     negb (Time.After (RefreshMinted_ReplacementExpiresAt value) (RefreshMinted_IssuedAt value)) ||
     Time.After (RefreshMinted_ReplacementExpiresAt value) (Time.Add (RefreshMinted_IssuedAt value) (30 * 24 * Time.Hour)) ||
     Time.After (RefreshMinted_ReplacementExpiresAt value) (RefreshFamily_AbsoluteExpiresAt family) ||
     (RefreshGeneration_Generation presented == 2 ^ 63 - 1)
  then false
  else DigestPresentedRefreshToken (RefreshMinted_ReplacementClearToken value) == Some (RefreshMinted_ReplacementTokenHash value).

(** [int64(expires.Sub(issued) / time.Second)]; integer division truncates. *)
Definition expiresIn (expires issued : time) : Z := Z.quot (Time.Sub expires issued) Time.Second.

(** ** Authorization code exchange *)

(** The refresh family and its first generation, when the mint produced one. *)
Definition createInitialRefresh (codeRow : AuthorizationCodeRow) (grantID : uuid) (scopes : list string) (minted : Minted)
    : Tx (option uuid) :=
  match Minted_InitialRefresh minted with
  | None => mret None
  | Some initial =>
      match code_OriginSessionID codeRow, code_SessionBindingID codeRow with
      | Some originSession, Some binding =>
          query "create refresh token family" (CreateRefreshTokenFamily (mkCreateRefreshTokenFamilyParams
            (InitialRefresh_FamilyID initial) (Some (code_ID codeRow)) grantID (code_UserID codeRow)
            (code_ClientID codeRow) (Some originSession) binding scopes
            (timestamp (Minted_IssuedAt minted)) (timestamp (InitialRefresh_AbsoluteExpiresAt initial))));;
          query "create initial refresh token" (CreateRefreshToken (mkCreateRefreshTokenParams
            (InitialRefresh_TokenID initial) (InitialRefresh_FamilyID initial) (InitialRefresh_TokenHash initial) 0
            (timestamp (Minted_IssuedAt minted)) (timestamp (InitialRefresh_ExpiresAt initial))));;
          mret (Some (InitialRefresh_FamilyID initial))
      | _, _ => throw token_ErrInvalidGrant
      end
  end.

(** What the operation leaves in [response] and [replayRejected]. *)
Inductive ExchangeOutcome := ReplayRejected | Exchanged (response : Response).

(** Everything after the mint: the new rows, the consumed code, the audit events and
    the response. *)
Definition commitExchange (input : ExchangeInput) (codeRow : AuthorizationCodeRow) (grant : Grant)
    (scopes : list string) (minted : Minted) : Tx ExchangeOutcome :=
  refreshFamilyID ← createInitialRefresh codeRow (Grant_ID grant) scopes minted;
  query "create access token metadata" (CreateAccessToken (mkCreateAccessTokenParams
    (Minted_AccessTokenID minted) (Minted_JTIHash minted) (Some (code_ID codeRow)) (Grant_ID grant)
    (code_UserID codeRow) (code_ClientID codeRow) scopes (timestamp (Minted_IssuedAt minted))
    (timestamp (Minted_AccessExpiresAt minted)) refreshFamilyID (code_OriginSessionID codeRow)
    (code_SessionBindingID codeRow)));;
  query_row "consume authorization code" token_ErrInvalidGrant
    (ConsumeAuthorizationCode (timestamp (ExchangeInput_Now input)) (code_ID codeRow));;
  insertProtocolAudit audit.AuthorizationCodeExchangeSucceeded audit.ResultSuccess (code_UserID codeRow)
    audit.TargetAuthorizationCode (code_ID codeRow) (ExchangeInput_RequestID input) ["consumed"] (ExchangeInput_Now input);;
  insertProtocolAudit audit.AccessTokenIssued audit.ResultSuccess (code_UserID codeRow) audit.TargetAccessToken
    (Minted_AccessTokenID minted) (ExchangeInput_RequestID input) ["issued"] (ExchangeInput_Now input);;
  match Minted_InitialRefresh minted with
  | Some initial =>
      insertProtocolAudit audit.RefreshTokenIssued audit.ResultSuccess (code_UserID codeRow)
        audit.TargetRefreshToken (InitialRefresh_TokenID initial) (ExchangeInput_RequestID input) ["issued"]
        (ExchangeInput_Now input)
  | None => mret ()
  end;;
  mret (Exchanged (mkResponse (Minted_AccessToken minted) "Bearer"
    (expiresIn (Minted_AccessExpiresAt minted) (Minted_IssuedAt minted)) (Minted_IDToken minted)
    (match Minted_InitialRefresh minted with Some initial => InitialRefresh_ClearToken initial | None => "" end)
    (join_space scopes))).

Definition exchangeAuthorizationCode_tx (input : ExchangeInput) (mint : MintFunc) : Tx ExchangeOutcome :=
  codeRow ← locking (query_row "lock authorization code for exchange" token_ErrInvalidGrant
    (LockAuthorizationCodeByHash (ExchangeInput_CodeHash input)));
  if bool_decide (is_Some (code_ConsumedAt codeRow)) then
    alreadyRecorded ← query "check authorization code replay audit"
      (HasAuthorizationCodeExchangeRejection (Some (code_ID codeRow)));
    (if negb alreadyRecorded then
       insertProtocolAudit audit.AuthorizationCodeExchangeRejected audit.ResultRejected (code_UserID codeRow)
         audit.TargetAuthorizationCode (code_ID codeRow) (ExchangeInput_RequestID input) [] (ExchangeInput_Now input)
     else mret ());;
    mret ReplayRejected
  else
    reject_if (negb (Time.After (code_ExpiresAt codeRow) (ExchangeInput_Now input))) token_ErrInvalidGrant;;
    reject_if ((code_ClientID codeRow != Client_ID (ExchangeInput_Client input)) ||
               (code_RedirectUri codeRow != ExchangeInput_RedirectURI input) || (code_PkceMethod codeRow != "S256") ||
               negb (VerifyS256 (ExchangeInput_CodeVerifier input) (code_PkceChallenge codeRow))) token_ErrInvalidGrant;;
    userRow ← locking (query_row "lock code exchange user" token_ErrInvalidGrant (LockUserByID (code_UserID codeRow)));
    reject_if (u_Status userRow != identity_StatusActive) token_ErrInvalidGrant;;
    clientRow ← locking (query_row "lock code exchange client" token_ErrInvalidGrant
      (LockOIDCClientByID (code_ClientID codeRow)));
    clientValue ← loadClientChildren (mapClient clientRow);
    reject_if (negb (sameAuthenticatedClient clientValue (ExchangeInput_Client input)) ||
               negb (bool_decide (code_RedirectUri codeRow ∈ Client_RedirectURIs clientValue))) token_ErrInvalidGrant;;
    match CanonicalScopes (code_Scopes codeRow) with
    | None => throw token_ErrInvalidGrant
    | Some scopes =>
        reject_if (negb (scopeSubset scopes (Client_Scopes clientValue))) token_ErrInvalidGrant;;
        grantRow ← locking (query_row "lock code exchange consent grant" token_ErrInvalidGrant
          (LockConsentGrantByUserClient (code_UserID codeRow) (code_ClientID codeRow)));
        let grant := mapConsentGrant grantRow in
        reject_if ((Grant_ID grant != code_ConsentGrantID codeRow) ||
                   (Grant_Version grant != code_ConsentGrantVersion codeRow) ||
                   bool_decide (is_Some (Grant_RevokedAt grant)) ||
                   (Difference scopes (Intersection (Grant_Scopes grant) (Client_Scopes clientValue)) != []))
          token_ErrInvalidGrant;;
        minted ← lift_rand (mint (mkAuthority (code_ID codeRow) (Grant_ID grant) (code_OriginSessionID codeRow)
          (code_SessionBindingID codeRow) (mapUser userRow) clientValue scopes (valueString (code_NonceValue codeRow))
          (code_AuthTime codeRow) (ExchangeInput_Now input)));
        reject_if (negb (validMintedTokens minted (ExchangeInput_Now input) (bool_decide ("offline_access" ∈ scopes))))
          token_ErrInvalid;;
        commitExchange input codeRow grant scopes minted
    end.

Definition ExchangeAuthorizationCode (input : ExchangeInput) (mint : MintFunc) : Tx Response :=
  reject_if ((len (ExchangeInput_CodeHash input) != 32) || (Client_ID (ExchangeInput_Client input) == uuid_Nil) ||
             (ExchangeInput_RedirectURI input == "") || (ExchangeInput_CodeVerifier input == "") ||
             Time.IsZero (ExchangeInput_Now input)) token_ErrInvalidGrant;;
  outcome ← inTx (exchangeAuthorizationCode_tx input mint);
  observeAuditEvents;;
  match outcome with
  | ReplayRejected => throw token_ErrInvalidGrant
  | Exchanged response => mret response
  end.

(** ** Refresh rotation *)

Inductive RefreshOutcome := ReuseDetected | Rotated (response : Response).

(** A consumed generation came back: the whole family and its live access tokens go. *)
Definition rejectReuse (input : RefreshInput) (family : RefreshFamily) (presented : RefreshGeneration) : Tx RefreshOutcome :=
  query "revoke reused refresh token family"
    (RevokeRefreshTokenFamily (timestamp (RefreshInput_Now input)) (pointerString "reuse") (RefreshFamily_ID family));;
  query "revoke access tokens after refresh reuse"
    (RevokeLiveAccessTokensByFamily (timestamp (RefreshInput_Now input)) (Some (RefreshFamily_ID family)));;
  insertProtocolAudit audit.RefreshTokenReuseDetected audit.ResultRejected (RefreshFamily_UserID family)
    audit.TargetRefreshToken (RefreshGeneration_ID presented) (RefreshInput_RequestID input) ["reused"] (RefreshInput_Now input);;
  insertProtocolAudit audit.RefreshTokenFamilyRevoked audit.ResultSuccess (RefreshFamily_UserID family)
    audit.TargetRefreshFamily (RefreshFamily_ID family) (RefreshInput_RequestID input) ["revoked"] (RefreshInput_Now input);;
  mret ReuseDetected.

(** Mint, consume the presented generation, store its successor and the new access token. *)
Definition rotate (input : RefreshInput) (mint : RefreshMintFunc) (user : User) (clientValue : Client) (grant : Grant)
    (family : RefreshFamily) (presented : RefreshGeneration) (accessScopes : list string) : Tx RefreshOutcome :=
  minted ← lift_rand (mint (mkRefreshAuthority presented family grant user clientValue accessScopes (RefreshInput_Now input)));
  reject_if (negb (validRefreshMinted minted presented family (RefreshInput_Now input))) token_ErrInvalid;;
  query_row "consume refresh token generation" token_ErrInvalidGrant
    (ConsumeRefreshToken (timestamp (RefreshInput_Now input)) (RefreshGeneration_ID presented));;
  query "create replacement refresh token" (CreateRefreshToken (mkCreateRefreshTokenParams
    (RefreshMinted_ReplacementTokenID minted) (RefreshFamily_ID family) (RefreshMinted_ReplacementTokenHash minted)
    (RefreshGeneration_Generation presented + 1) (timestamp (RefreshMinted_IssuedAt minted))
    (timestamp (RefreshMinted_ReplacementExpiresAt minted))));;
  query "create refresh-sourced access token" (CreateRefreshAccessToken (mkCreateRefreshAccessTokenParams
    (RefreshMinted_AccessTokenID minted) (RefreshMinted_JTIHash minted) (Grant_ID grant) (RefreshFamily_UserID family)
    (RefreshFamily_ClientID family) accessScopes (timestamp (RefreshMinted_IssuedAt minted))
    (timestamp (RefreshMinted_AccessExpiresAt minted)) (Some (RefreshGeneration_ID presented))
    (Some (RefreshFamily_ID family)) (RefreshFamily_OriginSessionID family) (Some (RefreshFamily_SessionBindingID family))));;
  insertProtocolAudit audit.RefreshTokenRotated audit.ResultSuccess (RefreshFamily_UserID family)
    audit.TargetRefreshToken (RefreshGeneration_ID presented) (RefreshInput_RequestID input) ["consumed"; "rotated"]
    (RefreshInput_Now input);;
  insertProtocolAudit audit.AccessTokenIssued audit.ResultSuccess (RefreshFamily_UserID family) audit.TargetAccessToken
    (RefreshMinted_AccessTokenID minted) (RefreshInput_RequestID input) ["issued"] (RefreshInput_Now input);;
  mret (Rotated (mkResponse (RefreshMinted_AccessToken minted) "Bearer"
    (expiresIn (RefreshMinted_AccessExpiresAt minted) (RefreshMinted_IssuedAt minted)) ""
    (RefreshMinted_ReplacementClearToken minted) (join_space accessScopes))).

Definition exchangeRefreshToken_tx (input : RefreshInput) (mint : RefreshMintFunc)
    (candidate : RefreshTokenRow) (candidateFamily : RefreshTokenFamilyRow) : Tx RefreshOutcome :=
  userRow ← locking (query_row "lock refresh user" token_ErrInvalidGrant (LockUserByID (rf_UserID candidateFamily)));
  reject_if (u_Status userRow != identity_StatusActive) token_ErrInvalidGrant;;
  clientRow ← locking (query_row "lock refresh client" token_ErrInvalidGrant
    (LockOIDCClientByID (rf_ClientID candidateFamily)));
  clientValue ← loadClientChildren (mapClient clientRow);
  reject_if (negb (sameAuthenticatedClient clientValue (RefreshInput_Client input))) token_ErrInvalidGrant;;
  grantRow ← locking (query_row "lock refresh consent grant" token_ErrInvalidGrant
    (LockConsentGrantByUserClient (rf_UserID candidateFamily) (rf_ClientID candidateFamily)));
  let grant := mapConsentGrant grantRow in
  reject_if ((Grant_ID grant != rf_ConsentGrantID candidateFamily) || bool_decide (is_Some (Grant_RevokedAt grant)) ||
             (Grant_Version grant <? 1)) token_ErrInvalidGrant;;
  familyRow ← locking (query_row "lock refresh token family" token_ErrInvalidGrant
    (LockRefreshTokenFamilyByID (rt_FamilyID candidate)));
  let family := mapRefreshFamily familyRow in
  reject_if ((RefreshFamily_ID family != rf_ID candidateFamily) || (RefreshFamily_UserID family != u_ID userRow) ||
             (RefreshFamily_ClientID family != Client_ID clientValue) ||
             (RefreshFamily_ConsentGrantID family != Grant_ID grant) ||
             bool_decide (is_Some (RefreshFamily_RevokedAt family)) ||
             negb (Time.Before (RefreshInput_Now input) (RefreshFamily_AbsoluteExpiresAt family))) token_ErrInvalidGrant;;
  presentedRow ← locking (query_row "lock refresh token generation" token_ErrInvalidGrant
    (LockRefreshTokenByID (rt_ID candidate)));
  let presented := mapRefreshGeneration presentedRow in
  reject_if ((RefreshGeneration_FamilyID presented != RefreshFamily_ID family) ||
             (RefreshGeneration_TokenHash presented != RefreshInput_TokenHash input)) token_ErrInvalidGrant;;
  if bool_decide (is_Some (RefreshGeneration_ConsumedAt presented)) then rejectReuse input family presented
  else
    reject_if (negb (Time.Before (RefreshInput_Now input) (RefreshGeneration_ExpiresAt presented))) token_ErrInvalidGrant;;
    match SelectRefreshAccessScopes (RefreshInput_RequestedScopes input) (RefreshFamily_Scopes family)
            (Grant_Scopes grant) (Client_Scopes clientValue) with
    | inr e => throw e
    | inl accessScopes => rotate input mint (mapUser userRow) clientValue grant family presented accessScopes
    end.

(** The part of [ExchangeRefreshToken] after the candidate reads. *)
Definition finishRefreshExchange (input : RefreshInput) (mint : RefreshMintFunc)
    (candidate : RefreshTokenRow) (candidateFamily : RefreshTokenFamilyRow) : Tx Response :=
  outcome ← inTx (exchangeRefreshToken_tx input mint candidate candidateFamily);
  observeAuditEvents;;
  match outcome with
  | ReuseDetected => throw token_ErrInvalidGrant
  | Rotated response => mret response
  end.

(** The guard and the candidate reads outside the transaction. *)
Definition findRefreshCandidate (input : RefreshInput) : Tx (RefreshTokenRow * RefreshTokenFamilyRow) :=
  reject_if ((len (RefreshInput_TokenHash input) != 32) || (Client_ID (RefreshInput_Client input) == uuid_Nil) ||
             Time.IsZero (RefreshInput_Now input)) token_ErrInvalidGrant;;
  candidate ← query_row "find refresh token candidate" token_ErrInvalidGrant (GetRefreshTokenByHash (RefreshInput_TokenHash input));
  candidateFamily ← query_row "find refresh token family candidate" token_ErrInvalidGrant
    (GetRefreshTokenFamilyByID (rt_FamilyID candidate));
  mret (candidate, candidateFamily).

Definition ExchangeRefreshToken (input : RefreshInput) (mint : RefreshMintFunc) : Tx Response :=
  found ← findRefreshCandidate input;
  finishRefreshExchange input mint found.1 found.2.

(** ** Authority snapshots *)

(** [loadClient], with a missing client turned into [missing]. *)
Definition loadClientOr (missing : error) (id : uuid) : Tx Client := λ w,
  match loadClient id w with
  | (w', inr e) => (w', inr (if e == client_ErrNotFound then missing else e))
  | r => r
  end.

Definition getAccessTokenAuthority_tx (jtiHash : bytes) (now : time) : Tx AccessAuthority :=
  row ← query_row "get access token metadata" token_ErrInvalidToken (GetAccessTokenByJTIHash jtiHash);
  let metadata := mapAccessMetadata row in
  reject_if (negb (Time.Before now (AccessMetadata_ExpiresAt metadata)) || (AccessMetadata_JTIHash metadata != jtiHash))
    token_ErrInvalidToken;;
  userRow ← query_row "get access token user" token_ErrInvalidToken (GetUserByID (AccessMetadata_UserID metadata));
  reject_if (u_Status userRow != identity_StatusActive) token_ErrInvalidToken;;
  clientValue ← loadClientOr token_ErrInvalidToken (AccessMetadata_ClientID metadata);
  reject_if (Client_Status clientValue != client_StatusActive) token_ErrInvalidToken;;
  grantRow ← query_row "get access token consent grant" token_ErrInvalidToken
    (GetConsentGrantByUserClient (AccessMetadata_UserID metadata) (AccessMetadata_ClientID metadata));
  reject_if (g_ID grantRow != AccessMetadata_ConsentGrantID metadata) token_ErrInvalidToken;;
  family ← match AccessMetadata_RefreshFamilyID metadata with
           | None => mret None
           | Some fid =>
               familyRow ← query_row "get access token refresh family" token_ErrInvalidToken (GetRefreshTokenFamilyByID fid);
               mret (Some (mapRefreshFamily familyRow))
           end;
  mret (mkAccessAuthority metadata (mapConsentGrant grantRow) (mapUser userRow) clientValue family).

Definition GetAccessTokenAuthority (jtiHash : bytes) (now : time) : Tx AccessAuthority :=
  reject_if ((len jtiHash != 32) || Time.IsZero now) token_ErrInvalidToken;;
  inTx (getAccessTokenAuthority_tx jtiHash now).

Definition getRefreshTokenAuthority_tx (hash : bytes) : Tx RefreshTokenAuthority :=
  generationRow ← query_row "get refresh token for introspection" token_ErrInvalidGrant (GetRefreshTokenByHash hash);
  familyRow ← query_row "get refresh family for introspection" token_ErrInvalidGrant
    (GetRefreshTokenFamilyByID (rt_FamilyID generationRow));
  userRow ← query_row "get refresh user for introspection" token_ErrInvalidGrant (GetUserByID (rf_UserID familyRow));
  clientValue ← loadClientOr token_ErrInvalidGrant (rf_ClientID familyRow);
  grantRow ← query_row "get refresh grant for introspection" token_ErrInvalidGrant
    (GetConsentGrantByUserClient (rf_UserID familyRow) (rf_ClientID familyRow));
  reject_if (g_ID grantRow != rf_ConsentGrantID familyRow) token_ErrInvalidGrant;;
  mret (mkRefreshTokenAuthority (mapRefreshGeneration generationRow) (mapRefreshFamily familyRow)
          (mapConsentGrant grantRow) (mapUser userRow) clientValue).

Definition GetRefreshTokenAuthority (hash : bytes) : Tx RefreshTokenAuthority :=
  reject_if (negb (validLifecycleHash hash)) token_ErrInvalidGrant;;
  inTx (getRefreshTokenAuthority_tx hash).

(** ** Revocation

    Every mismatch ends the transaction without a change and without an error. *)

(** [if isNoRows(err) { return nil }]: go on only with a row. *)
Definition if_found {A} (found : option A) (k : A → Tx unit) : Tx unit :=
  match found with Some a => k a | None => mret () end.
(** [if !b { return nil }]. *)
Definition if_true (b : bool) (k : Tx unit) : Tx unit := if b then k else mret ().

(** The family lock and check of an access candidate that belongs to one. *)
Definition checkCandidateFamily (lookup : RevocationLookup) (candidate : AccessTokenRow) (k : Tx unit) : Tx unit :=
  match at_RefreshFamilyID candidate with
  | None => k
  | Some fid =>
      found ← locking (query_opt "lock access revocation family" (LockRefreshTokenFamilyByID fid));
      if_found found (λ familyRow,
        let family := mapRefreshFamily familyRow in
        if_true (negb (bool_decide (is_Some (RefreshFamily_RevokedAt family)) ||
                       negb (Time.Before (RevocationLookup_Now lookup) (RefreshFamily_AbsoluteExpiresAt family)) ||
                       (RefreshFamily_UserID family != at_UserID candidate) ||
                       (RefreshFamily_ClientID family != at_ClientID candidate) ||
                       (RefreshFamily_ConsentGrantID family != at_ConsentGrantID candidate) ||
                       (Difference (at_Scopes candidate) (RefreshFamily_Scopes family) != []))) k)
  end.

Definition revokeAccessCandidate_tx (lookup : RevocationLookup) (candidate : AccessTokenRow) : Tx unit :=
  foundUser ← locking (query_opt "lock access revocation user" (LockUserByID (at_UserID candidate)));
  if_found foundUser (λ userRow,
  if_true (u_Status userRow == identity_StatusActive) (
  foundClient ← locking (query_opt "lock access revocation client" (LockOIDCClientByID (at_ClientID candidate)));
  if_found foundClient (λ clientRow,
  clientValue ← loadClientChildren (mapClient clientRow);
  if_true (sameAuthenticatedClient clientValue (RevocationLookup_Client lookup)) (
  foundGrant ← locking (query_opt "lock access revocation grant"
    (LockConsentGrantByUserClient (at_UserID candidate) (at_ClientID candidate)));
  if_found foundGrant (λ grantRow,
  let grant := mapConsentGrant grantRow in
  if_true (negb ((Grant_ID grant != at_ConsentGrantID candidate) || bool_decide (is_Some (Grant_RevokedAt grant)) ||
                 (Difference (at_Scopes candidate) (Intersection (Grant_Scopes grant) (Client_Scopes clientValue)) != []))) (
  checkCandidateFamily lookup candidate (
  foundToken ← locking (query_opt "lock access revocation token" (LockAccessTokenByID (at_ID candidate)));
  if_found foundToken (λ locked,
  let metadata := mapAccessMetadata locked in
  if_true (negb ((AccessMetadata_ClientID metadata != Client_ID (RevocationLookup_Client lookup)) ||
                 bool_decide (is_Some (AccessMetadata_RevokedAt metadata)) ||
                 negb (Time.Before (RevocationLookup_Now lookup) (AccessMetadata_ExpiresAt metadata)) ||
                 (AccessMetadata_JTIHash metadata != RevocationLookup_AccessJTIHash lookup))) (
  query "revoke access token" (RevokeAccessToken (timestamp (RevocationLookup_Now lookup))
    (pointerString "client_revocation") (AccessMetadata_ID metadata));;
  insertProtocolAudit audit.AccessTokenRevoked audit.ResultSuccess (AccessMetadata_UserID metadata)
    audit.TargetAccessToken (AccessMetadata_ID metadata) (RevocationLookup_RequestID lookup) ["revoked"]
    (RevocationLookup_Now lookup)))))))))).

Definition revokeAccessCandidate (lookup : RevocationLookup) (candidate : AccessTokenRow) : Tx unit :=
  inTx (revokeAccessCandidate_tx lookup candidate);;
  observeAuditEvents.

Definition revokeRefreshCandidate_tx (lookup : RevocationLookup) (candidate : RefreshTokenRow)
    (candidateFamily : RefreshTokenFamilyRow) : Tx unit :=
  foundUser ← locking (query_opt "lock refresh revocation user" (LockUserByID (rf_UserID candidateFamily)));
  if_found foundUser (λ userRow,
  if_true (u_Status userRow == identity_StatusActive) (
  foundClient ← locking (query_opt "lock refresh revocation client"
    (LockOIDCClientByID (rf_ClientID candidateFamily)));
  if_found foundClient (λ clientRow,
  clientValue ← loadClientChildren (mapClient clientRow);
  if_true (sameAuthenticatedClient clientValue (RevocationLookup_Client lookup)) (
  foundGrant ← locking (query_opt "lock refresh revocation grant"
    (LockConsentGrantByUserClient (rf_UserID candidateFamily) (rf_ClientID candidateFamily)));
  if_found foundGrant (λ grantRow,
  let grant := mapConsentGrant grantRow in
  if_true (negb ((Grant_ID grant != rf_ConsentGrantID candidateFamily) || bool_decide (is_Some (Grant_RevokedAt grant)))) (
  foundFamily ← locking (query_opt "lock refresh revocation family"
    (LockRefreshTokenFamilyByID (rt_FamilyID candidate)));
  if_found foundFamily (λ familyRow,
  let family := mapRefreshFamily familyRow in
  if_true (negb (bool_decide (is_Some (RefreshFamily_RevokedAt family)) ||
                 negb (Time.Before (RevocationLookup_Now lookup) (RefreshFamily_AbsoluteExpiresAt family)) ||
                 (RefreshFamily_UserID family != u_ID userRow) || (RefreshFamily_ClientID family != Client_ID clientValue) ||
                 (RefreshFamily_ConsentGrantID family != Grant_ID grant))) (
  foundToken ← locking (query_opt "lock refresh revocation generation" (LockRefreshTokenByID (rt_ID candidate)));
  if_found foundToken (λ presentedRow,
  let presented := mapRefreshGeneration presentedRow in
  if_true (negb ((RefreshGeneration_FamilyID presented != RefreshFamily_ID family) ||
                 (RefreshGeneration_TokenHash presented != RevocationLookup_RefreshTokenHash lookup))) (
  query "revoke refresh token family by client" (RevokeRefreshTokenFamily (timestamp (RevocationLookup_Now lookup))
    (pointerString "client_revocation") (RefreshFamily_ID family));;
  query "revoke family access tokens by client" (RevokeLiveAccessTokensByFamily
    (timestamp (RevocationLookup_Now lookup)) (Some (RefreshFamily_ID family)));;
  insertProtocolAudit audit.RefreshTokenFamilyRevoked audit.ResultSuccess (RefreshFamily_UserID family)
    audit.TargetRefreshFamily (RefreshFamily_ID family) (RevocationLookup_RequestID lookup) ["revoked"]
    (RevocationLookup_Now lookup))))))))))).

Definition revokeRefreshCandidate (lookup : RevocationLookup) (candidate : RefreshTokenRow) : Tx unit :=
  found ← query_opt "find refresh revocation family" (GetRefreshTokenFamilyByID (rt_FamilyID candidate));
  match found with
  | None => mret ()
  | Some candidateFamily =>
      inTx (revokeRefreshCandidate_tx lookup candidate candidateFamily);;
      observeAuditEvents
  end.

(** A candidate read by hash, skipped when the hash is not a digest. *)
Definition find_by_hash {A} (op : string) (hash : bytes) (s : bytes → Stmt A) : Tx (option A) :=
  if validLifecycleHash hash then query_opt op (s hash) else mret None.

Definition RevokeToken (lookup : RevocationLookup) : Tx unit :=
  if (Client_ID (RevocationLookup_Client lookup) == uuid_Nil) || Time.IsZero (RevocationLookup_Now lookup) then mret ()
  else
    access ← find_by_hash "find access revocation candidate" (RevocationLookup_AccessJTIHash lookup) GetAccessTokenByJTIHash;
    match access with
    | Some candidate => revokeAccessCandidate lookup candidate
    | None =>
        refresh ← find_by_hash "find refresh revocation candidate" (RevocationLookup_RefreshTokenHash lookup) GetRefreshTokenByHash;
        match refresh with
        | Some candidate => revokeRefreshCandidate lookup candidate
        | None => mret ()
        end
    end.

(** ** Retirement *)

Definition cleanupBatchSize : Z := 250.

Definition cleanupProtocol_tx (cutoff : time) : Tx (Z * Z) :=
  codesHeld ← locked_elsewhere;
  codes ← query "clean authorization code metadata" (DeleteRetiredAuthorizationCodes codesHeld (timestamp cutoff) cleanupBatchSize);
  accessHeld ← locked_elsewhere;
  access ← query "clean access token metadata" (DeleteRetiredAccessTokens accessHeld (timestamp cutoff) cleanupBatchSize);
  mret (codes, access).

Definition cleanupRefresh_tx (cutoff : time) : Tx (Z * Z) :=
  generationsHeld ← locked_elsewhere;
  generations ← query "clean refresh token generations"
    (DeleteRetiredRefreshTokens generationsHeld (timestamp cutoff) cleanupBatchSize);
  familiesHeld ← locked_elsewhere;
  families ← query "clean refresh token families"
    (DeleteRetiredRefreshTokenFamilies familiesHeld (timestamp cutoff) cleanupBatchSize);
  mret (generations, families).

(** The [for] loop of both cleanups: batches until one comes back short.  [None]
    means the fuel ran out; the total deleted so far is returned with an error. *)
Fixpoint cleanup_loop (fuel : nat) (batch_tx : Tx (Z * Z)) (total : Z) (w : World) : option (World * Z * option error) :=
  match fuel with
  | O => None
  | S fuel' =>
      match inTx batch_tx w with
      | (w', inr e) => Some (w', total, Some e)
      | (w', inl (a, b)) =>
          let total' := total + (a + b) in
          if (b <? cleanupBatchSize) && (a <? cleanupBatchSize) then Some (w', total', None)
          else cleanup_loop fuel' batch_tx total' w'
      end
  end.

Definition CleanupProtocolArtifacts (fuel : nat) (cutoff : time) : World → option (World * Z * option error) :=
  cleanup_loop fuel (cleanupProtocol_tx cutoff) 0.
Definition CleanupRefreshArtifacts (fuel : nat) (cutoff : time) : World → option (World * Z * option error) :=
  cleanup_loop fuel (cleanupRefresh_tx cutoff) 0.

End store.
