(* ===== verification/ConsentStore.v ===== *)
(** * Consent grants in storage

    [internal/storage/postgres/consent.go]: reading a grant, the owner's list, and the
    revocation that takes down the grant with every family and live access token that
    depends on it. *)

From S2P Require Import Prelude Errors Platform Scopes Domain AuditEvents Database Queries Tx StoreCommon.

(** [consent.ManagedGrant], [consent.RevokeInput], [consent.GrantCursor]. *)
Record ManagedGrant := mkManagedGrant {
  ManagedGrant_ClientID : string; ManagedGrant_ClientName : string; ManagedGrant_ClientStatus : string;
  ManagedGrant_Scopes : list string; ManagedGrant_CreatedAt : time; ManagedGrant_UpdatedAt : time;
  ManagedGrant_RevokedAt : option time; ManagedGrant_HasActiveOfflineFamily : bool }.

Record RevokeInput := mkRevokeInput {
  RevokeInput_UserID : uuid; RevokeInput_PublicClientID : string; RevokeInput_RequestID : string;
  RevokeInput_Now : time }.

Record GrantCursor := mkGrantCursor { GrantCursor_UpdatedAt : time; GrantCursor_ClientID : string }.

Section store.
Context {P : Platform}.

Definition GetConsentGrant (userID clientID : uuid) : Tx Grant :=
  row ← query_row "get consent grant" consent_ErrNotFound (GetConsentGrantByUserClient userID clientID);
  mret (mapConsentGrant row).

Definition boundedRepositoryPageLimit (limit : Z) : Z :=
  if limit <? 1 then 1 else if 101 <? limit then 101 else limit.

(** [cursorTimestamp]: the zero time is NULL. *)
Definition cursorTimestamp (value : time) : option time :=
  if Time.IsZero value then None else Some (timestamp value).

(** Row comparison of [(updated_at, client_id)], and the order of the list. *)
Definition listed_before (a b : time * string) : Prop := b.1 < a.1 ∨ (b.1 = a.1 ∧ String.leb b.2 a.2 = true).
#[export] Instance listed_before_dec : RelDecision listed_before.
Proof. intros a b. unfold listed_before. apply _. Defined.

Definition has_active_family (db : DB) (now : time) (grantID : uuid) : bool :=
  exists_row (λ f, (rf_ConsentGrantID f == grantID) && (rf_RevokedAt f == None) && (now <? rf_AbsoluteExpiresAt f))
    (refresh_token_families db).

(** The joined rows of one user after the cursor, newest first. *)
Definition grant_list_key (r : ConsentGrantRow * OidcClientRow) : time * string := (g_UpdatedAt r.1, cl_ClientID r.2).

Definition listed_order (a b : ConsentGrantRow * OidcClientRow) : Prop :=
  listed_before (grant_list_key a) (grant_list_key b).
#[export] Instance listed_order_dec : RelDecision listed_order.
Proof. intros a b. unfold listed_order. apply _. Defined.

Definition after_cursor (cursorTime : option time) (cursorClientID : string) (r : ConsentGrantRow * OidcClientRow) : bool :=
  match cursorTime with
  | None => true
  | Some t => (g_UpdatedAt r.1 <? t) || ((g_UpdatedAt r.1 =? t) && String.ltb (cl_ClientID r.2) cursorClientID)
  end.

Definition ListCurrentUserConsentGrants (now : time) (userID : uuid) (cursorTime : option time)
    (cursorClientID : string) (limit : Z) : Stmt (list (ConsentGrantRow * OidcClientRow * bool)) :=
  select_many (λ db,
    let joined := omap (λ g, match oidc_clients db !! g_ClientID g with Some c => Some (g, c) | None => None end)
                    (List.filter (λ g, g_UserID g == userID) (rows (consent_grants db))) in
    (λ r, (r, has_active_family db now (g_ID r.1))) <$>
      take (Z.to_nat limit) (merge_sort listed_order (List.filter (after_cursor cursorTime cursorClientID) joined))).

Definition ListCurrentUserGrants (userID : uuid) (cursor : GrantCursor) (limit : Z) (now : time) : Tx (list ManagedGrant) :=
  found ← query "list current user consent grants"
    (ListCurrentUserConsentGrants (timestamp now) userID (cursorTimestamp (GrantCursor_UpdatedAt cursor))
       (GrantCursor_ClientID cursor) (boundedRepositoryPageLimit limit));
  mret ((λ '(g, c, active), mkManagedGrant (cl_ClientID c) (cl_Name c) (cl_Status c) (g_Scopes g) (g_CreatedAt g)
           (g_UpdatedAt g) (g_RevokedAt g) active) <$> found).

Definition managedGrantFromRows (grant : Grant) (clientRow : OidcClientRow) (hasActiveOfflineFamily : bool) : ManagedGrant :=
  mkManagedGrant (cl_ClientID clientRow) (cl_Name clientRow) (cl_Status clientRow) (Grant_Scopes grant)
    (Grant_CreatedAt grant) (Grant_UpdatedAt grant) (Grant_RevokedAt grant) hasActiveOfflineFamily.

Definition revokeCurrentUserGrant_tx (input : RevokeInput) : Tx ManagedGrant :=
  locking (query_row "lock consent grant owner" consent_ErrNotFound (LockUserByID (RevokeInput_UserID input)));;
  clientRow ← locking (query_row "lock consent grant client" consent_ErrNotFound
    (LockOIDCClientByClientID (RevokeInput_PublicClientID input)));
  grantRow ← locking (query_row "lock current user consent grant" consent_ErrNotFound
    (LockConsentGrantByUserClient (RevokeInput_UserID input) (cl_ID clientRow)));
  let grant := mapConsentGrant grantRow in
  if bool_decide (is_Some (Grant_RevokedAt grant)) then mret (managedGrantFromRows grant clientRow false)
  else
    locking (query "lock consent grant refresh families" (LockUnrevokedRefreshTokenFamiliesByGrant (Grant_ID grant)));;
    locking (query "lock consent grant access tokens"
      (LockLiveAccessTokensByGrant (Grant_ID grant) (timestamp (RevokeInput_Now input))));;
    revokedRow ← query_row "revoke current user consent grant" consent_ErrNotFound
      (RevokeConsentGrant (timestamp (RevokeInput_Now input)) (Grant_ID grant));
    query "revoke consent grant refresh families"
      (RevokeRefreshTokenFamiliesByGrant (timestamp (RevokeInput_Now input)) (Grant_ID grant));;
    query "revoke consent grant access tokens"
      (RevokeLiveAccessTokensByGrant (timestamp (RevokeInput_Now input)) (Grant_ID grant));;
    insertProtocolAudit audit.ConsentGrantRevoked audit.ResultSuccess (RevokeInput_UserID input)
      audit.TargetConsentGrant (Grant_ID grant) (RevokeInput_RequestID input) ["revoked"] (RevokeInput_Now input);;
    mret (managedGrantFromRows (mapConsentGrant revokedRow) clientRow false).

Definition RevokeCurrentUserGrant (input : RevokeInput) : Tx ManagedGrant :=
  result ← inTx (revokeCurrentUserGrant_tx input);
  observeAuditEvents;;
  mret result.
End store.
