(* ===== verification/SessionStore.v ===== *)
(** * Login sessions in storage

    [internal/storage/postgres/session.go]: resolving a session, bounded activity, the
    owner's list, and the revocations, which take down every refresh family and live
    access token of the session's binding in the same transaction. *)

From S2P Require Import Prelude Errors Platform Pagination Scopes Domain AuditEvents Database Queries RegistryQueries.
From S2P Require Import BrowserQueries Tx StoreCommon TokenStore ConsentStore SessionTokens.

Section store.
Context {P : Platform}.

(** The normalized identifiers are not selected. *)
Definition mapPrincipal (row : LoginSessionRow * UserRow) : Principal :=
  let '(s, u) := row in
  mkPrincipal (ls_ID s) (ls_SessionBindingID s)
    (mkUser (ls_UserID s) (u_Subject u) (u_Username u) "" (u_DisplayName u) (u_Email u) "" (u_EmailVerified u)
       (u_Status u) (u_Role u) (u_CreatedAt u) (u_UpdatedAt u) (u_LastLoginAt u) (u_Version u))
    (ls_CsrfHash s) (ls_CsrfExpiresAt s) (ls_CreatedAt s) (ls_LastSeenAt s) (ls_AuthenticatedAt s) (ls_ExpiresAt s)
    (ls_IdleExpiresAt s) (ls_RevokedAt s).

Definition FindLoginSession (tokenHash : bytes) : Tx Principal :=
  row ← query_row "find login session" session_ErrNotFound (GetLoginSessionByTokenHash tokenHash);
  mret (mapPrincipal row).

Definition TouchLoginSession (id : uuid) (lastSeen idleExpires : time) : Tx unit :=
  exec_query "touch login session" (TouchLoginSession (timestamp lastSeen) (timestamp idleExpires) id).

Definition RotateSessionCSRF (id : uuid) (hash : bytes) (expires : time) : Tx unit :=
  exec_query "rotate session CSRF" (RotateLoginSessionCSRF hash (timestamp expires) id).

Definition session_summary (row : LoginSessionRow) : Summary :=
  mkSummary (ls_ID row) (ls_UserID row) "" "" (ls_CreatedAt row) (ls_LastSeenAt row) (ls_AuthenticatedAt row)
    (ls_ExpiresAt row) (ls_IdleExpiresAt row) (ls_RevokedAt row) (valueString (ls_RevokeReason row))
    (valueString (ls_IpPrefix row)) false.

Definition ListUserSessions (userID : uuid) (cursor : pagination.Cursor) (limit : Z) : Tx (list Summary) :=
  found ← query "list user sessions" (ListUserLoginSessions userID (cursorTimestamp (pagination.Cursor_Time cursor))
    (pagination.Cursor_ID cursor) (postgresPageLimit limit));
  mret (session_summary <$> found).

(** The loop that drops nil and repeated bindings. *)
Fixpoint unique_bindings (seen : list uuid) (bindingIDs : list uuid) : list uuid :=
  match bindingIDs with
  | [] => []
  | id :: rest =>
      if (id == uuid_Nil) || bool_decide (id ∈ seen) then unique_bindings seen rest
      else id :: unique_bindings (id :: seen) rest
  end.

Definition revokeSessionBindingsCascade (bindingIDs : list uuid) (now : time) (familyReason : string) : Tx unit :=
  let unique := unique_bindings [] bindingIDs in
  if unique == [] then mret ()
  else
    reject_if (Time.IsZero now) session_ErrNotFound;;
    locking (query "lock session refresh families" (LockUnrevokedRefreshTokenFamiliesByBindings unique));;
    locking (query "lock session access metadata" (LockLiveAccessTokensByBindings unique (timestamp now)));;
    query "revoke session refresh families"
      (RevokeRefreshTokenFamiliesByBindings (timestamp now) (pointerString familyReason) unique);;
    query "revoke session access metadata"
      (RevokeLiveAccessTokensByBindings (timestamp now) (pointerString familyReason) unique);;
    mret ().

Definition revokeSessionBindingCascade (bindingID : uuid) (now : time) (familyReason : string) : Tx unit :=
  reject_if ((bindingID == uuid_Nil) || Time.IsZero now) session_ErrNotFound;;
  revokeSessionBindingsCascade [bindingID] now familyReason.

(** Once the session row is locked: the cascade, the row, the audit event. *)
Definition revokeUserSession_tx (userID target : uuid) (now : time) (event : AuditEvent) : Tx unit :=
  sessionRow ← locking (query_row "lock user session for revocation" session_ErrNotFound (LockLoginSessionByID target));
  reject_if ((ls_UserID sessionRow != userID) || bool_decide (is_Some (ls_RevokedAt sessionRow))) session_ErrNotFound;;
  revokeSessionBindingCascade (ls_SessionBindingID sessionRow) now "session_revoked";;
  query_row "revoke user session" session_ErrNotFound
    (RevokeLoginSessionBindingByID (timestamp now) (pointerString "user") target);;
  insertAudit event.

Definition RevokeUserSession (userID target : uuid) (now : time) (event : AuditEvent) : Tx unit :=
  inTxWithAudit [event] (revokeUserSession_tx userID target now event).

(** The loop over the locked sessions. *)
Fixpoint revoke_locked (reason : string) (now : time) (op : string) (targets : list LoginSessionRow) : Tx unit :=
  match targets with
  | [] => mret ()
  | row :: rest =>
      query op (RevokeLoginSessionBindingByID (timestamp now) (pointerString reason) (ls_ID row));;
      revoke_locked reason now op rest
  end.

Definition revokeOtherUserSessions_tx (userID currentSession : uuid) (now : time) (event : AuditEvent) : Tx Z :=
  locked ← locking (query "lock other user sessions" (LockActiveLoginSessionsByUser userID));
  let others := List.filter (λ row, ls_ID row != currentSession) locked in
  revokeSessionBindingsCascade (ls_SessionBindingID <$> others) now "session_revoked";;
  revoke_locked "others" now "revoke other user session" others;;
  insertAudit event;;
  mret (Z.of_nat (length others)).

Definition RevokeOtherUserSessions (userID currentSession : uuid) (now : time) (event : AuditEvent) : Tx Z :=
  inTxWithAudit [event] (revokeOtherUserSessions_tx userID currentSession now event).

Definition revokeSessionByHash_tx (hash : bytes) (now : time) (reason : string) (event : AuditEvent) : Tx unit :=
  row ← locking (query_row "lock login session" session_ErrNotFound (LockLoginSessionByTokenHash hash));
  reject_if (bool_decide (is_Some (ls_RevokedAt row))) session_ErrNotFound;;
  revokeSessionBindingCascade (ls_SessionBindingID row) now "session_revoked";;
  query_row "revoke login session" session_ErrNotFound
    (RevokeLoginSessionBindingByID (timestamp now) (pointerString reason) (ls_ID row));;
  insertAudit event.

Definition RevokeSessionByHash (hash : bytes) (now : time) (reason : string) (event : AuditEvent) : Tx unit :=
  inTxWithAudit [event] (revokeSessionByHash_tx hash now reason event).

Definition cleanupSessions_tx (preAuthCutoff retiredCutoff : time) : Tx (Z * Z) :=
  preauthHeld ← locked_elsewhere;
  preauth ← query "clean pre-auth sessions" (DeleteExpiredPreAuthSessions preauthHeld (timestamp preAuthCutoff) cleanupBatchSize);
  loginHeld ← locked_elsewhere;
  login ← query "clean login sessions" (DeleteRetiredLoginSessions loginHeld (timestamp retiredCutoff) cleanupBatchSize);
  mret (preauth, login).

Definition CleanupSessions (fuel : nat) (preAuthCutoff retiredCutoff : time) : World → option (World * Z * option error) :=
  cleanup_loop fuel (cleanupSessions_tx preAuthCutoff retiredCutoff) 0.

Definition CountActiveSessions (now : time) : Tx Z :=
  query "count active login sessions" (CountActiveLoginSessions (timestamp now)).

Definition session_params (record : SessionRecord) : CreateLoginSessionParams :=
  mkCreateLoginSessionParams (SR_ID record) (SR_UserID record) (SR_SessionBindingID record) (SR_TokenHash record)
    (SR_CSRFHash record) (timestamp (SR_CSRFExpiresAt record)) (timestamp (SR_CreatedAt record))
    (timestamp (SR_LastSeenAt record)) (timestamp (SR_AuthenticatedAt record)) (timestamp (SR_ExpiresAt record))
    (timestamp (SR_IdleExpiresAt record)) (SR_UserAgentHash record) (pointerString (SR_IPPrefix record)).

Definition createLoginSession (record : SessionRecord) : Tx unit :=
  query "create login session" (CreateLoginSession (session_params record));;
  mret ().

Definition createPreAuthSession (record : PreAuthRecord) : Tx unit :=
  exec_query "create pre-auth session" (CreatePreAuthSession (PreAuth_ID record) (PreAuth_TokenHash record)
    (PreAuth_CSRFHash record) (PreAuth_AuthTransactionID record) (timestamp (PreAuth_CreatedAt record))
    (timestamp (PreAuth_ExpiresAt record)));;
  mret ().
End store.
