(* ===== verification/FlowStore.v ===== *)
(** * Browser transactions in storage

    [internal/storage/postgres/authflow.go]: creating, finding, consuming, rejecting,
    expiring and retiring the transactions that carry an authorization request through
    the browser. *)

From S2P Require Import Prelude Errors Platform Scopes Domain AuditEvents Database Queries RegistryQueries.
From S2P Require Import BrowserQueries Tx StoreCommon TokenStore.

Section store.
Context {P : Platform}.

Definition uint32ToInt64 (value : option Z) : option Z := value.

Definition authTransactionParams (value : Transaction) : CreateAuthTransactionParams :=
  mkCreateAuthTransactionParams (Transaction_ID value) (Transaction_TokenHash value) (Transaction_Kind value)
    (Transaction_ClientID value) (pointerString (Transaction_RedirectURI value)) (Transaction_Scopes value)
    (pointerString (Transaction_PKCEChallenge value)) (pointerString (Transaction_PKCEMethod value))
    (pointerString (Transaction_State value)) (pointerString (Transaction_Nonce value))
    (Transaction_PromptCreate value) (pointerString (Transaction_ResponseType value))
    (pointerString (Transaction_ResponseMode value)) (Transaction_Prompts value)
    (uint32ToInt64 (Transaction_MaxAgeSeconds value)) (timestamp (Transaction_CreatedAt value))
    (timestamp (Transaction_ExpiresAt value)).

Definition createAuthTransaction_tx (transaction : Transaction) (event : AuditEvent) : Tx unit :=
  query "create authorization transaction" (CreateAuthTransaction (authTransactionParams transaction));;
  insertAudit event.

Definition CreateAuthTransaction (transaction : Transaction) (event : AuditEvent) : Tx unit :=
  inTxWithAudit [event] (createAuthTransaction_tx transaction event).

Definition FindAuthTransaction (tokenHash : bytes) : Tx Transaction :=
  row ← query_row "find authorization transaction" authflow_ErrNotFound (GetAuthTransactionByTokenHash tokenHash);
  mret (mapAuthTransaction row).

Definition consumeAuthTransaction_tx (id : uuid) (now : time) (event : AuditEvent) : Tx Transaction :=
  row ← query_row "consume authorization transaction" authflow_ErrConsumed (ConsumeAuthTransaction (timestamp now) id);
  insertAudit event;;
  mret (mapAuthTransaction row).

Definition ConsumeAuthTransaction (id : uuid) (now : time) (event : AuditEvent) : Tx Transaction :=
  inTxWithAudit [event] (consumeAuthTransaction_tx id now event).

Definition rejectAuthTransaction_tx (id : uuid) (reason : string) (now : time) (event : AuditEvent) : Tx Transaction :=
  row ← query_row "reject authorization transaction" authflow_ErrConsumed
    (RejectAuthTransaction (timestamp now) (pointerString reason) id);
  insertAudit event;;
  mret (mapAuthTransaction row).

Definition RejectAuthTransaction (id : uuid) (reason : string) (now : time) (event : AuditEvent) : Tx Transaction :=
  inTxWithAudit [event] (rejectAuthTransaction_tx id reason now event).

(** The audit events of one expiry batch. *)
Fixpoint audit_expired (now : time) (ids : list uuid) : Tx unit :=
  match ids with
  | [] => mret ()
  | id :: rest =>
      event ← lift_sysrand (audit.New audit.AuthorizationTransactionExpired audit.ResultSuccess None
                              audit.TargetAuthTransaction (Some id) "" [] now);
      insertAudit event;;
      append_event event;;
      audit_expired now rest
  end.

Definition expireAuthTransactions_tx (now : time) : Tx Z :=
  held ← locked_elsewhere;
  ids ← query "expire authorization transactions" (ExpireAuthTransactions held (timestamp now) cleanupBatchSize);
  audit_expired now ids;;
  mret (Z.of_nat (length ids)).

Definition expire_batch (now : time) : Tx Z :=
  count ← inTx (expireAuthTransactions_tx now);
  observeAuditEvents;;
  mret count.

(** The [for] loop of a retirement that works on one table: batches until one comes
    back short.  [None] means the fuel ran out; an error comes with the total so far. *)
Fixpoint batch_loop (fuel : nat) (step : Tx Z) (total : Z) (w : World) : option (World * Z * option error) :=
  match fuel with
  | O => None
  | S fuel' =>
      match step w with
      | (w', inr e) => Some (w', total, Some e)
      | (w', inl count) =>
          if count <? cleanupBatchSize then Some (w', total + count, None)
          else batch_loop fuel' step (total + count) w'
      end
  end.

Definition ExpireAuthTransactions (fuel : nat) (now : time) : World → option (World * Z * option error) :=
  batch_loop fuel (expire_batch now) 0.

Definition retire_batch (cutoff : time) : Tx Z :=
  held ← locked_elsewhere;
  exec_query "clean authorization transactions" (DeleteRetiredAuthTransactions held (timestamp cutoff) cleanupBatchSize).

Definition CleanupAuthTransactions (fuel : nat) (cutoff : time) : World → option (World * Z * option error) :=
  batch_loop fuel (retire_batch cutoff) 0.
End store.
