(* ===== verification/LoginStore.v ===== *)
(** * Registration and login in storage

    [internal/storage/postgres/authn.go]: pre-authentication sessions with their attempt
    budget, the credential lookup, and the two commits, which create the login session,
    consume the flow and handle the session the browser presented: a session of the
    same user is rotated and keeps its binding, another user's session is revoked with
    everything that hangs on its binding. *)

From S2P Require Import Prelude Errors Platform Scopes Domain AuditEvents Database Queries RegistryQueries.
From S2P Require Import BrowserQueries Tx StoreCommon SessionTokens SessionStore.

(** [identity.PreparedUser], [identity.LoginRecord], [authn.RegisterCommit], [authn.LoginCommit]. *)
Record PreparedUser := mkPreparedUser { PreparedUser_User : User; PreparedUser_PasswordHash : string }.
Record LoginRecord := mkLoginRecord { LoginRecord_User : User; LoginRecord_PasswordHash : string }.

Record RegisterCommit := mkRegisterCommit {
  RegisterCommit_User : PreparedUser; RegisterCommit_Session : SessionRecord; RegisterCommit_PreAuthID : uuid;
  RegisterCommit_TransactionID : uuid; RegisterCommit_ConsumeTransaction : bool;
  RegisterCommit_ExistingSessionHash : bytes; RegisterCommit_RequestID : string;
  RegisterCommit_Events : list AuditEvent }.

Record LoginCommit := mkLoginCommit {
  LoginCommit_UserID : uuid; LoginCommit_Session : SessionRecord; LoginCommit_PreAuthID : uuid;
  LoginCommit_TransactionID : uuid; LoginCommit_ConsumeTransaction : bool; LoginCommit_ExistingSessionHash : bytes;
  LoginCommit_ReplacementHash : string; LoginCommit_Now : time; LoginCommit_RequestID : string;
  LoginCommit_Events : list AuditEvent }.

Section store.
Context {P : Platform}.

Definition CreatePreAuth (record : PreAuthRecord) : Tx unit := createPreAuthSession record.

Definition mapPreAuth (row : PreauthSessionRow) : PreAuthRecord :=
  mkPreAuthRecord (pa_ID row) (pa_TokenHash row) (pa_CsrfHash row) (pa_AuthTransactionID row) (pa_CreatedAt row)
    (pa_ExpiresAt row) (pa_ConsumedAt row) (pa_AttemptCount row).

Definition FindPreAuth (tokenHash : bytes) : Tx PreAuthRecord :=
  row ← query_row "find pre-auth session" session_ErrNotFound (GetPreAuthSessionByTokenHash tokenHash);
  mret (mapPreAuth row).

Definition ReservePreAuthAttempt (id : uuid) (now : time) (maximum : Z) : Tx unit :=
  exec_row "reserve pre-authentication attempt" session_ErrConsumed (ReservePreAuthAttempt id (timestamp now) maximum);;
  mret ().

Definition FindLoginRecord (identifier : string) : Tx LoginRecord :=
  row ← query_row "find credential for login" identity_ErrNotFound (FindCredentialForLogin identifier);
  mret (mkLoginRecord (mapUser row.1) (cr_PasswordHash row.2)).

Definition createUserParams (user : User) : CreateUserParams :=
  mkCreateUserParams (User_ID user) (User_Subject user) (User_Username user) (User_UsernameNormalized user)
    (User_DisplayName user) (User_Email user) (User_EmailNormalized user) (User_EmailVerified user) (User_Status user)
    (User_Role user) (timestamp (User_CreatedAt user)) (timestamp (User_UpdatedAt user)).

Definition isConstraint (e : driver_error) (code : string) : bool :=
  match e with PgError c => c == code | _ => false end.

Definition mapIdentityWriteError (operation : string) (e : driver_error) : error :=
  if isConstraint e "23505" then identity_ErrDuplicate
  else if isConstraint e "23514" || isConstraint e "23503" then identity_ErrInvalidInput
  else wrapError operation ErrorKindQuery e.

(** Both loops over the sorted identifiers: lock them all, then refuse a taken one. *)
Fixpoint lock_identifiers (identifiers : list string) : Tx unit :=
  match identifiers with
  | [] => mret ()
  | identifier :: rest =>
      locking (query "lock login identifier" (LockLoginIdentifier identifier));;
      lock_identifiers rest
  end.
Fixpoint refuse_taken (op : string) (taken : string → Stmt bool) (identifiers : list string) : Tx unit :=
  match identifiers with
  | [] => mret ()
  | identifier :: rest =>
      exists_ ← query op (taken identifier);
      reject_if exists_ identity_ErrDuplicate;;
      refuse_taken op taken rest
  end.

Definition createUserWithCredential (op_user op_credential : string) (user : PreparedUser) : Tx unit :=
  query_map (mapIdentityWriteError op_user) (CreateUser (createUserParams (PreparedUser_User user)));;
  query_map (mapIdentityWriteError op_credential) (CreateCredential (User_ID (PreparedUser_User user))
    (PreparedUser_PasswordHash user) (timestamp (User_CreatedAt (PreparedUser_User user)))
    (timestamp (User_UpdatedAt (PreparedUser_User user))));;
  mret ().

Fixpoint insert_audits (events : list AuditEvent) : Tx unit :=
  match events with [] => mret () | event :: rest => insertAudit event;; insert_audits rest end.

(** The session the browser presented, under its row lock, when it is still active. *)
Definition lock_existing (op : string) (hash : bytes) (now : time) : Tx (option LoginSessionRow) :=
  if negb (0 <? len hash) then mret None
  else
    found ← locking (query_opt op (LockLoginSessionByTokenHash hash));
    mret (match found with
          | Some existing =>
              if negb (bool_decide (is_Some (ls_RevokedAt existing))) && Time.After (ls_ExpiresAt existing) now &&
                 Time.After (ls_IdleExpiresAt existing) now
              then Some existing else None
          | None => None
          end).

Definition revoke_existing (op reason : string) (existing : LoginSessionRow) (actor : uuid) (requestID : string)
    (now : time) : Tx unit :=
  revoked ← query op (RevokeLoginSessionByID (timestamp now) (pointerString reason) (ls_ID existing));
  event ← lift_sysrand (audit.New audit.SessionRevoked audit.ResultSuccess (Some actor) audit.TargetSession
                          (Some (ls_ID revoked)) requestID ["revoked"] now);
  insertAudit event;;
  append_event event.

Definition commitRegistration_tx (commit : RegisterCommit) : Tx unit :=
  let user := PreparedUser_User (RegisterCommit_User commit) in
  let now := SR_CreatedAt (RegisterCommit_Session commit) in
  let identifiers := sort_Strings [User_UsernameNormalized user; User_EmailNormalized user] in
  lock_identifiers identifiers;;
  refuse_taken "check login identifier" LoginIdentifierExists identifiers;;
  createUserWithCredential "create registered user" "create registered credential" (RegisterCommit_User commit);;
  existing ← lock_existing "lock existing registration session" (RegisterCommit_ExistingSessionHash commit) now;
  match existing with
  | Some existing =>
      if ls_UserID existing != User_ID user then
        revokeSessionBindingCascade (ls_SessionBindingID existing) now "account_switch";;
        revoke_existing "revoke existing registration session" "account_switch" existing (ls_UserID existing)
          (RegisterCommit_RequestID commit) now
      else mret ()
  | None => mret ()
  end;;
  createLoginSession (RegisterCommit_Session commit);;
  query_row "consume registration pre-auth" session_ErrConsumed
    (ConsumePreAuthSession (timestamp now) (RegisterCommit_PreAuthID commit));;
  (if RegisterCommit_ConsumeTransaction commit then
     query_row "consume registration transaction" authflow_ErrConsumed
       (ConsumeAuthTransaction (timestamp now) (RegisterCommit_TransactionID commit));;
     mret ()
   else mret ());;
  insert_audits (RegisterCommit_Events commit).

(** The commit's own events, then those the transaction appended. *)
Definition observe_with (events : list AuditEvent) : Tx unit :=
  (λ w, (with_events (events ++ w_events w) w, inl ()));; observeAuditEvents.

Definition CommitRegistration (commit : RegisterCommit) : Tx unit :=
  reject_if ((SR_ID (RegisterCommit_Session commit) == uuid_Nil) ||
             (SR_UserID (RegisterCommit_Session commit) != User_ID (PreparedUser_User (RegisterCommit_User commit))) ||
             (SR_SessionBindingID (RegisterCommit_Session commit) != SR_ID (RegisterCommit_Session commit)))
    authn_ErrInvalidFlow;;
  inTx (commitRegistration_tx commit);;
  observe_with (RegisterCommit_Events commit).

(** [commit.Session.SessionBindingID = bindingID]. *)
Definition set_binding (bindingID : uuid) (r : SessionRecord) : SessionRecord :=
  mkSessionRecord (SR_ID r) (SR_UserID r) bindingID (SR_TokenHash r) (SR_CSRFHash r) (SR_CSRFExpiresAt r)
    (SR_CreatedAt r) (SR_LastSeenAt r) (SR_AuthenticatedAt r) (SR_ExpiresAt r) (SR_IdleExpiresAt r)
    (SR_UserAgentHash r) (SR_IPPrefix r).

(** What becomes of the presented session; the binding the new session gets. *)
Definition replace_existing (commit : LoginCommit) (existing : LoginSessionRow) : Tx uuid :=
  let now := LoginCommit_Now commit in
  if ls_UserID existing == LoginCommit_UserID commit then
    revoke_existing "rotate existing login session" "rotation" existing (LoginCommit_UserID commit)
      (LoginCommit_RequestID commit) now;;
    mret (ls_SessionBindingID existing)
  else
    revokeSessionBindingCascade (ls_SessionBindingID existing) now "account_switch";;
    revoke_existing "rotate existing login session" "account_switch" existing (ls_UserID existing)
      (LoginCommit_RequestID commit) now;;
    mret (SR_SessionBindingID (LoginCommit_Session commit)).

Definition commitLogin_tx (commit : LoginCommit) : Tx uuid :=
  let now := LoginCommit_Now commit in
  userRow ← locking (query_row "lock login user" identity_ErrInvalidCredentials (LockUserByID (LoginCommit_UserID commit)));
  reject_if (u_Status userRow != identity_StatusActive) identity_ErrInvalidCredentials;;
  query_row "consume login pre-auth" session_ErrConsumed
    (ConsumePreAuthSession (timestamp now) (LoginCommit_PreAuthID commit));;
  (if LoginCommit_ConsumeTransaction commit then
     query_row "consume login transaction" authflow_ErrConsumed
       (ConsumeAuthTransaction (timestamp now) (LoginCommit_TransactionID commit));;
     mret ()
   else mret ());;
  existing ← lock_existing "lock existing login session" (LoginCommit_ExistingSessionHash commit) now;
  bindingID ← (match existing with
               | Some existing => replace_existing commit existing
               | None => mret (SR_SessionBindingID (LoginCommit_Session commit))
               end : Tx uuid);
  (if LoginCommit_ReplacementHash commit != "" then
     query "rehash login credential"
       (UpdateCredentialHash (LoginCommit_ReplacementHash commit) (timestamp now) (LoginCommit_UserID commit))
   else mret ());;
  query "update last login" (UpdateLastLogin (timestamp now) (LoginCommit_UserID commit));;
  createLoginSession (set_binding bindingID (LoginCommit_Session commit));;
  insert_audits (LoginCommit_Events commit);;
  mret bindingID.

Definition CommitLogin (commit : LoginCommit) : Tx uuid :=
  reject_if ((SR_ID (LoginCommit_Session commit) == uuid_Nil) ||
             (SR_UserID (LoginCommit_Session commit) != LoginCommit_UserID commit) ||
             (SR_SessionBindingID (LoginCommit_Session commit) != SR_ID (LoginCommit_Session commit)) ||
             Time.IsZero (LoginCommit_Now commit)) authn_ErrInvalidFlow;;
  bindingID ← inTx (commitLogin_tx commit);
  observe_with (LoginCommit_Events commit);;
  mret bindingID.

Definition AppendAudit (event : AuditEvent) : Tx unit := λ w,
  match audit.Validate event with
  | Some e => (observeAuditWriteFailure (auditAppendError (Event_Type event) e) w, inr (auditAppendError (Event_Type event) e))
  | None =>
      match exec_query "append audit event" (CreateAuditEvent (mkCreateAuditEventParams (Event_ID event)
              (Event_Type event) (Event_Result event) (Event_ActorUserID event) (Event_TargetType event)
              (Event_TargetID event) (pointerString (Event_RequestID event)) (Event_ChangedFields event)
              (timestamp (Event_OccurredAt event)))) w with
      | (w', inl _) => (with_observed (w_observed w' ++ [(Event_Type event, Event_Result event)]) w', inl ())
      | (w', inr e) => (observeAuditWriteFailure (auditAppendError (Event_Type event) e) w', inr (auditAppendError (Event_Type event) e))
      end
  end.
End store.
