(* ===== verification/LogoutStore.v ===== *)
(** * Logout transactions in storage

    [internal/storage/postgres/logout.go]: the digest-backed logout transaction, its
    binding to the browser session that opened it, and its completion, which either
    cancels it or revokes the session with everything that hangs on its binding. *)

From S2P Require Import Prelude Errors Platform Scopes Domain AuditEvents Database Queries RegistryQueries.
From S2P Require Import BrowserQueries Tx StoreCommon TokenStore FlowStore.

(** [logout.Transaction], [BindInput], [CompleteInput], [CompletionCandidate]. *)
Record LogoutTransaction := mkLogoutTransaction {
  LT_ID : uuid; LT_LookupHash : bytes; LT_Stage : string; LT_CSRFHash : bytes; LT_VerifiedClientID : option uuid;
  LT_PostLogoutRedirectURI : string; LT_State : string; LT_HintSubject : string; LT_UserID : option uuid;
  LT_SessionID : option uuid; LT_SessionBindingID : option uuid; LT_CreatedAt : time; LT_ExpiresAt : time;
  LT_BoundAt : option time; LT_ConsumedAt : option time; LT_AttemptCount : Z }.

Record BindInput := mkBindInput {
  BindInput_LookupHash : bytes; BindInput_CSRFHash : bytes; BindInput_UserID : uuid; BindInput_Subject : string;
  BindInput_SessionID : uuid; BindInput_SessionBindingID : uuid; BindInput_Now : time; BindInput_MaxActive : Z;
  BindInput_MaxAttempts : Z }.

Definition DecisionConfirm : string := "confirm".
Definition DecisionCancel : string := "cancel".

Record CompleteInput := mkCompleteInput {
  CompleteInput_LookupHash : bytes; CompleteInput_CSRFHash : bytes; CompleteInput_Decision : string;
  CompleteInput_UserID : uuid; CompleteInput_SessionID : uuid; CompleteInput_SessionBindingID : uuid;
  CompleteInput_RequestID : string; CompleteInput_Now : time; CompleteInput_MaxAttempts : Z }.

Record CompletionCandidate := mkCompletionCandidate {
  Candidate_Confirmed : bool; Candidate_VerifiedClientID : option uuid; Candidate_PostLogoutRedirectURI : string;
  Candidate_State : string }.

Section store.
Context {P : Platform}.

Definition mapLogoutTransaction (row : LogoutTransactionRow) : LogoutTransaction :=
  mkLogoutTransaction (lo_ID row) (lo_LookupHash row) (lo_Stage row) (default "" (lo_CsrfHash row)) (lo_VerifiedClientID row)
    (valueString (lo_PostLogoutRedirectUri row)) (valueString (lo_StateValue row)) (valueString (lo_HintSubject row))
    (lo_UserID row) (lo_SessionID row) (lo_SessionBindingID row) (lo_CreatedAt row) (lo_ExpiresAt row) (lo_BoundAt row)
    (lo_ConsumedAt row) (lo_AttemptCount row).

Definition sameDigest (left right : bytes) : bool := (len left == len right) && (len left == 32) && (left == right).

Definition CreateLogoutTransaction (value : LogoutTransaction) : Tx unit :=
  reject_if ((LT_ID value == uuid_Nil) || (len (LT_LookupHash value) != 32) || (LT_Stage value != StagePreConfirm) ||
             Time.IsZero (LT_CreatedAt value) || negb (Time.After (LT_ExpiresAt value) (LT_CreatedAt value)))
    logout_ErrInvalid;;
  exec_query "create logout transaction" (CreateLogoutTransaction (LT_ID value) (LT_LookupHash value)
    (LT_VerifiedClientID value) (pointerString (LT_PostLogoutRedirectURI value)) (pointerString (LT_State value))
    (pointerString (LT_HintSubject value)) (timestamp (LT_CreatedAt value)) (timestamp (LT_ExpiresAt value)));;
  mret ().

(** The presented session is the locked row's, and live. *)
Definition stale_session (row : LoginSessionRow) (userID bindingID : uuid) (now : time) : bool :=
  (ls_UserID row != userID) || (ls_SessionBindingID row != bindingID) || bool_decide (is_Some (ls_RevokedAt row)) ||
  negb (Time.Before now (ls_ExpiresAt row)) || negb (Time.Before now (ls_IdleExpiresAt row)).

(** [transaction.UserID], [SessionID] and [SessionBindingID] are those of the request. *)
Definition foreign_authority (t : LogoutTransaction) (userID sessionID bindingID : uuid) : bool :=
  (LT_UserID t != Some userID) || (LT_SessionID t != Some sessionID) || (LT_SessionBindingID t != Some bindingID).

Definition bindLogoutTransaction_tx (input : BindInput) : Tx LogoutTransaction :=
  row ← locking (query_row "lock logout transaction for bind" logout_ErrNotFound
    (LockLogoutTransactionByLookupHash (BindInput_LookupHash input)));
  let transaction := mapLogoutTransaction row in
  reject_if (negb (sameDigest (LT_LookupHash transaction) (BindInput_LookupHash input)) ||
             bool_decide (is_Some (LT_ConsumedAt transaction)) ||
             negb (Time.Before (BindInput_Now input) (LT_ExpiresAt transaction)) ||
             (BindInput_MaxAttempts input <=? LT_AttemptCount transaction)) logout_ErrNotFound;;
  sessionRow ← locking (query_row "lock browser session for logout bind" logout_ErrNotFound
    (LockLoginSessionByID (BindInput_SessionID input)));
  reject_if (stale_session sessionRow (BindInput_UserID input) (BindInput_SessionBindingID input) (BindInput_Now input))
    logout_ErrNotFound;;
  if LT_Stage transaction == StagePreConfirm then
    count ← query "count live logout transactions"
      (CountLiveBoundLogoutTransactionsBySession (BindInput_SessionID input) (timestamp (BindInput_Now input)));
    reject_if (BindInput_MaxActive input <=? count) logout_ErrCapacity;;
    bound ← query_row "bind logout transaction" logout_ErrNotFound
      (BindPreConfirmLogoutTransaction (mkBindLogoutParams (BindInput_CSRFHash input) (BindInput_UserID input)
         (BindInput_SessionID input) (BindInput_SessionBindingID input) (timestamp (BindInput_Now input))
         (pointerString (BindInput_Subject input)) (LT_ID transaction)));
    mret (mapLogoutTransaction bound)
  else if LT_Stage transaction == StageBoundConfirmable then
    reject_if (foreign_authority transaction (BindInput_UserID input) (BindInput_SessionID input)
                 (BindInput_SessionBindingID input)) logout_ErrNotFound;;
    rotated ← query_row "rotate logout confirmation proof" logout_ErrNotFound
      (RotateBoundLogoutTransactionCSRF (BindInput_CSRFHash input) (LT_ID transaction) (timestamp (BindInput_Now input))
         (BindInput_UserID input) (BindInput_SessionID input) (BindInput_SessionBindingID input));
    mret (mapLogoutTransaction rotated)
  else throw logout_ErrNotFound.

Definition BindLogoutTransaction (input : BindInput) : Tx LogoutTransaction :=
  reject_if ((len (BindInput_LookupHash input) != 32) || (len (BindInput_CSRFHash input) != 32) ||
             (BindInput_UserID input == uuid_Nil) || (BindInput_SessionID input == uuid_Nil) ||
             (BindInput_SessionBindingID input == uuid_Nil) || Time.IsZero (BindInput_Now input) ||
             (BindInput_MaxActive input <? 1) || (5 <? BindInput_MaxActive input) ||
             (BindInput_MaxAttempts input <? 1) || (10 <? BindInput_MaxAttempts input)) logout_ErrNotFound;;
  inTx (bindLogoutTransaction_tx input).

(** The revocations and events of a confirmed logout. *)
Definition confirmLogout (input : CompleteInput) (transactionID : uuid) : Tx unit :=
  let now := timestamp (CompleteInput_Now input) in
  let bindingID := CompleteInput_SessionBindingID input in
  locking (query "lock logout refresh families" (LockUnrevokedRefreshTokenFamiliesByBinding bindingID));;
  locking (query "lock logout access metadata" (LockLiveAccessTokensByBinding (Some bindingID) now));;
  query "revoke logout refresh families" (RevokeRefreshTokenFamiliesByBinding now (pointerString "session_revoked") bindingID);;
  query "revoke logout access metadata"
    (RevokeLiveAccessTokensByBinding now (pointerString "session_revoked") (Some bindingID));;
  query_row "revoke logout browser session" logout_ErrNotFound
    (RevokeLoginSessionBindingByID now (pointerString "logout") (CompleteInput_SessionID input));;
  query_row "confirm logout transaction" logout_ErrNotFound (ConfirmLogoutTransaction now transactionID);;
  sessionEvent ← lift_sysrand (audit.New audit.SessionRevoked audit.ResultSuccess (Some (CompleteInput_UserID input))
    audit.TargetSession (Some (CompleteInput_SessionID input)) (CompleteInput_RequestID input) ["revoked"] (CompleteInput_Now input));
  logoutEvent ← lift_sysrand (audit.New audit.RPLogoutCompleted audit.ResultSuccess (Some (CompleteInput_UserID input))
    audit.TargetLogoutTransaction (Some transactionID) (CompleteInput_RequestID input) ["revoked"] (CompleteInput_Now input));
  insertAudit sessionEvent;;
  insertAudit logoutEvent;;
  append_event sessionEvent;;
  append_event logoutEvent.

(** A failed proof is counted and committed; [committedOutcome] is the right summand. *)
Definition completeLogoutTransaction_tx (input : CompleteInput) : Tx (CompletionCandidate + error) :=
  row ← locking (query_row "lock logout transaction for completion" logout_ErrNotFound
    (LockLogoutTransactionByLookupHash (CompleteInput_LookupHash input)));
  let transaction := mapLogoutTransaction row in
  reject_if (negb (sameDigest (LT_LookupHash transaction) (CompleteInput_LookupHash input)) ||
             (LT_Stage transaction != StageBoundConfirmable) || bool_decide (is_Some (LT_ConsumedAt transaction)) ||
             negb (Time.Before (CompleteInput_Now input) (LT_ExpiresAt transaction)) ||
             (CompleteInput_MaxAttempts input <=? LT_AttemptCount transaction) ||
             foreign_authority transaction (CompleteInput_UserID input) (CompleteInput_SessionID input)
               (CompleteInput_SessionBindingID input)) logout_ErrNotFound;;
  sessionRow ← locking (query_row "lock browser session for logout completion" logout_ErrNotFound
    (LockLoginSessionByID (CompleteInput_SessionID input)));
  reject_if (stale_session sessionRow (CompleteInput_UserID input) (CompleteInput_SessionBindingID input)
               (CompleteInput_Now input)) logout_ErrNotFound;;
  if negb (sameDigest (LT_CSRFHash transaction) (CompleteInput_CSRFHash input)) then
    (if LT_AttemptCount transaction <? CompleteInput_MaxAttempts input then
       query_opt "record logout proof failure"
         (IncrementLogoutTransactionAttempt (LT_ID transaction) (CompleteInput_MaxAttempts input));;
       mret ()
     else mret ());;
    mret (inr logout_ErrCSRF)
  else
    let candidate := mkCompletionCandidate (CompleteInput_Decision input == DecisionConfirm)
      (LT_VerifiedClientID transaction) (LT_PostLogoutRedirectURI transaction) (LT_State transaction) in
    if CompleteInput_Decision input == DecisionCancel then
      query_row "cancel logout transaction" logout_ErrNotFound
        (CancelLogoutTransaction (timestamp (CompleteInput_Now input)) (LT_ID transaction));;
      mret (inl candidate)
    else
      confirmLogout input (LT_ID transaction);;
      mret (inl candidate).

Definition CompleteLogoutTransaction (input : CompleteInput) : Tx CompletionCandidate :=
  reject_if ((len (CompleteInput_LookupHash input) != 32) || (len (CompleteInput_CSRFHash input) != 32) ||
             (CompleteInput_UserID input == uuid_Nil) || (CompleteInput_SessionID input == uuid_Nil) ||
             (CompleteInput_SessionBindingID input == uuid_Nil) || Time.IsZero (CompleteInput_Now input) ||
             ((CompleteInput_Decision input != DecisionConfirm) && (CompleteInput_Decision input != DecisionCancel)) ||
             (CompleteInput_MaxAttempts input <? 1) || (10 <? CompleteInput_MaxAttempts input)) logout_ErrNotFound;;
  outcome ← inTx (completeLogoutTransaction_tx input);
  observeAuditEvents;;
  match outcome with inl candidate => mret candidate | inr committedOutcome => throw committedOutcome end.

Definition cleanupLogout_tx (now terminalCutoff : time) : Tx Z :=
  held ← locked_elsewhere;
  query "clean logout transactions"
    (DeleteRetiredLogoutTransactions held (timestamp now) (timestamp terminalCutoff) cleanupBatchSize).

Definition CleanupLogoutTransactions (fuel : nat) (now terminalCutoff : time) : World → option (World * Z * option error) :=
  batch_loop fuel (inTx (cleanupLogout_tx now terminalCutoff)) 0.
End store.
