(* ===== verification/UserStore.v ===== *)
(** * User administration in storage

    [internal/storage/postgres/admin.go]: the first administrator, managed users with
    their unambiguous login identifiers, the update that may disable a user or change
    the role, and the administrator's session revocations and lists. *)

From S2P Require Import Prelude Errors Platform Pagination Scopes Domain AuditEvents Database Queries RegistryQueries.
From S2P Require Import BrowserQueries Tx StoreCommon ConsentStore SessionTokens SessionStore LoginStore.

(** [admin.UpdateUserCommit]. *)
Record UpdateUserCommit := mkUpdateUserCommit {
  UpdateUser_Actor : uuid; UpdateUser_Updated : User; UpdateUser_Changed : list string; UpdateUser_RevokeSessions : bool;
  UpdateUser_Event : AuditEvent; UpdateUser_SessionEvent : option AuditEvent }.

Section store.
Context {P : Platform}.

Definition HasAdmin : Tx bool := query "check administrator existence" HasAdmin.

Definition lockAndCheckIdentifiers (user : User) (excludeID : uuid) : Tx unit :=
  let identifiers := sort_Strings [User_UsernameNormalized user; User_EmailNormalized user] in
  lock_identifiers identifiers;;
  refuse_taken "check login identifier ownership"
    (if excludeID == uuid_Nil then LoginIdentifierExists else LoginIdentifierOwnedByOther excludeID) identifiers.

Definition bootstrapAdmin_tx (prepared : PreparedUser) (event : AuditEvent) : Tx unit :=
  locking (query "lock administrator bootstrap" LockAdminSet);;
  exists_ ← query "recheck administrator existence" RegistryQueries.HasAdmin;
  reject_if exists_ identity_ErrBootstrapExists;;
  lockAndCheckIdentifiers (PreparedUser_User prepared) uuid_Nil;;
  createUserWithCredential "create bootstrap administrator" "create bootstrap credential" prepared;;
  insertAudit event.

Definition BootstrapAdmin (prepared : PreparedUser) (event : AuditEvent) : Tx unit :=
  inTxWithAudit [event] (bootstrapAdmin_tx prepared event).

Definition GetUser (id : uuid) : Tx User :=
  row ← query_row "get user" identity_ErrNotFound (GetUserByID id);
  mret (mapUser row).

Definition ListUsers (search : string) (cursor : pagination.Cursor) (limit : Z) : Tx (list User) :=
  found ← query "list users" (ListUsers search (cursorTimestamp (pagination.Cursor_Time cursor))
    (pagination.Cursor_ID cursor) (postgresPageLimit limit));
  mret (mapUser <$> found).

Definition createManagedUser_tx (prepared : PreparedUser) (event : AuditEvent) : Tx unit :=
  lockAndCheckIdentifiers (PreparedUser_User prepared) uuid_Nil;;
  createUserWithCredential "create managed user" "create managed credential" prepared;;
  insertAudit event.

Definition CreateManagedUser (prepared : PreparedUser) (event : AuditEvent) : Tx unit :=
  inTxWithAudit [event] (createManagedUser_tx prepared event).

(** An UPDATE whose missing row has its own meaning and whose constraint errors are mapped. *)
Definition query_row_map {A} (missing : error) (reading : driver_error → error) (s : Stmt A) : Tx A :=
  query_map (λ e, match e with NoRows => missing | _ => reading e end) s.

(** [current.Role == RoleAdmin && ... && (updated is not an active administrator)]. *)
Definition loses_admin (current updated : User) : bool :=
  (User_Role current == RoleAdmin) && (User_Status current == identity_StatusActive) &&
  ((User_Role updated != RoleAdmin) || (User_Status updated != identity_StatusActive)).

Definition keepLastAdmin (current updated : User) : Tx unit :=
  if loses_admin current updated then
    count ← query "count active administrators" CountActiveAdmins;
    reject_if (count <=? 1) identity_ErrLastAdmin
  else mret ().

Definition update_user_params (updated : User) : UpdateUserParams :=
  mkUpdateUserParams (User_Username updated) (User_UsernameNormalized updated) (User_DisplayName updated)
    (User_Email updated) (User_EmailNormalized updated) (User_Status updated) (User_Role updated)
    (timestamp (User_UpdatedAt updated)) (User_ID updated) (User_Version updated).

(** Disabling a user takes down every family and live access token of the user. *)
Definition revokeDisabledUser (updated : User) : Tx unit :=
  let now := timestamp (User_UpdatedAt updated) in
  locking (query "lock disabled user refresh families" (LockUnrevokedRefreshTokenFamiliesByUser (User_ID updated)));;
  locking (query "lock disabled user access metadata" (LockLiveAccessTokensByUser (User_ID updated) now));;
  query "revoke disabled user refresh families"
    (RevokeRefreshTokenFamiliesByUser now (pointerString "user_disabled") (User_ID updated));;
  query "revoke disabled user access metadata"
    (RevokeLiveAccessTokensByUser now (pointerString "user_disabled") (User_ID updated));;
  mret ().

Definition insert_optional (event : option AuditEvent) : Tx unit :=
  match event with Some event => insertAudit event | None => mret () end.

Definition revokeAfterUserChange (updated : User) (sessionRows : list LoginSessionRow) : Tx unit :=
  let disabled := User_Status updated == identity_StatusDisabled in
  revokeSessionBindingsCascade (ls_SessionBindingID <$> sessionRows) (User_UpdatedAt updated)
    (if disabled then "user_disabled" else "session_revoked");;
  revoke_locked (if disabled then "user_disabled" else "role_changed") (User_UpdatedAt updated)
    "revoke session after user change" sessionRows.

Definition updateManagedUser_tx (commit : UpdateUserCommit) : Tx User :=
  let updated := UpdateUser_Updated commit in
  locking (query "lock administrator set" LockAdminSet);;
  currentRow ← locking (query_row "lock managed user" identity_ErrNotFound (LockUserByID (User_ID updated)));
  keepLastAdmin (mapUser currentRow) updated;;
  lockAndCheckIdentifiers updated (User_ID updated);;
  row ← query_row_map identity_ErrConflict (mapIdentityWriteError "update managed user") (UpdateUser (update_user_params updated));
  sessionRows ← (if UpdateUser_RevokeSessions commit
                 then locking (query "lock sessions after user change" (LockActiveLoginSessionsByUser (User_ID updated)))
                 else mret [] : Tx (list LoginSessionRow));
  (if User_Status updated == identity_StatusDisabled then revokeDisabledUser updated else mret ());;
  (if UpdateUser_RevokeSessions commit
   then revokeAfterUserChange updated sessionRows;; insert_optional (UpdateUser_SessionEvent commit)
   else mret ());;
  insertAudit (UpdateUser_Event commit);;
  mret (mapUser row).

Definition UpdateManagedUser (commit : UpdateUserCommit) : Tx User :=
  let events := UpdateUser_Event commit ::
    (if UpdateUser_RevokeSessions commit then option_list (UpdateUser_SessionEvent commit) else []) in
  inTxWithAudit events (updateManagedUser_tx commit).

Definition revokeAllManagedUserSessions_tx (userID : uuid) (now : time) (event : AuditEvent) : Tx Z :=
  query_row "find user for session revocation" identity_ErrNotFound (GetUserByID userID);;
  locked ← locking (query "lock all managed user sessions" (LockActiveLoginSessionsByUser userID));
  revokeSessionBindingsCascade (ls_SessionBindingID <$> locked) now "session_revoked";;
  revoke_locked "admin" now "revoke managed user session" locked;;
  insertAudit event;;
  mret (Z.of_nat (length locked)).

Definition RevokeAllManagedUserSessions (userID : uuid) (now : time) (event : AuditEvent) : Tx Z :=
  inTxWithAudit [event] (revokeAllManagedUserSessions_tx userID now event).

Definition ListManagedSessions (cursor : pagination.Cursor) (limit : Z) : Tx (list Summary) :=
  found ← query "list managed sessions" (ListLoginSessionsAdmin (cursorTimestamp (pagination.Cursor_Time cursor))
    (pagination.Cursor_ID cursor) (postgresPageLimit limit));
  mret ((λ '(s, u), mkSummary (ls_ID s) (ls_UserID s) (u_Username u) (u_Status u) (ls_CreatedAt s) (ls_LastSeenAt s)
          (ls_AuthenticatedAt s) (ls_ExpiresAt s) (ls_IdleExpiresAt s) (ls_RevokedAt s) (valueString (ls_RevokeReason s))
          (valueString (ls_IpPrefix s)) false) <$> found).

Definition revokeManagedSession_tx (id : uuid) (now : time) (event : AuditEvent) : Tx unit :=
  row ← locking (query_row "lock managed session" session_ErrNotFound (LockLoginSessionByID id));
  reject_if (bool_decide (is_Some (ls_RevokedAt row))) session_ErrNotFound;;
  revokeSessionBindingCascade (ls_SessionBindingID row) now "session_revoked";;
  query "revoke managed session" (RevokeLoginSessionBindingByID (timestamp now) (pointerString "admin") id);;
  insertAudit event.

Definition RevokeManagedSession (id : uuid) (now : time) (event : AuditEvent) : Tx unit :=
  inTxWithAudit [event] (revokeManagedSession_tx id now event).

Definition ListAuditEvents (eventType : string) (cursor : pagination.Cursor) (limit : Z) : Tx (list AuditEvent) :=
  found ← query "list audit events" (ListAuditEvents eventType (cursorTimestamp (pagination.Cursor_Time cursor))
    (pagination.Cursor_ID cursor) (postgresPageLimit limit));
  mret ((λ row, mkAuditEvent (ae_ID row) (ae_EventType row) (ae_Result row) (ae_ActorUserID row) (ae_TargetType row)
          (ae_TargetID row) (valueString (ae_RequestID row)) (ae_ChangedFields row) (ae_OccurredAt row)) <$> found).
End store.
