(* ===== verification/ClientStore.v ===== *)
(** * The client registry in storage

    [internal/storage/postgres/client.go]: creating, reading, listing and updating
    clients with their redirect URIs, logout URIs and scopes, the revocations an update
    triggers, and secret rotation. *)

From S2P Require Import Prelude Errors Platform Pagination Scopes Domain AuditEvents Database Queries RegistryQueries.
From S2P Require Import Tx StoreCommon ConsentStore LoginStore UserStore.

(** [client.SecretRecord]. *)
Record SecretRecord := mkSecretRecord {
  SecretRecord_ID : uuid; SecretRecord_ClientID : uuid; SecretRecord_SecretHash : bytes; SecretRecord_CreatedAt : time }.

Section store.
Context {P : Platform}.

Definition mapClientWriteError (operation : string) (e : driver_error) : error :=
  if isConstraint e "23505" then client_ErrConflict
  else if isConstraint e "23514" || isConstraint e "23503" then client_ErrInvalid
  else wrapError operation ErrorKindQuery e.

Definition createClientParams (value : Client) : CreateOIDCClientParams :=
  mkCreateOIDCClientParams (Client_ID value) (Client_ClientID value) (Client_Type value)
    (Client_TokenEndpointAuthMethod value) (Client_Name value) (Client_Description value)
    (pointerString (Client_LogoURI value)) (Client_Status value) (Client_RegistrationEnabled value)
    (timestamp (Client_CreatedAt value)) (timestamp (Client_UpdatedAt value)).

(** One of the three insertion loops. *)
Fixpoint create_children (op : string) (create : string → Stmt unit) (values : list string) : Tx unit :=
  match values with
  | [] => mret ()
  | value :: rest => query_map (mapClientWriteError op) (create value);; create_children op create rest
  end.

Definition deleteClientChildren (id : uuid) : Tx unit :=
  query "replace client redirect URIs" (DeleteOIDCClientRedirectURIs id);;
  query "replace client logout URIs" (DeleteOIDCClientLogoutURIs id);;
  query "replace client scopes" (DeleteOIDCClientScopes id).

Definition replaceClientChildren (value : Client) (replace : bool) : Tx unit :=
  let now := timestamp (Client_UpdatedAt value) in
  (if replace then deleteClientChildren (Client_ID value) else mret ());;
  create_children "create client redirect URI" (λ uri, CreateOIDCClientRedirectURI (Client_ID value) uri now) (Client_RedirectURIs value);;
  create_children "create client logout URI" (λ uri, CreateOIDCClientLogoutURI (Client_ID value) uri now) (Client_LogoutURIs value);;
  create_children "create client scope" (λ scope, CreateOIDCClientScope (Client_ID value) scope now) (Client_Scopes value).

Definition createClient_tx (value : Client) (secret : option SecretRecord) (event : AuditEvent) : Tx unit :=
  query_map (mapClientWriteError "create client") (CreateOIDCClient (createClientParams value));;
  replaceClientChildren value false;;
  match secret with
  | Some secret =>
      query_map (mapClientWriteError "create client secret") (CreateOIDCClientSecret (SecretRecord_ID secret)
        (SecretRecord_ClientID secret) (SecretRecord_SecretHash secret) (timestamp (SecretRecord_CreatedAt secret)));;
      mret ()
  | None => mret ()
  end;;
  insertAudit event.

Definition CreateClient (value : Client) (secret : option SecretRecord) (event : AuditEvent) : Tx unit :=
  inTxWithAudit [event] (createClient_tx value secret event).

Definition GetClient (id : uuid) : Tx Client := inTx (loadClient id).

Definition getClientByPublicID_tx (publicID : string) : Tx Client :=
  row ← query_row "get client by public identifier" client_ErrNotFound (GetOIDCClientByClientID publicID);
  loadClientChildren (mapClient row).
Definition GetClientByPublicID (publicID : string) : Tx Client := inTx (getClientByPublicID_tx publicID).

Fixpoint load_each (rows : list OidcClientRow) : Tx (list Client) :=
  match rows with
  | [] => mret []
  | row :: rest => value ← loadClientChildren (mapClient row); others ← load_each rest; mret (value :: others)
  end.

Definition listClients_tx (cursor : pagination.Cursor) (limit : Z) : Tx (list Client) :=
  found ← query "list clients" (ListOIDCClients (cursorTimestamp (pagination.Cursor_Time cursor))
    (pagination.Cursor_ID cursor) (postgresPageLimit limit));
  load_each found.
Definition ListClients (cursor : pagination.Cursor) (limit : Z) : Tx (list Client) := inTx (listClients_tx cursor limit).

Definition update_client_params (value : Client) : UpdateOIDCClientParams :=
  mkUpdateOIDCClientParams (Client_Name value) (Client_Description value) (pointerString (Client_LogoURI value))
    (Client_Status value) (Client_RegistrationEnabled value) (timestamp (Client_UpdatedAt value)) (Client_ID value)
    (Client_Version value).

(** What an update revokes: everything of a disabled client, the refresh side when
    offline_access is withdrawn. *)
Definition revokeClientTokens (value : Client) (clientDisabled : bool) : Tx unit :=
  let now := timestamp (Client_UpdatedAt value) in
  let reason := pointerString (if clientDisabled then "client_disabled" else "offline_scope_removed") in
  locking (query "lock client refresh families" (LockUnrevokedRefreshTokenFamiliesByClient (Client_ID value)));;
  (if clientDisabled
   then locking (query "lock client access metadata" (LockLiveAccessTokensByClient (Client_ID value) now))
   else locking (query "lock client refresh-bound access metadata" (LockLiveRefreshAccessTokensByClient (Client_ID value) now)));;
  query "revoke client refresh families" (RevokeRefreshTokenFamiliesByClient now reason (Client_ID value));;
  (if clientDisabled
   then query "revoke client access metadata" (RevokeLiveAccessTokensByClient now reason (Client_ID value))
   else query "revoke client refresh-bound access metadata" (RevokeLiveRefreshAccessTokensByClient now reason (Client_ID value)));;
  mret ().

Definition updateClient_tx (value : Client) (event : AuditEvent) : Tx unit :=
  locking (query_row "lock client" client_ErrNotFound (LockOIDCClientByID (Client_ID value)));;
  currentScopes ← query "read client scopes before update" (ListOIDCClientScopes (Client_ID value));
  query_row_map client_ErrConflict (mapClientWriteError "update client") (UpdateOIDCClient (update_client_params value));;
  replaceClientChildren value true;;
  let clientDisabled := Client_Status value == client_StatusDisabled in
  let offlineScopeRemoved := bool_decide ("offline_access" ∈ currentScopes) &&
                             negb (bool_decide ("offline_access" ∈ Client_Scopes value)) in
  (if clientDisabled || offlineScopeRemoved then revokeClientTokens value clientDisabled else mret ());;
  insertAudit event.

Definition UpdateClient (value : Client) (event : AuditEvent) : Tx unit :=
  inTxWithAudit [event] (updateClient_tx value event).

Definition rotateClientSecret_tx (id : uuid) (secret : SecretRecord) (now : time) (event : AuditEvent) : Tx unit :=
  row ← locking (query_row "lock client for secret rotation" client_ErrNotFound (LockOIDCClientByID id));
  reject_if (cl_ClientType row != TypeConfidential) client_ErrPublicSecret;;
  query "revoke old client secrets" (RevokeActiveOIDCClientSecrets (timestamp now) id);;
  query_map (mapClientWriteError "create rotated client secret") (CreateOIDCClientSecret (SecretRecord_ID secret) id
    (SecretRecord_SecretHash secret) (timestamp (SecretRecord_CreatedAt secret)));;
  insertAudit event.

Definition RotateClientSecret (id : uuid) (secret : SecretRecord) (now : time) (event : AuditEvent) : Tx unit :=
  inTxWithAudit [event] (rotateClientSecret_tx id secret now event).

Definition GetClientSecretHashes (clientID : string) : Tx (Client * list bytes) :=
  row ← query_row "find client for secret validation" client_ErrNotFound (GetOIDCClientByClientID clientID);
  hashes ← query "list active client secret digests" (ListActiveOIDCClientSecretHashes (cl_ID row));
  value ← GetClient (cl_ID row);
  mret (value, hashes).
End store.
