(* ===== verification/Invariants.v ===== *)
(** * Schema invariants

    [db_ok] collects what the tables' keys, CHECKs, unique indexes and triggers are
    there to guarantee; every statement preserves it, so every store operation does,
    whatever the driver fails at. *)

From S2P Require Import Prelude Errors Platform Scopes Domain AuditEvents Database Queries RegistryQueries BrowserQueries.
From S2P Require Import Tx StoreCommon.

(** ** Predicates on a table *)

Section table.
Context {R : Type}.
Implicit Types (t : gmap uuid R) (r : R).

Definition keyed (id : R → uuid) (t : gmap uuid R) : Prop := map_Forall (λ k r, id r = k) t.
Definition checked (chk : R → bool) (t : gmap uuid R) : Prop := map_Forall (λ _ r, chk r = true) t.
Definition unique_on (conflict : R → R → bool) (t : gmap uuid R) : Prop :=
  ∀ k k' r r', t !! k = Some r → t !! k' = Some r' → conflict r r' = true → k = k'.

(** [t'] holds updated rows of [t] and no new key. *)
Definition rowwise (S : R → R → Prop) (t t' : gmap uuid R) : Prop :=
  ∀ k r', t' !! k = Some r' → ∃ r, t !! k = Some r ∧ S r r'.

Lemma rowwise_insert (S : R → R → Prop) t k r r' :
  Reflexive S → t !! k = Some r → S r r' → rowwise S t (<[k := r']> t).
Proof.
  intros HS Hk Hr k' r'' H. apply lookup_insert_Some in H as [[<- <-]|[Hne H]]; [by exists r|by exists r''].
Qed.

Lemma rowwise_update_where (S : R → R → Prop) p f t :
  Reflexive S → (∀ r, p r = true → S r (f r)) → rowwise S t (update_where p f t).
Proof.
  intros HS Hf k r'. rewrite lookup_update_where, fmap_Some. intros (r & Hk & ->).
  exists r. split; [done|]. destruct (p r) eqn:E; [by apply Hf|done].
Qed.

Lemma rowwise_fmap (S : R → R → Prop) f t : (∀ r, S r (f r)) → rowwise S t (f <$> t).
Proof. intros Hf k r'. rewrite lookup_fmap, fmap_Some. intros (r & Hk & ->). by exists r. Qed.

Lemma rowwise_delete_ids (S : R → R → Prop) ids t : Reflexive S → rowwise S t (delete_ids ids t).
Proof. intros HS k r'. unfold delete_ids. rewrite map_lookup_filter_Some. intros [Hk _]. by exists r'. Qed.

Lemma keyed_rowwise id S t t' : (∀ r r', S r r' → id r' = id r) → rowwise S t t' → keyed id t → keyed id t'.
Proof. intros HS Hr Hk k r' H. destruct (Hr k r' H) as (r & Ht & Hs). rewrite (HS _ _ Hs). by apply Hk. Qed.

Lemma unique_rowwise conflict S t t' :
  (∀ r1 r1' r2 r2', S r1 r1' → S r2 r2' → conflict r1' r2' = true → conflict r1 r2 = true) →
  rowwise S t t' → unique_on conflict t → unique_on conflict t'.
Proof.
  intros HS Hr Hu k k' r r' H H' Hc. destruct (Hr _ _ H) as (o & Ho & Hs).
  destruct (Hr _ _ H') as (o' & Ho' & Hs'). eapply Hu; [done..|]. by eapply HS.
Qed.

Lemma keyed_insert (id : R → uuid) t r : keyed id t → keyed id (<[id r := r]> t).
Proof. intros Hk. by apply map_Forall_insert_2. Qed.

Lemma checked_insert chk t k r : chk r = true → checked chk t → checked chk (<[k := r]> t).
Proof. intros Hr Hk. by apply map_Forall_insert_2. Qed.

Lemma checked_rowwise chk (S : R → R → Prop) t t' :
  (∀ r r', S r r' → chk r = true → chk r' = true) → rowwise S t t' → checked chk t → checked chk t'.
Proof. intros HS Hr Hc k r' H. destruct (Hr k r' H) as (r & Ht & Hs). eapply HS; [done|]. by eapply Hc. Qed.

Lemma checked_update_where p f chk t :
  update_checks p f chk t = true → checked chk t → checked chk (update_where p f t).
Proof.
  intros Hu Hc k r'. rewrite lookup_update_where, fmap_Some. intros (r & Hk & ->).
  destruct (p r) eqn:E; [|by eapply Hc]. rewrite update_checks_true in Hu. by eapply Hu.
Qed.

Lemma checked_delete_ids chk ids t : checked chk t → checked chk (delete_ids ids t).
Proof. intros Hc k r. unfold delete_ids. rewrite map_lookup_filter_Some. intros [Hk _]. by eapply Hc. Qed.

Lemma unique_insert conflict t k r :
  (∀ k' o, t !! k' = Some o → conflict r o = true ∨ conflict o r = true → False) →
  unique_on conflict t → unique_on conflict (<[k := r]> t).
Proof.
  intros Hno Hu k1 k2 r1 r2 H1 H2 Hc.
  apply lookup_insert_Some in H1 as [[<- <-]|[Hn1 H1]]; apply lookup_insert_Some in H2 as [[<- <-]|[Hn2 H2]];
    [done| | |by eapply Hu].
  - exfalso. eapply Hno; [done|by left].
  - exfalso. eapply Hno; [done|by right].
Qed.
End table.

(** What the key, the CHECKs and the unique indexes of a table guarantee. *)
Definition table_ok {R} (T : Table R) (t : gmap uuid R) : Prop :=
  keyed (tbl_key T) t ∧ checked (tbl_check T) t ∧ unique_on (tbl_conflict T) t.

(** ** The invariant *)

Definition same_code_hash (a b : AuthorizationCodeRow) : bool := code_CodeHash a == code_CodeHash b.
Definition same_grant_owner (a b : ConsentGrantRow) : bool := (g_UserID a == g_UserID b) && (g_ClientID a == g_ClientID b).
Definition same_jti (a b : AccessTokenRow) : bool := at_JtiHash a == at_JtiHash b.
Definition same_source (a b : AccessTokenRow) : bool :=
  bool_decide (is_Some (at_SourceRefreshTokenID a)) && (at_SourceRefreshTokenID a == at_SourceRefreshTokenID b).

(** A generation lives within its family. *)
Definition within_family (families : gmap uuid RefreshTokenFamilyRow) (r : RefreshTokenRow) : Prop :=
  ∃ f, families !! rt_FamilyID r = Some f ∧ rf_CreatedAt f <= rt_IssuedAt r ∧ rt_ExpiresAt r <= rf_AbsoluteExpiresAt f.

(** An access token of a family has the family's owner and no scope outside it. *)
Definition within_authority (families : gmap uuid RefreshTokenFamilyRow) (r : AccessTokenRow) : Prop :=
  ∀ fid, at_RefreshFamilyID r = Some fid →
  ∃ f, families !! fid = Some f ∧ rf_UserID f = at_UserID r ∧ rf_ClientID f = at_ClientID r ∧
       rf_ConsentGrantID f = at_ConsentGrantID r ∧ (∀ s, s ∈ at_Scopes r → s ∈ rf_Scopes f).

Record db_ok (db : DB) : Prop := {
  ok_users_key : keyed u_ID (users db);
  ok_clients_key : keyed cl_ID (oidc_clients db);
  ok_codes_key : keyed code_ID (authorization_codes db);
  ok_codes_check : checked authorization_codes_check (authorization_codes db);
  ok_codes_unique : unique_on same_code_hash (authorization_codes db);
  ok_grants_key : keyed g_ID (consent_grants db);
  ok_grants_check : checked consent_grants_check (consent_grants db);
  ok_grants_unique : unique_on same_grant_owner (consent_grants db);
  ok_access_key : keyed at_ID (access_tokens db);
  ok_access_check : checked access_tokens_check (access_tokens db);
  ok_access_unique : unique_on same_jti (access_tokens db);
  ok_access_source : unique_on same_source (access_tokens db);
  ok_families_key : keyed rf_ID (refresh_token_families db);
  ok_families_check : checked refresh_token_families_check (refresh_token_families db);
  ok_refresh_key : keyed rt_ID (refresh_tokens db);
  ok_refresh_check : checked refresh_tokens_check (refresh_tokens db);
  ok_refresh_unique : unique_on refresh_conflict (refresh_tokens db);
  ok_refresh_family : map_Forall (λ _ r, within_family (refresh_token_families db) r) (refresh_tokens db);
  ok_access_family : map_Forall (λ _ r, within_authority (refresh_token_families db) r) (access_tokens db);
  ok_users : table_ok users_table (users db);
  ok_clients : table_ok oidc_clients_table (oidc_clients db);
  ok_credentials : table_ok credentials_table (credentials db);
  ok_secrets : table_ok oidc_client_secrets_table (oidc_client_secrets db);
  ok_sessions : table_ok login_sessions_table (login_sessions db);
  ok_preauth : table_ok preauth_sessions_table (preauth_sessions db);
  ok_transactions : table_ok auth_transactions_table (auth_transactions db);
  ok_logouts : table_ok logout_transactions_table (logout_transactions db);
  ok_credential_user : map_Forall (λ k _, is_Some (users db !! k)) (credentials db);
  ok_secret_client : map_Forall (λ _ r, confidential_secret_guard (sec_ClientID r) db = true) (oidc_client_secrets db);
  ok_session_user : map_Forall (λ _ r, is_Some (users db !! ls_UserID r)) (login_sessions db);
  ok_preauth_transaction : map_Forall (λ _ r, is_Some (auth_transactions db !! pa_AuthTransactionID r)) (preauth_sessions db);
  ok_code_transaction : map_Forall (λ _ r, is_Some (auth_transactions db !! code_AuthTransactionID r)) (authorization_codes db);
  ok_logout_session : map_Forall (λ _ r, ∀ id, lo_SessionID r = Some id → is_Some (login_sessions db !! id)) (logout_transactions db) }.

Abbreviation ok_rel := (λ db db', db_ok db → db_ok db').

(** ** What an UPDATE may change *)

(** Only [consumed_at] of a code, the lifecycle columns of a grant, [revoked_at],
    [revoke_reason] and a detached code of access tokens and families, [consumed_at] of
    a generation. *)
Definition code_update (r r' : AuthorizationCodeRow) : Prop :=
  code_ID r' = code_ID r ∧ code_CodeHash r' = code_CodeHash r ∧ code_AuthTransactionID r' = code_AuthTransactionID r.
Definition grant_update (r r' : ConsentGrantRow) : Prop :=
  g_ID r' = g_ID r ∧ g_UserID r' = g_UserID r ∧ g_ClientID r' = g_ClientID r.
Definition access_update (r r' : AccessTokenRow) : Prop :=
  at_ID r' = at_ID r ∧ at_JtiHash r' = at_JtiHash r ∧ at_SourceRefreshTokenID r' = at_SourceRefreshTokenID r ∧
  at_RefreshFamilyID r' = at_RefreshFamilyID r ∧ at_UserID r' = at_UserID r ∧ at_ClientID r' = at_ClientID r ∧
  at_ConsentGrantID r' = at_ConsentGrantID r ∧ at_Scopes r' = at_Scopes r.
Definition family_update (r r' : RefreshTokenFamilyRow) : Prop :=
  rf_ID r' = rf_ID r ∧ rf_UserID r' = rf_UserID r ∧ rf_ClientID r' = rf_ClientID r ∧
  rf_ConsentGrantID r' = rf_ConsentGrantID r ∧ rf_Scopes r' = rf_Scopes r ∧
  rf_CreatedAt r' = rf_CreatedAt r ∧ rf_AbsoluteExpiresAt r' = rf_AbsoluteExpiresAt r.
Definition refresh_update (r r' : RefreshTokenRow) : Prop :=
  rt_ID r' = rt_ID r ∧ rt_FamilyID r' = rt_FamilyID r ∧ rt_TokenHash r' = rt_TokenHash r ∧
  rt_Generation r' = rt_Generation r ∧ rt_IssuedAt r' = rt_IssuedAt r ∧ rt_ExpiresAt r' = rt_ExpiresAt r.

#[export] Instance code_update_refl : Reflexive code_update.
Proof. by intros r. Qed.
#[export] Instance grant_update_refl : Reflexive grant_update.
Proof. by intros r. Qed.
#[export] Instance access_update_refl : Reflexive access_update.
Proof. by intros r. Qed.
#[export] Instance family_update_refl : Reflexive family_update.
Proof. by intros r. Qed.
#[export] Instance refresh_update_refl : Reflexive refresh_update.
Proof. by intros r. Qed.

(** Families that are still there after the change. *)
Definition kept (needed : uuid → Prop) (t t' : gmap uuid RefreshTokenFamilyRow) : Prop :=
  ∀ k f, needed k → t !! k = Some f → ∃ f', t' !! k = Some f' ∧ family_update f f'.

Lemma within_family_kept needed t t' r :
  kept needed t t' → needed (rt_FamilyID r) → within_family t r → within_family t' r.
Proof.
  intros Hk Hn (f & Hf & Hc & He). destruct (Hk _ _ Hn Hf) as (f' & Hf' & _ & _ & _ & _ & _ & Ec & Ea).
  exists f'. rewrite Ec, Ea. done.
Qed.

Lemma within_authority_kept needed t t' r :
  kept needed t t' → (∀ fid, at_RefreshFamilyID r = Some fid → needed fid) →
  within_authority t r → within_authority t' r.
Proof.
  intros Hk Hn Hw fid Hfid. destruct (Hw fid Hfid) as (f & Hf & Hu & Hc & Hg & Hs).
  destruct (Hk _ _ (Hn _ Hfid) Hf) as (f' & Hf' & _ & Eu & Ec & Eg & Es & _).
  exists f'. rewrite Eu, Ec, Eg, Es. done.
Qed.

(** Replacing the family table by a kept one. *)
Lemma db_ok_families db t' :
  (keyed rf_ID (refresh_token_families db) → keyed rf_ID t') →
  (checked refresh_token_families_check (refresh_token_families db) → checked refresh_token_families_check t') →
  kept (λ k, (∃ i r, refresh_tokens db !! i = Some r ∧ rt_FamilyID r = k) ∨
             (∃ i r, access_tokens db !! i = Some r ∧ at_RefreshFamilyID r = Some k)) (refresh_token_families db) t' →
  db_ok db → db_ok (with_refresh_token_families t' db).
Proof.
  intros Hk Hc Hkept []. constructor; try done; simpl; try by (apply Hc || apply Hk).
  - intros i r Hi. eapply within_family_kept; [exact Hkept| |by eapply ok_refresh_family0]. left. by exists i, r.
  - intros i r Hi. eapply within_authority_kept; [exact Hkept| |by eapply ok_access_family0].
    intros fid Hf. right. by exists i, r.
Qed.

Lemma kept_insert_new needed t r : t !! rf_ID r = None → kept needed t (<[rf_ID r := r]> t).
Proof.
  intros Hn k f _ Hk. exists f. split; [|done]. rewrite lookup_insert_ne; [done|]. intros <-. congruence.
Qed.
Lemma kept_update_where needed p f t :
  (∀ r, family_update r (f r)) → kept needed t (update_where p f t).
Proof.
  intros Hf k r _ Hk. rewrite lookup_update_where, Hk. simpl. eexists. split; [done|]. by destruct (p r).
Qed.
Lemma kept_insert_old needed t k r r' : t !! k = Some r → family_update r r' → kept needed t (<[k := r']> t).
Proof.
  intros Hk Hu k' f _ Hk'. destruct (decide (k' = k)) as [->|Hne].
  - rewrite lookup_insert_eq. exists r'. by simplify_eq.
  - rewrite lookup_insert_ne by done. by exists f.
Qed.
Lemma kept_fmap needed f t : (∀ r, family_update r (f r)) → kept needed t (f <$> t).
Proof. intros Hf k r _ Hk. rewrite lookup_fmap, Hk. by eexists. Qed.

(** Replacing the access table by updated rows, or the generations. *)
Lemma db_ok_access db t' :
  rowwise access_update (access_tokens db) t' →
  (checked access_tokens_check (access_tokens db) → checked access_tokens_check t') →
  db_ok db → db_ok (with_access_tokens t' db).
Proof.
  intros Hr Hc []. constructor; try done; simpl; try by apply Hc.
  - eapply keyed_rowwise; [|done|done]. by intros ?? (? & _).
  - eapply unique_rowwise; [|done|done]. unfold same_jti. intros r1 r1' r2 r2' (_ & E1 & _) (_ & E2 & _). by rewrite E1, E2.
  - eapply unique_rowwise; [|done|done]. unfold same_source.
    intros r1 r1' r2 r2' (_ & _ & E1 & _) (_ & _ & E2 & _). by rewrite E1, E2.
  - intros i r' Hi. destruct (Hr i r' Hi) as (r & Hk & (_ & _ & _ & Ef & Eu & Ec & Eg & Es)).
    intros fid. rewrite Ef, Eu, Ec, Eg, Es. by eapply ok_access_family0.
Qed.

Lemma db_ok_refresh db t' :
  rowwise refresh_update (refresh_tokens db) t' →
  (checked refresh_tokens_check (refresh_tokens db) → checked refresh_tokens_check t') →
  db_ok db → db_ok (with_refresh_tokens t' db).
Proof.
  intros Hr Hc []. constructor; try done; simpl; try by apply Hc.
  - eapply keyed_rowwise; [|done|done]. by intros ?? (? & _).
  - eapply unique_rowwise; [|done|done]. unfold refresh_conflict.
    intros r1 r1' r2 r2' (_ & F1 & E1 & G1 & _) (_ & F2 & E2 & G2 & _). by rewrite E1, E2, F1, F2, G1, G2.
  - intros i r' Hi. destruct (Hr i r' Hi) as (r & Hk & (_ & Ef & _ & _ & Ei & Ee)).
    unfold within_family. rewrite Ef, Ei, Ee. by eapply ok_refresh_family0.
Qed.

Lemma db_ok_codes db t' :
  rowwise code_update (authorization_codes db) t' →
  (checked authorization_codes_check (authorization_codes db) → checked authorization_codes_check t') →
  db_ok db → db_ok (with_authorization_codes t' db).
Proof.
  intros Hr Hc []. constructor; try done; simpl; try by apply Hc.
  - eapply keyed_rowwise; [|done|done]. by intros ?? (? & _).
  - eapply unique_rowwise; [|done|done]. unfold same_code_hash.
    intros r1 r1' r2 r2' (_ & E1 & _) (_ & E2 & _). by rewrite E1, E2.
  - intros i r' Hi. destruct (Hr i r' Hi) as (r & Hk & (_ & _ & ->)). by eapply ok_code_transaction0.
Qed.

Lemma db_ok_grants db t' :
  rowwise grant_update (consent_grants db) t' →
  (checked consent_grants_check (consent_grants db) → checked consent_grants_check t') →
  db_ok db → db_ok (with_consent_grants t' db).
Proof.
  intros Hr Hc []. constructor; try done; simpl; try by apply Hc.
  - eapply keyed_rowwise; [|done|done]. by intros ?? (? & _).
  - eapply unique_rowwise; [|done|done]. unfold same_grant_owner.
    intros r1 r1' r2 r2' (_ & U1 & C1) (_ & U2 & C2). by rewrite U1, U2, C1, C2.
Qed.

(** Only [consumed_at] and [failure_reason] of a browser transaction change. *)
Definition transaction_update (r r' : AuthTransactionRow) : Prop :=
  tx_ID r' = tx_ID r ∧ tx_TokenHash r' = tx_TokenHash r.
#[export] Instance transaction_update_refl : Reflexive transaction_update.
Proof. by intros r. Qed.

(** Updated rows of a table with one unique digest. *)
Lemma table_ok_rowwise {R} (T : Table R) (S : R → R → Prop) t t' :
  (∀ r r', S r r' → tbl_key T r' = tbl_key T r) →
  (∀ r r' o o', S r r' → S o o' → tbl_conflict T r' o' = true → tbl_conflict T r o = true) →
  rowwise S t t' → checked (tbl_check T) t' → table_ok T t → table_ok T t'.
Proof.
  intros Hid Hc Hr Hchk (Hk & _ & Hu). split_and!; [by eapply keyed_rowwise|done|].
  eapply unique_rowwise; [|done|done]. intros r1 r1' r2 r2' H1 H2. by apply Hc.
Qed.

Lemma transactions_table_ok t t' :
  rowwise transaction_update t t' → checked auth_transactions_check t' →
  table_ok auth_transactions_table t → table_ok auth_transactions_table t'.
Proof.
  apply (table_ok_rowwise auth_transactions_table); simpl; [by intros ?? []|]. intros r r' o o' [_ E1] [_ E2]. by rewrite E1, E2.
Qed.

(** No row another table refers to goes away. *)
Lemma db_ok_transactions db t' :
  rowwise transaction_update (auth_transactions db) t' →
  (checked auth_transactions_check (auth_transactions db) → checked auth_transactions_check t') →
  (∀ k, is_Some (auth_transactions db !! k) → is_Some (t' !! k)) →
  db_ok db → db_ok (with_auth_transactions t' db).
Proof.
  intros Hr Hc Hkeep []. constructor; try done; simpl.
  - eapply transactions_table_ok; [done| |done]. apply Hc. by destruct ok_transactions0 as (_ & ? & _).
  - intros i r Hi. by eapply Hkeep, ok_preauth_transaction0.
  - intros i r Hi. by eapply Hkeep, ok_code_transaction0.
Qed.

(** ** Every statement preserves the invariant *)

(** Follow a successful statement through its error branches. *)
Ltac stmt_cases H :=
  repeat match type of H with
         | (if ?b then _ else _) = inl _ => let E := fresh "E" in destruct b eqn:E; try discriminate H
         | match ?x with Some _ => _ | None => _ end = inl _ => let E := fresh "E" in destruct x eqn:E; try discriminate H
         end;
  try (injection H as ? ?; subst).

Lemma not_is_Some_None {A} (o : option A) : ¬ is_Some o → o = None.
Proof. apply eq_None_not_Some. Qed.

(** [no_conflict]: the unique indexes saw no clash with an existing row. *)
Ltac no_conflict :=
  let k := fresh "k" in let o := fresh "o" in let Ho := fresh "Ho" in
  intros k o Ho;
  match goal with
  | H : exists_row _ _ = false |- _ => rewrite exists_row_false in H; specialize (H _ _ Ho); simpl in H
  end.

Lemma CreateConsentGrant_ok id u c s t t' : stmt_rel ok_rel (CreateConsentGrant id u c s t t').
Proof.
  intros db a db' H Hok. unfold CreateConsentGrant in H. stmt_cases H. go_bools.
  destruct Hok. constructor; simpl; try done.
  - by apply (keyed_insert g_ID _ (mkConsentGrantRow _ _ _ _ _ _ _ _)).
  - by apply checked_insert.
  - apply unique_insert; [|done]. no_conflict. unfold grant_of, same_grant_owner in *. simpl. go_bools. naive_solver.
Qed.

Lemma update_grant_ok id p f : (∀ r, grant_update r (f r)) → stmt_rel ok_rel (update_grant id p f).
Proof.
  intros Hf db a db' H. unfold update_grant in H. stmt_cases H. go_bools. apply db_ok_grants.
  - by eapply rowwise_insert; [apply _|done|].
  - by apply checked_insert.
Qed.
Lemma ReactivateConsentGrant_ok s t id : stmt_rel ok_rel (ReactivateConsentGrant s t id).
Proof. by apply update_grant_ok. Qed.
Lemma RevokeConsentGrant_ok t id : stmt_rel ok_rel (RevokeConsentGrant t id).
Proof. by apply update_grant_ok. Qed.
Lemma UpdateConsentGrantScopes_ok s t id : stmt_rel ok_rel (UpdateConsentGrantScopes s t id).
Proof. by apply update_grant_ok. Qed.

Lemma update_live_transaction_ok t id f :
  (∀ r, tx_ID (f r) = tx_ID r ∧ tx_TokenHash (f r) = tx_TokenHash r) → stmt_rel ok_rel (update_live_transaction t id f).
Proof.
  intros Hf db a db' H. unfold update_live_transaction in H. stmt_cases H. apply negb_false_iff in E1.
  apply (db_ok_transactions db (<[id := f a0]> (auth_transactions db))).
  - eapply rowwise_insert; [by intros r|done|]. destruct (Hf a0) as [H1 H2]. by split.
  - by apply checked_insert.
  - intros k Hk. apply lookup_insert_is_Some'. by right.
Qed.
Lemma ConsumeAuthTransaction_ok t id : stmt_rel ok_rel (ConsumeAuthTransaction t id).
Proof. by apply update_live_transaction_ok. Qed.
Lemma RejectAuthTransaction_ok t reason id : stmt_rel ok_rel (RejectAuthTransaction t reason id).
Proof. by apply update_live_transaction_ok. Qed.

Lemma CreateAuthorizationCode_ok a : stmt_rel ok_rel (CreateAuthorizationCode a).
Proof.
  intros db x db' H Hok. unfold CreateAuthorizationCode in H. stmt_cases H.
  apply orb_false_iff in E0 as [_ E0]. apply negb_false_iff in E. rewrite !orb_false_iff, !negb_false_iff in E1.
  destruct Hok. constructor; simpl; try done.
  - by apply (keyed_insert code_ID _ (new_code_row a)).
  - by apply checked_insert.
  - apply unique_insert; [|done]. no_conflict. unfold same_code_hash. simpl. go_bools. naive_solver.
  - apply map_Forall_insert_2; [|done]. destruct E1 as [[[[E1 _] _] _] _]. by apply bool_decide_eq_true in E1.
Qed.

Lemma ConsumeAuthorizationCode_ok t id : stmt_rel ok_rel (ConsumeAuthorizationCode t id).
Proof.
  intros db x db' H. unfold ConsumeAuthorizationCode in H. stmt_cases H. apply negb_false_iff in E1.
  apply db_ok_codes; [by eapply rowwise_insert; [apply _|done|]|by apply checked_insert].
Qed.

Lemma within_authority_guard db r :
  access_token_authority_guard db r = true → within_authority (refresh_token_families db) r.
Proof.
  unfold access_token_authority_guard, within_authority. intros H fid Hf. rewrite Hf in H.
  case_bool_decide as Es.
  - destruct (at_AuthorizationCodeID r ≫= _) as [code|]; [|done].
    destruct (refresh_token_families db !! fid) as [f|]; [|go_bools; done].
    exists f. go_bools. split_and!; [done..|]. congruence.
  - destruct (at_SourceRefreshTokenID r ≫= _) as [g|]; [|done]. simpl in H.
    destruct (refresh_token_families db !! fid) as [f|]; [|done]. exists f.
    rewrite !andb_true_iff, scopeSubset_spec, !bool_decide_eq_true in H. naive_solver.
Qed.

Lemma insert_access_token_ok r : stmt_rel ok_rel (insert_access_token r).
Proof.
  intros db x db' H Hok. unfold insert_access_token in H. stmt_cases H.
  apply orb_false_iff in E1 as [_ E1]. apply negb_false_iff in E0, E.
  destruct Hok. constructor; simpl; try done.
  - by apply keyed_insert.
  - by apply checked_insert.
  - apply unique_insert; [|done]. no_conflict. unfold access_conflict, same_jti in *.
    go_bools. naive_solver.
  - apply unique_insert; [|done]. no_conflict. unfold access_conflict, same_source in *.
    rewrite !orb_false_iff in *. destruct E1 as [[_ E1] _].
    intros [Hc|Hc]; apply andb_true_iff in Hc as [H1 H2]; go_bools; rewrite ?H2 in *; naive_solver.
  - apply map_Forall_insert_2; [by apply within_authority_guard|done].
Qed.
Lemma CreateAccessToken_ok a : stmt_rel ok_rel (CreateAccessToken a).
Proof. apply insert_access_token_ok. Qed.
Lemma CreateRefreshAccessToken_ok a : stmt_rel ok_rel (CreateRefreshAccessToken a).
Proof. apply insert_access_token_ok. Qed.

Lemma RevokeAccessToken_ok t reason id : stmt_rel ok_rel (RevokeAccessToken t reason id).
Proof.
  intros db x db' H. unfold RevokeAccessToken in H. stmt_cases H. apply negb_false_iff in E1.
  apply db_ok_access; [by eapply rowwise_insert; [apply _|done|]|by apply checked_insert].
Qed.

Lemma revoke_live_access_ok owner t reason : stmt_rel ok_rel (revoke_live_access owner t reason).
Proof.
  intros db x db' H. unfold revoke_live_access in H. stmt_cases H.
  apply db_ok_access; [by apply rowwise_update_where|by apply checked_update_where].
Qed.

Lemma CreateRefreshTokenFamily_ok a : stmt_rel ok_rel (CreateRefreshTokenFamily a).
Proof.
  intros db x db' H. unfold CreateRefreshTokenFamily in H. stmt_cases H.
  apply orb_false_iff in E1 as [E1 _]. apply negb_false_iff in E0. apply bool_decide_eq_false in E1.
  apply db_ok_families.
  - apply (keyed_insert rf_ID).
  - by apply checked_insert.
  - by apply kept_insert_new, not_is_Some_None.
Qed.

Lemma RevokeRefreshTokenFamily_ok t reason id : stmt_rel ok_rel (RevokeRefreshTokenFamily t reason id).
Proof.
  intros db x db' H. unfold RevokeRefreshTokenFamily in H. stmt_cases H. apply negb_false_iff in E1.
  apply db_ok_families.
  - eapply keyed_rowwise; [|by eapply (rowwise_insert family_update); [apply _|done|]]. by intros ?? (? & _).
  - by apply checked_insert.
  - by eapply kept_insert_old.
Qed.

Lemma revoke_families_ok {A} owner t reason (res : _ → _ → A) : stmt_rel ok_rel (revoke_families owner t reason res).
Proof.
  intros db x db' H. unfold revoke_families in H. stmt_cases H. apply db_ok_families.
  - eapply keyed_rowwise; [|by apply (rowwise_update_where family_update)]. by intros ?? (? & _).
  - by apply checked_update_where.
  - by apply kept_update_where.
Qed.

Lemma CreateRefreshToken_ok a : stmt_rel ok_rel (CreateRefreshToken a).
Proof.
  intros db x db' H Hok. unfold CreateRefreshToken in H. stmt_cases H.
  apply orb_false_iff in E1 as [_ E1]. apply negb_false_iff in E0, E.
  destruct Hok. constructor; simpl; try done.
  - by apply (keyed_insert rt_ID _ (new_refresh_row a)).
  - by apply checked_insert.
  - apply unique_insert; [|done]. no_conflict. unfold refresh_conflict in *. simpl in *. go_bools. naive_solver.
  - apply map_Forall_insert_2; [|done]. unfold refresh_token_lifetime_guard in E.
    destruct (refresh_token_families db !! _) as [f|] eqn:Ef; [|done]. go_bools. by exists f.
Qed.

Lemma ConsumeRefreshToken_ok t id : stmt_rel ok_rel (ConsumeRefreshToken t id).
Proof.
  intros db x db' H. unfold ConsumeRefreshToken in H. stmt_cases H. apply negb_false_iff in E1.
  apply db_ok_refresh; [by eapply rowwise_insert; [apply _|done|]|by apply checked_insert].
Qed.

Lemma CreateAuditEvent_ok a : stmt_rel ok_rel (CreateAuditEvent a).
Proof. intros db x db' H []. unfold CreateAuditEvent in H. stmt_cases H. by constructor. Qed.

Lemma HasAuthorizationCodeExchangeRejection_ok id : stmt_rel ok_rel (HasAuthorizationCodeExchangeRejection id).
Proof. by intros db x db' [= _ <-]. Qed.

(** ** Retirement *)

Lemma elem_of_batch {R} held (key : R → Z) id p limit (t : gmap uuid R) i :
  i ∈ batch held key id p limit t → ∃ k r, t !! k = Some r ∧ p r = true ∧ id r = i.
Proof.
  unfold batch. intros Hi. apply elem_of_take in Hi as (j & Hi & _). apply list_elem_of_lookup_2 in Hi.
  apply list_elem_of_fmap in Hi as ([k' i'] & -> & Hi). rewrite merge_sort_Permutation in Hi.
  apply list_elem_of_fmap in Hi as (r & [= -> ->] & Hr).
  apply list_elem_of_In, filter_In in Hr as [Hr [Hp _]%andb_true_iff]. apply list_elem_of_In, elem_of_rows in Hr as [k Hk].
  by exists k, r.
Qed.

Lemma detach_access_check ids r :
  access_tokens_check r = true → access_tokens_check (detach_access_code ids r) = true.
Proof.
  unfold access_tokens_check. simpl. rewrite !andb_true_iff. intros. destruct_and!. split_and!; try done.
  match goal with H : ((at_IssuanceSource r == "authorization_code") && _) || _ = true |- _ =>
    apply orb_true_iff; apply orb_true_iff in H as [H|H]; [by left|right] end.
  go_bools. split_and!; try done. by replace (at_AuthorizationCodeID r) with (@None N).
Qed.

Lemma DeleteRetiredAuthorizationCodes_ok h t n : stmt_rel ok_rel (DeleteRetiredAuthorizationCodes h t n).
Proof.
  intros db x db' H Hok. unfold DeleteRetiredAuthorizationCodes in H. injection H as _ <-.
  set (ids := batch _ _ _ _ _ _). apply db_ok_families.
  - apply (keyed_rowwise _ family_update); [by intros ?? (? & _)|by apply rowwise_fmap].
  - apply (checked_rowwise _ (λ r r', r' = detach_family_code ids r)); [by intros ?? ->|by apply rowwise_fmap].
  - by apply kept_fmap.
  - apply db_ok_access; [by apply rowwise_fmap| |].
    + apply (checked_rowwise _ (λ r r', r' = detach_access_code ids r)); [|by apply rowwise_fmap].
      intros ?? ->. apply detach_access_check.
    + apply db_ok_codes; [by apply rowwise_delete_ids; apply _|by apply checked_delete_ids|done].
Qed.

Lemma DeleteRetiredAccessTokens_ok h t n : stmt_rel ok_rel (DeleteRetiredAccessTokens h t n).
Proof.
  intros db x db' H. injection H as _ <-.
  apply db_ok_access; [by apply rowwise_delete_ids; apply _|by apply checked_delete_ids].
Qed.

Lemma DeleteRetiredRefreshTokens_ok h t n : stmt_rel ok_rel (DeleteRetiredRefreshTokens h t n).
Proof.
  intros db x db' H. injection H as _ <-.
  apply db_ok_refresh; [by apply rowwise_delete_ids; apply _|by apply checked_delete_ids].
Qed.

Lemma DeleteRetiredRefreshTokenFamilies_ok h t n : stmt_rel ok_rel (DeleteRetiredRefreshTokenFamilies h t n).
Proof.
  intros db x db' H Hok. injection H as _ <-. eapply db_ok_families; [..|exact Hok].
  - apply (keyed_rowwise _ family_update); [by intros ?? (? & _)|by apply rowwise_delete_ids; apply _].
  - by apply checked_delete_ids.
  - intros k f Hn Hk. exists f. split; [|done]. apply map_lookup_filter_Some. split; [done|].
    intros Hi%elem_of_batch. destruct Hi as (k' & f' & Hk' & Hp & Hid).
    assert (k' = k) as -> by (rewrite <- Hid; symmetry; by apply (ok_families_key _ Hok)). simplify_eq.
    rewrite !andb_true_iff, !negb_true_iff, !exists_row_false in Hp. destruct Hp as [[_ Hrt] Hat].
    destruct Hn as [(i & r & Hi & Hr)|(i & r & Hi & Hr)].
    + specialize (Hrt _ _ Hi). go_bools. congruence.
    + specialize (Hat _ _ Hi). go_bools. congruence.
Qed.

Create HintDb db_ok.
#[export] Hint Resolve CreateConsentGrant_ok ReactivateConsentGrant_ok RevokeConsentGrant_ok
  UpdateConsentGrantScopes_ok ConsumeAuthTransaction_ok RejectAuthTransaction_ok CreateAuthorizationCode_ok
  ConsumeAuthorizationCode_ok CreateAccessToken_ok CreateRefreshAccessToken_ok RevokeAccessToken_ok
  revoke_live_access_ok CreateRefreshTokenFamily_ok RevokeRefreshTokenFamily_ok revoke_families_ok
  CreateRefreshToken_ok ConsumeRefreshToken_ok CreateAuditEvent_ok HasAuthorizationCodeExchangeRejection_ok
  DeleteRetiredAuthorizationCodes_ok DeleteRetiredAccessTokens_ok DeleteRetiredRefreshTokens_ok
  DeleteRetiredRefreshTokenFamilies_ok : tx_rel.

(** ** The invariant as a test

    [db_okb] decides enough of [db_ok] to check it on concrete tables. *)

Definition entries {R} (t : gmap uuid R) : list (uuid * R) := map_to_list t.
Definition keyedb {R} (id : R → uuid) (t : gmap uuid R) : bool := forallb (λ '(k, r), id r == k) (entries t).
Definition checkedb {R} (chk : R → bool) (t : gmap uuid R) : bool := forallb (λ '(_, r), chk r) (entries t).
Definition uniqueb {R} (conflict : R → R → bool) (t : gmap uuid R) : bool :=
  forallb (λ '(k, r), forallb (λ '(k', r'), (k == k') || negb (conflict r r')) (entries t)) (entries t).
Definition within_familyb (families : gmap uuid RefreshTokenFamilyRow) (r : RefreshTokenRow) : bool :=
  match families !! rt_FamilyID r with
  | Some f => (rf_CreatedAt f <=? rt_IssuedAt r) && (rt_ExpiresAt r <=? rf_AbsoluteExpiresAt f)
  | None => false
  end.
Definition within_authorityb (families : gmap uuid RefreshTokenFamilyRow) (r : AccessTokenRow) : bool :=
  match at_RefreshFamilyID r with
  | None => true
  | Some fid =>
      match families !! fid with
      | Some f => (rf_UserID f == at_UserID r) && (rf_ClientID f == at_ClientID r) &&
                  (rf_ConsentGrantID f == at_ConsentGrantID r) && scopeSubset (at_Scopes r) (rf_Scopes f)
      | None => false
      end
  end.

Definition table_okb {R} (T : Table R) (t : gmap uuid R) : bool :=
  keyedb (tbl_key T) t && checkedb (tbl_check T) t && uniqueb (tbl_conflict T) t.

Definition db_okb (db : DB) : bool :=
  keyedb u_ID (users db) && keyedb cl_ID (oidc_clients db) &&
  keyedb code_ID (authorization_codes db) && checkedb authorization_codes_check (authorization_codes db) &&
  uniqueb same_code_hash (authorization_codes db) &&
  keyedb g_ID (consent_grants db) && checkedb consent_grants_check (consent_grants db) &&
  uniqueb same_grant_owner (consent_grants db) &&
  keyedb at_ID (access_tokens db) && checkedb access_tokens_check (access_tokens db) &&
  uniqueb same_jti (access_tokens db) && uniqueb same_source (access_tokens db) &&
  keyedb rf_ID (refresh_token_families db) && checkedb refresh_token_families_check (refresh_token_families db) &&
  keyedb rt_ID (refresh_tokens db) && checkedb refresh_tokens_check (refresh_tokens db) &&
  uniqueb refresh_conflict (refresh_tokens db) &&
  checkedb (within_familyb (refresh_token_families db)) (refresh_tokens db) &&
  checkedb (within_authorityb (refresh_token_families db)) (access_tokens db) &&
  table_okb users_table (users db) && table_okb oidc_clients_table (oidc_clients db) &&
  table_okb credentials_table (credentials db) && table_okb oidc_client_secrets_table (oidc_client_secrets db) &&
  table_okb login_sessions_table (login_sessions db) && table_okb preauth_sessions_table (preauth_sessions db) &&
  table_okb auth_transactions_table (auth_transactions db) && table_okb logout_transactions_table (logout_transactions db) &&
  checkedb (λ r, references (Some (cr_UserID r)) (users db)) (credentials db) &&
  checkedb (λ r, confidential_secret_guard (sec_ClientID r) db) (oidc_client_secrets db) &&
  checkedb (λ r, references (Some (ls_UserID r)) (users db)) (login_sessions db) &&
  checkedb (λ r, references (Some (pa_AuthTransactionID r)) (auth_transactions db)) (preauth_sessions db) &&
  checkedb (λ r, references (Some (code_AuthTransactionID r)) (auth_transactions db)) (authorization_codes db) &&
  checkedb (λ r, references (lo_SessionID r) (login_sessions db)) (logout_transactions db).

Section tests.
Context {R : Type}.
Implicit Types t : gmap uuid R.

Lemma forallb_entries (f : uuid * R → bool) t :
  forallb f (entries t) = true ↔ map_Forall (λ k r, f (k, r) = true) t.
Proof.
  unfold entries. rewrite forallb_forall. split.
  - intros Hf k r Hk. apply Hf. by apply list_elem_of_In, elem_of_map_to_list.
  - intros Hf [k r] Hin. apply list_elem_of_In, elem_of_map_to_list in Hin. by apply Hf.
Qed.
Lemma keyedb_spec id t : keyedb id t = true → keyed id t.
Proof. intros H k r Hk. apply forallb_entries in H. specialize (H k r Hk). by go_bools. Qed.
Lemma checkedb_spec chk t : checkedb chk t = true → checked chk t.
Proof. intros H k r Hk. apply forallb_entries in H. by specialize (H k r Hk). Qed.
Lemma uniqueb_spec conflict t : uniqueb conflict t = true → unique_on conflict t.
Proof.
  intros H k k' r r' Hk Hk' Hc. apply forallb_entries in H. specialize (H k r Hk). simpl in H.
  apply forallb_entries in H. specialize (H k' r' Hk'). simpl in H. rewrite Hc, orb_false_r in H. by go_bools.
Qed.
End tests.

Lemma within_familyb_spec t r : within_familyb t r = true → within_family t r.
Proof. unfold within_familyb. destruct (t !! rt_FamilyID r) as [f|] eqn:E; [|done]. intros. go_bools. by exists f. Qed.
Lemma within_authorityb_spec t r : within_authorityb t r = true → within_authority t r.
Proof.
  unfold within_authorityb. intros H fid Hf. rewrite Hf in H. destruct (t !! fid) as [f|]; [|done].
  rewrite !andb_true_iff, scopeSubset_spec in H. go_bools. by exists f.
Qed.

Lemma table_okb_spec {R} (T : Table R) t : table_okb T t = true → table_ok T t.
Proof.
  unfold table_okb. rewrite !andb_true_iff. intros [[H1 H2] H3].
  split_and!; [by apply keyedb_spec|by apply checkedb_spec|by apply uniqueb_spec].
Qed.
Lemma references_Some {R} id (t : gmap uuid R) : references (Some id) t = true ↔ is_Some (t !! id).
Proof. apply bool_decide_eq_true. Qed.

Lemma db_okb_spec db : db_okb db = true → db_ok db.
Proof.
  unfold db_okb. rewrite !andb_true_iff. intros. destruct_and!.
  assert (Hcr : keyed cr_UserID (credentials db)) by (by apply (table_okb_spec credentials_table)).
  split; try (by apply keyedb_spec); try (by apply checkedb_spec); try (by apply uniqueb_spec); try (by apply table_okb_spec).
  - intros k r Hk. apply within_familyb_spec. by eapply (checkedb_spec (within_familyb _)).
  - intros k r Hk. apply within_authorityb_spec. by eapply (checkedb_spec (within_authorityb _)).
  - intros k r Hk. rewrite <- (Hcr k r Hk). apply references_Some. by eapply (checkedb_spec (λ r, references (Some (cr_UserID r)) _)).
  - intros k r Hk. apply references_Some. by eapply (checkedb_spec (λ r, references (Some (ls_UserID r)) _)).
  - intros k r Hk. apply references_Some. by eapply (checkedb_spec (λ r, references (Some (pa_AuthTransactionID r)) _)).
  - intros k r Hk. apply references_Some. by eapply (checkedb_spec (λ r, references (Some (code_AuthTransactionID r)) _)).
  - intros k r Hk id Hid. apply references_Some. rewrite <- Hid.
    by eapply (checkedb_spec (λ r, references (lo_SessionID r) _)).
Qed.
