(* ===== verification/RegistryInvariants.v ===== *)
(** * The registries and the browser state keep the schema invariant

    Every statement on users, credentials, clients, their child tables and their secrets
    preserves [db_ok]; then what an UPDATE may change of a login session, a
    pre-authentication session and a logout transaction, and that every statement on them,
    and on browser transactions, preserves [db_ok]. *)

From S2P Require Import Prelude Text Errors Platform Scopes Domain AuditEvents Database Queries RegistryQueries BrowserQueries Tx.
From S2P Require Import StoreCommon Invariants.
(** Inserting a row the constraints accepted. *)
Lemma table_ok_insert {R} (T : Table R) t r :
  (∀ o, tbl_conflict T o r = tbl_conflict T r o) →
  tbl_check T r = true → exists_row (tbl_conflict T r) t = false → table_ok T t → table_ok T (<[tbl_key T r := r]> t).
Proof.
  intros Hsym Hc Hno (Hk & Hchk & Hu). rewrite exists_row_false in Hno. split_and!.
  - by apply keyed_insert.
  - by apply checked_insert.
  - apply unique_insert; [|done]. intros k o Ho Hconf. specialize (Hno k o Ho). rewrite Hsym in Hconf.
    destruct Hconf; congruence.
Qed.

(** Updated rows that keep their key and what is unique of them. *)
Lemma table_ok_update {R} (T : Table R) t k r r' :
  tbl_key T r' = tbl_key T r → (∀ o, tbl_conflict T r' o = tbl_conflict T r o ∧ tbl_conflict T o r' = tbl_conflict T o r) →
  t !! k = Some r → tbl_check T r' = true → table_ok T t → table_ok T (<[k := r']> t).
Proof.
  intros Hid Hconf Hk Hc (Hkey & Hchk & Hu). split_and!.
  - apply map_Forall_insert_2; [|done]. rewrite Hid. by apply Hkey.
  - by apply checked_insert.
  - intros k1 k2 r1 r2 H1 H2. apply lookup_insert_Some in H1 as [[<- <-]|[Hn1 H1]];
      apply lookup_insert_Some in H2 as [[<- <-]|[Hn2 H2]]; [done| | |by eapply Hu].
    + rewrite (proj1 (Hconf r2)). by eapply Hu.
    + rewrite (proj2 (Hconf r1)). by eapply Hu.
Qed.

Lemma is_Some_insert {R} (t : gmap uuid R) k r i : is_Some (t !! i) → is_Some (<[k := r]> t !! i).
Proof. intros H. apply lookup_insert_is_Some'. by right. Qed.

(** ** users and credentials *)

Lemma users_conflict_sym r o : users_conflict o r = users_conflict r o.
Proof.
  unfold users_conflict. rewrite (bool_decide_ext (u_Subject r = u_Subject o) (u_Subject o = u_Subject r)) by done.
  rewrite (bool_decide_ext (u_UsernameNormalized r = u_UsernameNormalized o) (u_UsernameNormalized o = u_UsernameNormalized r)) by done.
  by rewrite (bool_decide_ext (u_EmailNormalized r = u_EmailNormalized o) (u_EmailNormalized o = u_EmailNormalized r)).
Qed.

(** A new table of users that knows every user of the old one. *)
Lemma db_ok_users db t' :
  table_ok users_table t' → (∀ k, is_Some (users db !! k) → is_Some (t' !! k)) → db_ok db → db_ok (with_users t' db).
Proof.
  intros Ht Hkeep []. constructor; try done; simpl.
  - by destruct Ht as (? & _).
  - intros k r Hk. by eapply Hkeep, ok_credential_user.
  - intros k r Hk. by eapply Hkeep, ok_session_user.
Qed.

Lemma CreateUser_ok a : stmt_rel ok_rel (CreateUser a).
Proof.
  intros db x db' (-> & -> & _ & _ & Hc & Hn & Hu)%insert_row_inl Hok. apply db_ok_users; [|by intros; apply is_Some_insert|done].
  apply (table_ok_insert users_table); [intros; apply users_conflict_sym|done|done|by destruct Hok].
Qed.

Lemma UpdateUser_ok a : stmt_rel ok_rel (UpdateUser a).
Proof.
  intros db x db' H Hok. unfold UpdateUser in H. stmt_cases H. apply negb_false_iff in E2.
  apply db_ok_users; [|by intros; apply is_Some_insert|done].
  destruct Hok. destruct ok_users as (Hk & Hc & Hu). split_and!; simpl in *.
  - apply map_Forall_insert_2; [|done]. simpl. by eapply Hk.
  - by apply checked_insert.
  - rewrite exists_row_false in E3. rewrite <- insert_delete_eq. apply unique_insert.
    + intros k o Ho. pose proof (E3 k o Ho) as Hno. rewrite (users_conflict_sym (updated_user_row a u) o), Hno. naive_solver.
    + intros k k' r r' H1 H2. apply lookup_delete_Some in H1 as [_ H1], H2 as [_ H2]. by eapply Hu.
Qed.

Lemma UpdateLastLogin_ok t id : stmt_rel ok_rel (UpdateLastLogin t id).
Proof.
  apply stmt_rel_exec; [apply _|]. intros db x db' (r & Hk & _ & Hc & _ & ->)%update_row_inl Hok.
  apply db_ok_users; [|by intros; apply is_Some_insert|done].
  eapply (table_ok_update users_table); [| |exact Hk|exact Hc|by destruct Hok]; [done|]. by intros o.
Qed.

Lemma CreateCredential_ok u h t t' : stmt_rel ok_rel (CreateCredential u h t t').
Proof.
  intros db x db' (-> & -> & _ & Hfk & Hc & Hn & Hu)%insert_row_inl Hok. destruct Hok. constructor; try done; simpl.
  - by apply (table_ok_insert credentials_table).
  - apply map_Forall_insert_2; [|done]. by apply references_Some.
Qed.

Lemma UpdateCredentialHash_ok h t u : stmt_rel ok_rel (UpdateCredentialHash h t u).
Proof.
  apply stmt_rel_exec; [apply _|]. intros db x db' (r & Hk & _ & Hc & _ & ->)%update_row_inl Hok.
  destruct Hok. constructor; try done; simpl.
  - by eapply (table_ok_update credentials_table); [| |exact Hk|exact Hc|].
  - apply map_Forall_insert_2; [|done]. by eapply ok_credential_user.
Qed.

(** ** Clients *)

Lemma client_conflict_sym r o : tbl_conflict oidc_clients_table o r = tbl_conflict oidc_clients_table r o.
Proof. simpl. by apply bool_decide_ext. Qed.

(** The type and method of a client never change. *)
Definition clients_kept (t t' : gmap uuid OidcClientRow) : Prop :=
  ∀ k c, t !! k = Some c → ∃ c', t' !! k = Some c' ∧ cl_ClientType c' = cl_ClientType c ∧
    cl_TokenEndpointAuthMethod c' = cl_TokenEndpointAuthMethod c.

Lemma db_ok_clients db t' :
  table_ok oidc_clients_table t' → clients_kept (oidc_clients db) t' → db_ok db → db_ok (with_oidc_clients t' db).
Proof.
  intros Ht Hkeep []. constructor; try done; simpl.
  - by destruct Ht as (? & _).
  - intros k r Hk. specialize (ok_secret_client k r Hk). unfold confidential_secret_guard in *. simpl.
    destruct (oidc_clients db !! sec_ClientID r) as [c|] eqn:E; [|done].
    destruct (Hkeep _ _ E) as (c' & -> & -> & ->). done.
Qed.

Lemma CreateOIDCClient_ok a : stmt_rel ok_rel (CreateOIDCClient a).
Proof.
  intros db x db' (-> & -> & _ & _ & Hc & Hn & Hu)%insert_row_inl Hok. apply db_ok_clients; [| |done].
  - apply (table_ok_insert oidc_clients_table); [intros; apply client_conflict_sym|done|done|by destruct Hok].
  - intros k c Hk. exists c. split; [|done]. rewrite lookup_insert_ne; [done|]. intros <-.
    change (oidc_clients db !! CC_ID a = None) in Hn. simpl in Hk. congruence.
Qed.

Lemma UpdateOIDCClient_ok a : stmt_rel ok_rel (UpdateOIDCClient a).
Proof.
  intros db x db' H Hok. unfold UpdateOIDCClient in H. destruct (oidc_clients db !! UC_ID a) as [c|] eqn:E; [|done].
  destruct (_ && _); [done|]. apply update_row_inl in H as (r & Hk & _ & Hc & _ & ->). apply db_ok_clients; [| |done].
  - eapply (table_ok_update oidc_clients_table); [| |exact Hk|exact Hc|by destruct Hok]; [done|]. by intros o.
  - intros k c' Hk'. simpl in *. destruct (decide (k = UC_ID a)) as [->|Hne].
    + rewrite lookup_insert_eq. eexists. by simplify_eq.
    + rewrite lookup_insert_ne by done. by exists c'.
Qed.

(** The child tables are free of invariants. *)
Lemma db_ok_redirects db t : db_ok db → db_ok (with_oidc_client_redirect_uris t db).
Proof. intros []. by constructor. Qed.
Lemma db_ok_logout_uris db t : db_ok db → db_ok (with_oidc_client_logout_uris t db).
Proof. intros []. by constructor. Qed.
Lemma db_ok_client_scopes db t : db_ok db → db_ok (with_oidc_client_scopes t db).
Proof. intros []. by constructor. Qed.

Lemma CreateOIDCClientRedirectURI_ok c v t : stmt_rel ok_rel (CreateOIDCClientRedirectURI c v t).
Proof. intros db x db' H Hok. unfold CreateOIDCClientRedirectURI, insert_child in H. stmt_cases H. by apply db_ok_redirects. Qed.
Lemma CreateOIDCClientLogoutURI_ok c v t : stmt_rel ok_rel (CreateOIDCClientLogoutURI c v t).
Proof. intros db x db' H Hok. unfold CreateOIDCClientLogoutURI, insert_child in H. stmt_cases H. by apply db_ok_logout_uris. Qed.
Lemma CreateOIDCClientScope_ok c v t : stmt_rel ok_rel (CreateOIDCClientScope c v t).
Proof. intros db x db' H Hok. unfold CreateOIDCClientScope, insert_child in H. stmt_cases H. by apply db_ok_client_scopes. Qed.
Lemma DeleteOIDCClientRedirectURIs_ok c : stmt_rel ok_rel (DeleteOIDCClientRedirectURIs c).
Proof. intros db x db' [= _ <-] Hok. by apply db_ok_redirects. Qed.
Lemma DeleteOIDCClientLogoutURIs_ok c : stmt_rel ok_rel (DeleteOIDCClientLogoutURIs c).
Proof. intros db x db' [= _ <-] Hok. by apply db_ok_logout_uris. Qed.
Lemma DeleteOIDCClientScopes_ok c : stmt_rel ok_rel (DeleteOIDCClientScopes c).
Proof. intros db x db' [= _ <-] Hok. by apply db_ok_client_scopes. Qed.

Lemma CreateOIDCClientSecret_ok i c h t : stmt_rel ok_rel (CreateOIDCClientSecret i c h t).
Proof.
  intros db x db' (-> & -> & Ht & _ & Hc & Hn & Hu)%insert_row_inl Hok. destruct Hok. constructor; try done; simpl.
  - apply (table_ok_insert oidc_client_secrets_table); [|done|done|done]. intros o. by apply bool_decide_ext.
  - by apply map_Forall_insert_2.
Qed.

Lemma RevokeActiveOIDCClientSecrets_ok t c : stmt_rel ok_rel (RevokeActiveOIDCClientSecrets t c).
Proof.
  intros db x db' (-> & -> & Hc)%update_rows_inl Hok. destruct Hok. set (f := λ r : OidcClientSecretRow, mkOidcClientSecretRow _ _ _ _ _ _).
  assert (Hr : rowwise (λ r r', sec_ID r' = sec_ID r ∧ sec_SecretHash r' = sec_SecretHash r ∧ sec_ClientID r' = sec_ClientID r)
                 (oidc_client_secrets db) (update_where (live_secret_of c) f (oidc_client_secrets db)))
    by (by apply rowwise_update_where; [intros r|]).
  constructor; try done; simpl.
  - eapply (table_ok_rowwise oidc_client_secrets_table); [| |exact Hr| |done]; simpl.
    + by intros ?? (? & _).
    + intros r r' o o' (_ & E1 & _) (_ & E2 & _). by rewrite E1, E2.
    + apply checked_update_where; [done|]. by destruct ok_secrets as (_ & ? & _).
  - intros k r' Hk. destruct (Hr k r' Hk) as (r & Hk' & _ & _ & ->). by eapply ok_secret_client.
Qed.

#[export] Hint Resolve CreateUser_ok UpdateUser_ok UpdateLastLogin_ok CreateCredential_ok UpdateCredentialHash_ok
  CreateOIDCClient_ok UpdateOIDCClient_ok CreateOIDCClientRedirectURI_ok CreateOIDCClientLogoutURI_ok
  CreateOIDCClientScope_ok DeleteOIDCClientRedirectURIs_ok DeleteOIDCClientLogoutURIs_ok DeleteOIDCClientScopes_ok
  CreateOIDCClientSecret_ok RevokeActiveOIDCClientSecrets_ok : tx_rel.

(** ** Browser state *)
(** ** What an UPDATE may change *)

(** A revoked session, a consumed pre-authentication session and a finished logout
    transaction never change again; counters only grow. *)
Definition session_update (r r' : LoginSessionRow) : Prop :=
  ls_ID r' = ls_ID r ∧ ls_UserID r' = ls_UserID r ∧ ls_TokenHash r' = ls_TokenHash r ∧
  ls_SessionBindingID r' = ls_SessionBindingID r ∧ ls_CreatedAt r' = ls_CreatedAt r ∧ ls_ExpiresAt r' = ls_ExpiresAt r ∧
  (is_Some (ls_RevokedAt r) → r' = r).
Definition preauth_update (r r' : PreauthSessionRow) : Prop :=
  pa_ID r' = pa_ID r ∧ pa_TokenHash r' = pa_TokenHash r ∧ pa_AuthTransactionID r' = pa_AuthTransactionID r ∧
  pa_ExpiresAt r' = pa_ExpiresAt r ∧ pa_AttemptCount r <= pa_AttemptCount r' ∧
  (is_Some (pa_ConsumedAt r) → r' = r).
Definition logout_update (r r' : LogoutTransactionRow) : Prop :=
  lo_ID r' = lo_ID r ∧ lo_LookupHash r' = lo_LookupHash r ∧ lo_VerifiedClientID r' = lo_VerifiedClientID r ∧
  lo_ExpiresAt r' = lo_ExpiresAt r ∧ lo_AttemptCount r <= lo_AttemptCount r' ∧
  (lo_Stage r ≠ StagePreConfirm → lo_SessionID r' = lo_SessionID r ∧ lo_UserID r' = lo_UserID r ∧
     lo_SessionBindingID r' = lo_SessionBindingID r) ∧
  (is_Some (lo_ConsumedAt r) → r' = r).

#[export] Instance session_update_refl : Reflexive session_update.
Proof. by intros r. Qed.
#[export] Instance preauth_update_refl : Reflexive preauth_update.
Proof. intros r. unfold preauth_update. split_and!; done || lia. Qed.
#[export] Instance logout_update_refl : Reflexive logout_update.
Proof. intros r. unfold logout_update. split_and!; done || lia. Qed.

(** ** login_sessions *)

Definition logout_session (db : DB) (id : uuid) : Prop :=
  ∃ i l, logout_transactions db !! i = Some l ∧ lo_SessionID l = Some id.

Lemma db_ok_sessions db t' :
  table_ok login_sessions_table t' → map_Forall (λ _ r, is_Some (users db !! ls_UserID r)) t' →
  (∀ k, logout_session db k → is_Some (login_sessions db !! k) → is_Some (t' !! k)) →
  db_ok db → db_ok (with_login_sessions t' db).
Proof.
  intros Ht Hu Hkeep []. constructor; try done; simpl.
  intros k l Hk id Hid. apply Hkeep; [by exists k, l|]. by eapply ok_logout_session.
Qed.

(** Updated rows of the session table. *)
Lemma db_ok_sessions_update db t' :
  rowwise session_update (login_sessions db) t' → (∀ k, is_Some (login_sessions db !! k) → is_Some (t' !! k)) →
  checked login_sessions_check t' → db_ok db → db_ok (with_login_sessions t' db).
Proof.
  intros Hr Hkeep Hc Hok. apply db_ok_sessions; [| |by auto|done].
  - eapply (table_ok_rowwise login_sessions_table); [| |exact Hr|done|by destruct Hok]; simpl.
    + by intros ?? (? & _).
    + intros r r' o o' (_ & _ & E1 & _) (_ & _ & E2 & _). by rewrite E1, E2.
  - intros k r' Hk. destruct (Hr k r' Hk) as (r & Hk' & _ & -> & _). by eapply (ok_session_user db Hok).
Qed.

Lemma CreateLoginSession_ok a : stmt_rel ok_rel (CreateLoginSession a).
Proof.
  intros db x db' (-> & -> & _ & Hfk & Hc & Hn & Hu)%insert_row_inl Hok.
  apply db_ok_sessions; [| |by intros; apply is_Some_insert|done].
  - apply (table_ok_insert login_sessions_table); [|done|done|by destruct Hok]. intros o. by apply bool_decide_ext.
  - apply map_Forall_insert_2; [by apply references_Some in Hfk|by destruct Hok].
Qed.

Lemma session_row_ok db id r f :
  login_sessions db !! id = Some r → session_update r (f r) → login_sessions_check (f r) = true →
  db_ok db → db_ok (with_login_sessions (<[id := f r]> (login_sessions db)) db).
Proof.
  intros Hk Hu Hc Hok. apply db_ok_sessions_update; [|by intros; apply is_Some_insert| |done].
  - by eapply rowwise_insert; [apply _| |].
  - apply checked_insert; [done|]. by destruct (ok_sessions db Hok) as (_ & ? & _).
Qed.

Ltac unrevoked := unfold session_update; simpl; split_and!; try done; intros [? Hsome]; go_bools; congruence.

Lemma TouchLoginSession_ok t i id : stmt_rel ok_rel (TouchLoginSession t i id).
Proof.
  apply stmt_rel_exec; [apply _|]. intros db x db' (r & Hk & Hp & Hc & _ & ->)%update_row_inl.
  apply session_row_ok; [done| |done]. unrevoked.
Qed.
Lemma RotateLoginSessionCSRF_ok h t id : stmt_rel ok_rel (RotateLoginSessionCSRF h t id).
Proof.
  apply stmt_rel_exec; [apply _|]. intros db x db' (r & Hk & Hp & Hc & _ & ->)%update_row_inl.
  apply session_row_ok; [done| |done]. unrevoked.
Qed.
Lemma revoke_session_where_ok id p t reason : stmt_rel ok_rel (revoke_session_where id p t reason).
Proof.
  intros db x db' (r & Hk & Hp & Hc & _ & ->)%update_row_inl. apply session_row_ok; [done| |done].
  apply andb_true_iff in Hp as [_ Hp]. unrevoked.
Qed.
Lemma RevokeLoginSessionByHash_ok t reason h : stmt_rel ok_rel (RevokeLoginSessionByHash t reason h).
Proof. intros db x db' H. unfold RevokeLoginSessionByHash in H. destruct (find_row _ _); [|done]. by eapply revoke_session_where_ok. Qed.

Lemma revoke_sessions_ok p t reason :
  (∀ r, p r = true → ls_RevokedAt r = None) → stmt_rel ok_rel (revoke_sessions p t reason).
Proof.
  intros Hp db x db' (-> & -> & Hc)%update_rows_inl Hok. apply db_ok_sessions_update; [| | |done].
  - apply rowwise_update_where; [apply _|]. intros r Hr. specialize (Hp r Hr). unrevoked.
  - intros k Hk. by rewrite lookup_update_where, fmap_is_Some.
  - apply checked_update_where; [done|]. by destruct (ok_sessions db Hok) as (_ & ? & _).
Qed.
Lemma RevokeOtherLoginSessions_ok t u c : stmt_rel ok_rel (RevokeOtherLoginSessions t u c).
Proof. apply revoke_sessions_ok. unfold unrevoked_of. intros r Hr. by go_bools. Qed.
Lemma RevokeAllUserLoginSessions_ok t reason u : stmt_rel ok_rel (RevokeAllUserLoginSessions t reason u).
Proof. apply revoke_sessions_ok. unfold unrevoked_of. intros r Hr. by go_bools. Qed.

(** Detaching a session changes no column the invariant reads. *)
Lemma detach_sessions_ok ids db : db_ok db → db_ok (detach_sessions ids db).
Proof.
  intros Hok. unfold detach_sessions. apply db_ok_access; [by apply rowwise_fmap| |].
  { apply (checked_rowwise _ (λ r r', r' = detach_access_session ids r)); [by intros ?? ->|by apply rowwise_fmap]. }
  apply db_ok_families.
  - apply (keyed_rowwise _ family_update); [by intros ?? (? & _)|by apply rowwise_fmap].
  - apply (checked_rowwise _ (λ r r', r' = detach_family_session ids r)); [by intros ?? ->|by apply rowwise_fmap].
  - by apply kept_fmap.
  - apply db_ok_codes; [by apply rowwise_fmap| |done].
    apply (checked_rowwise _ (λ r r', r' = detach_code_session ids r)); [by intros ?? ->|by apply rowwise_fmap].
Qed.

Lemma delete_login_session_inl id db x db' :
  delete_login_session id db = inl (x, db') →
  db' = with_login_sessions (delete id (login_sessions db)) (detach_sessions [id] db) ∧ ¬ logout_session db id.
Proof.
  unfold delete_login_session. intros H. stmt_cases H. split; [done|]. intros (i & l & Hi & Hl).
  rewrite exists_row_false in E0. specialize (E0 i l Hi). rewrite Hl in E0. simpl in E0.
  unfold set_member in E0. apply bool_decide_eq_false in E0. by apply E0, list_elem_of_singleton.
Qed.

Lemma table_ok_subseteq {R} (T : Table R) t t' : t' ⊆ t → table_ok T t → table_ok T t'.
Proof.
  intros Hs (Hk & Hc & Hu). assert (Hl : ∀ k r, t' !! k = Some r → t !! k = Some r) by (intros; by eapply lookup_weaken).
  split_and!; [by intros k r ?%Hl; apply Hk|by intros k r ?%Hl; eapply Hc|]. intros k k' r r' ?%Hl ?%Hl. by eapply Hu.
Qed.

Lemma delete_ids_subseteq {R} ids (t : gmap uuid R) : delete_ids ids t ⊆ t.
Proof. unfold delete_ids. apply map_filter_subseteq. Qed.

Lemma delete_login_session_ok id : stmt_rel ok_rel (delete_login_session id).
Proof.
  intros db x db' [-> Hno]%delete_login_session_inl Hok. apply db_ok_sessions; simpl.
  - eapply table_ok_subseteq; [apply delete_subseteq|by destruct Hok].
  - apply map_Forall_delete. by destruct Hok.
  - intros k Hl Hk. rewrite lookup_delete_ne; [done|]. intros <-. done.
  - by apply detach_sessions_ok.
Qed.

Lemma DeleteRetiredLoginSessions_ok h t n : stmt_rel ok_rel (DeleteRetiredLoginSessions h t n).
Proof.
  intros db x db' H. unfold DeleteRetiredLoginSessions in H. revert H. generalize (retired_sessions h t n db). intros ids H.
  assert (Hd : ∃ y, delete_login_sessions ids db = inl (y, db')).
  { destruct (delete_login_sessions ids db) as [[y d]|]; [|done]. injection H as _ <-. by exists y. }
  destruct Hd as [y Hd]. clear H. revert db Hd. induction ids as [|id ids IH]; intros db Hd; simpl in Hd.
  - by injection Hd as _ <-.
  - destruct (delete_login_session id db) as [[u d]|] eqn:E; [|done]. intros Hok. eapply IH; [done|].
    by eapply delete_login_session_ok.
Qed.

(** ** preauth_sessions *)

Lemma db_ok_preauth db t' :
  table_ok preauth_sessions_table t' →
  map_Forall (λ _ r, is_Some (auth_transactions db !! pa_AuthTransactionID r)) t' → db_ok db → db_ok (with_preauth_sessions t' db).
Proof. intros Ht Hr []. by constructor. Qed.

Lemma preauth_row_ok db id r r' :
  preauth_sessions db !! id = Some r → preauth_update r r' → preauth_sessions_check r' = true →
  db_ok db → db_ok (with_preauth_sessions (<[id := r']> (preauth_sessions db)) db).
Proof.
  intros Hk (Eid & Eh & Et & _) Hc Hok. apply db_ok_preauth; [| |done].
  - eapply (table_ok_update preauth_sessions_table); [exact Eid| |exact Hk|exact Hc|by destruct Hok].
    intros o. simpl. by rewrite Eh.
  - apply map_Forall_insert_2; [|by destruct Hok]. rewrite Et. by eapply (ok_preauth_transaction db Hok).
Qed.

Lemma CreatePreAuthSession_ok i h c a t t' : stmt_rel ok_rel (CreatePreAuthSession i h c a t t').
Proof.
  intros db x db' (-> & -> & _ & Hfk & Hc & Hn & Hu)%insert_row_inl Hok. apply db_ok_preauth; [| |done].
  - apply (table_ok_insert preauth_sessions_table); [|done|done|by destruct Hok]. intros o. by apply bool_decide_ext.
  - apply map_Forall_insert_2; [by apply references_Some in Hfk|by destruct Hok].
Qed.
Lemma ReservePreAuthAttempt_ok i t n : stmt_rel ok_rel (ReservePreAuthAttempt i t n).
Proof.
  intros db x db' (r & Hk & Hp & Hc & _ & ->)%update_row_inl. apply (preauth_row_ok _ _ r); [done| |done].
  unfold live_preauth in Hp. go_bools. unfold preauth_update. simpl. split_and!; try done; [lia|].
  intros [? Hs]. congruence.
Qed.
Lemma ConsumePreAuthSession_ok t i : stmt_rel ok_rel (ConsumePreAuthSession t i).
Proof.
  intros db x db' (r & Hk & Hp & Hc & _ & ->)%update_row_inl. apply (preauth_row_ok _ _ r); [done| |done].
  unfold live_preauth in Hp. go_bools. unfold preauth_update. simpl. split_and!; try done. intros [? Hs]. congruence.
Qed.
Lemma DeleteExpiredPreAuthSessions_ok h t n : stmt_rel ok_rel (DeleteExpiredPreAuthSessions h t n).
Proof.
  intros db x db' [= _ <-] Hok. apply db_ok_preauth; [| |done].
  - eapply table_ok_subseteq; [apply delete_ids_subseteq|by destruct Hok].
  - intros k r Hk. eapply (ok_preauth_transaction db Hok). by eapply lookup_weaken, delete_ids_subseteq.
Qed.

(** ** auth_transactions *)

Lemma CreateAuthTransaction_ok a : stmt_rel ok_rel (CreateAuthTransaction a).
Proof.
  intros db x db' (-> & -> & _ & _ & Hc & Hn & Hu)%insert_row_inl Hok. destruct Hok. constructor; try done; simpl.
  - apply (table_ok_insert auth_transactions_table); [|done..]. intros o. by apply bool_decide_ext.
  - intros k r Hk. by eapply is_Some_insert, ok_preauth_transaction.
  - intros k r Hk. by eapply is_Some_insert, ok_code_transaction.
Qed.

Lemma ExpireAuthTransactions_ok h t n : stmt_rel ok_rel (ExpireAuthTransactions h t n).
Proof.
  intros db x db' (_ & -> & Hc)%update_rows_inl. apply db_ok_transactions.
  - by apply rowwise_update_where.
  - by apply checked_update_where.
  - intros k Hk. by rewrite lookup_update_where, fmap_is_Some.
Qed.

Lemma DeleteRetiredAuthTransactions_ok h t n : stmt_rel ok_rel (DeleteRetiredAuthTransactions h t n).
Proof.
  intros db x db' [= _ <-] Hok. set (ids := batch _ _ _ _ _ _).
  assert (Hkey : keyed tx_ID (auth_transactions db)) by (by destruct (ok_transactions db Hok) as (? & _)).
  assert (Hkeep : ∀ k, (∃ i p, preauth_sessions db !! i = Some p ∧ pa_AuthTransactionID p = k) ∨
                       (∃ i c, authorization_codes db !! i = Some c ∧ code_AuthTransactionID c = k) →
                       is_Some (auth_transactions db !! k) → is_Some (delete_ids ids (auth_transactions db) !! k)).
  { intros k Href [r Hr]. exists r. apply map_lookup_filter_Some. split; [done|]. intros Hi%elem_of_batch.
    destruct Hi as (k' & r' & Hk' & Hp & Hid). assert (k' = k) as -> by (rewrite <- Hid; symmetry; by apply Hkey).
    unfold transaction_retired in Hp. rewrite !andb_true_iff, !negb_true_iff, !exists_row_false in Hp.
    destruct Hp as [[_ Hpa] Hco]. destruct Href as [(i & p & Hi & Hp)|(i & c & Hi & Hc)];
      [specialize (Hpa _ _ Hi)|specialize (Hco _ _ Hi)]; go_bools; congruence. }
  destruct Hok. constructor; try done; simpl.
  - eapply table_ok_subseteq; [apply delete_ids_subseteq|done].
  - intros k r Hk. apply Hkeep; [left; by exists k, r|by eapply ok_preauth_transaction].
  - intros k r Hk. apply Hkeep; [right; by exists k, r|by eapply ok_code_transaction].
Qed.

(** ** logout_transactions *)

Lemma db_ok_logouts db t' :
  table_ok logout_transactions_table t' →
  map_Forall (λ _ r, ∀ id, lo_SessionID r = Some id → is_Some (login_sessions db !! id)) t' →
  db_ok db → db_ok (with_logout_transactions t' db).
Proof. intros Ht Hr []. by constructor. Qed.

Lemma logout_row_ok db id r r' :
  logout_transactions db !! id = Some r → lo_ID r' = lo_ID r → lo_LookupHash r' = lo_LookupHash r →
  (∀ s, lo_SessionID r' = Some s → is_Some (login_sessions db !! s)) → logout_transactions_check r' = true →
  db_ok db → db_ok (with_logout_transactions (<[id := r']> (logout_transactions db)) db).
Proof.
  intros Hk Eid Eh Hs Hc Hok. apply db_ok_logouts; [| |done].
  - eapply (table_ok_update logout_transactions_table); [exact Eid| |exact Hk|exact Hc|by destruct Hok].
    intros o. simpl. by rewrite Eh.
  - apply map_Forall_insert_2; [done|by destruct Hok].
Qed.

Lemma CreateLogoutTransaction_ok i h c p s u t t' : stmt_rel ok_rel (CreateLogoutTransaction i h c p s u t t').
Proof.
  intros db x db' (-> & -> & _ & _ & Hc & Hn & Hu)%insert_row_inl Hok. apply db_ok_logouts; [| |done].
  - apply (table_ok_insert logout_transactions_table); [|done|done|by destruct Hok]. intros o. by apply bool_decide_ext.
  - apply map_Forall_insert_2; [done|by destruct Hok].
Qed.

Lemma BindPreConfirmLogoutTransaction_inl a db x db' :
  BindPreConfirmLogoutTransaction a db = inl (x, db') →
  ∃ r, logout_transactions db !! BL_ID a = Some r ∧ lo_Stage r = StagePreConfirm ∧ lo_ConsumedAt r = None ∧
       BL_BoundAt a < lo_ExpiresAt r ∧ logout_transactions_check (bind_logout a r) = true ∧ x = bind_logout a r ∧
       is_Some (users db !! BL_UserID a) ∧ is_Some (login_sessions db !! BL_SessionID a) ∧
       db' = with_logout_transactions (<[BL_ID a := bind_logout a r]> (logout_transactions db)) db.
Proof.
  unfold BindPreConfirmLogoutTransaction. intros H. destruct (update_row _ _ _ _ _) as [[y d]|] eqn:E; [|done].
  destruct (_ && _) eqn:Ef; [|done]. injection H as -> ->.
  apply update_row_inl in E as (r & Hk & Hp & Hc & -> & ->). apply andb_true_iff in Ef as [Hu Hs].
  apply references_Some in Hu, Hs. go_bools. by exists r.
Qed.

Lemma BindPreConfirmLogoutTransaction_ok a : stmt_rel ok_rel (BindPreConfirmLogoutTransaction a).
Proof.
  intros db x db' (r & Hk & _ & _ & _ & Hc & _ & _ & Hs & ->)%BindPreConfirmLogoutTransaction_inl.
  apply (logout_row_ok _ _ r); try done. by intros s [= <-].
Qed.

(** The other updates keep the session the transaction is bound to. *)
Lemma update_logout_ok id p f :
  (∀ r, lo_ID (f r) = lo_ID r ∧ lo_LookupHash (f r) = lo_LookupHash r ∧ lo_SessionID (f r) = lo_SessionID r) →
  stmt_rel ok_rel (update_row logout_transactions_table id p f).
Proof.
  intros Hf db x db' (r & Hk & _ & Hc & _ & ->)%update_row_inl Hok. destruct (Hf r) as (E1 & E2 & E3).
  apply (logout_row_ok _ _ r); try done. rewrite E3. by eapply (ok_logout_session db Hok).
Qed.
Lemma RotateBoundLogoutTransactionCSRF_ok h i t u s b : stmt_rel ok_rel (RotateBoundLogoutTransactionCSRF h i t u s b).
Proof. by apply update_logout_ok. Qed.
Lemma IncrementLogoutTransactionAttempt_ok i n : stmt_rel ok_rel (IncrementLogoutTransactionAttempt i n).
Proof. by apply update_logout_ok. Qed.
Lemma finish_bound_logout_ok g t i : stmt_rel ok_rel (finish_bound_logout g t i).
Proof. by apply update_logout_ok. Qed.
Lemma DeleteRetiredLogoutTransactions_ok h t c n : stmt_rel ok_rel (DeleteRetiredLogoutTransactions h t c n).
Proof.
  intros db x db' [= _ <-] Hok. apply db_ok_logouts; [| |done].
  - eapply table_ok_subseteq; [apply delete_ids_subseteq|by destruct Hok].
  - intros k r Hk. eapply (ok_logout_session db Hok). by eapply lookup_weaken, delete_ids_subseteq.
Qed.

#[export] Hint Resolve CreateLoginSession_ok TouchLoginSession_ok RotateLoginSessionCSRF_ok revoke_session_where_ok
  RevokeLoginSessionByHash_ok RevokeOtherLoginSessions_ok RevokeAllUserLoginSessions_ok DeleteRetiredLoginSessions_ok
  CreatePreAuthSession_ok ReservePreAuthAttempt_ok ConsumePreAuthSession_ok DeleteExpiredPreAuthSessions_ok
  CreateAuthTransaction_ok ExpireAuthTransactions_ok DeleteRetiredAuthTransactions_ok CreateLogoutTransaction_ok
  BindPreConfirmLogoutTransaction_ok RotateBoundLogoutTransactionCSRF_ok IncrementLogoutTransactionAttempt_ok
  finish_bound_logout_ok DeleteRetiredLogoutTransactions_ok : tx_rel.
