(* ===== verification/StatementFacts.v ===== *)
(** * What a successful statement did

    Inversion lemmas of the writing queries: the row they found, the guards that held,
    and the tables they left. *)

From S2P Require Import Prelude Errors Platform Scopes Domain AuditEvents Database Queries Tx StoreCommon Invariants.

Lemma CreateAuthorizationCode_inl a db x db' :
  CreateAuthorizationCode a db = inl (x, db') →
  authorization_codes db !! CAC_ID a = None ∧ authorization_codes_check (new_code_row a) = true ∧
  db' = with_authorization_codes (<[CAC_ID a := new_code_row a]> (authorization_codes db)) db.
Proof.
  unfold CreateAuthorizationCode. intros H. stmt_cases H. apply orb_false_iff in E0 as [E0 _].
  apply negb_false_iff in E. apply bool_decide_eq_false in E0. split_and!; [|done|done]. by apply not_is_Some_None.
Qed.

Lemma ConsumeAuthorizationCode_inl t id db x db' :
  ConsumeAuthorizationCode t id db = inl (x, db') →
  ∃ r, authorization_codes db !! id = Some r ∧ code_ConsumedAt r = None ∧ t < code_ExpiresAt r ∧
       db' = with_authorization_codes (<[id := consume_code t r]> (authorization_codes db)) db.
Proof. unfold ConsumeAuthorizationCode. intros H. stmt_cases H. go_bools. eexists. split_and!; done. Qed.

Lemma update_live_transaction_inl t id f db x db' :
  update_live_transaction t id f db = inl (x, db') →
  ∃ r, auth_transactions db !! id = Some r ∧ tx_ConsumedAt r = None ∧ t < tx_ExpiresAt r ∧
       db' = with_auth_transactions (<[id := f r]> (auth_transactions db)) db.
Proof. unfold update_live_transaction. intros H. stmt_cases H. go_bools. eexists. split_and!; done. Qed.

Lemma insert_access_token_inl r db x db' :
  insert_access_token r db = inl (x, db') →
  access_tokens db !! at_ID r = None ∧ access_token_authority_guard db r = true ∧ access_tokens_check r = true ∧
  db' = with_access_tokens (<[at_ID r := r]> (access_tokens db)) db.
Proof.
  unfold insert_access_token. intros H. stmt_cases H. apply orb_false_iff in E1 as [E1 _].
  apply negb_false_iff in E, E0. apply bool_decide_eq_false in E1. split_and!; try done. by apply not_is_Some_None.
Qed.

Lemma CreateRefreshTokenFamily_inl a db x db' :
  CreateRefreshTokenFamily a db = inl (x, db') →
  refresh_token_families db !! CRF_ID a = None ∧ refresh_token_families_check (new_family_row a) = true ∧
  db' = with_refresh_token_families (<[CRF_ID a := new_family_row a]> (refresh_token_families db)) db.
Proof.
  unfold CreateRefreshTokenFamily. intros H. stmt_cases H. apply orb_false_iff in E1 as [E1 _].
  apply negb_false_iff in E, E0. apply bool_decide_eq_false in E1. split_and!; try done. by apply not_is_Some_None.
Qed.

Lemma CreateRefreshToken_inl a db x db' :
  CreateRefreshToken a db = inl (x, db') →
  refresh_tokens db !! CRT_ID a = None ∧ refresh_tokens_check (new_refresh_row a) = true ∧
  (∀ k o, refresh_tokens db !! k = Some o → refresh_conflict (new_refresh_row a) o = false) ∧
  db' = with_refresh_tokens (<[CRT_ID a := new_refresh_row a]> (refresh_tokens db)) db.
Proof.
  unfold CreateRefreshToken. intros H. stmt_cases H. apply orb_false_iff in E1 as [E1 E1'].
  apply negb_false_iff in E, E0. apply bool_decide_eq_false in E1. rewrite exists_row_false in E1'.
  split_and!; try done. by apply not_is_Some_None.
Qed.

Lemma ConsumeRefreshToken_inl t id db x db' :
  ConsumeRefreshToken t id db = inl (x, db') →
  ∃ r, refresh_tokens db !! id = Some r ∧ rt_ConsumedAt r = None ∧
       db' = with_refresh_tokens (<[id := consume_refresh t r]> (refresh_tokens db)) db.
Proof. unfold ConsumeRefreshToken. intros H. stmt_cases H. go_bools. eexists. split_and!; done. Qed.

Lemma RevokeRefreshTokenFamily_inl t reason id db x db' :
  RevokeRefreshTokenFamily t reason id db = inl (x, db') →
  ∃ r, refresh_token_families db !! id = Some r ∧ rf_RevokedAt r = None ∧
       db' = with_refresh_token_families (<[id := revoke_family t reason r]> (refresh_token_families db)) db.
Proof. unfold RevokeRefreshTokenFamily. intros H. stmt_cases H. go_bools. eexists. split_and!; done. Qed.

Lemma RevokeAccessToken_inl t reason id db x db' :
  RevokeAccessToken t reason id db = inl (x, db') →
  ∃ r, access_tokens db !! id = Some r ∧ at_RevokedAt r = None ∧
       db' = with_access_tokens (<[id := revoke_access t reason r]> (access_tokens db)) db.
Proof. unfold RevokeAccessToken. intros H. stmt_cases H. go_bools. eexists. split_and!; done. Qed.

Lemma revoke_live_access_inl owner t reason db x db' :
  revoke_live_access owner t reason db = inl (x, db') →
  db' = with_access_tokens
          (update_where (λ r, owner r && live_access t r) (revoke_access t reason) (access_tokens db)) db.
Proof. unfold revoke_live_access. intros H. by stmt_cases H. Qed.

Lemma revoke_families_inl {A} owner t reason (res : _ → _ → A) db x db' :
  revoke_families owner t reason res db = inl (x, db') →
  db' = with_refresh_token_families
          (update_where (λ r, owner r && (rf_RevokedAt r == None)) (revoke_family t reason) (refresh_token_families db)) db.
Proof. unfold revoke_families. intros H. by stmt_cases H. Qed.

Lemma CreateConsentGrant_inl id u c s t t' db x db' :
  CreateConsentGrant id u c s t t' db = inl (x, db') →
  consent_grants db !! id = None ∧ x = mkConsentGrantRow id u c s t t' None 1 ∧
  db' = with_consent_grants (<[id := x]> (consent_grants db)) db.
Proof.
  unfold CreateConsentGrant. intros H. stmt_cases H. apply orb_false_iff in E0 as [E0 _].
  apply bool_decide_eq_false in E0. split_and!; [|done|done]. by apply not_is_Some_None.
Qed.

(** The unique index on (user, client): a grant is created only when there is none. *)
Lemma CreateConsentGrant_first id u c s t t' db x db' :
  CreateConsentGrant id u c s t t' db = inl (x, db') → find_row (grant_of u c) (consent_grants db) = None.
Proof.
  unfold CreateConsentGrant. intros H. stmt_cases H. apply orb_false_iff in E0 as [_ E0].
  rewrite exists_row_false in E0. by apply find_row_None.
Qed.

Lemma update_grant_inl id p f db x db' :
  update_grant id p f db = inl (x, db') →
  ∃ r, consent_grants db !! id = Some r ∧ p r = true ∧ x = f r ∧
       db' = with_consent_grants (<[id := x]> (consent_grants db)) db.
Proof. unfold update_grant. intros H. stmt_cases H. apply negb_false_iff in E0. eexists. split_and!; done. Qed.

(** The row a hash or an owner selects is the keyed row, and the only one. *)
Lemma code_by_hash db h r :
  db_ok db → find_row (λ o, code_CodeHash o == h) (authorization_codes db) = Some r →
  authorization_codes db !! code_ID r = Some r ∧ code_CodeHash r = h.
Proof.
  intros Hok Hf. apply find_row_Some in Hf as [Hh [k Hk]]. rewrite (ok_codes_key _ Hok _ _ Hk). by go_bools.
Qed.

Lemma grant_by_owner db u c r :
  db_ok db → find_row (grant_of u c) (consent_grants db) = Some r →
  consent_grants db !! g_ID r = Some r ∧ g_UserID r = u ∧ g_ClientID r = c.
Proof.
  intros Hok Hf. apply find_row_Some in Hf as [Hh [k Hk]]. rewrite (ok_grants_key _ Hok _ _ Hk).
  unfold grant_of in Hh. by go_bools.
Qed.

Lemma refresh_by_hash db h r :
  db_ok db → find_row (λ o, rt_TokenHash o == h) (refresh_tokens db) = Some r →
  refresh_tokens db !! rt_ID r = Some r ∧ rt_TokenHash r = h.
Proof.
  intros Hok Hf. apply find_row_Some in Hf as [Hh [k Hk]]. rewrite (ok_refresh_key _ Hok _ _ Hk). by go_bools.
Qed.
