(* ===== verification/ExchangeProofs.v ===== *)
(** * The authorization code exchange, specified and proved

    [exchangeable] is the authority a code needs, [exchange_effect] the one change of
    the tables a successful exchange makes; the transaction refines them. *)

From S2P Require Import Prelude Errors Platform Scopes Domain Opaque AuditEvents Database Queries Tx StoreCommon.
From S2P Require Import TokenStore Invariants StatementFacts.
Import Authorization Refresh.

Section proofs.
Context {P : Platform}.

(** ** Specification *)

(** The rows behind a presented code, and the authority they must carry. *)
Record exchangeable (db : DB) (input : ExchangeInput) (code : AuthorizationCodeRow) (user : UserRow)
    (client : OidcClientRow) (grant : ConsentGrantRow) (scopes : list string) : Prop := {
  ex_code : find_row (λ o, code_CodeHash o == ExchangeInput_CodeHash input) (authorization_codes db) = Some code;
  ex_unconsumed : code_ConsumedAt code = None;
  ex_live : ExchangeInput_Now input < code_ExpiresAt code;
  ex_client_bound : code_ClientID code = Client_ID (ExchangeInput_Client input);
  ex_redirect_bound : code_RedirectUri code = ExchangeInput_RedirectURI input;
  ex_pkce : code_PkceMethod code = "S256" ∧ VerifyS256 (ExchangeInput_CodeVerifier input) (code_PkceChallenge code) = true;
  ex_user : users db !! code_UserID code = Some user ∧ u_Status user = identity_StatusActive;
  ex_client : oidc_clients db !! code_ClientID code = Some client;
  ex_authenticated : sameAuthenticatedClient (client_of db client) (ExchangeInput_Client input) = true;
  ex_redirect_registered : code_RedirectUri code ∈ child_values (oidc_client_redirect_uris db) (cl_ID client);
  ex_scopes : CanonicalScopes (code_Scopes code) = Some scopes;
  ex_client_scopes : ∀ s, s ∈ scopes → s ∈ child_values (oidc_client_scopes db) (cl_ID client);
  ex_grant : find_row (grant_of (code_UserID code) (code_ClientID code)) (consent_grants db) = Some grant;
  ex_grant_id : g_ID grant = code_ConsentGrantID code;
  ex_grant_version : g_Version grant = code_ConsentGrantVersion code;
  ex_grant_live : g_RevokedAt grant = None;
  ex_grant_scopes : ∀ s, s ∈ scopes → s ∈ g_Scopes grant }.

Definition exchange_authority (input : ExchangeInput) (db : DB) (code : AuthorizationCodeRow) (user : UserRow)
    (client : OidcClientRow) (grant : ConsentGrantRow) (scopes : list string) : Authority :=
  mkAuthority (code_ID code) (g_ID grant) (code_OriginSessionID code) (code_SessionBindingID code)
    (mapUser user) (client_of db client) scopes (valueString (code_NonceValue code)) (code_AuthTime code)
    (ExchangeInput_Now input).

Definition initial_family (code : AuthorizationCodeRow) (grantID : uuid) (scopes : list string) (minted : Minted)
    (initial : InitialRefresh) (binding : uuid) : RefreshTokenFamilyRow :=
  mkRefreshTokenFamilyRow (InitialRefresh_FamilyID initial) (Some (code_ID code)) grantID (code_UserID code)
    (code_ClientID code) (code_OriginSessionID code) binding scopes (timestamp (Minted_IssuedAt minted))
    (timestamp (InitialRefresh_AbsoluteExpiresAt initial)) None None.

Definition initial_generation (minted : Minted) (initial : InitialRefresh) : RefreshTokenRow :=
  mkRefreshTokenRow (InitialRefresh_TokenID initial) (InitialRefresh_FamilyID initial)
    (InitialRefresh_TokenHash initial) 0 (timestamp (Minted_IssuedAt minted))
    (timestamp (InitialRefresh_ExpiresAt initial)) None.

Definition exchanged_access (code : AuthorizationCodeRow) (grantID : uuid) (scopes : list string) (minted : Minted)
    : AccessTokenRow :=
  mkAccessTokenRow (Minted_AccessTokenID minted) (Minted_JTIHash minted) (Some (code_ID code)) grantID
    (code_UserID code) (code_ClientID code) scopes (timestamp (Minted_IssuedAt minted))
    (timestamp (Minted_AccessExpiresAt minted)) "authorization_code" None
    (InitialRefresh_FamilyID <$> Minted_InitialRefresh minted)
    (code_OriginSessionID code) (code_SessionBindingID code) None None.

Definition initial_refresh_effect (code : AuthorizationCodeRow) (grantID : uuid) (scopes : list string) (minted : Minted)
    (db : DB) : DB :=
  match Minted_InitialRefresh minted, code_SessionBindingID code with
  | Some initial, Some binding =>
      with_refresh_tokens (<[InitialRefresh_TokenID initial := initial_generation minted initial]> (refresh_tokens db))
        (with_refresh_token_families
           (<[InitialRefresh_FamilyID initial := initial_family code grantID scopes minted initial binding]>
              (refresh_token_families db)) db)
  | _, _ => db
  end.

(** The family and its generation, the access metadata, and the consumed code. *)
Definition exchange_effect (code : AuthorizationCodeRow) (grantID : uuid) (scopes : list string) (minted : Minted)
    (now : time) (db : DB) : DB :=
  let db1 := initial_refresh_effect code grantID scopes minted db in
  with_authorization_codes (<[code_ID code := consume_code (timestamp now) code]> (authorization_codes db))
    (with_access_tokens (<[Minted_AccessTokenID minted := exchanged_access code grantID scopes minted]> (access_tokens db)) db1).

(** ** The transaction refines the specification *)

Lemma createInitialRefresh_inl code grantID scopes minted w w' fid :
  createInitialRefresh code grantID scopes minted w = (w', inl fid) →
  fid = InitialRefresh_FamilyID <$> Minted_InitialRefresh minted ∧ w_rand w' = w_rand w ∧
  w_db w' = initial_refresh_effect code grantID scopes minted (w_db w) ∧
  (is_Some (Minted_InitialRefresh minted) → is_Some (code_OriginSessionID code) ∧ is_Some (code_SessionBindingID code)).
Proof.
  unfold createInitialRefresh, initial_refresh_effect.
  destruct (Minted_InitialRefresh minted) as [i|]; intros H; [|tx_step H; by rewrite is_Some_alt].
  destruct (code_OriginSessionID code) as [s|] eqn:Es; [|tx_step H].
  destruct (code_SessionBindingID code) as [b|]; [|tx_step H]. repeat tx_step H.
  apply CreateRefreshTokenFamily_inl in Hstmt as (_ & _ & ->).
  apply CreateRefreshToken_inl in Hstmt0 as (_ & _ & _ & ->).
  split_and!; [done|congruence| |done]. rewrite Hdb0. unfold initial_family, new_family_row. simpl. by rewrite Es.
Qed.

Lemma initial_refresh_codes code g scopes minted db :
  authorization_codes (initial_refresh_effect code g scopes minted db) = authorization_codes db ∧
  access_tokens (initial_refresh_effect code g scopes minted db) = access_tokens db ∧
  consent_grants (initial_refresh_effect code g scopes minted db) = consent_grants db.
Proof.
  unfold initial_refresh_effect. by destruct (Minted_InitialRefresh minted), (code_SessionBindingID code).
Qed.

Lemma commitExchange_inl input code grant scopes minted w w' o :
  authorization_codes (w_db w) !! code_ID code = Some code →
  commitExchange input code grant scopes minted w = (w', inl o) →
  (∃ audits, w_db w' = with_audit_events audits
     (exchange_effect code (Grant_ID grant) scopes minted (ExchangeInput_Now input) (w_db w))) ∧
  o = Exchanged (mkResponse (Minted_AccessToken minted) "Bearer"
        (expiresIn (Minted_AccessExpiresAt minted) (Minted_IssuedAt minted)) (Minted_IDToken minted)
        (match Minted_InitialRefresh minted with Some i => InitialRefresh_ClearToken i | None => "" end)
        (join_space scopes)).
Proof.
  intros Hcode H. unfold commitExchange in H. tx_step H.
  apply createInitialRefresh_inl in Hrun as (-> & Hr & Hdb & Hsome).
  destruct (initial_refresh_codes code (Grant_ID grant) scopes minted (w_db w)) as (Ecodes & Eaccess & _).
  do 4 store_step H. apply insert_access_token_inl in Hstmt as (_ & _ & _ & ->).
  apply ConsumeAuthorizationCode_inl in Hstmt0 as (r & Hr' & _ & _ & ->). simpl in Hr'.
  rewrite Ecodes, Hcode in Hr'. injection Hr' as <-. tx_step H. tx_step H. split; [|done].
  assert (Hlast : ∃ au, w_db w5 = with_audit_events au (w_db w4)).
  { destruct (Minted_InitialRefresh minted); [by apply insertProtocolAudit_step in Hrun as (au & ? & _); exists au|].
    tx_step Hrun. exists (audit_events (w_db w4)). by destruct (w_db w4). }
  destruct Hlast as [au Hau]. exists au. rewrite Hau, Hdb3.
  unfold exchange_effect, exchanged_access. simpl. by rewrite Ecodes, Eaccess.

Qed.

Lemma exchangeable_intro db input code user client grant scopes :
  find_row (λ o, code_CodeHash o == ExchangeInput_CodeHash input) (authorization_codes db) = Some code →
  ¬ is_Some (code_ConsumedAt code) →
  negb (Time.After (code_ExpiresAt code) (ExchangeInput_Now input)) = false →
  (code_ClientID code != Client_ID (ExchangeInput_Client input)) ||
  (code_RedirectUri code != ExchangeInput_RedirectURI input) || (code_PkceMethod code != "S256") ||
  negb (VerifyS256 (ExchangeInput_CodeVerifier input) (code_PkceChallenge code)) = false →
  users db !! code_UserID code = Some user → (u_Status user != identity_StatusActive) = false →
  oidc_clients db !! code_ClientID code = Some client →
  negb (sameAuthenticatedClient (client_of db client) (ExchangeInput_Client input)) ||
  negb (bool_decide (code_RedirectUri code ∈ Client_RedirectURIs (client_of db client))) = false →
  CanonicalScopes (code_Scopes code) = Some scopes →
  negb (scopeSubset scopes (Client_Scopes (client_of db client))) = false →
  find_row (grant_of (code_UserID code) (code_ClientID code)) (consent_grants db) = Some grant →
  (Grant_ID (mapConsentGrant grant) != code_ConsentGrantID code) ||
  (Grant_Version (mapConsentGrant grant) != code_ConsentGrantVersion code) ||
  bool_decide (is_Some (Grant_RevokedAt (mapConsentGrant grant))) ||
  (Difference scopes (Intersection (Grant_Scopes (mapConsentGrant grant)) (Client_Scopes (client_of db client))) != []) = false →
  exchangeable db input code user client grant scopes.
Proof.
  intros H1 H2 H3 H4 H5 H6 H7 H8 H9 H10 H11 H12. time_unfold.
  rewrite !orb_false_iff in *. destruct H12 as [[[G1 G2] G3] G4].
  assert (Hd : Difference scopes (Intersection (g_Scopes grant) (Client_Scopes (client_of db client))) = []).
  { by apply negb_false_iff, bool_decide_eq_true in G4. }
  pose proof (CanonicalScopes_canonical _ _ H9) as (_ & _ & Hsup & _).
  rewrite Difference_nil in Hd by done.
  apply negb_false_iff in H10. rewrite scopeSubset_spec in H10. simpl in *. go_bools.
  split; try done; try by apply not_is_Some_None.
  intros s Hs. by apply Hd, elem_of_Intersection in Hs as (_ & ? & _).
Qed.

Lemma exchange_inv input mint w w' resp :
  db_ok (w_db w) → exchangeAuthorizationCode_tx input mint w = (w', inl (Exchanged resp)) →
  ∃ code user client grant scopes minted s audits,
    exchangeable (w_db w) input code user client grant scopes ∧
    mint (exchange_authority input (w_db w) code user client grant scopes) (w_rand w) = (s, inl minted) ∧
    validMintedTokens minted (ExchangeInput_Now input) (bool_decide ("offline_access" ∈ scopes)) = true ∧
    w_db w' = with_audit_events audits
                (exchange_effect code (g_ID grant) scopes minted (ExchangeInput_Now input) (w_db w)) ∧
    resp = mkResponse (Minted_AccessToken minted) "Bearer"
             (expiresIn (Minted_AccessExpiresAt minted) (Minted_IssuedAt minted)) (Minted_IDToken minted)
             (match Minted_InitialRefresh minted with Some i => InitialRefresh_ClearToken i | None => "" end)
             (join_space scopes).
Proof.
  intros Hok H. unfold exchangeAuthorizationCode_tx in H. tx_step H. rename a into code.
  case_bool_decide as Hcons; [repeat store_step H; by destruct a|].
  do 7 store_step H. destruct (CanonicalScopes _) as [scopes|] eqn:Hscopes; [|tx_step H].
  do 5 store_step H. rename a1 into user, a3 into client, a6 into grant, a8 into minted.
  destruct (code_by_hash _ _ _ Hok Hstmt) as [Hkey _]. rewrite <- Hdb8 in Hkey.
  apply commitExchange_inl in H as [[audits Haud] [= ->]]; [|done]. rewrite Hdb8 in Haud.
  exists code, user, client, grant, scopes, minted, s, audits. split_and!; try done.
  - by apply exchangeable_intro.
  - by apply negb_false_iff.
Qed.

(** A replay changes nothing but the audit log, and mints nothing. *)
Lemma replay_inv input mint w w' :
  exchangeAuthorizationCode_tx input mint w = (w', inl ReplayRejected) →
  w_rand w' = w_rand w ∧ ∃ audits, w_db w' = with_audit_events audits (w_db w).
Proof.
  intros H. unfold exchangeAuthorizationCode_tx in H. tx_step H. rename a into code.
  destruct (bool_decide (is_Some (code_ConsumedAt code))) eqn:Hcons.
  - tx_step H. unfold HasAuthorizationCodeExchangeRejection in Hstmt0. injection Hstmt0 as <- <-. tx_step H. tx_step H.
    destruct (exists_row _ _); simpl in Hrun; repeat store_step Hrun.
    + split; [congruence|]. exists (audit_events (w_db w)). rewrite Hdb1. by destruct (w_db w).
    + split; [congruence|]. by exists audits.
  - do 7 store_step H. destruct (CanonicalScopes _) as [scopes|] eqn:Hscopes; [|tx_step H].
    do 5 store_step H. unfold commitExchange in H. do 5 store_step H. by repeat store_step H.
Qed.

(** ** The operation *)

(** What [ExchangeAuthorizationCode] did when it returned: tokens only for a committed
    exchange; otherwise the tables are unchanged, a replay was recorded, or — only
    with the ambiguous commit error — the exchange did happen. *)
Lemma Exchange_cases input mint w w' r :
  ExchangeAuthorizationCode input mint w = (w', r) →
  match r with
  | inl resp => committed (exchangeAuthorizationCode_tx input mint) (w_db w) (Exchanged resp) (w_db w')
  | inr e =>
      w_db w' = w_db w ∨
      ∃ o, committed (exchangeAuthorizationCode_tx input mint) (w_db w) o (w_db w') ∧
           ((o = ReplayRejected ∧ e = token_ErrInvalidGrant) ∨ ∃ d, e = wrapError "commit transaction" ErrorKindQuery d)
  end.
Proof.
  unfold ExchangeAuthorizationCode, mbind, Tx_bind, reject_if. destruct (_ || _); [intros [= <- <-]; by left|].
  unfold mret, Tx_ret. destruct (inTx _ w) as [w1 [o|e]] eqn:E.
  - apply inTx_attempts_cases in E. simpl. destruct o; intros [= <- <-]; [|done].
    right. exists ReplayRejected. split; [done|by left].
  - apply inTx_attempts_cases in E. intros [= <- <-]. destruct E as [E|[[o E] Hd]]; [by left|right].
    exists o. split; [done|by right].
Qed.

(** A digest whose codes are all consumed buys nothing. *)
Lemma spent_not_exchangeable db input code user client grant scopes :
  map_Forall (λ _ r, code_CodeHash r = ExchangeInput_CodeHash input → is_Some (code_ConsumedAt r)) (authorization_codes db) →
  exchangeable db input code user client grant scopes → False.
Proof.
  intros Hs []. apply find_row_Some in ex_code0 as [Hh [k Hk]]. go_bools.
  destruct (Hs _ _ Hk Hh) as [t Ht]. congruence.
Qed.
End proofs.
