(* ===== verification/Writes.v ===== *)
(** * The changes the store can make

    [write] lists, as rules, the ways a statement of the protocol core changes the
    tables; every statement is a sequence of them.  What holds for [write] by rule
    induction holds for every operation, under every fault.  A [policy] restricts the
    rows that are inserted, for properties such as "once spent, spent for good". *)

From S2P Require Import Prelude Errors Platform Scopes Domain AuditEvents Database Queries RegistryQueries BrowserQueries.
From S2P Require Import Tx StoreCommon Invariants RegistryInvariants StatementFacts.

(** Both tables have the same keys, and the rows are related. *)
Definition pointwise {R} (S : R → R → Prop) (t t' : gmap uuid R) : Prop :=
  ∀ k, option_Forall2 S (t !! k) (t' !! k).

Definition access_revoked (r r' : AccessTokenRow) : Prop :=
  r' = r ∨ (at_RevokedAt r = None ∧ ∃ t reason, r' = revoke_access t reason r).
Definition family_revoked (r r' : RefreshTokenFamilyRow) : Prop :=
  r' = r ∨ (rf_RevokedAt r = None ∧ ∃ t reason, r' = revoke_family t reason r).

Definition transaction_finished (r r' : AuthTransactionRow) : Prop :=
  r' = r ∨ (tx_ConsumedAt r = None ∧ ∃ t reason, r' = finish_transaction t reason r).
Definition secret_revoked (r r' : OidcClientSecretRow) : Prop :=
  r' = r ∨ (sec_RevokedAt r = None ∧ sec_ID r' = sec_ID r ∧ sec_ClientID r' = sec_ClientID r ∧
            sec_SecretHash r' = sec_SecretHash r ∧ is_Some (sec_RevokedAt r')).

(** A login changes no more of a user than two timestamps. *)
Definition same_account (r r' : UserRow) : Prop :=
  u_ID r' = u_ID r ∧ u_Subject r' = u_Subject r ∧ u_UsernameNormalized r' = u_UsernameNormalized r ∧
  u_EmailNormalized r' = u_EmailNormalized r ∧ u_Status r' = u_Status r ∧ u_Role r' = u_Role r ∧ u_Version r' = u_Version r.
(** An administrator's update never changes the id or the subject, and counts. *)
Definition user_update (r r' : UserRow) : Prop :=
  u_ID r' = u_ID r ∧ u_Subject r' = u_Subject r ∧ u_Version r' = u_Version r + 1.
Definition client_update (r r' : OidcClientRow) : Prop :=
  cl_ID r' = cl_ID r ∧ cl_ClientID r' = cl_ClientID r ∧ cl_ClientType r' = cl_ClientType r ∧
  cl_TokenEndpointAuthMethod r' = cl_TokenEndpointAuthMethod r ∧ cl_Version r' = cl_Version r + 1.

Record policy := mkPolicy {
  new_code : AuthorizationCodeRow → Prop;
  new_family : RefreshTokenFamilyRow → Prop;
  new_refresh : RefreshTokenRow → Prop;
  new_access : AccessTokenRow → Prop;
  new_session : LoginSessionRow → Prop;
  new_preauth : PreauthSessionRow → Prop;
  new_transaction : AuthTransactionRow → Prop;
  new_logout : LogoutTransactionRow → Prop;
  new_secret : OidcClientSecretRow → Prop;
  new_user : UserRow → Prop;
  changed_user : UserRow → UserRow → Prop }.

Definition any {A} : A → Prop := λ _, True.
Definition any_change {A} : A → A → Prop := λ _ _, True.
Definition any_row : policy := mkPolicy any any any any any any any any any any any_change.

Section write.
Context (pol : policy).

Inductive write : DB → DB → Prop :=
| write_code_new db r :
    new_code pol r → code_ConsumedAt r = None → authorization_codes db !! code_ID r = None →
    write db (with_authorization_codes (<[code_ID r := r]> (authorization_codes db)) db)
| write_code_consume db id r t :
    authorization_codes db !! id = Some r → code_ConsumedAt r = None →
    write db (with_authorization_codes (<[id := consume_code t r]> (authorization_codes db)) db)
| write_grant_new db r :
    consent_grants db !! g_ID r = None → g_RevokedAt r = None → g_Version r = 1 →
    write db (with_consent_grants (<[g_ID r := r]> (consent_grants db)) db)
| write_grant_update db id r r' :
    consent_grants db !! id = Some r → grant_update r r' → g_Version r' = g_Version r + 1 →
    write db (with_consent_grants (<[id := r']> (consent_grants db)) db)
| write_transaction db id r t reason :
    auth_transactions db !! id = Some r → tx_ConsumedAt r = None →
    write db (with_auth_transactions (<[id := finish_transaction t reason r]> (auth_transactions db)) db)
| write_access_new db r :
    new_access pol r → at_RevokedAt r = None → access_tokens db !! at_ID r = None →
    write db (with_access_tokens (<[at_ID r := r]> (access_tokens db)) db)
| write_access_revoke db t' :
    pointwise access_revoked (access_tokens db) t' → write db (with_access_tokens t' db)
| write_family_new db r :
    new_family pol r → rf_RevokedAt r = None → refresh_token_families db !! rf_ID r = None →
    write db (with_refresh_token_families (<[rf_ID r := r]> (refresh_token_families db)) db)
| write_family_revoke db t' :
    pointwise family_revoked (refresh_token_families db) t' → write db (with_refresh_token_families t' db)
| write_refresh_new db r :
    new_refresh pol r → rt_ConsumedAt r = None → refresh_tokens db !! rt_ID r = None →
    write db (with_refresh_tokens (<[rt_ID r := r]> (refresh_tokens db)) db)
| write_refresh_consume db id r t :
    refresh_tokens db !! id = Some r → rt_ConsumedAt r = None →
    write db (with_refresh_tokens (<[id := consume_refresh t r]> (refresh_tokens db)) db)
| write_audit db r :
    audit_events db !! ae_ID r = None → write db (with_audit_events (<[ae_ID r := r]> (audit_events db)) db)
| write_retire_codes db ids :
    write db (with_refresh_token_families (detach_family_code ids <$> refresh_token_families db)
      (with_access_tokens (detach_access_code ids <$> access_tokens db)
         (with_authorization_codes (delete_ids ids (authorization_codes db)) db)))
| write_retire_access db ids : write db (with_access_tokens (delete_ids ids (access_tokens db)) db)
| write_retire_refresh db ids : write db (with_refresh_tokens (delete_ids ids (refresh_tokens db)) db)
| write_retire_families db ids :
    write db (with_refresh_token_families (delete_ids ids (refresh_token_families db)) db)
| write_transaction_new db r :
    new_transaction pol r → tx_ConsumedAt r = None → auth_transactions db !! tx_ID r = None →
    write db (with_auth_transactions (<[tx_ID r := r]> (auth_transactions db)) db)
| write_transaction_expire db t' :
    pointwise transaction_finished (auth_transactions db) t' → write db (with_auth_transactions t' db)
| write_retire_transactions db ids : write db (with_auth_transactions (delete_ids ids (auth_transactions db)) db)
| write_user_new db r :
    new_user pol r → users db !! u_ID r = None → write db (with_users (<[u_ID r := r]> (users db)) db)
| write_user_update db id r r' :
    changed_user pol r r' → users db !! id = Some r → user_update r r' →
    write db (with_users (<[id := r']> (users db)) db)
| write_user_login db id r r' :
    users db !! id = Some r → same_account r r' → write db (with_users (<[id := r']> (users db)) db)
| write_credential db id r : write db (with_credentials (<[id := r]> (credentials db)) db)
| write_client_new db r :
    oidc_clients db !! cl_ID r = None → write db (with_oidc_clients (<[cl_ID r := r]> (oidc_clients db)) db)
| write_client_update db id r r' :
    oidc_clients db !! id = Some r → client_update r r' →
    write db (with_oidc_clients (<[id := r']> (oidc_clients db)) db)
| write_redirects db t' : write db (with_oidc_client_redirect_uris t' db)
| write_logout_uris db t' : write db (with_oidc_client_logout_uris t' db)
| write_client_scopes db t' : write db (with_oidc_client_scopes t' db)
| write_secret_new db r :
    new_secret pol r → sec_RevokedAt r = None → oidc_client_secrets db !! sec_ID r = None →
    write db (with_oidc_client_secrets (<[sec_ID r := r]> (oidc_client_secrets db)) db)
| write_secret_revoke db t' :
    pointwise secret_revoked (oidc_client_secrets db) t' → write db (with_oidc_client_secrets t' db)
| write_session_new db r :
    new_session pol r → ls_RevokedAt r = None → login_sessions db !! ls_ID r = None →
    write db (with_login_sessions (<[ls_ID r := r]> (login_sessions db)) db)
| write_session_update db t' :
    pointwise session_update (login_sessions db) t' → write db (with_login_sessions t' db)
| write_retire_session db id :
    write db (with_login_sessions (delete id (login_sessions db)) (detach_sessions [id] db))
| write_preauth_new db r :
    new_preauth pol r → pa_ConsumedAt r = None → pa_AttemptCount r = 0 → preauth_sessions db !! pa_ID r = None →
    write db (with_preauth_sessions (<[pa_ID r := r]> (preauth_sessions db)) db)
| write_preauth_update db t' :
    pointwise preauth_update (preauth_sessions db) t' → write db (with_preauth_sessions t' db)
| write_retire_preauth db ids : write db (with_preauth_sessions (delete_ids ids (preauth_sessions db)) db)
| write_logout_new db r :
    new_logout pol r → lo_Stage r = StagePreConfirm → logout_transactions db !! lo_ID r = None →
    write db (with_logout_transactions (<[lo_ID r := r]> (logout_transactions db)) db)
| write_logout_update db t' :
    pointwise logout_update (logout_transactions db) t' → write db (with_logout_transactions t' db)
| write_retire_logouts db ids : write db (with_logout_transactions (delete_ids ids (logout_transactions db)) db).

(** ** Every statement is a sequence of writes *)

Abbreviation writes := (rtc write).

Lemma pointwise_insert {R} (S : R → R → Prop) (t : gmap uuid R) k r r' :
  (∀ o, S o o) → t !! k = Some r → S r r' → pointwise S t (<[k := r']> t).
Proof.
  intros HS Hk Hr k'. destruct (decide (k' = k)) as [->|Hne].
  - rewrite lookup_insert_eq, Hk. by constructor.
  - rewrite lookup_insert_ne by done. destruct (t !! k'); by constructor.
Qed.
Lemma pointwise_update {R} (S : R → R → Prop) (t : gmap uuid R) p f :
  (∀ o, S o o) → (∀ o, p o = true → S o (f o)) → pointwise S t (update_where p f t).
Proof.
  intros HS Hf k. rewrite lookup_update_where. destruct (t !! k) as [r|]; simpl; constructor.
  destruct (p r) eqn:E; [by apply Hf|done].
Qed.

Lemma writes_CreateConsentGrant id u c s t t' : stmt_rel writes (CreateConsentGrant id u c s t t').
Proof. intros db x db' (Hk & -> & ->)%CreateConsentGrant_inl. apply rtc_once. by apply (write_grant_new db (mkConsentGrantRow _ _ _ _ _ _ _ _)). Qed.

Lemma writes_update_grant id p f :
  (∀ r, grant_update r (f r) ∧ g_Version (f r) = g_Version r + 1) → stmt_rel writes (update_grant id p f).
Proof.
  intros Hf db x db' (r & Hk & _ & -> & ->)%update_grant_inl. apply rtc_once. destruct (Hf r).
  by eapply write_grant_update.
Qed.
Lemma writes_ReactivateConsentGrant s t id : stmt_rel writes (ReactivateConsentGrant s t id).
Proof. by apply writes_update_grant. Qed.
Lemma writes_RevokeConsentGrant t id : stmt_rel writes (RevokeConsentGrant t id).
Proof. by apply writes_update_grant. Qed.
Lemma writes_UpdateConsentGrantScopes s t id : stmt_rel writes (UpdateConsentGrantScopes s t id).
Proof. by apply writes_update_grant. Qed.

Lemma writes_ConsumeAuthTransaction t id : stmt_rel writes (ConsumeAuthTransaction t id).
Proof. intros db x db' (r & Hk & Hn & _ & ->)%update_live_transaction_inl. by apply rtc_once, write_transaction. Qed.
Lemma writes_RejectAuthTransaction t reason id : stmt_rel writes (RejectAuthTransaction t reason id).
Proof. intros db x db' (r & Hk & Hn & _ & ->)%update_live_transaction_inl. by apply rtc_once, write_transaction. Qed.

Lemma writes_CreateAuthorizationCode a :
  new_code pol (new_code_row a) → stmt_rel writes (CreateAuthorizationCode a).
Proof. intros Hp db x db' (Hk & _ & ->)%CreateAuthorizationCode_inl. by apply rtc_once, (write_code_new db (new_code_row a)). Qed.
Lemma writes_ConsumeAuthorizationCode t id : stmt_rel writes (ConsumeAuthorizationCode t id).
Proof. intros db x db' (r & Hk & Hn & _ & ->)%ConsumeAuthorizationCode_inl. by apply rtc_once, write_code_consume. Qed.

Lemma writes_CreateAccessToken a :
  new_access pol (code_access_row a) → stmt_rel writes (CreateAccessToken a).
Proof. intros Hp db x db' (Hk & _ & _ & ->)%insert_access_token_inl. by apply rtc_once, write_access_new. Qed.
Lemma writes_CreateRefreshAccessToken a :
  new_access pol (refresh_access_row a) → stmt_rel writes (CreateRefreshAccessToken a).
Proof. intros Hp db x db' (Hk & _ & _ & ->)%insert_access_token_inl. by apply rtc_once, write_access_new. Qed.
Lemma writes_RevokeAccessToken t reason id : stmt_rel writes (RevokeAccessToken t reason id).
Proof.
  intros db x db' (r & Hk & Hn & ->)%RevokeAccessToken_inl. apply rtc_once, write_access_revoke.
  eapply pointwise_insert; [by left|done|]. right. eauto.
Qed.
Lemma writes_revoke_live_access owner t reason : stmt_rel writes (revoke_live_access owner t reason).
Proof.
  intros db x db' ->%revoke_live_access_inl. apply rtc_once, write_access_revoke, pointwise_update; [by left|].
  intros o Ho. right. unfold live_access in Ho. go_bools. eauto.
Qed.

Lemma writes_CreateRefreshTokenFamily a :
  new_family pol (new_family_row a) → stmt_rel writes (CreateRefreshTokenFamily a).
Proof. intros Hp db x db' (Hk & _ & ->)%CreateRefreshTokenFamily_inl. by apply rtc_once, (write_family_new db (new_family_row a)). Qed.
Lemma writes_RevokeRefreshTokenFamily t reason id : stmt_rel writes (RevokeRefreshTokenFamily t reason id).
Proof.
  intros db x db' (r & Hk & Hn & ->)%RevokeRefreshTokenFamily_inl. apply rtc_once, write_family_revoke.
  eapply pointwise_insert; [by left|done|]. right. eauto.
Qed.
Lemma writes_revoke_families {A} owner t reason (res : _ → _ → A) : stmt_rel writes (revoke_families owner t reason res).
Proof.
  intros db x db' ->%revoke_families_inl. apply rtc_once, write_family_revoke, pointwise_update; [by left|].
  intros o Ho. right. go_bools. eauto.
Qed.

Lemma writes_CreateRefreshToken a :
  new_refresh pol (new_refresh_row a) → stmt_rel writes (CreateRefreshToken a).
Proof. intros Hp db x db' (Hk & _ & _ & ->)%CreateRefreshToken_inl. by apply rtc_once, (write_refresh_new db (new_refresh_row a)). Qed.
Lemma writes_ConsumeRefreshToken t id : stmt_rel writes (ConsumeRefreshToken t id).
Proof. intros db x db' (r & Hk & Hn & ->)%ConsumeRefreshToken_inl. by apply rtc_once, write_refresh_consume. Qed.

Lemma writes_CreateAuditEvent a : stmt_rel writes (CreateAuditEvent a).
Proof.
  intros db x db' H. unfold CreateAuditEvent in H. stmt_cases H. apply orb_false_iff in E0 as [E0 _].
  apply bool_decide_eq_false in E0. apply rtc_once, (write_audit db (new_audit_row a)). by apply not_is_Some_None.
Qed.
Lemma writes_HasRejection id : stmt_rel writes (HasAuthorizationCodeExchangeRejection id).
Proof. by intros db x db' [= _ <-]. Qed.

Lemma writes_DeleteRetiredAuthorizationCodes h t n : stmt_rel writes (DeleteRetiredAuthorizationCodes h t n).
Proof. intros db x db' [= _ <-]. apply rtc_once, write_retire_codes. Qed.
Lemma writes_DeleteRetiredAccessTokens h t n : stmt_rel writes (DeleteRetiredAccessTokens h t n).
Proof. intros db x db' [= _ <-]. apply rtc_once, write_retire_access. Qed.
Lemma writes_DeleteRetiredRefreshTokens h t n : stmt_rel writes (DeleteRetiredRefreshTokens h t n).
Proof. intros db x db' [= _ <-]. apply rtc_once, write_retire_refresh. Qed.
Lemma writes_DeleteRetiredRefreshTokenFamilies h t n : stmt_rel writes (DeleteRetiredRefreshTokenFamilies h t n).
Proof. intros db x db' [= _ <-]. apply rtc_once, write_retire_families. Qed.

(** *** Registries *)

Lemma writes_CreateUser a : new_user pol (new_user_row a) → stmt_rel writes (CreateUser a).
Proof. intros Hp db x db' (_ & -> & _ & _ & _ & Hn & _)%insert_row_inl. by apply rtc_once, (write_user_new db (new_user_row a)). Qed.
Lemma writes_UpdateUser a : (∀ r, changed_user pol r (updated_user_row a r)) → stmt_rel writes (UpdateUser a).
Proof. intros Hp db x db' H. unfold UpdateUser in H. stmt_cases H. by eapply rtc_once, write_user_update. Qed.
Lemma writes_UpdateLastLogin t id : stmt_rel writes (UpdateLastLogin t id).
Proof.
  apply stmt_rel_exec; [apply _|]. intros db x db' (r & Hk & _ & _ & _ & ->)%update_row_inl.
  by eapply rtc_once, write_user_login.
Qed.
Lemma writes_CreateCredential u h t t' : stmt_rel writes (CreateCredential u h t t').
Proof. intros db x db' (_ & -> & _)%insert_row_inl. apply rtc_once, write_credential. Qed.
Lemma writes_UpdateCredentialHash h t u : stmt_rel writes (UpdateCredentialHash h t u).
Proof.
  apply stmt_rel_exec; [apply _|]. intros db x db' (r & _ & _ & _ & _ & ->)%update_row_inl. apply rtc_once, write_credential.
Qed.
Lemma writes_CreateOIDCClient a : stmt_rel writes (CreateOIDCClient a).
Proof. intros db x db' (_ & -> & _ & _ & _ & Hn & _)%insert_row_inl. by apply rtc_once, (write_client_new db (new_client_row a)). Qed.
Lemma writes_UpdateOIDCClient a : stmt_rel writes (UpdateOIDCClient a).
Proof.
  intros db x db' H. unfold UpdateOIDCClient in H. destruct (oidc_clients db !! UC_ID a); [|done]. destruct (_ && _); [done|].
  apply update_row_inl in H as (r & Hk & _ & _ & _ & ->). by eapply rtc_once, write_client_update.
Qed.
Lemma writes_CreateOIDCClientRedirectURI c v t : stmt_rel writes (CreateOIDCClientRedirectURI c v t).
Proof. intros db x db' H. unfold CreateOIDCClientRedirectURI, insert_child in H. stmt_cases H. apply rtc_once, write_redirects. Qed.
Lemma writes_CreateOIDCClientLogoutURI c v t : stmt_rel writes (CreateOIDCClientLogoutURI c v t).
Proof. intros db x db' H. unfold CreateOIDCClientLogoutURI, insert_child in H. stmt_cases H. apply rtc_once, write_logout_uris. Qed.
Lemma writes_CreateOIDCClientScope c v t : stmt_rel writes (CreateOIDCClientScope c v t).
Proof. intros db x db' H. unfold CreateOIDCClientScope, insert_child in H. stmt_cases H. apply rtc_once, write_client_scopes. Qed.
Lemma writes_DeleteOIDCClientRedirectURIs c : stmt_rel writes (DeleteOIDCClientRedirectURIs c).
Proof. intros db x db' [= _ <-]. apply rtc_once, write_redirects. Qed.
Lemma writes_DeleteOIDCClientLogoutURIs c : stmt_rel writes (DeleteOIDCClientLogoutURIs c).
Proof. intros db x db' [= _ <-]. apply rtc_once, write_logout_uris. Qed.
Lemma writes_DeleteOIDCClientScopes c : stmt_rel writes (DeleteOIDCClientScopes c).
Proof. intros db x db' [= _ <-]. apply rtc_once, write_client_scopes. Qed.
Lemma writes_CreateOIDCClientSecret i c h t :
  new_secret pol (mkOidcClientSecretRow i c h 1 t None) → stmt_rel writes (CreateOIDCClientSecret i c h t).
Proof.
  intros Hp db x db' (_ & -> & _ & _ & _ & Hn & _)%insert_row_inl.
  by apply rtc_once, (write_secret_new db (mkOidcClientSecretRow i c h 1 t None)).
Qed.
Lemma writes_RevokeActiveOIDCClientSecrets t c : stmt_rel writes (RevokeActiveOIDCClientSecrets t c).
Proof.
  intros db x db' (_ & -> & _)%update_rows_inl. apply rtc_once, write_secret_revoke, pointwise_update; [by left|].
  intros o Ho. right. unfold live_secret_of in Ho. go_bools. split_and!; try done.
Qed.

(** *** Browser state *)

Lemma writes_CreateLoginSession a : new_session pol (new_session_row a) → stmt_rel writes (CreateLoginSession a).
Proof. intros Hp db x db' (_ & -> & _ & _ & _ & Hn & _)%insert_row_inl. by apply rtc_once, (write_session_new db (new_session_row a)). Qed.
Lemma writes_session_row id p f :
  (∀ r, p r = true → session_update r (f r)) → stmt_rel writes (update_row login_sessions_table id p f).
Proof.
  intros Hf db x db' (r & Hk & Hp & _ & _ & ->)%update_row_inl. apply rtc_once, write_session_update.
  eapply pointwise_insert; [by intros|exact Hk|by apply Hf].
Qed.
Lemma writes_TouchLoginSession t i id : stmt_rel writes (TouchLoginSession t i id).
Proof. apply stmt_rel_exec; [apply _|]. apply writes_session_row. intros r Hp. unrevoked. Qed.
Lemma writes_RotateLoginSessionCSRF h t id : stmt_rel writes (RotateLoginSessionCSRF h t id).
Proof. apply stmt_rel_exec; [apply _|]. apply writes_session_row. intros r Hp. unrevoked. Qed.
Lemma writes_revoke_session_where id p t reason : stmt_rel writes (revoke_session_where id p t reason).
Proof. apply writes_session_row. intros r Hp. apply andb_true_iff in Hp as [_ Hp]. unrevoked. Qed.
Lemma writes_DeleteRetiredLoginSessions h t n : stmt_rel writes (DeleteRetiredLoginSessions h t n).
Proof.
  intros db x db' H. unfold DeleteRetiredLoginSessions in H. revert H. generalize (retired_sessions h t n db). intros ids H.
  destruct (delete_login_sessions ids db) as [[y d]|] eqn:Hd; [|done]. injection H as _ <-.
  revert db Hd. induction ids as [|id ids IH]; intros db Hd; simpl in Hd; [by injection Hd as _ <-|].
  destruct (delete_login_session id db) as [[u d']|] eqn:E; [|done]. apply delete_login_session_inl in E as [-> _].
  eapply rtc_l; [apply write_retire_session|by apply IH].
Qed.
Lemma writes_CreatePreAuthSession i h c a t t' :
  new_preauth pol (mkPreauthSessionRow i h c a t t' None 0) → stmt_rel writes (CreatePreAuthSession i h c a t t').
Proof.
  intros Hp db x db' (_ & -> & _ & _ & _ & Hn & _)%insert_row_inl.
  by apply rtc_once, (write_preauth_new db (mkPreauthSessionRow i h c a t t' None 0)).
Qed.
Lemma writes_preauth_row id p f :
  (∀ r, p r = true → preauth_update r (f r)) → stmt_rel writes (update_row preauth_sessions_table id p f).
Proof.
  intros Hf db x db' (r & Hk & Hp & _ & _ & ->)%update_row_inl. apply rtc_once, write_preauth_update.
  eapply pointwise_insert; [by intros|exact Hk|by apply Hf].
Qed.
Lemma writes_ReservePreAuthAttempt i t n : stmt_rel writes (ReservePreAuthAttempt i t n).
Proof.
  apply writes_preauth_row. unfold live_preauth. intros r Hp. go_bools. unfold preauth_update. simpl.
  split_and!; try done; [lia|]. intros [? Hs]. congruence.
Qed.
Lemma writes_ConsumePreAuthSession t i : stmt_rel writes (ConsumePreAuthSession t i).
Proof.
  apply writes_preauth_row. unfold live_preauth. intros r Hp. go_bools. unfold preauth_update. simpl.
  split_and!; try done. intros [? Hs]. congruence.
Qed.
Lemma writes_DeleteExpiredPreAuthSessions h t n : stmt_rel writes (DeleteExpiredPreAuthSessions h t n).
Proof. intros db x db' [= _ <-]. apply rtc_once, write_retire_preauth. Qed.

Lemma writes_CreateAuthTransaction a : new_transaction pol (new_transaction_row a) → stmt_rel writes (CreateAuthTransaction a).
Proof. intros Hp db x db' (_ & -> & _ & _ & _ & Hn & _)%insert_row_inl. by apply rtc_once, (write_transaction_new db (new_transaction_row a)). Qed.
Lemma writes_ExpireAuthTransactions h t n : stmt_rel writes (ExpireAuthTransactions h t n).
Proof.
  intros db x db' (_ & -> & _)%update_rows_inl. apply rtc_once, write_transaction_expire, pointwise_update; [by left|].
  intros o Ho. right. unfold elapsed in Ho. go_bools. eauto.
Qed.
Lemma writes_DeleteRetiredAuthTransactions h t n : stmt_rel writes (DeleteRetiredAuthTransactions h t n).
Proof. intros db x db' [= _ <-]. apply rtc_once, write_retire_transactions. Qed.

Lemma writes_CreateLogoutTransaction i h c p s u t t' :
  new_logout pol (mkLogoutTransactionRow i h StagePreConfirm None c p s u None None None t t' None None 0) →
  stmt_rel writes (CreateLogoutTransaction i h c p s u t t').
Proof.
  intros Hp db x db' (_ & -> & _ & _ & _ & Hn & _)%insert_row_inl.
  by apply rtc_once, (write_logout_new db (mkLogoutTransactionRow i h StagePreConfirm None c p s u None None None t t' None None 0)).
Qed.
Lemma writes_logout_row id p f :
  (∀ r, p r = true → logout_update r (f r)) → stmt_rel writes (update_row logout_transactions_table id p f).
Proof.
  intros Hf db x db' (r & Hk & Hp & _ & _ & ->)%update_row_inl. apply rtc_once, write_logout_update.
  eapply pointwise_insert; [by intros|exact Hk|by apply Hf].
Qed.
Ltac unfinished := go_bools; unfold logout_update; simpl; split_and!; try done; try lia; intros [? Hs]; congruence.
Lemma writes_BindPreConfirmLogoutTransaction a : stmt_rel writes (BindPreConfirmLogoutTransaction a).
Proof.
  intros db x db' (r & Hk & Hst & Hn & _ & _ & _ & _ & _ & ->)%BindPreConfirmLogoutTransaction_inl.
  apply rtc_once, write_logout_update. eapply pointwise_insert; [by intros|exact Hk|]. unfinished.
Qed.
Lemma writes_RotateBoundLogoutTransactionCSRF h i t u s b : stmt_rel writes (RotateBoundLogoutTransactionCSRF h i t u s b).
Proof. apply writes_logout_row. unfold live_bound. intros r Hp. unfinished. Qed.
Lemma writes_IncrementLogoutTransactionAttempt i n : stmt_rel writes (IncrementLogoutTransactionAttempt i n).
Proof. apply writes_logout_row. intros r Hp. unfinished. Qed.
Lemma writes_finish_bound_logout g t i : stmt_rel writes (finish_bound_logout g t i).
Proof. apply writes_logout_row. intros r Hp. unfinished. Qed.
Lemma writes_DeleteRetiredLogoutTransactions h t c n : stmt_rel writes (DeleteRetiredLogoutTransactions h t c n).
Proof. intros db x db' [= _ <-]. apply rtc_once, write_retire_logouts. Qed.
End write.

#[export] Hint Resolve writes_CreateConsentGrant writes_ReactivateConsentGrant writes_RevokeConsentGrant
  writes_UpdateConsentGrantScopes writes_ConsumeAuthTransaction writes_RejectAuthTransaction
  writes_CreateAuthorizationCode writes_ConsumeAuthorizationCode writes_CreateAccessToken
  writes_CreateRefreshAccessToken writes_RevokeAccessToken writes_revoke_live_access
  writes_CreateRefreshTokenFamily writes_RevokeRefreshTokenFamily writes_revoke_families
  writes_CreateRefreshToken writes_ConsumeRefreshToken writes_CreateAuditEvent writes_HasRejection
  writes_DeleteRetiredAuthorizationCodes writes_DeleteRetiredAccessTokens writes_DeleteRetiredRefreshTokens
  writes_DeleteRetiredRefreshTokenFamilies
  writes_CreateUser writes_UpdateUser writes_UpdateLastLogin writes_CreateCredential writes_UpdateCredentialHash
  writes_CreateOIDCClient writes_UpdateOIDCClient writes_CreateOIDCClientRedirectURI writes_CreateOIDCClientLogoutURI
  writes_CreateOIDCClientScope writes_DeleteOIDCClientRedirectURIs writes_DeleteOIDCClientLogoutURIs
  writes_DeleteOIDCClientScopes writes_CreateOIDCClientSecret writes_RevokeActiveOIDCClientSecrets
  writes_CreateLoginSession writes_TouchLoginSession writes_RotateLoginSessionCSRF writes_revoke_session_where
  writes_DeleteRetiredLoginSessions writes_CreatePreAuthSession writes_ReservePreAuthAttempt
  writes_ConsumePreAuthSession writes_DeleteExpiredPreAuthSessions writes_CreateAuthTransaction
  writes_ExpireAuthTransactions writes_DeleteRetiredAuthTransactions writes_CreateLogoutTransaction writes_BindPreConfirmLogoutTransaction
  writes_RotateBoundLogoutTransactionCSRF writes_IncrementLogoutTransactionAttempt writes_finish_bound_logout
  writes_DeleteRetiredLogoutTransactions : tx_rel.

(** ** What no sequence of writes undoes *)

Lemma rtc_preserves {A} (R : A → A → Prop) (I : A → Prop) x y :
  (∀ a b, R a b → I a → I b) → rtc R x y → I x → I y.
Proof. intros HR. induction 1 as [|a b c Hab _ IH]; [done|]. intros HI. by eapply IH, HR. Qed.

Lemma map_Forall_delete_ids {R} (Q : uuid → R → Prop) ids (t : gmap uuid R) :
  map_Forall Q t → map_Forall Q (delete_ids ids t).
Proof. intros HQ k r. unfold delete_ids. rewrite map_lookup_filter_Some. intros [Hk _]. by apply HQ. Qed.

Lemma map_Forall_pointwise {R} (Q : uuid → R → Prop) (S : R → R → Prop) (t t' : gmap uuid R) :
  (∀ k r r', S r r' → Q k r → Q k r') → pointwise S t t' → map_Forall Q t → map_Forall Q t'.
Proof.
  intros HS Hp HQ k r' Hk. specialize (Hp k). rewrite Hk in Hp. inversion Hp as [r ? Hr He|]. subst.
  eapply HS; [done|]. by apply HQ.
Qed.

(** Codes with this digest are consumed. *)
Definition code_spent (h : bytes) (db : DB) : Prop :=
  map_Forall (λ _ r, code_CodeHash r = h → is_Some (code_ConsumedAt r)) (authorization_codes db).
(** Generations with this digest are consumed. *)
Definition refresh_spent (h : bytes) (db : DB) : Prop :=
  map_Forall (λ _ r, rt_TokenHash r = h → is_Some (rt_ConsumedAt r)) (refresh_tokens db).
(** The family is revoked, or gone. *)
Definition family_dead (f : uuid) (db : DB) : Prop :=
  map_Forall (λ k r, k = f → is_Some (rf_RevokedAt r)) (refresh_token_families db).
(** The access token is revoked, or gone. *)
Definition access_dead (a : uuid) (db : DB) : Prop :=
  map_Forall (λ k r, k = a → is_Some (at_RevokedAt r)) (access_tokens db).
(** The grant has moved past a version. *)
Definition grant_past (g : uuid) (v : Z) (db : DB) : Prop :=
  ∃ r, consent_grants db !! g = Some r ∧ v < g_Version r.

Definition no_code (h : bytes) : policy := mkPolicy (λ r, code_CodeHash r ≠ h) any any any any any any any any any any_change.
Definition no_refresh (h : bytes) : policy := mkPolicy any any (λ r, rt_TokenHash r ≠ h) any any any any any any any any_change.
Definition no_family (f : uuid) : policy := mkPolicy any (λ r, rf_ID r ≠ f) any any any any any any any any any_change.
Definition no_access (a : uuid) : policy := mkPolicy any any any (λ r, at_ID r ≠ a) any any any any any any any_change.

Lemma write_code_spent h db db' : write (no_code h) db db' → code_spent h db → code_spent h db'.
Proof.
  unfold code_spent. destruct 1; simpl in *; try done; intros HI.
  - by apply map_Forall_insert_2.
  - apply map_Forall_insert_2; [|done]. intros _. simpl. by eexists.
  - by apply map_Forall_delete_ids.
  - intros k r'. rewrite lookup_fmap, fmap_Some. intros (r & Hk & ->). simpl. by apply (HI k r).
Qed.

Lemma write_refresh_spent h db db' : write (no_refresh h) db db' → refresh_spent h db → refresh_spent h db'.
Proof.
  unfold refresh_spent. destruct 1; simpl in *; try done; intros HI.
  - by apply map_Forall_insert_2.
  - apply map_Forall_insert_2; [|done]. intros _. simpl. by eexists.
  - by apply map_Forall_delete_ids.
Qed.

Lemma write_family_dead f db db' : write (no_family f) db db' → family_dead f db → family_dead f db'.
Proof.
  unfold family_dead. destruct 1; simpl in *; try done; intros HI.
  - by apply map_Forall_insert_2.
  - eapply map_Forall_pointwise; [|done|done]. intros k r r' [->|(_ & t & reason & ->)] HQ Hk; [by apply HQ|by eexists].
  - intros k r'. rewrite lookup_fmap, fmap_Some. intros (r & Hk & ->). simpl. by apply (HI k r).
  - by apply map_Forall_delete_ids.
  - intros k r'. rewrite lookup_fmap, fmap_Some. intros (r & Hk & ->). simpl. by apply (HI k r).
Qed.

Lemma write_access_dead a db db' : write (no_access a) db db' → access_dead a db → access_dead a db'.
Proof.
  unfold access_dead. destruct 1; simpl in *; try done; intros HI.
  - by apply map_Forall_insert_2.
  - eapply map_Forall_pointwise; [|done|done]. intros k r r' [->|(_ & t & reason & ->)] HQ Hk; [by apply HQ|by eexists].
  - intros k r'. rewrite lookup_fmap, fmap_Some. intros (r & Hk & ->). simpl. by apply (HI k r).
  - by apply map_Forall_delete_ids.
  - intros k r'. rewrite lookup_fmap, fmap_Some. intros (r & Hk & ->). simpl. by apply (HI k r).
Qed.

Lemma write_grant_past pol g v db db' : write pol db db' → grant_past g v db → grant_past g v db'.
Proof.
  unfold grant_past. destruct 1; simpl in *; try done; intros (o & Ho & Hv).
  - exists o. split; [|done]. rewrite lookup_insert_ne; [done|]. intros <-. congruence.
  - destruct (decide (g = id)) as [->|Hne]; [rewrite lookup_insert_eq|rewrite lookup_insert_ne by done].
    + exists r'. simplify_eq. split; [done|lia].
    + by exists o.
Qed.

(** The audit log only grows. *)
Lemma write_audit_append pol db db' : write pol db db' → audit_events db ⊆ audit_events db'.
Proof. destruct 1; simpl; try done. by apply insert_subseteq. Qed.
