(* ===== verification/Lifecycle.v ===== *)
(** * The protocol as a state machine

    The store operations as the labels of a transition system over the tables.  A
    step runs one transaction in any world — any random bytes, any driver faults, and
    for the operations that read candidates before their transaction, any stale
    candidates — so a reachable state is one any interleaving of requests can reach. *)

From S2P Require Import Prelude Errors Platform Scopes Domain Opaque AuditEvents Database Queries RegistryQueries.
From S2P Require Import BrowserQueries Tx StoreCommon AuthorizationStore TokenStore ConsentStore SessionTokens SessionStore.
From S2P Require Import FlowStore LoginStore LogoutStore UserStore ClientStore.
From S2P Require Import Invariants RegistryInvariants StatementFacts ExchangeProofs Writes.

Section lifecycle.
Context {P : Platform}.

Inductive Op :=
| OpIssue (commit : IssueCommit)
| OpDeny (commit : DenyCommit)
| OpExchange (input : ExchangeInput) (mint : MintFunc)
| OpRefresh (input : RefreshInput) (mint : RefreshMintFunc) (candidate : RefreshTokenRow) (family : RefreshTokenFamilyRow)
| OpRevokeAccess (lookup : RevocationLookup) (candidate : AccessTokenRow)
| OpRevokeRefresh (lookup : RevocationLookup) (candidate : RefreshTokenRow) (family : RefreshTokenFamilyRow)
| OpRevokeGrant (input : RevokeInput)
| OpCleanupProtocol (cutoff : time)
| OpCleanupRefresh (cutoff : time)
(* sessions *)
| OpTouchSession (id : uuid) (lastSeen idleExpires : time)
| OpRotateCSRF (id : uuid) (hash : bytes) (expires : time)
| OpRevokeUserSession (userID target : uuid) (now : time) (event : AuditEvent)
| OpRevokeOtherSessions (userID current : uuid) (now : time) (event : AuditEvent)
| OpRevokeSessionByHash (hash : bytes) (now : time) (reason : string) (event : AuditEvent)
| OpCleanupSessions (preAuthCutoff retiredCutoff : time)
(* browser transactions *)
| OpCreateTransaction (transaction : Transaction) (event : AuditEvent)
| OpConsumeTransaction (id : uuid) (now : time) (event : AuditEvent)
| OpRejectTransaction (id : uuid) (reason : string) (now : time) (event : AuditEvent)
| OpExpireTransactions (now : time)
| OpCleanupTransactions (cutoff : time)
(* registration and login *)
| OpCreatePreAuth (record : PreAuthRecord)
| OpReserveAttempt (id : uuid) (now : time) (maximum : Z)
| OpRegister (commit : RegisterCommit)
| OpLogin (commit : LoginCommit)
| OpAppendAudit (event : AuditEvent)
(* logout *)
| OpCreateLogout (value : LogoutTransaction)
| OpBindLogout (input : BindInput)
| OpCompleteLogout (input : CompleteInput)
| OpCleanupLogout (now terminalCutoff : time)
(* administration *)
| OpBootstrapAdmin (prepared : PreparedUser) (event : AuditEvent)
| OpCreateUser (prepared : PreparedUser) (event : AuditEvent)
| OpUpdateUser (commit : UpdateUserCommit)
| OpRevokeAllSessions (userID : uuid) (now : time) (event : AuditEvent)
| OpRevokeManagedSession (id : uuid) (now : time) (event : AuditEvent)
(* client registry *)
| OpCreateClient (value : Client) (secret : option SecretRecord) (event : AuditEvent)
| OpUpdateClient (value : Client) (event : AuditEvent)
| OpRotateSecret (id : uuid) (secret : SecretRecord) (now : time) (event : AuditEvent).

Inductive OpResult :=
| ResultGrant (g : Grant) | ResultTokens (r : Response) | ResultManagedGrant (g : ManagedGrant)
| ResultCounts (n : Z * Z) | ResultDone
| ResultCount (n : Z) | ResultTransaction (t : Transaction) | ResultBinding (id : uuid)
| ResultLogout (t : LogoutTransaction) | ResultCandidate (c : CompletionCandidate) | ResultUser (u : User).

Definition op_run (op : Op) : Tx OpResult :=
  match op with
  | OpIssue commit => g ← IssueAuthorizationCode commit; mret (ResultGrant g)
  | OpDeny commit => DenyAuthorization commit;; mret ResultDone
  | OpExchange input mint => r ← ExchangeAuthorizationCode input mint; mret (ResultTokens r)
  | OpRefresh input mint candidate family => r ← finishRefreshExchange input mint candidate family; mret (ResultTokens r)
  | OpRevokeAccess lookup candidate => revokeAccessCandidate lookup candidate;; mret ResultDone
  | OpRevokeRefresh lookup candidate family =>
      inTx (revokeRefreshCandidate_tx lookup candidate family);; observeAuditEvents;; mret ResultDone
  | OpRevokeGrant input => g ← RevokeCurrentUserGrant input; mret (ResultManagedGrant g)
  | OpCleanupProtocol cutoff => n ← inTx (cleanupProtocol_tx cutoff); mret (ResultCounts n)
  | OpCleanupRefresh cutoff => n ← inTx (cleanupRefresh_tx cutoff); mret (ResultCounts n)
  | OpTouchSession id lastSeen idleExpires => SessionStore.TouchLoginSession id lastSeen idleExpires;; mret ResultDone
  | OpRotateCSRF id hash expires => RotateSessionCSRF id hash expires;; mret ResultDone
  | OpRevokeUserSession userID target now event => RevokeUserSession userID target now event;; mret ResultDone
  | OpRevokeOtherSessions userID current now event => n ← RevokeOtherUserSessions userID current now event; mret (ResultCount n)
  | OpRevokeSessionByHash hash now reason event => RevokeSessionByHash hash now reason event;; mret ResultDone
  | OpCleanupSessions preAuthCutoff retiredCutoff => n ← inTx (cleanupSessions_tx preAuthCutoff retiredCutoff); mret (ResultCounts n)
  | OpCreateTransaction transaction event => FlowStore.CreateAuthTransaction transaction event;; mret ResultDone
  | OpConsumeTransaction id now event => t ← FlowStore.ConsumeAuthTransaction id now event; mret (ResultTransaction t)
  | OpRejectTransaction id reason now event => t ← FlowStore.RejectAuthTransaction id reason now event; mret (ResultTransaction t)
  | OpExpireTransactions now => n ← expire_batch now; mret (ResultCount n)
  | OpCleanupTransactions cutoff => n ← retire_batch cutoff; mret (ResultCount n)
  | OpCreatePreAuth record => CreatePreAuth record;; mret ResultDone
  | OpReserveAttempt id now maximum => LoginStore.ReservePreAuthAttempt id now maximum;; mret ResultDone
  | OpRegister commit => CommitRegistration commit;; mret ResultDone
  | OpLogin commit => b ← CommitLogin commit; mret (ResultBinding b)
  | OpAppendAudit event => AppendAudit event;; mret ResultDone
  | OpCreateLogout value => LogoutStore.CreateLogoutTransaction value;; mret ResultDone
  | OpBindLogout input => t ← BindLogoutTransaction input; mret (ResultLogout t)
  | OpCompleteLogout input => c ← CompleteLogoutTransaction input; mret (ResultCandidate c)
  | OpCleanupLogout now terminalCutoff => n ← inTx (cleanupLogout_tx now terminalCutoff); mret (ResultCount n)
  | OpBootstrapAdmin prepared event => BootstrapAdmin prepared event;; mret ResultDone
  | OpCreateUser prepared event => CreateManagedUser prepared event;; mret ResultDone
  | OpUpdateUser commit => u ← UpdateManagedUser commit; mret (ResultUser u)
  | OpRevokeAllSessions userID now event => n ← RevokeAllManagedUserSessions userID now event; mret (ResultCount n)
  | OpRevokeManagedSession id now event => RevokeManagedSession id now event;; mret ResultDone
  | OpCreateClient value secret event => CreateClient value secret event;; mret ResultDone
  | OpUpdateClient value event => UpdateClient value event;; mret ResultDone
  | OpRotateSecret id secret now event => RotateClientSecret id secret now event;; mret ResultDone
  end.

Definition op_step (op : Op) (db db' : DB) : Prop :=
  ∃ w w' r, w_db w = db ∧ op_run op w = (w', r) ∧ w_db w' = db'.

(** One step of an operation that satisfies [allowed]. *)
Definition sys_step (allowed : Op → Prop) (db db' : DB) : Prop := ∃ op, allowed op ∧ op_step op db db'.
Abbreviation reaches allowed := (rtc (sys_step allowed)).

Ltac unfold_ops :=
  unfold IssueAuthorizationCode, issueAuthorizationCode_tx, lockAndApplyConsent,
    DenyAuthorization, denyAuthorization_tx, lockAndValidateAuthorizationClient, grantChangedAudit, check, ExchangeAuthorizationCode,
    exchangeAuthorizationCode_tx, commitExchange, createInitialRefresh, finishRefreshExchange,
    exchangeRefreshToken_tx, rejectReuse, rotate, revokeAccessCandidate, revokeAccessCandidate_tx,
    checkCandidateFamily, revokeRefreshCandidate_tx, RevokeCurrentUserGrant, revokeCurrentUserGrant_tx,
    cleanupProtocol_tx, cleanupRefresh_tx, if_found, if_true.
Ltac unfold_browser_ops :=
  unfold SessionStore.TouchLoginSession, RotateSessionCSRF, RevokeUserSession, revokeUserSession_tx, RevokeOtherUserSessions,
    revokeOtherUserSessions_tx, RevokeSessionByHash, revokeSessionByHash_tx, cleanupSessions_tx,
    revokeSessionBindingCascade, FlowStore.CreateAuthTransaction, createAuthTransaction_tx,
    FlowStore.ConsumeAuthTransaction, consumeAuthTransaction_tx, FlowStore.RejectAuthTransaction, rejectAuthTransaction_tx,
    expire_batch, expireAuthTransactions_tx, retire_batch, CreatePreAuth, createPreAuthSession,
    LoginStore.ReservePreAuthAttempt, CommitRegistration, commitRegistration_tx, CommitLogin, commitLogin_tx, replace_existing,
    LogoutStore.CreateLogoutTransaction, BindLogoutTransaction, bindLogoutTransaction_tx, CompleteLogoutTransaction,
    completeLogoutTransaction_tx, cleanupLogout_tx.
Ltac unfold_registry_ops :=
  unfold BootstrapAdmin, bootstrapAdmin_tx, CreateManagedUser, createManagedUser_tx, UpdateManagedUser,
    updateManagedUser_tx, revokeAfterUserChange, RevokeAllManagedUserSessions, revokeAllManagedUserSessions_tx,
    RevokeManagedSession, revokeManagedSession_tx, revokeSessionBindingCascade, CreateClient, createClient_tx,
    UpdateClient, updateClient_tx, RotateClientSecret, rotateClientSecret_tx, query_row_map.

(** ** Relations of the composite steps

    A preorder that the statements of a composite step respect, the step respects. *)

Section composite.
Context (R : DB → DB → Prop) `{!PreOrder R}.
Hypothesis R_audit : ∀ a, stmt_rel R (CreateAuditEvent a).

Lemma tx_rel_append_event e : tx_rel R (append_event e).
Proof. by intros w w' r [= <- <-]. Qed.
Lemma tx_rel_observe_with events : tx_rel R (observe_with events).
Proof. by intros w w' r [= <- <-]. Qed.
Lemma tx_rel_insert_audits events : tx_rel R (insert_audits events).
Proof. induction events; simpl; tx_rel_auto; eauto with tx_rel. Qed.
Lemma tx_rel_insert_optional event : tx_rel R (insert_optional event).
Proof. unfold insert_optional. tx_rel_auto; eauto with tx_rel. Qed.
Lemma tx_rel_audit_expired now ids : tx_rel R (audit_expired now ids).
Proof. induction ids; simpl; tx_rel_auto; eauto using tx_rel_append_event with tx_rel. Qed.
Lemma tx_rel_AppendAudit event : tx_rel R (AppendAudit event).
Proof.
  intros w w' r. unfold AppendAudit. destruct (audit.Validate event).
  { intros [= <- <-]. by rewrite w_db_observeAuditWriteFailure. }
  destruct (exec_query _ _ w) as [w1 [u|e]] eqn:E; intros [= <- <-]; rewrite ?w_db_observeAuditWriteFailure;
    (eapply tx_rel_exec_query in E; [exact E|done|apply R_audit]).
Qed.
Lemma tx_rel_lock_identifiers ids : tx_rel R (lock_identifiers ids).
Proof. induction ids; simpl; tx_rel_auto. Qed.
Lemma tx_rel_refuse_taken op taken ids : (∀ i, stmt_rel R (taken i)) → tx_rel R (refuse_taken op taken ids).
Proof. intros Ht. induction ids; simpl; tx_rel_auto; eauto with tx_rel. Qed.
Lemma tx_rel_lockAndCheckIdentifiers user id : tx_rel R (lockAndCheckIdentifiers user id).
Proof.
  unfold lockAndCheckIdentifiers. apply tx_rel_bind; [done|apply tx_rel_lock_identifiers|intros _].
  apply tx_rel_refuse_taken. intros i. destruct (_ == _); by apply stmt_rel_read.
Qed.
Lemma tx_rel_keepLastAdmin a b : tx_rel R (keepLastAdmin a b).
Proof. unfold keepLastAdmin. tx_rel_auto. Qed.
Lemma tx_rel_lock_existing op h now : tx_rel R (lock_existing op h now).
Proof. unfold lock_existing. tx_rel_auto. Qed.
Lemma tx_rel_revoke_existing op reason s a rid now :
  (∀ t re i, stmt_rel R (RevokeLoginSessionByID t re i)) → tx_rel R (revoke_existing op reason s a rid now).
Proof. intros Hr. unfold revoke_existing. tx_rel_auto; eauto using tx_rel_append_event with tx_rel. Qed.
Lemma tx_rel_revoke_locked reason now op targets :
  (∀ t re i, stmt_rel R (RevokeLoginSessionBindingByID t re i)) → tx_rel R (revoke_locked reason now op targets).
Proof. intros Hr. induction targets; simpl; tx_rel_auto; eauto with tx_rel. Qed.
Lemma tx_rel_bindings_cascade ids now reason :
  (∀ o t re, stmt_rel R (revoke_live_access o t re)) →
  (∀ o t re, stmt_rel R (revoke_families o t re (A := Z) count_where)) →
  tx_rel R (revokeSessionBindingsCascade ids now reason).
Proof. intros Ha Hf. unfold revokeSessionBindingsCascade. tx_rel_auto. Qed.
Lemma tx_rel_createUser a b u :
  stmt_rel R (CreateUser (createUserParams (PreparedUser_User u))) → (∀ i h t t', stmt_rel R (CreateCredential i h t t')) →
  tx_rel R (createUserWithCredential a b u).
Proof. intros Hu Hc. unfold createUserWithCredential. tx_rel_auto; eauto with tx_rel. Qed.
Lemma tx_rel_createLoginSession s : stmt_rel R (CreateLoginSession (session_params s)) → tx_rel R (createLoginSession s).
Proof. intros Hs. unfold createLoginSession. tx_rel_auto; eauto with tx_rel. Qed.
Lemma tx_rel_create_children op create values :
  (∀ v, stmt_rel R (create v)) → tx_rel R (create_children op create values).
Proof. intros Hc. induction values; simpl; tx_rel_auto; eauto with tx_rel. Qed.
End composite.

#[local] Hint Resolve tx_rel_append_event tx_rel_observe_with tx_rel_insert_audits tx_rel_insert_optional
  tx_rel_audit_expired tx_rel_AppendAudit tx_rel_lock_identifiers tx_rel_refuse_taken tx_rel_lockAndCheckIdentifiers
  tx_rel_keepLastAdmin tx_rel_lock_existing tx_rel_revoke_existing tx_rel_revoke_locked tx_rel_bindings_cascade
  tx_rel_createUser tx_rel_createLoginSession tx_rel_create_children : tx_rel.

(** ** Every operation preserves the schema invariant *)

Ltac op_rel_auto := tx_rel_auto; eauto 8 with tx_rel typeclass_instances.

Lemma op_run_ok op : tx_rel ok_rel (op_run op).
Proof.
  destruct op; unfold op_run; unfold_ops; unfold_browser_ops; unfold_registry_ops;
    unfold confirmLogout, revokeDisabledUser, revokeClientTokens, replaceClientChildren, deleteClientChildren; op_rel_auto.
Qed.

(** ** Every operation is a sequence of writes

    [obeys pol op]: the rows [op] can insert satisfy the policy. *)

Definition mint_obeys (pol : policy) (mint : MintFunc) : Prop :=
  ∀ auth s s' m, mint auth s = (s', inl m) →
    (∀ r, at_ID r = Minted_AccessTokenID m → new_access pol r) ∧
    ∀ i, Minted_InitialRefresh m = Some i →
      (∀ r, rf_ID r = InitialRefresh_FamilyID i → new_family pol r) ∧
      (∀ r, rt_TokenHash r = InitialRefresh_TokenHash i → new_refresh pol r).

Definition refresh_mint_obeys (pol : policy) (mint : RefreshMintFunc) : Prop :=
  ∀ auth s s' m, mint auth s = (s', inl m) →
    (∀ r, at_ID r = RefreshMinted_AccessTokenID m → new_access pol r) ∧
    (∀ r, rt_TokenHash r = RefreshMinted_ReplacementTokenHash m → new_refresh pol r).

(** The rows the browser and registry operations insert. *)
Definition preauth_row (record : PreAuthRecord) : PreauthSessionRow :=
  mkPreauthSessionRow (PreAuth_ID record) (PreAuth_TokenHash record) (PreAuth_CSRFHash record)
    (PreAuth_AuthTransactionID record) (timestamp (PreAuth_CreatedAt record)) (timestamp (PreAuth_ExpiresAt record)) None 0.
Definition logout_row (value : LogoutTransaction) : LogoutTransactionRow :=
  mkLogoutTransactionRow (LT_ID value) (LT_LookupHash value) StagePreConfirm None (LT_VerifiedClientID value)
    (pointerString (LT_PostLogoutRedirectURI value)) (pointerString (LT_State value)) (pointerString (LT_HintSubject value))
    None None None (timestamp (LT_CreatedAt value)) (timestamp (LT_ExpiresAt value)) None None 0.
Definition secret_row (clientID : uuid) (secret : SecretRecord) : OidcClientSecretRow :=
  mkOidcClientSecretRow (SecretRecord_ID secret) clientID (SecretRecord_SecretHash secret) 1
    (timestamp (SecretRecord_CreatedAt secret)) None.
Definition session_row (record : SessionRecord) : LoginSessionRow := new_session_row (session_params record).
Definition user_row (prepared : PreparedUser) : UserRow := new_user_row (createUserParams (PreparedUser_User prepared)).

Definition obeys (pol : policy) (op : Op) : Prop :=
  match op with
  | OpIssue commit => ∀ r, code_CodeHash r = IssueCommit_CodeHash commit → new_code pol r
  | OpExchange _ mint => mint_obeys pol mint
  | OpRefresh _ mint _ _ => refresh_mint_obeys pol mint
  | OpCreateTransaction transaction _ => new_transaction pol (new_transaction_row (authTransactionParams transaction))
  | OpCreatePreAuth record => new_preauth pol (preauth_row record)
  | OpRegister commit => new_session pol (session_row (RegisterCommit_Session commit)) ∧ new_user pol (user_row (RegisterCommit_User commit))
  | OpLogin commit => ∀ b, new_session pol (session_row (set_binding b (LoginCommit_Session commit)))
  | OpCreateLogout value => new_logout pol (logout_row value)
  | OpBootstrapAdmin prepared _ | OpCreateUser prepared _ => new_user pol (user_row prepared)
  | OpUpdateUser commit => ∀ r, changed_user pol r (updated_user_row (update_user_params (UpdateUser_Updated commit)) r)
  | OpCreateClient _ secret _ =>
      match secret with Some s => new_secret pol (secret_row (SecretRecord_ClientID s) s) | None => True end
  | OpRotateSecret id secret _ _ => new_secret pol (secret_row id secret)
  | _ => True
  end.

Lemma any_row_obeys op : obeys any_row op.
Proof.
  destruct op; simpl; try done; unfold mint_obeys, refresh_mint_obeys; try naive_solver. by destruct secret.
Qed.

Lemma commitExchange_writes pol input code grant scopes m :
  (∀ r, at_ID r = Minted_AccessTokenID m → new_access pol r) →
  (∀ i, Minted_InitialRefresh m = Some i →
     (∀ r, rf_ID r = InitialRefresh_FamilyID i → new_family pol r) ∧
     (∀ r, rt_TokenHash r = InitialRefresh_TokenHash i → new_refresh pol r)) →
  tx_rel (rtc (write pol)) (commitExchange input code grant scopes m).
Proof.
  intros Ha Hi. unfold commitExchange, createInitialRefresh.
  destruct (Minted_InitialRefresh m) as [i|]; [destruct (Hi i eq_refl) as [Hf Hr]|];
    tx_rel_auto; eauto 8 with tx_rel typeclass_instances.
Qed.

Ltac unfold_all_ops :=
  unfold_ops; unfold_browser_ops; unfold_registry_ops;
  unfold confirmLogout, revokeDisabledUser, revokeClientTokens, replaceClientChildren, deleteClientChildren.

Lemma op_run_writes pol op : obeys pol op → tx_rel (rtc (write pol)) (op_run op).
Proof.
  intros Hp. destruct op; unfold op_run; simpl in Hp.
  3: { unfold ExchangeAuthorizationCode, exchangeAuthorizationCode_tx. tx_rel_auto.
       destruct (Hp _ _ _ _ Hmint). by apply commitExchange_writes. }
  3: { unfold_ops. tx_rel_auto; destruct (Hp _ _ _ _ Hmint); eauto 8 with tx_rel typeclass_instances. }
  all: try destruct_and?; unfold_all_ops; op_rel_auto.
Qed.

(** ** Invariants of every run *)

Lemma op_step_writes pol op db db' : obeys pol op → op_step op db db' → rtc (write pol) db db'.
Proof. intros Hp (w & w' & r & <- & Hrun & <-). by eapply op_run_writes. Qed.

Lemma op_step_ok op db db' : op_step op db db' → db_ok db → db_ok db'.
Proof. intros (w & w' & r & <- & Hrun & <-). by eapply op_run_ok. Qed.

(** A run of the operation's code is a step, whatever it returned. *)
Lemma run_step {A} op (m : Tx A) (f : A → OpResult) w w' r :
  op_run op = (m ≫= λ a, mret (f a)) → m w = (w', r) → op_step op (w_db w) (w_db w').
Proof.
  intros Hop Hm. destruct r as [a|e]; [exists w, w', (inl (f a))|exists w, w', (inr e)];
    rewrite Hop; unfold mbind, Tx_bind; by rewrite Hm.
Qed.

Lemma run_ok {A} op (m : Tx A) (f : A → OpResult) w w' r :
  op_run op = (m ≫= λ a, mret (f a)) → m w = (w', r) → db_ok (w_db w) → db_ok (w_db w').
Proof. intros Hop Hm. eapply op_step_ok. by eapply run_step. Qed.

Lemma reaches_ok allowed db db' : reaches allowed db db' → db_ok db → db_ok db'.
Proof. apply rtc_preserves. intros a b (op & _ & H). by eapply op_step_ok. Qed.

Lemma reaches_writes pol allowed db db' :
  (∀ op, allowed op → obeys pol op) → reaches allowed db db' → rtc (write pol) db db'.
Proof.
  intros Ha. induction 1 as [|a b c (op & Hop & Hab) _ IH]; [done|]. etrans; [|exact IH].
  by eapply op_step_writes; [apply Ha|].
Qed.

(** What no write undoes, no run undoes. *)
Lemma reaches_preserves pol (I : DB → Prop) allowed db db' :
  (∀ a b, write pol a b → I a → I b) → (∀ op, allowed op → obeys pol op) → reaches allowed db db' → I db → I db'.
Proof. intros HI Ha Hr. eapply rtc_preserves; [exact HI|by eapply reaches_writes]. Qed.

Lemma reaches_stable pol (I : DB → Prop) db db' :
  (∀ a b, write pol a b → I a → I b) → reaches (obeys pol) db db' → I db → I db'.
Proof. intros HI. apply (reaches_preserves pol I); [done|by intros ??]. Qed.

End lifecycle.

Abbreviation reaches allowed := (rtc (sys_step allowed)).
