(* ===== verification/Quiet.v ===== *)
(** * Runs without driver faults

    When the driver reports no fault, a statement does what its definition says, so a
    transaction can be run forwards: the lemmas here step over reads, locks, writes and
    audit appends, and say which errors are left. *)

From S2P Require Import Prelude Errors Platform Scopes Domain AuditEvents Database Queries Tx StoreCommon ServiceCommon Invariants.

Definition quiet (w : World) : Prop := w_faults w = [].

Lemma pop_fault_quiet w : quiet w → pop_fault w = w.
Proof. destruct w. unfold quiet. simpl. intros ->. done. Qed.
Lemma with_db_same w : with_db (w_db w) w = w.
Proof. by destruct w. Qed.
Lemma current_fault_quiet w : quiet w → current_fault w = None.
Proof. unfold quiet, current_fault. by intros ->. Qed.

Lemma bind_run {A B} (m : Tx A) (k : A → Tx B) w w1 a :
  m w = (w1, inl a) → (m ≫= k) w = k a w1.
Proof. intros H. unfold mbind, Tx_bind. by rewrite H. Qed.
Lemma bind_fail {A B} (m : Tx A) (k : A → Tx B) w w1 e :
  m w = (w1, inr e) → (m ≫= k) w = (w1, inr e).
Proof. intros H. unfold mbind, Tx_bind. by rewrite H. Qed.
Lemma reject_run {B} b e (k : unit → Tx B) w : b = false → (reject_if b e ≫= k) w = k () w.
Proof. by intros ->. Qed.

Section quiet.
Context {A : Type}.

Lemma statement_quiet (s : Stmt A) w :
  quiet w → statement s w = match s (w_db w) with inl (a, db) => (with_db db w, inl a) | inr e => (w, inr e) end.
Proof.
  intros Hq. unfold statement. rewrite current_fault_quiet, pop_fault_quiet by done.
  by destruct (s (w_db w)) as [[]|].
Qed.

Lemma query_run op (s : Stmt A) w a db : quiet w → s (w_db w) = inl (a, db) → query op s w = (with_db db w, inl a).
Proof. intros Hq Hs. unfold query. by rewrite statement_quiet, Hs. Qed.
Lemma query_row_run op e (s : Stmt A) w a db :
  quiet w → s (w_db w) = inl (a, db) → query_row op e s w = (with_db db w, inl a).
Proof.
  intros Hq Hs. unfold query_row. rewrite (bind_run _ _ w (with_db db w) (Some a)); [done|].
  unfold query_opt. by rewrite statement_quiet, Hs.
Qed.
Lemma exec_row_run op e (s : Stmt A) w a db :
  quiet w → s (w_db w) = inl (a, db) → exec_row op e s w = (with_db db w, inl a).
Proof.
  intros Hq Hs. unfold exec_row. rewrite (bind_run _ _ w (with_db db w) (Some a)); [done|].
  unfold exec_opt, autocommit. by rewrite current_fault_quiet, statement_quiet, Hs.
Qed.
Lemma select_run op e (q : DB → option A) w a :
  quiet w → q (w_db w) = Some a → query_row op e (select_one q) w = (w, inl a).
Proof.
  intros Hq Hs. rewrite (query_row_run op e _ w a (w_db w)), with_db_same; [done|done|].
  by apply select_one_inl.
Qed.
Lemma select_none_run op e (q : DB → option A) w :
  quiet w → q (w_db w) = None → query_row op e (select_one q) w = (w, inr e).
Proof.
  intros Hq Hs. unfold query_row. rewrite (bind_run _ _ w w None); [done|].
  unfold query_opt. rewrite statement_quiet by done. unfold select_one. by rewrite Hs.
Qed.
Lemma lock_run op e (q : DB → option A) w a :
  quiet w → q (w_db w) = Some a →
  locking (query_row op e (select_one q)) w = (w, inl a).
Proof. intros Hq Hs. unfold locking. by apply select_run. Qed.
End quiet.

Lemma select_many_run {A} op (q : DB → list A) w : quiet w → query op (select_many q) w = (w, inl (q (w_db w))).
Proof. intros Hq. rewrite (query_run op _ w (q (w_db w)) (w_db w)), with_db_same; done. Qed.

Lemma update_row_run {R} (T : Table R) id p f db r :
  tbl_get T db !! id = Some r → p r = true → tbl_check T (f r) = true →
  update_row T id p f db = inl (f r, tbl_put T (<[id := f r]> (tbl_get T db)) db).
Proof. intros Hr Hp Hc. unfold update_row. by rewrite Hr, Hp, Hc. Qed.

Section with_platform.
Context {P : Platform}.

Lemma loadClientChildren_run row w :
  quiet w → loadClientChildren (mapClient row) w = (w, inl (client_of (w_db w) row)).
Proof.
  intros Hq. unfold loadClientChildren, ListOIDCClientRedirectURIs, ListOIDCClientLogoutURIs, ListOIDCClientScopes.
  by rewrite !(bind_run _ _ _ _ _ (select_many_run _ _ _ Hq)).
Qed.

(** What an audit append can fail with. *)
Definition audit_failure (e : error) : Prop :=
  e = go_panic ∨ e = audit_ErrInvalidEvent ∨ ∃ event inner, e = auditAppendError event inner.

Definition violates (e : driver_error) : Prop := e = check_violation ∨ e = unique_violation ∨ e = foreign_key_violation.

Lemma CreateAuditEvent_inr a db e : CreateAuditEvent a db = inr e → violates e.
Proof.
  unfold CreateAuditEvent, violates. destruct (negb _); [intros [= <-]; auto|]. destruct (_ || _); [intros [= <-]; auto|].
  destruct (negb _); [intros [= <-]; auto|done].
Qed.

(** Without faults an append fails for its own reasons only, and never retries. *)
Lemma insertProtocolAudit_quiet ty res actor tty t rid ch now w :
  quiet w →
  (∃ w' x, insertProtocolAudit ty res actor tty t rid ch now w = (w', inl x) ∧ quiet w') ∨
  ∃ w' e, insertProtocolAudit ty res actor tty t rid ch now w = (w', inr e) ∧ audit_failure e ∧
          isRetryableTransactionError e = false.
Proof.
  intros Hq. unfold insertProtocolAudit, mbind, Tx_bind, lift_sysrand.
  destruct (audit.New _ _ _ _ _ _ _ _ _) as [s [ev|e]] eqn:En.
  - assert (Hq1 : quiet (with_sysrand s w)) by done. unfold insertAudit.
    destruct (audit.Validate ev) as [e|] eqn:Ev.
    { right. do 2 eexists. split; [done|]. split; [right; right; by do 2 eexists|].
      unfold audit.Validate in Ev. repeat case_match; simplify_eq; done. }
    unfold query. rewrite statement_quiet by done.
    destruct (CreateAuditEvent _ _) as [[u db]|e] eqn:Es; [left; do 2 eexists; by split|].
    apply CreateAuditEvent_inr in Es. right. do 2 eexists. split; [done|].
    split; [right; right; by do 2 eexists|]. by destruct Es as [->|[->| ->]].
  - right. do 2 eexists. split; [done|]. unfold audit.New in En. unfold NewRandomFromReader, ReadFull in En.
    unfold mbind, Rnd_bind in En. destruct (_ <=? _)%nat; [|simplify_eq; by split; [left|]].
    unfold mret, Rnd_ret, rnd_throw in En. destruct (audit.Validate _) eqn:Ev; [|done]. simplify_eq.
    unfold audit.Validate in Ev. repeat case_match; simplify_eq; by split; [right; left|].
Qed.
End with_platform.

(** ** Why a call fails *)

Section failures.
Context {P : Platform}.

(** The driver failed, or the audit log refused the event. *)
Definition technical_failure (e : error) : Prop := (∃ op d, e = wrapError op ErrorKindQuery d) ∨ audit_failure e.

Lemma query_inr {A} op (s : Stmt A) w w' e : query op s w = (w', inr e) → technical_failure e.
Proof. unfold query. destruct (statement s w) as [w1 [a|d]]; [done|]. intros [= _ <-]. left. by exists op, d. Qed.
Lemma query_opt_inr {A} op (s : Stmt A) w w' e : query_opt op s w = (w', inr e) → technical_failure e.
Proof.
  unfold query_opt. destruct (statement s w) as [w1 [a|d]]; [done|]. intros H. left. exists op, d. by destruct d; simplify_eq.
Qed.
Lemma query_row_inr {A} op missing (s : Stmt A) w w' e :
  query_row op missing s w = (w', inr e) → technical_failure e ∨ (e = missing ∧ s (w_db w) = inr NoRows).
Proof.
  intros [(w1 & [a|] & Hq & H)|(e' & [= <-] & H)]%bind_cases; [done| |left; by eapply query_opt_inr].
  injection H as _ <-. right. split; [done|]. by apply query_opt_step in Hq as [_ [Hq _]].
Qed.
Lemma audit_New_inr ty res actor tty t rid ch now w w' e :
  lift_sysrand (audit.New ty res actor tty t rid ch now) w = (w', inr e) → technical_failure e.
Proof.
  unfold lift_sysrand. destruct (audit.New _ _ _ _ _ _ _ _ _) as [s [ev|e']] eqn:En; [done|]. intros [= _ <-]. right.
  unfold audit.New, NewRandomFromReader, ReadFull, mbind, Rnd_bind in En. destruct (_ <=? _)%nat; [|simplify_eq; by left].
  unfold mret, Rnd_ret, rnd_throw in En. destruct (audit.Validate _) eqn:Ev; [|done]. simplify_eq.
  unfold audit.Validate in Ev. repeat case_match; simplify_eq; by right; left.
Qed.
Lemma insertAudit_inr event w w' e : insertAudit event w = (w', inr e) → technical_failure e.
Proof.
  intros H. right; right; right. unfold insertAudit in H. destruct (audit.Validate event) as [e'|]; [injection H as _ <-; by do 2 eexists|].
  destruct (query _ _ w) as [w1 [x|e']]; [done|]. injection H as _ <-. by do 2 eexists.
Qed.
Lemma inTx_inr {A} (op : Tx A) (E : error → Prop) w w' e :
  (∀ d o, E (wrapError o ErrorKindQuery d)) → (∀ w1 w2 e, w_db w1 = w_db w → op w1 = (w2, inr e) → E e) →
  inTx op w = (w', inr e) → E e.
Proof.
  intros Hd Hop. unfold inTx. generalize 0 as k. generalize maxTransactionAttempts as n. intros n. revert w Hop.
  induction n as [|n IH]; intros w Hop k; simpl; [intros [= _ <-]; apply Hd|].
  destruct (current_fault (resetValues w)) as [[d ap]|]; [intros [= _ <-]; apply Hd|].
  destruct (op (pop_fault (resetValues w))) as [w2 [a|e2]] eqn:Eop.
  - destruct (current_fault w2) as [[d ap]|]; [|done]. intros [= _ <-]. apply Hd.
  - destruct (_ && _); [|intros [= _ <-]; exact (Hop (pop_fault (resetValues w)) w2 e2 eq_refl Eop)].
    apply IH. intros w3 w4 e4 H4. by apply Hop.
Qed.

Lemma update_row_present {R} (T : Table R) id p f db r :
  tbl_get T db !! id = Some r → p r = true → update_row T id p f db ≠ inr NoRows.
Proof. intros Hr Hp. unfold update_row. rewrite Hr, Hp. simpl. by destruct (negb _). Qed.
End failures.

(** ** Transactions *)

Lemma inTx_quiet_inl {A} (op : Tx A) w w' a :
  quiet w → quiet w' → op (resetValues w) = (w', inl a) → inTx op w = (w', inl a).
Proof.
  intros Hq Hq' H. unfold inTx, maxTransactionAttempts, inTx_attempts.
  rewrite (current_fault_quiet (resetValues w)), (pop_fault_quiet (resetValues w)) by done.
  by rewrite H, (current_fault_quiet w'), (pop_fault_quiet w').
Qed.

Lemma inTx_quiet_inr {A} (op : Tx A) w w' e :
  quiet w → isRetryableTransactionError e = false → op (resetValues w) = (w', inr e) →
  ∃ w2, inTx op w = (w2, inr e) ∧ w_db w2 = w_db w.
Proof.
  intros Hq He H. unfold inTx, maxTransactionAttempts, inTx_attempts.
  rewrite (current_fault_quiet (resetValues w)), (pop_fault_quiet (resetValues w)) by done.
  rewrite H, He, andb_false_r. eexists. split; [done|]. by rewrite w_db_observeAuditWriteFailure.
Qed.

(** A run of an attempt from tables [db]. *)
Definition attempt_of (w w1 : World) : Prop := quiet w1 ∧ w_db w1 = w_db w ∧ w_rand w1 = w_rand w ∧ w_sysrand w1 = w_sysrand w.

Lemma attempt_start w : quiet w → attempt_of w (resetValues w).
Proof. done. Qed.

(** ** Revocation passes the table checks when the clock has not run backwards *)

Lemma revoke_family_check t reason r :
  refresh_token_families_check r = true → rf_CreatedAt r <= t → reason ∈ family_revoke_reasons →
  refresh_token_families_check (revoke_family t (Some reason) r) = true.
Proof.
  unfold refresh_token_families_check. rewrite !andb_true_iff. simpl. intros H Ht Hr. destruct_and!.
  split_and!; try done; [by apply Z.leb_le|by apply bool_decide_eq_true].
Qed.

Lemma revoke_access_check t reason r :
  access_tokens_check r = true → at_IssuedAt r <= t → reason ∈ access_revoke_reasons →
  access_tokens_check (revoke_access t (Some reason) r) = true.
Proof.
  unfold access_tokens_check. rewrite !andb_true_iff. simpl. intros H Ht Hr. destruct_and!.
  split_and!; try done; [by apply Z.leb_le|by apply bool_decide_eq_true].
Qed.

Lemma revoke_live_access_run op db owner t reason w :
  quiet w → w_db w = db → checked access_tokens_check (access_tokens db) → reason ∈ access_revoke_reasons →
  map_Forall (λ _ r, owner r = true → at_IssuedAt r <= t) (access_tokens db) →
  ∃ n, query op (revoke_live_access owner t (Some reason)) w =
       (with_db (with_access_tokens (update_where (λ r, owner r && live_access t r) (revoke_access t (Some reason))
                   (access_tokens db)) db) w, inl n).
Proof.
  intros Hq Hdb Hc Hr Ht. eexists. apply query_run; [done|]. unfold revoke_live_access. rewrite Hdb.
  rewrite (proj2 (update_checks_true _ _ _ _)); [done|]. intros k r Hk [Ho _]%andb_true_iff.
  apply revoke_access_check; [by eapply Hc|by eapply Ht|done].
Qed.

(** ** Errors of the writing statements *)

(** A constraint the new row violates. *)
Definition constraint_failure (e : error) : Prop := ∃ op d, violates d ∧ e = wrapError op ErrorKindQuery d.

Lemma constraint_failure_not_retried e : constraint_failure e → isRetryableTransactionError e = false.
Proof. by intros (op & d & [->|[->| ->]] & ->). Qed.

Lemma query_quiet {A} op (s : Stmt A) w :
  quiet w → (∀ e, s (w_db w) = inr e → violates e) →
  (∃ a db, s (w_db w) = inl (a, db) ∧ query op s w = (with_db db w, inl a)) ∨
  ∃ e, query op s w = (w, inr e) ∧ constraint_failure e.
Proof.
  intros Hq Hs. unfold query. rewrite statement_quiet by done. destruct (s (w_db w)) as [[a db]|e] eqn:E.
  - left. by do 2 eexists.
  - right. eexists. split; [done|]. exists op, e. split; [by apply Hs|done].
Qed.

Ltac violations := intros; repeat case_match; simplify_eq; unfold violates; auto.

Lemma CreateRefreshToken_inr a db e : CreateRefreshToken a db = inr e → violates e.
Proof. unfold CreateRefreshToken. violations. Qed.
Lemma insert_access_token_inr r db e : insert_access_token r db = inr e → violates e.
Proof. unfold insert_access_token. violations. Qed.
Lemma CreateRefreshTokenFamily_inr a db e : CreateRefreshTokenFamily a db = inr e → violates e.
Proof. unfold CreateRefreshTokenFamily. violations. Qed.

(** ** Tactics: run the head of a transaction *)

(** A guard whose tests all fail does not reject. *)
Ltac guard_false :=
  time_unfold; simpl;
  repeat match goal with
  | |- (_ || _)%bool = false => apply orb_false_intro
  | |- negb (bool_decide _) = false => apply negb_false_iff, bool_decide_eq_true
  | |- bool_decide (is_Some _) = false => apply bool_decide_eq_false; intros [? ?]; congruence
  | |- negb _ = false => apply negb_false_iff
  | |- (_ <? _) = false => apply Z.ltb_ge
  | |- (_ <? _) = true => apply Z.ltb_lt
  end; try done; try congruence; try lia.

(** Step over a lock, the client's children or a guard. *)
Ltac run_lock Hq H := erewrite bind_run; [|apply lock_run; [exact Hq|exact H]]; cbv beta.
Ltac run_guard := rewrite reject_run by guard_false.

(** Run one write of a goal, or finish with the constraint it violates. *)
Ltac run_insert w inr_lemma tac :=
  match goal with |- context [mbind ?k (query ?op ?s)] =>
    let a := fresh "a" in let db := fresh "db" in let E := fresh "E" in let e := fresh "e" in let He := fresh "He" in
    destruct (query_quiet op s w) as [(a & db & _ & E)|(e & E & He)]; [done|intros; by eapply inr_lemma| |];
    [rewrite (bind_run _ _ _ _ _ E); cbv beta; tac constr:(with_db db w)
    |rewrite (bind_fail _ _ _ _ _ E); right; exists w, e; split_and!; [done|by right|by apply constraint_failure_not_retried]]
  end.

(** Run one audit append of a goal, or finish with its failure. *)
Ltac run_audit w tac :=
  match goal with |- context [mbind ?k (insertProtocolAudit ?a ?b ?c ?d ?e ?f ?g ?h)] =>
    let w1 := fresh "w" in let E := fresh "E" in let Hq := fresh "Hq" in let er := fresh "er" in let Her := fresh "Her" in
    destruct (insertProtocolAudit_quiet a b c d e f g h w) as [(w1 & [] & E & Hq)|(w1 & er & E & Her & ?)]; [done| |];
    [rewrite (bind_run _ _ _ _ _ E); cbv beta; tac w1
    |rewrite (bind_fail _ _ _ _ _ E); right; exists w1, er; split_and!; [done|by left|done]]
  end.
