(* ===== verification/ServiceSteps.v ===== *)
(** * Service runs as sequences of store operations

    A service reads, computes and calls the store; what it does to the tables is a
    sequence of operations of [Lifecycle.v], whatever it returns.  [within allowed]
    says so, and the tactic [within_auto] proves it for a service's code; everything
    [Lifecycle.v] says of reachable states then holds after any service call. *)

From S2P Require Import Prelude Errors Platform Scopes Domain Opaque SessionTokens AuditEvents Database Queries.
From S2P Require Import RegistryQueries BrowserQueries Tx StoreCommon ServiceCommon AuthorizationStore TokenStore ConsentStore.
From S2P Require Import SessionStore FlowStore LoginStore LogoutStore UserStore ClientStore Invariants Writes Lifecycle.

Section within.
Context {P : Platform}.

(** Every run of [m] takes the tables from one state to another by allowed operations. *)
Definition within (allowed : Op → Prop) {A} (m : Tx A) : Prop := tx_rel (reaches allowed) m.

Lemma within_op {A} (allowed : Op → Prop) op (m : Tx A) (f : A → OpResult) :
  allowed op → op_run op = (m ≫= λ a, mret (f a)) → within allowed m.
Proof. intros Ha Hop w w' r H. apply rtc_once. exists op. split; [done|]. by eapply run_step. Qed.

(** A call that leaves the tables alone. *)
Definition reads {A} (m : Tx A) : Prop := tx_rel eq m.
#[export] Instance eq_DB_PreOrder : PreOrder (@eq DB).
Proof. split; [intros db; done|intros a b c; congruence]. Qed.
Lemma within_reads {A} allowed (m : Tx A) : reads m → within allowed m.
Proof. intros Hm w w' r H. rewrite (Hm _ _ _ H). apply rtc_refl. Qed.

Lemma within_ok {A} allowed (m : Tx A) w w' r : within allowed m → m w = (w', r) → db_ok (w_db w) → db_ok (w_db w').
Proof. intros Hm H. eapply reaches_ok. exact (Hm _ _ _ H). Qed.

Lemma within_mono {A} (a b : Op → Prop) (m : Tx A) : (∀ op, a op → b op) → within a m → within b m.
Proof.
  intros Hab Hm w w' r H. specialize (Hm _ _ _ H). clear H. induction Hm as [|x y z (op & Ha & Hs) _ IH]; [constructor|].
  eapply rtc_l; [|exact IH]. exists op. auto.
Qed.

(** ** The reads of the stores *)

Lemma reads_FindAuthTransaction h : reads (FindAuthTransaction h).
Proof. unfold reads, FindAuthTransaction. tx_rel_auto. Qed.
Lemma reads_FindPreAuth h : reads (FindPreAuth h).
Proof. unfold reads, FindPreAuth. tx_rel_auto. Qed.
Lemma reads_FindLoginRecord i : reads (FindLoginRecord i).
Proof. unfold reads, FindLoginRecord. tx_rel_auto. Qed.
Lemma reads_GetUser id : reads (GetUser id).
Proof. unfold reads, GetUser. tx_rel_auto. Qed.
Lemma reads_HasAdmin : reads HasAdmin.
Proof. unfold reads, HasAdmin. tx_rel_auto. Qed.
Lemma reads_ListUsers s c l : reads (ListUsers s c l).
Proof. unfold reads, ListUsers. tx_rel_auto. Qed.
Lemma reads_ListManagedSessions c l : reads (ListManagedSessions c l).
Proof. unfold reads, ListManagedSessions. tx_rel_auto. Qed.
Lemma reads_ListAuditEvents e c l : reads (ListAuditEvents e c l).
Proof. unfold reads, ListAuditEvents. tx_rel_auto. Qed.
Lemma reads_GetClient id : reads (GetClient id).
Proof. unfold reads, GetClient. tx_rel_auto. Qed.
Lemma reads_GetClientByPublicID id : reads (GetClientByPublicID id).
Proof. unfold reads, GetClientByPublicID, getClientByPublicID_tx. tx_rel_auto. Qed.
Lemma reads_load_each rows : tx_rel eq (load_each rows).
Proof. induction rows; simpl; tx_rel_auto. Qed.
Lemma reads_ListClients c l : reads (ListClients c l).
Proof. unfold reads, ListClients, listClients_tx. tx_rel_auto. apply reads_load_each. Qed.
Lemma reads_GetClientSecretHashes id : reads (GetClientSecretHashes id).
Proof. unfold reads, GetClientSecretHashes. tx_rel_auto. Qed.
Lemma reads_FindLoginSession h : reads (FindLoginSession h).
Proof. unfold reads, FindLoginSession. tx_rel_auto. Qed.
Lemma reads_ListUserSessions u c l : reads (ListUserSessions u c l).
Proof. unfold reads, ListUserSessions. tx_rel_auto. Qed.
Lemma reads_GetConsentGrant u c : reads (GetConsentGrant u c).
Proof. unfold reads, GetConsentGrant. tx_rel_auto. Qed.
Lemma reads_ListCurrentUserGrants u c l n : reads (ListCurrentUserGrants u c l n).
Proof. unfold reads, ListCurrentUserGrants. tx_rel_auto. Qed.

(** ** What the client reads return *)

Lemma GetClient_inl id w w' c :
  GetClient id w = (w', inl c) →
  w_db w' = w_db w ∧ ∃ row, oidc_clients (w_db w) !! id = Some row ∧ c = client_of (w_db w) row.
Proof. unfold GetClient. intros (w1 & w2 & E1 & (row & Hr & -> & Hdb)%loadClient_inl & E2)%inTx_inl. rewrite E1 in *. split; [congruence|]. by exists row. Qed.

Lemma GetClientByPublicID_inl public w w' c :
  GetClientByPublicID public w = (w', inl c) →
  w_db w' = w_db w ∧ ∃ row, find_row (λ r, cl_ClientID r == public) (oidc_clients (w_db w)) = Some row ∧ c = client_of (w_db w) row.
Proof.
  unfold GetClientByPublicID, getClientByPublicID_tx. intros (w1 & w2 & E1 & H & E2)%inTx_inl. tx_step H.
  apply loadClientChildren_inl in H as (-> & Hdb1 & _). rewrite Hdb. split; [congruence|]. by exists a.
Qed.
End within.

Create HintDb reads.
#[export] Hint Resolve reads_FindAuthTransaction reads_FindPreAuth reads_FindLoginRecord reads_GetUser reads_HasAdmin
  reads_ListUsers reads_ListManagedSessions reads_ListAuditEvents reads_GetClient reads_GetClientByPublicID
  reads_ListClients reads_GetClientSecretHashes reads_FindLoginSession reads_ListUserSessions reads_GetConsentGrant
  reads_ListCurrentUserGrants : reads.

(** ** Automation *)

Ltac by_op op f := apply (within_op _ op _ f); [|reflexivity].

(** The store operation a call is. *)
Ltac within_store :=
  lazymatch goal with
  | |- tx_rel _ (FlowStore.CreateAuthTransaction ?t ?e) => by_op (OpCreateTransaction t e) (λ _ : unit, ResultDone)
  | |- tx_rel _ (FlowStore.ConsumeAuthTransaction ?i ?n ?e) => by_op (OpConsumeTransaction i n e) ResultTransaction
  | |- tx_rel _ (FlowStore.RejectAuthTransaction ?i ?r ?n ?e) => by_op (OpRejectTransaction i r n e) ResultTransaction
  | |- tx_rel _ (LoginStore.CreatePreAuth ?r) => by_op (OpCreatePreAuth r) (λ _ : unit, ResultDone)
  | |- tx_rel _ (LoginStore.ReservePreAuthAttempt ?i ?n ?m) => by_op (OpReserveAttempt i n m) (λ _ : unit, ResultDone)
  | |- tx_rel _ (LoginStore.CommitRegistration ?c) => by_op (OpRegister c) (λ _ : unit, ResultDone)
  | |- tx_rel _ (LoginStore.CommitLogin ?c) => by_op (OpLogin c) ResultBinding
  | |- tx_rel _ (LoginStore.AppendAudit ?e) => by_op (OpAppendAudit e) (λ _ : unit, ResultDone)
  | |- tx_rel _ (LogoutStore.CreateLogoutTransaction ?v) => by_op (OpCreateLogout v) (λ _ : unit, ResultDone)
  | |- tx_rel _ (LogoutStore.BindLogoutTransaction ?i) => by_op (OpBindLogout i) ResultLogout
  | |- tx_rel _ (LogoutStore.CompleteLogoutTransaction ?i) => by_op (OpCompleteLogout i) ResultCandidate
  | |- tx_rel _ (UserStore.BootstrapAdmin ?p ?e) => by_op (OpBootstrapAdmin p e) (λ _ : unit, ResultDone)
  | |- tx_rel _ (UserStore.CreateManagedUser ?p ?e) => by_op (OpCreateUser p e) (λ _ : unit, ResultDone)
  | |- tx_rel _ (UserStore.UpdateManagedUser ?c) => by_op (OpUpdateUser c) ResultUser
  | |- tx_rel _ (UserStore.RevokeAllManagedUserSessions ?i ?n ?e) => by_op (OpRevokeAllSessions i n e) ResultCount
  | |- tx_rel _ (UserStore.RevokeManagedSession ?i ?n ?e) => by_op (OpRevokeManagedSession i n e) (λ _ : unit, ResultDone)
  | |- tx_rel _ (ClientStore.CreateClient ?v ?s ?e) => by_op (OpCreateClient v s e) (λ _ : unit, ResultDone)
  | |- tx_rel _ (ClientStore.UpdateClient ?v ?e) => by_op (OpUpdateClient v e) (λ _ : unit, ResultDone)
  | |- tx_rel _ (ClientStore.RotateClientSecret ?i ?s ?n ?e) => by_op (OpRotateSecret i s n e) (λ _ : unit, ResultDone)
  | |- tx_rel _ (SessionStore.TouchLoginSession ?i ?a ?b) => by_op (OpTouchSession i a b) (λ _ : unit, ResultDone)
  | |- tx_rel _ (SessionStore.RotateSessionCSRF ?i ?h ?t) => by_op (OpRotateCSRF i h t) (λ _ : unit, ResultDone)
  | |- tx_rel _ (SessionStore.RevokeUserSession ?u ?t ?n ?e) => by_op (OpRevokeUserSession u t n e) (λ _ : unit, ResultDone)
  | |- tx_rel _ (SessionStore.RevokeOtherUserSessions ?u ?t ?n ?e) => by_op (OpRevokeOtherSessions u t n e) ResultCount
  | |- tx_rel _ (SessionStore.RevokeSessionByHash ?h ?n ?r ?e) => by_op (OpRevokeSessionByHash h n r e) (λ _ : unit, ResultDone)
  | |- tx_rel _ (AuthorizationStore.IssueAuthorizationCode ?c) => by_op (OpIssue c) ResultGrant
  | |- tx_rel _ (AuthorizationStore.DenyAuthorization ?c) => by_op (OpDeny c) (λ _ : unit, ResultDone)
  | |- tx_rel _ (TokenStore.ExchangeAuthorizationCode ?i ?m) => by_op (OpExchange i m) ResultTokens
  | |- tx_rel _ (ConsentStore.RevokeCurrentUserGrant ?i) => by_op (OpRevokeGrant i) ResultManagedGrant
  end.

Ltac within_step :=
  lazymatch goal with
  | |- tx_rel _ (attempt _) => apply tx_rel_attempt
  | |- tx_rel _ (replace_error _ _) => apply tx_rel_replace_error; [apply _|]
  | |- tx_rel _ (ignore_error _) => apply tx_rel_ignore_error; [apply _|]
  | |- tx_rel _ (record_event _ _) => apply tx_rel_record_event; [apply _|intros ?]
  | |- _ => first [within_store | apply within_reads; solve [eauto with reads] | tx_rel_step]
  end.
(** Leaves the conditions on the operations. *)
Ltac within_auto := unfold within; repeat within_step.
