(* ===== verification/RefreshProofs.v ===== *)
(** * Refresh rotation and reuse, specified and proved

    [presentable] is the authority a presented generation needs whatever its state,
    [rotation_effect] what a successful rotation changes, [reuse_effect] what
    presenting a consumed generation changes; the transaction refines them. *)

From S2P Require Import Prelude Errors Platform Scopes Domain Opaque AuditEvents Database Queries Tx StoreCommon.
From S2P Require Import TokenStore Invariants StatementFacts.
Import Refresh.

Section proofs.
Context {P : Platform}.

(** ** Specification *)

(** The locked rows behind a candidate, valid for the client and the time. *)
Record presentable (db : DB) (input : RefreshInput) (candidate : RefreshTokenRow) (user : UserRow)
    (client : OidcClientRow) (grant : ConsentGrantRow) (family : RefreshTokenFamilyRow)
    (presented : RefreshTokenRow) : Prop := {
  pr_user : users db !! rf_UserID family = Some user ∧ u_Status user = identity_StatusActive;
  pr_client : oidc_clients db !! rf_ClientID family = Some client;
  pr_authenticated : sameAuthenticatedClient (client_of db client) (RefreshInput_Client input) = true;
  pr_grant : find_row (grant_of (rf_UserID family) (rf_ClientID family)) (consent_grants db) = Some grant;
  pr_grant_id : g_ID grant = rf_ConsentGrantID family;
  pr_grant_live : g_RevokedAt grant = None;
  pr_family : refresh_token_families db !! rt_FamilyID candidate = Some family;
  pr_family_live : rf_RevokedAt family = None;
  pr_family_age : RefreshInput_Now input < rf_AbsoluteExpiresAt family;
  pr_presented : refresh_tokens db !! rt_ID candidate = Some presented;
  pr_member : rt_FamilyID presented = rf_ID family;
  pr_hash : rt_TokenHash presented = RefreshInput_TokenHash input }.

Definition refresh_authority (db : DB) (input : RefreshInput) (user : UserRow) (client : OidcClientRow)
    (grant : ConsentGrantRow) (family : RefreshTokenFamilyRow) (presented : RefreshTokenRow) (scopes : list string)
    : RefreshAuthority :=
  mkRefreshAuthority (mapRefreshGeneration presented) (mapRefreshFamily family) (mapConsentGrant grant)
    (mapUser user) (client_of db client) scopes (RefreshInput_Now input).

Definition successor (family : RefreshTokenFamilyRow) (presented : RefreshTokenRow) (minted : RefreshMinted)
    : RefreshTokenRow :=
  mkRefreshTokenRow (RefreshMinted_ReplacementTokenID minted) (rf_ID family) (RefreshMinted_ReplacementTokenHash minted)
    (rt_Generation presented + 1) (timestamp (RefreshMinted_IssuedAt minted))
    (timestamp (RefreshMinted_ReplacementExpiresAt minted)) None.

Definition refreshed_access (grantID : uuid) (family : RefreshTokenFamilyRow) (presented : RefreshTokenRow)
    (scopes : list string) (minted : RefreshMinted) : AccessTokenRow :=
  mkAccessTokenRow (RefreshMinted_AccessTokenID minted) (RefreshMinted_JTIHash minted) None grantID (rf_UserID family)
    (rf_ClientID family) scopes (timestamp (RefreshMinted_IssuedAt minted))
    (timestamp (RefreshMinted_AccessExpiresAt minted)) "refresh_token" (Some (rt_ID presented)) (Some (rf_ID family))
    (rf_OriginSessionID family) (Some (rf_SessionBindingID family)) None None.

(** The presented generation is consumed, its successor and the access token stored. *)
Definition rotation_effect (input : RefreshInput) (grantID : uuid) (family : RefreshTokenFamilyRow)
    (presented : RefreshTokenRow) (scopes : list string) (minted : RefreshMinted) (db : DB) : DB :=
  with_access_tokens
    (<[RefreshMinted_AccessTokenID minted := refreshed_access grantID family presented scopes minted]> (access_tokens db))
    (with_refresh_tokens
       (<[RefreshMinted_ReplacementTokenID minted := successor family presented minted]>
          (<[rt_ID presented := consume_refresh (timestamp (RefreshInput_Now input)) presented]> (refresh_tokens db))) db).

(** The family is revoked for reuse, and with it every live access token it issued. *)
Definition reuse_effect (now : time) (family : RefreshTokenFamilyRow) (db : DB) : DB :=
  with_access_tokens
    (update_where (λ r, (at_RefreshFamilyID r == Some (rf_ID family)) && live_access now r)
       (revoke_access now (Some "family_revoked")) (access_tokens db))
    (with_refresh_token_families (<[rf_ID family := revoke_family now (Some "reuse") family]> (refresh_token_families db)) db).

(** ** The transaction refines the specification *)

Lemma rotate_inl input mint user client grant family presented scopes w w' o :
  refresh_tokens (w_db w) !! rt_ID presented = Some presented →
  rotate input mint user client (mapConsentGrant grant) (mapRefreshFamily family) (mapRefreshGeneration presented)
    scopes w = (w', inl o) →
  ∃ s minted audits,
    mint (mkRefreshAuthority (mapRefreshGeneration presented) (mapRefreshFamily family) (mapConsentGrant grant)
            user client scopes (RefreshInput_Now input)) (w_rand w) = (s, inl minted) ∧
    validRefreshMinted minted (mapRefreshGeneration presented) (mapRefreshFamily family) (RefreshInput_Now input) = true ∧
    rt_ConsumedAt presented = None ∧
    w_db w' = with_audit_events audits (rotation_effect input (g_ID grant) family presented scopes minted (w_db w)) ∧
    o = Rotated (mkResponse (RefreshMinted_AccessToken minted) "Bearer"
          (expiresIn (RefreshMinted_AccessExpiresAt minted) (RefreshMinted_IssuedAt minted)) ""
          (RefreshMinted_ReplacementClearToken minted) (join_space scopes)).
Proof.
  intros Hp H. unfold rotate in H. do 8 store_step H. rename a into minted.
  apply ConsumeRefreshToken_inl in Hstmt as (r & Hr & Hn & ->). simpl in Hr. rewrite Hp in Hr. injection Hr as <-.
  apply CreateRefreshToken_inl in Hstmt0 as (_ & _ & _ & ->).
  apply insert_access_token_inl in Hstmt1 as (_ & _ & _ & ->).
  exists s, minted, audits0. split_and!; try done. by apply negb_false_iff.
Qed.

Lemma rejectReuse_inl input family presented w w' o :
  refresh_token_families (w_db w) !! rf_ID family = Some family →
  rejectReuse input (mapRefreshFamily family) (mapRefreshGeneration presented) w = (w', inl o) →
  o = ReuseDetected ∧ w_rand w' = w_rand w ∧
  ∃ audits, w_db w' = with_audit_events audits (reuse_effect (timestamp (RefreshInput_Now input)) family (w_db w)).
Proof.
  intros Hf H. unfold rejectReuse in H. do 5 store_step H.
  apply RevokeRefreshTokenFamily_inl in Hstmt as (r & Hr & _ & ->). simpl in Hr. rewrite Hf in Hr. injection Hr as <-.
  apply revoke_live_access_inl in Hstmt0 as ->. split_and!; [done|done|].
  eexists. rewrite Hdb2. unfold reuse_effect. simpl. reflexivity.
Qed.

Lemma presentable_intro db input candidate cfamily user client grant family presented :
  u_ID user = rf_UserID cfamily → cl_ID client = rf_ClientID cfamily →
  users db !! rf_UserID cfamily = Some user → (u_Status user != identity_StatusActive) = false →
  oidc_clients db !! rf_ClientID cfamily = Some client →
  negb (sameAuthenticatedClient (client_of db client) (RefreshInput_Client input)) = false →
  find_row (grant_of (rf_UserID cfamily) (rf_ClientID cfamily)) (consent_grants db) = Some grant →
  (Grant_ID (mapConsentGrant grant) != rf_ConsentGrantID cfamily) ||
  bool_decide (is_Some (Grant_RevokedAt (mapConsentGrant grant))) || (Grant_Version (mapConsentGrant grant) <? 1) = false →
  refresh_token_families db !! rt_FamilyID candidate = Some family →
  (RefreshFamily_ID (mapRefreshFamily family) != rf_ID cfamily) || (RefreshFamily_UserID (mapRefreshFamily family) != u_ID user) ||
  (RefreshFamily_ClientID (mapRefreshFamily family) != Client_ID (client_of db client)) ||
  (RefreshFamily_ConsentGrantID (mapRefreshFamily family) != Grant_ID (mapConsentGrant grant)) ||
  bool_decide (is_Some (RefreshFamily_RevokedAt (mapRefreshFamily family))) ||
  negb (Time.Before (RefreshInput_Now input) (RefreshFamily_AbsoluteExpiresAt (mapRefreshFamily family))) = false →
  refresh_tokens db !! rt_ID candidate = Some presented →
  (RefreshGeneration_FamilyID (mapRefreshGeneration presented) != RefreshFamily_ID (mapRefreshFamily family)) ||
  (RefreshGeneration_TokenHash (mapRefreshGeneration presented) != RefreshInput_TokenHash input) = false →
  presentable db input candidate user client grant family presented.
Proof.
  intros Ku Kc Hu Hs Hc Ha Hg Hg' Hf Hf' Hp Hp'. time_unfold. rewrite !orb_false_iff in *. simpl in *. go_bools.
  assert (Eu : rf_UserID family = rf_UserID cfamily) by congruence.
  assert (Ec : rf_ClientID family = rf_ClientID cfamily) by congruence.
  split; rewrite ?Eu, ?Ec; try done; try by apply not_is_Some_None.
Qed.

(** A run that gets past the checks has a presentable generation; it then either
    detects reuse or rotates an unconsumed, unexpired generation. *)
Lemma refresh_inv input mint candidate cfamily w w' o :
  db_ok (w_db w) → exchangeRefreshToken_tx input mint candidate cfamily w = (w', inl o) →
  ∃ user client grant family presented audits,
    presentable (w_db w) input candidate user client grant family presented ∧
    match o with
    | ReuseDetected =>
        is_Some (rt_ConsumedAt presented) ∧ w_rand w' = w_rand w ∧
        w_db w' = with_audit_events audits (reuse_effect (timestamp (RefreshInput_Now input)) family (w_db w))
    | Rotated resp =>
        ∃ scopes s minted,
        rt_ConsumedAt presented = None ∧ RefreshInput_Now input < rt_ExpiresAt presented ∧
        SelectRefreshAccessScopes (RefreshInput_RequestedScopes input) (rf_Scopes family) (g_Scopes grant)
          (child_values (oidc_client_scopes (w_db w)) (cl_ID client)) = inl scopes ∧
        mint (refresh_authority (w_db w) input user client grant family presented scopes) (w_rand w) = (s, inl minted) ∧
        validRefreshMinted minted (mapRefreshGeneration presented) (mapRefreshFamily family) (RefreshInput_Now input) = true ∧
        w_db w' = with_audit_events audits (rotation_effect input (g_ID grant) family presented scopes minted (w_db w)) ∧
        resp = mkResponse (RefreshMinted_AccessToken minted) "Bearer"
                 (expiresIn (RefreshMinted_AccessExpiresAt minted) (RefreshMinted_IssuedAt minted)) ""
                 (RefreshMinted_ReplacementClearToken minted) (join_space scopes)
    end.
Proof.
  intros Hok H. unfold exchangeRefreshToken_tx in H. do 11 store_step H.
  rename a into user, a1 into client, a3 into grant, a5 into family, a7 into presented.
  pose proof (ok_families_key _ Hok _ _ Hstmt2) as Kf. pose proof (ok_refresh_key _ Hok _ _ Hstmt3) as Kp.
  simpl in Kf, Kp.
  assert (Hpr : presentable (w_db w) input candidate user client grant family presented).
  { apply (presentable_intro (w_db w) input candidate cfamily); try done.
    - apply (ok_users_key _ Hok _ _ Hstmt).
    - apply (ok_clients_key _ Hok _ _ Hstmt0). }
  destruct (bool_decide (is_Some (RefreshGeneration_ConsumedAt (mapRefreshGeneration presented)))) eqn:Hcons.
  - apply bool_decide_eq_true in Hcons. apply rejectReuse_inl in H as (-> & Hr & audits & Haud); [|by rewrite Hdb9, Kf].
    rewrite Hdb9 in Haud. exists user, client, grant, family, presented, audits. split_and!; try done. congruence.
  - tx_step H. destruct (SelectRefreshAccessScopes _ _ _ _) as [scopes|e] eqn:Hsel; [|tx_step H].
    apply rotate_inl in H as (s & minted & audits & Hm & Hv & Hn & Haud & ->); [|by rewrite Hdb9, Kp].
    rewrite Hdb9 in Haud. rewrite Hrand9 in Hm.
    exists user, client, grant, family, presented, audits. split; [done|].
    exists scopes, s, minted. time_unfold. go_bools. done.
Qed.
End proofs.
