(* ===== verification/IssueProofs.v ===== *)
(** * Issuing a code, specified and proved

    [issuable] is what the locked rows must satisfy, [consent_applied] the consent
    decision, [issue_effect] the code and the consumed browser transaction. *)

From S2P Require Import Prelude Errors Platform Scopes Domain Opaque AuditEvents Database Queries Tx StoreCommon.
From S2P Require Import AuthorizationStore Invariants StatementFacts.

Section proofs.
Context {P : Platform}.

(** ** The consent decision *)

(** The grant in force for (user, client) and the tables after the decision on
    [requested]: nothing changes without interaction; with it a missing grant is
    created, a revoked one restarts from the request, a live one grows to the union. *)
Inductive consent_applied (commit : IssueCommit) (client : Client) (requested : list string) (db : DB)
    : ConsentGrantRow → DB → Prop :=
| consent_created g :
    IssueCommit_InteractiveConsent commit = true →
    find_row (grant_of (IssueCommit_UserID commit) (Client_ID client)) (consent_grants db) = None →
    consent_grants db !! IssueCommit_ProposedGrantID commit = None →
    g = mkConsentGrantRow (IssueCommit_ProposedGrantID commit) (IssueCommit_UserID commit) (Client_ID client) requested
          (timestamp (IssueCommit_CreatedAt commit)) (timestamp (IssueCommit_CreatedAt commit)) None 1 →
    consent_applied commit client requested db g (with_consent_grants (<[IssueCommit_ProposedGrantID commit := g]> (consent_grants db)) db)
| consent_reactivated old g :
    IssueCommit_InteractiveConsent commit = true →
    find_row (grant_of (IssueCommit_UserID commit) (Client_ID client)) (consent_grants db) = Some old →
    is_Some (g_RevokedAt old) →
    g = mkConsentGrantRow (g_ID old) (g_UserID old) (g_ClientID old) requested (g_CreatedAt old)
          (timestamp (IssueCommit_CreatedAt commit)) None (g_Version old + 1) →
    consent_applied commit client requested db g (with_consent_grants (<[g_ID old := g]> (consent_grants db)) db)
| consent_covered g :
    find_row (grant_of (IssueCommit_UserID commit) (Client_ID client)) (consent_grants db) = Some g →
    g_RevokedAt g = None → (∀ s, s ∈ requested → s ∈ g_Scopes g) →
    (IssueCommit_InteractiveConsent commit = false → ∀ s, s ∈ requested → s ∈ Client_Scopes client) →
    consent_applied commit client requested db g db
| consent_expanded old g :
    IssueCommit_InteractiveConsent commit = true →
    find_row (grant_of (IssueCommit_UserID commit) (Client_ID client)) (consent_grants db) = Some old →
    g_RevokedAt old = None → ¬ (∀ s, s ∈ requested → s ∈ g_Scopes old) →
    g = mkConsentGrantRow (g_ID old) (g_UserID old) (g_ClientID old) (Union (g_Scopes old) requested) (g_CreatedAt old)
          (timestamp (IssueCommit_CreatedAt commit)) None (g_Version old + 1) →
    consent_applied commit client requested db g (with_consent_grants (<[g_ID old := g]> (consent_grants db)) db).

(** Stored scopes pass the table's check, hence are canonical. *)
Lemma scopes_valid_canonical l : scopes_valid l = true → canonical l.
Proof.
  unfold scopes_valid, sorted_unique. intros H. rewrite !andb_true_iff in H. destruct H as [[[_ Hs] Ho] Hl].
  apply bool_decide_eq_true in Hl, Ho. destruct (sortedSet_sorted (list_to_set l)) as [H1 H2]. rewrite <- Hl in H1, H2.
  split_and!; try done. apply Forall_forall. intros x Hx. rewrite forallb_forall in Hs.
  specialize (Hs x (proj1 (list_elem_of_In _ _) Hx)). apply bool_decide_eq_true in Hs.
  apply Is_true_true, supported_spec. unfold all_scopes. set_solver.
Qed.

Lemma grant_canonical db k g : db_ok db → consent_grants db !! k = Some g → canonical (g_Scopes g).
Proof.
  intros Hok Hk. pose proof (ok_grants_check _ Hok _ _ Hk) as Hc. simpl in Hc. unfold consent_grants_check in Hc.
  apply scopes_valid_canonical. by rewrite !andb_true_iff in Hc; destruct Hc as [[[? _] _] _].
Qed.

Lemma Union_covered l r : canonical l → (Forall supported r) →
  Union l r = l ↔ ∀ x, x ∈ r → x ∈ l.
Proof.
  intros Hl Hr. rewrite Forall_forall in Hr. pose proof Hl as (_ & _ & Hs & Ho). rewrite Forall_forall in Hs. split.
  - intros HU x Hx. rewrite <- HU. apply elem_of_Union. split; [by apply Is_true_true, Hr|by right].
  - intros Hsub. apply canonical_ext; [by apply Union_canonical|done|]. intros x. rewrite elem_of_Union.
    split; [naive_solver|]. intros Hx. split; [by apply Is_true_true, Hs|by left].
Qed.

(** The grant a statement stored is the one in force. *)
Ltac stored_grant H := match type of H with _ = with_consent_grants (<[_ := ?g]> _) _ => exists g end.

Lemma lockAndApplyConsent_inl commit client requested w w' grant changed :
  db_ok (w_db w) → canonical requested →
  lockAndApplyConsent commit client requested w = (w', inl (grant, changed)) →
  ∃ g, consent_applied commit client requested (w_db w) g (w_db w') ∧
       Grant_ID grant = g_ID g ∧ Grant_Version grant = g_Version g ∧ w_rand w' = w_rand w.
Proof.
  intros Hok Hreq H. pose proof Hreq as (_ & _ & Hsup & _). unfold lockAndApplyConsent in H.
  apply Tx_bind_inl in H as (w1 & found & Hl & H). apply locking_step in Hl as (w0 & Hdb0 & Hr0 & Hl).
  apply query_opt_step in Hl as [Hr1 Hf]. destruct found as [old|].
  - destruct Hf as (db & Hs & Hdb1). rewrite Hdb0 in Hs. select_inv Hs.
    destruct (grant_by_owner _ _ _ _ Hok Hs) as (Hk & Hu & Hc).
    pose proof (grant_canonical _ _ _ Hok Hk) as Hcan.
    change (Grant_Scopes (mapConsentGrant old)) with (g_Scopes old) in H.
    rewrite (canonical_CanonicalScopes _ Hcan) in H. tx_step H.
    change (Grant_RevokedAt (mapConsentGrant old)) with (g_RevokedAt old) in H.
    destruct (bool_decide (is_Some (g_RevokedAt old))) eqn:Erev.
    + apply bool_decide_eq_true in Erev. repeat tx_step H. apply update_grant_inl in Hstmt as (r & Hr & _ & -> & Hdb').
      simpl in Hr. rewrite Hk in Hr. injection Hr as <-. go_bools. stored_grant Hdb'. split.
      * rewrite Hdb'. by eapply consent_reactivated.
      * split_and!; [done|done|congruence].
    + apply bool_decide_eq_false, not_is_Some_None in Erev.
      destruct (IssueCommit_InteractiveConsent commit) eqn:Ei; simpl in H.
      * destruct (bool_decide (Union _ _ = _)) eqn:EU; [apply bool_decide_eq_true in EU|apply bool_decide_eq_false in EU].
        -- tx_step H. exists old. split_and!; [|done|done|congruence]. rewrite Hdb1. apply consent_covered; [done|done| |congruence].
           by apply Union_covered.
        -- repeat tx_step H. apply update_grant_inl in Hstmt as (r & Hr & _ & -> & Hdb').
           simpl in Hr. rewrite Hk in Hr. injection Hr as <-. rewrite Erev in Hdb'. stored_grant Hdb'. split.
           ++ rewrite Hdb'. eapply consent_expanded; try done. intros Hsub. apply EU. by apply Union_covered.
           ++ split_and!; [done|done|congruence].
      * repeat tx_step H. exists old. go_bools. rewrite Difference_nil in Hguard0 by done.
        split_and!; [|done|done|congruence]. rewrite Hdb1. apply consent_covered; try done.
        -- intros x Hx. by apply Hguard0, elem_of_Intersection in Hx as (_ & ? & _).
        -- intros _ x Hx. by apply Hguard0, elem_of_Intersection in Hx as (_ & _ & ?).
  - destruct Hf as [_ Hf]. repeat tx_step H. pose proof (CreateConsentGrant_first _ _ _ _ _ _ _ _ _ Hstmt) as Hnone.
    apply CreateConsentGrant_inl in Hstmt as (Hn & -> & Hdb'). go_bools. rewrite Hdb0 in Hn, Hdb', Hnone.
    stored_grant Hdb'. split; [rewrite Hdb'; by apply consent_created|]. split_and!; [done|done|congruence].
Qed.

(** ** Issuing *)

(** The locked rows behind an issue: a live authorization transaction equal to the one
    the browser flow validated, an active user, an active client that still registers
    the redirect URI and the scopes. *)
Record issuable (db : DB) (commit : IssueCommit) (tx : AuthTransactionRow) (user : UserRow) (client : OidcClientRow)
    (requested : list string) : Prop := {
  is_tx : auth_transactions db !! tx_ID tx = Some tx;
  is_expected : tx_ID tx = Transaction_ID (IssueCommit_Transaction commit);
  is_unconsumed : tx_ConsumedAt tx = None;
  is_live : IssueCommit_CreatedAt commit < tx_ExpiresAt tx;
  is_bound : tx_TransactionKind tx = KindAuthorization ∧
             tx_TokenHash tx = Transaction_TokenHash (IssueCommit_Transaction commit) ∧
             tx_ClientID tx = Transaction_ClientID (IssueCommit_Transaction commit) ∧
             valueString (tx_RedirectUri tx) = Transaction_RedirectURI (IssueCommit_Transaction commit) ∧
             tx_Scopes tx = Transaction_Scopes (IssueCommit_Transaction commit) ∧
             valueString (tx_PkceChallenge tx) = Transaction_PKCEChallenge (IssueCommit_Transaction commit) ∧
             valueString (tx_NonceValue tx) = Transaction_Nonce (IssueCommit_Transaction commit);
  is_user : users db !! IssueCommit_UserID commit = Some user ∧ u_Status user = identity_StatusActive;
  is_client : ∃ id, tx_ClientID tx = Some id ∧ oidc_clients db !! id = Some client;
  is_client_active : cl_Status client = client_StatusActive ∧ validAuthenticationProfile (client_of db client) = true;
  is_redirect : valueString (tx_RedirectUri tx) ∈ child_values (oidc_client_redirect_uris db) (cl_ID client);
  is_scopes : CanonicalScopes (tx_Scopes tx) = Some requested;
  is_client_scopes : ∀ s, s ∈ requested → s ∈ child_values (oidc_client_scopes db) (cl_ID client) }.

(** The code row: every binding comes from the locked transaction, the digest and the
    lifetime from the commit, the version from the grant in force. *)
Definition issued_code (commit : IssueCommit) (tx : AuthTransactionRow) (client : OidcClientRow) (requested : list string)
    (grant : ConsentGrantRow) : AuthorizationCodeRow :=
  mkAuthorizationCodeRow (IssueCommit_CodeID commit) (IssueCommit_CodeHash commit) (tx_ID tx) (g_ID grant)
    (IssueCommit_UserID commit) (cl_ID client) (valueString (tx_RedirectUri tx)) requested
    (valueString (tx_PkceChallenge tx)) "S256" (tx_NonceValue tx) (timestamp (IssueCommit_AuthenticatedAt commit))
    (timestamp (IssueCommit_CreatedAt commit)) (timestamp (IssueCommit_ExpiresAt commit)) None (g_Version grant)
    (Some (IssueCommit_SessionID commit)) (Some (IssueCommit_SessionBindingID commit)).

Definition issue_effect (commit : IssueCommit) (tx : AuthTransactionRow) (code : AuthorizationCodeRow) (db : DB) : DB :=
  with_auth_transactions
    (<[tx_ID tx := finish_transaction (timestamp (IssueCommit_CreatedAt commit)) (tx_FailureReason tx) tx]> (auth_transactions db))
    (with_authorization_codes (<[code_ID code := code]> (authorization_codes db)) db).

Lemma validateLocked_spec row expected now :
  validateLockedAuthorizationTransaction row expected now = None →
  tx_ConsumedAt row = None ∧ now < tx_ExpiresAt row ∧ tx_ID row = Transaction_ID expected ∧
  tx_TransactionKind row = KindAuthorization ∧ tx_TokenHash row = Transaction_TokenHash expected ∧
  tx_ClientID row = Transaction_ClientID expected ∧
  valueString (tx_RedirectUri row) = Transaction_RedirectURI expected ∧
  tx_Scopes row = Transaction_Scopes expected ∧
  valueString (tx_PkceChallenge row) = Transaction_PKCEChallenge expected ∧
  valueString (tx_NonceValue row) = Transaction_Nonce expected.
Proof.
  unfold validateLockedAuthorizationTransaction. destruct (_ && _) eqn:E1; [done|].
  destruct (bool_decide (is_Some _)) eqn:E2; [by destruct (bool_decide (valueString _ = _))|].
  destruct (_ || _) eqn:E3; [done|]. intros _. apply bool_decide_eq_false, not_is_Some_None in E2.
  rewrite E2 in E1. rewrite !orb_false_iff in E3. time_unfold. simpl in *. go_bools.
  by split_and!.
Qed.

Lemma check_inl e w w' x : check e w = (w', inl x) → e = None ∧ w' = w.
Proof. unfold check. destruct e; intros H; tx_step H; done. Qed.

Lemma grantChangedAudit_step commit grant changed w w' x :
  grantChangedAudit commit grant changed w = (w', inl x) →
  ∃ audits, w_db w' = with_audit_events audits (w_db w) ∧ w_rand w' = w_rand w.
Proof.
  unfold grantChangedAudit. destruct (changed == ""); intros H.
  - tx_step H. exists (audit_events (w_db w)). split; [|done]. by destruct (w_db w).
  - destruct (changed == "expanded"); [|destruct (changed == "reactivated")]; by eapply insertProtocolAudit_step.
Qed.

Lemma consent_applied_frame commit client requested db g db' :
  consent_applied commit client requested db g db' →
  db' = with_consent_grants (consent_grants db') db ∧ auth_transactions db' = auth_transactions db ∧
  authorization_codes db' = authorization_codes db.
Proof. by destruct 1; simpl; split_and!; try done; destruct db. Qed.

(** The writes after the consent decision. *)
Lemma issue_writes commit tx client requested g grant changed w w' r :
  auth_transactions (w_db w) !! tx_ID tx = Some tx →
  Grant_ID grant = g_ID g → Grant_Version grant = g_Version g →
  (query "create authorization code" (CreateAuthorizationCode (mkCreateAuthorizationCodeParams
     (IssueCommit_CodeID commit) (IssueCommit_CodeHash commit) (tx_ID tx) (Grant_ID grant)
     (IssueCommit_UserID commit) (cl_ID client) (transactionRowRedirect tx) requested
     (transactionRowPKCE tx) "S256" (tx_NonceValue tx)
     (timestamp (IssueCommit_AuthenticatedAt commit)) (timestamp (IssueCommit_CreatedAt commit))
     (timestamp (IssueCommit_ExpiresAt commit)) (Grant_Version grant)
     (Some (IssueCommit_SessionID commit)) (Some (IssueCommit_SessionBindingID commit))));;
   query_row "consume transaction while issuing authorization code" authz_ErrConsumed
     (ConsumeAuthTransaction (timestamp (IssueCommit_CreatedAt commit)) (tx_ID tx));;
   grantChangedAudit commit grant changed) w = (w', inl r) →
  authorization_codes (w_db w) !! IssueCommit_CodeID commit = None ∧
  authorization_codes_check (issued_code commit tx client requested g) = true ∧
  ∃ audits, w_db w' = with_audit_events audits (issue_effect commit tx (issued_code commit tx client requested g) (w_db w)).
Proof.
  intros Htx Hid Hver H. do 2 tx_step H. apply CreateAuthorizationCode_inl in Hstmt as (Hnew & Hchk & ->).
  apply update_live_transaction_inl in Hstmt0 as (r0 & Hr0 & _ & _ & ->). simpl in Hr0. rewrite Htx in Hr0. injection Hr0 as <-.
  apply grantChangedAudit_step in H as (audits & Hau & _). rewrite Hid, Hver in *. split_and!; [done|done|].
  exists audits. by rewrite Hau, Hdb0.
Qed.

Lemma issue_inv commit w w' grant :
  db_ok (w_db w) → issueAuthorizationCode_tx commit w = (w', inl grant) →
  ∃ tx user client requested g db1 audits,
    issuable (w_db w) commit tx user client requested ∧
    consent_applied commit (client_of (w_db w) client) requested (w_db w) g db1 ∧
    authorization_codes (w_db w) !! IssueCommit_CodeID commit = None ∧
    authorization_codes_check (issued_code commit tx client requested g) = true ∧
    w_db w' = with_audit_events audits (issue_effect commit tx (issued_code commit tx client requested g) db1) ∧
    Grant_ID grant = g_ID g ∧ Grant_Version grant = g_Version g.
Proof.
  intros Hok H. unfold issueAuthorizationCode_tx in H. tx_step H. rename a into tx. tx_step H.
  apply check_inl in Hrun as [Hv ->]. apply validateLocked_spec in Hv as (Hn & Hlive & Hid & Hbound).
  do 2 tx_step H. rename a0 into user.
  apply Tx_bind_inl in H as (w4 & cv & Hc & H). unfold lockAndValidateAuthorizationClient in Hc.
  destruct (tx_ClientID tx) as [cid|] eqn:Ecid; [|tx_step Hc]. repeat store_step Hc. rename a0 into client.
  destruct (CanonicalScopes _) as [requested|] eqn:Ereq; [|tx_step H].
  apply Tx_bind_inl in H as (w8 & [grant' changed] & Hap & H).
  apply lockAndApplyConsent_inl in Hap as (g & Hap & Hgid & Hgv & _);
    [|by rewrite Hdb5|by eapply CanonicalScopes_canonical].
  rewrite Hdb5 in Hap. pose proof (consent_applied_frame _ _ _ _ _ _ Hap) as (_ & Htxs & Hcodes).
  assert (Htx : auth_transactions (w_db w) !! tx_ID tx = Some tx) by (by rewrite Hid).
  apply Tx_bind_inl in H as (w9 & [] & Hc1 & H). apply Tx_bind_inl in H as (w10 & tx' & Hc2 & H).
  apply Tx_bind_inl in H as (w11 & [] & Hc3 & H). do 4 store_step H.
  destruct (issue_writes commit tx client requested g grant' changed w8 w11 ()) as (Hnew & Hchk & audits' & Hau); [by rewrite Htxs|done|done| |].
  { unfold mbind, Tx_bind. change (cl_ID client) with (Client_ID (client_of (w_db w) client)). by rewrite Hc1, Hc2. }
  exists tx, user, client, requested, g, (w_db w8). eexists. rewrite Hcodes in Hnew.
  split_and!; try done; [|by rewrite Hdb8, Hau].
  time_unfold. simpl in Hguard0. rewrite !orb_false_iff, !negb_false_iff, scopeSubset_spec in Hguard0. simpl in Hguard0.
  go_bools. split; try done; [rewrite Ecid in *; naive_solver|rewrite Ecid; by eexists|].
  intros x Hx. rewrite (CanonicalScopes_elem _ _ _ Ereq) in Hx. by eauto.
Qed.
End proofs.
