(* ===== verification/TokenService.v ===== *)
(** * The token service

    [internal/token/token.go] and [lifecycle.go]: minting the tokens of an exchange or
    a refresh, verifying a presented access token, UserInfo, revocation and
    introspection.  The service talks to storage through the interface [Repository],
    whose promises are [RepositoryLaws]; the signature library and the JSON codec it
    calls are the parameter [TokenCodec].  Metric counters are not modelled. *)

From S2P Require Import Prelude Base64 Errors Platform Scopes Domain Opaque Url AuditEvents Database Queries Tx.
From S2P Require Import StoreCommon TokenStore.
Import Authorization Refresh AccessID.

(** ** Claims *)

Record IDTokenClaims := mkIDTokenClaims {
  ID_Issuer : string; ID_Subject : string; ID_Audience : string; ID_AuthorizedParty : string;
  ID_ExpiresAt : Z; ID_IssuedAt : Z; ID_AuthTime : Z; ID_Nonce : string; ID_Name : option string;
  ID_PreferredUsername : option string; ID_Email : option string; ID_EmailVerified : option bool }.

Record AccessTokenClaims := mkAccessTokenClaims {
  Claim_Issuer : string; Claim_Subject : string; Claim_Audience : string; Claim_ClientID : string;
  Claim_Scope : string; Claim_IssuedAt : Z; Claim_ExpiresAt : Z; Claim_JWTID : string }.

Record UserInfo := mkUserInfo {
  UserInfo_Subject : string; UserInfo_Name : option string; UserInfo_PreferredUsername : option string;
  UserInfo_Email : option string; UserInfo_EmailVerified : option bool }.

(** ** What the service calls *)

(** [jose.Header]: [ExtraHeaders] keeps a header's name and its value when that is a string. *)
Record JoseHeader := mkJoseHeader {
  Header_Algorithm : string; Header_KeyID : string; Header_JSONWebKey : bool; Header_Nonce : string;
  Header_ExtraHeaders : list (string * option string) }.

(** [jose.JSONWebKey]: [RSABits] is the modulus length of a usable RSA public key. *)
Record JSONWebKey := mkJSONWebKey {
  JWK_KeyID : string; JWK_Algorithm : string; JWK_Use : string; JWK_IsPublic : bool; JWK_RSABits : option Z;
  JWK_Material : string }.

Class TokenCodec := {
  Marshal_IDTokenClaims : IDTokenClaims → option bytes;
  Marshal_AccessTokenClaims : AccessTokenClaims → option bytes;
  (** One JSON value with no unknown field, then the end of the input. *)
  Decode_AccessTokenClaims : bytes → option AccessTokenClaims;
  (** [KeyStore.Sign] and [KeyStore.PublicKeys]. *)
  Sign : bytes → string → option string;
  PublicKeys : list JSONWebKey;
  (** [jose.ParseSignedCompact] for RS256: the headers of the signatures. *)
  ParseSignedCompact : string → option (list JoseHeader);
  (** [object.Verify]: the payload when the key's signature holds. *)
  Verify : string → JSONWebKey → option bytes }.

(** [token.Repository]. *)
Class Repository := {
  Repository_ExchangeAuthorizationCode : ExchangeInput → MintFunc → Tx Response;
  Repository_ExchangeRefreshToken : RefreshInput → RefreshMintFunc → Tx Response;
  Repository_RevokeToken : RevocationLookup → Tx unit;
  Repository_GetAccessTokenAuthority : bytes → time → Tx AccessAuthority;
  Repository_GetRefreshTokenAuthority : bytes → Tx RefreshTokenAuthority }.

#[export] Instance postgres_Repository {P : Platform} : Repository := {|
  Repository_ExchangeAuthorizationCode := ExchangeAuthorizationCode;
  Repository_ExchangeRefreshToken := ExchangeRefreshToken;
  Repository_RevokeToken := RevokeToken;
  Repository_GetAccessTokenAuthority := GetAccessTokenAuthority;
  Repository_GetRefreshTokenAuthority := GetRefreshTokenAuthority |}.

(** ** Standard library *)

(** Two's complement of 64 bits. *)
Definition wrap64 (n : Z) : Z := (n + 2 ^ 63) mod 2 ^ 64 - 2 ^ 63.

(** [time.Unix(sec, 0)]: seconds are kept as an int64 since year 1. *)
Definition time_Unix (sec : Z) : time := (wrap64 (sec + 62135596800) - 62135596800) * Time.Second.

(** The UTF-8 forms of the runes [unicode.IsSpace] accepts. *)
Definition rune2 (a b : ascii) : string := String a (String b "").
Definition rune3 (a b c : ascii) : string := String a (String b (String c "")).
Definition space_runes : list string :=
  ((λ c, String c "") <$> ["009"; "010"; "011"; "012"; "013"; " "]%char) ++
  [rune2 "194" "133"; rune2 "194" "160"; rune3 "225" "154" "128"] ++
  (rune3 "226" "128" <$> ["128"; "129"; "130"; "131"; "132"; "133"; "134"; "135"; "136"; "137"; "138";
                          "168"; "169"; "175"]%char) ++
  [rune3 "226" "129" "159"; rune3 "227" "128" "128"].

Definition HasSuffix (s p : string) : bool :=
  (String.length p <=? String.length s)%nat && (str_drop (String.length s - String.length p) s == p).

(** [strings.TrimSpace(s) == s]. *)
Definition trimmed (s : string) : bool := forallb (λ r, negb (HasPrefix s r) && negb (HasSuffix s r)) space_runes.

(** [strings.Count(s, ".")]. *)
Fixpoint count_dots (s : string) : Z :=
  match s with EmptyString => 0 | String c s' => (if Ascii.eqb c "." then 1 else 0) + count_dots s' end.

(** [strings.ContainsAny(s, "\t\r\n")]. *)
Fixpoint contains_control_space (s : string) : bool :=
  match s with
  | EmptyString => false
  | String c s' => (c == "009"%char) || (c == "010"%char) || (c == "013"%char) || contains_control_space s'
  end.

(** ** The service *)

Record Service := mkService {
  Service_issuer : string; Service_userinfoAudience : string; Service_idTokenTTL : duration;
  Service_accessTokenTTL : duration; Service_clockSkew : duration; Service_refreshTokenTTL : duration;
  Service_refreshAbsoluteTTL : duration }.

(** [WithRefreshLifetimes]. *)
Definition WithRefreshLifetimes (rollingTTL absoluteTTL : duration) (service : Service) : option Service :=
  match RefreshDeadlines (time_Unix 1) rollingTTL absoluteTTL with
  | None => None
  | Some _ => Some (mkService (Service_issuer service) (Service_userinfoAudience service) (Service_idTokenTTL service)
                      (Service_accessTokenTTL service) (Service_clockSkew service) rollingTTL absoluteTTL)
  end.

(** The issuer parses as an absolute URL with a host and no path, query, fragment or user. *)
Definition issuer_origin (issuer : string) : bool :=
  match Url.Parse issuer with
  | None => false
  | Some parsed => IsAbs parsed && (URL_Host parsed != "") && (URL_Path parsed == "") && (URL_RawQuery parsed == "") &&
                   (URL_Fragment parsed == "") && (URL_User parsed == None)
  end.

(** [NewService] with a repository and a key store. *)
Definition NewService (issuer : string) (idTokenTTL accessTokenTTL clockSkew : duration)
    (options : list (Service → option Service)) : option Service :=
  if negb (issuer_origin issuer) || (idTokenTTL <? Time.Minute) || (15 * Time.Minute <? idTokenTTL) ||
     (accessTokenTTL <? Time.Minute) || (30 * Time.Minute <? accessTokenTTL) || (clockSkew <? 0) ||
     (2 * Time.Minute <? clockSkew) then None
  else
    foldl (λ service option, service ≫= option)
      (Some (mkService issuer (issuer +:+ "/oauth2/userinfo") idTokenTTL accessTokenTTL clockSkew
               defaultRefreshTTL defaultAbsoluteTTL)) options.

Definition maxCompactTokenBytes : Z := Z.shiftl 16 10.
Definition maxPresentedLifecycleTokenBytes : Z := Z.shiftl 16 10.

Definition parseScopeClaim (raw : string) : option (list string) :=
  if (raw == "") || negb (trimmed raw) || contains_control_space raw then None
  else
    match CanonicalScopes (split_space raw) with
    | None => None
    | Some canonical => if join_space canonical != raw then None else Some canonical
    end.

Definition applyProfileClaims (scopes : list string) (user : User) (c : IDTokenClaims) : IDTokenClaims :=
  let c1 := if bool_decide ("profile" ∈ scopes)
            then mkIDTokenClaims (ID_Issuer c) (ID_Subject c) (ID_Audience c) (ID_AuthorizedParty c) (ID_ExpiresAt c)
                   (ID_IssuedAt c) (ID_AuthTime c) (ID_Nonce c) (Some (User_DisplayName user)) (Some (User_Username user))
                   (ID_Email c) (ID_EmailVerified c)
            else c in
  if bool_decide ("email" ∈ scopes)
  then mkIDTokenClaims (ID_Issuer c1) (ID_Subject c1) (ID_Audience c1) (ID_AuthorizedParty c1) (ID_ExpiresAt c1)
         (ID_IssuedAt c1) (ID_AuthTime c1) (ID_Nonce c1) (ID_Name c1) (ID_PreferredUsername c1)
         (Some (User_Email user)) (Some (User_EmailVerified user))
  else c1.

Definition applyUserInfoClaims (scopes : list string) (user : User) (c : UserInfo) : UserInfo :=
  let c1 := if bool_decide ("profile" ∈ scopes)
            then mkUserInfo (UserInfo_Subject c) (Some (User_DisplayName user)) (Some (User_Username user))
                   (UserInfo_Email c) (UserInfo_EmailVerified c)
            else c in
  if bool_decide ("email" ∈ scopes)
  then mkUserInfo (UserInfo_Subject c1) (UserInfo_Name c1) (UserInfo_PreferredUsername c1)
         (Some (User_Email user)) (Some (User_EmailVerified user))
  else c1.

(** [candidate] is a usable verification key for the header's key id. *)
Definition verification_key (keyID : string) (candidate : JSONWebKey) : bool :=
  (JWK_KeyID candidate == keyID) && (JWK_Algorithm candidate == "RS256") && (JWK_Use candidate == "sig") &&
  JWK_IsPublic candidate && match JWK_RSABits candidate with Some bits => 2048 <=? bits | None => false end.

Section service.
Context {P : Platform} {C : TokenCodec} (s : Service).

Definition accessClaims (user : User) (client : Client) (scopes : list string) (issuedAt expires : time) (jti : string)
    : AccessTokenClaims :=
  mkAccessTokenClaims (Service_issuer s) (User_Subject user) (Service_userinfoAudience s) (Client_ClientID client)
    (join_space scopes) (Time.Unix issuedAt) (Time.Unix expires) jti.

(** [payload, err := json.Marshal(claims)], then [s.keys.Sign(payload, typ)]. *)
Definition sign_with (payload : option bytes) (typ : string) (marshalFailed signFailed : string) : Rnd string :=
  match payload with
  | None => rnd_throw (errors_New marshalFailed)
  | Some payload =>
      match Sign payload typ with Some compact => mret compact | None => rnd_throw (errors_New signFailed) end
  end.

(** The offline part of [mint]. *)
Definition mintInitialRefresh (authority : Authority) (issuedAt : time) : Rnd InitialRefresh :=
  let absent id := match id with None => true | Some id => id == uuid_Nil end in
  rnd_reject (absent (Authority_OriginSessionID authority) || absent (Authority_SessionBindingID authority))
    token_ErrInvalidGrant;;
  refresh ← GenerateRefreshToken;
  familyID ← NewRandomFromReader (errors_New "refresh token family identifier generation failed");
  refreshID ← NewRandomFromReader (errors_New "refresh token identifier generation failed");
  match RefreshDeadlines issuedAt (Service_refreshTokenTTL s) (Service_refreshAbsoluteTTL s) with
  | None => rnd_throw token_ErrInvalid
  | Some (rolling, absolute) => mret (mkInitialRefresh familyID refreshID refresh.2 refresh.1 rolling absolute)
  end.

Definition mint (authority : Authority) : Rnd Minted :=
  let issuedAt := Authority_IssuedAt authority in
  let authenticatedAt := Authority_AuthenticatedAt authority in
  match CanonicalScopes (Authority_Scopes authority) with
  | None => rnd_throw token_ErrInvalidGrant
  | Some scopes =>
      rnd_reject ((Authority_CodeID authority == uuid_Nil) || (Authority_GrantID authority == uuid_Nil) ||
                  (User_ID (Authority_User authority) == uuid_Nil) ||
                  (User_Status (Authority_User authority) != identity_StatusActive) ||
                  negb (activeClient (Authority_Client authority)) || Time.IsZero authenticatedAt ||
                  Time.After authenticatedAt issuedAt || negb (scopeSubset scopes (Client_Scopes (Authority_Client authority))))
        token_ErrInvalidGrant;;
      jti ← newJTI;
      accessTokenID ← NewRandomFromReader (errors_New "access token identifier generation failed");
      let idExpires := Time.Add issuedAt (Service_idTokenTTL s) in
      let accessExpires := Time.Add issuedAt (Service_accessTokenTTL s) in
      let user := Authority_User authority in
      let audience := Client_ClientID (Authority_Client authority) in
      let idClaims := applyProfileClaims scopes user
        (mkIDTokenClaims (Service_issuer s) (User_Subject user) audience audience (Time.Unix idExpires)
           (Time.Unix issuedAt) (Time.Unix authenticatedAt) (Authority_Nonce authority) None None None None) in
      idToken ← sign_with (Marshal_IDTokenClaims idClaims) "JWT" "ID token claim serialization failed" "ID token signing failed";
      accessToken ← sign_with (Marshal_AccessTokenClaims (accessClaims user (Authority_Client authority) scopes issuedAt accessExpires jti))
        "at+jwt" "access token claim serialization failed" "access token signing failed";
      initial ← if bool_decide ("offline_access" ∈ scopes)
                then i ← mintInitialRefresh authority issuedAt; mret (Some i) else mret None;
      mret (mkMinted accessTokenID (HashJTI jti) accessToken idToken issuedAt accessExpires idExpires initial)
  end.

Definition mintRefresh (authority : RefreshAuthority) : Rnd RefreshMinted :=
  let issuedAt := RA_IssuedAt authority in
  let family := RA_Family authority in
  match CanonicalScopes (RA_AccessScopes authority) with
  | None => rnd_throw token_ErrInvalidGrant
  | Some scopes =>
      rnd_reject ((RefreshGeneration_ID (RA_Presented authority) == uuid_Nil) || (RefreshFamily_ID family == uuid_Nil) ||
                  (RefreshGeneration_FamilyID (RA_Presented authority) != RefreshFamily_ID family) ||
                  (User_ID (RA_User authority) != RefreshFamily_UserID family) ||
                  (Client_ID (RA_Client authority) != RefreshFamily_ClientID family) ||
                  (Grant_ID (RA_Grant authority) != RefreshFamily_ConsentGrantID family) ||
                  (User_Status (RA_User authority) != identity_StatusActive) || negb (activeClient (RA_Client authority)) ||
                  Time.IsZero issuedAt || bool_decide (is_Some (RefreshFamily_RevokedAt family)) ||
                  negb (Time.Before issuedAt (RefreshFamily_AbsoluteExpiresAt family)) ||
                  negb (scopeSubset scopes (RefreshFamily_Scopes family)) ||
                  negb (scopeSubset scopes (Client_Scopes (RA_Client authority)))) token_ErrInvalidGrant;;
      replacement ← GenerateRefreshToken;
      replacementID ← NewRandomFromReader (errors_New "replacement refresh token identifier generation failed");
      match ReplacementRefreshExpiry issuedAt (Service_refreshTokenTTL s) (RefreshFamily_AbsoluteExpiresAt family) with
      | None => rnd_throw token_ErrInvalidGrant
      | Some replacementExpires =>
          jti ← newJTI;
          accessID ← NewRandomFromReader (errors_New "access token identifier generation failed");
          let accessExpires := Time.Add issuedAt (Service_accessTokenTTL s) in
          accessToken ← sign_with (Marshal_AccessTokenClaims (accessClaims (RA_User authority) (RA_Client authority) scopes
                                     issuedAt accessExpires jti))
            "at+jwt" "access token claim serialization failed" "access token signing failed";
          mret (mkRefreshMinted accessID (HashJTI jti) accessToken issuedAt accessExpires replacementID
                  replacement.2 replacement.1 replacementExpires)
      end
  end.

(** ** Verification *)

(** The keys that match a header: exactly one must. *)
Definition matching_keys (keyID : string) : list JSONWebKey := List.filter (verification_key keyID) PublicKeys.

Definition header_ok (header : JoseHeader) : bool :=
  (Header_Algorithm header == "RS256") && (Header_KeyID header != "") && negb (Header_JSONWebKey header) &&
  (Header_Nonce header == "") && (Header_ExtraHeaders header == [("typ", Some "at+jwt")]).

Definition claims_ok (claims : AccessTokenClaims) (now : time) : bool :=
  (Claim_Issuer claims == Service_issuer s) && (Claim_Audience claims == Service_userinfoAudience s) &&
  (Claim_Subject claims != "") && (Claim_ClientID claims != "") && (0 <? Claim_IssuedAt claims) &&
  (Claim_IssuedAt claims <? Claim_ExpiresAt claims) &&
  negb (Time.Before (time_Unix (Claim_ExpiresAt claims)) (Time.Add now (- Service_clockSkew s))) &&
  negb (Time.After (time_Unix (Claim_IssuedAt claims)) (Time.Add now (Service_clockSkew s))) &&
  negb (30 * Time.Minute <? wrap64 (wrap64 (Claim_ExpiresAt claims - Claim_IssuedAt claims) * Time.Second)) &&
  validJTI (Claim_JWTID claims).

Definition verifyAccessToken (compact : string) (now : time) : option AccessTokenClaims :=
  if (compact == "") || (maxCompactTokenBytes <? len compact) || negb (trimmed compact) || (count_dots compact != 2) then None
  else
    match ParseSignedCompact compact with
    | Some [header] =>
        if negb (header_ok header) then None
        else
          match matching_keys (Header_KeyID header) with
          | [key] =>
              match Verify compact key with
              | None => None
              | Some payload =>
                  match Decode_AccessTokenClaims payload with
                  | None => None
                  | Some claims =>
                      if negb (claims_ok claims now) then None
                      else
                        match parseScopeClaim (Claim_Scope claims) with
                        | None => None
                        | Some scopes => if bool_decide ("openid" ∈ scopes) then Some claims else None
                        end
                  end
              end
          | _ => None
          end
    | _ => None
    end.

(** The source discriminator of the metadata. *)
Definition source_ok (metadata : AccessMetadata) : bool :=
  if AccessMetadata_IssuanceSource metadata == IssuanceAuthorizationCode then AccessMetadata_SourceRefreshTokenID metadata == None
  else if AccessMetadata_IssuanceSource metadata == IssuanceRefreshToken then
    negb (bool_decide (is_Some (AccessMetadata_AuthorizationCodeID metadata)) ||
          (AccessMetadata_SourceRefreshTokenID metadata == None) || (AccessMetadata_RefreshFamilyID metadata == None) ||
          (AccessMetadata_SessionBindingID metadata == None))
  else false.

(** The family of the metadata, if it has one, is the one of the authority and alive. *)
Definition family_ok (metadata : AccessMetadata) (family : option RefreshFamily) (scopes : list string) (now : time) : bool :=
  match AccessMetadata_RefreshFamilyID metadata, family with
  | None, None => true
  | None, Some _ | Some _, None => false
  | Some fid, Some family =>
      if (RefreshFamily_ID family != fid) || bool_decide (is_Some (RefreshFamily_RevokedAt family)) ||
         negb (Time.Before now (RefreshFamily_AbsoluteExpiresAt family)) ||
         (RefreshFamily_UserID family != AccessMetadata_UserID metadata) ||
         (RefreshFamily_ClientID family != AccessMetadata_ClientID metadata) ||
         (RefreshFamily_ConsentGrantID family != AccessMetadata_ConsentGrantID metadata) ||
         (Some (RefreshFamily_SessionBindingID family) != AccessMetadata_SessionBindingID metadata) then false
      else
        match CanonicalRefreshScopes (RefreshFamily_Scopes family) with
        | None => false
        | Some familyScopes => scopeSubset scopes familyScopes
        end
  end.

Definition accessAuthorityMatches (authority : AccessAuthority) (claims : AccessTokenClaims) (now : time) : bool :=
  let metadata := AccessAuthority_Metadata authority in
  let user := AccessAuthority_User authority in
  let client := AccessAuthority_Client authority in
  let grant := AccessAuthority_Grant authority in
  match CanonicalScopes (AccessMetadata_Scopes metadata) with
  | None => false
  | Some scopes =>
      if (AccessMetadata_ID metadata == uuid_Nil) || (AccessMetadata_ConsentGrantID metadata == uuid_Nil) ||
         bool_decide (is_Some (AccessMetadata_RevokedAt metadata)) || (AccessMetadata_UserID metadata == uuid_Nil) ||
         (AccessMetadata_ClientID metadata == uuid_Nil) || (len (AccessMetadata_JTIHash metadata) != 32) ||
         negb (Time.Before now (AccessMetadata_ExpiresAt metadata)) || Time.IsZero (AccessMetadata_IssuedAt metadata) ||
         negb (Time.After (AccessMetadata_ExpiresAt metadata) (AccessMetadata_IssuedAt metadata)) ||
         (User_ID user != AccessMetadata_UserID metadata) || (User_Status user != identity_StatusActive) ||
         (Client_ID client != AccessMetadata_ClientID metadata) || negb (activeClient client) ||
         (Grant_ID grant != AccessMetadata_ConsentGrantID metadata) || (Grant_UserID grant != AccessMetadata_UserID metadata) ||
         (Grant_ClientID grant != AccessMetadata_ClientID metadata) || (Grant_Version grant <? 1) ||
         bool_decide (is_Some (Grant_RevokedAt grant)) then false
      else if negb (source_ok metadata) then false
      else if negb (family_ok metadata (AccessAuthority_Family authority) scopes now) then false
      else
        match parseScopeClaim (Claim_Scope claims) with
        | None => false
        | Some claimScopes =>
            if (scopes != claimScopes) || negb (scopeSubset scopes (Client_Scopes client)) ||
               (Difference scopes (Intersection (Grant_Scopes grant) (Client_Scopes client)) != []) then false
            else
              (Claim_Issuer claims == Service_issuer s) && (Claim_Audience claims == Service_userinfoAudience s) &&
              (Claim_Subject claims == User_Subject user) && (Claim_ClientID claims == Client_ClientID client) &&
              (Claim_IssuedAt claims == Time.Unix (AccessMetadata_IssuedAt metadata)) &&
              (Claim_ExpiresAt claims == Time.Unix (AccessMetadata_ExpiresAt metadata)) &&
              (HashJTI (Claim_JWTID claims) == AccessMetadata_JTIHash metadata)
        end
  end.

(** ** The use cases *)

Context {R : Repository}.

Definition Exchange (input : ExchangeInput) : Tx Response :=
  reject_if ((len (ExchangeInput_CodeHash input) != 32) || (ExchangeInput_RedirectURI input == "") ||
             Time.IsZero (ExchangeInput_Now input) || negb (activeClient (ExchangeInput_Client input)) ||
             negb (ValidateVerifier (ExchangeInput_CodeVerifier input))) token_ErrInvalidGrant;;
  Repository_ExchangeAuthorizationCode input mint.

Definition Refresh (input : RefreshInput) : Tx Response :=
  reject_if ((len (RefreshInput_TokenHash input) != 32) || Time.IsZero (RefreshInput_Now input) ||
             negb (activeClient (RefreshInput_Client input))) token_ErrInvalidGrant;;
  match RefreshInput_RequestedScopes input with
  | Some requested => reject_if (CanonicalScopes requested != Some requested) token_ErrInvalidScope
  | None => mret ()
  end;;
  Repository_ExchangeRefreshToken input mintRefresh.

Definition UserInfoForAccessToken (compact : string) (now : time) : Tx UserInfo :=
  match verifyAccessToken compact now with
  | None => throw token_ErrInvalidToken
  | Some claims =>
      authority ← Repository_GetAccessTokenAuthority (HashJTI (Claim_JWTID claims)) now;
      reject_if (negb (accessAuthorityMatches authority claims now)) token_ErrInvalidToken;;
      mret (applyUserInfoClaims (AccessMetadata_Scopes (AccessAuthority_Metadata authority)) (AccessAuthority_User authority)
              (mkUserInfo (User_Subject (AccessAuthority_User authority)) None None None None))
  end.

(** [RevocationInput] and [IntrospectionInput]. *)
Record RevocationInput := mkRevocationInput {
  RevocationInput_Client : Client; RevocationInput_Token : string; RevocationInput_Hint : string;
  RevocationInput_RequestID : string; RevocationInput_Now : time }.
Record IntrospectionInput := mkIntrospectionInput {
  IntrospectionInput_Client : Client; IntrospectionInput_Token : string; IntrospectionInput_Hint : string;
  IntrospectionInput_Now : time }.
Record IntrospectionResponse := mkIntrospectionResponse {
  IR_Active : bool; IR_TokenType : string; IR_ClientID : string; IR_Scope : string; IR_Subject : string;
  IR_Issuer : string; IR_Audience : string; IR_IssuedAt : Z; IR_ExpiresAt : Z }.

(** A token string the lifecycle endpoints look at. *)
Definition presentable_token (token : string) : bool :=
  negb ((token == "") || (maxPresentedLifecycleTokenBytes <? len token) || negb (trimmed token)).

Definition Revoke (input : RevocationInput) : Tx unit :=
  if negb (activeClient (RevocationInput_Client input)) || Time.IsZero (RevocationInput_Now input) ||
     negb (presentable_token (RevocationInput_Token input)) then mret ()
  else
    let access := match verifyAccessToken (RevocationInput_Token input) (RevocationInput_Now input) with
                  | Some claims => HashJTI (Claim_JWTID claims) | None => "" end in
    let refresh := default "" (DigestPresentedRefreshToken (RevocationInput_Token input)) in
    if (len access == 0) && (len refresh == 0) then mret ()
    else Repository_RevokeToken (mkRevocationLookup (RevocationInput_Client input) access refresh
           (RevocationInput_RequestID input) (RevocationInput_Now input)).

Definition inactive : IntrospectionResponse := mkIntrospectionResponse false "" "" "" "" "" "" 0 0.

(** [errors.Is(err, e)] on the way to "found, inactive". *)
Definition found_or_inactive {A} (e : error) (m : Tx A) (k : A → IntrospectionResponse) : Tx IntrospectionResponse := λ w,
  match m w with
  | (w', inl a) => (w', inl (k a))
  | (w', inr e') => if e' == e then (w', inl inactive) else (w', inr e')
  end.

Definition accessIntrospection (input : IntrospectionInput) (claims : AccessTokenClaims) (authority : AccessAuthority)
    : IntrospectionResponse :=
  let client := AccessAuthority_Client authority in
  let metadata := AccessAuthority_Metadata authority in
  if (Client_ID client != Client_ID (IntrospectionInput_Client input)) ||
     (Client_ClientID client != Client_ClientID (IntrospectionInput_Client input)) ||
     negb (accessAuthorityMatches authority claims (IntrospectionInput_Now input)) then inactive
  else
    let granted := Intersection (AccessMetadata_Scopes metadata)
                     (Intersection (Grant_Scopes (AccessAuthority_Grant authority)) (Client_Scopes client)) in
    let effective := match AccessAuthority_Family authority with
                     | Some family => Intersection granted (RefreshFamily_Scopes family) | None => granted end in
    if (effective == []) || negb (bool_decide ("openid" ∈ effective)) then inactive
    else mkIntrospectionResponse true "Bearer" (Client_ClientID client) (join_space effective)
           (User_Subject (AccessAuthority_User authority)) (Service_issuer s) (Service_userinfoAudience s)
           (Time.Unix (AccessMetadata_IssuedAt metadata)) (Time.Unix (AccessMetadata_ExpiresAt metadata)).

(** [None] is "not found": the value is not an access token. *)
Definition introspectAccess (input : IntrospectionInput) : option (Tx IntrospectionResponse) :=
  match verifyAccessToken (IntrospectionInput_Token input) (IntrospectionInput_Now input) with
  | None => None
  | Some claims =>
      Some (found_or_inactive token_ErrInvalidToken
              (Repository_GetAccessTokenAuthority (HashJTI (Claim_JWTID claims)) (IntrospectionInput_Now input))
              (accessIntrospection input claims))
  end.

Definition refreshIntrospection (input : IntrospectionInput) (digest : bytes) (authority : RefreshTokenAuthority)
    : IntrospectionResponse :=
  let generation := RTA_Generation authority in
  let family := RTA_Family authority in
  let user := RTA_User authority in
  let client := RTA_Client authority in
  let grant := RTA_Grant authority in
  let now := IntrospectionInput_Now input in
  if (Client_ID client != Client_ID (IntrospectionInput_Client input)) ||
     (Client_ClientID client != Client_ClientID (IntrospectionInput_Client input)) ||
     (RefreshGeneration_ID generation == uuid_Nil) || (RefreshGeneration_FamilyID generation != RefreshFamily_ID family) ||
     (RefreshGeneration_TokenHash generation != digest) || bool_decide (is_Some (RefreshGeneration_ConsumedAt generation)) ||
     negb (Time.Before now (RefreshGeneration_ExpiresAt generation)) || bool_decide (is_Some (RefreshFamily_RevokedAt family)) ||
     negb (Time.Before now (RefreshFamily_AbsoluteExpiresAt family)) || (User_ID user != RefreshFamily_UserID family) ||
     (User_Status user != identity_StatusActive) || (Client_ID client != RefreshFamily_ClientID family) ||
     negb (activeClient client) || (Grant_ID grant != RefreshFamily_ConsentGrantID family) ||
     (Grant_UserID grant != RefreshFamily_UserID family) || (Grant_ClientID grant != RefreshFamily_ClientID family) ||
     bool_decide (is_Some (Grant_RevokedAt grant)) || (Grant_Version grant <? 1) then inactive
  else
    match SelectRefreshAccessScopes None (RefreshFamily_Scopes family) (Grant_Scopes grant) (Client_Scopes client) with
    | inr _ => inactive
    | inl effective =>
        mkIntrospectionResponse true "" (Client_ClientID client) (join_space effective) (User_Subject user)
          (Service_issuer s) "" (Time.Unix (RefreshGeneration_IssuedAt generation))
          (Time.Unix (RefreshGeneration_ExpiresAt generation))
    end.

Definition introspectRefresh (input : IntrospectionInput) : option (Tx IntrospectionResponse) :=
  match DigestPresentedRefreshToken (IntrospectionInput_Token input) with
  | None => None
  | Some digest =>
      Some (found_or_inactive token_ErrInvalidGrant (Repository_GetRefreshTokenAuthority digest)
              (refreshIntrospection input digest))
  end.

(** The first of the two that recognises the value decides. *)
Definition first_found (first second : option (Tx IntrospectionResponse)) : Tx IntrospectionResponse :=
  match first with
  | Some response => response
  | None => match second with Some response => response | None => mret inactive end
  end.

Definition Introspect (input : IntrospectionInput) : Tx IntrospectionResponse :=
  let client := IntrospectionInput_Client input in
  if (Client_Type client != TypeConfidential) || (Client_TokenEndpointAuthMethod client != AuthMethodClientSecretBasic) ||
     negb (activeClient client) || Time.IsZero (IntrospectionInput_Now input) ||
     negb (presentable_token (IntrospectionInput_Token input)) then mret inactive
  else if IntrospectionInput_Hint input == "refresh_token"
  then first_found (introspectRefresh input) (introspectAccess input)
  else first_found (introspectAccess input) (introspectRefresh input).
End service.

(** ** Dots *)

Lemma count_dots_none s : every (λ c, negb (Ascii.eqb c ".")) s = true → count_dots s = 0.
Proof. induction s as [|c s IH]; simpl; [done|]. rewrite andb_true_iff, negb_true_iff. intros [-> H]. by rewrite IH. Qed.

Lemma count_dots_app a b : count_dots (a +:+ b) = count_dots a + count_dots b.
Proof. induction a as [|c a IH]; simpl; [done|]. rewrite IH. lia. Qed.

Lemma count_dots_Encode b : count_dots (Base64.Encode b) = 0.
Proof. apply count_dots_none, Base64.Encode_every, (bool_decide_unpack _). by vm_compute. Qed.

(** ** What the service relies on *)

(** What a signed token looks like (RFC 7515 compact serialization of one signature
    with the active key, which [PublicKeys] publishes once), and that the JSON decoder
    reads back what the encoder wrote for ASCII claims. *)
Definition ascii_string (s : string) : Prop := every (λ c, (N_of_ascii c <? 128)%N) s = true.
Definition ascii_claims (c : AccessTokenClaims) : Prop :=
  ascii_string (Claim_Issuer c) ∧ ascii_string (Claim_Subject c) ∧ ascii_string (Claim_Audience c) ∧
  ascii_string (Claim_ClientID c) ∧ ascii_string (Claim_Scope c) ∧ ascii_string (Claim_JWTID c).

Class TokenCodecLaws (C : TokenCodec) : Prop := {
  sign_compact : ∀ payload typ t, Sign payload typ = Some t → trimmed t = true ∧ count_dots t = 2;
  sign_verifies : ∀ payload typ t, Sign payload typ = Some t →
    ∃ kid key, kid ≠ "" ∧ ParseSignedCompact t = Some [mkJoseHeader "RS256" kid false "" [("typ", Some typ)]] ∧
      matching_keys kid = [key] ∧ Verify t key = Some payload;
  decode_marshal : ∀ c payload, ascii_claims c → Marshal_AccessTokenClaims c = Some payload →
    Decode_AccessTokenClaims payload = Some c }.
