(* ===== verification/AuthorizationService.v ===== *)
(** * The authorization and consent services

    [internal/authorization/authorization.go] (issuing and denying) and
    [internal/consent/consent.go] (evaluating a request against the stored grant, and
    the owner's revocation), each against its repository interface. *)

From S2P Require Import Prelude Base64 Errors Platform Scopes Domain Opaque AuditEvents Database Queries Tx.
From S2P Require Import StoreCommon AuthorizationStore ConsentStore TokenStore TokenService.
Import Authorization.

(** ** Authorization *)

(** [authorization.Repository]. *)
Class AuthorizationRepository := {
  Repository_IssueAuthorizationCode : IssueCommit → Tx Grant;
  Repository_DenyAuthorization : DenyCommit → Tx unit }.

#[export] Instance postgres_AuthorizationRepository {P : Platform} : AuthorizationRepository := {|
  Repository_IssueAuthorizationCode := IssueAuthorizationCode;
  Repository_DenyAuthorization := DenyAuthorization |}.

Record Issued := mkIssued {
  Issued_Code : string; Issued_CodeID : uuid; Issued_Grant : Grant; Issued_ExpiresAt : time }.

Record AuthorizationService := mkAuthorizationService { AuthorizationService_codeTTL : duration }.

(** [authorization.NewService]. *)
Definition NewAuthorizationService (codeTTL : duration) : option AuthorizationService :=
  if (codeTTL <? 30 * Time.Second) || (5 * Time.Minute <? codeTTL) then None
  else Some (mkAuthorizationService codeTTL).

Definition validAuthorizationTransaction (value : Transaction) : bool :=
  (Transaction_ID value != uuid_Nil) && (Transaction_Kind value == KindAuthorization) &&
  match Transaction_ClientID value with Some id => id != uuid_Nil | None => false end &&
  (Transaction_ResponseType value == "code") && (Transaction_ResponseMode value == "query") &&
  (Transaction_RedirectURI value != "") && (Transaction_PKCEMethod value == "S256") &&
  (len (Transaction_PKCEChallenge value) == 43) && (1 <=? Z.of_nat (length (Transaction_Scopes value))) &&
  (Z.of_nat (length (Transaction_Scopes value)) <=? 4).

Section authorization.
Context {P : Platform} {R : AuthorizationRepository} (s : AuthorizationService).

(** The random values of one issue, in the order they are read. *)
Definition issueValues : Rnd (string * uuid * uuid) :=
  clearCode ← newCode;
  codeID ← NewRandomFromReader (errors_New "authorization code identifier generation failed");
  grantID ← NewRandomFromReader (errors_New "consent grant identifier generation failed");
  mret (clearCode, codeID, grantID).

Definition issue_rejected (transaction : Transaction) (userID sessionID sessionBindingID : uuid) (authenticatedAt now : time) : bool :=
  negb (validAuthorizationTransaction transaction) || (userID == uuid_Nil) || (sessionID == uuid_Nil) ||
  (sessionBindingID == uuid_Nil) || Time.IsZero authenticatedAt || Time.After authenticatedAt now ||
  negb (Time.Before now (Transaction_ExpiresAt transaction)) || bool_decide (is_Some (Transaction_ConsumedAt transaction)).

Definition Issue (transaction : Transaction) (userID sessionID sessionBindingID : uuid) (authenticatedAt : time)
    (interactiveConsent : bool) (requestID : string) (now : time) : Tx Issued :=
  reject_if (issue_rejected transaction userID sessionID sessionBindingID authenticatedAt now) authz_ErrInvalid;;
  values ← lift_rand issueValues;
  let '(clearCode, codeID, grantID) := values in
  let expiresAt := Time.Add now (AuthorizationService_codeTTL s) in
  grant ← Repository_IssueAuthorizationCode (mkIssueCommit transaction userID sessionID sessionBindingID authenticatedAt
    interactiveConsent codeID (HashCode clearCode) grantID now expiresAt requestID);
  mret (mkIssued clearCode codeID grant expiresAt).

Definition Deny (transaction : Transaction) (userID : uuid) (requestID : string) (now : time) : Tx unit :=
  reject_if (negb (validAuthorizationTransaction transaction) || (userID == uuid_Nil) ||
             negb (Time.Before now (Transaction_ExpiresAt transaction)) ||
             bool_decide (is_Some (Transaction_ConsumedAt transaction))) authz_ErrInvalid;;
  Repository_DenyAuthorization (mkDenyCommit transaction userID now requestID).
End authorization.

(** ** Consent *)

(** [consent.Repository]. *)
Class ConsentRepository := {
  Repository_GetConsentGrant : uuid → uuid → Tx Grant;
  Repository_ListCurrentUserGrants : uuid → GrantCursor → Z → time → Tx (list ManagedGrant);
  Repository_RevokeCurrentUserGrant : RevokeInput → Tx ManagedGrant }.

#[export] Instance postgres_ConsentRepository {P : Platform} : ConsentRepository := {|
  Repository_GetConsentGrant := GetConsentGrant;
  Repository_ListCurrentUserGrants := ListCurrentUserGrants;
  Repository_RevokeCurrentUserGrant := RevokeCurrentUserGrant |}.

Record Evaluation := mkEvaluation {
  Evaluation_Grant : option Grant; Evaluation_Effective : list string; Evaluation_AlreadyGranted : list string;
  Evaluation_NewScopes : list string; Evaluation_Covers : bool }.

(** [validActiveClient] of consent.go. *)
Definition validActiveClient (value : Client) : bool :=
  if (Client_ID value == uuid_Nil) || (Client_Status value != client_StatusActive) then false
  else authenticationProfile value.

Definition validPublicClientID (value : string) : bool :=
  if negb (HasPrefix value "ois_cli_") || negb (trimmed value) then false
  else
    match Base64.DecodeString (TrimPrefix value "ois_cli_") with
    | None => false
    | Some decoded => len decoded == 24
    end.

(** ** The owner's list of grants *)

Record GrantPage := mkGrantPage { GrantPage_Items : list ManagedGrant; GrantPage_NextCursor : string }.
Record grantCursorWire := mkGrantCursorWire { Wire_Version : Z; Wire_UpdatedAt : string; Wire_ClientID : string }.

(** The JSON text of the wire record, its strict decoder (one object, no unknown member,
    nothing behind it), and [time.RFC3339Nano] in UTC. *)
Class GrantCursorCodec := {
  Marshal_wire : grantCursorWire → bytes;
  Decode_wire : bytes → option grantCursorWire;
  Format_RFC3339Nano : time → string;
  Parse_RFC3339Nano : string → option time }.

Definition EncodeGrantCursor `{GrantCursorCodec} (cursor : GrantCursor) : string :=
  if Time.IsZero (GrantCursor_UpdatedAt cursor) || negb (validPublicClientID (GrantCursor_ClientID cursor)) then ""
  else Base64.Encode (Marshal_wire (mkGrantCursorWire 1 (Format_RFC3339Nano (GrantCursor_UpdatedAt cursor)) (GrantCursor_ClientID cursor))).

Definition DecodeGrantCursor `{GrantCursorCodec} (raw : string) : option GrantCursor :=
  if raw == "" then Some (mkGrantCursor Time.zero "")
  else if (1024 <? len raw) || negb (trimmed raw) then None
  else match Base64.DecodeString raw with
  | None => None
  | Some payload =>
      match Decode_wire payload with
      | None => None
      | Some wire =>
          if (Wire_Version wire != 1) || negb (validPublicClientID (Wire_ClientID wire)) then None
          else match Parse_RFC3339Nano (Wire_UpdatedAt wire) with
          | None => None
          | Some updated =>
              if Time.IsZero updated || (Wire_UpdatedAt wire != Format_RFC3339Nano updated) then None
              else Some (mkGrantCursor updated (Wire_ClientID wire))
          end
      end
  end.

Section consent.
Context {R : ConsentRepository}.

Definition ListMine `{GrantCursorCodec} (userID : uuid) (rawCursor : string) (limit : Z) (now : time) : Tx GrantPage :=
  reject_if ((userID == uuid_Nil) || (limit <? 1) || (100 <? limit) || Time.IsZero now) consent_ErrInvalid;;
  match DecodeGrantCursor rawCursor with
  | None => throw consent_ErrInvalid
  | Some cursor =>
      items ← Repository_ListCurrentUserGrants userID cursor (limit + 1) now;
      mret (if limit <? Z.of_nat (length items) then
              let page := take (Z.to_nat limit) items in
              match last page with
              | Some item => mkGrantPage page (EncodeGrantCursor (mkGrantCursor (ManagedGrant_UpdatedAt item) (ManagedGrant_ClientID item)))
              | None => mkGrantPage page ""
              end
            else mkGrantPage items "")
  end.

(** [if errors.Is(err, missing)]: absence is a value, any other error is returned. *)
Definition not_found_none {A} (missing : error) (m : Tx A) : Tx (option A) := λ w,
  match m w with
  | (w', inl a) => (w', inl (Some a))
  | (w', inr e) => if e == missing then (w', inl None) else (w', inr e)
  end.

(** The part of [Evaluate] after the grant was read. *)
Definition evaluateGrant (userID : uuid) (clientValue : Client) (requested : list string) (grant : Grant) : Tx Evaluation :=
  reject_if ((Grant_ID grant == uuid_Nil) || (Grant_UserID grant != userID) || (Grant_ClientID grant != Client_ID clientValue) ||
             (Grant_Version grant <? 1) || Time.IsZero (Grant_CreatedAt grant) ||
             Time.Before (Grant_UpdatedAt grant) (Grant_CreatedAt grant) ||
             match Grant_RevokedAt grant with Some t => Time.Before t (Grant_CreatedAt grant) | None => false end)
    consent_ErrInvalid;;
  match CanonicalScopes (Grant_Scopes grant) with
  | None => throw consent_ErrInvalid
  | Some scopes =>
      let effective := if bool_decide (is_Some (Grant_RevokedAt grant)) then []
                       else Intersection scopes (Client_Scopes clientValue) in
      let newScopes := Difference requested effective in
      mret (mkEvaluation (Some (set_scopes grant scopes)) effective (Intersection requested effective) newScopes
              (newScopes == []))
  end.

Definition Evaluate (userID : uuid) (clientValue : Client) (requested : list string) : Tx Evaluation :=
  match CanonicalScopes requested with
  | None => throw consent_ErrInvalid
  | Some requested =>
      reject_if ((userID == uuid_Nil) || negb (validActiveClient clientValue) ||
                 negb (scopeSubset requested (Client_Scopes clientValue))) consent_ErrInvalid;;
      found ← not_found_none consent_ErrNotFound (Repository_GetConsentGrant userID (Client_ID clientValue));
      match found with
      | None => mret (mkEvaluation None [] [] requested false)
      | Some grant => evaluateGrant userID clientValue requested grant
      end
  end.

Definition RevokeMine (userID : uuid) (publicClientID requestID : string) (now : time) : Tx ManagedGrant :=
  reject_if ((userID == uuid_Nil) || negb (validPublicClientID publicClientID) || Time.IsZero now) consent_ErrNotFound;;
  Repository_RevokeCurrentUserGrant (mkRevokeInput userID publicClientID requestID now).
End consent.
