(* ===== verification/SessionService.v ===== *)
(** * The session service

    [internal/session/service.go]: resolving a browser cookie against current server
    state, the CSRF value of a session, and what a signed-in user can do to sessions, all
    against the repository interface. *)

From S2P Require Import Prelude Base64 Errors Platform Pagination Domain Opaque SessionTokens AuditEvents Database Queries Tx.
From S2P Require Import StoreCommon TokenStore SessionStore TokenService AuthorizationService.

(** [session.Repository]. *)
Class SessionRepository := {
  Repository_FindLoginSession : bytes → Tx Principal;
  Repository_TouchLoginSession : uuid → time → time → Tx unit;
  Repository_RotateSessionCSRF : uuid → bytes → time → Tx unit;
  Repository_ListUserSessions : uuid → pagination.Cursor → Z → Tx (list Summary);
  Repository_RevokeUserSession : uuid → uuid → time → AuditEvent → Tx unit;
  Repository_RevokeOtherUserSessions : uuid → uuid → time → AuditEvent → Tx Z;
  Repository_RevokeSessionByHash : bytes → time → string → AuditEvent → Tx unit;
  Repository_CleanupSessions : nat → time → time → World → option (World * Z * option error) }.

#[export] Instance postgres_SessionRepository {P : Platform} : SessionRepository := {|
  Repository_FindLoginSession := FindLoginSession;
  Repository_TouchLoginSession := TouchLoginSession;
  Repository_RotateSessionCSRF := RotateSessionCSRF;
  Repository_ListUserSessions := ListUserSessions;
  Repository_RevokeUserSession := RevokeUserSession;
  Repository_RevokeOtherUserSessions := RevokeOtherUserSessions;
  Repository_RevokeSessionByHash := RevokeSessionByHash;
  Repository_CleanupSessions := CleanupSessions |}.

Record SessionService := mkSessionService { SessionService_tokens : TokenManager; SessionService_touchEvery : duration }.

(** [session.NewService]. *)
Definition NewSessionService (tokens : TokenManager) : SessionService := mkSessionService tokens (5 * Time.Minute).

(** [principal.LastSeenAt = now; principal.IdleExpiresAt = idle]. *)
Definition touch_principal (now idle : time) (p : Principal) : Principal :=
  mkPrincipal (Principal_SessionID p) (Principal_SessionBindingID p) (Principal_User p) (Principal_CSRFHash p)
    (Principal_CSRFExpiresAt p) (Principal_CreatedAt p) now (Principal_AuthenticatedAt p) (Principal_ExpiresAt p) idle
    (Principal_RevokedAt p).
Definition set_principal_csrf (hash : bytes) (expires : time) (p : Principal) : Principal :=
  mkPrincipal (Principal_SessionID p) (Principal_SessionBindingID p) (Principal_User p) hash expires
    (Principal_CreatedAt p) (Principal_LastSeenAt p) (Principal_AuthenticatedAt p) (Principal_ExpiresAt p)
    (Principal_IdleExpiresAt p) (Principal_RevokedAt p).
Definition set_current (current : bool) (s : Summary) : Summary :=
  mkSummary (Summary_ID s) (Summary_UserID s) (Summary_Username s) (Summary_UserStatus s) (Summary_CreatedAt s)
    (Summary_LastSeenAt s) (Summary_AuthenticatedAt s) (Summary_ExpiresAt s) (Summary_IdleExpiresAt s)
    (Summary_RevokedAt s) (Summary_RevokeReason s) (Summary_IPPrefix s) current.

Section service.
Context {P : Platform} {R : SessionRepository} (s : SessionService).

(** The session behind the cookie is over: revoked, past a deadline, or its user is not active. *)
Definition principal_refused (principal : Principal) (now : time) : bool :=
  bool_decide (is_Some (Principal_RevokedAt principal)) || negb (Time.Before now (Principal_ExpiresAt principal)) ||
  negb (Time.Before now (Principal_IdleExpiresAt principal)) ||
  (User_Status (Principal_User principal) != identity_StatusActive).

Definition Authenticate (token : string) (now : time) : Tx Principal :=
  reject_if (negb (validToken token "s1_")) session_ErrUnauthenticated;;
  found ← not_found_none session_ErrNotFound (Repository_FindLoginSession (HashToken token));
  match found with
  | None => throw session_ErrUnauthenticated
  | Some principal =>
      reject_if (principal_refused principal now) session_ErrUnauthenticated;;
      if SessionService_touchEvery s <=? Time.Sub now (Principal_LastSeenAt principal) then
        let idle := NextIdleExpiry (SessionService_tokens s) now (Principal_ExpiresAt principal) in
        Repository_TouchLoginSession (Principal_SessionID principal) now idle;;
        mret (touch_principal now idle principal)
      else mret principal
  end.

(** [None] is the nil error. *)
Definition ValidateCSRF (principal : Principal) (token : string) (now : time) : option error :=
  if negb (Time.Before now (Principal_CSRFExpiresAt principal)) || negb (csrfMatches token (Principal_CSRFHash principal))
  then Some session_ErrInvalidCSRF else None.

(** The token, whether it was rotated, and the principal as the caller's pointer now sees it. *)
Definition EnsureCSRF (principal : option Principal) (presented : string) (now : time) : Tx (string * bool * Principal) :=
  match principal with
  | None => throw session_ErrUnauthenticated
  | Some principal =>
      match ValidateCSRF principal presented now with
      | None => mret (presented, false, principal)
      | Some _ =>
          fresh ← lift_rand (NewCSRF (SessionService_tokens s) now);
          let '(token, hash, expires) := fresh in
          Repository_RotateSessionCSRF (Principal_SessionID principal) hash expires;;
          mret (token, true, set_principal_csrf hash expires principal)
      end
  end.

Definition ListMine (principal : Principal) (cursor : pagination.Cursor) (limit : Z) : Tx (list Summary) :=
  items ← Repository_ListUserSessions (User_ID (Principal_User principal)) cursor (pagination.Limit limit + 1);
  mret ((λ item, set_current (Summary_ID item == Principal_SessionID principal) item) <$> items).

Definition RevokeMine (principal : Principal) (target : uuid) (requestID : string) (now : time) : Tx unit :=
  event ← lift_sysrand (audit.New audit.SessionRevoked audit.ResultSuccess (Some (User_ID (Principal_User principal)))
    audit.TargetSession (Some target) requestID ["revoked"] now);
  Repository_RevokeUserSession (User_ID (Principal_User principal)) target now event.

Definition RevokeOthers (principal : Principal) (requestID : string) (now : time) : Tx Z :=
  event ← lift_sysrand (audit.New audit.SessionsRevokedAll audit.ResultSuccess (Some (User_ID (Principal_User principal)))
    audit.TargetUser (Some (User_ID (Principal_User principal))) requestID ["revoked"] now);
  Repository_RevokeOtherUserSessions (User_ID (Principal_User principal)) (Principal_SessionID principal) now event.

Definition Logout (principal : Principal) (clearToken requestID : string) (now : time) : Tx unit :=
  event ← lift_sysrand (audit.New audit.SessionRevoked audit.ResultSuccess (Some (User_ID (Principal_User principal)))
    audit.TargetSession (Some (Principal_SessionID principal)) requestID ["revoked"] now);
  Repository_RevokeSessionByHash (HashToken clearToken) now "logout" event.

Definition Cleanup (fuel : nat) (now : time) : World → option (World * Z * option error) :=
  Repository_CleanupSessions fuel now (Time.Add now (- (30 * 24 * Time.Hour))).
End service.
