(* ===== verification/FlowService.v ===== *)
(** * The browser transaction service

    [internal/authflow/authflow.go]: opaque, short-lived transactions that carry a
    verified authorization request, or a local sign-in, through the browser. *)

From S2P Require Import Prelude Sha256 Base64 Errors Platform Scopes Domain SessionTokens Url AuditEvents Database.
From S2P Require Import Tx StoreCommon ServiceCommon FlowStore.

Module authflow.

Record VerifiedInput := mkVerifiedInput {
  VerifiedInput_ClientID : uuid; VerifiedInput_RedirectURI : string; VerifiedInput_Scopes : list string;
  VerifiedInput_PKCEChallenge : string; VerifiedInput_State : string; VerifiedInput_Nonce : string;
  VerifiedInput_PromptCreate : bool; VerifiedInput_ResponseType : string; VerifiedInput_ResponseMode : string;
  VerifiedInput_Prompts : list string; VerifiedInput_MaxAgeSeconds : option Z }.

(** [VerifiedInput{}]. *)
Definition noInput : VerifiedInput := mkVerifiedInput uuid_Nil "" [] "" "" "" false "" "" [] None.

Definition with_scopes (scopes : list string) (i : VerifiedInput) : VerifiedInput :=
  mkVerifiedInput (VerifiedInput_ClientID i) (VerifiedInput_RedirectURI i) scopes (VerifiedInput_PKCEChallenge i)
    (VerifiedInput_State i) (VerifiedInput_Nonce i) (VerifiedInput_PromptCreate i) (VerifiedInput_ResponseType i)
    (VerifiedInput_ResponseMode i) (VerifiedInput_Prompts i) (VerifiedInput_MaxAgeSeconds i).
Definition with_prompts (prompts : list string) (i : VerifiedInput) : VerifiedInput :=
  mkVerifiedInput (VerifiedInput_ClientID i) (VerifiedInput_RedirectURI i) (VerifiedInput_Scopes i)
    (VerifiedInput_PKCEChallenge i) (VerifiedInput_State i) (VerifiedInput_Nonce i) (VerifiedInput_PromptCreate i)
    (VerifiedInput_ResponseType i) (VerifiedInput_ResponseMode i) prompts (VerifiedInput_MaxAgeSeconds i).

(** ** Values *)

Definition newToken : Rnd string :=
  buffer ← ReadFull 32 (errors_New "secure transaction token generation failed");
  mret ("t1_" +:+ Base64.Encode buffer).

Definition validToken (token : string) : bool :=
  if negb (HasPrefix token "t1_") then false
  else match Base64.DecodeString (TrimPrefix token "t1_") with Some value => len value =? 32 | None => false end.

Definition HashToken (token : string) : bytes := Sha256.Sum256 ("oneissuer:auth-transaction:v1:" +:+ token).

Definition validAbsoluteURI (raw : string) : bool :=
  match Url.Parse raw with
  | Some parsed => IsAbs parsed && (URL_Host parsed != "") && (URL_Fragment parsed == "") && (URL_User parsed == None)
  | None => false
  end.

(** The loop of [canonicalStrings]: [last] is the last value of the output. *)
Fixpoint keep_distinct (last : option string) (values : list string) : list string :=
  match values with
  | [] => []
  | value :: rest =>
      if (value == "") || (last == Some value) then keep_distinct last rest else value :: keep_distinct (Some value) rest
  end.
Definition canonicalStrings (values : list string) : list string := keep_distinct None (sort_Strings values).

Definition validS256Challenge (value : string) : bool :=
  if len value != 43 then false
  else match Base64.DecodeString value with Some decoded => len decoded =? 32 | None => false end.

Definition contains (values : list string) (target : string) : bool :=
  let index := sort_SearchStrings values target in
  (index <? length values)%nat && (values !! index == Some target).

Definition validOIDCScopes (values : list string) : bool :=
  if negb (contains values "openid") then false
  else forallb (λ value, (value == "openid") || (value == "profile") || (value == "email") || (value == "offline_access")) values.

Definition valid_prompt (value : string) : bool :=
  (value == "consent") || (value == "create") || (value == "login") || (value == "none").
Definition validPrompts (values : list string) : bool :=
  let canonical := canonicalStrings values in
  (length canonical =? length values)%nat && (canonical == values) && forallb valid_prompt canonical &&
  (negb (contains values "none") || (length values =? 1)%nat) &&
  (negb (contains values "create") || negb (contains values "login")).

Definition validFailureReason (reason : string) : bool :=
  bool_decide (reason ∈ ["invalid"; "client_disabled"; "registration_disabled"; "canceled"; "login_required";
                         "consent_required"; "interaction_required"; "access_denied"; "server_error"]).

(** ** The service *)

(** [authflow.Repository]. *)
Class Repository := {
  Repository_CreateAuthTransaction : Transaction → AuditEvent → Tx unit;
  Repository_FindAuthTransaction : bytes → Tx Transaction;
  Repository_ConsumeAuthTransaction : uuid → time → AuditEvent → Tx Transaction;
  Repository_RejectAuthTransaction : uuid → string → time → AuditEvent → Tx Transaction;
  Repository_ExpireAuthTransactions : nat → time → World → option (World * Z * option error);
  Repository_CleanupAuthTransactions : nat → time → World → option (World * Z * option error) }.

Record Service := mkService { ttl : duration }.

(** [NewService] with a repository. *)
Definition NewService (ttl : duration) : option Service :=
  if (ttl <=? 0) || (Time.Hour <? ttl) then None else Some (mkService ttl).

#[global] Instance postgres_Repository {P : Platform} : Repository := {|
  Repository_CreateAuthTransaction := FlowStore.CreateAuthTransaction;
  Repository_FindAuthTransaction := FlowStore.FindAuthTransaction;
  Repository_ConsumeAuthTransaction := FlowStore.ConsumeAuthTransaction;
  Repository_RejectAuthTransaction := FlowStore.RejectAuthTransaction;
  Repository_ExpireAuthTransactions := FlowStore.ExpireAuthTransactions;
  Repository_CleanupAuthTransactions := FlowStore.CleanupAuthTransactions |}.

Section service.
Context {P : Platform} {R : Repository} (s : Service).

(** The transaction record [create] stores. *)
Definition new_transaction (id : uuid) (token kind : string) (input : VerifiedInput) (now : time) : Transaction :=
  let authorization := kind == KindAuthorization in
  mkTransaction id (HashToken token) kind (if authorization then Some (VerifiedInput_ClientID input) else None)
    (VerifiedInput_RedirectURI input) (VerifiedInput_Scopes input) (VerifiedInput_PKCEChallenge input)
    (if authorization && (VerifiedInput_PKCEChallenge input != "") then "S256" else "") (VerifiedInput_State input)
    (VerifiedInput_Nonce input) (VerifiedInput_PromptCreate input) (VerifiedInput_ResponseType input)
    (VerifiedInput_ResponseMode input) (VerifiedInput_Prompts input) (VerifiedInput_MaxAgeSeconds input) now
    (Time.Add now (ttl s)) None "".

Definition create (kind : string) (input : VerifiedInput) (requestID : string) (now : time) : Tx (string * Transaction) :=
  token ← lift_rand newToken;
  id ← lift_rand (NewRandomFromReader (errors_New "transaction identifier generation failed"));
  let transaction := new_transaction id token kind input now in
  event ← lift_sysrand (audit.New audit.AuthorizationTransactionCreated audit.ResultSuccess None
                          audit.TargetAuthTransaction (Some id) requestID ["created"] now);
  Repository_CreateAuthTransaction transaction event;;
  mret (token, transaction).

Definition CreateLocal (requestID : string) (now : time) : Tx (string * Transaction) :=
  create KindLocal noInput requestID now.

(** The input after the prompt default. *)
Definition default_prompts (input : VerifiedInput) : VerifiedInput :=
  if VerifiedInput_PromptCreate input && (VerifiedInput_Prompts input == []) then with_prompts ["create"] input else input.

Definition CreateVerified (input : VerifiedInput) (requestID : string) (now : time) : Tx (string * Transaction) :=
  let input := with_scopes (canonicalStrings (VerifiedInput_Scopes input)) input in
  reject_if ((VerifiedInput_ClientID input == uuid_Nil) || negb (validAbsoluteURI (VerifiedInput_RedirectURI input)) ||
             (VerifiedInput_ResponseType input != "code") || (VerifiedInput_ResponseMode input != "query") ||
             (VerifiedInput_Scopes input == []) || (4 <? Z.of_nat (length (VerifiedInput_Scopes input))) ||
             negb (validOIDCScopes (VerifiedInput_Scopes input))) authflow_ErrInvalid;;
  reject_if (negb (validS256Challenge (VerifiedInput_PKCEChallenge input))) authflow_ErrInvalid;;
  reject_if ((1024 <? len (VerifiedInput_State input)) || (1024 <? len (VerifiedInput_Nonce input))) authflow_ErrInvalid;;
  let input := default_prompts input in
  reject_if (negb (validPrompts (VerifiedInput_Prompts input)) ||
             (VerifiedInput_PromptCreate input != contains (VerifiedInput_Prompts input) "create")) authflow_ErrInvalid;;
  reject_if (match VerifiedInput_MaxAgeSeconds input with Some age => 30 * 24 * 60 * 60 <? age | None => false end)
    authflow_ErrInvalid;;
  create KindAuthorization input requestID now.

Definition Resolve (token : string) (now : time) : Tx Transaction :=
  reject_if (negb (validToken token)) authflow_ErrNotFound;;
  transaction ← Repository_FindAuthTransaction (HashToken token);
  reject_if (bool_decide (is_Some (Transaction_ConsumedAt transaction))) authflow_ErrConsumed;;
  reject_if (negb (Time.Before now (Transaction_ExpiresAt transaction))) authflow_ErrExpired;;
  mret transaction.

Definition Consume (transaction : Transaction) (actor : option uuid) (requestID : string) (now : time) : Tx Transaction :=
  event ← lift_sysrand (audit.New audit.AuthorizationTransactionConsumed audit.ResultSuccess actor
                          audit.TargetAuthTransaction (Some (Transaction_ID transaction)) requestID [] now);
  Repository_ConsumeAuthTransaction (Transaction_ID transaction) now event.

Definition Reject (transaction : Transaction) (reason : string) (actor : option uuid) (requestID : string) (now : time) : Tx Transaction :=
  reject_if (negb (validFailureReason reason)) authflow_ErrInvalid;;
  event ← lift_sysrand (audit.New audit.AuthorizationTransactionRejected audit.ResultRejected actor
                          audit.TargetAuthTransaction (Some (Transaction_ID transaction)) requestID [] now);
  Repository_RejectAuthTransaction (Transaction_ID transaction) reason now event.

(** An error of the second loop returns the count of the first. *)
Definition Cleanup (fuel : nat) (now : time) (w : World) : option (World * Z * option error) :=
  match Repository_ExpireAuthTransactions fuel now w with
  | None => None
  | Some (w1, expired, Some e) => Some (w1, expired, Some e)
  | Some (w1, expired, None) =>
      match Repository_CleanupAuthTransactions fuel (Time.Add now (- (24 * Time.Hour))) w1 with
      | None => None
      | Some (w2, _, Some e) => Some (w2, expired, Some e)
      | Some (w2, deleted, None) => Some (w2, expired + deleted, None)
      end
  end.
End service.

(** ** Facts about the values *)

Lemma contains_contains values target : contains values target = Scopes.contains values target.
Proof. reflexivity. Qed.

Lemma keep_distinct_subset last l x : x ∈ keep_distinct last l → x ∈ l ∧ x ≠ "".
Proof.
  revert last. induction l as [|v l IH]; intros last; simpl; [by intros Hn%not_elem_of_nil|].
  destruct ((v == "") || (last == Some v)) eqn:E.
  - intros Hx%IH. set_solver.
  - rewrite orb_false_iff, !bool_decide_eq_false in E. rewrite elem_of_cons. intros [->|Hx%IH]; set_solver.
Qed.

Lemma keep_distinct_complete last l x : x ∈ l → x ≠ "" → x ∈ keep_distinct last l ∨ last = Some x.
Proof.
  revert last. induction l as [|v l IH]; intros last; simpl; [by intros Hn%not_elem_of_nil|].
  rewrite elem_of_cons. intros [->|Hx] Hne.
  - destruct (last == Some v) eqn:E; go_bools; [by right|]. rewrite (bool_decide_eq_false_2 (v = "")) by done.
    simpl. left. set_solver.
  - destruct ((v == "") || (last == Some v)); [by apply IH|].
    destruct (IH (Some v) Hx Hne) as [H|[= ->]]; left; set_solver.
Qed.

Lemma keep_distinct_sorted last l :
  StronglySorted string_le l → (∀ y, last = Some y → Forall (string_le y) l) →
  StronglySorted string_le (keep_distinct last l) ∧ NoDup (keep_distinct last l) ∧
  ∀ y, last = Some y → y ∉ keep_distinct last l.
Proof.
  revert last. induction l as [|v l IH]; intros last Hs Hl; simpl.
  - split_and!; [constructor|constructor|]. intros y _. apply not_elem_of_nil.
  - apply StronglySorted_inv in Hs as [Hs Hv].
    assert (Hl' : ∀ y, last = Some y → string_le y v ∧ Forall (string_le y) l) by (intros y Hy; by apply Forall_cons, Hl).
    destruct ((v == "") || (last == Some v)) eqn:E; [apply IH; naive_solver|].
    destruct (IH (Some v) Hs ltac:(by intros y [= <-])) as (H1 & H2 & H3). go_bools. split_and!.
    + constructor; [done|]. apply Forall_forall. intros x [Hx _]%keep_distinct_subset. rewrite Forall_forall in Hv. by apply Hv.
    + apply NoDup_cons. split; [by apply H3|done].
    + intros y -> Hy. apply elem_of_cons in Hy as [->|Hy]; [done|].
      apply keep_distinct_subset in Hy as [Hy _]. destruct (Hl' y eq_refl) as [Hyv _].
      rewrite Forall_forall in Hv. specialize (Hv y Hy). assert (y = v) as -> by (by apply (anti_symm string_le)). done.
Qed.

(** The canonical list of a set: sorted, without duplicates or empty values, and with the
    non-empty members of the input. *)
Lemma canonicalStrings_spec l :
  StronglySorted string_le (canonicalStrings l) ∧ NoDup (canonicalStrings l) ∧
  ∀ x, x ∈ canonicalStrings l ↔ x ∈ l ∧ x ≠ "".
Proof.
  unfold canonicalStrings. destruct (keep_distinct_sorted None (sort_Strings l)) as (H1 & H2 & _);
    [apply sort_Strings_sorted|done|]. split_and!; [done|done|]. intros x. split.
  - intros [Hx Hne]%keep_distinct_subset. by rewrite elem_of_sort_Strings in Hx.
  - intros [Hx Hne]. rewrite <- (elem_of_sort_Strings x l) in Hx. destruct (keep_distinct_complete None _ _ Hx Hne); done.
Qed.

(** A valid scope list, canonicalized, is what the token side calls canonical. *)
Lemma canonicalStrings_canonical l :
  validOIDCScopes (canonicalStrings l) = true → Scopes.canonical (canonicalStrings l).
Proof.
  intros Hv. destruct (canonicalStrings_spec l) as (Hs & Hnd & _). unfold validOIDCScopes in Hv.
  destruct (negb (contains (canonicalStrings l) "openid")) eqn:E; [done|]. apply negb_false_iff in E.
  rewrite contains_contains, contains_spec in E by done. apply bool_decide_eq_true in E.
  apply forallb_Forall_true in Hv. by split_and!.
Qed.

Lemma flow_token_valid s s' token : newToken s = (s', inl token) → validToken token = true ∧ s' = str_drop 32 s.
Proof.
  unfold newToken. rewrite Rnd_bind_inl. intros (s1 & b & (Hl & Hs1 & Hb)%ReadFull_inl & H).
  pose proof (str_take_length _ _ Hl) as Hlen. rewrite <- Hb in Hlen. clear Hb Hl.
  injection H as <- <-. split; [|done]. unfold validToken, HasPrefix.
  rewrite prefix_app, TrimPrefix_app, Base64.DecodeString_Encode. unfold len. by rewrite Hlen.
Qed.

Example flow_values :
  (validPrompts ["consent"; "login"], validPrompts ["login"; "consent"], validPrompts ["none"; "login"], validPrompts [],
   validOIDCScopes ["email"; "openid"], validAbsoluteURI "https://app.example/cb", validAbsoluteURI "https://app.example/cb#f",
   canonicalStrings ["openid"; ""; "email"; "openid"]) =
  (true, false, false, true, true, true, false, ["email"; "openid"]).
Proof. vm_compute. reflexivity. Qed.

End authflow.
