(* ===== verification/IdentityService.v ===== *)
(** * Accounts and passwords

    [internal/identity]: normalization of account fields, the password policy, Argon2id
    hashing in the PHC string format with its bounded worker gate, and the preparation of
    account writes.  The Unicode tables and normal forms, the RFC 5322 address parser and
    the key derivation are parameters. *)

From S2P Require Import Prelude Text Base64 Errors Platform Domain Database Tx StoreCommon ServiceCommon LoginStore.

(** [golang.org/x/text], the tables of [unicode], and [net/mail]. *)
Class TextLibrary := {
  NFC_String : string → string;
  Fold_String : string → string;
  ToLower : string → string;
  IsLetter : Z → bool;
  IsDigit : Z → bool;
  (** The address of a parsed mailbox. *)
  mail_ParseAddress : string → option string }.

(** [argon2.IDKey(password, salt, time, memory, threads, keyLen)]. *)
Class KeyDerivation := { IDKey : bytes → bytes → Z → Z → Z → Z → bytes }.
Class KeyDerivationLaws (K : KeyDerivation) : Prop := {
  IDKey_length : ∀ password salt time memory threads keyLen, 0 <= keyLen →
    len (IDKey password salt time memory threads keyLen) = keyLen }.

Module identity.

(** ** Normalization ([normalize.go]) *)

Definition minUsernameRunes : Z := 3.
Definition maxUsernameRunes : Z := 64.
Definition maxDisplayRunes : Z := 128.
Definition maxEmailBytes : Z := 320.

(** [[]rune(s)] of valid text, and the runes a [range] loop sees. *)
Definition runes (s : string) : list Z := fst <$> utf8.segments s.

Definition IsControl (r : Z) : bool := ((0 <=? r) && (r <=? 31)) || ((127 <=? r) && (r <=? 159)).

Section normalize.
Context {T : TextLibrary}.

Definition username_rune (r : Z) : bool :=
  IsLetter r || IsDigit r || (r =? 46) || (r =? 95) || (r =? 45).

Definition NormalizeUsername (raw : string) : (string * string) + error :=
  let display := NFC_String (TrimSpace raw) in
  if negb (utf8.ValidString display) then inr (identity_ValidationError "username" "invalid_utf8")
  else
    let rs := runes display in
    let n := Z.of_nat (length rs) in
    if (n <? minUsernameRunes) || (maxUsernameRunes <? n) then inr (identity_ValidationError "username" "invalid_length")
    else if forallb username_rune rs &&
            match head rs, last rs with
            | Some first, Some final => (IsLetter first || IsDigit first) && (IsLetter final || IsDigit final)
            | _, _ => true
            end
    then inl (display, Fold_String display)
    else inr (identity_ValidationError "username" "invalid_format").

Definition NormalizeEmail (raw : string) : (string * string) + error :=
  let invalid := identity_ValidationError "email" "invalid_format" in
  let display := NFC_String (TrimSpace raw) in
  if negb (utf8.ValidString display) || (maxEmailBytes <? len display) then inr invalid
  else if mail_ParseAddress display != Some display then inr invalid
  else match CutLast "@" display with
       | None => inr invalid
       | Some (before, after) =>
           if (before == "") || (after == "") || contains_byte "@" before then inr invalid
           else
             let domain := ToLower after in
             if HasPrefix domain "." || ends_with "." domain || negb (contains_byte "." domain) then inr invalid
             else inl (display, Fold_String before +:+ "@" +:+ domain)
       end.

Definition NormalizeLoginIdentifier (raw : string) : string + error :=
  let normalized := if contains_byte "@" raw then NormalizeEmail raw else NormalizeUsername raw in
  match normalized with inl (_, n) => inl n | inr e => inr e end.

Definition normalizeDisplayName (raw fallback : string) : string + error :=
  let value := NFC_String (TrimSpace raw) in
  let value := if value == "" then fallback else value in
  if negb (utf8.ValidString value) || (maxDisplayRunes <? Z.of_nat (length (runes value)))
  then inr (identity_ValidationError "display_name" "invalid_length")
  else if existsb IsControl (runes value) then inr (identity_ValidationError "display_name" "invalid_format")
  else inl value.

Definition NormalizeSearchPrefix (raw : string) : string := Fold_String (NFC_String (TrimSpace raw)).
End normalize.

(** ** Passwords ([password.go]) *)

Definition argon2Version : Z := 19.
Definition defaultSaltLen : Z := 16.
Definition defaultKeyLen : Z := 32.

Record PasswordPolicy := mkPasswordPolicy { MinLength : Z; MaxBytes : Z }.

(** [None] is the nil error. *)
Definition ValidatePassword (p : PasswordPolicy) (password : string) : option error :=
  if negb (utf8.ValidString password) || contains_byte NUL password then Some (identity_ValidationError "password" "invalid_encoding")
  else if MaxBytes p <? len password then Some (identity_ValidationError "password" "too_large")
  else if utf8.RuneCountInString password <? MinLength p then Some (identity_ValidationError "password" "too_short")
  else None.

Record Argon2Params := mkArgon2Params { MemoryKiB : Z; Time_ : Z; Threads : Z; SaltLen : Z; KeyLen : Z }.

(** The hasher: its parameters and the capacity of its gate. *)
Record PasswordHasher := mkPasswordHasher { params : Argon2Params; capacity : Z }.

Definition NewPasswordHasher (p : Argon2Params) (maximumConcurrent : Z) : PasswordHasher + error :=
  if (MemoryKiB p =? 0) || (Time_ p =? 0) || (Threads p =? 0) then inr identity_ErrInvalidHash
  else
    let salt := if SaltLen p =? 0 then defaultSaltLen else SaltLen p in
    let key := if KeyLen p =? 0 then defaultKeyLen else KeyLen p in
    if (salt <? 16) || (64 <? salt) || (key <? 16) || (64 <? key) || (maximumConcurrent <? 1) then inr identity_ErrInvalidHash
    else inl (mkPasswordHasher (mkArgon2Params (MemoryKiB p) (Time_ p) (Threads p) salt key) maximumConcurrent).

(** What [acquire] may answer with [inUse] workers busy: a slot, the error of a finished
    context, or busy when neither is ready.  [None] is the nil error. *)
Inductive acquire (h : PasswordHasher) (inUse : Z) (ctxErr : option error) : option error → Prop :=
| acquire_slot : inUse < capacity h → acquire h inUse ctxErr None
| acquire_done e : ctxErr = Some e → acquire h inUse ctxErr (Some e)
| acquire_busy : capacity h <= inUse → ctxErr = None → acquire h inUse ctxErr (Some identity_ErrHashBusy).

(** [base64.RawStdEncoding]: the alphabet ends in plus and slash. *)
Fixpoint map_bytes (f : ascii → ascii) (s : string) : string :=
  match s with EmptyString => "" | String c r => String (f c) (map_bytes f r) end.
Definition to_std (c : ascii) : ascii := if Ascii.eqb c "-" then "+" else if Ascii.eqb c "_" then "/" else c.
Definition of_std (c : ascii) : ascii := if Ascii.eqb c "+" then "-" else if Ascii.eqb c "/" then "_" else c.
Definition StdEncode (s : bytes) : string := map_bytes to_std (Base64.Encode s).
Definition StdDecode (s : string) : option bytes :=
  if contains_byte "-" s || contains_byte "_" s then None else Base64.DecodeString (map_bytes of_std s).

(** One [name=value] item of the parameter list. *)
Definition parse_item (values : gmap string Z) (item : string) : option (gmap string Z) :=
  let '(name, text, found) := Cut "=" item in
  if negb found || (default 0 (values !! name) != 0) then None
  else match ParseUint text 32 with
       | Some value => if value =? 0 then None else Some (<[name := value]> values)
       | None => None
       end.
Fixpoint parse_items (values : gmap string Z) (items : list string) : option (gmap string Z) :=
  match items with
  | [] => Some values
  | item :: rest => match parse_item values item with Some values' => parse_items values' rest | None => None end
  end.

(** [None] is [ErrInvalidHash]. *)
Definition parsePHC (encoded : string) : option (Argon2Params * bytes * bytes) :=
  match Split "$" encoded with
  | [empty; algorithm; version; parameters; saltText; digestText] =>
      if (empty != "") || (algorithm != "argon2id") || (version != "v=19") then None
      else
        let items := Split "," parameters in
        if negb (length items =? 3)%nat then None
        else match parse_items ∅ items with
             | None => None
             | Some values =>
                 let m := default 0 (values !! "m") in
                 let t := default 0 (values !! "t") in
                 let p := default 0 (values !! "p") in
                 if (m <? 8 * 1024) || (1024 * 1024 <? m) || (20 <? t) || (32 <? p) then None
                 else match StdDecode saltText, StdDecode digestText with
                      | Some salt, Some digest =>
                          if (len salt <? 16) || (64 <? len salt) || (len digest <? 16) || (64 <? len digest) then None
                          else Some (mkArgon2Params m t (p mod 256) (len salt) (len digest), salt, digest)
                      | _, _ => None
                      end
             end
  | _ => None
  end.

Section hasher.
Context {K : KeyDerivation} (h : PasswordHasher).

(** The PHC string of a digest. *)
Definition phc (salt digest : bytes) : string :=
  "$argon2id$v=" +:+ FormatUint argon2Version +:+ "$m=" +:+ FormatUint (MemoryKiB (params h)) +:+ ",t=" +:+
  FormatUint (Time_ (params h)) +:+ ",p=" +:+ FormatUint (Threads (params h)) +:+ "$" +:+ StdEncode salt +:+ "$" +:+ StdEncode digest.

(** [gate] is the answer of [acquire]. *)
Definition Hash (gate : option error) (password : string) : Rnd string :=
  match gate with
  | Some e => rnd_throw e
  | None =>
      salt ← ReadFull (Z.to_nat (SaltLen (params h))) (errors_New "password salt generation failed");
      let digest := IDKey password salt (Time_ (params h)) (MemoryKiB (params h)) (Threads (params h)) (KeyLen (params h)) in
      mret (phc salt digest)
  end.

(** Whether the password matches, and whether the digest should be replaced. *)
Definition Verify (gate : option error) (password encoded : string) : (bool * bool) + error :=
  match parsePHC encoded with
  | None => inr identity_ErrInvalidHash
  | Some (p, salt, expected) =>
      match gate with
      | Some e => inr e
      | None =>
          let actual := IDKey password salt (Time_ p) (MemoryKiB p) (Threads p) (len expected) in
          let matches := actual == expected in
          inl (matches, matches && ((MemoryKiB p != MemoryKiB (params h)) || (Time_ p != Time_ (params h)) ||
                                    (Threads p != Threads (params h)) || (len salt != SaltLen (params h)) ||
                                    (len expected != KeyLen (params h))))
      end
  end.

(** The same in a running request, where a comparison that ran Argon2 leaves its trace. *)
Definition compare_password (gate : option error) (password encoded : string) : Tx (bool * bool) := λ w,
  match Verify gate password encoded with
  | inl r => (with_compared (w_compared w ++ [encoded]) w, inl r)
  | inr e => (w, inr e)
  end.
End hasher.

Lemma compare_password_inl `{KeyDerivation} h gate password encoded w w' r :
  compare_password h gate password encoded w = (w', inl r) →
  Verify h gate password encoded = inl r ∧ w_db w' = w_db w ∧ w_rand w' = w_rand w.
Proof. unfold compare_password. destruct (Verify h gate password encoded); [|done]. by intros [= <- <-]. Qed.
Lemma tx_rel_compare_password `{KeyDerivation} R `{!PreOrder R} h gate password encoded : tx_rel R (compare_password h gate password encoded).
Proof. intros w w' r. unfold compare_password. destruct (Verify h gate password encoded); by intros [= <- <-]. Qed.

(** ** The service ([service.go]) *)

Record CreateInput := mkCreateInput {
  CreateInput_Username : string; CreateInput_DisplayName : string; CreateInput_Email : string; CreateInput_Password : string }.
Record UpdateInput := mkUpdateInput {
  UpdateInput_Username : option string; UpdateInput_DisplayName : option string; UpdateInput_Email : option string;
  UpdateInput_Status : option string; UpdateInput_Role : option string }.

Record Service := mkService { policy : PasswordPolicy; hasher : PasswordHasher; dummyHash : string }.

(** [config.PasswordConfig]. *)
Record PasswordConfig := mkPasswordConfig {
  PasswordConfig_MinLength : Z; PasswordConfig_MaxBytes : Z; PasswordConfig_Argon2MemoryKiB : Z;
  PasswordConfig_Argon2Time : Z; PasswordConfig_Argon2Threads : Z; PasswordConfig_MaxConcurrent : Z }.

Definition randomString (prefix : string) (n : nat) (e : error) : Rnd string :=
  buffer ← ReadFull n e; mret (prefix +:+ Base64.Encode buffer).

Section service.
Context {P : Platform} {T : TextLibrary} {K : KeyDerivation}.

(** The error of the dummy hash is wrapped; its chain ends in the hasher's error. *)
Definition NewService (cfg : PasswordConfig) (gate : option error) : Rnd Service :=
  match NewPasswordHasher (mkArgon2Params (PasswordConfig_Argon2MemoryKiB cfg) (PasswordConfig_Argon2Time cfg)
          (PasswordConfig_Argon2Threads cfg) defaultSaltLen defaultKeyLen) (PasswordConfig_MaxConcurrent cfg) with
  | inr e => rnd_throw e
  | inl h =>
      dummy ← Hash h gate "oneissuer-dummy-password-never-valid";
      mret (mkService (mkPasswordPolicy (PasswordConfig_MinLength cfg) (PasswordConfig_MaxBytes cfg)) h dummy)
  end.

Context (s : Service).

(** [fmt.Errorf] without a wrapped error. *)
Definition PrepareUser (gate : option error) (input : CreateInput) (role : string) (now : time) : Tx PreparedUser :=
  username ← or_error (NormalizeUsername (CreateInput_Username input));
  email ← or_error (NormalizeEmail (CreateInput_Email input));
  reject_if (username.2 == email.2) (identity_ValidationError "username" "ambiguous_identifier");;
  displayName ← or_error (normalizeDisplayName (CreateInput_DisplayName input) username.1);
  reject_if ((role != RoleUser) && (role != RoleAdmin)) (identity_ValidationError "role" "invalid_value");;
  check (ValidatePassword (policy s) (CreateInput_Password input));;
  id ← lift_rand (NewRandomFromReader (errors_New "generate user identifier"));
  subject ← lift_rand (randomString "sub_" 32 (errors_New "generate user subject"));
  passwordHash ← lift_rand (Hash (hasher s) gate (CreateInput_Password input));
  mret (mkPreparedUser (mkUser id subject username.1 username.2 displayName email.1 email.2 false identity_StatusActive
                          role now now None 1) passwordHash).

Definition set_username (display normalized : string) (u : User) : User :=
  mkUser (User_ID u) (User_Subject u) display normalized (User_DisplayName u) (User_Email u) (User_EmailNormalized u)
    (User_EmailVerified u) (User_Status u) (User_Role u) (User_CreatedAt u) (User_UpdatedAt u) (User_LastLoginAt u) (User_Version u).
Definition set_email (display normalized : string) (u : User) : User :=
  mkUser (User_ID u) (User_Subject u) (User_Username u) (User_UsernameNormalized u) (User_DisplayName u) display normalized
    (User_EmailVerified u) (User_Status u) (User_Role u) (User_CreatedAt u) (User_UpdatedAt u) (User_LastLoginAt u) (User_Version u).
Definition set_display_name (value : string) (u : User) : User :=
  mkUser (User_ID u) (User_Subject u) (User_Username u) (User_UsernameNormalized u) value (User_Email u) (User_EmailNormalized u)
    (User_EmailVerified u) (User_Status u) (User_Role u) (User_CreatedAt u) (User_UpdatedAt u) (User_LastLoginAt u) (User_Version u).
Definition set_status (value : string) (u : User) : User :=
  mkUser (User_ID u) (User_Subject u) (User_Username u) (User_UsernameNormalized u) (User_DisplayName u) (User_Email u)
    (User_EmailNormalized u) (User_EmailVerified u) value (User_Role u) (User_CreatedAt u) (User_UpdatedAt u) (User_LastLoginAt u) (User_Version u).
Definition set_role (value : string) (u : User) : User :=
  mkUser (User_ID u) (User_Subject u) (User_Username u) (User_UsernameNormalized u) (User_DisplayName u) (User_Email u)
    (User_EmailNormalized u) (User_EmailVerified u) (User_Status u) value (User_CreatedAt u) (User_UpdatedAt u) (User_LastLoginAt u) (User_Version u).
Definition set_updated_at (now : time) (u : User) : User :=
  mkUser (User_ID u) (User_Subject u) (User_Username u) (User_UsernameNormalized u) (User_DisplayName u) (User_Email u)
    (User_EmailNormalized u) (User_EmailVerified u) (User_Status u) (User_Role u) (User_CreatedAt u) now (User_LastLoginAt u) (User_Version u).

(** A patch in progress: the user so far and the names of what changed. *)
Abbreviation patch := ((User * list string) + error)%type (only parsing).
Definition then_ (p : patch) (f : User → list string → patch) : patch := match p with inl (u, changed) => f u changed | inr e => inr e end.

Definition patch_username (existing : User) (input : option string) (u : User) (changed : list string) : patch :=
  match input with
  | None => inl (u, changed)
  | Some raw =>
      match NormalizeUsername raw with
      | inr e => inr e
      | inl (display, normalized) =>
          if display != User_Username existing then inl (set_username display normalized u, changed ++ ["username"]) else inl (u, changed)
      end
  end.
Definition patch_email (existing : User) (input : option string) (u : User) (changed : list string) : patch :=
  match input with
  | None => inl (u, changed)
  | Some raw =>
      match NormalizeEmail raw with
      | inr e => inr e
      | inl (display, normalized) =>
          if display != User_Email existing then inl (set_email display normalized u, changed ++ ["email"]) else inl (u, changed)
      end
  end.
Definition patch_display_name (existing : User) (input : option string) (u : User) (changed : list string) : patch :=
  match input with
  | None => inl (u, changed)
  | Some raw =>
      match normalizeDisplayName raw (User_Username u) with
      | inr e => inr e
      | inl value =>
          if value != User_DisplayName existing then inl (set_display_name value u, changed ++ ["display_name"]) else inl (u, changed)
      end
  end.
(** The two enumerations, status and role. *)
Definition patch_enum (field : string) (allowed : list string) (current : string) (set : string → User → User)
    (input : option string) (u : User) (changed : list string) : patch :=
  match input with
  | None => inl (u, changed)
  | Some value =>
      if negb (bool_decide (value ∈ allowed)) then inr (identity_ValidationError field "invalid_value")
      else if value != current then inl (set value u, changed ++ [field]) else inl (u, changed)
  end.

Definition PrepareUpdate (existing : User) (input : UpdateInput) (now : time) : patch :=
  then_ (patch_username existing (UpdateInput_Username input) existing []) (λ u changed,
  then_ (patch_email existing (UpdateInput_Email input) u changed) (λ u changed,
  if User_UsernameNormalized u == User_EmailNormalized u then inr (identity_ValidationError "username" "ambiguous_identifier")
  else
  then_ (patch_display_name existing (UpdateInput_DisplayName input) u changed) (λ u changed,
  then_ (patch_enum "status" [identity_StatusActive; identity_StatusDisabled] (User_Status existing) set_status
           (UpdateInput_Status input) u changed) (λ u changed,
  then_ (patch_enum "role" [RoleUser; RoleAdmin] (User_Role existing) set_role (UpdateInput_Role input) u changed) (λ u changed,
  if changed == [] then inr (identity_ValidationError "body" "no_changes")
  else inl (set_updated_at now u, changed)))))).

(** [gate] and [rehashGate] are the answers of the two calls of [acquire]. *)
Definition VerifyLogin (gate rehashGate : option error) (password : string) (record : option LoginRecord) : Tx (bool * string) :=
  let hash := match record with Some r => LoginRecord_PasswordHash r | None => dummyHash s end in
  verified ← compare_password (hasher s) gate password hash;
  let '(matches, needsRehash) := verified in
  match record with
  | None => throw identity_ErrInvalidCredentials
  | Some r =>
      reject_if (negb matches) identity_ErrInvalidCredentials;;
      reject_if (User_Status (LoginRecord_User r) != identity_StatusActive) identity_ErrDisabled;;
      if needsRehash : bool then
        replacement ← lift_rand (Hash (hasher s) rehashGate password);
        mret (needsRehash, replacement)
      else mret (needsRehash, "")
  end.
End service.

(** ** The PHC string reads back *)

Lemma map_bytes_of_to s : every (λ c, negb (Ascii.eqb c "+") && negb (Ascii.eqb c "/")) s = true → map_bytes of_std (map_bytes to_std s) = s.
Proof.
  induction s as [|c s IH]; [done|]. cbn [every map_bytes]. rewrite !andb_true_iff. intros [[H1 H2] Hs]. rewrite IH by done. f_equal.
  apply negb_true_iff in H1, H2. unfold to_std. destruct (Ascii.eqb c "-") eqn:E1; [by apply Ascii.eqb_eq in E1 as ->|].
  destruct (Ascii.eqb c "_") eqn:E2; [by apply Ascii.eqb_eq in E2 as ->|]. unfold of_std. by rewrite H1, H2.
Qed.
Lemma every_map_bytes (f : ascii → bool) g s : every f (map_bytes g s) = every (λ c, f (g c)) s.
Proof. induction s as [|c s IH]; [done|]. simpl. by rewrite IH. Qed.

(** The standard alphabet. *)
Lemma StdEncode_no c s : Forall (λ n, negb (Ascii.eqb c (to_std (Base64.enc6 n))) = true) (N.of_nat <$> seq 0 64) → contains_byte c (StdEncode s) = false.
Proof.
  intros H. unfold contains_byte, StdEncode. apply negb_false_iff. rewrite every_map_bytes. by apply Base64.Encode_every.
Qed.
Ltac alphabet := repeat constructor.

Lemma StdDecode_StdEncode s : StdDecode (StdEncode s) = Some s.
Proof.
  unfold StdDecode. rewrite (StdEncode_no "-"), (StdEncode_no "_") by alphabet. simpl. unfold StdEncode.
  rewrite map_bytes_of_to by (apply Base64.Encode_every; alphabet). apply Base64.DecodeString_Encode.
Qed.

Lemma string_app_assoc (a b c : string) : (a +:+ b) +:+ c = a +:+ b +:+ c.
Proof. induction a as [|x a IH]; [done|]. change (String x ((a +:+ b) +:+ c) = String x (a +:+ b +:+ c)). by rewrite IH. Qed.

Lemma string_app_cons c (a b : string) : String c a +:+ b = String c (a +:+ b).
Proof. done. Qed.

(** One written parameter. *)
Definition item (name : string) (n : Z) : string := name +:+ String "=" (FormatUint n).
Lemma item_no c name n :
  digit c = None → Ascii.eqb c "=" = false → contains_byte c name = false → 0 <= n → contains_byte c (item name n) = false.
Proof.
  intros Hc He Hn H. unfold item. change (String "=" (FormatUint n)) with ("=" +:+ FormatUint n).
  rewrite !contains_byte_app, Hn, FormatUint_no by done. unfold contains_byte. simpl. by rewrite He.
Qed.
Lemma parse_item_written (values : gmap string Z) name n :
  contains_byte "=" name = false → values !! name = None → 0 < n < 2 ^ 32 →
  parse_item values (item name n) = Some (<[name := n]> values).
Proof.
  intros Hn Hv H. unfold parse_item, item. rewrite Cut_app by done. rewrite Hv. simpl.
  rewrite ParseUint_FormatUint by lia. by rewrite (proj2 (Z.eqb_neq n 0)) by lia.
Qed.

(** The bounds of a readable parameter set: the hasher's own limits and those of [parsePHC]. *)
Definition readable (p : Argon2Params) : Prop :=
  8 * 1024 <= MemoryKiB p <= 1024 * 1024 ∧ 1 <= Time_ p <= 20 ∧ 1 <= Threads p <= 32 ∧ 16 <= SaltLen p <= 64 ∧ 16 <= KeyLen p <= 64.

Definition parameter_text (p : Argon2Params) : string :=
  item "m" (MemoryKiB p) +:+ String "," (item "t" (Time_ p) +:+ String "," (item "p" (Threads p))).

Lemma parse_parameters p :
  readable p → Split "," (parameter_text p) = [item "m" (MemoryKiB p); item "t" (Time_ p); item "p" (Threads p)] ∧
  parse_items ∅ (Split "," (parameter_text p)) =
    Some (<["p" := Threads p]> (<["t" := Time_ p]> (<["m" := MemoryKiB p]> ∅))) ∧
  contains_byte "$" (parameter_text p) = false.
Proof.
  intros (Hm & Ht & Hp & _).
  assert (E : Split "," (parameter_text p) = [item "m" (MemoryKiB p); item "t" (Time_ p); item "p" (Threads p)]).
  { unfold parameter_text. rewrite !Split_app by (apply item_no; done || lia). by rewrite Split_none by (apply item_no; done || lia). }
  split_and!; [done| |].
  - rewrite E. cbn [parse_items]. rewrite !parse_item_written by (done || lia). done.
  - unfold parameter_text. change (String "," (item "p" (Threads p))) with ("," +:+ item "p" (Threads p)).
    change (String "," (item "t" (Time_ p) +:+ "," +:+ item "p" (Threads p))) with ("," +:+ (item "t" (Time_ p) +:+ "," +:+ item "p" (Threads p))).
    rewrite !contains_byte_app, !item_no by (done || lia). done.
Qed.

Lemma phc_parts h salt digest :
  phc h salt digest = "" +:+ String "$" ("argon2id" +:+ String "$" ("v=19" +:+ String "$"
    (parameter_text (params h) +:+ String "$" (StdEncode salt +:+ String "$" (StdEncode digest))))).
Proof. unfold phc, parameter_text, item. by rewrite ?string_app_assoc; repeat (rewrite !string_app_cons, ?string_app_assoc). Qed.

Lemma parsePHC_phc h salt digest :
  readable (params h) → 16 <= len salt <= 64 → 16 <= len digest <= 64 →
  parsePHC (phc h salt digest) =
  Some (mkArgon2Params (MemoryKiB (params h)) (Time_ (params h)) (Threads (params h)) (len salt) (len digest), salt, digest).
Proof.
  intros Hr Hs Hd. destruct (parse_parameters _ Hr) as (Hsplit & Hitems & Hdollar). destruct Hr as (Hm & Ht & Hp & _).
  unfold parsePHC. rewrite phc_parts, (Split_app "$" ""), (Split_app "$" "argon2id"), (Split_app "$" "v=19"), (Split_app "$" (parameter_text _)),
    (Split_app "$" (StdEncode salt)), Split_none by (done || (apply StdEncode_no; alphabet)).
  rewrite Hitems. rewrite Hsplit. rewrite !StdDecode_StdEncode. simpl.
  assert (L : ∀ m : gmap string Z, ∀ a b c : Z, default 0 (<["p" := c]> (<["t" := b]> (<["m" := a]> m)) !! "m") = a ∧
    default 0 (<["p" := c]> (<["t" := b]> (<["m" := a]> m)) !! "t") = b ∧ default 0 (<["p" := c]> (<["t" := b]> (<["m" := a]> m)) !! "p") = c).
  { intros m a b c. split_and!; by simplify_map_eq. }
  destruct (L ∅ (MemoryKiB (params h)) (Time_ (params h)) (Threads (params h))) as (-> & -> & ->).
  rewrite !(proj2 (Z.ltb_ge _ _)) by lia. simpl. by rewrite Z.mod_small by lia.
Qed.

End identity.

#[export] Hint Resolve identity.tx_rel_compare_password : tx_rel.
