(* ===== verification/AuthnService.v ===== *)
(** * The authentication service

    [internal/authn/authn.go]: preparing the hosted forms, registration and login.  A
    browser flow (pre-authentication session, CSRF value, transaction) is checked and an
    attempt reserved before any credential is looked at. *)

From S2P Require Import Prelude Base64 Errors Platform Scopes Domain SessionTokens AuditEvents Database Tx StoreCommon.
From S2P Require Import ServiceCommon LoginStore ClientStore FlowService IdentityService.

Module authn.

Definition maxAuthenticationAttempts : Z := 5.
Definition BeginLogin : string := "login".
Definition BeginRegister : string := "register".

Record BeginResult := mkBeginResult {
  BeginResult_TransactionToken : string; BeginResult_Transaction : Transaction; BeginResult_PreAuth : IssuedPreAuth }.

Record RegisterInput := mkRegisterInput {
  RegisterInput_PreAuthToken : string; RegisterInput_CSRFToken : string; RegisterInput_TransactionToken : string;
  RegisterInput_Account : identity.CreateInput; RegisterInput_ExistingSessionToken : string;
  RegisterInput_UserAgent : string; RegisterInput_ClientIP : Addr; RegisterInput_RequestID : string }.

Record LoginInput := mkLoginInput {
  LoginInput_PreAuthToken : string; LoginInput_CSRFToken : string; LoginInput_TransactionToken : string;
  LoginInput_Identifier : string; LoginInput_Password : string; LoginInput_ExistingSessionToken : string;
  LoginInput_UserAgent : string; LoginInput_ClientIP : Addr; LoginInput_RequestID : string }.

(** [authn.Repository] and [authn.ClientLookup]. *)
Class Repository := {
  Repository_CreatePreAuth : PreAuthRecord → Tx unit;
  Repository_FindPreAuth : bytes → Tx PreAuthRecord;
  Repository_ReservePreAuthAttempt : uuid → time → Z → Tx unit;
  Repository_FindLoginRecord : string → Tx LoginRecord;
  Repository_CommitRegistration : RegisterCommit → Tx unit;
  Repository_CommitLogin : LoginCommit → Tx uuid;
  Repository_AppendAudit : AuditEvent → Tx unit }.
Class ClientLookup := { ClientLookup_Get : uuid → Tx Client }.

#[global] Instance postgres_Repository {P : Platform} : Repository := {|
  Repository_CreatePreAuth := LoginStore.CreatePreAuth;
  Repository_FindPreAuth := LoginStore.FindPreAuth;
  Repository_ReservePreAuthAttempt := LoginStore.ReservePreAuthAttempt;
  Repository_FindLoginRecord := LoginStore.FindLoginRecord;
  Repository_CommitRegistration := LoginStore.CommitRegistration;
  Repository_CommitLogin := LoginStore.CommitLogin;
  Repository_AppendAudit := LoginStore.AppendAudit |}.
(** [client.Service.Get] is the store's read. *)
#[global] Instance postgres_ClientLookup : ClientLookup := {| ClientLookup_Get := ClientStore.GetClient |}.

Record Service := mkService {
  identities : identity.Service; sessions : TokenManager; transactions : authflow.Service; registrationEnabled : bool }.

Section service.
Context {P : Platform} {T : TextLibrary} {K : KeyDerivation} {F : authflow.Repository} {R : Repository} {C : ClientLookup}.
Context (s : Service).

Definition checkRegistration (transaction : Transaction) : Tx unit :=
  reject_if (negb (registrationEnabled s)) authn_ErrRegistrationDisabled;;
  if Transaction_Kind transaction == KindLocal then mret ()
  else match Transaction_ClientID transaction with
       | None => throw authn_ErrRegistrationDisabled
       | Some id =>
           clientValue ← replace_error authn_ErrRegistrationDisabled (ClientLookup_Get id);
           reject_if ((Client_Status clientValue != client_StatusActive) || negb (Client_RegistrationEnabled clientValue))
             authn_ErrRegistrationDisabled
       end.

Definition CanRegister (transaction : Transaction) : Tx bool :=
  checked ← attempt (checkRegistration transaction);
  mret match checked with
       | inl _ => (Transaction_Kind transaction == KindLocal) || Transaction_PromptCreate transaction
       | inr _ => false
       end.

Definition Begin (mode transactionToken requestID : string) (now : time) : Tx BeginResult :=
  reject_if ((mode == BeginRegister) && (transactionToken == "") && negb (registrationEnabled s)) authn_ErrRegistrationDisabled;;
  started ← replace_error authn_ErrInvalidFlow
    (if transactionToken == "" then authflow.CreateLocal (transactions s) requestID now
     else transaction ← authflow.Resolve transactionToken now; mret (transactionToken, transaction));
  let '(transactionToken, transaction) := started in
  reject_if ((mode == BeginLogin) && (Transaction_Kind transaction == KindAuthorization) && Transaction_PromptCreate transaction)
    authn_ErrInvalidFlow;;
  (if mode == BeginRegister then
     checkRegistration transaction;;
     reject_if ((Transaction_Kind transaction == KindAuthorization) && negb (Transaction_PromptCreate transaction)) authn_ErrInvalidFlow
   else mret ());;
  preauth ← lift_rand (NewPreAuth (sessions s) (Transaction_ID transaction) now);
  Repository_CreatePreAuth (IssuedPreAuth_Record preauth);;
  mret (mkBeginResult transactionToken transaction preauth).

Definition validateFlow (preauthToken csrfToken transactionToken : string) (now : time) : Tx (PreAuthRecord * Transaction) :=
  reject_if ((preauthToken == "") || (transactionToken == "")) authn_ErrInvalidFlow;;
  preauth ← replace_error authn_ErrInvalidFlow (Repository_FindPreAuth (HashToken preauthToken));
  match ValidatePreAuth preauth preauthToken csrfToken now with
  | Some e => throw (if e == session_ErrInvalidCSRF then session_ErrInvalidCSRF else authn_ErrInvalidFlow)
  | None =>
      transaction ← replace_error authn_ErrInvalidFlow (authflow.Resolve transactionToken now);
      reject_if (Transaction_ID transaction != PreAuth_AuthTransactionID preauth) authn_ErrInvalidFlow;;
      mret (preauth, transaction)
  end.

Definition successEvents (userID sessionID transactionID : uuid) (requestID : string) (now : time)
    (registration consumeTransaction : bool) : Rnd (list AuditEvent) :=
  let typeValue := if registration then audit.UserRegistered else audit.LoginSucceeded in
  let changed := if registration then ["created"] else [] in
  first ← audit.New typeValue audit.ResultSuccess (Some userID) audit.TargetUser (Some userID) requestID changed now;
  created ← audit.New audit.SessionCreated audit.ResultSuccess (Some userID) audit.TargetSession (Some sessionID) requestID ["created"] now;
  if consumeTransaction : bool then
    consumed ← audit.New audit.AuthorizationTransactionConsumed audit.ResultSuccess (Some userID)
                 audit.TargetAuthTransaction (Some transactionID) requestID [] now;
    mret [first; created; consumed]
  else mret [first; created].

Definition recordRejected (eventType requestID : string) (now : time) : Tx unit :=
  record_event Repository_AppendAudit (audit.New eventType audit.ResultRejected None "" None requestID [] now).

Definition recordLoginFailure (eventType : string) (target : option uuid) (requestID : string) (now : time) : Tx unit :=
  let targetType := match target with Some _ => audit.TargetUser | None => "" end in
  record_event Repository_AppendAudit (audit.New eventType audit.ResultRejected None targetType target requestID [] now).

(** The digest of a presented session cookie; no cookie is the empty slice. *)
Definition existing_hash (token : string) : bytes := if token != "" then HashToken token else "".

(** [gate] is the hasher's answer ([identity.acquire]). *)
Definition Register (gate : option error) (input : RegisterInput) (now : time) : Tx Issued :=
  flow ← validateFlow (RegisterInput_PreAuthToken input) (RegisterInput_CSRFToken input) (RegisterInput_TransactionToken input) now;
  let '(preauth, transaction) := flow in
  replace_error authn_ErrInvalidFlow (Repository_ReservePreAuthAttempt (PreAuth_ID preauth) now maxAuthenticationAttempts);;
  let reject {A} (e : error) : Tx A :=
    recordRejected audit.UserRegistrationRejected (RegisterInput_RequestID input) now;; throw e in
  allowed ← attempt (checkRegistration transaction);
  match allowed with
  | inr e => reject e
  | inl _ =>
      prepared ← attempt (identity.PrepareUser (identities s) gate (RegisterInput_Account input) RoleUser now);
      match prepared with
      | inr e => reject e
      | inl prepared =>
          let userID := User_ID (PreparedUser_User prepared) in
          issued ← lift_rand (NewAuthenticated (sessions s) userID now (RegisterInput_UserAgent input) (RegisterInput_ClientIP input));
          let consumeTransaction := Transaction_Kind transaction == KindLocal in
          events ← lift_sysrand (successEvents userID (SR_ID (Issued_Record issued)) (Transaction_ID transaction)
                                   (RegisterInput_RequestID input) now true consumeTransaction);
          committed ← attempt (Repository_CommitRegistration
            (mkRegisterCommit prepared (Issued_Record issued) (PreAuth_ID preauth) (Transaction_ID transaction) consumeTransaction
               (existing_hash (RegisterInput_ExistingSessionToken input)) (RegisterInput_RequestID input) events));
          match committed with
          | inr e => if e == identity_ErrDuplicate then reject e else throw e
          | inl _ => mret issued
          end
      end
  end.

(** [issued.Record.SessionBindingID = bindingID] and [record.User.LastLoginAt = &now]. *)
Definition bind_issued (bindingID : uuid) (i : Issued) : Issued :=
  mkIssued (Issued_Token i) (Issued_CSRFToken i) (set_binding bindingID (Issued_Record i)).
Definition set_last_login (now : time) (u : User) : User :=
  mkUser (User_ID u) (User_Subject u) (User_Username u) (User_UsernameNormalized u) (User_DisplayName u) (User_Email u)
    (User_EmailNormalized u) (User_EmailVerified u) (User_Status u) (User_Role u) (User_CreatedAt u) (User_UpdatedAt u)
    (Some now) (User_Version u).

(** The record behind the identifier: an identifier that does not normalize, or that
    nobody has, is no record. *)
Definition find_record (identifier : string) : Tx (option LoginRecord) :=
  match identity.NormalizeLoginIdentifier identifier with
  | inr _ => mret None
  | inl normalized =>
      found ← attempt (Repository_FindLoginRecord normalized);
      match found with
      | inl record => mret (Some record)
      | inr e => if e == identity_ErrNotFound then mret None else throw e
      end
  end.

(** The answer to a failed verification, after its audit record. *)
Definition login_refused (input : LoginInput) (record : option LoginRecord) (verifyErr : error) (now : time) : Tx (Issued * User) :=
  let eventType := match record with
                   | Some _ => if verifyErr == identity_ErrDisabled then audit.LoginDisabledUser else audit.LoginFailed
                   | None => audit.LoginFailed
                   end in
  recordLoginFailure eventType ((λ r, User_ID (LoginRecord_User r)) <$> record) (LoginInput_RequestID input) now;;
  if (verifyErr == identity_ErrDisabled) || (verifyErr == identity_ErrInvalidCredentials) ||
     match identity.NormalizeLoginIdentifier (LoginInput_Identifier input) with inr _ => true | inl _ => false end
  then throw identity_ErrInvalidCredentials else throw verifyErr.

(** The session of a verified user. *)
Definition login_commit (input : LoginInput) (preauth : PreAuthRecord) (transaction : Transaction) (record : LoginRecord)
    (replacement : string) (now : time) : Tx (Issued * User) :=
  let userID := User_ID (LoginRecord_User record) in
  issued ← lift_rand (NewAuthenticated (sessions s) userID now (LoginInput_UserAgent input) (LoginInput_ClientIP input));
  let consumeTransaction := Transaction_Kind transaction == KindLocal in
  events ← lift_sysrand (successEvents userID (SR_ID (Issued_Record issued)) (Transaction_ID transaction)
                           (LoginInput_RequestID input) now false consumeTransaction);
  bindingID ← Repository_CommitLogin
    (mkLoginCommit userID (Issued_Record issued) (PreAuth_ID preauth) (Transaction_ID transaction) consumeTransaction
       (existing_hash (LoginInput_ExistingSessionToken input)) replacement now (LoginInput_RequestID input) events);
  reject_if (bindingID == uuid_Nil) authn_ErrInvalidFlow;;
  mret (bind_issued bindingID issued, set_last_login now (LoginRecord_User record)).

(** [gate] and [rehashGate] are the hasher's answers. *)
Definition Login (gate rehashGate : option error) (input : LoginInput) (now : time) : Tx (Issued * User) :=
  flow ← validateFlow (LoginInput_PreAuthToken input) (LoginInput_CSRFToken input) (LoginInput_TransactionToken input) now;
  let '(preauth, transaction) := flow in
  replace_error authn_ErrInvalidFlow (Repository_ReservePreAuthAttempt (PreAuth_ID preauth) now maxAuthenticationAttempts);;
  record ← find_record (LoginInput_Identifier input);
  verified ← attempt (identity.VerifyLogin (identities s) gate rehashGate (LoginInput_Password input) record);
  match verified with
  | inr verifyErr => login_refused input record verifyErr now
  | inl (_, replacement) =>
      match record with
      | None => throw identity_ErrInvalidCredentials
      | Some record => login_commit input preauth transaction record replacement now
      end
  end.
End service.
End authn.
