(* ===== verification/ClientService.v ===== *)
(** * The client registry service

    [internal/client/client.go]: registration and administrative patches of clients, the
    rules for their names, URIs and scopes, and the lifecycle of confidential secrets. *)

From S2P Require Import Prelude Text Sha256 Base64 Errors Platform Pagination Scopes Domain SessionTokens NetAddr Url.
From S2P Require Import AuditEvents Database Tx StoreCommon ServiceCommon ClientStore FlowService IdentityService.

Module client.

Record Created := mkCreated { Created_Client : Client; Created_Secret : string }.
Record CreateInput := mkCreateInput {
  CreateInput_Type : string; CreateInput_Name : string; CreateInput_Description : string; CreateInput_LogoURI : string;
  CreateInput_RegistrationEnabled : bool; CreateInput_RedirectURIs : list string; CreateInput_LogoutURIs : list string;
  CreateInput_Scopes : list string }.
Record UpdateInput := mkUpdateInput {
  UpdateInput_Name : option string; UpdateInput_Description : option string; UpdateInput_LogoURI : option string;
  UpdateInput_Status : option string; UpdateInput_RegistrationEnabled : option bool;
  UpdateInput_RedirectURIs : option (list string); UpdateInput_LogoutURIs : option (list string);
  UpdateInput_Scopes : option (list string) }.

(** [client.Repository]. *)
Class Repository := {
  Repository_CreateClient : Client → option SecretRecord → AuditEvent → Tx unit;
  Repository_GetClient : uuid → Tx Client;
  Repository_GetClientByPublicID : string → Tx Client;
  Repository_ListClients : pagination.Cursor → Z → Tx (list Client);
  Repository_UpdateClient : Client → AuditEvent → Tx unit;
  Repository_RotateClientSecret : uuid → SecretRecord → time → AuditEvent → Tx unit;
  Repository_GetClientSecretHashes : string → Tx (Client * list bytes) }.

#[global] Instance postgres_Repository {P : Platform} : Repository := {|
  Repository_CreateClient := ClientStore.CreateClient;
  Repository_GetClient := ClientStore.GetClient;
  Repository_GetClientByPublicID := ClientStore.GetClientByPublicID;
  Repository_ListClients := ClientStore.ListClients;
  Repository_UpdateClient := ClientStore.UpdateClient;
  Repository_RotateClientSecret := ClientStore.RotateClientSecret;
  Repository_GetClientSecretHashes := ClientStore.GetClientSecretHashes |}.

Record Service := mkService { allowHTTPOnLoopback : bool; allowedScopes : gset string }.
Definition NewService (allowHTTPOnLoopback : bool) : Service :=
  mkService allowHTTPOnLoopback (list_to_set ["openid"; "profile"; "email"; "offline_access"]).

(** ** Values *)

Definition randomValue (prefix : string) (size : nat) : Rnd string :=
  value ← ReadFull size (errors_New "secure client value generation failed");
  mret (prefix +:+ Base64.Encode value).

Definition HashSecret (clearSecret : string) : bytes := Sha256.Sum256 ("oneissuer:client-secret:v1:" +:+ clearSecret).

Definition validSecret (clearSecret : string) : bool :=
  if negb (HasPrefix clearSecret "ois_sec_v1_") then false
  else match Base64.DecodeString (TrimPrefix clearSecret "ois_sec_v1_") with Some value => len value =? 32 | None => false end.

Definition validClientID (value : string) : bool :=
  if negb (HasPrefix value "ois_cli_") || (TrimSpace value != value) then false
  else match Base64.DecodeString (TrimPrefix value "ois_cli_") with Some decoded => len decoded =? 24 | None => false end.

(** The second loop of [canonical]: [last] is the last value of the output. *)
Fixpoint append_new (last : option string) (values : list string) : list string :=
  match values with
  | [] => []
  | value :: rest => if last == Some value then append_new last rest else value :: append_new (Some value) rest
  end.
Definition canonical (values : list string) : list string :=
  append_new None (sort_Strings (List.filter (λ value, value != "") (TrimSpace <$> values))).

Definition contains (values : list string) (target : string) : bool :=
  let index := sort_SearchStrings values target in
  (index <? length values)%nat && (values !! index == Some target).

Definition validateURI (raw : string) (allowLoopback : bool) : option error :=
  if (raw == "") || (2048 <? len raw) || (TrimSpace raw != raw) || contains_byte "*" raw || ContainsAny raw [CR; LF; TAB]
  then Some client_ErrInvalid
  else match Url.Parse raw with
       | None => Some client_ErrInvalid
       | Some parsed =>
           if negb (IsAbs parsed) || (URL_Host parsed == "") || (URL_User parsed != None) || (URL_Fragment parsed != "") ||
              (URL_Opaque parsed != "")
           then Some client_ErrInvalid
           else if URL_Scheme parsed == "https" then None
           else if (URL_Scheme parsed != "http") || negb allowLoopback then Some client_ErrInvalid
           else if EqualFold (Hostname parsed) "localhost" then None
           else match ParseIP (Hostname parsed) with
                | Some ip => if IsLoopback ip then None else Some client_ErrInvalid
                | None => Some client_ErrInvalid
                end
       end.

Definition validateURIs (field : string) (values : list string) (allowLoopback required : bool) : list string + error :=
  let values := canonical values in
  if (required && (length values =? 0)%nat) || (32 <? length values)%nat then inr (client_ValidationError field "invalid_count")
  else if existsb (λ value, validateURI value allowLoopback != None) values then inr (client_ValidationError field "invalid_uri")
  else inl values.

Section service.
Context {P : Platform} {R : Repository} (s : Service).

Definition validateScopes (scopes : list string) : list string + error :=
  let values := canonical scopes in
  if (length values =? 0)%nat || (size (allowedScopes s) <? length values)%nat then inr (client_ValidationError "scopes" "invalid_count")
  else if existsb (λ scope, negb (bool_decide (scope ∈ allowedScopes s))) values then inr (client_ValidationError "scopes" "unsupported_scope")
  else if negb (bool_decide ("openid" ∈ allowedScopes s)) || negb (contains values "openid")
  then inr (client_ValidationError "scopes" "openid_required")
  else inl values.

(** The validated fields, in the order [validateProfile] returns them. *)
Record Profile := mkProfile {
  Profile_Name : string; Profile_Description : string; Profile_LogoURI : string; Profile_RedirectURIs : list string;
  Profile_LogoutURIs : list string; Profile_Scopes : list string }.

Definition validateProfile (name description logo : string) (redirects logouts scopes : list string) : Profile + error :=
  let name := TrimSpace name in
  let description := TrimSpace description in
  let logo := TrimSpace logo in
  if negb (utf8.ValidString name) || (Z.of_nat (length (identity.runes name)) <? 1) || (128 <? Z.of_nat (length (identity.runes name)))
  then inr (client_ValidationError "name" "invalid_length")
  else if negb (utf8.ValidString description) || (2048 <? len description) then inr (client_ValidationError "description" "invalid_length")
  else if (logo != "") && (validateURI logo (allowHTTPOnLoopback s) != None) then inr (client_ValidationError "logo_uri" "invalid_uri")
  else match validateURIs "redirect_uris" redirects (allowHTTPOnLoopback s) true with
  | inr e => inr e
  | inl redirects =>
  match validateURIs "logout_uris" logouts (allowHTTPOnLoopback s) false with
  | inr e => inr e
  | inl logouts =>
  match validateScopes scopes with
  | inr e => inr e
  | inl scopes => inl (mkProfile name description logo redirects logouts scopes)
  end end end.

Definition newSecret (clientID : uuid) (now : time) : Rnd (string * SecretRecord) :=
  clearSecret ← randomValue "ois_sec_v1_" 32;
  id ← NewRandomFromReader (errors_New "secret identifier generation failed");
  mret (clearSecret, mkSecretRecord id clientID (HashSecret clearSecret) now).

Definition prepareCreate (input : CreateInput) (now : time) : Tx (Client * option SecretRecord * string) :=
  reject_if ((CreateInput_Type input != TypePublic) && (CreateInput_Type input != TypeConfidential))
    (client_ValidationError "client_type" "invalid_value");;
  profile ← or_error (validateProfile (CreateInput_Name input) (CreateInput_Description input) (CreateInput_LogoURI input)
    (CreateInput_RedirectURIs input) (CreateInput_LogoutURIs input) (CreateInput_Scopes input));
  id ← lift_rand (NewRandomFromReader (errors_New "client identifier generation failed"));
  publicID ← lift_rand (randomValue "ois_cli_" 24);
  let authMethod := if CreateInput_Type input == TypeConfidential then AuthMethodClientSecretBasic else AuthMethodNone in
  let value := mkClient id publicID (CreateInput_Type input) authMethod (Profile_Name profile) (Profile_Description profile)
    (Profile_LogoURI profile) client_StatusActive (CreateInput_RegistrationEnabled input) (Profile_RedirectURIs profile)
    (Profile_LogoutURIs profile) (Profile_Scopes profile) now now 1 in
  if CreateInput_Type input == TypePublic then mret (value, None, "")
  else secret ← lift_rand (newSecret id now); mret (value, Some secret.2, secret.1).

(** One field of the patch: the value it leaves and the name it appends. *)
Definition patch_text (field : string) (input : option string) (existing : string) : string * list string :=
  match input with Some v => if v != existing then (v, [field]) else (existing, []) | None => (existing, []) end.
Definition patch_flag (field : string) (input : option bool) (existing : bool) : bool * list string :=
  match input with Some v => if v != existing then (v, [field]) else (existing, []) | None => (existing, []) end.
Definition patch_list (field : string) (input : option (list string)) (existing : list string) : list string * list string :=
  match input with Some v => (v, [field]) | None => (existing, []) end.

Definition prepareUpdate (existing : Client) (input : UpdateInput) (now : time) : (Client * list string) + error :=
  let '(name, c1) := patch_text "name" (UpdateInput_Name input) (Client_Name existing) in
  let '(description, c2) := patch_text "description" (UpdateInput_Description input) (Client_Description existing) in
  let '(logo, c3) := patch_text "logo_uri" (UpdateInput_LogoURI input) (Client_LogoURI existing) in
  if match UpdateInput_Status input with
     | Some status => (status != client_StatusActive) && (status != client_StatusDisabled) | None => false end
  then inr (client_ValidationError "status" "invalid_value")
  else
    let '(status, c4) := patch_text "status" (UpdateInput_Status input) (Client_Status existing) in
    let '(registration, c5) := patch_flag "registration_enabled" (UpdateInput_RegistrationEnabled input) (Client_RegistrationEnabled existing) in
    let '(redirects, c6) := patch_list "redirect_uris" (UpdateInput_RedirectURIs input) (Client_RedirectURIs existing) in
    let '(logouts, c7) := patch_list "logout_uris" (UpdateInput_LogoutURIs input) (Client_LogoutURIs existing) in
    let '(scopes, c8) := patch_list "scopes" (UpdateInput_Scopes input) (Client_Scopes existing) in
    let changed := c1 ++ c2 ++ c3 ++ c4 ++ c5 ++ c6 ++ c7 ++ c8 in
    match validateProfile name description logo redirects logouts scopes with
    | inr e => inr e
    | inl profile =>
        if (length changed =? 0)%nat then inr (client_ValidationError "body" "no_changes")
        else inl (mkClient (Client_ID existing) (Client_ClientID existing) (Client_Type existing)
                    (Client_TokenEndpointAuthMethod existing) (Profile_Name profile) (Profile_Description profile)
                    (Profile_LogoURI profile) status registration (Profile_RedirectURIs profile) (Profile_LogoutURIs profile)
                    (Profile_Scopes profile) (Client_CreatedAt existing) now (Client_Version existing), changed)
    end.

(** ** The operations *)

Definition Create (actor : uuid) (input : CreateInput) (requestID : string) (now : time) : Tx Created :=
  prepared ← prepareCreate input now;
  let '(clientValue, secretRecord, clearSecret) := prepared in
  event ← lift_sysrand (audit.New audit.ClientCreated audit.ResultSuccess (Some actor) audit.TargetClient
    (Some (Client_ID clientValue)) requestID ["created"; "redirect_uris"; "logout_uris"; "scopes"] now);
  Repository_CreateClient clientValue secretRecord event;;
  mret (mkCreated clientValue clearSecret).

Definition Get (id : uuid) : Tx Client := Repository_GetClient id.

Definition GetActive (id : uuid) : Tx Client :=
  reject_if (id == uuid_Nil) client_ErrNotFound;;
  value ← replace_error client_ErrNotFound (Repository_GetClient id);
  reject_if (negb (activeClientRecord value)) client_ErrNotFound;;
  mret value.

Definition ResolveActive (publicID : string) : Tx Client :=
  reject_if (negb (validClientID publicID)) client_ErrNotFound;;
  value ← replace_error client_ErrNotFound (Repository_GetClientByPublicID publicID);
  reject_if (negb (activeClientRecord value)) client_ErrNotFound;;
  mret value.

Definition List_ (cursor : pagination.Cursor) (limit : Z) : Tx (list Client) := Repository_ListClients cursor (pagination.Limit limit + 1).

(** [updated.Version++]. *)
Definition next_version (c : Client) : Client :=
  mkClient (Client_ID c) (Client_ClientID c) (Client_Type c) (Client_TokenEndpointAuthMethod c) (Client_Name c) (Client_Description c)
    (Client_LogoURI c) (Client_Status c) (Client_RegistrationEnabled c) (Client_RedirectURIs c) (Client_LogoutURIs c)
    (Client_Scopes c) (Client_CreatedAt c) (Client_UpdatedAt c) (Client_Version c + 1).

Definition Update (actor id : uuid) (input : UpdateInput) (requestID : string) (now : time) : Tx (Client * list string) :=
  existing ← Repository_GetClient id;
  prepared ← or_error (prepareUpdate existing input now);
  let '(updated, changed) := prepared in
  let eventType := if (Client_Status existing != client_StatusDisabled) && (Client_Status updated == client_StatusDisabled)
                   then audit.ClientDisabled else audit.ClientUpdated in
  event ← lift_sysrand (audit.New eventType audit.ResultSuccess (Some actor) audit.TargetClient (Some id) requestID changed now);
  Repository_UpdateClient updated event;;
  mret (next_version updated, changed).

Definition RotateSecret (actor id : uuid) (requestID : string) (now : time) : Tx string :=
  existing ← Repository_GetClient id;
  reject_if (Client_Type existing != TypeConfidential) client_ErrPublicSecret;;
  secret ← lift_rand (newSecret id now);
  event ← lift_sysrand (audit.New audit.ClientSecretRotated audit.ResultSuccess (Some actor) audit.TargetClient (Some id) requestID ["secret"] now);
  Repository_RotateClientSecret id secret.2 now event;;
  mret secret.1.

(** [matched] is the disjunction of the constant-time comparisons. *)
Definition ValidateSecret (clientID clearSecret : string) : Tx Client :=
  reject_if (negb (validSecret clearSecret)) client_ErrNotFound;;
  found ← replace_error client_ErrNotFound (Repository_GetClientSecretHashes clientID);
  let '(clientValue, hashes) := found in
  reject_if ((Client_Status clientValue != client_StatusActive) || (Client_Type clientValue != TypeConfidential)) client_ErrNotFound;;
  let presented := HashSecret clearSecret in
  let matched := existsb (λ expected, (len expected =? Sha256.Size) && (presented == expected)) hashes in
  reject_if (negb matched) client_ErrNotFound;;
  mret clientValue.

Definition RedirectURIMatches (clientValue : Client) (candidate : string) : bool :=
  if validateURI candidate (allowHTTPOnLoopback s) != None then false
  else existsb (λ registered, registered == candidate) (Client_RedirectURIs clientValue).
End service.
End client.
