(* ===== verification/AdminService.v ===== *)
(** * The administration service

    [internal/admin/admin.go]: the management use cases, each behind the check that the
    principal is an active administrator, the sensitive ones behind the check that it
    authenticated recently. *)

From S2P Require Import Prelude Errors Platform Pagination Scopes Domain SessionTokens AuditEvents Database Tx StoreCommon.
From S2P Require Import ServiceCommon LoginStore UserStore IdentityService ClientService.

Module admin.

(** [admin.Repository]. *)
Class Repository := {
  Repository_HasAdmin : Tx bool;
  Repository_BootstrapAdmin : PreparedUser → AuditEvent → Tx unit;
  Repository_GetUser : uuid → Tx User;
  Repository_ListUsers : string → pagination.Cursor → Z → Tx (list User);
  Repository_CreateManagedUser : PreparedUser → AuditEvent → Tx unit;
  Repository_UpdateManagedUser : UpdateUserCommit → Tx User;
  Repository_RevokeAllManagedUserSessions : uuid → time → AuditEvent → Tx Z;
  Repository_ListManagedSessions : pagination.Cursor → Z → Tx (list Summary);
  Repository_RevokeManagedSession : uuid → time → AuditEvent → Tx unit;
  Repository_ListAuditEvents : string → pagination.Cursor → Z → Tx (list AuditEvent);
  Repository_AppendAudit : AuditEvent → Tx unit }.

#[global] Instance postgres_Repository {P : Platform} : Repository := {|
  Repository_HasAdmin := UserStore.HasAdmin;
  Repository_BootstrapAdmin := UserStore.BootstrapAdmin;
  Repository_GetUser := UserStore.GetUser;
  Repository_ListUsers := UserStore.ListUsers;
  Repository_CreateManagedUser := UserStore.CreateManagedUser;
  Repository_UpdateManagedUser := UserStore.UpdateManagedUser;
  Repository_RevokeAllManagedUserSessions := UserStore.RevokeAllManagedUserSessions;
  Repository_ListManagedSessions := UserStore.ListManagedSessions;
  Repository_RevokeManagedSession := UserStore.RevokeManagedSession;
  Repository_ListAuditEvents := UserStore.ListAuditEvents;
  Repository_AppendAudit := LoginStore.AppendAudit |}.

Record Service := mkService { identities : identity.Service; clients : client.Service; reauthWindow : duration }.

Section service.
Context {P : Platform} {T : TextLibrary} {K : KeyDerivation} {R : Repository} {C : client.Repository} (s : Service).

Definition HasAdmin : Tx bool := Repository_HasAdmin.

Definition RecordBootstrapRejected (requestID : string) (now : time) : Tx unit :=
  record_event Repository_AppendAudit (audit.New audit.AdminBootstrapRejected audit.ResultRejected None "" None requestID [] now).

(** [gate] is the hasher's answer ([identity.acquire]). *)
Definition Bootstrap (gate : option error) (input : identity.CreateInput) (requestID : string) (now : time) : Tx User :=
  prepared ← identity.PrepareUser (identities s) gate input RoleAdmin now;
  event ← lift_sysrand (audit.New audit.AdminBootstrapSucceeded audit.ResultSuccess None audit.TargetUser
    (Some (User_ID (PreparedUser_User prepared))) requestID ["created"; "role"] now);
  stored ← attempt (Repository_BootstrapAdmin prepared event);
  match stored with
  | inr e => (if e == identity_ErrBootstrapExists then RecordBootstrapRejected requestID now else mret ());; throw e
  | inl _ => mret (PreparedUser_User prepared)
  end.

Definition Authorize (principal : Principal) : option error :=
  if (User_Status (Principal_User principal) != identity_StatusActive) || (User_Role (Principal_User principal) != RoleAdmin)
  then Some admin_ErrForbidden else None.

Definition RequireRecent (principal : Principal) (now : time) : option error :=
  match Authorize principal with
  | Some e => Some e
  | None =>
      if (reauthWindow s <=? 0) || (reauthWindow s <? Time.Sub now (Principal_AuthenticatedAt principal)) ||
         Time.Before now (Principal_AuthenticatedAt principal)
      then Some admin_ErrRecentAuth else None
  end.

Definition ListUsers (principal : Principal) (search : string) (cursor : pagination.Cursor) (limit : Z) : Tx (list User) :=
  check (Authorize principal);;
  let search := identity.NormalizeSearchPrefix search in
  reject_if (320 <? len search) admin_ErrInvalidFilter;;
  Repository_ListUsers search cursor (pagination.Limit limit + 1).

Definition GetUser (principal : Principal) (id : uuid) : Tx User :=
  check (Authorize principal);; Repository_GetUser id.

Definition CreateUser (gate : option error) (principal : Principal) (input : identity.CreateInput) (role requestID : string)
    (now : time) : Tx User :=
  check (Authorize principal);;
  (if role == RoleAdmin then check (RequireRecent principal now) else mret ());;
  prepared ← identity.PrepareUser (identities s) gate input role now;
  event ← lift_sysrand (audit.New audit.UserCreated audit.ResultSuccess (Some (User_ID (Principal_User principal))) audit.TargetUser
    (Some (User_ID (PreparedUser_User prepared))) requestID ["created"; "role"] now);
  Repository_CreateManagedUser prepared event;;
  mret (PreparedUser_User prepared).

Definition UpdateUser (principal : Principal) (id : uuid) (input : identity.UpdateInput) (requestID : string) (now : time) : Tx User :=
  check (Authorize principal);;
  existing ← Repository_GetUser id;
  prepared ← or_error (identity.PrepareUpdate existing input now);
  let '(updated, changed) := prepared in
  let revoke := (User_Status existing != User_Status updated) || (User_Role existing != User_Role updated) in
  (if revoke then check (RequireRecent principal now) else mret ());;
  let eventType := if User_Status existing != User_Status updated then audit.UserStatusChanged
                   else if User_Role existing != User_Role updated then audit.UserRoleChanged else audit.UserUpdated in
  event ← lift_sysrand (audit.New eventType audit.ResultSuccess (Some (User_ID (Principal_User principal))) audit.TargetUser (Some id)
    requestID changed now);
  sessionEvent ← (if revoke then
      e ← lift_sysrand (audit.New audit.SessionsRevokedAll audit.ResultSuccess (Some (User_ID (Principal_User principal)))
        audit.TargetUser (Some id) requestID ["revoked"] now); mret (Some e)
    else mret None);
  Repository_UpdateManagedUser (mkUpdateUserCommit (User_ID (Principal_User principal)) updated changed revoke event sessionEvent).

Definition RevokeUserSessions (principal : Principal) (id : uuid) (requestID : string) (now : time) : Tx Z :=
  check (Authorize principal);;
  event ← lift_sysrand (audit.New audit.SessionsRevokedAll audit.ResultSuccess (Some (User_ID (Principal_User principal)))
    audit.TargetUser (Some id) requestID ["revoked"] now);
  Repository_RevokeAllManagedUserSessions id now event.

Definition CreateClient (principal : Principal) (input : client.CreateInput) (requestID : string) (now : time) : Tx client.Created :=
  check (RequireRecent principal now);; client.Create (clients s) (User_ID (Principal_User principal)) input requestID now.

Definition ListClients (principal : Principal) (cursor : pagination.Cursor) (limit : Z) : Tx (list Client) :=
  check (Authorize principal);; client.List_ cursor limit.

Definition GetClient (principal : Principal) (id : uuid) : Tx Client :=
  check (Authorize principal);; client.Get id.

Definition UpdateClient (principal : Principal) (id : uuid) (input : client.UpdateInput) (requestID : string) (now : time) : Tx Client :=
  check (RequireRecent principal now);;
  r ← client.Update (clients s) (User_ID (Principal_User principal)) id input requestID now; mret r.1.

Definition RotateClientSecret (principal : Principal) (id : uuid) (requestID : string) (now : time) : Tx string :=
  check (RequireRecent principal now);; client.RotateSecret (User_ID (Principal_User principal)) id requestID now.

Definition ListSessions (principal : Principal) (cursor : pagination.Cursor) (limit : Z) : Tx (list Summary) :=
  check (Authorize principal);; Repository_ListManagedSessions cursor (pagination.Limit limit + 1).

Definition RevokeSession (principal : Principal) (id : uuid) (requestID : string) (now : time) : Tx unit :=
  check (Authorize principal);;
  event ← lift_sysrand (audit.New audit.SessionRevoked audit.ResultSuccess (Some (User_ID (Principal_User principal)))
    audit.TargetSession (Some id) requestID ["revoked"] now);
  Repository_RevokeManagedSession id now event.

Definition ListAudit (principal : Principal) (eventType : string) (cursor : pagination.Cursor) (limit : Z) : Tx (list AuditEvent) :=
  check (Authorize principal);;
  reject_if (negb (audit.ValidEventType eventType)) admin_ErrInvalidFilter;;
  Repository_ListAuditEvents eventType cursor (pagination.Limit limit + 1).
End service.
End admin.
