(* ===== verification/LogoutService.v ===== *)
(** * The logout service

    [internal/logout/logout.go] and [cookie.go]: starting an RP-initiated logout from an
    optional ID Token hint, binding it to the browser's session, and completing it; the
    redirect is checked against the client registry when it is accepted and again when it
    is delivered.  JSON texts are read through the parameter [HintCodec], signatures
    through [TokenCodec]. *)

From S2P Require Import Prelude Text Sha256 Base64 Errors Platform Scopes Domain SessionTokens Url AuditEvents Database.
From S2P Require Import BrowserQueries Tx StoreCommon ServiceCommon LogoutStore ClientStore TokenService FlowService IdentityService ClientService.

Module logout.

Definition lookupPrefix : string := "lt1_".
Definition csrfPrefix : string := "lc1_".
Definition maxCompactHintBytes : Z := 8192.
Definition maxIDTokenLifetime : duration := 15 * Time.Minute.
Definition maxTransactionTries : Z := 10.
Definition maxStateBytes : Z := 1024.
Definition maxRedirectURIBytes : Z := 2048.
Definition maxHintSubjectBytes : Z := 255.
Definition maxPublicClientIDSize : Z := 128.

Record StartInput := mkStartInput {
  StartInput_IDTokenHint : string; StartInput_ClientID : string; StartInput_LogoutHint : string;
  StartInput_PostLogoutRedirectURI : string; StartInput_State : string; StartInput_UILocales : string; StartInput_Now : time }.
Record Issued := mkIssued { Issued_LookupToken : string; Issued_Transaction : LogoutTransaction }.
Record Bound := mkBound { Bound_CSRFProof : string; Bound_ExpiresAt : time; Bound_PostLogoutRedirectURI : string }.
Record Completion := mkCompletion { Completion_Confirmed : bool; Completion_Location : string }.

(** JSON as the hint verifier reads it. *)
Class HintCodec := {
  (** The members of a text that is one JSON object and nothing else, in order, with their
      raw values: what the token loop of [uniqueJSONObjectFields] sees. *)
  Object_Members : bytes → option (list (string * bytes));
  (** [json.Unmarshal] into a string. *)
  Unmarshal_string : bytes → option string;
  (** One JSON value with no unknown field, then the end of the input. *)
  Decode_IDTokenClaims : bytes → option IDTokenClaims }.

(** [logout.Repository] and [logout.ClientResolver]. *)
Class Repository := {
  Repository_CreateLogoutTransaction : LogoutTransaction → Tx unit;
  Repository_BindLogoutTransaction : BindInput → Tx LogoutTransaction;
  Repository_CompleteLogoutTransaction : CompleteInput → Tx CompletionCandidate }.
Class ClientResolver := {
  ClientResolver_ResolveActive : string → Tx Client;
  ClientResolver_GetActive : uuid → Tx Client }.

#[global] Instance postgres_Repository {P : Platform} : Repository := {|
  Repository_CreateLogoutTransaction := LogoutStore.CreateLogoutTransaction;
  Repository_BindLogoutTransaction := LogoutStore.BindLogoutTransaction;
  Repository_CompleteLogoutTransaction := LogoutStore.CompleteLogoutTransaction |}.
#[global] Instance client_ClientResolver {P : Platform} : ClientResolver := {|
  ClientResolver_ResolveActive := client.ResolveActive; ClientResolver_GetActive := client.GetActive |}.

Record Service := mkService {
  issuer : string; ttl : duration; hintMaxAge : duration; clockSkew : duration; maxActive : Z }.

Definition NewService (issuer : string) (ttl hintMaxAge clockSkew : duration) (maxActive : Z) : option Service :=
  match Url.Parse issuer with
  | None => None
  | Some parsedIssuer =>
      if (URL_String parsedIssuer != issuer) || ((URL_Scheme parsedIssuer != "http") && (URL_Scheme parsedIssuer != "https")) ||
         (URL_Host parsedIssuer == "") || (URL_User parsedIssuer != None) || (URL_Opaque parsedIssuer != "") ||
         (URL_Path parsedIssuer != "") || (URL_RawPath parsedIssuer != "") || (URL_RawQuery parsedIssuer != "") ||
         URL_ForceQuery parsedIssuer || (URL_Fragment parsedIssuer != "") || (ttl <? Time.Minute) || (15 * Time.Minute <? ttl) ||
         (hintMaxAge <? 5 * Time.Minute) || (30 * 24 * Time.Hour <? hintMaxAge) || (clockSkew <? 0) ||
         (5 * Time.Minute <? clockSkew) || (maxActive <? 1) || (5 <? maxActive)
      then None else Some (mkService issuer ttl hintMaxAge clockSkew maxActive)
  end.

(** ** Values *)

Definition hashLookup (tokenValue : string) : bytes := Sha256.Sum256 ("oneissuer:logout-transaction-lookup:v1:" +:+ tokenValue).
Definition hashCSRF (tokenValue : string) : bytes := Sha256.Sum256 ("oneissuer:logout-confirm-csrf:v1:" +:+ tokenValue).

Definition newSecret (prefix : string) (digest : string → bytes) : Rnd (string * bytes) :=
  value ← ReadFull 32 (errors_New "secure logout value generation failed");
  let tokenValue := prefix +:+ Base64.Encode value in
  mret (tokenValue, digest tokenValue).

Definition validSecret (tokenValue prefix : string) : bool :=
  if negb (HasPrefix tokenValue prefix) || (TrimSpace tokenValue != tokenValue) then false
  else match Base64.DecodeString (TrimPrefix tokenValue prefix) with Some decoded => len decoded =? 32 | None => false end.

Definition DigestLookupToken (tokenValue : string) : option bytes :=
  if validSecret tokenValue lookupPrefix then Some (hashLookup tokenValue) else None.
Definition DigestCSRFProof (tokenValue : string) : option bytes :=
  if validSecret tokenValue csrfPrefix then Some (hashCSRF tokenValue) else None.

Definition validStartInput (input : StartInput) : bool :=
  if Time.IsZero (StartInput_Now input) then false
  else if existsb (λ value, negb (utf8.ValidString value) || contains_byte NUL value)
            [StartInput_IDTokenHint input; StartInput_ClientID input; StartInput_LogoutHint input;
             StartInput_PostLogoutRedirectURI input; StartInput_State input; StartInput_UILocales input] then false
  else (len (StartInput_IDTokenHint input) <=? maxCompactHintBytes) && (len (StartInput_ClientID input) <=? maxPublicClientIDSize) &&
       (len (StartInput_LogoutHint input) <=? maxStateBytes) && (len (StartInput_PostLogoutRedirectURI input) <=? maxRedirectURIBytes) &&
       (len (StartInput_State input) <=? maxStateBytes) && (len (StartInput_UILocales input) <=? maxStateBytes).

Definition validPrincipal (principal : Principal) : bool :=
  (Principal_SessionID principal != uuid_Nil) && (Principal_SessionBindingID principal != uuid_Nil) &&
  (User_ID (Principal_User principal) != uuid_Nil) && (User_Subject (Principal_User principal) != "").

Definition exactLogoutURI (clientValue : Client) (candidate : string) : bool :=
  if (candidate == "") || (Client_ID clientValue == uuid_Nil) || (Client_Status clientValue != client_StatusActive) then false
  else existsb (λ registered, registered == candidate) (Client_LogoutURIs clientValue).

Definition hasDecodedStateKey (rawURI : string) : bool :=
  match Url.Parse rawURI with
  | None => true
  | Some parsed =>
      if URL_Fragment parsed != "" then true
      else let '(values, ok) := ParseQuery (URL_RawQuery parsed) in if negb ok then true else Has values "state"
  end.

Definition appendState (rawURI state : string) : string :=
  if state == "" then rawURI
  else rawURI +:+ (if contains_byte "?" rawURI then "&" else "?") +:+ "state=" +:+ QueryEscape state.

(** ** The ID Token hint *)

Section service.
Context {P : Platform} {C : TokenCodec} {H : HintCodec} {R : Repository} {L : ClientResolver} (s : Service).

(** The member loop of [uniqueJSONObjectFields]. *)
Fixpoint collect_fields (fields : gmap string bytes) (members : list (string * bytes)) : option (gmap string bytes) :=
  match members with
  | [] => Some fields
  | (name, value) :: rest =>
      if bool_decide (is_Some (fields !! name)) then None
      else if TrimSpace value == "null" then None
      else collect_fields (<[name := value]> fields) rest
  end.
Definition uniqueJSONObjectFields (payload : bytes) : option (gmap string bytes) :=
  match Object_Members payload with Some members => collect_fields ∅ members | None => None end.
Definition uniqueJSONObject (payload : bytes) : bool :=
  match uniqueJSONObjectFields payload with Some _ => true | None => false end.

(** [fields[name]]: an absent member is no bytes, which are no JSON. *)
Definition string_member (fields : gmap string bytes) (name : string) : option string :=
  match fields !! name with Some raw => Unmarshal_string raw | None => None end.

Definition validHintHeader (payload : bytes) : bool :=
  match uniqueJSONObjectFields payload with
  | None => false
  | Some fields =>
      if (size fields =? 3)%nat then
        match string_member fields "alg", string_member fields "kid", string_member fields "typ" with
        | Some algorithm, Some keyID, Some typ => (algorithm == "RS256") && (keyID != "") && (typ == "JWT")
        | _, _, _ => false
        end
      else false
  end.

Definition hint_header_ok (header : JoseHeader) : bool :=
  (Header_Algorithm header == "RS256") && (Header_KeyID header != "") && negb (Header_JSONWebKey header) &&
  (Header_Nonce header == "") && (Header_ExtraHeaders header == [("typ", Some "JWT")]).

Definition hint_claims_ok (claims : IDTokenClaims) (now : time) : bool :=
  let issuedAt := time_Unix (ID_IssuedAt claims) in
  let expiresAt := time_Unix (ID_ExpiresAt claims) in
  negb ((ID_Issuer claims != issuer s) || (ID_Audience claims == "") || (ID_AuthorizedParty claims != ID_Audience claims) ||
        (ID_Subject claims == "") || (maxHintSubjectBytes <? len (ID_Subject claims)) || contains_byte NUL (ID_Subject claims) ||
        (ID_IssuedAt claims <=? 0) || (ID_ExpiresAt claims <=? ID_IssuedAt claims) || (ID_AuthTime claims <=? 0) ||
        (maxIDTokenLifetime <? Time.Sub expiresAt issuedAt) || Time.After issuedAt (Time.Add now (clockSkew s))) &&
  (negb (Time.After now (Time.Add expiresAt (clockSkew s))) ||
   negb (Time.After now (Time.Add (Time.Add issuedAt (hintMaxAge s)) (clockSkew s)))).

(** The first of the three parts, which the caller has counted. *)
Definition first_part (compact : string) : string := (Cut "." compact).1.1.

Definition verifyHint (compact : string) (now : time) : option IDTokenClaims :=
  if (compact == "") || (maxCompactHintBytes <? len compact) || (TrimSpace compact != compact) || (Count "." compact != 2) then None
  else
    match Base64.DecodeString (first_part compact) with
    | None => None
    | Some headerBytes =>
        if negb (validHintHeader headerBytes) then None
        else
          match ParseSignedCompact compact with
          | Some [header] =>
              if negb (hint_header_ok header) then None
              else
                match matching_keys (Header_KeyID header) with
                | [key] =>
                    match Verify compact key with
                    | None => None
                    | Some payload =>
                        if negb (uniqueJSONObject payload) then None
                        else match Decode_IDTokenClaims payload with
                             | None => None
                             | Some claims => if hint_claims_ok claims now then Some claims else None
                             end
                    end
                | _ => None
                end
          | _ => None
          end
    end.

(** ** The operations *)

Definition with_client (client : Client) (subject : string) (t : LogoutTransaction) : LogoutTransaction :=
  mkLogoutTransaction (LT_ID t) (LT_LookupHash t) (LT_Stage t) (LT_CSRFHash t) (Some (Client_ID client)) (LT_PostLogoutRedirectURI t)
    (LT_State t) subject (LT_UserID t) (LT_SessionID t) (LT_SessionBindingID t) (LT_CreatedAt t) (LT_ExpiresAt t) (LT_BoundAt t)
    (LT_ConsumedAt t) (LT_AttemptCount t).
Definition with_redirect (uri state : string) (t : LogoutTransaction) : LogoutTransaction :=
  mkLogoutTransaction (LT_ID t) (LT_LookupHash t) (LT_Stage t) (LT_CSRFHash t) (LT_VerifiedClientID t) uri state (LT_HintSubject t)
    (LT_UserID t) (LT_SessionID t) (LT_SessionBindingID t) (LT_CreatedAt t) (LT_ExpiresAt t) (LT_BoundAt t) (LT_ConsumedAt t)
    (LT_AttemptCount t).

(** [Issued{}]. *)
Definition no_issue : Issued := mkIssued "" (mkLogoutTransaction uuid_Nil "" "" "" None "" "" "" None None None Time.zero Time.zero None None 0).

(** The authority a hint gives: [None] is the early return with a nil error, which a
    resolver that answers with another client would reach. *)
Definition hint_authority (input : StartInput) (now : time) (transaction : LogoutTransaction) : Tx (option LogoutTransaction) :=
  match verifyHint (StartInput_IDTokenHint input) now with
  | None => mret (Some transaction)
  | Some claims =>
      if (StartInput_ClientID input == "") || (StartInput_ClientID input == ID_Audience claims) then
        resolved ← attempt (ClientResolver_ResolveActive (ID_Audience claims));
        match resolved with
        | inl clientValue =>
            if Client_ClientID clientValue == ID_Audience claims then
              let transaction := with_client clientValue (ID_Subject claims) transaction in
              if exactLogoutURI clientValue (StartInput_PostLogoutRedirectURI input) &&
                 ((StartInput_State input == "") || negb (hasDecodedStateKey (StartInput_PostLogoutRedirectURI input)))
              then mret (Some (with_redirect (StartInput_PostLogoutRedirectURI input) (StartInput_State input) transaction))
              else mret (Some transaction)
            else mret None
        | inr e => if e == client_ErrNotFound then mret (Some transaction) else throw e
        end
      else mret (Some transaction)
  end.

Definition Start (input : StartInput) : Tx Issued :=
  reject_if (negb (validStartInput input)) logout_ErrInvalid;;
  secret ← lift_rand (newSecret lookupPrefix hashLookup);
  let '(lookup, lookupHash) := secret in
  id ← lift_rand (NewRandomFromReader (errors_New "logout transaction identifier generation failed"));
  let now := StartInput_Now input in
  let transaction := mkLogoutTransaction id lookupHash StagePreConfirm "" None "" "" "" None None None now (Time.Add now (ttl s)) None None 0 in
  authority ← hint_authority input now transaction;
  match authority with
  | None => mret no_issue
  | Some transaction =>
      Repository_CreateLogoutTransaction transaction;;
      mret (mkIssued lookup transaction)
  end.

Definition Bind (lookup : string) (principal : Principal) (now : time) : Tx Bound :=
  match DigestLookupToken lookup with
  | None => throw logout_ErrNotFound
  | Some lookupHash =>
      reject_if (negb (validPrincipal principal) || Time.IsZero now) logout_ErrNotFound;;
      secret ← lift_rand (newSecret csrfPrefix hashCSRF);
      let '(proof, proofHash) := secret in
      transaction ← Repository_BindLogoutTransaction (mkBindInput lookupHash proofHash (User_ID (Principal_User principal))
        (User_Subject (Principal_User principal)) (Principal_SessionID principal) (Principal_SessionBindingID principal) now
        (maxActive s) maxTransactionTries);
      reject_if ((LT_Stage transaction != StageBoundConfirmable) || (LT_SessionID transaction != Some (Principal_SessionID principal)) ||
                 (LT_UserID transaction != Some (User_ID (Principal_User principal))) || Time.IsZero (LT_ExpiresAt transaction))
        logout_ErrInvalid;;
      mret (mkBound proof (LT_ExpiresAt transaction) (LT_PostLogoutRedirectURI transaction))
  end.

(** The redirect of a confirmed logout, rechecked against the registry. *)
Definition delivered (candidate : CompletionCandidate) : Tx string :=
  match Candidate_VerifiedClientID candidate with
  | Some id =>
      if Candidate_PostLogoutRedirectURI candidate != "" then
        resolved ← attempt (ClientResolver_GetActive id);
        mret match resolved with
             | inl clientValue =>
                 if exactLogoutURI clientValue (Candidate_PostLogoutRedirectURI candidate) &&
                    ((Candidate_State candidate == "") || negb (hasDecodedStateKey (Candidate_PostLogoutRedirectURI candidate)))
                 then appendState (Candidate_PostLogoutRedirectURI candidate) (Candidate_State candidate) else ""
             | inr _ => ""
             end
      else mret ""
  | None => mret ""
  end.

Definition Complete (lookup csrfProof decision : string) (principal : Principal) (requestID : string) (now : time) : Tx Completion :=
  match DigestLookupToken lookup, DigestCSRFProof csrfProof with
  | _, None => throw logout_ErrCSRF
  | None, Some _ => throw logout_ErrNotFound
  | Some lookupHash, Some csrfHash =>
      reject_if (((decision != DecisionConfirm) && (decision != DecisionCancel)) || negb (validPrincipal principal) || Time.IsZero now)
        logout_ErrNotFound;;
      candidate ← Repository_CompleteLogoutTransaction (mkCompleteInput lookupHash csrfHash decision (User_ID (Principal_User principal))
        (Principal_SessionID principal) (Principal_SessionBindingID principal) requestID now maxTransactionTries);
      if negb (Candidate_Confirmed candidate) then mret (mkCompletion false "")
      else location ← delivered candidate; mret (mkCompletion true location)
  end.
End service.

(** ** The continuation cookie *)

Definition ConfirmPath : string := "/oauth2/logout/confirm".
Record CookieManager := mkCookieManager { Cookie_Name : string; Cookie_Secure : bool; Cookie_TTL : duration }.
Definition NewCookieManager (sessionCookieName : string) (secure : bool) (ttl : duration) : CookieManager :=
  let stem := TrimPrefix (TrimPrefix sessionCookieName "__Host-") "__Secure-" in
  let name := stem +:+ "_logout_transaction" in
  mkCookieManager (if secure then "__Secure-" +:+ name else name) secure ttl.

(** [int(ttl.Seconds())] cuts the fraction off. *)
Definition boundedCookieAge (ttl : duration) : Z :=
  let seconds := Z.quot ttl Time.Second in if seconds <? 1 then 1 else seconds.
End logout.
