(* ===== verification/Requests.v ===== *)
(** * The protocol requests

    [internal/oidc]: the strict readers of authorization, token, revocation, introspection
    and logout requests, the redirects that answer an authorization request, and the
    provider metadata.  The reader of an authorization request decides when an error may
    be sent to the redirect URI; the readers of the back-channel requests authenticate the
    client.  The error templates and the argument list of Fosite are parameters. *)

From S2P Require Import Prelude Text Base64 Errors Platform Scopes Domain Opaque SessionTokens Url AuditEvents Database.
From S2P Require Import Tx StoreCommon ServiceCommon TokenService FlowService IdentityService ClientService.

(** [fosite.RFC6749Error] and [fosite.Arguments.Has]. *)
Record RFC6749Error := mkRFC6749Error { ErrorField : string; CodeField : Z }.
Class Fosite := {
  ErrInvalidRequest : RFC6749Error;
  ErrInvalidClient : RFC6749Error;
  ErrInvalidGrant : RFC6749Error;
  ErrInvalidScope : RFC6749Error;
  ErrUnsupportedGrantType : RFC6749Error;
  Arguments_Has : list string → string → bool }.

(** [http.Header], by canonical name. *)
Definition Header : Type := gmap string (list string).
Definition Header_Values (h : Header) (name : string) : list string := default [] (h !! name).

(** [base64.StdEncoding.Strict()] on a text without line breaks: whole quanta, one or two
    padding characters at the end. *)
Definition strip_one (s : string) : string := if ends_with "=" s then str_take (String.length s - 1) s else s.
Definition strip_padding (s : string) : string := strip_one (strip_one s).
Definition StdDecodePadded (s : string) : option bytes :=
  if Z.rem (len s) 4 =? 0 then identity.StdDecode (strip_padding s) else None.

Module oidc.

Definition maxAuthorizeQueryBytes : Z := 8192.
Definition maxOpaqueParameterBytes : Z := 1024.
Definition maxAgeSeconds : Z := 30 * 24 * 60 * 60.
Definition maxBasicAuthorizationBytes : Z := 256.

Definition ErrorInvalidRequest : string := "invalid_request".
Definition ErrorUnauthorizedClient : string := "unauthorized_client".
Definition ErrorUnsupportedResponseType : string := "unsupported_response_type".
Definition ErrorInvalidScope : string := "invalid_scope".
Definition ErrorServerError : string := "server_error".
Definition ErrorTemporarilyUnavailable : string := "temporarily_unavailable".
Definition ErrorUnsupportedResponseMode : string := "unsupported_response_mode".
Definition ErrorLoginRequired : string := "login_required".
Definition ErrorConsentRequired : string := "consent_required".
Definition ErrorInteractionRequired : string := "interaction_required".
Definition ErrorAccessDenied : string := "access_denied".
Definition ErrorRequestNotSupported : string := "request_not_supported".
Definition ErrorRequestURINotSupported : string := "request_uri_not_supported".

Record AuthorizationError := mkAuthorizationError {
  AuthorizationError_Code : string; AuthorizationError_HTTPStatus : Z; AuthorizationError_SafeToRedirect : bool;
  AuthorizationError_RedirectURI : string; AuthorizationError_State : string }.

(** [PromptSet] is the canonical list of its values. *)
Definition Prompts_Has (values : list string) (value : string) : bool :=
  let index := sort_SearchStrings values value in
  (index <? length values)%nat && (values !! index == Some value).

Record VerifiedAuthorizationRequest := mkVerifiedAuthorizationRequest {
  Verified_Client : Client; Verified_RedirectURI : string; Verified_ResponseType : string; Verified_ResponseMode : string;
  Verified_Scopes : list string; Verified_PKCEChallenge : string; Verified_State : string; Verified_Nonce : string;
  Verified_Prompts : list string; Verified_MaxAge : option Z }.

(** [AuthorizationClientResolver] and [TokenClientResolver]: the client service is both. *)
Class ClientResolver := {
  ResolveActive : string → Tx Client;
  RedirectURIMatches : Client → string → bool;
  ValidateSecret : string → string → Tx Client }.
Definition client_resolver {P : Platform} (clients : client.Service) : ClientResolver := {|
  ResolveActive := client.ResolveActive;
  RedirectURIMatches := client.RedirectURIMatches clients;
  ValidateSecret := client.ValidateSecret |}.

Definition localAuthorizationError (code : string) (status : Z) : AuthorizationError := mkAuthorizationError code status false "" "".
Definition trustedError (redirectURI state code : string) : AuthorizationError := mkAuthorizationError code 302 true redirectURI state.

(** ** Values *)

Definition valid_text (value : string) : bool := utf8.ValidString value && negb (contains_byte NUL value).
Definition validQueryUTF8 (values : Values) : bool :=
  forallb (λ kv, valid_text kv.1 && forallb valid_text kv.2) (map_to_list values).

Definition validOpaqueParameter (value : string) : bool :=
  (1 <=? len value) && (len value <=? maxOpaqueParameterBytes) && utf8.ValidString value && negb (contains_byte NUL value).

Definition splitStrictSpaceList (raw : string) : option (list string) :=
  if (raw == "") || (TrimSpace raw != raw) || ContainsAny raw [TAB; CR; LF] then None
  else
    let parts := Split " " raw in
    if existsb (λ value, value == "") parts then None else Some parts.

(** The loop of [parseScope]; [result] holds what was seen, in order. *)
Fixpoint collect_scopes (allowed : list string) (result : list string) (parts : list string) : option (list string) :=
  match parts with
  | [] => Some result
  | scope :: rest =>
      if ((scope != "openid") && (scope != "profile") && (scope != "email") && (scope != "offline_access")) ||
         negb (bool_decide (scope ∈ allowed)) then None
      else collect_scopes allowed (if bool_decide (scope ∈ result) then result else result ++ [scope]) rest
  end.
Definition parseScope (raw : string) (allowed : list string) : option (list string) :=
  match splitStrictSpaceList raw with
  | None => None
  | Some parts =>
      match collect_scopes allowed [] parts with
      | None => None
      | Some result => if bool_decide ("openid" ∈ result) then Some (sort_Strings result) else None
      end
  end.

Definition validS256Challenge (value : string) : bool :=
  if len value != 43 then false
  else match Base64.DecodeString value with Some decoded => len decoded =? 32 | None => false end.

(** The loop of [parsePrompt]. *)
Fixpoint collect_prompts (seen : list string) (parts : list string) : option (list string) :=
  match parts with
  | [] => Some seen
  | value :: rest =>
      if (value != "none") && (value != "login") && (value != "consent") && (value != "create") then None
      else if bool_decide (value ∈ seen) then None
      else collect_prompts (value :: seen) rest
  end.
Definition parsePrompt (entries : list string) : option (list string) :=
  match entries with
  | [] => Some []
  | [entry] =>
      match splitStrictSpaceList entry with
      | None => None
      | Some parts =>
          match collect_prompts [] parts with
          | None => None
          | Some seen =>
              if (bool_decide ("none" ∈ seen) && negb (length seen =? 1)%nat) ||
                 (bool_decide ("create" ∈ seen) && bool_decide ("login" ∈ seen)) then None
              else Some (sort_Strings seen)
          end
      end
  | _ => None
  end.

(** [None] is a refusal, [Some None] an absent parameter. *)
Definition parseMaxAge (entries : list string) : option (option Z) :=
  match entries with
  | [] => Some None
  | [raw] =>
      if (raw == "") || ((1 <? len raw) && HasPrefix raw "0") then None
      else if negb (every (λ c, match digit c with Some _ => true | None => false end) raw) then None
      else match ParseUint raw 32 with
           | Some value => if maxAgeSeconds <? value then None else Some (Some value)
           | None => None
           end
  | _ => None
  end.

Definition many (values : Values) (name : string) : Z := Z.of_nat (length (values_at values name)).

(** ** The authorization request *)

Definition securityParameters : list string :=
  ["client_id"; "redirect_uri"; "response_type"; "response_mode"; "scope"; "code_challenge"; "code_challenge_method"; "state"; "nonce";
   "prompt"; "max_age"].

(** Everything after the redirect URI was matched: [inr] is the code of a trusted error. *)
Definition verify_parameters (values : Values) (clientValue : Client) (redirectURI state : string) : VerifiedAuthorizationRequest + string :=
  if existsb (λ name, 1 <? many values name) securityParameters then inr ErrorInvalidRequest
  else if 0 <? many values "request" then inr ErrorRequestNotSupported
  else if 0 <? many values "request_uri" then inr ErrorRequestURINotSupported
  else if existsb (λ required, (many values required != 1) || (Get values required == ""))
            ["response_type"; "scope"; "code_challenge"; "code_challenge_method"] then inr ErrorInvalidRequest
  else if (many values "state" == 1) && negb (validOpaqueParameter (Get values "state")) then inr ErrorInvalidRequest
  else if (many values "nonce" == 1) && negb (validOpaqueParameter (Get values "nonce")) then inr ErrorInvalidRequest
  else if Get values "response_type" != "code" then inr ErrorUnsupportedResponseType
  else if (many values "response_mode" == 1) && (Get values "response_mode" != "query") then inr ErrorUnsupportedResponseMode
  else match parseScope (Get values "scope") (Client_Scopes clientValue) with
  | None => inr ErrorInvalidScope
  | Some scopes =>
  let challenge := Get values "code_challenge" in
  if negb (validS256Challenge challenge) || (Get values "code_challenge_method" != "S256") then inr ErrorInvalidRequest
  else match parsePrompt (values_at values "prompt") with
  | None => inr ErrorInvalidRequest
  | Some prompts =>
  match parseMaxAge (values_at values "max_age") with
  | None => inr ErrorInvalidRequest
  | Some maxAge =>
      inl (mkVerifiedAuthorizationRequest clientValue redirectURI "code" "query" scopes challenge state (Get values "nonce") prompts maxAge)
  end end end.

Section resolver.
Context {P : Platform} {R : ClientResolver} {F : Fosite}.

(** The error is a value of the protocol: the reader itself never fails. *)
Definition ParseAuthorizationRequest (rawQuery : string) : Tx (VerifiedAuthorizationRequest + AuthorizationError) :=
  if (maxAuthorizeQueryBytes <? len rawQuery) || negb (utf8.ValidString rawQuery)
  then mret (inr (localAuthorizationError ErrorInvalidRequest 400))
  else
    let '(values, ok) := ParseQuery rawQuery in
    if negb ok || negb (validQueryUTF8 values) then mret (inr (localAuthorizationError ErrorInvalidRequest 400))
    else if (many values "client_id" != 1) || (Get values "client_id" == "") || (many values "redirect_uri" != 1) ||
            (Get values "redirect_uri" == "") then mret (inr (localAuthorizationError ErrorInvalidRequest 400))
    else
      resolved ← attempt (ResolveActive (Get values "client_id"));
      mret match resolved with
           | inr e => inr (if e == client_ErrNotFound then localAuthorizationError ErrorInvalidRequest 400
                           else localAuthorizationError ErrorServerError 500)
           | inl clientValue =>
               let redirectURI := Get values "redirect_uri" in
               if negb (RedirectURIMatches clientValue redirectURI) then inr (localAuthorizationError ErrorInvalidRequest 400)
               else
                 let state := if (many values "state" == 1) && validOpaqueParameter (Get values "state") then Get values "state" else "" in
                 match verify_parameters values clientValue redirectURI state with
                 | inl verified => inl verified
                 | inr code => inr (trustedError redirectURI state code)
                 end
           end.

(** ** Client authentication at the back-channel endpoints *)

Record TokenError := mkTokenError { TokenError_Code : string; TokenError_HTTPStatus : Z; TokenError_BasicChallenge : bool }.
Definition tokenError (template : RFC6749Error) (basic : bool) : TokenError :=
  mkTokenError (ErrorField template) (CodeField template) basic.

Definition hasASCIIControl (value : string) : bool := negb (every (λ c, negb ((utf8.byte c <? 32) || (utf8.byte c =? 127))) value).

Definition parseStrictBasic (value : string) : option (string * string) :=
  if (value == "") || (maxBasicAuthorizationBytes <? len value) || negb (utf8.ValidString value) || hasASCIIControl value ||
     contains_byte "," value then None
  else
    let '(scheme, encoded, found) := Cut " " value in
    if negb found || (scheme == "") || negb (EqualFold scheme "Basic") || (encoded == "") || contains_byte " " encoded then None
    else match StdDecodePadded encoded with
    | None => None
    | Some credential =>
        if negb (utf8.ValidString credential) || hasASCIIControl credential || (Count ":" credential != 1) then None
        else
          let '(encodedID, encodedSecret, _) := Cut ":" credential in
          match QueryUnescape encodedID, QueryUnescape encodedSecret with
          | Some clientID, Some secret =>
              if (clientID == "") || (secret == "") || negb (utf8.ValidString clientID) || negb (utf8.ValidString secret) ||
                 hasASCIIControl clientID || hasASCIIControl secret then None
              else Some (clientID, secret)
          | _, _ => None
          end
    end.

(** Whether the answer must challenge for Basic, and the client of a success. *)
Definition authenticateTokenClient (form : Values) (header : Header) : Tx (bool * option Client) :=
  match Header_Values header "Authorization" with
  | _ :: _ :: _ => mret (true, None)
  | [value] =>
      if many form "client_id" != 0 then mret (true, None)
      else match parseStrictBasic value with
      | None => mret (true, None)
      | Some (clientID, secret) =>
          validated ← attempt (ValidateSecret clientID secret);
          mret (true, match validated with
                      | inl value => if (Client_Type value != TypeConfidential) ||
                                        (Client_TokenEndpointAuthMethod value != AuthMethodClientSecretBasic) then None else Some value
                      | inr _ => None
                      end)
      end
  | [] =>
      if (many form "client_id" != 1) || (Get form "client_id" == "") then mret (false, None)
      else
        resolved ← attempt (ResolveActive (Get form "client_id"));
        mret match resolved with
             | inl value => if (Client_Type value != TypePublic) || (Client_TokenEndpointAuthMethod value != AuthMethodNone)
                            then (Client_Type value == TypeConfidential, None) else (false, Some value)
             | inr _ => (false, None)
             end
  end.

(** ** The token request *)

(** A nil list of scopes is [None]. *)
Record VerifiedTokenRequest := mkVerifiedTokenRequest {
  TokenRequest_GrantType : string; TokenRequest_Client : Client; TokenRequest_CodeHash : bytes; TokenRequest_RefreshTokenHash : bytes;
  TokenRequest_RedirectURI : string; TokenRequest_CodeVerifier : string; TokenRequest_Scopes : option (list string) }.

(** [validTokenFormUTF8] has the body of [validQueryUTF8]. *)
Definition validTokenFormUTF8 (form : Values) : bool :=
  forallb (λ kv, valid_text kv.1 && forallb valid_text kv.2) (map_to_list form).
Definition onlyTokenParameters (form : Values) (allowed : list string) : bool :=
  forallb (λ kv, bool_decide (kv.1 ∈ allowed)) (map_to_list form).

(** A nil error of [token.ErrInvalidScope] is [Some]. *)
Definition parseRefreshScope (raw : string) : option (list string) :=
  if (raw == "") || (TrimSpace raw != raw) || ContainsAny raw [TAB; CR; LF] then None
  else
    let parts := Split " " raw in
    if existsb (λ part, part == "") parts then None
    else match CanonicalScopes parts with
         | Some canonical => if (length canonical =? length parts)%nat then Some canonical else None
         | None => None
         end.

(** The view of the client that Fosite sees. *)
Definition GetGrantTypes (c : Client) : list string := ["authorization_code"; "refresh_token"].
Definition GetResponseTypes (c : Client) : list string := ["code"].
Definition GetScopes (c : Client) : list string :=
  sort_Strings (List.filter (λ scope, (scope == "openid") || (scope == "profile") || (scope == "email") || (scope == "offline_access"))
    (Client_Scopes c)).

(** The grants, once the client is authenticated. *)
Definition codeGrant (form : Values) (clientValue : Client) : VerifiedTokenRequest + TokenError :=
  if negb (onlyTokenParameters form ["grant_type"; "code"; "redirect_uri"; "code_verifier"; "client_id"; "scope"]) ||
     (Get form "code" == "") || (Get form "redirect_uri" == "") || (Get form "code_verifier" == "")
  then inr (tokenError ErrInvalidRequest false)
  else match Authorization.DigestPresentedCode (Get form "code") with
       | Some codeHash =>
           if negb (Authorization.ValidateVerifier (Get form "code_verifier")) then inr (tokenError ErrInvalidGrant false)
           else inl (mkVerifiedTokenRequest "authorization_code" clientValue codeHash "" (Get form "redirect_uri") (Get form "code_verifier") None)
       | None => inr (tokenError ErrInvalidGrant false)
       end.
Definition refreshGrant (form : Values) (clientValue : Client) : VerifiedTokenRequest + TokenError :=
  if negb (onlyTokenParameters form ["grant_type"; "refresh_token"; "client_id"; "scope"]) || (Get form "refresh_token" == "")
  then inr (tokenError ErrInvalidRequest false)
  else match Refresh.DigestPresentedRefreshToken (Get form "refresh_token") with
       | None => inr (tokenError ErrInvalidGrant false)
       | Some refreshHash =>
           if many form "scope" == 1 then
             match parseRefreshScope (Get form "scope") with
             | None => inr (tokenError ErrInvalidScope false)
             | Some scopes => inl (mkVerifiedTokenRequest "refresh_token" clientValue "" refreshHash "" "" (Some scopes))
             end
           else inl (mkVerifiedTokenRequest "refresh_token" clientValue "" refreshHash "" "" None)
       end.

Definition ParseTokenRequest (form : Values) (header : Header) : Tx (VerifiedTokenRequest + TokenError) :=
  if negb (validTokenFormUTF8 form) then mret (inr (tokenError ErrInvalidRequest false))
  else if (many form "grant_type" != 1) || (Get form "grant_type" == "") then mret (inr (tokenError ErrInvalidRequest false))
  else if existsb (λ parameter, 1 <? many form parameter)
            ["client_id"; "client_secret"; "scope"; "code"; "redirect_uri"; "code_verifier"; "refresh_token"]
  then mret (inr (tokenError ErrInvalidRequest false))
  else
    let grantType := Get form "grant_type" in
    if (grantType != "authorization_code") && (grantType != "refresh_token") then mret (inr (tokenError ErrUnsupportedGrantType false))
    else if many form "client_secret" != 0
    then mret (inr (tokenError ErrInvalidClient (negb (length (Header_Values header "Authorization") =? 0)%nat)))
    else
      authenticated ← authenticateTokenClient form header;
      mret match authenticated with
           | (challenged, None) => inr (tokenError ErrInvalidClient challenged)
           | (challenged, Some clientValue) =>
               if negb (Arguments_Has (GetGrantTypes clientValue) grantType) ||
                  ((grantType == "authorization_code") && negb (Arguments_Has (GetResponseTypes clientValue) "code"))
               then inr (tokenError ErrInvalidClient challenged)
               else if grantType == "authorization_code" then codeGrant form clientValue else refreshGrant form clientValue
           end.

(** ** Revocation and introspection *)

Record VerifiedLifecycleRequest := mkVerifiedLifecycleRequest {
  LifecycleRequest_Client : Client; LifecycleRequest_Token : string; LifecycleRequest_Hint : string }.

Definition validLifecycleForm (form : Values) : bool :=
  negb ((many form "token" != 1) || (Get form "token" == "") || (1 <? many form "token_type_hint") || (1 <? many form "client_id") ||
        (1 <? many form "client_secret")) &&
  forallb (λ kv, bool_decide (kv.1 ∈ ["token"; "token_type_hint"; "client_id"; "client_secret"])) (map_to_list form).

Definition ParseRevocationRequest (form : Values) (header : Header) : Tx (VerifiedLifecycleRequest + TokenError) :=
  if negb (validTokenFormUTF8 form) || negb (validLifecycleForm form) then mret (inr (tokenError ErrInvalidRequest false))
  else if many form "client_secret" != 0
  then mret (inr (tokenError ErrInvalidClient (negb (length (Header_Values header "Authorization") =? 0)%nat)))
  else
    authenticated ← authenticateTokenClient form header;
    mret match authenticated with
         | (challenged, None) => inr (tokenError ErrInvalidClient challenged)
         | (_, Some clientValue) => inl (mkVerifiedLifecycleRequest clientValue (Get form "token") (Get form "token_type_hint"))
         end.

Definition ParseIntrospectionRequest (form : Values) (header : Header) : Tx (VerifiedLifecycleRequest + TokenError) :=
  if negb (validTokenFormUTF8 form) || negb (validLifecycleForm form) then mret (inr (tokenError ErrInvalidRequest false))
  else if many form "client_secret" != 0 then mret (inr (tokenError ErrInvalidClient true))
  else
    authenticated ← authenticateTokenClient form header;
    mret match authenticated with
         | (_, None) => inr (tokenError ErrInvalidClient true)
         | (challenged, Some clientValue) =>
             if (Client_Type clientValue != TypeConfidential) || (Client_TokenEndpointAuthMethod clientValue != AuthMethodClientSecretBasic)
             then inr (tokenError ErrInvalidClient (challenged || (Client_Type clientValue != TypeConfidential)))
             else inl (mkVerifiedLifecycleRequest clientValue (Get form "token") (Get form "token_type_hint"))
         end.
End resolver.

(** ** The logout request *)

Record LogoutRequest := mkLogoutRequest {
  LogoutRequest_IDTokenHint : string; LogoutRequest_ClientID : string; LogoutRequest_LogoutHint : string;
  LogoutRequest_PostLogoutRedirectURI : string; LogoutRequest_State : string; LogoutRequest_UILocales : string }.
Definition logout_limits : gmap string Z :=
  list_to_map [("id_token_hint", 8192); ("client_id", 128); ("logout_hint", 1024); ("post_logout_redirect_uri", 2048); ("state", 1024);
               ("ui_locales", 1024)].
Definition valid_logout_field (kv : string * list string) : bool :=
  match logout_limits !! kv.1, kv.2 with
  | Some maximum, [value] => negb ((value == "") || (maximum <? len value) || negb (valid_text value))
  | _, _ => false
  end.
Definition ParseLogoutRequest (values : Values) : option LogoutRequest :=
  if forallb valid_logout_field (map_to_list values) then
    Some (mkLogoutRequest (Get values "id_token_hint") (Get values "client_id") (Get values "logout_hint")
            (Get values "post_logout_redirect_uri") (Get values "state") (Get values "ui_locales"))
  else None.

(** ** Redirects *)

Definition reservedAuthorizationResponseParameters : list string := ["code"; "error"; "error_description"; "error_uri"; "state"].
Definition Del (values : Values) (name : string) : Values := delete name values.

Definition response_entry_invalid (kv : string * list string) : bool :=
  negb (length kv.2 =? 1)%nat || ((kv.1 != "code") && (kv.1 != "error") && (kv.1 != "state")).
(** The merged query: reserved parameters of the registered URI go, those of the response
    are set. *)
Definition merged_query (rawQuery : string) (response : Values) : Values :=
  ((λ entries, [default "" (head entries)]) <$> response) ∪
  fold_left Del reservedAuthorizationResponseParameters (ParseQuery rawQuery).1.

Definition BuildAuthorizationRedirect (registered : string) (response : Values) : option string :=
  match Url.Parse registered with
  | None => None
  | Some parsed =>
      if negb (IsAbs parsed) || (URL_Host parsed == "") || (URL_User parsed != None) || (URL_Fragment parsed != "") || (URL_Opaque parsed != "")
      then None
      else if existsb response_entry_invalid (map_to_list response) then None
      else Some (URL_String (with_raw_query (Encode_values (merged_query (URL_RawQuery parsed) response)) parsed))
  end.

(** [url.Values{name: {value}}] and, if [state] is not empty, [Set("state", state)]. *)
Definition response_values (name value state : string) : Values :=
  if state != "" then <["state" := [state]]> {[ name := [value] ]} else {[ name := [value] ]}.

Definition BuildAuthorizationSuccessRedirect (registered code state : string) : option string :=
  if (code == "") || (256 <? len code) || ContainsAny code [CR; LF; TAB; " "%char] then None
  else BuildAuthorizationRedirect registered (response_values "code" code state).

Definition validErrorCode (code : string) : bool :=
  bool_decide (code ∈ [ErrorInvalidRequest; ErrorUnauthorizedClient; ErrorUnsupportedResponseType; ErrorInvalidScope; ErrorServerError;
    ErrorTemporarilyUnavailable; ErrorUnsupportedResponseMode; ErrorLoginRequired; ErrorConsentRequired; ErrorInteractionRequired;
    ErrorAccessDenied; ErrorRequestNotSupported; ErrorRequestURINotSupported]).

Definition BuildAuthorizationErrorRedirect (e : AuthorizationError) : option string :=
  if negb (AuthorizationError_SafeToRedirect e) || (AuthorizationError_RedirectURI e == "") || negb (validErrorCode (AuthorizationError_Code e))
  then None
  else BuildAuthorizationRedirect (AuthorizationError_RedirectURI e)
         (response_values "error" (AuthorizationError_Code e) (AuthorizationError_State e)).

(** ** The provider metadata *)

Definition DiscoveryPath : string := "/.well-known/openid-configuration".
Definition AuthorizePath : string := "/oauth2/authorize".
Definition AuthorizeContinuePath : string := "/oauth2/authorize/continue".
Definition TokenPath : string := "/oauth2/token".
Definition RevocationPath : string := "/oauth2/revoke".
Definition IntrospectionPath : string := "/oauth2/introspect".
Definition LogoutPath : string := "/oauth2/logout".
Definition LogoutConfirmPath : string := "/oauth2/logout/confirm".
Definition UserInfoPath : string := "/oauth2/userinfo".
Definition JWKSPath : string := "/oauth2/jwks".

Record ProviderMetadata := mkProviderMetadata {
  Meta_Issuer : string; Meta_AuthorizationEndpoint : string; Meta_TokenEndpoint : string; Meta_RevocationEndpoint : string;
  Meta_IntrospectionEndpoint : string; Meta_EndSessionEndpoint : string; Meta_UserInfoEndpoint : string; Meta_JWKSURI : string;
  Meta_ResponseTypes : list string; Meta_ResponseModes : list string; Meta_GrantTypes : list string; Meta_SubjectTypes : list string;
  Meta_SigningAlgorithms : list string; Meta_TokenAuthMethods : list string; Meta_RevocationAuthMethods : list string;
  Meta_IntrospectionAuthMethods : list string; Meta_Scopes : list string; Meta_Claims : list string;
  Meta_ChallengeMethods : list string; Meta_Prompts : list string }.

Definition endpoint (issuer : URL) (path : string) : string := URL_String (with_path path issuer).

(** [endSession] is whether [WithEndSessionEndpoint] is among the options. *)
Definition BuildProviderMetadata (issuer : URL) (endSession : bool) : option ProviderMetadata :=
  if negb (IsAbs issuer) || (URL_Host issuer == "") || (URL_User issuer != None) || (URL_Opaque issuer != "") ||
     ((URL_Scheme issuer != "http") && (URL_Scheme issuer != "https")) || (URL_Path issuer != "") || (URL_RawPath issuer != "") ||
     (URL_RawQuery issuer != "") || URL_ForceQuery issuer || (URL_Fragment issuer != "")
  then None
  else Some (mkProviderMetadata (URL_String issuer) (endpoint issuer AuthorizePath) (endpoint issuer TokenPath)
    (endpoint issuer RevocationPath) (endpoint issuer IntrospectionPath)
    (if endSession then URL_String issuer +:+ LogoutPath else "") (endpoint issuer UserInfoPath) (endpoint issuer JWKSPath)
    ["code"] ["query"] ["authorization_code"; "refresh_token"] ["public"] ["RS256"] ["none"; "client_secret_basic"]
    ["none"; "client_secret_basic"] ["client_secret_basic"] ["openid"; "profile"; "email"; "offline_access"]
    ["sub"; "iss"; "aud"; "exp"; "iat"; "auth_time"; "nonce"; "azp"; "name"; "preferred_username"; "email"; "email_verified"]
    ["S256"] ["none"; "login"; "consent"; "create"]).
End oidc.
