(* ===== verification/Endpoints.v ===== *)
(** * The protocol endpoints

    The handlers of [internal/httpserver] that drive the authorization, consent, token,
    UserInfo, revocation and introspection endpoints, the hosted login and registration
    forms and the two logouts: what they read of a request, which services they call in
    which order, and what they answer.  The readings of the clock are an argument ([clock k],
    one [k] for each reading along a path); so are the answers of the rate limiters.
    The parser of media types is a parameter. *)

From S2P Require Import Prelude Text Base64 Errors Platform Scopes Domain Opaque SessionTokens Url AuditEvents Database.
From S2P Require Import Tx StoreCommon ServiceCommon ConsentStore LogoutStore TokenService AuthorizationService SessionService FlowService IdentityService.
From S2P Require Import AuthnService ClientService AdminService LogoutService Requests.

(** [mime.ParseMediaType]: the media type and its parameters. *)
Class HttpLibrary := { ParseMediaType : string → option (string * list (string * string)) }.

(** [errors.Is] along the [Unwrap] chain. *)
Fixpoint errors_Is (e target : error) : bool :=
  (e == target) ||
  match e with
  | identity_ValidationError _ _ => target == identity_ErrInvalidInput
  | client_ValidationError _ _ => target == client_ErrInvalid
  | auditAppendError _ inner => errors_Is inner target
  | _ => false
  end.

Module httpserver.

Definition maxConsentBodyBytes : Z := 8192.
Definition maxTokenBodyBytes : Z := 8192.
Definition maxUserInfoBodyBytes : Z := 8192.
Definition maxBearerTokenBytes : Z := 16384.
Definition maxAuthorizationHdrBytes : Z := 24576.
Definition maxAuthBodyBytes : Z := 65536.
Definition maxLogoutRequestBytes : Z := 8192.
Definition form_media_type : string := "application/x-www-form-urlencoded".

(** What a handler reads of a request; [Request_Body] is [None] when reading fails, and
    [Request_Cookie] answers the empty string for a cookie that is not there. *)
Record Request := mkRequest {
  Request_Method : string; Request_Path : string; Request_URI : string; Request_RawQuery : string; Request_ForceQuery : bool; Request_Header : Header;
  Request_ContentLength : Z; Request_Body : option bytes; Request_Cookie : string → string; Request_UserAgent : string;
  Request_ClientIP : Addr; Request_ID : string }.

Definition Header_Get (h : Header) (name : string) : string := default "" (head (Header_Values h name)).
(** [io.ReadAll] of the body behind [http.MaxBytesReader]. *)
Definition read_body (request : Request) (limit : Z) : option bytes :=
  match Request_Body request with Some body => if limit <? len body then None else Some body | None => None end.
(** [request.URL.Query()] drops what does not parse. *)
Definition url_query (request : Request) : Values := (ParseQuery (Request_RawQuery request)).1.

(** [session.CookieManager]. *)
Record CookieManager := mkCookieManager {
  SessionName : string; PreAuthName : string; CSRFName : string; Secure : bool; SessionTTL : duration; PreAuthTTL : duration }.
Definition NewCookieManager (sessionName : string) (secure : bool) (sessionTTL preAuthTTL : duration) : CookieManager :=
  let prefix := if HasPrefix sessionName "__Host-" then "__Host-" else "" in
  let stem := TrimPrefix sessionName prefix in
  mkCookieManager sessionName (prefix +:+ stem +:+ "_preauth") (prefix +:+ stem +:+ "_csrf") secure sessionTTL preAuthTTL.

(** What a response does to the browser's cookies. *)
Inductive CookieChange :=
| SetAuthenticated (issued : SessionTokens.Issued)
| SetPreAuth (issued : IssuedPreAuth)
| SetCSRF (token : string)
| ClearAuthenticated
| SetLogout (lookup : string)
| ClearLogout.

Inductive Page :=
| NoBody
| ErrorPage (code : string)
| APIError (code message : string)
| AuthForm (mode csrf transaction errorCode : string)
| CompletePage (displayName csrf : string)
| ConsentPage (clientName : string) (scopes : list (string * bool)) (token csrf formActions : string)
| LogoutConfirmationPage (proof formActions : string)
| LogoutResultPage (result : string)
| OAuthErrorJSON (code : string)
| TokenJSON (response : Response)
| UserInfoJSON (userinfo : UserInfo)
| IntrospectionJSON (response : IntrospectionResponse)
| MetadataJSON (metadata : oidc.ProviderMetadata)
| KeysJSON (etag : string) (encoded : bytes)
| KeysUnchanged (etag : string)
| MeJSON (user : User) (session : uuid)
| SessionsJSON (items : list Summary) (next : string)
| UsersJSON (items : list User) (next : string)
| UserJSON (user : User)
| ClientsJSON (items : list Client) (next : string)
| ClientJSON (value : Client)
| CreatedClientJSON (created : client.Created)
| SecretJSON (secret : string)
| RevokedJSON (count : Z)
| AuditJSON (items : list AuditEvent) (next : string)
| GrantsJSON (items : list ManagedGrant) (next : string)
| GrantJSON (grant : ManagedGrant).

Record HTTPResponse := mkHTTPResponse {
  Status : Z; Location : option string; WWWAuthenticate : option string; Cookies : list CookieChange; Body : Page }.

Definition page (status : Z) (body : Page) : HTTPResponse := mkHTTPResponse status None None [] body.
Definition renderErrorPage (status : Z) (code : string) : HTTPResponse := page status (ErrorPage code).
Definition writeError (status : Z) (code message : string) : HTTPResponse := page status (APIError code message).
Definition methodNotAllowed : HTTPResponse := writeError 405 "method_not_allowed" "method not allowed".
Definition redirect (status : Z) (location : string) : HTTPResponse := mkHTTPResponse status (Some location) None [] NoBody.
Definition with_cookies (cookies : list CookieChange) (r : HTTPResponse) : HTTPResponse :=
  mkHTTPResponse (Status r) (Location r) (WWWAuthenticate r) (cookies ++ Cookies r) (Body r).

(** ** Forms, origins and policies *)

(** [(&url.URL{Path: path, RawQuery: url.Values{"transaction": {token}}.Encode()}).String()]. *)
Definition browser_flow_location (path transactionToken : string) : string :=
  URL_String (mkURL "" "" None "" path "" false false (Encode_values {[ "transaction" := [transactionToken] ]}) "" "").
Definition redirectToBrowserFlow (path transactionToken : string) : HTTPResponse := redirect 303 (browser_flow_location path transactionToken).

Definition sameOrigin (issuer : URL) (request : Request) : bool :=
  let check (origin : string) : bool :=
    match Url.Parse origin with
    | None => false
    | Some parsed =>
        if ((URL_Path parsed != "") && (URL_Path parsed != "/")) || (URL_RawQuery parsed != "") || (URL_Fragment parsed != "") then false
        else EqualFold (URL_Scheme parsed) (URL_Scheme issuer) && EqualFold (URL_Host parsed) (URL_Host issuer)
    end in
  let origin := TrimSpace (Header_Get (Request_Header request) "Origin") in
  if origin == "" then
    let referer := TrimSpace (Header_Get (Request_Header request) "Referer") in
    if referer == "" then true
    else match Url.Parse referer with
         | None => false
         | Some parsed => check (URL_Scheme parsed +:+ "://" +:+ URL_Host parsed)
         end
  else check origin.

Definition matchesIssuerOrigin (issuer : URL) (raw : string) (allowResourcePath : bool) : bool :=
  match Url.Parse raw with
  | None => false
  | Some parsed =>
      if negb (IsAbs parsed) || (URL_User parsed != None) || (URL_Opaque parsed != "") || (URL_Fragment parsed != "") then false
      else if negb allowResourcePath &&
              (((URL_Path parsed != "") && (URL_Path parsed != "/")) || (URL_RawQuery parsed != "") || URL_ForceQuery parsed) then false
      else EqualFold (URL_Scheme parsed) (URL_Scheme issuer) && EqualFold (URL_Host parsed) (URL_Host issuer)
  end.
Definition strictSameOrigin (issuer : URL) (request : Request) : bool :=
  let h := Request_Header request in
  if (1 <? length (Header_Values h "Origin"))%nat || (1 <? length (Header_Values h "Referer"))%nat then false
  else
    let origin := TrimSpace (Header_Get h "Origin") in
    let referer := TrimSpace (Header_Get h "Referer") in
    if (origin == "") && (referer == "") then false
    else if (origin != "") && negb (matchesIssuerOrigin issuer origin false) then false
    else (referer == "") || matchesIssuerOrigin issuer referer true.

Definition sameClearToken (left right : string) : bool := left == right.

Section forms.
Context {M : HttpLibrary} {T : TextLibrary}.

(** The origins [setFormActionPolicy] lets a form be sent to. *)
Definition form_origin (raw : string) : option string :=
  match Url.Parse raw with
  | None => None
  | Some parsed =>
      if negb (IsAbs parsed) || (URL_Host parsed == "") || (URL_User parsed != None) || (URL_Fragment parsed != "") then None
      else
        let scheme := ToLower (URL_Scheme parsed) in
        if (scheme != "http") && (scheme != "https") then None else Some (scheme +:+ "://" +:+ ToLower (URL_Host parsed))
  end.
Fixpoint form_actions (actions : list string) (destinations : list string) : list string :=
  match destinations with
  | [] => actions
  | raw :: rest =>
      match form_origin raw with
      | None => form_actions actions rest
      | Some origin => form_actions (if bool_decide (origin ∈ actions) then actions else actions ++ [origin]) rest
      end
  end.
Definition setFormActionPolicy (destinations : list string) : string :=
  "default-src 'none'; form-action " +:+ join_on " " (form_actions ["'self'"] destinations) +:+ "; base-uri 'none'; frame-ancestors 'none'".

(** [request.ParseForm] of a POST: the values of the body. *)
Definition ParseForm (request : Request) (limit : Z) : option Values :=
  let contentType := Header_Get (Request_Header request) "Content-Type" in
  match ParseMediaType (if contentType == "" then "application/octet-stream" else contentType) with
  | None => None
  | Some (mediaType, _) =>
      let query_ok := (ParseQuery (Request_RawQuery request)).2 in
      if mediaType == form_media_type then
        match read_body request limit with
        | None => None
        | Some body => let '(values, ok) := ParseQuery body in if ok && query_ok then Some values else None
        end
      else if query_ok then Some ∅ else None
  end.

Definition parseAuthForm (request : Request) (allowed : list string) : option Values :=
  if negb (HasPrefix (ToLower (Header_Get (Request_Header request) "Content-Type")) form_media_type) then None
  else match ParseForm request maxAuthBodyBytes with
       | None => None
       | Some form =>
           if existsb (λ kv, negb (bool_decide (kv.1 ∈ allowed)) || negb (length kv.2 =? 1)%nat) (map_to_list form) then None
           else if existsb (λ key, negb (length (values_at form key) =? 1)%nat) allowed then None
           else Some form
       end.

Definition validAuthQuery (values : Values) : bool :=
  forallb (λ kv, (kv.1 == "transaction") || (kv.1 == "lang")) (map_to_list values) &&
  (oidc.many values "transaction" <=? 1) && (oidc.many values "lang" <=? 1).

Definition validConsentQuery (values : Values) : bool :=
  forallb (λ kv, (kv.1 == "transaction") || (kv.1 == "lang")) (map_to_list values) &&
  (oidc.many values "transaction" == 1) && (Get values "transaction" != "") && (oidc.many values "lang" <=? 1).

Definition consent_fields : list string := ["transaction"; "csrf_token"; "decision"].
Definition parseConsentForm (request : Request) : option Values :=
  if (Request_RawQuery request != "") || negb (length (Header_Values (Request_Header request) "Content-Type") =? 1)%nat then None
  else match ParseMediaType (Header_Get (Request_Header request) "Content-Type") with
  | None => None
  | Some (mediaType, parameters) =>
      if (mediaType != form_media_type) || (parameters != []) then None
      else match ParseForm request maxConsentBodyBytes with
      | None => None
      | Some form =>
          if negb (size form =? length consent_fields)%nat then None
          else if existsb (λ kv, negb (bool_decide (kv.1 ∈ consent_fields)) || negb (length kv.2 =? 1)%nat ||
                                 (TrimSpace (default "" (head kv.2)) != default "" (head kv.2)) || (default "" (head kv.2) == ""))
                    (map_to_list form) then None
          else if (Get form "decision" != "approve") && (Get form "decision" != "deny") then None
          else Some form
      end
  end.

(** [parseTokenForm]: the values of the body, which must not be empty. *)
Definition parseTokenForm (request : Request) : option Values :=
  if (Request_RawQuery request != "") || Request_ForceQuery request ||
     negb (length (Header_Values (Request_Header request) "Content-Type") =? 1)%nat then None
  else match ParseMediaType (Header_Get (Request_Header request) "Content-Type") with
  | None => None
  | Some (mediaType, parameters) =>
      if negb (EqualFold mediaType form_media_type) || (parameters != []) then None
      else if maxTokenBodyBytes <? Request_ContentLength request then None
      else match read_body request maxTokenBodyBytes with
           | None => None
           | Some encoded =>
               if encoded == "" then None
               else let '(values, ok) := ParseQuery encoded in if ok then Some values else None
           end
  end.

Definition parseUserInfoBearer (request : Request) : option string :=
  if (Request_RawQuery request != "") || Request_ForceQuery request then None
  else if maxUserInfoBodyBytes <? Request_ContentLength request then None
  else if read_body request maxUserInfoBodyBytes != Some "" then None
  else match Header_Values (Request_Header request) "Authorization" with
       | [value] =>
           if maxAuthorizationHdrBytes <? len value then None
           else
             let '(scheme, compact, found) := Cut " " value in
             if negb found || (len scheme != 6) || negb (EqualFold scheme "Bearer") || (compact == "") ||
                ContainsAny compact [" "%char; TAB; CR; LF; ","%char] then None
             else if (maxBearerTokenBytes <? len compact) || (Count "." compact != 2) then None
             else Some compact
       | _ => None
       end.
End forms.

(** ** The application *)

(** [applicationHandler]: every service is configured; [app_public_keys] are the JWKS bytes
    and their ETag. *)
Record Application := mkApplication {
  app_clients : client.Service; app_transactions : authflow.Service; app_sessions : SessionService;
  app_authorization : AuthorizationService; app_tokens : Service; app_authn : authn.Service; app_logout : logout.Service;
  app_cookies : CookieManager; app_logout_cookies : logout.CookieManager; app_issuer : URL; app_admin : admin.Service;
  app_public_keys : bytes * string; app_metadata : oidc.ProviderMetadata }.

(** The prompts of a transaction are a sorted list. *)
Definition transactionHasPrompt (transaction : Transaction) (value : string) : bool :=
  let index := sort_SearchStrings (Transaction_Prompts transaction) value in
  (index <? length (Transaction_Prompts transaction))%nat && (Transaction_Prompts transaction !! index == Some value).

Definition authorizationNeedsReauthentication (transaction : Transaction) (authenticatedAt now : time) : bool :=
  if transactionHasPrompt transaction "login" && Time.Before authenticatedAt (Transaction_CreatedAt transaction) then true
  else match Transaction_MaxAgeSeconds transaction with
       | None => false
       | Some age =>
           if age =? 0 then Time.Before authenticatedAt (Transaction_CreatedAt transaction)
           else Time.After now (Time.Add authenticatedAt (age * Time.Second))
       end.

(** The request context a verified authorization request gives the flow service. *)
Definition verified_input (verified : oidc.VerifiedAuthorizationRequest) : authflow.VerifiedInput :=
  authflow.mkVerifiedInput (Client_ID (oidc.Verified_Client verified)) (oidc.Verified_RedirectURI verified) (oidc.Verified_Scopes verified)
    (oidc.Verified_PKCEChallenge verified) (oidc.Verified_State verified) (oidc.Verified_Nonce verified)
    (oidc.Prompts_Has (oidc.Verified_Prompts verified) "create") (oidc.Verified_ResponseType verified) (oidc.Verified_ResponseMode verified)
    (oidc.Verified_Prompts verified) (oidc.Verified_MaxAge verified).

Definition writeAuthorizationError (e : oidc.AuthorizationError) : HTTPResponse :=
  if negb (oidc.AuthorizationError_SafeToRedirect e) then
    let status := oidc.AuthorizationError_HTTPStatus e in
    renderErrorPage (if (status <? 400) || (599 <? status) then 400 else status) (oidc.AuthorizationError_Code e)
  else match oidc.BuildAuthorizationErrorRedirect e with
       | None => renderErrorPage 500 "server_error"
       | Some location => redirect 302 location
       end.

Definition writeOAuthError (e : oidc.TokenError) : HTTPResponse :=
  let code := if oidc.TokenError_Code e != "" then oidc.TokenError_Code e else "server_error" in
  let status := if (400 <=? oidc.TokenError_HTTPStatus e) && (oidc.TokenError_HTTPStatus e <=? 599) then oidc.TokenError_HTTPStatus e else 500 in
  mkHTTPResponse (if oidc.TokenError_Code e == "invalid_client" then 401 else status) None
    (if oidc.TokenError_BasicChallenge e then Some "Basic" else None) [] (OAuthErrorJSON code).
Definition writeBearerError (code : string) (status : Z) : HTTPResponse :=
  mkHTTPResponse status None (Some "Bearer") [] (OAuthErrorJSON code).
Definition writeOAuthRateLimitResponse (request : Request) : HTTPResponse :=
  if Request_Path request == oidc.LogoutPath then renderErrorPage 429 "temporarily_unavailable"
  else if Request_Path request == oidc.UserInfoPath then writeBearerError "temporarily_unavailable" 429
  else writeOAuthError (oidc.mkTokenError "temporarily_unavailable" 429 false).
Definition server_error : oidc.TokenError := oidc.mkTokenError "server_error" 500 false.

Section handlers.
Context {P : Platform} {C : TokenCodec} {H : logout.HintCodec} {T : TextLibrary} {K : KeyDerivation} {F : Fosite} {M : HttpLibrary}.
Context (a : Application).
#[local] Instance resolver : oidc.ClientResolver := oidc.client_resolver (app_clients a).

Definition session_cookie (request : Request) : string := Request_Cookie request (SessionName (app_cookies a)).
Definition csrf_cookie (request : Request) : string := Request_Cookie request (CSRFName (app_cookies a)).
Definition preauth_cookie (request : Request) : string := Request_Cookie request (PreAuthName (app_cookies a)).

(** ** Authorization and consent *)

Definition terminateAuthorization (request : Request) (transaction : Transaction) (code reason : string) (actor : option uuid)
    (now : time) : Tx HTTPResponse :=
  rejected ← attempt (authflow.Reject transaction reason actor (Request_ID request) now);
  let code := match rejected with inl _ => code | inr _ => oidc.ErrorServerError end in
  mret (writeAuthorizationError (oidc.trustedError (Transaction_RedirectURI transaction) (Transaction_State transaction) code)).

Definition flow_error (e : error) : bool :=
  errors_Is e authz_ErrConsumed || errors_Is e authz_ErrExpired || errors_Is e authz_ErrNotFound || errors_Is e authz_ErrInvalid.

Definition issueAuthorizationCode (request : Request) (transactionToken : string) (transaction : Transaction) (principal : Principal)
    (interactive : bool) (now later : time) : Tx HTTPResponse :=
  issued ← attempt (Issue (app_authorization a) transaction (User_ID (Principal_User principal)) (Principal_SessionID principal)
    (Principal_SessionBindingID principal) (Principal_AuthenticatedAt principal) interactive (Request_ID request) now);
  match issued with
  | inr e =>
      if flow_error e then mret (renderErrorPage 400 "invalid_authentication_flow")
      else if errors_Is e authz_ErrConsentRequired && negb (transactionHasPrompt transaction "none")
      then mret (redirectToBrowserFlow "/consent" transactionToken)
      else terminateAuthorization request transaction oidc.ErrorServerError "server_error" (Some (User_ID (Principal_User principal))) later
  | inl i =>
      mret match oidc.BuildAuthorizationSuccessRedirect (Transaction_RedirectURI transaction) (Issued_Code i) (Transaction_State transaction) with
           | None => renderErrorPage 500 "server_error"
           | Some location => redirect 302 location
           end
  end.

Definition evaluateAuthorization (userID : uuid) (transaction : Transaction) : Tx (Client * Evaluation) :=
  match Transaction_ClientID transaction with
  | None => throw authz_ErrInvalid
  | Some id =>
      reject_if (id == uuid_Nil) authz_ErrInvalid;;
      clientValue ← replace_error authz_ErrInactive (client.GetActive id);
      reject_if (negb (client.RedirectURIMatches (app_clients a) clientValue (Transaction_RedirectURI transaction))) authz_ErrInactive;;
      evaluation ← Evaluate userID clientValue (Transaction_Scopes transaction);
      mret (clientValue, evaluation)
  end.

(** The answer to a browser without a session: a hosted form, or the end of the flow. *)
Definition unauthenticated (request : Request) (token : string) (transaction : Transaction) (now : time) : Tx HTTPResponse :=
  if transactionHasPrompt transaction "none" then
    terminateAuthorization request transaction oidc.ErrorLoginRequired "login_required" None now
  else if transactionHasPrompt transaction "create" then
    allowed ← authn.CanRegister (app_authn a) transaction;
    if negb allowed then terminateAuthorization request transaction oidc.ErrorInteractionRequired "interaction_required" None now
    else mret (redirectToBrowserFlow "/register" token)
  else mret (redirectToBrowserFlow "/login" token).

(** The checks on the session of the browser: [inr] is an answer. *)
Definition session_checks (request : Request) (token : string) (transaction : Transaction) (principal : Principal) (now later : time)
    : Tx (Principal + HTTPResponse) :=
  let user := User_ID (Principal_User principal) in
  if transactionHasPrompt transaction "create" && negb (Time.After (Principal_AuthenticatedAt principal) (Transaction_CreatedAt transaction)) then
    r ← terminateAuthorization request transaction oidc.ErrorInteractionRequired "interaction_required" (Some user) later; mret (inr r)
  else if authorizationNeedsReauthentication transaction (Principal_AuthenticatedAt principal) now then
    if transactionHasPrompt transaction "none" then
      r ← terminateAuthorization request transaction oidc.ErrorLoginRequired "login_required" (Some user) later; mret (inr r)
    else mret (inr (redirectToBrowserFlow "/login" token))
  else mret (inl principal).

(** [consentPrincipal]; [advanceAuthorization] opens with the same steps. *)
Definition consentPrincipal (request : Request) (token : string) (transaction : Transaction) (now1 now2 later : time)
    : Tx (Principal + HTTPResponse) :=
  authenticated ← attempt (Authenticate (app_sessions a) (session_cookie request) now1);
  match authenticated with
  | inr e =>
      if negb (errors_Is e session_ErrUnauthenticated) then
        r ← terminateAuthorization request transaction oidc.ErrorServerError "server_error" None later; mret (inr r)
      else r ← unauthenticated request token transaction later; mret (inr r)
  | inl principal => session_checks request token transaction principal now2 later
  end.

Definition advanceAuthorization (request : Request) (token : string) (transaction : Transaction) (clock : nat → time) : Tx HTTPResponse :=
  let now := clock 1%nat in
  checked ← consentPrincipal request token transaction now now (clock 2%nat);
  match checked with
  | inr r => mret r
  | inl principal =>
      let user := User_ID (Principal_User principal) in
      evaluated ← attempt (evaluateAuthorization user transaction);
      match evaluated with
      | inr _ => terminateAuthorization request transaction oidc.ErrorServerError "client_disabled" (Some user) (clock 2%nat)
      | inl (_, evaluation) =>
          if Evaluation_Covers evaluation && negb (transactionHasPrompt transaction "consent")
          then issueAuthorizationCode request token transaction principal false (clock 2%nat) (clock 3%nat)
          else if transactionHasPrompt transaction "none" then
            terminateAuthorization request transaction oidc.ErrorConsentRequired "consent_required" (Some user) (clock 2%nat)
          else mret (redirectToBrowserFlow "/consent" token)
      end
  end.

Definition handleAuthorize (request : Request) (clock : nat → time) : Tx HTTPResponse :=
  if Request_Method request != "GET" then mret methodNotAllowed
  else
    parsed ← oidc.ParseAuthorizationRequest (Request_RawQuery request);
    match parsed with
    | inr e => mret (writeAuthorizationError e)
    | inl verified =>
        created ← attempt (authflow.CreateVerified (app_transactions a) (verified_input verified) (Request_ID request) (clock 0%nat));
        match created with
        | inr _ => mret (writeAuthorizationError
                     (oidc.trustedError (oidc.Verified_RedirectURI verified) (oidc.Verified_State verified) oidc.ErrorServerError))
        | inl (token, transaction) => advanceAuthorization request token transaction clock
        end
    end.

(** The transaction of an authorization flow, if the token names a live one. *)
Definition resolve_authorization (token : string) (now : time) : Tx (option Transaction) :=
  resolved ← attempt (authflow.Resolve token now);
  mret match resolved with
       | inl transaction => if Transaction_Kind transaction != KindAuthorization then None else Some transaction
       | inr _ => None
       end.

Definition handleAuthorizeContinuation (request : Request) (clock : nat → time) : Tx HTTPResponse :=
  if Request_Method request != "GET" then mret methodNotAllowed
  else
    let query := url_query request in
    if negb (size query =? 1)%nat || (oidc.many query "transaction" != 1) || (Get query "transaction" == "")
    then mret (renderErrorPage 400 "invalid_authentication_flow")
    else
      let token := Get query "transaction" in
      resolved ← resolve_authorization token (clock 0%nat);
      match resolved with
      | None => mret (renderErrorPage 400 "invalid_authentication_flow")
      | Some transaction => advanceAuthorization request token transaction clock
      end.

(** The scopes the page shows, with whether each was granted before. *)
Definition consent_scopes (transaction : Transaction) (evaluation : Evaluation) : list (string * bool) :=
  (λ scope, (scope, bool_decide (scope ∈ Evaluation_AlreadyGranted evaluation))) <$>
  List.filter (λ scope, bool_decide (scope ∈ Transaction_Scopes transaction)) ["openid"; "profile"; "email"; "offline_access"].

Definition ensureCSRF (request : Request) (principal : Principal) (now : time) : Tx (string * list CookieChange) :=
  ensured ← EnsureCSRF (app_sessions a) (Some principal) (csrf_cookie request) now;
  let '(token, rotated, _) := ensured in
  mret (token, if rotated : bool then [SetCSRF token] else []).

Definition getConsent (request : Request) (clock : nat → time) : Tx HTTPResponse :=
  let query := url_query request in
  if negb (validConsentQuery query) then mret (renderErrorPage 400 "invalid_authentication_flow")
  else
    let token := Get query "transaction" in
    resolved ← resolve_authorization token (clock 0%nat);
    match resolved with
    | None => mret (renderErrorPage 400 "invalid_authentication_flow")
    | Some transaction =>
        checked ← consentPrincipal request token transaction (clock 1%nat) (clock 2%nat) (clock 3%nat);
        match checked with
        | inr r => mret r
        | inl principal =>
            let user := User_ID (Principal_User principal) in
            evaluated ← attempt (evaluateAuthorization user transaction);
            match evaluated with
            | inr _ => terminateAuthorization request transaction oidc.ErrorServerError "client_disabled" (Some user) (clock 3%nat)
            | inl (clientValue, evaluation) =>
                ensured ← attempt (ensureCSRF request principal (clock 3%nat));
                match ensured with
                | inr _ => terminateAuthorization request transaction oidc.ErrorServerError "server_error" (Some user) (clock 4%nat)
                | inl (csrf, cookies) =>
                    mret (with_cookies cookies (page 200 (ConsentPage (Client_Name clientValue) (consent_scopes transaction evaluation) token csrf
                      (setFormActionPolicy [Transaction_RedirectURI transaction]))))
                end
            end
        end
    end.

Definition handleAuthorizationDecisionError (request : Request) (transaction : Transaction) (user : uuid) (e : error) (now : time) : Tx HTTPResponse :=
  if flow_error e then mret (renderErrorPage 400 "invalid_authentication_flow")
  else terminateAuthorization request transaction oidc.ErrorServerError "server_error" (Some user) now.

Definition postConsent (request : Request) (clock : nat → time) : Tx HTTPResponse :=
  if negb (sameOrigin (app_issuer a) request) then mret (renderErrorPage 403 "csrf_failed")
  else match parseConsentForm request with
  | None => mret (renderErrorPage 400 "invalid_input")
  | Some form =>
      let token := Get form "transaction" in
      resolved ← resolve_authorization token (clock 0%nat);
      match resolved with
      | None => mret (renderErrorPage 400 "invalid_authentication_flow")
      | Some transaction =>
          checked ← consentPrincipal request token transaction (clock 1%nat) (clock 2%nat) (clock 3%nat);
          match checked with
          | inr r => mret r
          | inl principal =>
              let user := User_ID (Principal_User principal) in
              let csrf := Get form "csrf_token" in
              if negb (sameClearToken csrf (csrf_cookie request)) || (ValidateCSRF principal csrf (clock 3%nat) != None)
              then mret (renderErrorPage 403 "csrf_failed")
              else
                evaluated ← attempt (evaluateAuthorization user transaction);
                match evaluated with
                | inr _ => terminateAuthorization request transaction oidc.ErrorServerError "client_disabled" (Some user) (clock 4%nat)
                | inl _ =>
                    if Get form "decision" == "deny" then
                      denied ← attempt (Deny transaction user (Request_ID request) (clock 4%nat));
                      match denied with
                      | inr e => handleAuthorizationDecisionError request transaction user e (clock 5%nat)
                      | inl _ => mret (writeAuthorizationError
                                   (oidc.trustedError (Transaction_RedirectURI transaction) (Transaction_State transaction) oidc.ErrorAccessDenied))
                      end
                    else if Get form "decision" == "approve" then
                      issueAuthorizationCode request token transaction principal true (clock 4%nat) (clock 5%nat)
                    else mret (renderErrorPage 400 "invalid_input")
                end
          end
      end
  end.

(** ** The back channel *)

(** [limited] is the answer of the limiter for the authenticated client. *)
Definition handleToken (limited : uuid → bool) (request : Request) (now : time) : Tx HTTPResponse :=
  if Request_Method request != "POST" then mret methodNotAllowed
  else match parseTokenForm request with
  | None => mret (writeOAuthError (oidc.mkTokenError "invalid_request" 400 false))
  | Some form =>
      parsed ← oidc.ParseTokenRequest form (Request_Header request);
      match parsed with
      | inr e => mret (writeOAuthError e)
      | inl verified =>
          if limited (Client_ID (oidc.TokenRequest_Client verified)) then mret (writeOAuthRateLimitResponse request)
          else
            answered ← attempt
              (if oidc.TokenRequest_GrantType verified == "refresh_token" then
                 Refresh (app_tokens a) (mkRefreshInput (oidc.TokenRequest_RefreshTokenHash verified) (oidc.TokenRequest_Client verified)
                   (oidc.TokenRequest_Scopes verified) (Request_ID request) now)
               else
                 Exchange (app_tokens a) (mkExchangeInput (oidc.TokenRequest_CodeHash verified) (oidc.TokenRequest_Client verified)
                   (oidc.TokenRequest_RedirectURI verified) (oidc.TokenRequest_CodeVerifier verified) (Request_ID request) now));
            mret match answered with
                 | inl response => page 200 (TokenJSON response)
                 | inr e => writeOAuthError
                     (if errors_Is e token_ErrInvalidGrant then oidc.mkTokenError "invalid_grant" 400 false
                      else if errors_Is e token_ErrInvalidScope then oidc.mkTokenError "invalid_scope" 400 false else server_error)
                 end
      end
  end.

Definition handleUserInfo (request : Request) (now : time) : Tx HTTPResponse :=
  if (Request_Method request != "GET") && (Request_Method request != "POST") then mret methodNotAllowed
  else match parseUserInfoBearer request with
  | None => mret (writeBearerError "invalid_token" 401)
  | Some compact =>
      answered ← attempt (UserInfoForAccessToken (app_tokens a) compact now);
      mret match answered with
           | inl result => page 200 (UserInfoJSON result)
           | inr e => if errors_Is e token_ErrInvalidToken then writeBearerError "invalid_token" 401 else writeOAuthError server_error
           end
  end.

Definition handleRevocation (limited : uuid → bool) (request : Request) (now : time) : Tx HTTPResponse :=
  if Request_Method request != "POST" then mret methodNotAllowed
  else match parseTokenForm request with
  | None => mret (writeOAuthError (oidc.mkTokenError "invalid_request" 400 false))
  | Some form =>
      parsed ← oidc.ParseRevocationRequest form (Request_Header request);
      match parsed with
      | inr e => mret (writeOAuthError e)
      | inl verified =>
          if limited (Client_ID (oidc.LifecycleRequest_Client verified)) then mret (writeOAuthRateLimitResponse request)
          else
            revoked ← attempt (Revoke (app_tokens a) (mkRevocationInput (oidc.LifecycleRequest_Client verified) (oidc.LifecycleRequest_Token verified)
              (oidc.LifecycleRequest_Hint verified) (Request_ID request) now));
            mret match revoked with inl _ => page 200 NoBody | inr _ => writeOAuthError server_error end
      end
  end.

Definition handleIntrospection (limited : uuid → bool) (request : Request) (now : time) : Tx HTTPResponse :=
  if Request_Method request != "POST" then mret methodNotAllowed
  else match parseTokenForm request with
  | None => mret (writeOAuthError (oidc.mkTokenError "invalid_request" 400 false))
  | Some form =>
      parsed ← oidc.ParseIntrospectionRequest form (Request_Header request);
      match parsed with
      | inr e => mret (writeOAuthError e)
      | inl verified =>
          if limited (Client_ID (oidc.LifecycleRequest_Client verified)) then mret (writeOAuthRateLimitResponse request)
          else
            answered ← attempt (Introspect (app_tokens a) (mkIntrospectionInput (oidc.LifecycleRequest_Client verified)
              (oidc.LifecycleRequest_Token verified) (oidc.LifecycleRequest_Hint verified) now));
            mret match answered with inl response => page 200 (IntrospectionJSON response) | inr _ => writeOAuthError server_error end
      end
  end.

(** ** The hosted forms *)

Definition browserError (e : error) : Z * string :=
  if errors_Is e identity_ErrInvalidCredentials then (401, "invalid_credentials")
  else if errors_Is e identity_ErrDuplicate then (409, "registration_conflict")
  else if errors_Is e identity_ErrInvalidInput then (422, "invalid_input")
  else if errors_Is e session_ErrInvalidCSRF then (403, "csrf_failed")
  else if errors_Is e authn_ErrRegistrationDisabled then (403, "registration_disabled")
  else if errors_Is e authn_ErrInvalidFlow then (400, "invalid_authentication_flow")
  else if errors_Is e identity_ErrHashBusy then (429, "temporarily_unavailable")
  else (500, "internal_error").

Definition any_of (e : error) (targets : list error) : bool := existsb (errors_Is e) targets.
(** The status, the code and the message. *)
Definition authErrorStatus (e : error) : Z * string * string :=
  if errors_Is e session_ErrUnauthenticated then (401, "authentication_required", "authentication required")
  else if errors_Is e session_ErrInvalidCSRF then (403, "csrf_failed", "CSRF validation failed")
  else if errors_Is e admin_ErrForbidden then (403, "forbidden", "administrator permission required")
  else if errors_Is e admin_ErrRecentAuth then (403, "recent_authentication_required", "recent authentication required")
  else if any_of e [identity_ErrNotFound; client_ErrNotFound; session_ErrNotFound; consent_ErrNotFound]
       then (404, "not_found", "resource not found")
  else if any_of e [identity_ErrDuplicate; identity_ErrConflict; client_ErrConflict]
       then (409, "conflict", "resource conflicts with existing state")
  else if errors_Is e identity_ErrLastAdmin then (409, "last_admin_protected", "the last active administrator is protected")
  else if any_of e [identity_ErrInvalidInput; client_ErrInvalid; client_ErrPublicSecret; admin_ErrInvalidFilter;
                    pagination_ErrInvalidCursor; consent_ErrInvalid]
       then (422, "invalid_input", "request input is invalid")
  else if errors_Is e identity_ErrHashBusy
       then (429, "temporarily_unavailable", "authentication capacity is temporarily unavailable")
  else if errors_Is e authn_ErrRegistrationDisabled then (403, "registration_disabled", "registration is disabled")
  else if any_of e [authn_ErrInvalidFlow; authflow_ErrExpired; authflow_ErrConsumed]
       then (400, "invalid_authentication_flow", "authentication flow is invalid")
  else (500, "internal_error", "internal server error").

Definition getAuthForm (mode : string) (request : Request) (now : time) : Tx HTTPResponse :=
  let query := url_query request in
  if negb (validAuthQuery query) then mret (renderErrorPage 400 "invalid_authentication_flow")
  else
    started ← attempt (authn.Begin (app_authn a) mode (Get query "transaction") (Request_ID request) now);
    mret match started with
         | inr e => let '(status, code, _) := authErrorStatus e in renderErrorPage status code
         | inl result =>
             with_cookies [SetPreAuth (authn.BeginResult_PreAuth result)]
               (page 200 (AuthForm mode (IssuedPreAuth_CSRFToken (authn.BeginResult_PreAuth result))
                  (authn.BeginResult_TransactionToken result) ""))
         end.

Definition authenticationSuccessLocation (transactionToken : string) (now : time) : Tx string :=
  if transactionToken == "" then mret "/auth/complete"
  else
    resolved ← resolve_authorization transactionToken now;
    mret match resolved with
         | Some _ => browser_flow_location oidc.AuthorizeContinuePath transactionToken
         | None => "/auth/complete"
         end.

(** The answer to a login or registration: a page for a broken flow, the form again for
    what the user can correct. *)
Definition form_failed (mode : string) (fatal : list string) (form : Values) (e : error) : HTTPResponse :=
  let '(status, code) := browserError e in
  if bool_decide (code ∈ fatal) then renderErrorPage status code
  else page status (AuthForm mode (Get form "csrf_token") (Get form "transaction") code).

(** [gate] and [rehashGate] are the answers of the password hasher. *)
Definition postLogin (gate rehashGate : option error) (request : Request) (clock : nat → time) : Tx HTTPResponse :=
  if negb (sameOrigin (app_issuer a) request) then mret (renderErrorPage 403 "csrf_failed")
  else match parseAuthForm request ["csrf_token"; "transaction"; "identifier"; "password"] with
  | None => mret (renderErrorPage 400 "invalid_input")
  | Some form =>
      logged ← attempt (authn.Login (app_authn a) gate rehashGate
        (authn.mkLoginInput (preauth_cookie request) (Get form "csrf_token") (Get form "transaction") (Get form "identifier")
           (Get form "password") (session_cookie request) (Request_UserAgent request) (Request_ClientIP request) (Request_ID request))
        (clock 0%nat));
      match logged with
      | inr e => mret (form_failed authn.BeginLogin ["csrf_failed"; "invalid_authentication_flow"; "internal_error"] form e)
      | inl (issued, _) =>
          location ← authenticationSuccessLocation (Get form "transaction") (clock 1%nat);
          mret (with_cookies [SetAuthenticated issued] (redirect 303 location))
      end
  end.

Definition postRegister (gate : option error) (request : Request) (clock : nat → time) : Tx HTTPResponse :=
  if negb (sameOrigin (app_issuer a) request) then mret (renderErrorPage 403 "csrf_failed")
  else match parseAuthForm request ["csrf_token"; "transaction"; "username"; "display_name"; "email"; "password"] with
  | None => mret (renderErrorPage 400 "invalid_input")
  | Some form =>
      registered ← attempt (authn.Register (app_authn a) gate
        (authn.mkRegisterInput (preauth_cookie request) (Get form "csrf_token") (Get form "transaction")
           (identity.mkCreateInput (Get form "username") (Get form "display_name") (Get form "email") (Get form "password"))
           (session_cookie request) (Request_UserAgent request) (Request_ClientIP request) (Request_ID request)) (clock 0%nat));
      match registered with
      | inr e => mret (form_failed authn.BeginRegister
                   ["csrf_failed"; "invalid_authentication_flow"; "registration_disabled"; "internal_error"] form e)
      | inl issued =>
          location ← authenticationSuccessLocation (Get form "transaction") (clock 1%nat);
          mret (with_cookies [SetAuthenticated issued] (redirect 303 location))
      end
  end.

Definition getComplete (request : Request) (clock : nat → time) : Tx HTTPResponse :=
  authenticated ← attempt (Authenticate (app_sessions a) (session_cookie request) (clock 0%nat));
  match authenticated with
  | inr _ => mret (with_cookies [ClearAuthenticated] (redirect 303 "/login"))
  | inl principal =>
      ensured ← attempt (ensureCSRF request principal (clock 1%nat));
      mret match ensured with
           | inr _ => renderErrorPage 500 "internal_error"
           | inl (csrf, cookies) => with_cookies cookies (page 200 (CompletePage (User_DisplayName (Principal_User principal)) csrf))
           end
  end.

(** [requireStateChange]: [None] lets the request pass. *)
Definition requireStateChange (request : Request) (principal : Principal) (token : string) (now : time) : option HTTPResponse :=
  if negb (sameOrigin (app_issuer a) request) then Some (writeError 403 "csrf_failed" "request origin was rejected")
  else if ValidateCSRF principal token now != None then Some (writeError 403 "csrf_failed" "CSRF validation failed")
  else None.

(** A form whose token is not the cookie's is answered with an empty page: the status
    200 of a handler that writes nothing. *)
Definition postLogout (request : Request) (clock : nat → time) : Tx HTTPResponse :=
  if (Request_RawQuery request != "") || Request_ForceQuery request then mret (renderErrorPage 400 "invalid_input")
  else
    authenticated ← attempt (Authenticate (app_sessions a) (session_cookie request) (clock 0%nat));
    match authenticated with
    | inr e => mret (if errors_Is e session_ErrUnauthenticated then with_cookies [ClearAuthenticated] (redirect 303 "/login")
                     else renderErrorPage 500 "internal_error")
    | inl principal =>
        match parseAuthForm request ["csrf_token"] with
        | None => mret (renderErrorPage 400 "invalid_input")
        | Some form =>
            if negb (sameClearToken (Get form "csrf_token") (csrf_cookie request)) then mret (page 200 NoBody)
            else match requireStateChange request principal (Get form "csrf_token") (clock 1%nat) with
            | Some r => mret r
            | None =>
                ended ← attempt (Logout principal (session_cookie request) (Request_ID request) (clock 2%nat));
                mret match ended with
                     | inr e => if errors_Is e session_ErrNotFound then with_cookies [ClearAuthenticated] (redirect 303 "/login")
                                else renderErrorPage 500 "internal_error"
                     | inl _ => with_cookies [ClearAuthenticated] (redirect 303 "/login")
                     end
            end
        end
    end.

(** ** Logout started by a relying party *)

Definition logout_cookie (request : Request) : string := Request_Cookie request (logout.Cookie_Name (app_logout_cookies a)).
Definition logout_messages : list string := ["confirmed"; "canceled"; "already_signed_out"; "invalid"; "unavailable"].
Definition renderLogoutResult (status : Z) (result : string) : HTTPResponse :=
  page status (LogoutResultPage (if bool_decide (result ∈ logout_messages) then result else "unavailable")).

(** One byte that can be read is a body. *)
Definition requestHasBody (request : Request) : bool :=
  if 0 <? Request_ContentLength request then true else match Request_Body request with Some body => body != "" | None => false end.

Definition parseRPLogoutHTTPRequest (request : Request) : option oidc.LogoutRequest :=
  if maxLogoutRequestBytes <? len (Request_URI request) then None
  else if Request_Method request == "GET" then
    if requestHasBody request then None
    else let '(values, ok) := ParseQuery (Request_RawQuery request) in if ok then oidc.ParseLogoutRequest values else None
  else if Request_Method request == "POST" then
    if (Request_RawQuery request != "") || Request_ForceQuery request ||
       negb (length (Header_Values (Request_Header request) "Content-Type") =? 1)%nat then None
    else match ParseMediaType (Header_Get (Request_Header request) "Content-Type") with
    | None => None
    | Some (mediaType, parameters) =>
        if negb (EqualFold mediaType form_media_type) || (parameters != []) || (maxLogoutRequestBytes <? Request_ContentLength request) then None
        else match read_body request maxLogoutRequestBytes with
             | None => None
             | Some encoded =>
                 if negb (utf8.ValidString encoded) then None
                 else let '(values, ok) := ParseQuery encoded in if ok then oidc.ParseLogoutRequest values else None
             end
    end
  else None.

(** The proof and the decision of a confirmation form. *)
Definition parseLogoutConfirmationForm (request : Request) : option (string * string) :=
  if (Request_RawQuery request != "") || Request_ForceQuery request ||
     negb (length (Header_Values (Request_Header request) "Content-Type") =? 1)%nat || (maxLogoutRequestBytes <? Request_ContentLength request)
  then None
  else match ParseMediaType (Header_Get (Request_Header request) "Content-Type") with
  | None => None
  | Some (mediaType, parameters) =>
      if negb (EqualFold mediaType form_media_type) || (parameters != []) then None
      else match read_body request maxLogoutRequestBytes with
      | None => None
      | Some encoded =>
          if (encoded == "") || negb (utf8.ValidString encoded) then None
          else
            let '(values, ok) := ParseQuery encoded in
            if negb ok || negb (size values =? 2)%nat || (oidc.many values "csrf_token" != 1) || (oidc.many values "decision" != 1) then None
            else if existsb (λ kv, ((kv.1 != "csrf_token") && (kv.1 != "decision")) || negb (length kv.2 =? 1)%nat ||
                                   (default "" (head kv.2) == "") || negb (oidc.valid_text (default "" (head kv.2)))) (map_to_list values) then None
            else if (Get values "decision" != DecisionConfirm) && (Get values "decision" != DecisionCancel) then None
            else Some (Get values "csrf_token", Get values "decision")
      end
  end.

Definition handleRPLogoutRequest (request : Request) (now : time) : Tx HTTPResponse :=
  if (Request_Method request != "GET") && (Request_Method request != "POST") then mret methodNotAllowed
  else match parseRPLogoutHTTPRequest request with
  | None => mret (renderLogoutResult 400 "invalid")
  | Some parsed =>
      started ← attempt (logout.Start (app_logout a) (logout.mkStartInput (oidc.LogoutRequest_IDTokenHint parsed) (oidc.LogoutRequest_ClientID parsed)
        (oidc.LogoutRequest_LogoutHint parsed) (oidc.LogoutRequest_PostLogoutRedirectURI parsed) (oidc.LogoutRequest_State parsed)
        (oidc.LogoutRequest_UILocales parsed) now));
      mret match started with
           | inr _ => renderLogoutResult 500 "unavailable"
           | inl issued => with_cookies [SetLogout (logout.Issued_LookupToken issued)] (redirect 303 oidc.LogoutConfirmPath)
           end
  end.

Definition cleared (r : HTTPResponse) : HTTPResponse := with_cookies [ClearLogout] r.

Definition getRPLogoutConfirmation (request : Request) (clock : nat → time) : Tx HTTPResponse :=
  if (Request_RawQuery request != "") || Request_ForceQuery request || requestHasBody request
  then mret (cleared (renderLogoutResult 400 "invalid"))
  else
    let lookup := logout_cookie request in
    if lookup == "" then mret (cleared (renderLogoutResult 200 "unavailable"))
    else
      authenticated ← attempt (Authenticate (app_sessions a) (session_cookie request) (clock 0%nat));
      match authenticated with
      | inr e => mret (if errors_Is e session_ErrUnauthenticated then cleared (renderLogoutResult 200 "already_signed_out")
                       else renderLogoutResult 500 "unavailable")
      | inl principal =>
          bound ← attempt (logout.Bind (app_logout a) lookup principal (clock 1%nat));
          mret match bound with
               | inl b => page 200 (LogoutConfirmationPage (logout.Bound_CSRFProof b) (setFormActionPolicy [logout.Bound_PostLogoutRedirectURI b]))
               | inr e => if errors_Is e logout_ErrNotFound then cleared (renderLogoutResult 400 "unavailable")
                          else if errors_Is e logout_ErrCapacity then renderLogoutResult 429 "unavailable"
                          else renderLogoutResult 500 "unavailable"
               end
      end.

Definition postRPLogoutConfirmation (request : Request) (clock : nat → time) : Tx HTTPResponse :=
  if negb (strictSameOrigin (app_issuer a) request) then mret (cleared (renderLogoutResult 403 "invalid"))
  else match parseLogoutConfirmationForm request with
  | None => mret (cleared (renderLogoutResult 400 "invalid"))
  | Some (csrfProof, decision) =>
      let lookup := logout_cookie request in
      if lookup == "" then mret (cleared (renderLogoutResult 400 "unavailable"))
      else
        authenticated ← attempt (Authenticate (app_sessions a) (session_cookie request) (clock 0%nat));
        match authenticated with
        | inr e => mret (if errors_Is e session_ErrUnauthenticated then cleared (renderLogoutResult 400 "unavailable")
                         else renderLogoutResult 500 "unavailable")
        | inl principal =>
            completed ← attempt (logout.Complete lookup csrfProof decision principal (Request_ID request) (clock 1%nat));
            mret match completed with
                 | inr e => if errors_Is e logout_ErrCSRF then cleared (renderLogoutResult 403 "unavailable")
                            else if errors_Is e logout_ErrNotFound then cleared (renderLogoutResult 400 "unavailable")
                            else renderLogoutResult 500 "unavailable"
                 | inl completion =>
                     if negb (logout.Completion_Confirmed completion) then cleared (renderLogoutResult 200 "canceled")
                     else if logout.Completion_Location completion != ""
                     then with_cookies [ClearLogout; ClearAuthenticated] (redirect 303 (logout.Completion_Location completion))
                     else with_cookies [ClearLogout; ClearAuthenticated] (renderLogoutResult 200 "confirmed")
                 end
        end
  end.

Definition handleRPLogoutConfirmation (request : Request) (clock : nat → time) : Tx HTTPResponse :=
  if Request_Method request == "GET" then getRPLogoutConfirmation request clock
  else if Request_Method request == "POST" then postRPLogoutConfirmation request clock
  else mret methodNotAllowed.
End handlers.
End httpserver.
