(* ===== verification/Api.v ===== *)
(** * The management API and the router

    [internal/httpserver/api_handlers.go], [grant_handlers.go], [oidc_handlers.go] and the
    router of [application.go]: the JSON interfaces of the account owner and of the
    administrator, the two public documents, and how a path and a method select a handler.
    The JSON decoders and the parser of identifiers are parameters; the answers of the two
    rate limiters and of the password hasher are arguments. *)

From S2P Require Import Prelude Text Errors Platform Pagination Scopes Domain SessionTokens Url AuditEvents Database Tx StoreCommon.
From S2P Require Import ServiceCommon ConsentStore TokenService AuthorizationService SessionService FlowService IdentityService AuthnService.
From S2P Require Import ClientService AdminService LogoutService Requests Endpoints.
Import httpserver.

Module api.

Record createUserRequest := mkCreateUserRequest {
  createUser_Username : string; createUser_DisplayName : string; createUser_Email : string; createUser_Password : string;
  createUser_Role : string }.
Record updateUserRequest := mkUpdateUserRequest {
  updateUser_Username : option string; updateUser_DisplayName : option string; updateUser_Email : option string;
  updateUser_Status : option string; updateUser_Role : option string }.
Record createClientRequest := mkCreateClientRequest {
  createClient_ClientType : string; createClient_Name : string; createClient_Description : string; createClient_LogoURI : string;
  createClient_RegistrationEnabled : bool; createClient_RedirectURIs : list string; createClient_LogoutURIs : list string;
  createClient_Scopes : list string }.
Record updateClientRequest := mkUpdateClientRequest {
  updateClient_Name : option string; updateClient_Description : option string; updateClient_LogoURI : option string;
  updateClient_Status : option string; updateClient_RegistrationEnabled : option bool;
  updateClient_RedirectURIs : option (list string); updateClient_LogoutURIs : option (list string);
  updateClient_Scopes : option (list string) }.

(** The decoder of one JSON value into each record, without unknown fields and with nothing
    behind it; [uuid.Parse]. *)
Class ApiLibrary := {
  Decode_createUserRequest : bytes → option createUserRequest;
  Decode_updateUserRequest : bytes → option updateUserRequest;
  Decode_createClientRequest : bytes → option createClientRequest;
  Decode_updateClientRequest : bytes → option updateClientRequest;
  uuid_Parse : string → option uuid }.

Definition maxGrantMutationBodyBytes : Z := 8192.

Section pages.

Definition parsePage (request : Request) : option (pagination.Cursor * Z) :=
  match pagination.Decode (Get (url_query request) "cursor") with
  | None => None
  | Some cursor =>
      let raw := Get (url_query request) "limit" in
      if raw == "" then Some (cursor, 20)
      else match Atoi raw with
           | Some value => if (value <? 1) || (100 <? value) then None else Some (cursor, value)
           | None => None
           end
  end.

Definition queryKeysAllowed (request : Request) (allowed : list string) : bool :=
  forallb (λ kv, bool_decide (kv.1 ∈ allowed) && (length kv.2 =? 1)%nat) (map_to_list (url_query request)).

Definition parseGrantPage `{GrantCursorCodec} (request : Request) : option (string * Z) :=
  let '(values, ok) := ParseQuery (Request_RawQuery request) in
  if negb ok then None
  else if existsb (λ kv, negb (bool_decide (kv.1 ∈ ["cursor"; "limit"])) || negb (length kv.2 =? 1)%nat) (map_to_list values) then None
  else match DecodeGrantCursor (Get values "cursor") with
  | None => None
  | Some _ =>
      let raw := Get values "limit" in
      if raw == "" then Some (Get values "cursor", 20)
      else match Atoi raw with
           | Some parsed => if (parsed <? 1) || (100 <? parsed) || (FormatUint parsed != raw) then None
                            else Some (Get values "cursor", parsed)
           | None => None
           end
  end.
End pages.

Section bodies.
Context {T : TextLibrary} {H : logout.HintCodec} {L : ApiLibrary}.

Definition json_media_type (request : Request) : bool :=
  ToLower (TrimSpace (default "" (head (Split ";" (Header_Get (Request_Header request) "Content-Type"))))) == "application/json".

(** [decodeJSON] with the decoder of its destination. *)
Definition decodeJSON {A} (decode : bytes → option A) (request : Request) : option A :=
  if negb (json_media_type request) then None
  else match read_body request maxAuthBodyBytes with Some body => decode body | None => None end.

(** The token loop takes an object with the one member [client_id] and nothing behind it. *)
Definition decodeGrantRevokeJSON (request : Request) : option string :=
  if negb (json_media_type request) then None
  else match read_body request maxGrantMutationBodyBytes with
  | None => None
  | Some body =>
      match logout.Object_Members body with
      | Some [(key, raw)] => if key == "client_id" then logout.Unmarshal_string raw else None
      | _ => None
      end
  end.

Definition parseUUID (raw : string) : option uuid :=
  match uuid_Parse raw with Some value => if value == uuid_Nil then None else Some value | None => None end.
End bodies.

Section handlers.
Context {P : Platform} {C : TokenCodec} {H : logout.HintCodec} {T : TextLibrary} {K : KeyDerivation} {F : Fosite} {M : HttpLibrary}.
Context {G : GrantCursorCodec} {L : ApiLibrary}.
Context (a : Application).

Definition writeApplicationError (e : error) : HTTPResponse :=
  let '(status, code, message) := authErrorStatus e in writeError status code message.
Definition not_found : HTTPResponse := writeError 404 "not_found" "resource not found".
Definition invalid_json : HTTPResponse := writeError 400 "invalid_json" "request body is invalid".

(** ** The guards *)

Definition csrfHeader (request : Request) : string := TrimSpace (Header_Get (Request_Header request) "X-CSRF-Token").

Definition requirePrincipal (request : Request) (now : time) : Tx (Principal + HTTPResponse) :=
  authenticated ← attempt (Authenticate (app_sessions a) (session_cookie a request) now);
  mret match authenticated with
       | inl principal => inl principal
       | inr _ => inr (writeApplicationError session_ErrUnauthenticated)
       end.

Definition csrf_guard (request : Request) (principal : Principal) (now : time) : option HTTPResponse :=
  let header := csrfHeader request in
  let cookie := csrf_cookie a request in
  if (header == "") || (cookie == "") || negb (sameClearToken header cookie)
  then Some (writeError 403 "csrf_failed" "CSRF validation failed")
  else requireStateChange a request principal header now.

Definition requirePrincipalMutation (request : Request) (clock : nat → time) : Tx (Principal + HTTPResponse) :=
  required ← requirePrincipal request (clock 0%nat);
  mret match required with
       | inr r => inr r
       | inl principal => match csrf_guard request principal (clock 1%nat) with Some r => inr r | None => inl principal end
       end.

(** The early returns of a handler: a refusal of the guard is the answer. *)
Definition guarded (guard : Tx (Principal + HTTPResponse)) (k : Principal → Tx HTTPResponse) : Tx HTTPResponse :=
  required ← guard; match required with inr r => mret r | inl principal => k principal end.
(** [if err != nil { writeApplicationError(...); return }] before the answer. *)
Definition respond {A} (m : Tx A) (answer : A → HTTPResponse) : Tx HTTPResponse :=
  result ← attempt m; mret match result with inl value => answer value | inr e => writeApplicationError e end.
Definition with_csrf (request : Request) (principal : Principal) (now : time) (k : Tx HTTPResponse) : Tx HTTPResponse :=
  ensured ← attempt (ensureCSRF a request principal now);
  match ensured with
  | inr e => mret (writeApplicationError e)
  | inl (_, cookies) => answer ← k; mret (with_cookies cookies answer)
  end.

(** The body shared by the lists: the page of the query, the items and the next cursor. *)
Definition listing {A} (request : Request) (clock : nat → time) (allowed : list string)
    (items : Principal → pagination.Cursor → Z → Tx (list A)) (position : A → pagination.Cursor) (body : list A → string → Page) : Tx HTTPResponse :=
  guarded (requirePrincipal request (clock 0%nat)) (λ principal,
    with_csrf request principal (clock 1%nat)
      match parsePage request with
      | None => mret (writeApplicationError pagination_ErrInvalidCursor)
      | Some (cursor, limit) =>
          if negb (queryKeysAllowed request allowed) then mret (writeApplicationError pagination_ErrInvalidCursor)
          else respond (items principal cursor limit)
                 (λ found, let '(page_items, next) := nextCursor found limit position in page 200 (body page_items next))
      end).

(** ** The owner's account *)

Definition handleMe (request : Request) (clock : nat → time) : Tx HTTPResponse :=
  if Request_Method request != "GET" then mret methodNotAllowed
  else guarded (requirePrincipal request (clock 0%nat)) (λ principal,
    with_csrf request principal (clock 1%nat) (mret (page 200 (MeJSON (Principal_User principal) (Principal_SessionID principal))))).

Definition session_position (item : Summary) : pagination.Cursor := pagination.mkCursor (Summary_CreatedAt item) (Summary_ID item).

Definition handleMySessions (request : Request) (clock : nat → time) : Tx HTTPResponse :=
  if Request_Method request != "GET" then mret methodNotAllowed
  else listing request clock ["cursor"; "limit"] SessionService.ListMine session_position SessionsJSON.

Definition handleRevokeMySession (request : Request) (rawID : string) (clock : nat → time) : Tx HTTPResponse :=
  if Request_Method request != "POST" then mret methodNotAllowed
  else match parseUUID rawID with
  | None => mret not_found
  | Some target =>
      guarded (requirePrincipalMutation request clock) (λ principal,
        respond (SessionService.RevokeMine principal target (Request_ID request) (clock 2%nat))
          (λ _, with_cookies (if target == Principal_SessionID principal then [ClearAuthenticated] else []) (page 204 NoBody)))
  end.

Definition handleRevokeOtherSessions (request : Request) (clock : nat → time) : Tx HTTPResponse :=
  if Request_Method request != "POST" then mret methodNotAllowed
  else guarded (requirePrincipalMutation request clock) (λ principal,
    respond (RevokeOthers principal (Request_ID request) (clock 2%nat)) (λ count, page 200 (RevokedJSON count))).

Definition handleMyGrants (request : Request) (clock : nat → time) : Tx HTTPResponse :=
  if Request_Method request != "GET" then mret methodNotAllowed
  else guarded (requirePrincipal request (clock 0%nat)) (λ principal,
    with_csrf request principal (clock 1%nat)
      match parseGrantPage request with
      | None => mret (writeApplicationError consent_ErrInvalid)
      | Some (cursor, limit) =>
          respond (AuthorizationService.ListMine (User_ID (Principal_User principal)) cursor limit (clock 2%nat))
            (λ found, page 200 (GrantsJSON (GrantPage_Items found) (GrantPage_NextCursor found)))
      end).

Definition handleRevokeMyGrant (request : Request) (clock : nat → time) : Tx HTTPResponse :=
  if Request_Method request != "POST" then mret methodNotAllowed
  else if Request_RawQuery request != "" then mret invalid_json
  else guarded (requirePrincipalMutation request clock) (λ principal,
    match decodeGrantRevokeJSON request with
    | None => mret invalid_json
    | Some publicClientID =>
        respond (AuthorizationService.RevokeMine (User_ID (Principal_User principal)) publicClientID (Request_ID request) (clock 2%nat))
          (λ grant, page 200 (GrantJSON grant))
    end).

(** ** Administration *)

Definition handleAdminMe (request : Request) (clock : nat → time) : Tx HTTPResponse :=
  if Request_Method request != "GET" then mret methodNotAllowed
  else guarded (requirePrincipal request (clock 0%nat)) (λ principal,
    match admin.Authorize principal with
    | Some e => mret (writeApplicationError e)
    | None => with_csrf request principal (clock 1%nat) (mret (page 200 (MeJSON (Principal_User principal) (Principal_SessionID principal))))
    end).

(** [gate] is the answer of the password hasher. *)
Definition handleAdminUsers (gate : option error) (request : Request) (clock : nat → time) : Tx HTTPResponse :=
  if Request_Method request == "GET" then
    listing request clock ["cursor"; "limit"; "search"]
      (λ principal, admin.ListUsers principal (Get (url_query request) "search"))
      (λ item, pagination.mkCursor (User_CreatedAt item) (User_ID item)) UsersJSON
  else if Request_Method request == "POST" then
    guarded (requirePrincipalMutation request clock) (λ principal,
      match decodeJSON Decode_createUserRequest request with
      | None => mret invalid_json
      | Some body =>
          let role := if createUser_Role body == "" then RoleUser else createUser_Role body in
          respond (admin.CreateUser (app_admin a) gate principal
            (identity.mkCreateInput (createUser_Username body) (createUser_DisplayName body) (createUser_Email body) (createUser_Password body))
            role (Request_ID request) (clock 2%nat)) (λ user, page 201 (UserJSON user))
      end)
  else mret methodNotAllowed.

Definition handleAdminUser (request : Request) (rawID : string) (clock : nat → time) : Tx HTTPResponse :=
  match parseUUID rawID with
  | None => mret not_found
  | Some id =>
      if Request_Method request == "GET" then
        guarded (requirePrincipal request (clock 0%nat)) (λ principal,
          respond (admin.GetUser principal id) (λ value, page 200 (UserJSON value)))
      else if Request_Method request == "PATCH" then
        guarded (requirePrincipalMutation request clock) (λ principal,
          match decodeJSON Decode_updateUserRequest request with
          | None => mret invalid_json
          | Some body =>
              respond (admin.UpdateUser (app_admin a) principal id
                (identity.mkUpdateInput (updateUser_Username body) (updateUser_DisplayName body) (updateUser_Email body)
                   (updateUser_Status body) (updateUser_Role body)) (Request_ID request) (clock 2%nat)) (λ value, page 200 (UserJSON value))
          end)
      else mret methodNotAllowed
  end.

Definition handleAdminRevokeUserSessions (request : Request) (rawID : string) (clock : nat → time) : Tx HTTPResponse :=
  if Request_Method request != "POST" then mret methodNotAllowed
  else match parseUUID rawID with
  | None => mret not_found
  | Some id =>
      guarded (requirePrincipalMutation request clock) (λ principal,
        respond (admin.RevokeUserSessions principal id (Request_ID request) (clock 2%nat)) (λ count, page 200 (RevokedJSON count)))
  end.

Definition handleAdminClients (request : Request) (clock : nat → time) : Tx HTTPResponse :=
  if Request_Method request == "GET" then
    listing request clock ["cursor"; "limit"] admin.ListClients
      (λ item, pagination.mkCursor (Client_CreatedAt item) (Client_ID item)) ClientsJSON
  else if Request_Method request == "POST" then
    guarded (requirePrincipalMutation request clock) (λ principal,
      match decodeJSON Decode_createClientRequest request with
      | None => mret invalid_json
      | Some body =>
          respond (admin.CreateClient (app_admin a) principal
            (client.mkCreateInput (createClient_ClientType body) (createClient_Name body) (createClient_Description body)
               (createClient_LogoURI body) (createClient_RegistrationEnabled body) (createClient_RedirectURIs body)
               (createClient_LogoutURIs body) (createClient_Scopes body)) (Request_ID request) (clock 2%nat))
            (λ created, page 201 (CreatedClientJSON created))
      end)
  else mret methodNotAllowed.

Definition handleAdminClient (request : Request) (rawID : string) (clock : nat → time) : Tx HTTPResponse :=
  match parseUUID rawID with
  | None => mret not_found
  | Some id =>
      if Request_Method request == "GET" then
        guarded (requirePrincipal request (clock 0%nat)) (λ principal,
          respond (admin.GetClient principal id) (λ value, page 200 (ClientJSON value)))
      else if Request_Method request == "PATCH" then
        guarded (requirePrincipalMutation request clock) (λ principal,
          match decodeJSON Decode_updateClientRequest request with
          | None => mret invalid_json
          | Some body =>
              respond (admin.UpdateClient (app_admin a) principal id
                (client.mkUpdateInput (updateClient_Name body) (updateClient_Description body) (updateClient_LogoURI body)
                   (updateClient_Status body) (updateClient_RegistrationEnabled body) (updateClient_RedirectURIs body)
                   (updateClient_LogoutURIs body) (updateClient_Scopes body)) (Request_ID request) (clock 2%nat))
                (λ value, page 200 (ClientJSON value))
          end)
      else mret methodNotAllowed
  end.

Definition handleAdminRotateClientSecret (request : Request) (rawID : string) (clock : nat → time) : Tx HTTPResponse :=
  if Request_Method request != "POST" then mret methodNotAllowed
  else match parseUUID rawID with
  | None => mret not_found
  | Some id =>
      guarded (requirePrincipalMutation request clock) (λ principal,
        respond (admin.RotateClientSecret (app_admin a) principal id (Request_ID request) (clock 2%nat))
          (λ secret, page 200 (SecretJSON secret)))
  end.

Definition handleAdminSessions (request : Request) (clock : nat → time) : Tx HTTPResponse :=
  if Request_Method request != "GET" then mret methodNotAllowed
  else listing request clock ["cursor"; "limit"] admin.ListSessions session_position SessionsJSON.

Definition handleAdminRevokeSession (request : Request) (rawID : string) (clock : nat → time) : Tx HTTPResponse :=
  if Request_Method request != "POST" then mret methodNotAllowed
  else match parseUUID rawID with
  | None => mret not_found
  | Some id =>
      guarded (requirePrincipalMutation request clock) (λ principal,
        respond (admin.RevokeSession principal id (Request_ID request) (clock 2%nat))
          (λ _, with_cookies (if id == Principal_SessionID principal then [ClearAuthenticated] else []) (page 204 NoBody)))
  end.

Definition handleAdminAudit (request : Request) (clock : nat → time) : Tx HTTPResponse :=
  if Request_Method request != "GET" then mret methodNotAllowed
  else listing request clock ["cursor"; "limit"; "event_type"]
    (λ principal, admin.ListAudit principal (Get (url_query request) "event_type"))
    (λ item, pagination.mkCursor (Event_OccurredAt item) (Event_ID item)) AuditJSON.

(** ** The public documents *)

Definition handleDiscovery (request : Request) : HTTPResponse :=
  if Request_Method request != "GET" then methodNotAllowed else page 200 (MetadataJSON (app_metadata a)).

Definition ifNoneMatch (headerValue current : string) : bool :=
  let current := TrimPrefix (TrimSpace current) "W/" in
  if current == "" then false
  else existsb (λ candidate, let candidate := TrimSpace candidate in (candidate == "*") || (TrimPrefix candidate "W/" == current))
         (Split "," headerValue).

(** [strings.Join(parts, ",")]. *)
Fixpoint join_commas (parts : list string) : string :=
  match parts with [] => "" | [p] => p | p :: rest => p +:+ "," +:+ join_commas rest end.

Definition handleJWKS (request : Request) : HTTPResponse :=
  if Request_Method request != "GET" then methodNotAllowed
  else
    let '(encoded, etag) := app_public_keys a in
    if (encoded == "") || (etag == "") then writeError 503 "temporarily_unavailable" "service temporarily unavailable"
    else if ifNoneMatch (join_commas (Header_Values (Request_Header request) "If-None-Match")) etag then page 304 (KeysUnchanged etag)
    else page 200 (KeysJSON etag encoded).

(** ** The router *)

(** The answers of the two rate limiters and of the password hasher for one request. *)
Record Gates := mkGates {
  oauth_allow : bool; auth_allow : bool; client_limited : uuid → bool; hash_gate : option error; rehash_gate : option error }.

Definition get_or_post (request : Request) : bool := (Request_Method request == "GET") || (Request_Method request == "POST").

Definition oauthLifecycleRateLimited (gates : Gates) (request : Request) : bool :=
  let path := Request_Path request in
  let sensitive :=
    if (path == oidc.TokenPath) || (path == oidc.RevocationPath) || (path == oidc.IntrospectionPath) then Request_Method request == "POST"
    else if path == oidc.UserInfoPath then get_or_post request
    else if path == oidc.LogoutPath then get_or_post request
    else false in
  sensitive && negb (oauth_allow gates).

Definition authenticationRateLimited (gates : Gates) (request : Request) : bool :=
  let path := Request_Path request in
  let sensitive := ((path == oidc.AuthorizePath) && (Request_Method request == "GET")) ||
                   (((path == "/login") || (path == "/register")) && get_or_post request) in
  sensitive && negb (auth_allow gates).

(** [strings.Trim(path, "/")]. *)
Fixpoint trim_slashes_left (s : string) : string :=
  match s with String c r => if Ascii.eqb c "/" then trim_slashes_left r else s | EmptyString => "" end.
Fixpoint trim_slashes_right (s : string) : string :=
  match s with
  | EmptyString => ""
  | String c r => match trim_slashes_right r with
                  | EmptyString => if Ascii.eqb c "/" then "" else String c ""
                  | rest => String c rest
                  end
  end.
Definition path_parts (path : string) : list string := Split "/" (trim_slashes_right (trim_slashes_left path)).

Definition part (parts : list string) (i : nat) : string := default "" (parts !! i).

(** [None] when no route matches. *)
Definition serveDynamic (request : Request) (clock : nat → time) : option (Tx HTTPResponse) :=
  let parts := path_parts (Request_Path request) in
  let count := length parts in
  let under (prefix : list string) : bool := take 4 parts == prefix in
  if (count =? 6)%nat && under ["api"; "v1"; "me"; "sessions"] && (part parts 5 == "revoke")
  then Some (handleRevokeMySession request (part parts 4) clock)
  else if under ["api"; "admin"; "v1"; "users"] && (count =? 5)%nat then Some (handleAdminUser request (part parts 4) clock)
  else if under ["api"; "admin"; "v1"; "users"] && (count =? 6)%nat && (part parts 5 == "revoke-sessions")
  then Some (handleAdminRevokeUserSessions request (part parts 4) clock)
  else if under ["api"; "admin"; "v1"; "clients"] && (count =? 5)%nat then Some (handleAdminClient request (part parts 4) clock)
  else if under ["api"; "admin"; "v1"; "clients"] && (count =? 7)%nat && (part parts 5 == "secrets") && (part parts 6 == "rotate")
  then Some (handleAdminRotateClientSecret request (part parts 4) clock)
  else if (count =? 6)%nat && under ["api"; "admin"; "v1"; "sessions"] && (part parts 5 == "revoke")
  then Some (handleAdminRevokeSession request (part parts 4) clock)
  else None.

(** The first half of the switch: the protocol, its documents and the hosted pages.  Every
    optional service is configured, so the readiness checks pass. *)
Definition protocol_route (gates : Gates) (request : Request) (clock : nat → time) : option (Tx HTTPResponse) :=
  let path := Request_Path request in
  let method := Request_Method request in
  let get_post (get post : Tx HTTPResponse) : Tx HTTPResponse :=
    if method == "GET" then get else if method == "POST" then post else mret methodNotAllowed in
  if path == oidc.AuthorizePath then Some (handleAuthorize a request clock)
  else if path == oidc.AuthorizeContinuePath then Some (handleAuthorizeContinuation a request clock)
  else if path == "/consent" then Some (get_post (getConsent a request clock) (postConsent a request clock))
  else if path == oidc.TokenPath then Some (handleToken a (client_limited gates) request (clock 0%nat))
  else if path == oidc.UserInfoPath then Some (handleUserInfo a request (clock 0%nat))
  else if path == oidc.RevocationPath then Some (handleRevocation a (client_limited gates) request (clock 0%nat))
  else if path == oidc.IntrospectionPath then Some (handleIntrospection a (client_limited gates) request (clock 0%nat))
  else if path == oidc.LogoutPath then Some (handleRPLogoutRequest a request (clock 0%nat))
  else if path == oidc.LogoutConfirmPath then Some (handleRPLogoutConfirmation a request clock)
  else if path == oidc.DiscoveryPath then Some (mret (handleDiscovery request))
  else if path == oidc.JWKSPath then Some (mret (handleJWKS request))
  else if path == "/login" then
    Some (get_post (getAuthForm a "login" request (clock 0%nat)) (postLogin a (hash_gate gates) (rehash_gate gates) request clock))
  else if path == "/register" then
    Some (get_post (getAuthForm a "register" request (clock 0%nat)) (postRegister a (hash_gate gates) request clock))
  else if path == "/logout" then Some (if method != "POST" then mret methodNotAllowed else postLogout a request clock)
  else if path == "/auth/complete" then Some (if method != "GET" then mret methodNotAllowed else getComplete a request clock)
  else None.

(** The second half: the fixed paths of the API. *)
Definition api_route (gates : Gates) (request : Request) (clock : nat → time) : option (Tx HTTPResponse) :=
  let path := Request_Path request in
  if path == "/api/v1/me" then Some (handleMe request clock)
  else if path == "/api/v1/me/sessions" then Some (handleMySessions request clock)
  else if path == "/api/v1/me/sessions/revoke-others" then Some (handleRevokeOtherSessions request clock)
  else if path == "/api/v1/me/grants" then Some (handleMyGrants request clock)
  else if path == "/api/v1/me/grants/revoke" then Some (handleRevokeMyGrant request clock)
  else if path == "/api/admin/v1/me" then Some (handleAdminMe request clock)
  else if path == "/api/admin/v1/users" then Some (handleAdminUsers (hash_gate gates) request clock)
  else if path == "/api/admin/v1/clients" then Some (handleAdminClients request clock)
  else if path == "/api/admin/v1/sessions" then Some (handleAdminSessions request clock)
  else if path == "/api/admin/v1/audit-events" then Some (handleAdminAudit request clock)
  else None.

Definition ServeHTTP (gates : Gates) (request : Request) (clock : nat → time) : Tx HTTPResponse :=
  if oauthLifecycleRateLimited gates request then mret (writeOAuthRateLimitResponse request)
  else if authenticationRateLimited gates request then
    mret (if Request_Path request == oidc.AuthorizePath
          then writeError 429 "temporarily_unavailable" "authentication request rate limit exceeded"
          else renderErrorPage 429 "temporarily_unavailable")
  else match protocol_route gates request clock with
  | Some handler => handler
  | None =>
      match api_route gates request clock with
      | Some handler => handler
      | None => match serveDynamic request clock with Some handler => handler | None => mret not_found end
      end
  end.
End handlers.

(** [NewApplicationHandler] with every service: it fails when the issuer is no canonical
    origin. *)
Definition NewApplicationHandler (clients : client.Service) (transactions : authflow.Service) (sessions : SessionService)
    (authorization : AuthorizationService) (tokens : Service) (authn : authn.Service) (logout : logout.Service)
    (cookies : httpserver.CookieManager) (logoutCookies : logout.CookieManager) (issuer : URL) (admin : admin.Service)
    (publicKeys : bytes * string) : option Application :=
  match oidc.BuildProviderMetadata issuer true with
  | None => None
  | Some metadata => Some (mkApplication clients transactions sessions authorization tokens authn logout cookies logoutCookies issuer admin
                             publicKeys metadata)
  end.
End api.
