(* ===== verification/Config.v ===== *)
(** * Configuration

    [internal/config]: the defaults, the readers of the environment with their bounds, the
    cross checks, and the problems they report; then what start-up builds from a loaded
    configuration ([internal/app/app.go]).  An environment is a function from names to
    values.  [time.ParseDuration] and [netip.ParsePrefix] are translated; a 64-bit float is
    the [spec_float] of the Standard Library, each operation rounded to nearest even. *)

From Stdlib Require Import SpecFloat.
From S2P Require Import Prelude Text Errors Platform SessionTokens NetAddr Url Scopes Domain Opaque Database Tx TokenService AuthorizationService.
From S2P Require Import SessionService FlowService IdentityService AuthnService ClientService AdminService LogoutService Requests Endpoints Api.

(** ** Floats *)

Module float64.
Definition of_Z (n : Z) : spec_float := binary_normalize 53 1024 n 0 false.
Definition add : spec_float → spec_float → spec_float := SFadd 53 1024.
Definition sub : spec_float → spec_float → spec_float := SFsub 53 1024.
Definition mul : spec_float → spec_float → spec_float := SFmul 53 1024.
Definition div : spec_float → spec_float → spec_float := SFdiv 53 1024.
Definition lt : spec_float → spec_float → bool := SFltb.
(** [uint64(f)] of a finite float that is not negative: the fraction is cut off. *)
Definition to_uint64 (f : spec_float) : Z :=
  match f with S754_finite false m e => Z.shiftl (Zpos m) e | _ => 0 end.
End float64.

(** ** [time.ParseDuration] *)

Definition is_digit (c : ascii) : bool := bool_decide (is_Some (digit c)).

(** [leadingInt]: [None] on overflow. *)
Fixpoint leadingInt (x : Z) (s : string) : option (Z * string) :=
  match s with
  | String c r =>
      match digit c with
      | Some d => if 2 ^ 63 / 10 <? x then None else if 2 ^ 63 <? 10 * x + d then None else leadingInt (10 * x + d) r
      | None => Some (x, s)
      end
  | EmptyString => Some (x, "")
  end.

(** [leadingFraction]: the digits, their scale, and the rest; digits past an overflow are dropped. *)
Fixpoint leadingFraction (x : Z) (scale : spec_float) (overflow : bool) (s : string) : Z * spec_float * string :=
  match s with
  | String c r =>
      match digit c with
      | Some d =>
          if overflow then leadingFraction x scale true r
          else if (2 ^ 63 - 1) / 10 <? x then leadingFraction x scale true r
          else if 2 ^ 63 <? 10 * x + d then leadingFraction x scale true r
          else leadingFraction (10 * x + d) (float64.mul scale (float64.of_Z 10)) false r
      | None => (x, scale, s)
      end
  | EmptyString => (x, scale, "")
  end.

(** The bytes before the next digit or period. *)
Fixpoint unit_name (s : string) : string * string :=
  match s with
  | String c r => if Ascii.eqb c "." || is_digit c then ("", s) else let '(u, rest) := unit_name r in (String c u, rest)
  | EmptyString => ("", "")
  end.

(** [unitMap]; the micro sign and the Greek letter are two bytes each. *)
Definition unitMap (u : string) : option Z :=
  if u == "ns" then Some 1 else if u == "us" then Some 1000
  else if (u == String "194" (String "181" "s")) || (u == String "206" (String "188" "s")) then Some 1000
  else if u == "ms" then Some 1000000 else if u == "s" then Some Time.Second
  else if u == "m" then Some Time.Minute else if u == "h" then Some Time.Hour else None.

(** One number and its unit. *)
Definition duration_item (s : string) : option (Z * string) :=
  match s with
  | EmptyString => None
  | String c _ =>
      if negb (Ascii.eqb c "." || is_digit c) then None
      else
        match leadingInt 0 s with
        | None => None
        | Some (v, s1) =>
            let pre := negb (String.length s1 =? String.length s)%nat in
            let '(f, scale, s2, post) :=
              match s1 with
              | String "." s2 => let '(f, scale, s3) := leadingFraction 0 (float64.of_Z 1) false s2 in
                                 (f, scale, s3, negb (String.length s3 =? String.length s2)%nat)
              | _ => (0, float64.of_Z 1, s1, false)
              end in
            if negb pre && negb post then None
            else
              let '(u, rest) := unit_name s2 in
              if u == "" then None
              else match unitMap u with
              | None => None
              | Some unit =>
                  if 2 ^ 63 / unit <? v then None
                  else
                    let whole := v * unit in
                    let total := if 0 <? f then whole + float64.to_uint64 (float64.mul (float64.of_Z f) (float64.div (float64.of_Z unit) scale))
                                 else whole in
                    if 2 ^ 63 <? total then None else Some (total, rest)
              end
        end
  end.

(** Every item consumes a byte, so the length of the text bounds the turns. *)
Fixpoint duration_items (fuel : nat) (d : Z) (s : string) : option Z :=
  if s == "" then Some d
  else match fuel with
  | O => None
  | S fuel' =>
      match duration_item s with
      | Some (v, rest) => if 2 ^ 63 <? d + v then None else duration_items fuel' (d + v) rest
      | None => None
      end
  end.

Definition ParseDuration (text : string) : option duration :=
  let '(negative, s) :=
    match text with
    | String c r => if Ascii.eqb c "-" then (true, r) else if Ascii.eqb c "+" then (false, r) else (false, text)
    | EmptyString => (false, text)
    end in
  if s == "0" then Some 0
  else if s == "" then None
  else match duration_items (String.length s) 0 s with
  | None => None
  | Some d => if negative : bool then Some (- d) else if 2 ^ 63 - 1 <? d then None else Some d
  end.

Example durations : ParseDuration <$> ["90s"; "1h30m"; "1.5h"; "-2m"; "0"; "100us"; ".5s"; "5"; "h"; ""; "1.h"; "9223372036854775807ns"; "9223372036854775808ns"; "1m "; "0.3s"] =
  [Some (90 * Time.Second); Some (90 * Time.Minute); Some (90 * Time.Minute); Some (- 2 * Time.Minute); Some 0; Some 100000;
   Some 500000000; None; None; None; Some Time.Hour; Some 9223372036854775807; None; None; Some 300000000].
Proof. vm_compute. reflexivity. Qed.

(** ** [net], [netip] and [net/url] *)

(** [net.SplitHostPort]: the port follows the last colon; brackets only around the host. *)
Definition SplitHostPort (hostport : string) : option (string * string) :=
  match CutLast ":" hostport with
  | None => None
  | Some (host, port) =>
      match hostport with
      | String "[" rest =>
          let '(name, after, found) := Cut "]" rest in
          if negb found || (after != ":" +:+ port) || contains_byte "[" rest || contains_byte "]" after then None
          else Some (name, port)
      | _ => if contains_byte ":" host || contains_byte "[" hostport || contains_byte "]" hostport then None else Some (host, port)
      end
  end.

(** [URL.Port]. *)
Definition Port (u : URL) : string :=
  match CutLast ":" (URL_Host u) with Some (_, port) => if validOptionalPort (":" +:+ port) then port else "" | None => "" end.

(** [netip.ParsePrefix]: no zone, and no sign or leading zero before the bits. *)
Definition ParsePrefix (s : string) : option Prefix :=
  match CutLast "/" s with
  | None => None
  | Some (address, bits) =>
      match ParseAddr address with
      | None => None
      | Some (ip, zone) =>
          let maxBits := match ip with Addr6 _ => 128 | _ => 32 end in
          let sign := match bits with String c _ => (1 <? len bits) && negb ((49 <=? utf8.byte c) && (utf8.byte c <=? 57)) | EmptyString => false end in
          if (zone != "") || sign then None
          else match Atoi bits with
               | Some n => if (n <? 0) || (maxBits <? n) then None else Some (mkPrefix ip n)
               | None => None
               end
      end
  end.

(** The leading [bits] bits of fields of [width] bits each. *)
Fixpoint mask_fields (width bits : Z) (fields : list N) : list N :=
  match fields with
  | [] => []
  | f :: rest =>
      let cut := Z.to_N (width - Z.max 0 (Z.min width bits)) in
      N.shiftl (N.shiftr f cut) cut :: mask_fields width (bits - width) rest
  end.

(** [Prefix.Masked]. *)
Definition Masked (p : Prefix) : Prefix :=
  mkPrefix match Prefix_Addr p with
           | Addr4 f => Addr4 (mask_fields 8 (Prefix_Bits p) f)
           | Addr6 f => Addr6 (mask_fields 16 (Prefix_Bits p) f)
           | a => a
           end (Prefix_Bits p).

Example host_ports : SplitHostPort <$> [":8080"; "localhost:80"; "[::1]:443"; "::1:443"; "[::1]"; "host"; "[a]b:1"; "a]:1"; "h:"] =
  [Some ("", "8080"); Some ("localhost", "80"); Some ("::1", "443"); None; None; None; None; None; Some ("h", "")].
Proof. vm_compute. reflexivity. Qed.

Example prefixes_parsed : (λ s, Masked <$> ParsePrefix s) <$> ["10.9.8.7/12"; "10.0.0.0"; "10.0.0.0/33"; "10.0.0.0/08"; "2001:db8:ffff::/35"; "fe80::1%eth0/64"; "0.0.0.0/0"; "10.0.0.0/+8"] =
  [Some (mkPrefix (Addr4 [10; 0; 0; 0]%N) 12); None; None; None; Some (mkPrefix (Addr6 [8193; 3512; 57344; 0; 0; 0; 0; 0]%N) 35); None;
   Some (mkPrefix (Addr4 [0; 0; 0; 0]%N) 0); None].
Proof. vm_compute. reflexivity. Qed.

(** ** Settings *)

Module config.
Inductive Environment := EnvironmentDevelopment | EnvironmentTest | EnvironmentProduction.
#[global] Instance Environment_eq_dec : EqDecision Environment.
Proof. solve_decision. Defined.
Inductive LogFormat := LogFormatJSON | LogFormatText.
Inductive LogLevel := LogLevelDebug | LogLevelInfo | LogLevelWarn | LogLevelError.

Record HTTPConfig := mkHTTPConfig {
  HTTP_Addr : string; HTTP_ReadHeaderTimeout : duration; HTTP_ReadTimeout : duration; HTTP_WriteTimeout : duration;
  HTTP_IdleTimeout : duration; HTTP_MaxHeaderBytes : Z }.
Record SecretURL := newSecretURL { UnsafeValue : string }.
Record DatabaseConfig := mkDatabaseConfig { Database_URL : SecretURL; Database_MaxConns : Z }.
Record LogConfig := mkLogConfig { Log_Level : LogLevel; Log_Format : LogFormat }.
Record BrowserConfig := mkBrowserConfig {
  Browser_CookieName : string; Browser_CookieSecure : bool; Browser_SessionTTL : duration; Browser_SessionIdleTimeout : duration;
  Browser_CSRFTTL : duration; Browser_AuthTransactionTTL : duration; Browser_LoginReauthWindow : duration;
  Browser_CleanupInterval : duration; Browser_AuthRatePerMinute : Z; Browser_AuthRateBurst : Z; Browser_AuthGlobalRate : Z;
  Browser_AuthGlobalBurst : Z; Browser_RegistrationEnabled : bool }.
Record OIDCConfig := mkOIDCConfig {
  OIDC_SigningKeyFile : string; OIDC_VerificationKeysFile : string; OIDC_AuthorizationCodeTTL : duration;
  OIDC_IDTokenTTL : duration; OIDC_AccessTokenTTL : duration; OIDC_ClockSkew : duration }.
Record LifecycleConfig := mkLifecycleConfig {
  Lifecycle_RefreshTokenTTL : duration; Lifecycle_RefreshTokenAbsoluteTTL : duration; Lifecycle_LogoutTransactionTTL : duration;
  Lifecycle_LogoutMaxActivePerSession : Z; Lifecycle_LogoutIDTokenHintMaxAge : duration; Lifecycle_OAuthRatePerMinute : Z;
  Lifecycle_OAuthRateBurst : Z; Lifecycle_OAuthGlobalRate : Z; Lifecycle_OAuthGlobalBurst : Z }.
(** The issuer is a pointer. *)
Record Config := mkConfig {
  Config_Environment : Environment; Config_Issuer : option URL; Config_HTTP : HTTPConfig; Config_Database : DatabaseConfig;
  Config_Log : LogConfig; Config_Browser : BrowserConfig; Config_Password : identity.PasswordConfig; Config_OIDC : OIDCConfig;
  Config_Lifecycle : LifecycleConfig; Config_ShutdownTimeout : duration; Config_TrustedProxies : list Prefix }.

Inductive Scope := ScopeService | ScopeDatabase | ScopeBootstrap.
#[global] Instance Scope_eq_dec : EqDecision Scope.
Proof. solve_decision. Defined.

Definition defaultIssuer : string := "http://localhost:8080".
Definition defaultMaxHeaderBytes : Z := Z.shiftl 1 20.
Definition maxShutdownTimeout : duration := 5 * Time.Minute.
Definition maxHTTPTimeout : duration := 10 * Time.Minute.
Definition maxHeaderBytes : Z := Z.shiftl 16 20.
Definition maxDatabaseConnections : Z := 100.
Definition maxArgon2MemoryBudgetKiB : Z := 1024 * 1024.
Definition maxSessionTTL : duration := 30 * 24 * Time.Hour.
Definition maxCSRFTTL : duration := Time.Hour.
Definition maxAuthTransactionTTL : duration := Time.Hour.
Definition minAuthorizationCodeTTL : duration := 30 * Time.Second.
Definition maxAuthorizationCodeTTL : duration := 5 * Time.Minute.
Definition minIDTokenTTL : duration := Time.Minute.
Definition maxIDTokenTTL : duration := 15 * Time.Minute.
Definition minAccessTokenTTL : duration := Time.Minute.
Definition maxAccessTokenTTL : duration := 30 * Time.Minute.
Definition maxOIDCClockSkew : duration := 2 * Time.Minute.

Definition defaults : Config :=
  mkConfig EnvironmentDevelopment (Url.Parse defaultIssuer)
    (mkHTTPConfig ":8080" (5 * Time.Second) (10 * Time.Second) (30 * Time.Second) (60 * Time.Second) defaultMaxHeaderBytes)
    (mkDatabaseConfig (newSecretURL "") 10)
    (mkLogConfig LogLevelInfo LogFormatJSON)
    (mkBrowserConfig "oneissuer_session" false (24 * Time.Hour) (2 * Time.Hour) (15 * Time.Minute) (10 * Time.Minute)
       (15 * Time.Minute) (5 * Time.Minute) 20 10 50 100 false)
    (identity.mkPasswordConfig 15 1024 (64 * 1024) 3 2 2)
    (mkOIDCConfig "" "" Time.Minute (5 * Time.Minute) (10 * Time.Minute) (30 * Time.Second))
    (mkLifecycleConfig (30 * 24 * Time.Hour) (90 * 24 * Time.Hour) (5 * Time.Minute) 3 (24 * Time.Hour) 120 30 100 200)
    (15 * Time.Second) [].

(** ** Problems *)

(** A message; a formatted one keeps its arguments. *)
Inductive Complaint :=
| Says (message : string)
| MustNotExceed (maximum : duration)
| MustBeBetween (minimum maximum : duration)
| MustBeIntegerBetween (minimum maximum : Z).
Record Problem := mkProblem { Problem_Variable : string; Problem_Message : Complaint }.

(** A reader of the environment appends to the problems found so far. *)
Definition Load (A : Type) : Type := list Problem → A * list Problem.
#[global] Instance Load_ret : MRet Load := λ A a problems, (a, problems).
#[global] Instance Load_bind : MBind Load := λ A B f m problems, let '(a, problems) := m problems in f a problems.

Definition report (name : string) (c : Complaint) : Load unit := λ problems, ((), problems ++ [mkProblem name c]).
Definition report_if (b : bool) (name message : string) : Load unit := if b then report name (Says message) else mret ().

(** ** Values *)

(** [None] where the issuer is accepted. *)
Definition issuer_problem (raw : string) : option string :=
  if (raw == "") || (raw != TrimSpace raw) then Some "must be a canonical origin URL without surrounding whitespace"
  else match Url.Parse raw with
  | None => Some "must be an absolute http or https URL"
  | Some parsed =>
      if negb (IsAbs parsed) || (URL_Opaque parsed != "") || (URL_Host parsed == "") then Some "must be an absolute http or https URL"
      else if (URL_Scheme parsed != "http") && (URL_Scheme parsed != "https") then Some "must use the http or https scheme"
      else if URL_User parsed != None then Some "must not contain user information"
      else if (URL_Path parsed != "") || (URL_RawPath parsed != "") then Some "must be an origin URL without a path or trailing slash"
      else if (URL_RawQuery parsed != "") || URL_ForceQuery parsed || (URL_Fragment parsed != "") || contains_byte "#" raw
      then Some "must not contain a query or fragment"
      else if (Hostname parsed == "") || ends_with ":" (URL_Host parsed) then Some "must contain a valid host and optional port"
      else if (Port parsed != "") &&
              match Atoi (Port parsed) with Some n => (n <? 1) || (65535 <? n) | None => true end
      then Some "must contain a port between 1 and 65535"
      else if URL_String parsed != raw then Some "must use its canonical scheme and host encoding"
      else None
  end.
Definition validateIssuer (raw : string) : URL + string :=
  match issuer_problem raw, Url.Parse raw with
  | None, Some parsed => inl parsed
  | None, None => inr ""
  | Some message, _ => inr message
  end.

Definition isLoopbackIssuerHost (host : string) : bool :=
  if EqualFold host "localhost" then true
  else match ParseAddr host with Some (address, _) => IsLoopback address | None => false end.

Definition validateHTTPAddr (addr : string) : option string :=
  match SplitHostPort addr with
  | None => Some "must be a valid TCP listen address"
  | Some (_, port) =>
      match Atoi port with
      | Some n => if (n <? 1) || (65535 <? n) then Some "must contain a port between 1 and 65535" else None
      | None => Some "must contain a port between 1 and 65535"
      end
  end.

Definition validateDatabaseURL (raw : string) : option string :=
  match Url.Parse raw with
  | None => Some "must be a valid PostgreSQL URL with a host"
  | Some parsed =>
      if URL_Host parsed == "" then Some "must be a valid PostgreSQL URL with a host"
      else if (URL_Scheme parsed != "postgres") && (URL_Scheme parsed != "postgresql")
      then Some "must use the postgres or postgresql scheme"
      else if (URL_Path parsed == "") || (URL_Path parsed == "/") then Some "must select a database"
      else None
  end.

Definition databaseUsesVerifyFull (raw : string) : bool :=
  match Url.Parse raw with
  | None => false
  | Some parsed => match (ParseQuery (URL_RawQuery parsed)).1 !! "sslmode" with Some [value] => EqualFold value "verify-full" | _ => false end
  end.

Definition cookieNamePattern (name : string) : bool :=
  (name != "") &&
  every (λ c, alphanumeric c || one_of ["!"; "#"; "$"; "%"; "&"; "'"; "*"; "+"; "."; "^"; "_"; "`"; "|"; "~"; "-"]%char c) name.

Definition environment_of (raw : string) : option Environment :=
  if raw == "development" then Some EnvironmentDevelopment else if raw == "test" then Some EnvironmentTest
  else if raw == "production" then Some EnvironmentProduction else None.
Definition level_of (raw : string) : option LogLevel :=
  if raw == "debug" then Some LogLevelDebug else if raw == "info" then Some LogLevelInfo
  else if raw == "warn" then Some LogLevelWarn else if raw == "error" then Some LogLevelError else None.
Definition format_of (raw : string) : option LogFormat :=
  if raw == "json" then Some LogFormatJSON else if raw == "text" then Some LogFormatText else None.

(** ** Readers of the environment

    Each call of a reader has the default both as its fallback and in its target, so the
    default is the value whenever no other is accepted. *)

Section load.
Context (lookup : string → option string).

Definition valueOrDefault (name fallback : string) : string * bool :=
  match lookup name with Some value => (value, true) | None => (fallback, false) end.

(** A setting that is read from its text, with the complaint about a refused one. *)
Definition read {A} (name : string) (fallback : A) (parse : string → A + Complaint) : Load A :=
  match lookup name with
  | None => mret fallback
  | Some raw => match parse raw with inl value => mret value | inr c => report name c ≫= λ _, mret fallback end
  end.

Definition parseDuration (name : string) (fallback maximum : duration) : Load duration :=
  read name fallback (λ raw,
    match ParseDuration raw with
    | Some value => if value <=? 0 then inr (Says "must be a positive duration") else if maximum <? value then inr (MustNotExceed maximum) else inl value
    | None => inr (Says "must be a positive duration")
    end).

Definition parseDurationRange (name : string) (fallback minimum maximum : duration) (allowZero : bool) : Load duration :=
  read name fallback (λ raw,
    match ParseDuration raw with
    | Some value => if (value <? minimum) || (maximum <? value) || (negb allowZero && (value =? 0)) then inr (MustBeBetween minimum maximum) else inl value
    | None => inr (MustBeBetween minimum maximum)
    end).

(** The readers of integers differ in the number they scan. *)
Definition parse_bounded (scan : string → option Z) (name : string) (fallback minimum maximum : Z) : Load Z :=
  read name fallback (λ raw,
    match scan raw with
    | Some value => if (value <? minimum) || (maximum <? value) then inr (MustBeIntegerBetween minimum maximum) else inl value
    | None => inr (MustBeIntegerBetween minimum maximum)
    end).
Definition parseInt32 : string → Z → Z → Z → Load Z := parse_bounded (λ raw, ParseInt raw 32).
Definition parseInt : string → Z → Z → Z → Load Z := parse_bounded Atoi.
Definition parseUint32 : string → Z → Z → Z → Load Z := parse_bounded (λ raw, ParseUint raw 32).
Definition parseUint8 : string → Z → Z → Z → Load Z := parse_bounded (λ raw, ParseUint raw 8).

(** The value, and whether the variable is set. *)
Definition parseBool (name : string) (fallback : bool) : Load (bool * bool) :=
  value ← read name fallback (λ raw, match ParseBool raw with Some value => inl value | None => inr (Says "must be true or false") end);
  mret (value, bool_decide (is_Some (lookup name))).

Definition parseLogLevel (level : LogLevel) : Load LogLevel :=
  read "ONEISSUER_LOG_LEVEL" level (λ raw,
    match level_of raw with Some level => inl level | None => inr (Says "must be one of debug, info, warn, error") end).
Definition parseLogFormat (format : LogFormat) : Load LogFormat :=
  read "ONEISSUER_LOG_FORMAT" format (λ raw,
    match format_of raw with Some format => inl format | None => inr (Says "must be one of json, text") end).

Definition parsePasswordConfig (p : identity.PasswordConfig) : Load identity.PasswordConfig :=
  minLength ← parseInt "ONEISSUER_PASSWORD_MIN_LENGTH" (identity.PasswordConfig_MinLength p) 15 128;
  maxBytes ← parseInt "ONEISSUER_PASSWORD_MAX_BYTES" (identity.PasswordConfig_MaxBytes p) 64 4096;
  _ ← report_if (maxBytes <? minLength) "ONEISSUER_PASSWORD_MAX_BYTES" "must be at least the configured minimum password length";
  memory ← parseUint32 "ONEISSUER_ARGON2_MEMORY_KIB" (identity.PasswordConfig_Argon2MemoryKiB p) (19 * 1024) (1024 * 1024);
  time ← parseUint32 "ONEISSUER_ARGON2_TIME" (identity.PasswordConfig_Argon2Time p) 2 10;
  threads ← parseUint8 "ONEISSUER_ARGON2_THREADS" (identity.PasswordConfig_Argon2Threads p) 1 16;
  maxConcurrent ← parseInt "ONEISSUER_ARGON2_MAX_CONCURRENT" (identity.PasswordConfig_MaxConcurrent p) 1 64;
  _ ← report_if (maxArgon2MemoryBudgetKiB <? (memory * maxConcurrent) mod 2 ^ 64) "ONEISSUER_ARGON2_MAX_CONCURRENT"
        "combined Argon2 memory budget must not exceed 1048576 KiB";
  mret (identity.mkPasswordConfig minLength maxBytes memory time threads maxConcurrent).

Definition parseBrowserConfig (environment : Environment) (b : BrowserConfig) : Load BrowserConfig :=
  cookieName ← read "ONEISSUER_COOKIE_NAME" (Browser_CookieName b) (λ raw,
    if cookieNamePattern raw then inl raw else inr (Says "must be a valid cookie name"));
  secure ← parseBool "ONEISSUER_COOKIE_SECURE" (Browser_CookieSecure b);
  sessionTTL ← parseDuration "ONEISSUER_SESSION_TTL" (Browser_SessionTTL b) maxSessionTTL;
  idleTimeout ← parseDuration "ONEISSUER_SESSION_IDLE_TIMEOUT" (Browser_SessionIdleTimeout b) maxSessionTTL;
  csrfTTL ← parseDuration "ONEISSUER_CSRF_TTL" (Browser_CSRFTTL b) maxCSRFTTL;
  transactionTTL ← parseDuration "ONEISSUER_AUTH_TRANSACTION_TTL" (Browser_AuthTransactionTTL b) maxAuthTransactionTTL;
  reauthWindow ← parseDuration "ONEISSUER_LOGIN_REAUTH_WINDOW" (Browser_LoginReauthWindow b) (24 * Time.Hour);
  cleanupInterval ← parseDuration "ONEISSUER_CLEANUP_INTERVAL" (Browser_CleanupInterval b) Time.Hour;
  perMinute ← parseInt "ONEISSUER_AUTH_RATE_PER_MINUTE" (Browser_AuthRatePerMinute b) 1 60000;
  burst ← parseInt "ONEISSUER_AUTH_RATE_BURST" (Browser_AuthRateBurst b) 1 1000;
  globalRate ← parseInt "ONEISSUER_AUTH_GLOBAL_RATE_PER_SECOND" (Browser_AuthGlobalRate b) 1 10000;
  globalBurst ← parseInt "ONEISSUER_AUTH_GLOBAL_BURST" (Browser_AuthGlobalBurst b) 1 20000;
  registration ← parseBool "ONEISSUER_REGISTRATION_ENABLED" (Browser_RegistrationEnabled b);
  _ ← report_if (sessionTTL <? idleTimeout) "ONEISSUER_SESSION_IDLE_TIMEOUT" "must not exceed ONEISSUER_SESSION_TTL";
  _ ← (if environment == EnvironmentProduction then
         _ ← report_if (negb secure.1) "ONEISSUER_COOKIE_SECURE" "must be true in production";
         _ ← report_if (negb (HasPrefix cookieName "__Host-")) "ONEISSUER_COOKIE_NAME" "must use the __Host- prefix in production";
         report_if (negb registration.2) "ONEISSUER_REGISTRATION_ENABLED" "must be explicitly set in production"
       else mret ());
  mret (mkBrowserConfig cookieName secure.1 sessionTTL idleTimeout csrfTTL transactionTTL reauthWindow cleanupInterval perMinute burst
          globalRate globalBurst registration.1).

Definition parseOIDCConfig (o : OIDCConfig) : Load OIDCConfig :=
  signingKeyFile ← match lookup "ONEISSUER_SIGNING_KEY_FILE" with
    | None => report "ONEISSUER_SIGNING_KEY_FILE" (Says "is required") ≫= λ _, mret (OIDC_SigningKeyFile o)
    | Some file =>
        if TrimSpace file == "" then report "ONEISSUER_SIGNING_KEY_FILE" (Says "is required") ≫= λ _, mret (OIDC_SigningKeyFile o)
        else if (file != TrimSpace file) || contains_byte NUL file
        then report "ONEISSUER_SIGNING_KEY_FILE" (Says "must be a non-empty file reference without surrounding whitespace") ≫= λ _, mret (OIDC_SigningKeyFile o)
        else mret file
    end;
  verificationKeysFile ← match lookup "ONEISSUER_VERIFICATION_KEYS_FILE" with
    | None => mret (OIDC_VerificationKeysFile o)
    | Some file =>
        if TrimSpace file == "" then mret (OIDC_VerificationKeysFile o)
        else if (file != TrimSpace file) || contains_byte NUL file
        then report "ONEISSUER_VERIFICATION_KEYS_FILE" (Says "must be a file reference without surrounding whitespace") ≫= λ _, mret (OIDC_VerificationKeysFile o)
        else mret file
    end;
  codeTTL ← parseDurationRange "ONEISSUER_AUTHORIZATION_CODE_TTL" (OIDC_AuthorizationCodeTTL o) minAuthorizationCodeTTL maxAuthorizationCodeTTL false;
  idTokenTTL ← parseDurationRange "ONEISSUER_ID_TOKEN_TTL" (OIDC_IDTokenTTL o) minIDTokenTTL maxIDTokenTTL false;
  accessTokenTTL ← parseDurationRange "ONEISSUER_ACCESS_TOKEN_TTL" (OIDC_AccessTokenTTL o) minAccessTokenTTL maxAccessTokenTTL false;
  clockSkew ← parseDurationRange "ONEISSUER_OIDC_CLOCK_SKEW" (OIDC_ClockSkew o) 0 maxOIDCClockSkew true;
  mret (mkOIDCConfig signingKeyFile verificationKeysFile codeTTL idTokenTTL accessTokenTTL clockSkew).

Definition parseLifecycleConfig (l : LifecycleConfig) : Load LifecycleConfig :=
  refreshTTL ← parseDurationRange "ONEISSUER_REFRESH_TOKEN_TTL" (Lifecycle_RefreshTokenTTL l) Time.Hour (30 * 24 * Time.Hour) false;
  absoluteTTL ← parseDurationRange "ONEISSUER_REFRESH_TOKEN_ABSOLUTE_TTL" (Lifecycle_RefreshTokenAbsoluteTTL l) (24 * Time.Hour)
                  (365 * 24 * Time.Hour) false;
  _ ← report_if (absoluteTTL <? refreshTTL) "ONEISSUER_REFRESH_TOKEN_ABSOLUTE_TTL" "must be at least ONEISSUER_REFRESH_TOKEN_TTL";
  logoutTTL ← parseDurationRange "ONEISSUER_LOGOUT_TRANSACTION_TTL" (Lifecycle_LogoutTransactionTTL l) Time.Minute (15 * Time.Minute) false;
  maxActive ← parseInt "ONEISSUER_LOGOUT_MAX_ACTIVE_PER_SESSION" (Lifecycle_LogoutMaxActivePerSession l) 1 5;
  hintMaxAge ← parseDurationRange "ONEISSUER_LOGOUT_ID_TOKEN_HINT_MAX_AGE" (Lifecycle_LogoutIDTokenHintMaxAge l) (5 * Time.Minute)
                 (30 * 24 * Time.Hour) false;
  perMinute ← parseInt "ONEISSUER_OAUTH_RATE_PER_MINUTE" (Lifecycle_OAuthRatePerMinute l) 1 60000;
  burst ← parseInt "ONEISSUER_OAUTH_RATE_BURST" (Lifecycle_OAuthRateBurst l) 1 1000;
  globalRate ← parseInt "ONEISSUER_OAUTH_GLOBAL_RATE_PER_SECOND" (Lifecycle_OAuthGlobalRate l) 1 10000;
  globalBurst ← parseInt "ONEISSUER_OAUTH_GLOBAL_BURST" (Lifecycle_OAuthGlobalBurst l) 1 20000;
  mret (mkLifecycleConfig refreshTTL absoluteTTL logoutTTL maxActive hintMaxAge perMinute burst globalRate globalBurst).

Definition parseTrustedProxies : Load (list Prefix) :=
  match lookup "ONEISSUER_TRUSTED_PROXIES" with
  | None => mret []
  | Some raw =>
      if TrimSpace raw == "" then mret []
      else match mapM (λ part, ParsePrefix (TrimSpace part)) (Split "," raw) with
           | Some prefixes => mret (Masked <$> prefixes)
           | None => report "ONEISSUER_TRUSTED_PROXIES" (Says "must be a comma-separated list of CIDR prefixes") ≫= λ _, mret []
           end
  end.

(** ** [LoadFrom] *)

(** The settings every scope reads. *)
Definition load_database : Load (DatabaseConfig * Environment) :=
  url ← match lookup "ONEISSUER_DATABASE_URL" with
    | None => report "ONEISSUER_DATABASE_URL" (Says "is required") ≫= λ _, mret (Database_URL (Config_Database defaults))
    | Some raw =>
        if TrimSpace raw == "" then report "ONEISSUER_DATABASE_URL" (Says "is required") ≫= λ _, mret (Database_URL (Config_Database defaults))
        else match validateDatabaseURL raw with
             | Some message => report "ONEISSUER_DATABASE_URL" (Says message) ≫= λ _, mret (Database_URL (Config_Database defaults))
             | None => mret (newSecretURL raw)
             end
    end;
  maxConns ← parseInt32 "ONEISSUER_DATABASE_MAX_CONNS" (Database_MaxConns (Config_Database defaults)) 1 maxDatabaseConnections;
  environment ← read "ONEISSUER_ENV" (Config_Environment defaults) (λ raw,
    match environment_of raw with Some environment => inl environment | None => inr (Says "must be one of development, test, production") end);
  _ ← report_if ((environment == EnvironmentProduction) &&
        match lookup "ONEISSUER_DATABASE_URL" with Some raw => negb (databaseUsesVerifyFull raw) | None => false end)
        "ONEISSUER_DATABASE_URL" "must explicitly use sslmode=verify-full in production";
  mret (mkDatabaseConfig url maxConns, environment).

Definition load_issuer (environment : Environment) : Load (option URL) :=
  let '(raw, issuerSet) := valueOrDefault "ONEISSUER_ISSUER" defaultIssuer in
  let issuer := match validateIssuer raw with inl issuer => Some issuer | inr _ => None end in
  _ ← match validateIssuer raw with inl _ => mret () | inr message => report "ONEISSUER_ISSUER" (Says message) end;
  _ ← report_if match issuer with Some u => (URL_Scheme u == "http") && negb (isLoopbackIssuerHost (Hostname u)) | None => false end
        "ONEISSUER_ISSUER" "may use http only with an explicit loopback host";
  _ ← (if environment == EnvironmentProduction then
         if negb issuerSet then report "ONEISSUER_ISSUER" (Says "must be explicitly set in production")
         else report_if match issuer with Some u => URL_Scheme u != "https" | None => false end
                "ONEISSUER_ISSUER" "must use https in production"
       else mret ());
  mret match issuer with Some _ => issuer | None => Config_Issuer defaults end.

Definition load_http : Load string :=
  let '(addr, _) := valueOrDefault "ONEISSUER_HTTP_ADDR" (HTTP_Addr (Config_HTTP defaults)) in
  match validateHTTPAddr addr with
  | Some message => report "ONEISSUER_HTTP_ADDR" (Says message) ≫= λ _, mret (HTTP_Addr (Config_HTTP defaults))
  | None => mret addr
  end.

(** The settings of the service beyond the database and the passwords. *)
Definition load_service (database : DatabaseConfig) (environment : Environment) (password : identity.PasswordConfig) : Load Config :=
  let http := Config_HTTP defaults in
  issuer ← load_issuer environment;
  addr ← load_http;
  level ← parseLogLevel (Log_Level (Config_Log defaults));
  format ← parseLogFormat (Log_Format (Config_Log defaults));
  shutdownTimeout ← parseDuration "ONEISSUER_SHUTDOWN_TIMEOUT" (Config_ShutdownTimeout defaults) maxShutdownTimeout;
  readHeaderTimeout ← parseDuration "ONEISSUER_HTTP_READ_HEADER_TIMEOUT" (HTTP_ReadHeaderTimeout http) maxHTTPTimeout;
  readTimeout ← parseDuration "ONEISSUER_HTTP_READ_TIMEOUT" (HTTP_ReadTimeout http) maxHTTPTimeout;
  writeTimeout ← parseDuration "ONEISSUER_HTTP_WRITE_TIMEOUT" (HTTP_WriteTimeout http) maxHTTPTimeout;
  idleTimeout ← parseDuration "ONEISSUER_HTTP_IDLE_TIMEOUT" (HTTP_IdleTimeout http) maxHTTPTimeout;
  maxHeaders ← parseInt32 "ONEISSUER_HTTP_MAX_HEADER_BYTES" defaultMaxHeaderBytes 1 maxHeaderBytes;
  proxies ← parseTrustedProxies;
  browser ← parseBrowserConfig environment (Config_Browser defaults);
  oidc ← parseOIDCConfig (Config_OIDC defaults);
  lifecycle ← parseLifecycleConfig (Config_Lifecycle defaults);
  mret (mkConfig environment issuer (mkHTTPConfig addr readHeaderTimeout readTimeout writeTimeout idleTimeout maxHeaders) database
          (mkLogConfig level format) browser password oidc lifecycle shutdownTimeout proxies).

Definition with_database (database : DatabaseConfig) (environment : Environment) (password : identity.PasswordConfig) : Config :=
  mkConfig environment (Config_Issuer defaults) (Config_HTTP defaults) database (Config_Log defaults) (Config_Browser defaults) password
    (Config_OIDC defaults) (Config_Lifecycle defaults) (Config_ShutdownTimeout defaults) (Config_TrustedProxies defaults).

Definition load (scope : Scope) : Load Config :=
  '(database, environment) ← load_database;
  if scope == ScopeDatabase then mret (with_database database environment (Config_Password defaults))
  else
    password ← parsePasswordConfig (Config_Password defaults);
    if scope == ScopeBootstrap then mret (with_database database environment password)
    else load_service database environment password.

(** The configuration, or every problem found. *)
Definition LoadFrom (scope : Scope) : Config + list Problem :=
  match load scope [] with (cfg, []) => inl cfg | (_, problems) => inr problems end.
End load.

(** ** Redaction *)

Section redaction.
Context {T : TextLibrary}.

Fixpoint replace_dash (s : string) : string :=
  match s with EmptyString => "" | String c r => String (if Ascii.eqb c "-" then "_"%char else c) (replace_dash r) end.
Definition isSecretName (name : string) : bool :=
  let normalized := ToLower (replace_dash name) in
  existsb (λ fragment, bool_decide (is_Some (CutBefore fragment normalized)))
    ["password"; "passwd"; "secret"; "token"; "credential"; "authorization"; "cookie"].

Definition redact_user (user : string * option string) : string * option string :=
  match user.2 with Some _ => (user.1, Some "xxxxx") | None => user end.
Definition redact_values (values : gmap string (list string)) : gmap string (list string) :=
  map_imap (λ key entries, Some (if isSecretName key then ["xxxxx"] else entries)) values.
Definition with_user (user : option (string * option string)) (u : URL) : URL :=
  mkURL (URL_Scheme u) (URL_Opaque u) user (URL_Host u) (URL_Path u) (URL_RawPath u) (URL_OmitHost u)
    (URL_ForceQuery u) (URL_RawQuery u) (URL_Fragment u) (URL_RawFragment u).

(** Redaction of a parsed URL. *)
Definition redact (parsed : URL) : URL :=
  with_raw_query (Encode_values (redact_values (ParseQuery (URL_RawQuery parsed)).1)) (with_user (redact_user <$> URL_User parsed) parsed).
Definition RedactURL (raw : string) : string :=
  if raw == "" then "" else match Url.Parse raw with None => "<redacted>" | Some parsed => URL_String (redact parsed) end.

(** [SecretURL.String], which [LogValue] and [MarshalJSON] show too. *)
Definition SecretURL_String (s : SecretURL) : string := RedactURL (UnsafeValue s).
End redaction.
End config.

(** ** Start-up *)

Section serve.
Context {P : Platform} {T : TextLibrary} {K : KeyDerivation}.

(** A constructor that fails ends the start-up. *)
Definition initialized {A} (value : option A) (e : string) : Rnd A := match value with Some a => mret a | None => rnd_throw (errors_New e) end.

(** The services [Serve] builds; [gate] is what the password workers answer to the dummy
    hash, [keys] the key set and its tag. *)
Definition services (cfg : config.Config) (gate : option error) (keys : bytes * string) : Rnd httpserver.Application :=
  let browser := config.Config_Browser cfg in
  let oidc := config.Config_OIDC cfg in
  let lifecycle := config.Config_Lifecycle cfg in
  identityService ← identity.NewService (config.Config_Password cfg) gate;
  tokenManager ← initialized (NewTokenManager (config.Browser_SessionTTL browser) (config.Browser_SessionIdleTimeout browser)
                   (config.Browser_CSRFTTL browser)) "initialize session service";
  let clientService := client.NewService (config.Config_Environment cfg != config.EnvironmentProduction) in
  authflowService ← initialized (authflow.NewService (config.Browser_AuthTransactionTTL browser)) "initialize authorization transaction service";
  authorizationService ← initialized (NewAuthorizationService (config.OIDC_AuthorizationCodeTTL oidc)) "initialize authorization service";
  issuer ← initialized (config.Config_Issuer cfg) "nil pointer dereference";
  protocolTokenService ← initialized (NewService (URL_String issuer) (config.OIDC_IDTokenTTL oidc) (config.OIDC_AccessTokenTTL oidc)
      (config.OIDC_ClockSkew oidc)
      [WithRefreshLifetimes (config.Lifecycle_RefreshTokenTTL lifecycle) (config.Lifecycle_RefreshTokenAbsoluteTTL lifecycle)])
    "initialize token service";
  logoutService ← initialized (logout.NewService (URL_String issuer) (config.Lifecycle_LogoutTransactionTTL lifecycle)
      (config.Lifecycle_LogoutIDTokenHintMaxAge lifecycle) (config.OIDC_ClockSkew oidc) (config.Lifecycle_LogoutMaxActivePerSession lifecycle))
    "initialize RP logout service";
  let authnService := authn.mkService identityService tokenManager authflowService (config.Browser_RegistrationEnabled browser) in
  let sessionService := NewSessionService tokenManager in
  let adminService := admin.mkService identityService clientService (config.Browser_LoginReauthWindow browser) in
  let cookies := httpserver.NewCookieManager (config.Browser_CookieName browser) (config.Browser_CookieSecure browser)
                   (config.Browser_SessionTTL browser) (config.Browser_CSRFTTL browser) in
  let logoutCookies := logout.NewCookieManager (config.Browser_CookieName browser) (config.Browser_CookieSecure browser)
                         (config.Lifecycle_LogoutTransactionTTL lifecycle) in
  initialized (api.NewApplicationHandler clientService authflowService sessionService authorizationService protocolTokenService authnService
    logoutService cookies logoutCookies issuer adminService keys) "initialize application HTTP routes".
End serve.
