(* ===== verification/Perimeter.v ===== *)
(** * The perimeter

    What a request meets before the handlers ([internal/httpserver]): the request identifier
    ([request_id.go]), the address of the client behind trusted proxies
    ([trusted_proxy.go]), the route and method labels ([middleware.go]), the outer router with
    its health checks ([handler.go], [readiness.go]), and the token buckets of the two rate
    limiters ([auth_rate_limit.go]).  The buckets count in 64-bit floats. *)

From Stdlib Require Import SpecFloat.
From S2P Require Import Prelude Text Sha256 Base64 Errors Platform Domain SessionTokens NetAddr Url AuditEvents Tx TokenService AuthorizationService IdentityService LogoutService Requests Endpoints Api Config.
Import httpserver api.

#[export] Instance Addr_countable : Countable Addr.
Proof.
  refine (inj_countable'
    (λ a, match a with AddrInvalid => (0, []) | Addr4 l => (1, l) | Addr6 l => (2, l) end)
    (λ p, match p with (0, _) => AddrInvalid | (1, l) => Addr4 l | (_, l) => Addr6 l end) _).
  by intros [].
Defined.

(** ** Addresses with their zone *)

Definition ZonedAddr : Type := Addr * string.
Definition IsValid (a : ZonedAddr) : bool := a.1 != AddrInvalid.
(** [Addr.Unmap]: a mapped IPv4 address loses its zone too. *)
Definition unmap (a : ZonedAddr) : ZonedAddr := if Unmap a.1 == a.1 then a else (Unmap a.1, "").
(** [Prefix.Contains] holds of no address with a zone. *)
Definition prefix_contains (p : Prefix) (a : ZonedAddr) : bool := (a.2 == "") && Prefix_Contains p a.1.

(** ** [trusted_proxy.go] *)

Record ProxyInfo := mkProxyInfo { Proxy_ClientIP : ZonedAddr; Proxy_Scheme : string; Proxy_Host : string; Proxy_Trusted : bool }.

Definition remoteIP (remoteAddr : string) : ZonedAddr :=
  match SplitHostPort remoteAddr with
  | None => (AddrInvalid, "")
  | Some (host, _) => match ParseAddr host with Some address => unmap address | None => (AddrInvalid, "") end
  end.

Definition addressInPrefixes (address : ZonedAddr) (prefixes : list Prefix) : bool :=
  existsb (λ prefix, prefix_contains prefix (unmap address)) prefixes.

(** The first address from the back that is not trusted, or else the first of all. *)
Fixpoint first_untrusted (trusted : list Prefix) (reversed : list ZonedAddr) : option ZonedAddr :=
  match reversed with
  | [] => None
  | a :: rest => if addressInPrefixes a trusted then first_untrusted trusted rest else Some a
  end.

(** The parts of the header values, in order. *)
Definition forwarded_parts (headerValues : list string) : list string := headerValues ≫= Split ",".

Definition forwardedClientIP (headerValues : list string) (peer : ZonedAddr) (trusted : list Prefix) : ZonedAddr :=
  match mapM (λ part, ParseAddr (TrimSpace part)) (forwarded_parts headerValues) with
  | None => peer
  | Some addresses =>
      let chain := (unmap <$> addresses) ++ [peer] in
      match first_untrusted trusted (reverse chain) with
      | Some address => address
      | None => default peer (head chain)
      end
  end.

Section proxies.
Context {T : TextLibrary}.

Definition firstHeaderValue (value : string) : string := ToLower (TrimSpace (Cut "," value).1.1).
Definition sanitizeForwardedHost (host : string) : string :=
  let host := TrimSpace host in
  if (host == "") || ContainsAny host [CR; LF; "/"; "\"; "@"]%char || (255 <? len host) then "" else host.

Definition trustedProxyMiddleware (prefixes : list Prefix) (remoteAddr : string) (header : Header) : ProxyInfo :=
  let peer := remoteIP remoteAddr in
  if IsValid peer && addressInPrefixes peer prefixes then
    let scheme := firstHeaderValue (Header_Get header "X-Forwarded-Proto") in
    mkProxyInfo (forwardedClientIP (Header_Values header "X-Forwarded-For") peer prefixes)
      (if (scheme == "http") || (scheme == "https") then scheme else "")
      (sanitizeForwardedHost (firstHeaderValue (Header_Get header "X-Forwarded-Host"))) true
  else mkProxyInfo peer "" "" false.
End proxies.

(** [requestClientIP], from [application.go]. *)
Definition requestClientIP (proxy : ProxyInfo) (remoteAddr : string) : ZonedAddr :=
  if IsValid (Proxy_ClientIP proxy) then Proxy_ClientIP proxy
  else
    let host := match SplitHostPort remoteAddr with Some (host, _) => host | None => remoteAddr end in
    default (AddrInvalid, "") (ParseAddr host).

(** ** [request_id.go] *)

(** [X-Request-ID], as a header map spells it. *)
Definition requestIDHeader : string := "X-Request-Id".
Definition ValidRequestID (value : string) : bool :=
  match value with
  | EmptyString => false
  | String c rest => alphanumeric c && (len rest <=? 127) && every (λ d, alphanumeric d || one_of ["."; "_"; ":"; "-"]%char d) rest
  end.

(** [random] is what the random source answers, [seed] the text of the clock and the counter. *)
Definition newRequestID (random : option bytes) (seed : string) : string :=
  "req_" +:+ Base64.Encode match random with Some bytes => bytes | None => str_take 18 (Sha256.Sum256 seed) end.

Definition requestIDMiddleware (header : Header) (random : option bytes) (seed : string) : string :=
  let requestID := match Header_Values header requestIDHeader with [value] => if ValidRequestID value then value else "" | _ => "" end in
  if requestID == "" then newRequestID random seed else requestID.

(** ** [middleware.go] *)

Definition metricMethod (method : string) : string :=
  if bool_decide (method ∈ ["GET"; "HEAD"; "POST"; "PUT"; "PATCH"; "DELETE"; "OPTIONS"]) then method else "OTHER".

Definition fixed_routes : list string :=
  ["/health/live"; "/health/ready"; "/metrics"; "/login"; "/register"; "/consent"; "/logout"; "/auth/complete";
   "/.well-known/openid-configuration"; "/oauth2/jwks"; "/oauth2/authorize"; "/oauth2/authorize/continue"; "/oauth2/token";
   "/oauth2/userinfo"; "/oauth2/revoke"; "/oauth2/introspect"; "/oauth2/logout"; "/oauth2/logout/confirm";
   "/api/v1/me"; "/api/v1/me/sessions"; "/api/v1/me/sessions/revoke-others"; "/api/v1/me/grants"; "/api/v1/me/grants/revoke";
   "/api/admin/v1/me"; "/api/admin/v1/users"; "/api/admin/v1/clients"; "/api/admin/v1/sessions"; "/api/admin/v1/audit-events"].

Definition routeLabel (path : string) : string :=
  if bool_decide (path ∈ fixed_routes) then path
  else
    let parts := path_parts path in
    let count := length parts in
    let under (prefix : list string) : bool := take 4 parts == prefix in
    if (count =? 6)%nat && under ["api"; "v1"; "me"; "sessions"] && (part parts 5 == "revoke") then "/api/v1/me/sessions/{id}/revoke"
    else if (count =? 5)%nat && under ["api"; "admin"; "v1"; "users"] then "/api/admin/v1/users/{id}"
    else if (count =? 6)%nat && under ["api"; "admin"; "v1"; "users"] && (part parts 5 == "revoke-sessions")
    then "/api/admin/v1/users/{id}/revoke-sessions"
    else if (count =? 5)%nat && under ["api"; "admin"; "v1"; "clients"] then "/api/admin/v1/clients/{id}"
    else if (count =? 7)%nat && under ["api"; "admin"; "v1"; "clients"] && (part parts 5 == "secrets") && (part parts 6 == "rotate")
    then "/api/admin/v1/clients/{id}/secrets/rotate"
    else if (count =? 6)%nat && under ["api"; "admin"; "v1"; "sessions"] && (part parts 5 == "revoke") then "/api/admin/v1/sessions/{id}/revoke"
    else "unmatched".

(** ** [readiness.go] and the outer router *)

(** The gate and the changes its callback has been told, the latest first. *)
Record Readiness := mkReadiness { ready : bool; changes : list bool }.
Definition NewReadiness : Readiness := mkReadiness false [false].
Definition Readiness_Set (r : Readiness) (value : bool) : Readiness :=
  mkReadiness value (if ready r != value then value :: changes r else changes r).
Definition IsReady (r : Readiness) : bool := ready r.

Inductive Served :=
| StatusPage (status : Z) (text : string) (requestID : string)
| MetricsPage
| Handled (response : HTTPResponse).

Definition requireGET (request : Request) : bool := Request_Method request == "GET".

(** [ping] is what the database answers. *)
Definition ready_status (r : Readiness) (ping : option error) (request : Request) : Served :=
  if negb (IsReady r) then StatusPage 503 "unavailable" (Request_ID request)
  else match ping with
       | Some _ => StatusPage 503 "unavailable" (Request_ID request)
       | None => StatusPage 200 "ready" ""
       end.

Section router.
Context {P : Platform} {C : TokenCodec} {H : logout.HintCodec} {T : TextLibrary} {K : KeyDerivation} {F : Fosite} {M : HttpLibrary}.
Context {G : GrantCursorCodec} {L : ApiLibrary}.

Definition router_ServeHTTP (a : Application) (r : Readiness) (ping : option error) (gates : Gates) (request : Request) (clock : nat → time) : Tx Served :=
  let path := Request_Path request in
  if path == "/health/live" then mret (if requireGET request then StatusPage 200 "ok" "" else Handled methodNotAllowed)
  else if path == "/health/ready" then mret (if requireGET request then ready_status r ping request else Handled methodNotAllowed)
  else if path == "/metrics" then mret (if requireGET request then MetricsPage else Handled methodNotAllowed)
  else response ← ServeHTTP a gates request clock; mret (Handled response).

(** The request the handlers see: its identifier and the address of its client. *)
Definition with_perimeter (proxies : list Prefix) (remoteAddr : string) (random : option bytes) (seed : string) (request : Request) : Request :=
  let info := trustedProxyMiddleware proxies remoteAddr (Request_Header request) in
  mkRequest (Request_Method request) (Request_Path request) (Request_URI request) (Request_RawQuery request) (Request_ForceQuery request)
    (Request_Header request) (Request_ContentLength request) (Request_Body request) (Request_Cookie request) (Request_UserAgent request)
    (requestClientIP info remoteAddr).1 (requestIDMiddleware (Request_Header request) random seed).

(** [NewHandler]: identifier, proxy, then the router.  The other middleware writes logs and headers. *)
Definition NewHandler (a : Application) (r : Readiness) (ping : option error) (proxies : list Prefix) (gates : Gates)
    (remoteAddr : string) (random : option bytes) (seed : string) (request : Request) (clock : nat → time) : Tx Served :=
  router_ServeHTTP a r ping gates (with_perimeter proxies remoteAddr random seed request) clock.
End router.

(** ** [auth_rate_limit.go] *)

Definition defaultAuthRatePerMinute : Z := 20.
Definition defaultAuthRateBurst : Z := 10.
Definition defaultAuthGlobalRate : Z := 50.
Definition defaultAuthGlobalBurst : Z := 100.
Definition maxAuthRateLimitEntries : nat := 4096.
Definition authRateEntryTTL : duration := 10 * Time.Minute.
Definition authRateSweepInterval : duration := Time.Minute.

Record AuthenticationRateLimitConfig := mkRateLimitConfig { PerMinute : Z; Burst : Z; GlobalPerSecond : Z; GlobalBurst : Z }.
Record tokenBucket := mkTokenBucket { bucket_tokens : spec_float; bucket_last : time; bucket_lastSeen : time }.
Record authenticationRateLimiter := mkLimiter {
  perMinute : Z; burst : Z; globalPerSecond : Z; globalBurst : Z; global : tokenBucket;
  clients : gmap ZonedAddr tokenBucket; authenticated : gmap uuid tokenBucket; nextSweep : time; nextAuthSweep : time }.

Definition newAuthenticationRateLimiter (config : AuthenticationRateLimitConfig) (now : time) : authenticationRateLimiter :=
  let positive (value fallback : Z) := if value <=? 0 then fallback else value in
  let globalBurst := positive (GlobalBurst config) defaultAuthGlobalBurst in
  mkLimiter (positive (PerMinute config) defaultAuthRatePerMinute) (positive (Burst config) defaultAuthRateBurst)
    (positive (GlobalPerSecond config) defaultAuthGlobalRate) globalBurst
    (mkTokenBucket (float64.of_Z globalBurst) now now) ∅ ∅ (Time.Add now authRateSweepInterval) (Time.Add now authRateSweepInterval).

(** [Duration.Seconds]: whole seconds plus the fraction. *)
Definition Seconds (d : duration) : spec_float :=
  float64.add (float64.of_Z (Z.quot d Time.Second)) (float64.div (float64.of_Z (Z.rem d Time.Second)) (float64.of_Z 1000000000)).

Definition refillBucket (bucket : tokenBucket) (ratePerSecond : spec_float) (burst : Z) (now : time) : tokenBucket :=
  if Time.IsZero (bucket_last bucket) then mkTokenBucket (float64.of_Z burst) now now
  else if Time.After now (bucket_last bucket) then
    let tokens := float64.add (bucket_tokens bucket) (float64.mul (Seconds (Time.Sub now (bucket_last bucket))) ratePerSecond) in
    mkTokenBucket (if float64.lt (float64.of_Z burst) tokens then float64.of_Z burst else tokens) now (bucket_lastSeen bucket)
  else bucket.

(** [bucket.tokens--; bucket.lastSeen = now]. *)
Definition charge (bucket : tokenBucket) (now : time) : tokenBucket :=
  mkTokenBucket (float64.sub (bucket_tokens bucket) (float64.of_Z 1)) (bucket_last bucket) now.
Definition empty (bucket : tokenBucket) : bool := float64.lt (bucket_tokens bucket) (float64.of_Z 1).

(** The entries seen since the cutoff. *)
Definition swept {Key} `{Countable Key} (now : time) (entries : gmap Key tokenBucket) : gmap Key tokenBucket :=
  filter (λ e, Time.Before (bucket_lastSeen e.2) (Time.Add now (- authRateEntryTTL)) = false) entries.

(** One table: the bucket of the key is found or, after a sweep, made; it is refilled and
    charged.  The answer is the table, the time of the next sweep, and whether the key may
    pass; a bucket without a whole token is not charged. *)
Definition take_token {Key} `{Countable Key} (entries : gmap Key tokenBucket) (sweepAt : time) (key : Key) (rate : spec_float) (burst : Z)
    (now : time) : gmap Key tokenBucket * time * bool :=
  let '(entries, sweepAt, found) :=
    match entries !! key with
    | Some bucket => (entries, sweepAt, Some bucket)
    | None =>
        let '(entries, sweepAt) := if Time.Before now sweepAt then (entries, sweepAt) else (swept now entries, Time.Add now authRateSweepInterval) in
        (entries, sweepAt, if (maxAuthRateLimitEntries <=? size entries)%nat then None else Some (mkTokenBucket (float64.of_Z burst) now now))
    end in
  match found with
  | None => (entries, sweepAt, false)
  | Some bucket =>
      let bucket := refillBucket bucket rate burst now in
      if empty bucket then (<[key := bucket]> entries, sweepAt, false) else (<[key := charge bucket now]> entries, sweepAt, true)
  end.

Definition per_second (l : authenticationRateLimiter) : spec_float := float64.div (float64.of_Z (perMinute l)) (float64.of_Z 60).

Definition allow (l : authenticationRateLimiter) (address : ZonedAddr) (now : time) : bool * authenticationRateLimiter :=
  let address := if IsValid address then unmap address else address in
  let refilled := refillBucket (global l) (float64.of_Z (globalPerSecond l)) (globalBurst l) now in
  let after (global : tokenBucket) (clients : gmap ZonedAddr tokenBucket) (nextSweep : time) :=
    mkLimiter (perMinute l) (burst l) (globalPerSecond l) (globalBurst l) global clients (authenticated l) nextSweep (nextAuthSweep l) in
  if empty refilled then (false, after refilled (clients l) (nextSweep l))
  else
    let '(clients, nextSweep, allowed) := take_token (clients l) (nextSweep l) address (per_second l) (burst l) now in
    (allowed, after (if allowed : bool then charge refilled now else refilled) clients nextSweep).

Definition allowClient (l : authenticationRateLimiter) (clientID : uuid) (now : time) : bool * authenticationRateLimiter :=
  if clientID == uuid_Nil then (true, l)
  else
    let '(authenticated, nextAuthSweep, allowed) := take_token (authenticated l) (nextAuthSweep l) clientID (per_second l) (burst l) now in
    (allowed, mkLimiter (perMinute l) (burst l) (globalPerSecond l) (globalBurst l) (global l) (clients l) authenticated (nextSweep l) nextAuthSweep).
