(* ===== verification/KeyStore.v ===== *)
(** * The key store

    [internal/keystore]: loading and checking the signing key and the verification keys,
    the published set and its tag, signing, generating a key and writing its public part.
    RSA, the JSON of keys and the signature library are parameters; the file system is a map
    from paths to files, and each reading of it is its own snapshot, so that a file may
    change between the check and the opening.  Then the theorems. *)

From S2P Require Import Prelude Text Sha256 Base64 Platform Scopes.

Module keystore.

(** [*rsa.PrivateKey] and [*rsa.PublicKey]. *)
Class RSA := {
  PrivateKey : Type; PublicKey : Type;
  private_bits : PrivateKey → Z; rsa_Validate : PrivateKey → bool; public_part : PrivateKey → PublicKey; public_bits : PublicKey → Z;
  (** [rsa.GenerateKey] with what the random source holds. *)
  rsa_GenerateKey : string → Z → option PrivateKey }.

(** The key of a [jose.JSONWebKey]: an RSA key, or another of which only its publicity matters. *)
Inductive Material `{RSA} := RSAPrivate (key : PrivateKey) | RSAPublic (key : PublicKey) | OtherKey (public : bool).
(** [X509] is whether any certificate field is set. *)
Record JSONWebKey `{RSA} := mkJSONWebKey { Key : Material; KeyID : string; JWK_Algorithm : string; JWK_Use : string; X509 : bool }.
Arguments mkJSONWebKey {_} _ _ _ _ _.

Class Jose `{RSA} := {
  Unmarshal_key : bytes → option JSONWebKey; Unmarshal_set : bytes → option (list JSONWebKey);
  MarshalIndent_key : JSONWebKey → option bytes; MarshalIndent_set : list JSONWebKey → option bytes;
  Thumbprint : Material → option bytes; jwk_Public : JSONWebKey → JSONWebKey;
  (** The compact form of a payload signed with RS256 under the key, with its type. *)
  jose_Sign : JSONWebKey → bytes → string → option string }.

(** What the libraries document. *)
Class JoseLaws `{R : RSA} (J : Jose) : Prop := {
  generated_bits : ∀ random bits key, rsa_GenerateKey random bits = Some key → private_bits key = bits;
  (** A marshalled key is read back, also from a text that ends in a newline. *)
  key_read_back : ∀ key encoded, MarshalIndent_key key = Some encoded → Unmarshal_key (encoded +:+ String LF "") = Some key;
  public_set_marshals : ∀ keys, Forall (λ key, ∃ k, Key key = RSAPublic k) keys → is_Some (MarshalIndent_set keys);
  (** RFC 7638: the thumbprint is that of the public part. *)
  thumbprint_public : ∀ key, Thumbprint (RSAPrivate key) = Thumbprint (RSAPublic (public_part key));
  thumbprint_size : ∀ material digest, Thumbprint material = Some digest → len digest = 32;
  public_fields : ∀ key, KeyID (jwk_Public key) = KeyID key ∧ JWK_Algorithm (jwk_Public key) = JWK_Algorithm key ∧
                         JWK_Use (jwk_Public key) = JWK_Use key ∧ X509 (jwk_Public key) = X509 key;
  public_key : ∀ key k, Key key = RSAPrivate k → Key (jwk_Public key) = RSAPublic (public_part k);
  public_part_bits : ∀ key, public_bits (public_part key) = private_bits key }.

Definition Algorithm : string := "RS256".
Definition DefaultRSABits : Z := 3072.
Definition minRSABits : Z := 2048.
Definition maxKeyFileSize : Z := Z.shiftl 1 20.

Inductive KeyError := ErrInvalid (why : string) | ErrExists | Failed (message : string).

(** ** Files *)

(** [File_Content] is [None] when reading fails. *)
Record File := mkFile { File_ID : Z; File_Regular : bool; File_Symlink : bool; File_Perm : Z; File_Content : option bytes }.
Abbreviation FS := (gmap string File) (only parsing).

Definition broad (perm : Z) : bool := negb (Z.land perm 63 =? 0).

(** [inspected] is the file system at [os.Lstat], [opened] at [os.Open]. *)
Definition readRegularFile (inspected opened : FS) (path : string) (rejectBroadPermissions : bool) : (bytes * File) + KeyError :=
  if TrimSpace path == "" then inr (ErrInvalid "key path is empty")
  else match inspected !! path with
  | None => inr (ErrInvalid "key file cannot be inspected")
  | Some lstat =>
      if File_Symlink lstat || negb (File_Regular lstat) then inr (ErrInvalid "key path must be a regular non-symlink file")
      else match opened !! path with
      | None => inr (ErrInvalid "key file cannot be opened")
      | Some info =>
          if negb (File_Regular info) || negb (File_ID lstat =? File_ID info) then inr (ErrInvalid "key file changed while opening")
          else if rejectBroadPermissions && broad (File_Perm info) then inr (ErrInvalid "private key file permissions are too broad")
          else match File_Content info with
          | None => inr (ErrInvalid "key file size is invalid")
          | Some data => if (len data =? 0) || (maxKeyFileSize <? len data) then inr (ErrInvalid "key file size is invalid") else inl (data, info)
          end
      end
  end.

(** How the system calls of a write end; [written] is what a failed write left behind when
    removing it fails too. *)
Record WriteOutcome := mkWriteOutcome {
  create_ok : bool; chmod_ok : bool; write_ok : bool; sync_ok : bool; close_ok : bool; remove_ok : bool; written : bytes; fresh : Z }.

Definition writeExclusive (fs : FS) (w : WriteOutcome) (path : string) (content : bytes) (mode : Z) : option KeyError * FS :=
  if TrimSpace path == "" then (Some (ErrInvalid ""), fs)
  else match fs !! path with
  | Some _ => (Some ErrExists, fs)
  | None =>
      if negb (create_ok w) then (Some (Failed "key output could not be created"), fs)
      else
        let failed (message : string) :=
          (Some (Failed message), if remove_ok w then fs else <[path := mkFile (fresh w) true false mode (Some (written w))]> fs) in
        if negb (chmod_ok w) then failed "key output permissions could not be set"
        else if negb (write_ok w) then failed "key output could not be written"
        else if negb (sync_ok w) then failed "key output could not be synchronized"
        else if negb (close_ok w) then failed "key output could not be closed"
        else (None, <[path := mkFile (fresh w) true false mode (Some content)]> fs)
  end.

(** ** Keys *)

Section store.
Context {R : RSA} {J : Jose}.

Definition IsPublic (key : JSONWebKey) : bool :=
  match Key key with RSAPublic _ => true | RSAPrivate _ => false | OtherKey public => public end.

(** [None] where the metadata is accepted. *)
Definition validateMetadata (key : JSONWebKey) : option KeyError :=
  if (JWK_Algorithm key != Algorithm) || (JWK_Use key != "sig") then Some (ErrInvalid "key algorithm/use must be RS256/sig")
  else match Thumbprint (Key key) with
  | None => Some (ErrInvalid "key thumbprint failed")
  | Some thumbprint =>
      if (KeyID key == "") || (KeyID key != Base64.Encode thumbprint) then Some (ErrInvalid "key identifier does not match RFC 7638 thumbprint")
      else if X509 key then Some (ErrInvalid "X.509 key metadata is not supported")
      else None
  end.

Definition loadPrivate (inspected opened : FS) (path : string) : JSONWebKey + KeyError :=
  match readRegularFile inspected opened path true with
  | inr e => inr e
  | inl (data, info) =>
      if broad (File_Perm info) then inr (ErrInvalid "private key file permissions are too broad")
      else match Unmarshal_key data with
      | None => inr (ErrInvalid "private JWK could not be decoded")
      | Some key =>
          match Key key with
          | RSAPrivate private =>
              if (private_bits private <? minRSABits) || negb (rsa_Validate private) then inr (ErrInvalid "active key must be a valid RSA private key")
              else match validateMetadata key with Some e => inr e | None => inl key end
          | _ => inr (ErrInvalid "active key must be a valid RSA private key")
          end
      end
  end.

Fixpoint check_public_keys (seen : gset string) (keys : list JSONWebKey) : option KeyError :=
  match keys with
  | [] => None
  | key :: rest =>
      match Key key with
      | RSAPublic public =>
          if negb (IsPublic key) || (public_bits public <? minRSABits) then Some (ErrInvalid "verification set must contain RSA public keys only")
          else match validateMetadata key with
               | Some e => Some e
               | None => if bool_decide (KeyID key ∈ seen) then Some (ErrInvalid "duplicate verification key identifier")
                         else check_public_keys ({[KeyID key]} ∪ seen) rest
               end
      | _ => Some (ErrInvalid "verification set must contain RSA public keys only")
      end
  end.

Definition loadPublicSet (inspected opened : FS) (path : string) : list JSONWebKey + KeyError :=
  match readRegularFile inspected opened path false with
  | inr e => inr e
  | inl (data, _) =>
      match Unmarshal_set data with
      | None | Some [] => inr (ErrInvalid "verification JWKS could not be decoded")
      | Some keys => match check_public_keys ∅ keys with Some e => inr e | None => inl keys end
      end
  end.

(** [marshalIndented] ends the text with a newline. *)
Definition with_newline (encoded : option bytes) : option bytes := (λ b, b +:+ String LF "") <$> encoded.
Definition marshalPublicSet (keys : list JSONWebKey) : option bytes :=
  if forallb IsPublic keys then with_newline (MarshalIndent_set keys) else None.

Definition kid_le (a b : JSONWebKey) : Prop := string_le (KeyID a) (KeyID b).
#[local] Instance kid_le_dec : RelDecision kid_le.
Proof. intros a b. unfold kid_le. apply _. Defined.
Definition sort_keys (keys : list JSONWebKey) : list JSONWebKey := merge_sort kid_le keys.

Definition hex_lower (n : N) : ascii := ascii_of_N (if (n <? 10)%N then 48 + n else 87 + n)%N.
Fixpoint hex_EncodeToString (s : bytes) : string :=
  match s with
  | EmptyString => ""
  | String c r => String (hex_lower (N_of_ascii c / 16)) (String (hex_lower (N_of_ascii c mod 16)) (hex_EncodeToString r))
  end.

Record Store := mkStore { activePrivate : JSONWebKey; publicKeys : list JSONWebKey; jwks : bytes; etag : string }.
Record Metadata := mkMetadata { ActiveKeyID : string; PublishedKeys : Z }.
Definition Store_Metadata (s : Store) : Metadata := mkMetadata (KeyID (activePrivate s)) (Z.of_nat (length (publicKeys s))).

(** [view k] is the file system at the k-th look. *)
Definition Load (view : nat → FS) (activePrivateFile verificationKeysFile : string) : Store + KeyError :=
  match loadPrivate (view 0%nat) (view 1%nat) activePrivateFile with
  | inr e => inr e
  | inl active =>
      let additional := if verificationKeysFile == "" then inl [] else loadPublicSet (view 2%nat) (view 3%nat) verificationKeysFile in
      match additional with
      | inr e => inr e
      | inl additional =>
          if bool_decide (KeyID active ∈ KeyID <$> additional) || negb (bool_decide (NoDup (KeyID <$> additional)))
          then inr (ErrInvalid "duplicate public key identifier")
          else
            let publicKeys := sort_keys (jwk_Public active :: additional) in
            match marshalPublicSet publicKeys with
            | None => inr (ErrInvalid "public key serialization failed")
            | Some encoded => inl (mkStore active publicKeys encoded (String "034" (hex_EncodeToString (Sha256.Sum256 encoded) +:+ String "034" "")))
            end
      end
  end.

Definition Sign (s : Store) (payload : bytes) (typ : string) : option string :=
  if (typ != "JWT") && (typ != "at+jwt") then None else jose_Sign (activePrivate s) payload typ.

Definition newPrivateJWK (key : PrivateKey) : option JSONWebKey :=
  (λ thumbprint, mkJSONWebKey (RSAPrivate key) (Base64.Encode thumbprint) Algorithm "sig" false) <$> Thumbprint (RSAPrivate key).

Definition Generate (fs : FS) (w : WriteOutcome) (path : string) (bits : Z) (random : string) : (Metadata + KeyError) * FS :=
  if (TrimSpace path == "") || (bits <? minRSABits) then (inr (ErrInvalid ""), fs)
  else match rsa_GenerateKey random bits with
  | None => (inr (Failed "RSA key generation failed"), fs)
  | Some key =>
      if negb (rsa_Validate key) then (inr (Failed "generated RSA key validation failed"), fs)
      else match newPrivateJWK key with
      | None => (inr (Failed "generated key thumbprint failed"), fs)
      | Some jwk =>
          match with_newline (MarshalIndent_key jwk) with
          | None => (inr (Failed "private JWK serialization failed"), fs)
          | Some encoded =>
              match writeExclusive fs w path encoded 384 with
              | (Some e, fs) => (inr e, fs)
              | (None, fs) => (inl (mkMetadata (KeyID jwk) 1), fs)
              end
          end
      end
  end.

Definition WritePublic (view : nat → FS) (fs : FS) (w : WriteOutcome) (privatePath outputPath : string) : (Metadata + KeyError) * FS :=
  match loadPrivate (view 0%nat) (view 1%nat) privatePath with
  | inr e => (inr e, fs)
  | inl private =>
      match marshalPublicSet [jwk_Public private] with
      | None => (inr (Failed "public JWKS serialization failed"), fs)
      | Some encoded =>
          match writeExclusive fs w outputPath encoded 420 with
          | (Some e, fs) => (inr e, fs)
          | (None, fs) => (inl (mkMetadata (KeyID private) 1), fs)
          end
      end
  end.
End store.

(** ** Theorems *)

Section theorems.
Context {R : RSA} {J : Jose} {JL : JoseLaws J}.

(** A key that may verify tokens: RSA of enough bits, named by its thumbprint. *)
Record publishable (key : JSONWebKey) : Prop := {
  pk_public : ∃ k, Key key = RSAPublic k ∧ minRSABits <= public_bits k;
  pk_metadata : JWK_Algorithm key = Algorithm ∧ JWK_Use key = "sig" ∧ X509 key = false;
  pk_kid : ∃ digest, Thumbprint (Key key) = Some digest ∧ KeyID key = Base64.Encode digest }.

Lemma validateMetadata_None key :
  validateMetadata key = None →
  JWK_Algorithm key = Algorithm ∧ JWK_Use key = "sig" ∧ X509 key = false ∧ ∃ digest, Thumbprint (Key key) = Some digest ∧ KeyID key = Base64.Encode digest.
Proof.
  unfold validateMetadata. destruct (_ || _) eqn:E1; [done|]. destruct (Thumbprint _) as [digest|]; [|done].
  destruct ((KeyID key == "") || _) eqn:E2; [done|]. destruct (X509 key) eqn:Ex; [done|]. intros _. apply orb_false_iff in E1, E2. go_bools. naive_solver.
Qed.

Lemma readRegularFile_inl inspected opened path reject data info :
  readRegularFile inspected opened path reject = inl (data, info) → opened !! path = Some info ∧ File_Content info = Some data.
Proof.
  unfold readRegularFile. repeat case_match; naive_solver.
Qed.

Lemma loadPrivate_inl inspected opened path key :
  loadPrivate inspected opened path = inl key →
  publishable (jwk_Public key) ∧ ∃ file, opened !! path = Some file ∧ broad (File_Perm file) = false.
Proof.
  unfold loadPrivate. destruct (readRegularFile _ _ _ _) as [[data info]|] eqn:Er; [|done]. destruct (broad _) eqn:Eb; [done|].
  destruct (Unmarshal_key data) as [k|]; [|done]. destruct (Key k) as [private| |] eqn:Ek; [|done..].
  destruct (_ || _) eqn:E; [done|]. destruct (validateMetadata k) eqn:Ev; [done|]. intros [= <-].
  apply validateMetadata_None in Ev as (Ha & Hu & Hx & digest & Ht & Hid). apply orb_false_iff in E as [E _]. go_bools. split.
  - destruct (public_fields k) as (F1 & F2 & F3 & F4). pose proof (public_key k private Ek) as Hp. split.
    + exists (public_part private). split; [done|]. rewrite public_part_bits. lia.
    + by rewrite F2, F3, F4.
    + exists digest. split; [by rewrite Hp, <-thumbprint_public, <-Ek|by rewrite F1].
  - apply readRegularFile_inl in Er as [Ho _]. eauto.
Qed.

Lemma check_public_keys_None seen keys :
  check_public_keys seen keys = None → Forall publishable keys ∧ NoDup (KeyID <$> keys) ∧ ∀ key, key ∈ keys → KeyID key ∉ seen.
Proof.
  revert seen. induction keys as [|key rest IH]; intros seen; cbn [check_public_keys].
  { intros _. split_and!; [constructor|constructor|]. intros key H. by apply elem_of_nil in H. }
  destruct (Key key) as [|k|] eqn:Ek; [done| |done]. destruct (_ || _) eqn:E; [done|]. destruct (validateMetadata key) eqn:Ev; [done|].
  destruct (bool_decide (KeyID key ∈ seen)) eqn:Hs; [done|]. intros H. apply IH in H as (Hr & Hn & Hf). apply orb_false_iff in E as [_ E]. go_bools.
  apply validateMetadata_None in Ev as (Ha & Hu & Hx & digest & Ht & Hid). split_and!.
  - constructor; [|done]. split; [exists k; split; [done|lia]|done|by exists digest].
  - rewrite fmap_cons. constructor; [|done]. rewrite list_elem_of_fmap. intros (other & Hother & Hin). apply (Hf other Hin). set_solver.
  - intros other [->|Hin]%elem_of_cons; [done|]. specialize (Hf other Hin). set_solver.
Qed.

Lemma loadPublicSet_inl inspected opened path keys :
  loadPublicSet inspected opened path = inl keys → Forall publishable keys ∧ NoDup (KeyID <$> keys).
Proof.
  unfold loadPublicSet. destruct (readRegularFile _ _ _ _) as [[data info]|]; [|done]. destruct (Unmarshal_set data) as [[|k l]|]; [done| |done].
  destruct (check_public_keys ∅ (k :: l)) eqn:E; [done|]. intros [= <-]. by apply check_public_keys_None in E as (? & ? & _).
Qed.

(** What a loaded store publishes. *)
Record store_sound (s : Store) : Prop := {
  ss_active : jwk_Public (activePrivate s) ∈ publicKeys s;
  ss_keys : Forall publishable (publicKeys s);
  ss_unique : NoDup (KeyID <$> publicKeys s);
  ss_jwks : marshalPublicSet (publicKeys s) = Some (jwks s) }.

Lemma Load_inl view active verification s :
  Load view active verification = inl s →
  store_sound s ∧ ∃ file, view 1%nat !! active = Some file ∧ broad (File_Perm file) = false.
Proof.
  unfold Load. destruct (loadPrivate _ _ _) as [key|] eqn:Ep; [|done]. apply loadPrivate_inl in Ep as [Hpub Hfile].
  destruct (if verification == "" then inl [] else _) as [additional|] eqn:Ea; [|done].
  assert (Forall publishable additional) as Hadd.
  { destruct (verification == ""); [injection Ea as <-; constructor|]. by apply loadPublicSet_inl in Ea as [? _]. }
  destruct (_ || _) eqn:Ed; [done|]. apply orb_false_iff in Ed as [Ed1 Ed2]. go_bools.
  assert (sort_keys (jwk_Public key :: additional) ≡ₚ jwk_Public key :: additional) as Hperm by apply merge_sort_Permutation.
  destruct (marshalPublicSet _) as [encoded|] eqn:Em; [|done].
  match goal with |- context [mkStore key _ encoded ?e] => generalize e end. intros tag [= <-]. split; [|done]. split; simpl; try done.
  - rewrite Hperm. apply elem_of_cons. by left.
  - rewrite Hperm. by constructor.
  - rewrite Hperm. simpl. constructor; [|done]. by rewrite (proj1 (public_fields key)).
Qed.

Lemma writeExclusive_other fs w path content mode other :
  other ≠ path ∨ is_Some (fs !! other) → (writeExclusive fs w path content mode).2 !! other = fs !! other.
Proof.
  intros Ho. unfold writeExclusive. destruct (_ == ""); [done|]. destruct (fs !! path) as [f|] eqn:E; [done|].
  assert (path ≠ other) as Hne by (intros ->; destruct Ho as [?|[? ?]]; congruence).
  destruct (create_ok w), (chmod_ok w), (write_ok w), (sync_ok w), (close_ok w), (remove_ok w); cbn [negb snd]; try done; by rewrite lookup_insert_ne.
Qed.

Lemma writeExclusive_None fs w path content mode fs' :
  writeExclusive fs w path content mode = (None, fs') →
  (TrimSpace path == "") = false ∧ fs' !! path = Some (mkFile (fresh w) true false mode (Some content)).
Proof.
  unfold writeExclusive. destruct (_ == ""); [done|]. destruct (fs !! path); [done|].
  destruct (create_ok w), (chmod_ok w), (write_ok w), (sync_ok w), (close_ok w); cbn [negb]; try done. intros [= <-]. by rewrite lookup_insert_eq.
Qed.

Lemma length_of_appended s c : len (s +:+ String c "") = len s + 1.
Proof. unfold len. rewrite length_app_string. simpl. lia. Qed.

Lemma generate_load fs w path bits random meta fs' :
  Generate fs w path bits random = (inl meta, fs') →
  (∀ file data, fs' !! path = Some file → File_Content file = Some data → len data <= maxKeyFileSize) →
  ∃ s, Load (λ _, fs') path "" = inl s ∧ Store_Metadata s = meta.
Proof.
  unfold Generate. destruct (_ || _) eqn:Eg; [done|]. apply orb_false_iff in Eg as [_ Hbits]. go_bools.
  destruct (rsa_GenerateKey random bits) as [key|] eqn:Ek; [|done]. destruct (rsa_Validate key) eqn:Ev; [|done]. simpl.
  unfold newPrivateJWK. destruct (Thumbprint (RSAPrivate key)) as [digest|] eqn:Et; [|done]. simpl. set (jwk := mkJSONWebKey _ _ _ _ _).
  destruct (MarshalIndent_key jwk) as [encoded|] eqn:Em; [|done]. simpl. destruct (writeExclusive _ _ _ _ _) as [[e|] fs1] eqn:Ew; [done|].
  intros [= <- <-] Hsize. apply writeExclusive_None in Ew as [Hpath Hfile]. specialize (Hsize _ _ Hfile eq_refl).
  assert (validateMetadata jwk = None) as Hm.
  { unfold validateMetadata, jwk. simpl. rewrite Et. replace (Base64.Encode digest == "") with false.
    - rewrite (proj2 (bool_decide_eq_true _) eq_refl). done.
    - symmetry. apply bool_decide_eq_false. intros Hd. pose proof (thumbprint_size _ _ Et) as Hs. pose proof (Base64.len_Encode digest) as Hl.
      rewrite Hd, Hs in Hl. done. }
  assert (loadPrivate fs1 fs1 path = inl jwk) as Hl.
  { unfold loadPrivate, readRegularFile. rewrite Hpath, Hfile. simpl. rewrite Z.eqb_refl. simpl.
    pose proof (length_of_appended encoded LF) as Hlen. assert (0 <= len encoded) by (unfold len; lia).
    replace (len _ =? 0) with false by lia. replace (maxKeyFileSize <? _) with false by lia. simpl.
    rewrite (key_read_back _ _ Em). simpl. rewrite (generated_bits _ _ _ Ek). replace (bits <? minRSABits) with false by lia. rewrite Ev, Hm. done. }
  assert (marshalPublicSet [jwk_Public jwk] ≠ None) as Hset.
  { destruct (public_set_marshals [jwk_Public jwk]) as [b Hb]. { constructor; [|constructor]. eexists. by eapply public_key. }
    unfold marshalPublicSet, IsPublic. cbn [forallb]. rewrite (public_key jwk key eq_refl), Hb. done. }
  unfold Load. rewrite Hl. rewrite (bool_decide_true ("" = "") eq_refl). cbv zeta iota.
  rewrite (bool_decide_false (KeyID jwk ∈ KeyID <$> [])) by apply not_elem_of_nil. rewrite (bool_decide_true (NoDup _)) by constructor. cbn [orb negb].
  assert (sort_keys [jwk_Public jwk] = [jwk_Public jwk]) as -> by done. destruct (marshalPublicSet _) as [b|]; [|done].
  eexists. split; reflexivity.
Qed.
End theorems.
End keystore.

Import keystore.

(** C27: What is published verifies and gives nothing away.  In a store that loads, every
    published key is an RSA public key of at least 2048 bits, for RS256 signatures, named by
    its own thumbprint; no two share a name; the public part of the signing key is among
    them; and the signing key's file was, when read, closed to everyone but its owner. *)
Theorem published_keys_sound `{J : Jose} `{!JoseLaws J} view active verification s :
  Load view active verification = inl s →
  Forall publishable (publicKeys s) ∧ NoDup (KeyID <$> publicKeys s) ∧ jwk_Public (activePrivate s) ∈ publicKeys s ∧
  ∃ file, view 1%nat !! active = Some file ∧ Z.land (File_Perm file) 63 = 0.
Proof.
  intros Hl. apply Load_inl in Hl as [Hs (file & Hf & Hb)]. split_and!; [apply Hs..|]. exists file. split; [done|].
  unfold broad in Hb. apply negb_false_iff in Hb. go_bools. lia.
Qed.

(** C28: A generated key loads.  When [Generate] reports success the file it wrote, if it
    is within the size the loader reads, loads as the signing key under the reported
    identifier, alone in its set. *)
Theorem generated_key_loads `{J : Jose} `{!JoseLaws J} fs w path bits random meta fs' :
  Generate fs w path bits random = (inl meta, fs') →
  (∀ file data, fs' !! path = Some file → File_Content file = Some data → len data <= maxKeyFileSize) →
  ∃ s, Load (λ _, fs') path "" = inl s ∧ Store_Metadata s = meta.
Proof. apply generate_load. Qed.

(** Keys are never replaced.  Whatever system calls fail, generating a key or writing
    a public set changes no file that was there and no path but its own. *)
Theorem keys_never_replaced `{J : Jose} view fs w path output bits random other :
  (other ≠ output ∨ is_Some (fs !! other)) →
  (Generate fs w output bits random).2 !! other = fs !! other ∧ (WritePublic view fs w path output).2 !! other = fs !! other.
Proof.
  intros Ho. split.
  - unfold Generate. destruct (_ || _); [done|]. destruct (rsa_GenerateKey random bits) as [key|]; [|done]. destruct (negb _); [done|].
    destruct (newPrivateJWK key) as [jwk|]; [|done]. destruct (with_newline _) as [encoded|]; [|done].
    pose proof (writeExclusive_other fs w output encoded 384 other Ho) as Hw. by destruct (writeExclusive _ _ _ _ _) as [[e|] fs1].
  - unfold WritePublic. destruct (loadPrivate _ _ _) as [key|]; [|done]. destruct (marshalPublicSet _) as [encoded|]; [|done].
    pose proof (writeExclusive_other fs w output encoded 420 other Ho) as Hw. by destruct (writeExclusive _ _ _ _ _) as [[e|] fs1].
Qed.

(** ** At concrete parameters *)

(** One key, its text and its thumbprint. *)
#[export] Instance demo_rsa : RSA := {|
  PrivateKey := unit; PublicKey := unit; private_bits _ := 3072; rsa_Validate _ := true; public_part _ := (); public_bits _ := 3072;
  rsa_GenerateKey random bits := if bits =? 3072 then Some () else None |}.
Definition demo_digest : bytes := str_take 32 "thumbprint of the only key there".
Definition demo_jwk : JSONWebKey := mkJSONWebKey (RSAPrivate (() : PrivateKey)) (Base64.Encode demo_digest) "RS256" "sig" false.
Definition is_demo (key : JSONWebKey) : bool :=
  match Key key with RSAPrivate _ => true | _ => false end && (KeyID key == KeyID demo_jwk) && (JWK_Algorithm key == "RS256") &&
  (JWK_Use key == "sig") && negb (X509 key).
#[export] Instance demo_jose : Jose := {|
  Unmarshal_key b := if b == "{key}" +:+ String LF "" then Some demo_jwk else None; Unmarshal_set _ := None;
  MarshalIndent_key key := if is_demo key then Some "{key}" else None; MarshalIndent_set _ := Some "{keys}";
  Thumbprint _ := Some demo_digest;
  jwk_Public key := mkJSONWebKey match Key key with RSAPrivate k => RSAPublic (public_part k) | m => m end
                      (KeyID key) (JWK_Algorithm key) (JWK_Use key) (X509 key);
  jose_Sign key payload typ := Some (typ +:+ "." +:+ payload +:+ "." +:+ KeyID key) |}.
#[export] Instance demo_jose_laws : JoseLaws demo_jose.
Proof.
  split; simpl; try done.
  - intros random bits key. by destruct (Z.eqb_spec bits 3072) as [->|].
  - intros key encoded. destruct (is_demo key) eqn:E; [|done]. intros [= <-]. rewrite (bool_decide_true _ eq_refl).
    destruct key as [[[]| |] id alg use x]; [|done..]. unfold is_demo in E. simpl in E. go_bools. by subst.
  - intros _ digest [= <-]. reflexivity.
  - by intros key k ->.
Qed.

Definition all_ok : WriteOutcome := mkWriteOutcome true true true true true true "" 7.
Definition generated : (Metadata + KeyError) * gmap string File := Generate ∅ all_ok "key.json" 3072 "".

Lemma generated_key_loads_witness :
  ∃ s, Load (λ _, generated.2) "key.json" "" = inl s ∧ Store_Metadata s = mkMetadata (KeyID demo_jwk) 1.
Proof.
  apply (generated_key_loads ∅ all_ok "key.json" 3072 "" (mkMetadata (KeyID demo_jwk) 1) generated.2).
  - vm_compute. reflexivity.
  - intros file data Hf Hd. assert (generated.2 !! "key.json" = Some (mkFile 7 true false 384 (Some ("{key}" +:+ String LF "")))) as E by (vm_compute; reflexivity).
    rewrite E in Hf. injection Hf as <-. injection Hd as <-. vm_compute. discriminate.
Defined.

Definition generated_store : Store :=
  match Load (λ _, generated.2) "key.json" "" with inl s => s | inr _ => mkStore demo_jwk [] "" "" end.

Lemma published_keys_sound_witness : Forall publishable (publicKeys generated_store) ∧ length (publicKeys generated_store) = 1%nat.
Proof.
  split; [|vm_compute; reflexivity]. apply (published_keys_sound (λ _, generated.2) "key.json" "" generated_store). vm_compute. reflexivity.
Defined.

Lemma keys_never_replaced_witness :
  (Generate generated.2 all_ok "key.json" 3072 "").2 !! "key.json" = generated.2 !! "key.json".
Proof.
  apply (keys_never_replaced (λ _, generated.2) generated.2 all_ok "key.json" "key.json" 3072 "" "key.json"). right. eexists. vm_compute. reflexivity.
Defined.

Example second_generation : (Generate generated.2 all_ok "key.json" 3072 "").1 = inr ErrExists.
Proof. vm_compute. reflexivity. Qed.
