(* ===== verification/Commands.v ===== *)
(** * The commands

    [internal/app]: the command line ([cli.go]) down to the subcommands it calls, the
    round of the cleanup loop and the supervision of the HTTP server ([app.go]).  The standard
    library's flag parser is translated.  What the outer world answers is an argument: whether
    the database opens and is migrated, what is typed at a terminal, how the server ends.
    A command's value is its exit code. *)

From S2P Require Import Prelude Text Errors Platform Domain AuditEvents Database Tx StoreCommon ServiceCommon LoginStore SessionStore FlowStore LogoutStore UserStore TokenStore.
From S2P Require Import SessionService FlowService IdentityService ClientService AdminService Config Perimeter KeyStore.

(** ** [flag] *)

Inductive FlagResult := FlagValues (values : gmap string string) (rest : list string) | FlagHelp | FlagBad.

(** The name of a flag and its value, when the argument has one. *)
Definition flag_name (argument : string) : option (string * option string) :=
  let name := match argument with String "-" (String "-" r) => r | String "-" r => r | _ => "" end in
  match name with
  | EmptyString => None
  | String c r =>
      if Ascii.eqb c "-" || Ascii.eqb c "=" then None
      else let '(before, value, found) := Cut "=" r in Some (String c before, if found then Some value else None)
  end.

(** [FlagSet.Parse] with the flags that take a value and the boolean ones. *)
Fixpoint ParseFlags (strings bools : list string) (values : gmap string string) (args : list string) : FlagResult :=
  match args with
  | [] => FlagValues values []
  | argument :: rest =>
      if (len argument <? 2) || negb (HasPrefix argument "-") then FlagValues values args
      else if argument == "--" then FlagValues values rest
      else match flag_name argument with
      | None => FlagBad
      | Some (name, value) =>
          if bool_decide (name ∈ bools) then
            match value with
            | None => ParseFlags strings bools (<[name := "true"]> values) rest
            | Some v => match ParseBool v with
                        | Some b => ParseFlags strings bools (<[name := if b : bool then "true" else "false"]> values) rest
                        | None => FlagBad
                        end
            end
          else if bool_decide (name ∈ strings) then
            match value, rest with
            | Some v, _ => ParseFlags strings bools (<[name := v]> values) rest
            | None, v :: rest => ParseFlags strings bools (<[name := v]> values) rest
            | None, [] => FlagBad
            end
          else if (name == "help") || (name == "h") then FlagHelp else FlagBad
      end
  end.

Definition flag_value (values : gmap string string) (name : string) : string := default "" (values !! name).

Example flags_parsed :
  ParseFlags ["in"; "out"] ["v"] ∅ ["--in"; "a"; "-out=b=c"; "-v"; "rest"; "-x"] =
    FlagValues (<["v" := "true"]> (<["out" := "b=c"]> (<["in" := "a"]> ∅))) ["rest"; "-x"] ∧
  ParseFlags ["in"] [] ∅ ["-in"] = FlagBad ∧ ParseFlags ["in"] [] ∅ ["-h"] = FlagHelp ∧ ParseFlags [] [] ∅ ["--"; "-h"] = FlagValues ∅ ["-h"].
Proof. vm_compute. split_and!; reflexivity. Qed.

(** ** Exit codes *)

Definition exitSuccess : Z := 0.
Definition exitRuntime : Z := 1.
Definition exitUsage : Z := 2.
Definition exitCanceled : Z := 130.
Definition exitConflict : Z := 3.

(** [Some code] ends the command. *)
Definition parseNoFlags (args : list string) : option Z :=
  match ParseFlags [] [] ∅ args with
  | FlagHelp => Some exitSuccess
  | FlagBad => Some exitUsage
  | FlagValues _ [] => None
  | FlagValues _ _ => Some exitUsage
  end.

(** ** Passwords typed or piped *)

Definition trimSingleLineEnding (value : string) : string :=
  let trim (c : ascii) (s : string) := if ends_with c s then str_take (String.length s - 1) s else s in
  trim CR (trim LF value).

(** What standard input holds, and the two lines a terminal answers ([None] when reading
    fails); [Stdin_Terminal] is [None] off a terminal. *)
Record Stdin := mkStdin { Stdin_Content : string; Stdin_Terminal : option (option string * option string) }.

Definition readBootstrapPassword (stdin : Stdin) (fromStdin : bool) (maximum : Z) : option string :=
  if fromStdin then
    let limited := str_take (Z.to_nat (2 * (maximum + 2) + 1)) (Stdin_Content stdin) in
    let '(first, rest, found) := Cut LF limited in
    if negb found then None
    else
      let '(second, _, found) := Cut LF rest in
      if negb found then None
      else
        let first := trimSingleLineEnding (first +:+ String LF "") in
        let second := trimSingleLineEnding (second +:+ String LF "") in
        if (maximum <? len first) || (maximum <? len second) || (first != second) then None else Some first
  else match Stdin_Terminal stdin with
       | Some (Some first, Some second) => if (maximum <? len first) || (first != second) then None else Some first
       | _ => None
       end.

Example passwords_read :
  readBootstrapPassword (mkStdin ("secret" +:+ String CR (String LF ("secret" +:+ String LF ""))) None) true 16 = Some "secret" ∧
  readBootstrapPassword (mkStdin ("secret" +:+ String LF "secret") None) true 16 = None ∧
  readBootstrapPassword (mkStdin "" (Some (Some "a", Some "b"))) false 16 = None.
Proof. vm_compute. split_and!; reflexivity. Qed.

(** ** Subcommands *)

Section commands.
Context {P : Platform} {T : TextLibrary} {K : KeyDerivation}.

(** The audit record [Serve] writes before it builds the services. *)
Definition appendSigningKeyLoaded (now : time) : Tx unit :=
  event ← lift_sysrand (audit.New "signing_key_loaded" audit.ResultSuccess None "" None "" [] now);
  LoginStore.AppendAudit event.

(** A refused bootstrap is recorded when it can be. *)
Definition recordBootstrapRejected (now : time) : Tx unit :=
  record_event LoginStore.AppendAudit (audit.New audit.AdminBootstrapRejected audit.ResultRejected None "" None "" [] now).

(** [opened] and [migrated] are the errors of opening the database and of its migration
    check; the administration service has no client service here and needs none. *)
Definition executeAdmin (lookup : string → option string) (stdin : Stdin) (opened migrated : option error) (dummy gate : option error)
    (clock : nat → time) (args : list string) : Tx Z :=
  match args with
  | command :: args =>
      if command != "bootstrap" then mret exitUsage
      else match ParseFlags ["username"; "email"] ["password-stdin"] ∅ args with
      | FlagHelp => mret exitSuccess
      | FlagBad => mret exitUsage
      | FlagValues values rest =>
          let username := flag_value values "username" in
          let email := flag_value values "email" in
          if negb (bool_decide (rest = [])) || (TrimSpace username == "") || (TrimSpace email == "") then mret exitUsage
          else match config.LoadFrom lookup config.ScopeBootstrap with
          | inr _ => mret exitUsage
          | inl cfg =>
              match opened, migrated with
              | None, None =>
                  exists_ ← attempt UserStore.HasAdmin;
                  match exists_ with
                  | inr _ => mret exitRuntime
                  | inl true =>
                      recordBootstrapRejected (clock 0%nat);; mret exitConflict
                  | inl false =>
                      match readBootstrapPassword stdin (flag_value values "password-stdin" == "true")
                              (identity.PasswordConfig_MaxBytes (config.Config_Password cfg)) with
                      | None => mret exitUsage
                      | Some password =>
                          service ← attempt (lift_rand (identity.NewService (config.Config_Password cfg) dummy));
                          match service with
                          | inr _ => mret exitRuntime
                          | inl identities =>
                              created ← attempt (admin.Bootstrap (admin.mkService identities (client.NewService true) 0) gate
                                (identity.mkCreateInput username username email password) "" (clock 1%nat));
                              mret match created with
                                   | inl _ => exitSuccess
                                   | inr e => if e == identity_ErrBootstrapExists then exitConflict else exitRuntime
                                   end
                          end
                      end
                  end
              | _, _ => mret exitRuntime
              end
          end
      end
  | [] => mret exitUsage
  end.

Context {R : keystore.RSA} {J : keystore.Jose}.

Definition executeConfig (lookup : string → option string) (view : nat → gmap string keystore.File) (args : list string) : Z :=
  if negb (bool_decide (args = ["check"])) then exitUsage
  else match config.LoadFrom lookup config.ScopeService with
  | inr _ => exitUsage
  | inl cfg =>
      match keystore.Load view (config.OIDC_SigningKeyFile (config.Config_OIDC cfg)) (config.OIDC_VerificationKeysFile (config.Config_OIDC cfg)) with
      | inr _ => exitUsage
      | inl _ => exitSuccess
      end
  end.

Definition executeKeys (view : nat → gmap string keystore.File) (fs : gmap string keystore.File) (w : keystore.WriteOutcome) (random : string)
    (args : list string) : Z * gmap string keystore.File :=
  let finish (result : (keystore.Metadata + keystore.KeyError) * gmap string keystore.File) :=
    (match result.1 with inl _ => exitSuccess | inr _ => exitRuntime end, result.2) in
  match args with
  | "generate" :: args =>
      match ParseFlags ["alg"; "out"] [] ∅ args with
      | FlagHelp => (exitSuccess, fs)
      | FlagBad => (exitUsage, fs)
      | FlagValues values rest =>
          if negb (bool_decide (rest = [])) || (flag_value values "alg" != keystore.Algorithm) || (TrimSpace (flag_value values "out") == "")
          then (exitUsage, fs)
          else finish (keystore.Generate fs w (flag_value values "out") keystore.DefaultRSABits random)
      end
  | "public" :: args =>
      match ParseFlags ["in"; "out"] [] ∅ args with
      | FlagHelp => (exitSuccess, fs)
      | FlagBad => (exitUsage, fs)
      | FlagValues values rest =>
          if negb (bool_decide (rest = [])) || (TrimSpace (flag_value values "in") == "") || (TrimSpace (flag_value values "out") == "")
          then (exitUsage, fs)
          else finish (keystore.WritePublic view fs w (flag_value values "in") (flag_value values "out"))
      end
  | _ => (exitUsage, fs)
  end.

(** [outcome] is how the migration tool ends. *)
Definition executeMigration (lookup : string → option string) (outcome : option error) (canceled : bool) (args : list string) : Z :=
  match args with
  | [command] =>
      if negb (bool_decide (command ∈ ["up"; "status"; "version"])) then exitUsage
      else match config.LoadFrom lookup config.ScopeDatabase with
      | inr _ => exitUsage
      | inl _ => match outcome with None => exitSuccess | Some _ => if canceled then exitCanceled else exitRuntime end
      end
  | _ => exitUsage
  end.
End commands.

(** ** The cleanup loop *)

Section cleanup.
Context {P : Platform}.

Definition protocolArtifactRetention : duration := 24 * Time.Hour.
Definition refreshArtifactRetention : duration := 30 * 24 * Time.Hour.

(** An operation's error is counted and logged; the next operation runs. *)
Definition runCleanupOperation (operation : World → option (World * Z * option error)) (w : World) : option World := fst ∘ fst <$> operation w.

(** One round of the loop; [fuel] bounds the batches of each operation. *)
Definition cleanup_run (fuel : nat) (now : time) (w : World) : option World :=
  foldl (λ w operation, w ≫= runCleanupOperation operation) (Some w)
    [SessionService.Cleanup fuel now; authflow.Cleanup fuel now;
     CleanupProtocolArtifacts fuel (Time.Add now (- protocolArtifactRetention));
     CleanupRefreshArtifacts fuel (Time.Add now (- refreshArtifactRetention));
     CleanupLogoutTransactions fuel now (Time.Add now (- protocolArtifactRetention));
     λ w, let '(w', r) := CountActiveSessions now w in Some (w', 0, match r with inl _ => None | inr e => Some e end)].
End cleanup.

(** ** Supervision *)

(** What may happen around the server: it ends by itself, or the context ends and the
    shutdown and then the server end in their ways. *)
Inductive ServerEnd := ServeReturned (serveErr : option string) | ContextDone (shutdownErr : option string) (serveErr : option string).
Definition ErrServerClosed : string := "http: Server closed".
Definition DeadlineExceeded : string := "context deadline exceeded".
Inductive ServerAction := ActServe | ActReady (value : bool) | ActShutdown | ActClose | ActJoin.
Inductive Stopped := Clean | StoppedUnexpectedly (e : string) | ErrShutdownTimeout | ShutdownFailed (e : string).

Definition unexpected (serveErr : option string) : Stopped :=
  match serveErr with Some e => if e == ErrServerClosed then Clean else StoppedUnexpectedly e | None => Clean end.

(** The readiness gate, the actions in order, and the result. *)
Definition superviseHTTP (r : Readiness) (ending : ServerEnd) : Readiness * list ServerAction * Stopped :=
  let started := Readiness_Set r true in
  let stopping := Readiness_Set started false in
  match ending with
  | ServeReturned serveErr => (stopping, [ActServe; ActReady true; ActJoin; ActReady false], unexpected serveErr)
  | ContextDone (Some e) _ =>
      (stopping, [ActServe; ActReady true; ActReady false; ActShutdown; ActClose; ActJoin],
       if e == DeadlineExceeded then ErrShutdownTimeout else ShutdownFailed e)
  | ContextDone None serveErr => (stopping, [ActServe; ActReady true; ActReady false; ActShutdown; ActJoin], unexpected serveErr)
  end.
