(* ===== verification/SessionProofs.v ===== *)
(** * Session steps, read back

    What the composite steps of the browser and registry stores did to the tables when
    they succeeded, as equations between databases; the theorems on sessions, login,
    logout and administration follow from them. *)

From S2P Require Import Prelude Errors Platform Scopes Domain Opaque SessionTokens AuditEvents Database Queries RegistryQueries.
From S2P Require Import BrowserQueries Tx StoreCommon SessionStore LoginStore LogoutStore UserStore Invariants RegistryInvariants.
From S2P Require Import StatementFacts.

(** ** Revoking what hangs on bindings *)

(** Every family on the bindings, and every live access token on them. *)
Definition bindings_revoked (bindings : list uuid) (now : time) (reason : option string) (db : DB) : DB :=
  with_access_tokens
    (update_where (λ r, bound_access bindings r && live_access now r) (revoke_access now reason) (access_tokens db))
    (with_refresh_token_families
       (update_where (λ r, bound_family bindings r && (rf_RevokedAt r == None)) (revoke_family now reason)
          (refresh_token_families db)) db).

Lemma update_where_none {R} (p : R → bool) f (t : gmap uuid R) : (∀ r, p r = false) → update_where p f t = t.
Proof.
  intros Hp. apply map_eq. intros k. rewrite lookup_update_where. destruct (t !! k) as [r|]; simpl; [|done].
  by rewrite Hp.
Qed.

Lemma with_same_tables db :
  with_access_tokens (access_tokens db) (with_refresh_token_families (refresh_token_families db) db) = db.
Proof. by destruct db. Qed.

Lemma bindings_revoked_nil now reason db : bindings_revoked [] now reason db = db.
Proof.
  unfold bindings_revoked. rewrite !update_where_none; [by apply with_same_tables| |].
  - intros r. unfold bound_family, set_member. by rewrite bool_decide_eq_false_2 by set_solver.
  - intros r. unfold bound_access, set_member. destruct (at_SessionBindingID r); [|done].
    by rewrite bool_decide_eq_false_2 by set_solver.
Qed.

Lemma elem_of_unique_bindings b seen ids : b ∈ unique_bindings seen ids ↔ b ∈ ids ∧ b ≠ uuid_Nil ∧ b ∉ seen.
Proof.
  revert seen. induction ids as [|id ids IH]; intros seen; simpl; [set_solver|].
  destruct ((id == uuid_Nil) || bool_decide (id ∈ seen)) eqn:E.
  - rewrite orb_true_iff, !bool_decide_eq_true in E. rewrite IH. rewrite elem_of_cons. destruct E as [->|E]; naive_solver.
  - rewrite orb_false_iff, !bool_decide_eq_false in E. destruct E as [E1 E2]. rewrite !elem_of_cons, IH, elem_of_cons. destruct (decide (b = id)) as [->|]; naive_solver.
Qed.

Section steps.
Context {P : Platform}.

Lemma insertAudit_step event w w' x :
  insertAudit event w = (w', inl x) → ∃ audits, w_db w' = with_audit_events audits (w_db w) ∧ w_rand w' = w_rand w.
Proof. intros (r & _ & -> & _ & _ & _ & _ & _ & Hr)%insertAudit_inl. by eexists. Qed.

Lemma lift_sysrand_step {A} (m : Rnd A) w w' a :
  lift_sysrand m w = (w', inl a) → w_db w' = w_db w ∧ w_rand w' = w_rand w.
Proof. by intros (s & _ & ->)%lift_sysrand_inl. Qed.

Lemma append_event_step e w w' x : append_event e w = (w', inl x) → w_db w' = w_db w ∧ w_rand w' = w_rand w.
Proof. by intros [= <- _]. Qed.

Lemma bindings_cascade_step ids now reason w w' x :
  revokeSessionBindingsCascade ids now reason w = (w', inl x) →
  w_db w' = bindings_revoked (unique_bindings [] ids) (timestamp now) (pointerString reason) (w_db w) ∧
  w_rand w' = w_rand w.
Proof.
  unfold revokeSessionBindingsCascade. intros H. case_bool_decide as E.
  - tx_step H. rewrite E. by rewrite bindings_revoked_nil.
  - do 5 tx_step H. apply revoke_families_inl in Hstmt as ->. apply revoke_live_access_inl in Hstmt0 as ->.
    by tx_step H.
Qed.

Lemma binding_cascade_step id now reason w w' x :
  revokeSessionBindingCascade id now reason w = (w', inl x) →
  id ≠ uuid_Nil ∧ Time.IsZero now = false ∧
  w_db w' = bindings_revoked [id] (timestamp now) (pointerString reason) (w_db w) ∧ w_rand w' = w_rand w.
Proof.
  unfold revokeSessionBindingCascade. intros H. tx_step H. apply orb_false_iff in Hguard as [Hn Hz].
  apply bindings_cascade_step in H as [H Hr]. apply bool_decide_eq_false in Hn.
  split_and!; try done. rewrite H. unfold unique_bindings.
  by rewrite (bool_decide_eq_false_2 (id = uuid_Nil)), bool_decide_eq_false_2 by (done || set_solver).
Qed.

(** The events of a login or a registration. *)
Lemma insert_audits_step events w w' x :
  insert_audits events w = (w', inl x) → ∃ audits, w_db w' = with_audit_events audits (w_db w) ∧ w_rand w' = w_rand w.
Proof.
  revert w. induction events as [|e events IH]; intros w H; simpl in H.
  - tx_step H. exists (audit_events (w_db w)). by destruct (w_db w).
  - tx_step H. apply insertAudit_step in Hrun as (a1 & Hdb & Hr). apply IH in H as (a2 & Hdb2 & Hr2).
    exists a2. rewrite Hdb2, Hdb. split; [done|congruence].
Qed.
Lemma insert_optional_step event w w' x :
  insert_optional event w = (w', inl x) → ∃ audits, w_db w' = with_audit_events audits (w_db w) ∧ w_rand w' = w_rand w.
Proof.
  destruct event as [e|]; [by apply insertAudit_step|]. intros H. unfold insert_optional in H. tx_step H.
  exists (audit_events (w_db w)). by destruct (w_db w).
Qed.
End steps.

(** ** Revoking a list of sessions *)

Definition sessions_revoked (p : LoginSessionRow → bool) (now : time) (reason : option string) (db : DB) : DB :=
  with_login_sessions (update_where p (revoke_session now reason) (login_sessions db)) db.

Lemma revoke_session_twice now reason r : revoke_session now reason (revoke_session now reason r) = revoke_session now reason r.
Proof. done. Qed.

Lemma revoke_locked_step {P : Platform} reason now op targets w w' x :
  keyed ls_ID (login_sessions (w_db w)) → revoke_locked reason now op targets w = (w', inl x) →
  w_db w' = sessions_revoked (λ r, set_member (ls_ID <$> targets) (ls_ID r)) (timestamp now) (pointerString reason) (w_db w) ∧
  w_rand w' = w_rand w.
Proof.
  revert w. induction targets as [|row targets IH]; intros w Hkey H; simpl in H.
  - tx_step H. split; [|done]. unfold sessions_revoked. rewrite update_where_none; [by destruct (w_db w)|].
    intros r. unfold set_member. by rewrite bool_decide_eq_false_2 by set_solver.
  - tx_step H. apply update_row_inl in Hstmt as (r & Hr & _ & _ & -> & ->). simpl in Hr, Hdb.
    apply IH in H as [H Hrd]; rewrite Hdb in *; simpl in *.
    2: { intros k o. destruct (decide (k = ls_ID row)) as [->|Hne]; [rewrite lookup_insert_eq|rewrite lookup_insert_ne by done].
         - intros [= <-]. simpl. by apply Hkey in Hr.
         - by apply Hkey. }
    split; [|congruence]. rewrite H. unfold sessions_revoked. simpl.
    match goal with |- with_login_sessions ?t _ = with_login_sessions ?t' ?db =>
      change (with_login_sessions t db = with_login_sessions t' db) end. f_equal.
    apply map_eq. intros k. rewrite !lookup_update_where. destruct (decide (k = ls_ID row)) as [->|Hne].
    + rewrite lookup_insert_eq, Hr. simpl. f_equal. rewrite (Hkey _ _ Hr). unfold set_member.
      rewrite (bool_decide_eq_true_2 (_ ∈ _ :: _)) by set_solver. by destruct (bool_decide _).
    + rewrite lookup_insert_ne by done. destruct (login_sessions (w_db w) !! k) as [o|] eqn:Ho; [|done]. simpl. f_equal.
      rewrite (Hkey _ _ Ho). unfold set_member. destruct (decide (k ∈ ls_ID <$> targets)).
      * by rewrite !bool_decide_eq_true_2 by set_solver.
      * by rewrite !bool_decide_eq_false_2 by set_solver.
Qed.

(** The sessions a user has open, as the lock statement lists them. *)
Definition active_sessions (u : uuid) (db : DB) : list LoginSessionRow :=
  merge_sort session_id_le (List.filter (unrevoked_of u) (rows (login_sessions db))).
Lemma elem_of_active_sessions u s db :
  s ∈ active_sessions u db ↔ (∃ k, login_sessions db !! k = Some s) ∧ unrevoked_of u s = true.
Proof.
  unfold active_sessions. rewrite merge_sort_Permutation, <- elem_of_rows. rewrite !list_elem_of_In. apply filter_In.
Qed.

Lemma length_filter_Permutation {A} (p : A → bool) l k : l ≡ₚ k → length (List.filter p l) = length (List.filter p k).
Proof. induction 1; simpl; repeat case_match; simpl; lia. Qed.
Lemma filter_filter {A} (p q : A → bool) l : List.filter p (List.filter q l) = List.filter (λ x, q x && p x) l.
Proof. induction l as [|x l IH]; simpl; [done|]. destruct (q x); simpl; [destruct (p x); by rewrite IH|done]. Qed.

(** A count moves by the row that is replaced. *)
Lemma count_where_delete {R} (p : R → bool) (t : gmap uuid R) k r :
  t !! k = Some r → count_where p t = (if p r then 1 else 0) + count_where p (delete k t).
Proof.
  intros Hk. unfold count_where, rows.
  rewrite (length_filter_Permutation p _ (r :: (snd <$> map_to_list (delete k t)))).
  - simpl. destruct (p r); simpl; lia.
  - rewrite <- (insert_id t k r Hk) at 1. rewrite <- insert_delete_eq.
    by rewrite map_to_list_insert by apply lookup_delete_eq.
Qed.
Lemma count_where_insert {R} (p : R → bool) (t : gmap uuid R) k r r' :
  t !! k = Some r →
  count_where p (<[k := r']> t) + (if p r then 1 else 0) = count_where p t + (if p r' then 1 else 0).
Proof.
  intros Hk. rewrite (count_where_delete p t k r Hk), (count_where_delete p (<[k := r']> t) k r') by apply lookup_insert_eq.
  rewrite delete_insert_eq. lia.
Qed.

Lemma update_where_ext {R} (p q : R → bool) f (t : gmap uuid R) :
  (∀ k r, t !! k = Some r → p r = q r) → update_where p f t = update_where q f t.
Proof.
  intros Hpq. apply map_eq. intros k. rewrite !lookup_update_where. destruct (t !! k) as [r|] eqn:E; simpl; [|done].
  by rewrite (Hpq k r E).
Qed.

Lemma elem_of_ended_bindings (sel : LoginSessionRow → bool) targets (t : gmap uuid LoginSessionRow) b :
  (∀ s, s ∈ targets ↔ (∃ k, t !! k = Some s) ∧ sel s = true) →
  b ∈ unique_bindings [] (ls_SessionBindingID <$> targets) ↔
  b ≠ uuid_Nil ∧ ∃ (k : uuid) s, t !! k = Some s ∧ sel s = true ∧ ls_SessionBindingID s = b.
Proof.
  intros Ht. rewrite elem_of_unique_bindings, list_elem_of_fmap. split.
  - intros ((s & -> & [[k Hk] Hs]%Ht) & Hb & _). split; [done|]. by exists k, s.
  - intros [Hb (k & s & Hk & Hs & <-)]. split_and!; [|done|set_solver]. exists s. split; [done|]. apply Ht. by split; [exists k|].
Qed.

(** The cascade over the bindings of some sessions, then the sessions themselves. *)
Lemma end_sessions_step {P : Platform} (sel : LoginSessionRow → bool) targets r1 r2 now op w w' x :
  keyed ls_ID (login_sessions (w_db w)) →
  (∀ s, s ∈ targets ↔ (∃ k, login_sessions (w_db w) !! k = Some s) ∧ sel s = true) →
  (revokeSessionBindingsCascade (ls_SessionBindingID <$> targets) now r1;; revoke_locked r2 now op targets) w = (w', inl x) →
  ∃ bs, (∀ b, b ∈ bs ↔ b ≠ uuid_Nil ∧ ∃ k s, login_sessions (w_db w) !! k = Some s ∧ sel s = true ∧ ls_SessionBindingID s = b) ∧
    w_db w' = sessions_revoked sel (timestamp now) (pointerString r2) (bindings_revoked bs (timestamp now) (pointerString r1) (w_db w)) ∧
    w_rand w' = w_rand w.
Proof.
  intros Hkey Ht H. apply Tx_bind_inl in H as (w1 & y & Hc & H). apply bindings_cascade_step in Hc as [Hdb Hr].
  apply revoke_locked_step in H as [Hdb' Hr']; [|by rewrite Hdb]. rewrite Hdb in Hdb'.
  exists (unique_bindings [] (ls_SessionBindingID <$> targets)). split_and!; [| |congruence].
  - intros b. by apply elem_of_ended_bindings.
  - rewrite Hdb'. unfold sessions_revoked. f_equal. apply update_where_ext. intros k r Hr0. simpl in Hr0.
    unfold set_member. destruct (sel r) eqn:E.
    + apply bool_decide_eq_true, list_elem_of_fmap. exists r. split; [done|]. apply Ht. by split; [exists k|].
    + apply bool_decide_eq_false. intros (s & Hid & [[k' Hk'] Hs]%Ht)%list_elem_of_fmap.
      apply Hkey in Hk' as E1. apply Hkey in Hr0 as E2. simpl in E1, E2. congruence.
Qed.

Ltac use_step w L H :=
  let Hdb := fresh "Hdb" in let Hr := fresh "Hrand" in
  destruct L as (Hdb & Hr); clear H; known_db w Hdb; known_rand w Hr.
Ltac use_audit_step w L H :=
  let au := fresh "audits" in let Hdb := fresh "Hdb" in let Hr := fresh "Hrand" in
  destruct L as (au & Hdb & Hr); clear H; known_db w Hdb; known_rand w Hr.

(** [store_step] over the composite steps above. *)
Ltac browser_step H :=
  store_step H;
  repeat match goal with
  | Hr : insertAudit ?e ?w = (?w', inl ?x) |- _ => use_audit_step w (insertAudit_step e w w' x Hr) Hr
  | Hr : insert_audits ?e ?w = (?w', inl ?x) |- _ => use_audit_step w (insert_audits_step e w w' x Hr) Hr
  | Hr : insert_optional ?e ?w = (?w', inl ?x) |- _ => use_audit_step w (insert_optional_step e w w' x Hr) Hr
  | Hr : append_event ?e ?w = (?w', inl ?x) |- _ => use_step w (append_event_step e w w' x Hr) Hr
  | Hr : lift_sysrand ?m ?w = (?w', inl ?x) |- _ => use_step w (lift_sysrand_step m w w' x Hr) Hr
  | Hr : revokeSessionBindingsCascade ?i ?n ?re ?w = (?w', inl ?x) |- _ =>
      use_step w (bindings_cascade_step i n re w w' x Hr) Hr
  | Hr : revokeSessionBindingCascade ?i ?n ?re ?w = (?w', inl ?x) |- _ =>
      let Hn := fresh "Hbinding" in let Hz := fresh "Hnow" in let L := fresh in
      destruct (binding_cascade_step i n re w w' x Hr) as (Hn & Hz & L); use_step w L Hr
  end.

(** ** Account steps, read back

    What checking identifiers and creating a user did when they succeeded, and the two
    invariants of the user table: an identifier names at most one user, and an active
    administrator remains. *)

Section steps.
Context {P : Platform}.

Lemma lock_identifiers_step ids w w' x :
  lock_identifiers ids w = (w', inl x) → w_db w' = w_db w ∧ w_rand w' = w_rand w.
Proof.
  revert w. induction ids as [|i ids IH]; intros w H; simpl in H; [by tx_step H|].
  tx_step H. injection Hstmt as _ <-. apply IH in H as [H Hr]. split; congruence.
Qed.

Lemma refuse_taken_step op (taken : string → Stmt bool) (test : string → DB → bool) ids w w' x :
  (∀ i db, taken i db = inl (test i db, db)) → refuse_taken op taken ids w = (w', inl x) →
  w_db w' = w_db w ∧ w_rand w' = w_rand w ∧ ∀ i, i ∈ ids → test i (w_db w) = false.
Proof.
  intros Ht. revert w. induction ids as [|i ids IH]; intros w H; simpl in H.
  - tx_step H. do 2 (split; [done|]). intros i Hi. by apply elem_of_nil in Hi.
  - tx_step H. rewrite Ht in Hstmt. injection Hstmt as <- <-. tx_step H. apply IH in H as (H & Hr & Hi).
    split; [congruence|]. split; [congruence|]. intros j [->|Hj]%elem_of_cons; [done|]. rewrite <- Hdb. by apply Hi.
Qed.

(** The user, if any, who is not excluded and has the identifier. *)
Definition taken_by_other (exclude : uuid) (i : string) (db : DB) : bool :=
  exists_row (λ r, ((exclude == uuid_Nil) || (u_ID r != exclude)) && has_identifier i r) (users db).

Lemma lockAndCheckIdentifiers_step user exclude w w' x :
  lockAndCheckIdentifiers user exclude w = (w', inl x) →
  w_db w' = w_db w ∧ w_rand w' = w_rand w ∧
  taken_by_other exclude (User_UsernameNormalized user) (w_db w) = false ∧
  taken_by_other exclude (User_EmailNormalized user) (w_db w) = false.
Proof.
  unfold lockAndCheckIdentifiers. intros H. apply Tx_bind_inl in H as (w1 & y & Hl & H).
  apply lock_identifiers_step in Hl as [Hdb Hr].
  apply (refuse_taken_step _ _ (taken_by_other exclude)) in H as (Hdb' & Hr' & Ht).
  - split; [congruence|]. split; [congruence|]. rewrite <- Hdb. split; apply Ht, elem_of_sort_Strings; set_solver.
  - intros i db. unfold taken_by_other. case_bool_decide as E; simpl.
    + unfold LoginIdentifierExists. do 2 f_equal.
    + done.
Qed.

(** A created user and the password row. *)
Definition with_new_user (prepared : PreparedUser) (db : DB) : DB :=
  with_credentials (<[User_ID (PreparedUser_User prepared) := mkCredentialRow (User_ID (PreparedUser_User prepared)) "password"
      (PreparedUser_PasswordHash prepared) (timestamp (User_CreatedAt (PreparedUser_User prepared)))
      (timestamp (User_UpdatedAt (PreparedUser_User prepared)))]> (credentials db))
    (with_users (<[User_ID (PreparedUser_User prepared) := new_user_row (createUserParams (PreparedUser_User prepared))]> (users db)) db).

Lemma createUser_step a b prepared w w' x :
  createUserWithCredential a b prepared w = (w', inl x) →
  users (w_db w) !! User_ID (PreparedUser_User prepared) = None ∧ w_db w' = with_new_user prepared (w_db w) ∧
  w_rand w' = w_rand w.
Proof.
  unfold createUserWithCredential. intros H. do 3 tx_step H.
  apply insert_row_inl in Hstmt as (_ & -> & _ & _ & _ & Hn & _).
  apply insert_row_inl in Hstmt0 as (_ & -> & _ & _ & _ & _ & _). done.
Qed.
End steps.

(** ** The user table *)

Lemma exists_row_taken exclude i db :
  taken_by_other exclude i db = false →
  ∀ k u, users db !! k = Some u → (exclude = uuid_Nil ∨ u_ID u ≠ exclude) → has_identifier i u = false.
Proof.
  unfold taken_by_other. intros H k u Hu Hne. rewrite exists_row_false in H. specialize (H k u Hu). simpl in H.
  destruct (has_identifier i u); [|done]. rewrite andb_true_r in H. apply orb_false_iff in H as [H1 H2]. go_bools. by destruct Hne.
Qed.

(** A login identifier — username or email — names at most one user. *)
Definition unambiguous (db : DB) : Prop :=
  ∀ k k' u v i, users db !! k = Some u → users db !! k' = Some v →
    has_identifier i u = true → has_identifier i v = true → k = k'.

Lemma has_identifier_spec i u : has_identifier i u = true ↔ i = u_UsernameNormalized u ∨ i = u_EmailNormalized u.
Proof. unfold has_identifier. rewrite orb_true_iff, !bool_decide_eq_true. naive_solver. Qed.

(** Writing one row whose identifiers no other row has keeps identifiers unambiguous. *)
Lemma unambiguous_insert db db' k u :
  unambiguous db → users db' = <[k := u]> (users db) →
  (∀ k' v, users db !! k' = Some v → k' ≠ k → has_identifier (u_UsernameNormalized u) v = false ∧ has_identifier (u_EmailNormalized u) v = false) →
  unambiguous db'.
Proof.
  intros Hun E Hfree a b x y i. rewrite E. intros Ha Hb Hx Hy.
  apply lookup_insert_Some in Ha as [[<- <-]|[Hne Ha]]; apply lookup_insert_Some in Hb as [[<- <-]|[Hne' Hb]]; [done| | |by eapply Hun].
  - apply has_identifier_spec in Hx. destruct (Hfree _ _ Hb (not_eq_sym Hne')) as [F1 F2]. destruct Hx as [->| ->]; congruence.
  - apply has_identifier_spec in Hy. destruct (Hfree _ _ Ha (not_eq_sym Hne)) as [F1 F2]. destruct Hy as [->| ->]; congruence.
Qed.

(** There is an active administrator. *)
Definition has_active_admin (db : DB) : Prop := ∃ k u, users db !! k = Some u ∧ active_admin u = true.

Lemma count_where_pos {R} (p : R → bool) (t : gmap uuid R) : 0 < count_where p t → ∃ k r, t !! k = Some r ∧ p r = true.
Proof.
  unfold count_where. destruct (List.filter p (rows t)) as [|r l] eqn:E; [simpl; lia|]. intros _.
  assert (Hin : In r (List.filter p (rows t))) by (rewrite E; by left). apply filter_In in Hin as [Hin Hp].
  apply list_elem_of_In, elem_of_rows in Hin as [k Hk]. by exists k, r.
Qed.
