(* ===== verification/Demo.v ===== *)
(** * A concrete installation

    One user, one public client, one browser transaction, and a token codec, for the
    witnesses: issuing a code, exchanging it, refreshing, and presenting the consumed
    refresh token again all run here by evaluation. *)

From S2P Require Import Prelude Base64 Errors Platform Scopes Domain Opaque SessionTokens AuditEvents Database Queries Tx.
From S2P Require Import StoreCommon AuthorizationStore TokenStore ConsentStore Invariants TokenService AuthorizationService.
Import Authorization Refresh AccessID.

#[export] Existing Instance demo_platform.

(** ** A token codec

    The payload is the list of its fields in base64url, the signature is a constant. *)

Fixpoint split_on (sep : ascii) (s : string) : list string :=
  match s with
  | EmptyString => [""]
  | String c s' =>
      if Ascii.eqb c sep then "" :: split_on sep s'
      else match split_on sep s' with [] => [String c ""] | p :: rest => String c p :: rest end
  end.

Fixpoint join_with (sep : ascii) (parts : list string) : string :=
  match parts with
  | [] => ""
  | [p] => p
  | p :: rest => p +:+ String sep (join_with sep rest)
  end.

Fixpoint show_positive (p : positive) : string :=
  match p with xH => "e" | xO p => String "0" (show_positive p) | xI p => String "1" (show_positive p) end.
Fixpoint read_positive (s : string) : option positive :=
  match s with
  | String c s' =>
      if Ascii.eqb c "0" then xO <$> read_positive s'
      else if Ascii.eqb c "1" then xI <$> read_positive s'
      else Some xH
  | EmptyString => None
  end.
Definition show_Z (n : Z) : string :=
  match n with Z0 => "z" | Zpos p => String "p" (show_positive p) | Zneg p => String "n" (show_positive p) end.
Definition read_Z (s : string) : option Z :=
  match s with
  | String c s' =>
      if Ascii.eqb c "p" then Zpos <$> read_positive s'
      else if Ascii.eqb c "n" then Zneg <$> read_positive s' else Some 0
  | EmptyString => None
  end.

Definition demo_marshal (c : AccessTokenClaims) : bytes :=
  join_with "," (Base64.Encode <$> [Claim_Issuer c; Claim_Subject c; Claim_Audience c; Claim_ClientID c; Claim_Scope c;
                                    show_Z (Claim_IssuedAt c); show_Z (Claim_ExpiresAt c); Claim_JWTID c]).

Definition demo_decode (payload : bytes) : option AccessTokenClaims :=
  fields ← mapM Base64.DecodeString (split_on "," payload);
  match fields with
  | [iss; sub; aud; client; scope; iat; exp; jti] =>
      iat ← read_Z iat; exp ← read_Z exp; Some (mkAccessTokenClaims iss sub aud client scope iat exp jti)
  | _ => None
  end.

Definition demo_compact (payload : bytes) (typ : string) : string :=
  Base64.Encode typ +:+ String "." (Base64.Encode payload +:+ ".demo-signature").

Definition demo_parse (compact : string) : option (string * bytes) :=
  match split_on "." compact with
  | [header; payload; signature] =>
      if signature == "demo-signature" then
        typ ← Base64.DecodeString header; payload ← Base64.DecodeString payload; Some (typ, payload)
      else None
  | _ => None
  end.

Definition demo_key : JSONWebKey := mkJSONWebKey "demo-key" "RS256" "sig" true (Some 3072) "".

#[export] Instance demo_codec : TokenCodec := {|
  Marshal_IDTokenClaims c := Some (join_with "," (Base64.Encode <$> [ID_Issuer c; ID_Subject c; ID_Audience c; ID_Nonce c]));
  Marshal_AccessTokenClaims c := Some (demo_marshal c);
  Decode_AccessTokenClaims := demo_decode;
  Sign payload typ := if (typ == "JWT") || (typ == "at+jwt") then Some (demo_compact payload typ) else None;
  PublicKeys := [demo_key];
  ParseSignedCompact compact :=
    '(typ, _) ← demo_parse compact; Some [mkJoseHeader "RS256" "demo-key" false "" [("typ", Some typ)]];
  Verify compact key := if JWK_KeyID key == "demo-key" then snd <$> demo_parse compact else None |}.

(** ** The installation *)

Definition t0 : time := 1700000000 * Time.Second.

Fixpoint byte_run (n : nat) : string := match n with O => "" | S n => String (ascii_of_nat (n mod 251)) (byte_run n) end.
Definition hash_of (c : ascii) : bytes := Nat.iter 32 (String c) "".

Definition demo_user : UserRow :=
  mkUserRow 1 "ois_sub_QUJDREVGR0hJSktMTU5P" "alice" "alice" "Alice" "alice@example.com" "alice@example.com" true "active" "user" t0 t0 None 1.
Definition demo_client : OidcClientRow :=
  mkOidcClientRow 2 "ois_cli_QUJDREVGR0hJSktMTU5PUFFSU1RVVldYWVo" "public" "none" "App" "" None "active" true t0 t0 1.
Definition redirect : string := "https://app.example/callback".
Definition verifier : string := "dBjftJeZ4CVP-mB92K27uhbUJU1p1r_wW1gFWFOEjXk".
Definition challenge : string := "E9Melhoa2OwvFrEMTJguCHaoeK1t8URWbuGJSstw-cM".
Definition demo_scopes : list string := ["offline_access"; "openid"; "profile"].
(** The clear cookie of the session. *)
Definition demo_cookie : string := "s1_" +:+ Base64.Encode (byte_run 32).
Definition demo_session : LoginSessionRow :=
  mkLoginSessionRow 4 1 (HashToken demo_cookie) (hash_of "c") (t0 + Time.Hour) t0 t0 t0 (t0 + 8 * Time.Hour) (t0 + Time.Hour)
    None None None None 5.
Definition demo_transaction : AuthTransactionRow :=
  mkAuthTransactionRow 3 (hash_of "t") "authorization" (Some 2%N) (Some redirect) demo_scopes (Some challenge) (Some "S256")
    (Some "state") (Some "nonce") false t0 (t0 + 10 * Time.Minute) None None (Some "code") (Some "query") [] None.

Definition demo_db : DB :=
  mkDB {[ 1%N := demo_user ]} {[ 2%N := demo_client ]} {[ (2%N, redirect) := t0 ]} ∅
    (list_to_map ((λ s, ((2%N, s), t0)) <$> ["email"; "offline_access"; "openid"; "profile"]))
    ∅ {[ 3%N := demo_transaction ]} ∅ ∅ ∅ ∅ {[ 4%N := demo_session ]} ∅ ∅ ∅ ∅ ∅.

Definition world_of (db : DB) (seed : nat) : World := mkWorld db (byte_run (seed + 400)) (byte_run (seed + 300)) [] [] [] [] [] [].

Definition demo_service : Service :=
  mkService "https://issuer.example" "https://issuer.example/oauth2/userinfo" (5 * Time.Minute) (10 * Time.Minute)
    (30 * Time.Second) (30 * 24 * Time.Hour) (90 * 24 * Time.Hour).
Definition demo_authorization : AuthorizationService := mkAuthorizationService Time.Minute.

Definition demo_authenticated : Client := client_of demo_db demo_client.

(** ** One run: issue, exchange, refresh, reuse *)

Definition run_db {A} (m : Tx A) (w : World) : DB := w_db (m w).1.

Definition demo_issue_op : Tx Issued :=
  Issue demo_authorization (mapAuthTransaction demo_transaction) 1 4 5 t0 true "req-1" (t0 + Time.Second).
Definition demo_code : string :=
  match (demo_issue_op (world_of demo_db 0)).2 with inl i => Issued_Code i | inr _ => "" end.
Definition issued_db : DB := run_db demo_issue_op (world_of demo_db 0).

Definition demo_exchange : ExchangeInput :=
  mkExchangeInput (HashCode demo_code) demo_authenticated redirect verifier "req-2" (t0 + 2 * Time.Second).
Definition exchanged : World * (Response + error) := Exchange demo_service demo_exchange (world_of issued_db 7).
Definition demo_response : Response := match exchanged.2 with inl r => r | inr _ => mkResponse "" "" 0 "" "" "" end.
Definition exchanged_db : DB := w_db exchanged.1.

Definition demo_refresh : RefreshInput :=
  mkRefreshInput (HashRefreshToken (Response_RefreshToken demo_response)) demo_authenticated None "req-3" (t0 + Time.Minute).
Definition refreshed : World * (Response + error) := Refresh demo_service demo_refresh (world_of exchanged_db 13).
Definition refreshed_db : DB := w_db refreshed.1.
Definition reused_db : DB := run_db (Refresh demo_service demo_refresh) (world_of refreshed_db 31).

(** A successful run, with its world and result kept abstract. *)
Definition succeeds {A} (m : Tx A) (w : World) : bool := match (m w).2 with inl _ => true | inr _ => false end.
Lemma succeeds_run {A} (m : Tx A) w : succeeds m w = true → ∃ w' a, m w = (w', inl a).
Proof. unfold succeeds. destruct (m w) as [w' [a|e]]; [by eauto|done]. Qed.

Lemma world_of_db db n : w_db (world_of db n) = db.
Proof. done. Qed.

Lemma world_ok db n : db_ok db → db_ok (w_db (world_of db n)).
Proof. done. Qed.

Lemma demo_db_ok : db_ok demo_db.
Proof. apply db_okb_spec. by vm_compute. Qed.
Lemma issued_db_ok : db_ok issued_db.
Proof. apply db_okb_spec. by vm_compute. Qed.
Lemma exchanged_db_ok : db_ok exchanged_db.
Proof. apply db_okb_spec. by vm_compute. Qed.
Lemma refreshed_db_ok : db_ok refreshed_db.
Proof. apply db_okb_spec. by vm_compute. Qed.

(** The commit the service would hand to the store, with fixed identifiers. *)
Definition demo_commit : IssueCommit :=
  mkIssueCommit (mapAuthTransaction demo_transaction) 1 4 5 t0 true 7 (HashCode demo_code) 6 (t0 + Time.Second)
    (t0 + 61 * Time.Second) "req-1".

Lemma demo_commit_succeeds : succeeds (IssueAuthorizationCode demo_commit) (world_of demo_db 0) = true.
Proof. by vm_compute. Qed.

(** The rows of the run, read back from its tables. *)
Definition demo_family (db : DB) : RefreshTokenFamilyRow :=
  default (mkRefreshTokenFamilyRow 0 None 0 0 0 None 0 [] 0 0 None None) (head (rows (refresh_token_families db))).
Definition demo_grant (db : DB) : ConsentGrantRow :=
  default (mkConsentGrantRow 0 0 0 [] 0 0 None 0) (head (rows (consent_grants db))).
Definition demo_generation (db : DB) (hash : bytes) : RefreshTokenRow :=
  default (mkRefreshTokenRow 0 0 "" 0 0 0 None) (find_row (λ r, rt_TokenHash r == hash) (refresh_tokens db)).

(** The consumed generation, presented a second time. *)
Definition reuse_input : RefreshInput :=
  mkRefreshInput (RefreshInput_TokenHash demo_refresh) demo_authenticated None "req-4" (t0 + 2 * Time.Minute).

Lemma demo_refresh_succeeds :
  succeeds (ExchangeRefreshToken demo_refresh (mintRefresh demo_service)) (world_of exchanged_db 13) = true.
Proof. by vm_compute. Qed.

(** ** The token codec keeps the laws

    The codec satisfies [TokenCodecLaws]: its compact form has three base64url parts, and
    parsing, verifying and decoding undo signing and marshalling. *)

(** ** Strings *)

Definition not_char (sep : ascii) (c : ascii) : bool := negb (Ascii.eqb c sep).

Lemma split_on_fresh sep s : every (not_char sep) s = true → split_on sep s = [s].
Proof.
  unfold not_char. induction s as [|c s IH]; simpl; [done|]. rewrite andb_true_iff, negb_true_iff. intros [-> H]. by rewrite IH.
Qed.

Lemma split_on_app sep s t : every (not_char sep) s = true → split_on sep (s +:+ String sep t) = s :: split_on sep t.
Proof.
  unfold not_char. induction s as [|c s IH]; simpl; [by rewrite Ascii.eqb_refl|]. rewrite andb_true_iff, negb_true_iff.
  intros [-> H]. by rewrite IH.
Qed.

Lemma split_join sep l : l ≠ [] → Forall (λ s, every (not_char sep) s = true) l → split_on sep (join_with sep l) = l.
Proof.
  intros Hne HF. induction HF as [|s l Hs HF IH]; [done|]. destruct l as [|t l]; [by apply split_on_fresh|].
  change (join_with sep (s :: t :: l)) with (s +:+ String sep (join_with sep (t :: l))). by rewrite split_on_app, IH.
Qed.

Lemma Encode_fresh sep b : Forall (λ n, not_char sep (Base64.enc6 n) = true) (N.of_nat <$> seq 0 64) →
  every (not_char sep) (Base64.Encode b) = true.
Proof. apply Base64.Encode_every. Qed.

Lemma Encode_no_comma b : every (not_char ",") (Base64.Encode b) = true.
Proof. apply Encode_fresh, (bool_decide_unpack _). by vm_compute. Qed.
Lemma Encode_no_dot b : every (not_char ".") (Base64.Encode b) = true.
Proof. apply Encode_fresh, (bool_decide_unpack _). by vm_compute. Qed.

(** A string of visible ASCII has no white space to trim. *)
Definition visible (c : ascii) : bool := (32 <? N_of_ascii c)%N && (N_of_ascii c <? 127)%N.

Lemma every_drop f n s : every f s = true → every f (str_drop n s) = true.
Proof.
  revert s. induction n as [|n IH]; intros [|c s]; simpl; try done. rewrite andb_true_iff. intros [_ H]. by apply IH.
Qed.

Lemma space_runes_hidden : Forall (λ r, every visible r = false) space_runes.
Proof. apply (bool_decide_unpack _). by vm_compute. Qed.

Lemma visible_trimmed s : every visible s = true → trimmed s = true.
Proof.
  intros Hs. unfold trimmed. apply forallb_forall. intros r Hr%list_elem_of_In.
  pose proof (proj1 (Forall_forall _ _) space_runes_hidden r Hr) as Hh. simpl in Hh.
  apply andb_true_iff. split; apply negb_true_iff.
  - destruct (HasPrefix s r) eqn:E; [|done]. apply prefix_inv in E as [t ->]. rewrite every_app, Hh in Hs. done.
  - unfold HasSuffix. destruct (_ <=? _)%nat; [|done]. simpl. apply bool_decide_eq_false. intros Hd.
    by rewrite <- Hd, every_drop in Hh.
Qed.

Lemma Encode_visible b : every visible (Base64.Encode b) = true.
Proof. apply Base64.Encode_every, (bool_decide_unpack _). by vm_compute. Qed.

(** ** The codec *)

Lemma read_show_positive p : read_positive (show_positive p) = Some p.
Proof. induction p as [p IH|p IH|]; simpl; rewrite ?IH; done. Qed.

Lemma read_show_Z n : read_Z (show_Z n) = Some n.
Proof. destruct n as [|p|p]; simpl; rewrite ?read_show_positive; done. Qed.

Lemma demo_decode_marshal c : demo_decode (demo_marshal c) = Some c.
Proof.
  unfold demo_decode, demo_marshal. rewrite split_join; [|done|repeat constructor; apply Encode_no_comma].
  cbn [mapM mret mbind option_ret option_bind fmap list_fmap]. rewrite !Base64.DecodeString_Encode.
  cbn [mapM mret mbind option_ret option_bind]. rewrite !read_show_Z. by destruct c.
Qed.

Lemma demo_parse_compact payload typ : demo_parse (demo_compact payload typ) = Some (typ, payload).
Proof.
  unfold demo_parse, demo_compact. rewrite split_on_app by apply Encode_no_dot.
  change (".demo-signature") with (String "." "demo-signature"). rewrite split_on_app by apply Encode_no_dot.
  rewrite (split_on_fresh _ "demo-signature") by done. cbn. by rewrite !Base64.DecodeString_Encode.
Qed.

Lemma demo_compact_shape payload typ : trimmed (demo_compact payload typ) = true ∧ count_dots (demo_compact payload typ) = 2.
Proof.
  unfold demo_compact. split.
  - apply visible_trimmed. rewrite every_app, Encode_visible. simpl. by rewrite every_app, Encode_visible.
  - rewrite count_dots_app, count_dots_Encode. simpl. by rewrite count_dots_app, count_dots_Encode.
Qed.

#[export] Instance demo_codec_laws : TokenCodecLaws demo_codec.
Proof.
  split; simpl.
  - intros payload typ t. destruct (_ || _); [|done]. intros [= <-]. apply demo_compact_shape.
  - intros payload typ t. destruct (_ || _); [|done]. intros [= <-]. exists "demo-key", demo_key.
    rewrite demo_parse_compact. by split_and!.
  - intros c payload _ [= <-]. apply demo_decode_marshal.
Qed.
