(* ===== verification/CodeTheorems.v ===== *)
(** * Authorization codes: the theorems

    What the exchange of a code guarantees over every run of the store: it refines
    [exchange_spec], a code is exchanged at most once, and a code does not survive a
    change of the consent grant it was issued under. *)

From S2P Require Import Prelude Base64 Errors Platform Scopes Domain Opaque AuditEvents Database Queries Tx StoreCommon.
From S2P Require Import AuthorizationStore TokenStore ConsentStore Invariants StatementFacts ExchangeProofs Writes Lifecycle.
From S2P Require Import Quiet TokenService AuthorizationService Demo.
Import Authorization Refresh.

Lemma with_audit_same db : with_audit_events (audit_events db) db = db.
Proof. by destruct db. Qed.

Section theorems.
Context {P : Platform}.

(** The abstract exchange: a code with the required authority buys what the mint made
    of that authority, and the tables change by [exchange_effect] and audit events. *)
Definition exchange_spec (input : ExchangeInput) (mint : MintFunc) (db : DB) (resp : Response) (db' : DB) : Prop :=
  ∃ code user client grant scopes minted s s' audits,
    exchangeable db input code user client grant scopes ∧
    mint (exchange_authority input db code user client grant scopes) s = (s', inl minted) ∧
    validMintedTokens minted (ExchangeInput_Now input) (bool_decide ("offline_access" ∈ scopes)) = true ∧
    db' = with_audit_events audits (exchange_effect code (g_ID grant) scopes minted (ExchangeInput_Now input) db) ∧
    resp = mkResponse (Minted_AccessToken minted) "Bearer"
             (expiresIn (Minted_AccessExpiresAt minted) (Minted_IssuedAt minted)) (Minted_IDToken minted)
             (match Minted_InitialRefresh minted with Some i => InitialRefresh_ClearToken i | None => "" end)
             (join_space scopes).

Lemma exchange_committed input mint db resp db' :
  db_ok db → committed (exchangeAuthorizationCode_tx input mint) db (Exchanged resp) db' → exchange_spec input mint db resp db'.
Proof.
  intros Hok (w & w' & <- & Hrun & <-).
  destruct (exchange_inv _ _ _ _ _ Hok Hrun) as (code & user & client & grant & scopes & minted & s & audits & H).
  unfold exchange_spec. naive_solver.
Qed.

Lemma replay_committed input mint db db' :
  committed (exchangeAuthorizationCode_tx input mint) db ReplayRejected db' → ∃ audits, db' = with_audit_events audits db.
Proof. intros (w & w' & <- & Hrun & <-). by apply replay_inv in Hrun as [_ H]. Qed.

(** What any return of [ExchangeAuthorizationCode] means. *)
Lemma exchange_outcome input mint w w' r :
  db_ok (w_db w) → ExchangeAuthorizationCode input mint w = (w', r) →
  match r with
  | inl resp => exchange_spec input mint (w_db w) resp (w_db w')
  | inr e =>
      (∃ audits, w_db w' = with_audit_events audits (w_db w)) ∨
      ((∃ d, e = wrapError "commit transaction" ErrorKindQuery d) ∧ ∃ resp, exchange_spec input mint (w_db w) resp (w_db w'))
  end.
Proof.
  intros Hok H%Exchange_cases. destruct r as [resp|e]; [by apply exchange_committed|].
  destruct H as [->|([|resp] & Hc & He)].
  - left. exists (audit_events (w_db w)). by rewrite with_audit_same.
  - left. by eapply replay_committed.
  - right. destruct He as [[? _]|He]; [done|]. split; [done|]. exists resp. by apply exchange_committed.
Qed.

(** ** Once exchanged, spent *)

Lemma exchange_spends input mint db resp db' :
  db_ok db → exchange_spec input mint db resp db' → code_spent (ExchangeInput_CodeHash input) db'.
Proof.
  intros Hok (code & user & client & grant & scopes & minted & s & s' & audits & Hex & _ & _ & -> & _).
  destruct (code_by_hash _ _ _ Hok (ex_code _ _ _ _ _ _ _ Hex)) as [Hk Hh].
  intros k r Hr Hrh. simpl in Hr. apply lookup_insert_Some in Hr as [[_ <-]|[Hne Hr]]; [by eexists|].
  exfalso. apply Hne. apply (ok_codes_unique _ Hok _ _ code r Hk Hr).
  unfold same_code_hash. rewrite Hh, Hrh. by apply bool_decide_eq_true.
Qed.

Lemma spent_not_exchanged input mint db resp db' :
  code_spent (ExchangeInput_CodeHash input) db → exchange_spec input mint db resp db' → False.
Proof. intros Hs (? & ? & ? & ? & ? & ? & ? & ? & ? & Hex & _). by eapply spent_not_exchangeable. Qed.

(** C1: An authorization code is exchanged at most once.  After an exchange returned
    tokens, in every state any sequence of store operations reaches (each under any
    driver faults; only an issue that stores the very same digest again is excluded),
    presenting a code with that digest never returns tokens, whoever presents it and
    with whatever mint, and changes nothing but the audit log. *)
Theorem code_single_use input mint w w' resp w2 input2 mint2 w3 r :
  db_ok (w_db w) → ExchangeAuthorizationCode input mint w = (w', inl resp) →
  reaches (obeys (no_code (ExchangeInput_CodeHash input))) (w_db w') (w_db w2) →
  ExchangeInput_CodeHash input2 = ExchangeInput_CodeHash input →
  ExchangeAuthorizationCode input2 mint2 w2 = (w3, r) →
  (∃ e, r = inr e) ∧ ∃ audits, w_db w3 = with_audit_events audits (w_db w2).
Proof.
  intros Hok H1 Hr Hh H2. pose proof (exchange_outcome _ _ _ _ _ Hok H1) as Hx. simpl in Hx.
  assert (Hok' : db_ok (w_db w')) by (by eapply (run_ok (OpExchange input mint)); [|exact H1|]).
  assert (Hs : code_spent (ExchangeInput_CodeHash input2) (w_db w2)).
  { rewrite Hh. eapply reaches_stable; [apply write_code_spent|exact Hr|exact (exchange_spends _ _ _ _ _ Hok Hx)]. }
  apply exchange_outcome in H2; [|by eapply reaches_ok]. destruct r as [resp2|e].
  - exfalso. by eapply spent_not_exchanged.
  - split; [by eexists|]. destruct H2 as [H2|[_ [? H2]]]; [done|]. exfalso. by eapply spent_not_exchanged.
Qed.

(** C11: The exchange transaction refines its specification.  A response is returned
    only for a run of [exchange_spec]: the rows of the presented digest carry the
    authority [exchangeable] lists (unconsumed, unexpired, client and redirect URI
    bound, S256 verifier, active user, authenticated client, unrevoked grant of the
    code's version that covers the scopes), the mint was called with that authority,
    and the tables changed by [exchange_effect] plus audit rows.  An error leaves every
    table but the audit log alone, unless the commit itself reported an ambiguous
    outcome. *)
Theorem exchange_refines input mint w w' r :
  db_ok (w_db w) → ExchangeAuthorizationCode input mint w = (w', r) →
  match r with
  | inl resp => exchange_spec input mint (w_db w) resp (w_db w')
  | inr e =>
      (∃ audits, w_db w' = with_audit_events audits (w_db w)) ∨
      ((∃ d, e = wrapError "commit transaction" ErrorKindQuery d) ∧ ∃ resp, exchange_spec input mint (w_db w) resp (w_db w'))
  end.
Proof. apply exchange_outcome. Qed.
End theorems.

(** ** Witnesses *)

Abbreviation demo_mint := (mint demo_service).

Lemma demo_exchange_succeeds : succeeds (ExchangeAuthorizationCode demo_exchange demo_mint) (world_of issued_db 7) = true.
Proof. by vm_compute. Qed.

Lemma code_single_use_witness :
  ∃ w' resp, ExchangeAuthorizationCode demo_exchange demo_mint (world_of issued_db 7) = (w', inl resp) ∧
  ∃ e, (ExchangeAuthorizationCode demo_exchange demo_mint (world_of (w_db w') 50)).2 = inr e.
Proof.
  destruct (succeeds_run _ _ demo_exchange_succeeds) as (w' & resp & E). exists w', resp. split; [exact E|].
  destruct (ExchangeAuthorizationCode demo_exchange demo_mint (world_of (w_db w') 50)) as [w3 r] eqn:E2.
  exact (proj1 (code_single_use _ _ _ _ _ (world_of (w_db w') 50) _ _ _ _ (world_ok _ _ issued_db_ok) E (rtc_refl _ _) eq_refl E2)).
Defined.

Lemma exchange_refines_witness :
  ∃ w' resp, ExchangeAuthorizationCode demo_exchange demo_mint (world_of issued_db 7) = (w', inl resp) ∧
  exchange_spec demo_exchange demo_mint (w_db (world_of issued_db 7)) resp (w_db w').
Proof.
  destruct (succeeds_run _ _ demo_exchange_succeeds) as (w' & resp & E). exists w', resp. split; [exact E|].
  exact (exchange_refines _ _ _ _ _ (world_ok _ _ issued_db_ok) E).
Defined.

(** ** A valid code is not refused

    The exchange run forwards: without driver faults a code that carries the authority
    [exchangeable] lists gets past every check, and the transaction commits unless an
    audit append or a table constraint fails. *)

Section theorems.
Context {P : Platform} {PL : PlatformLaws P}.

(** Past the checks, the transaction mints and commits. *)
Definition exchange_branch (input : ExchangeInput) (mint : MintFunc) (db : DB) (code : AuthorizationCodeRow) (user : UserRow)
    (client : OidcClientRow) (grant : ConsentGrantRow) (scopes : list string) : Tx ExchangeOutcome :=
  minted ← lift_rand (mint (exchange_authority input db code user client grant scopes));
  reject_if (negb (validMintedTokens minted (ExchangeInput_Now input) (bool_decide ("offline_access" ∈ scopes)))) token_ErrInvalid;;
  commitExchange input code (mapConsentGrant grant) scopes minted.

Lemma exchangeable_runs input mint w code user client grant scopes :
  quiet w → db_ok (w_db w) → exchangeable (w_db w) input code user client grant scopes →
  exchangeAuthorizationCode_tx input mint w =
  exchange_branch input mint (w_db w) code user client grant scopes w.
Proof.
  intros Hq Hok [Hc Hn Hl Hcb Hrb [Hpm Hpk] [Hu Hus] Hcl Hauth Hreg Hsc Hcs Hg Hgid Hgv Hgl Hgs].
  pose proof (CanonicalScopes_canonical _ _ Hsc) as (_ & _ & Hsup & _). rewrite Forall_forall in Hsup.
  unfold exchangeAuthorizationCode_tx, LockAuthorizationCodeByHash, LockUserByID, LockOIDCClientByID, LockConsentGrantByUserClient.
  run_lock Hq Hc. rewrite bool_decide_eq_false_2 by (rewrite Hn; by intros [? ?]). run_guard. run_guard.
  run_lock Hq Hu. run_guard. run_lock Hq Hcl.
  erewrite bind_run; [|apply loadClientChildren_run; exact Hq]. cbv beta. run_guard.
  rewrite Hsc. rewrite reject_run by (apply negb_false_iff, scopeSubset_spec, Hcs). run_lock Hq Hg. cbv zeta.
  rewrite reject_run.
  - unfold exchange_branch. done.
  - guard_false. apply Difference_nil; [by apply Forall_forall|]. intros x Hx.
    apply elem_of_Intersection. split_and!; [by apply Is_true_true, Hsup|by apply Hgs|by apply Hcs].
Qed.

Lemma createInitialRefresh_runs code grantID scopes minted w :
  quiet w → (is_Some (Minted_InitialRefresh minted) → is_Some (code_OriginSessionID code) ∧ is_Some (code_SessionBindingID code)) →
  (∃ w' fid, createInitialRefresh code grantID scopes minted w = (w', inl fid) ∧ quiet w') ∨
  ∃ w' e, createInitialRefresh code grantID scopes minted w = (w', inr e) ∧ (audit_failure e ∨ constraint_failure e) ∧
          isRetryableTransactionError e = false.
Proof.
  intros Hq Hs. unfold createInitialRefresh. destruct (Minted_InitialRefresh minted) as [i|]; [|left; by do 2 eexists].
  destruct Hs as [[o ->] [b ->]]; [by eexists|].
  run_insert w CreateRefreshTokenFamily_inr ltac:(fun w1 => run_insert w1 CreateRefreshToken_inr ltac:(fun w2 =>
    left; do 2 eexists; by split)).
Qed.

Lemma consume_runs input code w :
  quiet w → authorization_codes (w_db w) !! code_ID code = Some code → code_ConsumedAt code = None →
  ExchangeInput_Now input < code_ExpiresAt code →
  let m := query_row "consume authorization code" token_ErrInvalidGrant
             (ConsumeAuthorizationCode (timestamp (ExchangeInput_Now input)) (code_ID code)) in
  (∃ a db, m w = (with_db db w, inl a)) ∨ ∃ e, m w = (w, inr e) ∧ constraint_failure e ∧ isRetryableTransactionError e = false.
Proof.
  intros Hq Hc Hn Hl m. pose proof (pg_timestamptz_before _ _ Hl) as Ht.
  assert (Hs : ConsumeAuthorizationCode (timestamp (ExchangeInput_Now input)) (code_ID code) (w_db w) =
    if negb (authorization_codes_check (consume_code (timestamp (ExchangeInput_Now input)) code)) then inr check_violation
    else inl (consume_code (timestamp (ExchangeInput_Now input)) code, with_authorization_codes
      (<[code_ID code := consume_code (timestamp (ExchangeInput_Now input)) code]> (authorization_codes (w_db w))) (w_db w))).
  { unfold ConsumeAuthorizationCode. rewrite Hc, Hn. unfold timestamp in *. by rewrite (proj2 (Z.ltb_lt _ _) Ht). }
  destruct (authorization_codes_check _); simpl in Hs.
  - left. do 2 eexists. by apply query_row_run.
  - right. exists (wrapError "consume authorization code" ErrorKindQuery check_violation). split; [|split; [do 2 eexists; split; [by left|done]|done]].
    unfold m, query_row. apply bind_fail. unfold query_opt. by rewrite statement_quiet, Hs.
Qed.

(** The values an exchangeable code was presented with pass the first guard. *)
Lemma exchangeable_input db input code user client grant scopes :
  db_ok db → exchangeable db input code user client grant scopes →
  Client_ID (ExchangeInput_Client input) ≠ uuid_Nil → ExchangeInput_Now input ≠ Time.zero →
  (len (ExchangeInput_CodeHash input) != 32) || (Client_ID (ExchangeInput_Client input) == uuid_Nil) ||
  (ExchangeInput_RedirectURI input == "") || (ExchangeInput_CodeVerifier input == "") || Time.IsZero (ExchangeInput_Now input) = false.
Proof.
  intros Hok Hex Hid Hz. destruct (code_by_hash _ _ _ Hok (ex_code _ _ _ _ _ _ _ Hex)) as [Hk Hh].
  pose proof (ok_codes_check _ Hok _ _ Hk) as Hc. simpl in Hc. unfold authorization_codes_check in Hc.
  rewrite !andb_true_iff in Hc. destruct_and!. rewrite <- Hh, <- (ex_redirect_bound _ _ _ _ _ _ _ Hex).
  pose proof (proj2 (ex_pkce _ _ _ _ _ _ _ Hex)) as Hpk.
  rewrite !orb_false_iff. split_and!.
  - by apply negb_false_iff.
  - by apply bool_decide_eq_false.
  - apply bool_decide_eq_false. intros E. rewrite E in *. done.
  - apply bool_decide_eq_false. intros E. by rewrite E in Hpk.
  - by apply bool_decide_eq_false.
Qed.

Lemma commitExchange_runs input code grant scopes minted w :
  quiet w → authorization_codes (w_db w) !! code_ID code = Some code → code_ConsumedAt code = None →
  ExchangeInput_Now input < code_ExpiresAt code →
  (is_Some (Minted_InitialRefresh minted) → is_Some (code_OriginSessionID code) ∧ is_Some (code_SessionBindingID code)) →
  (∃ w' o, commitExchange input code grant scopes minted w = (w', inl o) ∧ quiet w') ∨
  ∃ w' e, commitExchange input code grant scopes minted w = (w', inr e) ∧ (audit_failure e ∨ constraint_failure e) ∧
          isRetryableTransactionError e = false.
Proof.
  intros Hq Hc Hn Hl Hs. unfold commitExchange.
  destruct (createInitialRefresh_runs code (Grant_ID grant) scopes minted w Hq Hs) as [(w1 & fid & E1 & Hq1)|(w1 & e & E1 & He)].
  2: { rewrite (bind_fail _ _ _ _ _ E1). right. by exists w1, e. }
  rewrite (bind_run _ _ _ _ _ E1). cbv beta.
  assert (Hc1 : authorization_codes (w_db w1) !! code_ID code = Some code).
  { apply createInitialRefresh_inl in E1 as (_ & _ & -> & _). by destruct (initial_refresh_codes code (Grant_ID grant) scopes minted (w_db w)) as [-> _]. }
  match goal with |- context [query ?op (CreateAccessToken ?p)] =>
    destruct (query_quiet op (CreateAccessToken p) w1) as [(a2 & db2 & Hs2 & E2)|(e & E2 & He)];
    [done|intros; by eapply insert_access_token_inr| |] end.
  2: { rewrite (bind_fail _ _ _ _ _ E2). right. exists w1, e. split_and!; [done|by right|by apply constraint_failure_not_retried]. }
  rewrite (bind_run _ _ _ _ _ E2). cbv beta. set (w2 := with_db db2 w1).
  assert (Hc2 : authorization_codes (w_db w2) !! code_ID code = Some code).
  { apply insert_access_token_inl in Hs2 as (_ & _ & _ & Hdb2). unfold w2. simpl. by rewrite Hdb2. }
  destruct (consume_runs input code w2 Hq1 Hc2 Hn Hl) as [(a3 & db3 & E3)|(e & E3 & He & Hr)].
  2: { rewrite (bind_fail _ _ _ _ _ E3). right. exists w2, e. split_and!; [done|by right|done]. }
  rewrite (bind_run _ _ _ _ _ E3). cbv beta. set (w3 := with_db db3 w2).
  destruct (Minted_InitialRefresh minted) as [i|].
  - run_audit w3 ltac:(fun w4 => run_audit w4 ltac:(fun w5 => run_audit w5 ltac:(fun w6 => left; exists w6; by eexists))).
  - run_audit w3 ltac:(fun w4 => run_audit w4 ltac:(fun w5 => left; do 2 eexists; by split)).
Qed.

(** C34: A valid code is never refused.  Without driver faults, presenting a code that
    carries all the authority the exchange requires, with a mint that produces a valid
    result (and the session it was issued in, when that result has a refresh family),
    returns the tokens; it can only fail because an audit append or a table constraint
    failed, in which case nothing changed and the error is not a protocol refusal. *)
Theorem valid_code_not_refused input mint w w' r code user client grant scopes s minted :
  quiet w → db_ok (w_db w) → exchangeable (w_db w) input code user client grant scopes →
  mint (exchange_authority input (w_db w) code user client grant scopes) (w_rand w) = (s, inl minted) →
  validMintedTokens minted (ExchangeInput_Now input) (bool_decide ("offline_access" ∈ scopes)) = true →
  (is_Some (Minted_InitialRefresh minted) → is_Some (code_OriginSessionID code) ∧ is_Some (code_SessionBindingID code)) →
  Client_ID (ExchangeInput_Client input) ≠ uuid_Nil → ExchangeInput_Now input ≠ Time.zero →
  ExchangeAuthorizationCode input mint w = (w', r) →
  (∃ resp, r = inl resp ∧ exchange_spec input mint (w_db w) resp (w_db w')) ∨
  (∃ e, r = inr e ∧ (audit_failure e ∨ constraint_failure e) ∧ w_db w' = w_db w).
Proof.
  intros Hq Hok Hex Hm Hv Hs Hid Hz H. pose proof H as H0. unfold ExchangeAuthorizationCode in H.
  rewrite reject_run in H by (by eapply exchangeable_input).
  set (w0 := resetValues w).
  pose proof (exchangeable_runs input mint w0 code user client grant scopes Hq Hok Hex) as Hrun.
  unfold exchange_branch in Hrun.
  erewrite bind_run in Hrun; [|apply lift_rand_inl; eexists; split; [exact Hm|reflexivity]]. cbv beta in Hrun.
  rewrite reject_run in Hrun by (by rewrite Hv).
  destruct (code_by_hash _ _ _ Hok (ex_code _ _ _ _ _ _ _ Hex)) as [Hk _].
  destruct (commitExchange_runs input code (mapConsentGrant grant) scopes minted (with_rand s w0) Hq Hk
    (ex_unconsumed _ _ _ _ _ _ _ Hex) (ex_live _ _ _ _ _ _ _ Hex) Hs) as [(w2 & o & E2 & Hq2)|(w2 & e & E2 & He & Hr)]; rewrite E2 in Hrun.
  - left. rewrite (bind_run _ _ _ _ _ (inTx_quiet_inl _ _ _ _ Hq Hq2 Hrun)) in H. cbv beta in H.
    apply commitExchange_inl in E2 as [_ ->]; [|done]. unfold mbind, Tx_bind in H. simpl in H. injection H as <- <-.
    eexists. split; [done|]. exact (exchange_outcome _ _ _ _ _ Hok H0).
  - right. destruct (inTx_quiet_inr _ _ _ _ Hq Hr Hrun) as (w3 & E3 & Hdb3). rewrite (bind_fail _ _ _ _ _ E3) in H.
    injection H as <- <-. by exists e.
Qed.
End theorems.

(** ** Witness *)

Definition code_row : AuthorizationCodeRow :=
  default (mkAuthorizationCodeRow 0 "" 0 0 0 0 "" [] "" "" None 0 0 0 None 0 None None)
    (find_row (λ o, code_CodeHash o == ExchangeInput_CodeHash demo_exchange) (authorization_codes issued_db)).
Abbreviation issued_world := (world_of issued_db 7).

Lemma code_row_exchangeable :
  exchangeable issued_db demo_exchange code_row demo_user demo_client (demo_grant issued_db) demo_scopes.
Proof.
  split; try (vm_compute; try split; reflexivity); try (apply scopeSubset_spec; vm_compute; reflexivity).
  apply (bool_decide_unpack _). by vm_compute.
Qed.

Lemma code_minted :
  ∃ s minted, mint demo_service (exchange_authority demo_exchange (w_db issued_world) code_row demo_user demo_client
                (demo_grant issued_db) demo_scopes) (w_rand issued_world) = (s, inl minted) ∧
  validMintedTokens minted (ExchangeInput_Now demo_exchange) (bool_decide ("offline_access" ∈ demo_scopes)) = true.
Proof.
  assert (H : match (mint demo_service (exchange_authority demo_exchange (w_db issued_world) code_row demo_user demo_client
                (demo_grant issued_db) demo_scopes) (w_rand issued_world)).2 with
              | inl m => validMintedTokens m (ExchangeInput_Now demo_exchange) (bool_decide ("offline_access" ∈ demo_scopes))
              | inr _ => false end = true) by (vm_compute; reflexivity).
  destruct (mint _ _ _) as [s [m|e]]; [by exists s, m|done].
Qed.

Lemma code_row_session : is_Some (code_OriginSessionID code_row) ∧ is_Some (code_SessionBindingID code_row).
Proof. vm_compute. split; by eexists. Qed.
Lemma demo_exchange_input : Client_ID (ExchangeInput_Client demo_exchange) ≠ uuid_Nil ∧ ExchangeInput_Now demo_exchange ≠ Time.zero.
Proof. by vm_compute. Qed.
Lemma issued_exchange_succeeds : succeeds (ExchangeAuthorizationCode demo_exchange (mint demo_service)) issued_world = true.
Proof. by vm_compute. Qed.

Lemma valid_code_not_refused_witness :
  ∃ w' resp, ExchangeAuthorizationCode demo_exchange (mint demo_service) issued_world = (w', inl resp) ∧
  exchange_spec demo_exchange (mint demo_service) (w_db issued_world) resp (w_db w').
Proof.
  destruct (succeeds_run _ _ issued_exchange_succeeds) as (w' & resp & E). destruct code_minted as (s & minted & Em & Hv).
  exists w', resp. split; [exact E|].
  destruct (valid_code_not_refused (PL := demo_platform_laws) demo_exchange (mint demo_service) issued_world w' (inl resp) code_row demo_user demo_client
    (demo_grant issued_db) demo_scopes s minted eq_refl (world_ok _ _ issued_db_ok) code_row_exchangeable Em Hv
    (λ _, code_row_session) (proj1 demo_exchange_input) (proj2 demo_exchange_input) E) as [(r & Hr & Hspec)|(e & He & _)];
    [|discriminate He].
  injection Hr as <-. exact Hspec.
Defined.
