(* ===== verification/RefreshTheorems.v ===== *)
(** * Refresh tokens: the theorems

    Rotation refines its specification, a generation is used once, presenting a used
    one takes the family down, and a dead family stays dead — over every run of the
    store. *)

From S2P Require Import Prelude Errors Platform Scopes Domain Opaque AuditEvents Database Queries Tx StoreCommon.
From S2P Require Import AuthorizationStore TokenStore ConsentStore Invariants StatementFacts ExchangeProofs Writes Lifecycle.
From S2P Require Import Quiet RefreshProofs TokenService AuthorizationService Demo.
Import Refresh.

Section theorems.
Context {P : Platform}.

(** ** Specifications *)

(** A rotation: the presented generation was presentable, unconsumed and unexpired, the
    scopes were selected within the family, the grant and the client, the mint was
    called with that authority, and the tables changed by [rotation_effect]. *)
Definition rotation_spec (input : RefreshInput) (mint : RefreshMintFunc) (candidate : RefreshTokenRow) (db : DB)
    (resp : Response) (db' : DB) : Prop :=
  ∃ user client grant family presented audits scopes s s' minted,
    presentable db input candidate user client grant family presented ∧
    rt_ConsumedAt presented = None ∧ RefreshInput_Now input < rt_ExpiresAt presented ∧
    SelectRefreshAccessScopes (RefreshInput_RequestedScopes input) (rf_Scopes family) (g_Scopes grant)
      (child_values (oidc_client_scopes db) (cl_ID client)) = inl scopes ∧
    mint (refresh_authority db input user client grant family presented scopes) s = (s', inl minted) ∧
    validRefreshMinted minted (mapRefreshGeneration presented) (mapRefreshFamily family) (RefreshInput_Now input) = true ∧
    db' = with_audit_events audits (rotation_effect input (g_ID grant) family presented scopes minted db) ∧
    resp = mkResponse (RefreshMinted_AccessToken minted) "Bearer"
             (expiresIn (RefreshMinted_AccessExpiresAt minted) (RefreshMinted_IssuedAt minted)) ""
             (RefreshMinted_ReplacementClearToken minted) (join_space scopes).

(** A detected reuse: the presented generation had been consumed; the family and its
    live access tokens are revoked. *)
Definition reuse_spec (input : RefreshInput) (candidate : RefreshTokenRow) (db db' : DB) : Prop :=
  ∃ user client grant family presented audits,
    presentable db input candidate user client grant family presented ∧ is_Some (rt_ConsumedAt presented) ∧
    db' = with_audit_events audits (reuse_effect (timestamp (RefreshInput_Now input)) family db).

Definition ambiguous (e : error) : Prop := ∃ d, e = wrapError "commit transaction" ErrorKindQuery d.

Lemma refresh_committed input mint candidate cfamily db o db' :
  db_ok db → committed (exchangeRefreshToken_tx input mint candidate cfamily) db o db' →
  match o with
  | Rotated resp => rotation_spec input mint candidate db resp db'
  | ReuseDetected => reuse_spec input candidate db db'
  end.
Proof.
  intros Hok (w & w' & <- & Hrun & <-).
  destruct (refresh_inv _ _ _ _ _ _ _ Hok Hrun) as (user & client & grant & family & presented & audits & Hp & Ho).
  destruct o; unfold rotation_spec, reuse_spec; naive_solver.
Qed.

(** What any return of the refresh exchange means. *)
Lemma refresh_outcome input mint candidate cfamily w w' r :
  db_ok (w_db w) → finishRefreshExchange input mint candidate cfamily w = (w', r) →
  match r with
  | inl resp => rotation_spec input mint candidate (w_db w) resp (w_db w')
  | inr e =>
      w_db w' = w_db w ∨ (reuse_spec input candidate (w_db w) (w_db w') ∧ (e = token_ErrInvalidGrant ∨ ambiguous e)) ∨
      (ambiguous e ∧ ∃ resp, rotation_spec input mint candidate (w_db w) resp (w_db w'))
  end.
Proof.
  intros Hok. unfold finishRefreshExchange, mbind, Tx_bind. destruct (inTx _ w) as [w1 [o|e]] eqn:E;
    apply inTx_attempts_cases in E.
  - simpl. apply refresh_committed in E; [|done]. destruct o; intros [= <- <-]; [|done]. right. left. by split; [|left].
  - intros [= <- <-]. destruct E as [E|[[o E] Hd]]; [by left|right]. apply refresh_committed in E; [|done].
    destruct o; [left; by split; [|right]|right; by split; [|eexists]].
Qed.

(** The candidate reads change nothing; the rest is the transaction. *)
Lemma ExchangeRefreshToken_split input mint w w' r :
  ExchangeRefreshToken input mint w = (w', r) →
  (w_db w' = w_db w ∧ ∃ e, r = inr e) ∨
  ∃ candidate cfamily w1, w_db w1 = w_db w ∧ w_rand w1 = w_rand w ∧
    find_row (λ o, rt_TokenHash o == RefreshInput_TokenHash input) (refresh_tokens (w_db w)) = Some candidate ∧
    refresh_token_families (w_db w) !! rt_FamilyID candidate = Some cfamily ∧
    finishRefreshExchange input mint candidate cfamily w1 = (w', r).
Proof.
  unfold ExchangeRefreshToken. unfold mbind at 1, Tx_bind at 1.
  destruct (findRefreshCandidate input w) as [w1 [[candidate cfamily]|e]] eqn:E; simpl.
  - intros H. right. unfold findRefreshCandidate in E. repeat tx_step E.
    eexists _, _, _. by split_and!.
  - intros [= <- <-]. left. split; [|by eexists].
    assert (Hrel : tx_rel eq (findRefreshCandidate input)); [|by apply Hrel in E].
    unfold findRefreshCandidate. tx_rel_auto.
Qed.

(** ** Rotation spends the generation *)

Lemma replacement_fresh minted presented family now :
  validRefreshMinted minted presented family now = true →
  RefreshMinted_ReplacementTokenID minted ≠ RefreshGeneration_ID presented.
Proof.
  unfold validRefreshMinted. destruct (_ || _) eqn:E; [done|]. intros _. rewrite !orb_false_iff in E.
  go_bools. done.
Qed.

Lemma rotation_spends input mint candidate db resp db' :
  db_ok db → db_ok db' → rotation_spec input mint candidate db resp db' → refresh_spent (RefreshInput_TokenHash input) db'.
Proof.
  intros Hok Hok' (user & client & grant & family & presented & audits & scopes & s & s' & minted & Hp & _ & _ & _ & _ & Hv & -> & _).
  apply replacement_fresh in Hv. simpl in Hv. pose proof (pr_hash _ _ _ _ _ _ _ _ Hp) as Hh.
  set (done := consume_refresh (timestamp (RefreshInput_Now input)) presented).
  assert (Hdone : refresh_tokens (with_audit_events audits (rotation_effect input (g_ID grant) family presented scopes minted db))
                    !! rt_ID presented = Some done).
  { simpl. rewrite lookup_insert_ne by done. by rewrite lookup_insert_eq. }
  intros k r Hr Hrh. assert (k = rt_ID presented) as ->.
  { apply (ok_refresh_unique _ Hok' _ _ r done Hr Hdone). unfold refresh_conflict.
    rewrite (bool_decide_eq_true_2 (rt_TokenHash done = rt_TokenHash r)); [done|]. simpl. congruence. }
  rewrite Hdone in Hr. injection Hr as <-. by eexists.
Qed.

Lemma spent_not_rotated input mint candidate db resp db' :
  refresh_spent (RefreshInput_TokenHash input) db → rotation_spec input mint candidate db resp db' → False.
Proof.
  intros Hs (? & ? & ? & ? & presented & ? & ? & ? & ? & ? & Hp & Hn & _).
  destruct (Hs _ _ (pr_presented _ _ _ _ _ _ _ _ Hp) (pr_hash _ _ _ _ _ _ _ _ Hp)) as [t Ht]. congruence.
Qed.

(** C7: A refresh token is used at most once.  After a rotation returned tokens for a
    digest, in every state any sequence of store operations reaches (each under any
    driver faults and with any stale candidates; only storing the same digest again is
    excluded), presenting that digest never returns tokens; it either changes nothing or
    is detected as reuse, which revokes the family. *)
Theorem refresh_single_use input mint w w' resp w2 input2 mint2 w3 r :
  db_ok (w_db w) → ExchangeRefreshToken input mint w = (w', inl resp) →
  reaches (obeys (no_refresh (RefreshInput_TokenHash input))) (w_db w') (w_db w2) →
  RefreshInput_TokenHash input2 = RefreshInput_TokenHash input →
  ExchangeRefreshToken input2 mint2 w2 = (w3, r) →
  (∃ e, r = inr e) ∧ (w_db w3 = w_db w2 ∨ ∃ candidate, reuse_spec input2 candidate (w_db w2) (w_db w3)).
Proof.
  intros Hok H1 Hr Hh H2. apply ExchangeRefreshToken_split in H1 as [[_ [? ?]]|(c & f & w1 & Hdb & _ & _ & _ & H1)]; [done|].
  assert (Hok1 : db_ok (w_db w1)) by (by rewrite Hdb).
  assert (Hok' : db_ok (w_db w')) by (by eapply (run_ok (OpRefresh input mint c f)); [|exact H1|]).
  pose proof (refresh_outcome _ _ _ _ _ _ _ Hok1 H1) as Hrot. simpl in Hrot.
  assert (Hs : refresh_spent (RefreshInput_TokenHash input2) (w_db w2)).
  { rewrite Hh. eapply reaches_stable; [apply write_refresh_spent|exact Hr|exact (rotation_spends _ _ _ _ _ _ Hok1 Hok' Hrot)]. }
  assert (Hok2 : db_ok (w_db w2)) by (by eapply reaches_ok).
  apply ExchangeRefreshToken_split in H2 as [[Hsame He]|(c2 & f2 & w4 & Hdb4 & _ & _ & _ & H2)]; [by split; [|left]|].
  apply refresh_outcome in H2; [|by rewrite Hdb4]. rewrite Hdb4 in H2. destruct r as [resp2|e].
  - exfalso. by eapply spent_not_rotated.
  - split; [by eexists|]. destruct H2 as [H2|[[H2 _]|[_ [? H2]]]]; [by left|right; by eexists|].
    exfalso. by eapply spent_not_rotated.
Qed.

(** C12: The refresh transaction refines its specification.  A response is returned
    only for a run of [rotation_spec]; an error leaves the tables unchanged, or is
    the refusal of a reuse that was recorded and revoked the family, or is an ambiguous
    commit of one of the two. *)
Theorem refresh_refines input mint candidate cfamily w w' r :
  db_ok (w_db w) → finishRefreshExchange input mint candidate cfamily w = (w', r) →
  match r with
  | inl resp => rotation_spec input mint candidate (w_db w) resp (w_db w')
  | inr e =>
      w_db w' = w_db w ∨ (reuse_spec input candidate (w_db w) (w_db w') ∧ (e = token_ErrInvalidGrant ∨ ambiguous e)) ∨
      (ambiguous e ∧ ∃ resp, rotation_spec input mint candidate (w_db w) resp (w_db w'))
  end.
Proof. apply refresh_outcome. Qed.

(** ** A dead family *)

Lemma reuse_kills input candidate db db' :
  db_ok db → reuse_spec input candidate db db' →
  family_dead (rt_FamilyID candidate) db' ∧
  map_Forall (λ _ r, at_RefreshFamilyID r = Some (rt_FamilyID candidate) →
    is_Some (at_RevokedAt r) ∨ at_ExpiresAt r <= timestamp (RefreshInput_Now input)) (access_tokens db').
Proof.
  intros Hok (user & client & grant & family & presented & audits & Hp & Hc & ->).
  pose proof (ok_families_key _ Hok _ _ (pr_family _ _ _ _ _ _ _ _ Hp)) as Hk. simpl in Hk. split.
  - intros k r. simpl. rewrite Hk. intros Hr ->. rewrite lookup_insert_eq in Hr. injection Hr as <-. by eexists.
  - intros k r. simpl. rewrite lookup_update_where, fmap_Some. intros (r0 & Hr0 & ->) Hf.
    destruct (_ && live_access _ r0) eqn:E; [left; by eexists|]. rewrite Hf, Hk in E.
    rewrite bool_decide_eq_true_2 in E by done. unfold live_access in E. simpl in E. go_bools.
    destruct E as [E|E]; [left; by apply not_eq_None_Some|right; lia].
Qed.

Lemma dead_not_presentable db input candidate user client grant family presented :
  family_dead (rt_FamilyID candidate) db → presentable db input candidate user client grant family presented → False.
Proof.
  intros Hd Hp. destruct (Hd _ _ (pr_family _ _ _ _ _ _ _ _ Hp) eq_refl) as [t Ht].
  rewrite (pr_family_live _ _ _ _ _ _ _ _ Hp) in Ht. done.
Qed.

(** A revoked refresh family never lives again.  Once a family is revoked (or
    deleted), in every state any sequence of store operations reaches (only creating a
    family under the same id is excluded) presenting any generation of it, however stale
    the candidate, returns an error and leaves the tables unchanged. *)
Theorem dead_family_stays_dead f db input mint candidate cfamily w w' r :
  db_ok db → family_dead f db → reaches (obeys (no_family f)) db (w_db w) → rt_FamilyID candidate = f →
  finishRefreshExchange input mint candidate cfamily w = (w', r) →
  (∃ e, r = inr e) ∧ w_db w' = w_db w.
Proof.
  intros Hok Hd Hr <- H. apply refresh_outcome in H; [|by eapply reaches_ok].
  assert (Hd' : family_dead (rt_FamilyID candidate) (w_db w)) by (by eapply reaches_stable; [apply write_family_dead|..]).
  destruct r as [resp|e].
  - exfalso. destruct H as (? & ? & ? & ? & ? & ? & ? & ? & ? & ? & Hp & _). by eapply dead_not_presentable.
  - split; [by eexists|]. destruct H as [H|[[H _]|[_ [? H]]]]; [done| |];
      exfalso; destruct_and?; [destruct H as (? & ? & ? & ? & ? & ? & Hp & _)|
        destruct H as (? & ? & ? & ? & ? & ? & ? & ? & ? & ? & Hp & _)]; by eapply dead_not_presentable.
Qed.
End theorems.

(** ** Witnesses *)

Abbreviation demo_mintRefresh := (mintRefresh demo_service).

Lemma reuse_same_digest : RefreshInput_TokenHash reuse_input = RefreshInput_TokenHash demo_refresh.
Proof. reflexivity. Qed.

Lemma refresh_single_use_witness :
  ∃ w' resp, ExchangeRefreshToken demo_refresh demo_mintRefresh (world_of exchanged_db 13) = (w', inl resp) ∧
  ∃ e, (ExchangeRefreshToken reuse_input demo_mintRefresh (world_of (w_db w') 50)).2 = inr e.
Proof.
  destruct (succeeds_run _ _ demo_refresh_succeeds) as (w' & resp & E). exists w', resp. split; [exact E|].
  destruct (ExchangeRefreshToken reuse_input demo_mintRefresh (world_of (w_db w') 50)) as [w3 r] eqn:E2.
  exact (proj1 (refresh_single_use _ _ _ _ _ (world_of (w_db w') 50) reuse_input _ _ _ (world_ok _ _ exchanged_db_ok) E
                  (rtc_refl _ _) reuse_same_digest E2)).
Defined.

Lemma refresh_refines_witness :
  ∃ candidate family w w' resp, finishRefreshExchange demo_refresh demo_mintRefresh candidate family w = (w', inl resp) ∧
  rotation_spec demo_refresh demo_mintRefresh candidate (w_db w) resp (w_db w').
Proof.
  destruct (succeeds_run _ _ demo_refresh_succeeds) as (w' & resp & E).
  destruct (ExchangeRefreshToken_split _ _ _ _ _ E) as [[_ [e He]]|(c & f & w1 & Hdb & _ & _ & _ & H1)]; [discriminate He|].
  exists c, f, w1, w', resp. split; [exact H1|]. refine (refresh_refines _ _ _ _ _ _ _ _ H1). rewrite Hdb.
  exact (world_ok _ _ exchanged_db_ok).
Defined.

Lemma reused_db_ok : db_ok reused_db.
Proof. apply db_okb_spec. by vm_compute. Qed.
Lemma reused_family_dead : family_dead (rf_ID (demo_family reused_db)) reused_db.
Proof. apply (bool_decide_unpack _). by vm_compute. Qed.

Definition stale_candidate (f : uuid) : RefreshTokenRow := mkRefreshTokenRow 1 f "" 0 0 0 None.
Lemma stale_candidate_family f : rt_FamilyID (stale_candidate f) = f.
Proof. reflexivity. Qed.

Lemma dead_family_stays_dead_witness :
  ∃ e, (finishRefreshExchange reuse_input demo_mintRefresh (stale_candidate (rf_ID (demo_family reused_db)))
          (demo_family reused_db) (world_of reused_db 3)).2 = inr e.
Proof.
  destruct (finishRefreshExchange reuse_input demo_mintRefresh (stale_candidate (rf_ID (demo_family reused_db)))
          (demo_family reused_db) (world_of reused_db 3)) as [w' r] eqn:E.
  exact (proj1 (dead_family_stays_dead (rf_ID (demo_family reused_db)) reused_db reuse_input demo_mintRefresh
                  (stale_candidate (rf_ID (demo_family reused_db))) (demo_family reused_db) (world_of reused_db 3) w' r
                  reused_db_ok reused_family_dead (rtc_refl _ _) (stale_candidate_family _) E)).
Defined.

(** ** Reuse detection and rotation, run forwards

    Without driver faults a presentable generation always gets past the checks of the
    refresh transaction, so reuse of a consumed one is detected and answered by the
    revocation of the family, and an unconsumed one is rotated. *)

Section theorems.
Context {P : Platform}.

(** Past the checks, the transaction is the branch on [consumed_at]. *)
Definition refresh_branch (input : RefreshInput) (mint : RefreshMintFunc) (db : DB) (user : UserRow) (client : OidcClientRow)
    (grant : ConsentGrantRow) (family : RefreshTokenFamilyRow) (presented : RefreshTokenRow) : Tx RefreshOutcome :=
  if bool_decide (is_Some (rt_ConsumedAt presented))
  then rejectReuse input (mapRefreshFamily family) (mapRefreshGeneration presented)
  else
    reject_if (negb (Time.Before (RefreshInput_Now input) (rt_ExpiresAt presented))) token_ErrInvalidGrant;;
    match SelectRefreshAccessScopes (RefreshInput_RequestedScopes input) (rf_Scopes family) (g_Scopes grant)
            (child_values (oidc_client_scopes db) (cl_ID client)) with
    | inr e => throw e
    | inl scopes => rotate input mint (mapUser user) (client_of db client) (mapConsentGrant grant)
                      (mapRefreshFamily family) (mapRefreshGeneration presented) scopes
    end.

Lemma bool_neq_same {A} `{EqDecision A} (a : A) : (a != a) = false.
Proof. by rewrite bool_decide_eq_true_2. Qed.

Lemma presentable_runs input mint candidate w user client grant family presented :
  quiet w → db_ok (w_db w) → presentable (w_db w) input candidate user client grant family presented →
  exchangeRefreshToken_tx input mint candidate family w =
  refresh_branch input mint (w_db w) user client grant family presented w.
Proof.
  intros Hq Hok [[Hu Hus] Hc Hauth Hg Hgid Hgl Hf Hfl Hfa Hp Hm Hh].
  pose proof (ok_users_key _ Hok _ _ Hu) as Ku. pose proof (ok_clients_key _ Hok _ _ Hc) as Kc.
  destruct (grant_by_owner _ _ _ _ Hok Hg) as (Kg & _ & _).
  pose proof (ok_grants_check _ Hok _ _ Kg) as Hgc. simpl in Ku, Kc, Hgc.
  unfold consent_grants_check in Hgc. rewrite !andb_true_iff in Hgc. destruct Hgc as [[[_ Hgv] _] _]. apply Z.ltb_lt in Hgv.
  unfold exchangeRefreshToken_tx, LockUserByID, LockOIDCClientByID, LockConsentGrantByUserClient,
    LockRefreshTokenFamilyByID, LockRefreshTokenByID.
  run_lock Hq Hu. run_guard. run_lock Hq Hc.
  erewrite bind_run; [|apply loadClientChildren_run; exact Hq]. cbv beta. run_guard.
  run_lock Hq Hg. cbv zeta. run_guard. run_lock Hq Hf. run_guard. run_lock Hq Hp. run_guard.
  done.
Qed.
(** The clock has not run backwards past what the family already holds. *)
Definition clock_ok (db : DB) (family : RefreshTokenFamilyRow) (t : time) : Prop :=
  rf_CreatedAt family <= t ∧
  map_Forall (λ _ r, at_RefreshFamilyID r = Some (rf_ID family) → at_IssuedAt r <= t) (access_tokens db).

Lemma rejectReuse_runs input family presented w :
  quiet w → db_ok (w_db w) → refresh_token_families (w_db w) !! rf_ID family = Some family → rf_RevokedAt family = None →
  clock_ok (w_db w) family (timestamp (RefreshInput_Now input)) →
  (∃ w', rejectReuse input (mapRefreshFamily family) (mapRefreshGeneration presented) w = (w', inl ReuseDetected) ∧ quiet w') ∨
  ∃ w' e, rejectReuse input (mapRefreshFamily family) (mapRefreshGeneration presented) w = (w', inr e) ∧
          audit_failure e ∧ isRetryableTransactionError e = false.
Proof.
  intros Hq Hok Hf Hlive [Hcl Hca]. unfold rejectReuse.
  assert (Hrev : RevokeRefreshTokenFamily (timestamp (RefreshInput_Now input)) (pointerString "reuse") (rf_ID family) (w_db w) =
    inl (revoke_family (timestamp (RefreshInput_Now input)) (Some "reuse") family,
         with_refresh_token_families (<[rf_ID family := revoke_family (timestamp (RefreshInput_Now input)) (Some "reuse") family]>
           (refresh_token_families (w_db w))) (w_db w))).
  { unfold RevokeRefreshTokenFamily. rewrite Hf, Hlive. change (pointerString "reuse") with (Some "reuse").
    rewrite revoke_family_check; [done|by eapply ok_families_check|done|unfold family_revoke_reasons; set_solver]. }
  erewrite bind_run; [|apply query_run; [exact Hq|exact Hrev]]. cbv beta. set (w1 := with_db _ w).
  destruct (revoke_live_access_run "revoke access tokens after refresh reuse" (w_db w1)
    (λ r, bool_decide (is_Some (Some (rf_ID family))) && (at_RefreshFamilyID r == Some (rf_ID family)))
    (timestamp (RefreshInput_Now input)) "family_revoked" w1) as [n Hn]; [done|done|apply Hok|unfold access_revoke_reasons; set_solver| |].
  { intros k r Hk [_ Ho]%andb_true_iff. apply bool_decide_eq_true in Ho. by eapply Hca. }
  erewrite bind_run; [|exact Hn]. cbv beta. set (w2 := with_db _ w1).
  match goal with |- context [mbind ?k (insertProtocolAudit ?a ?b ?c ?d ?e ?f ?g ?h)] =>
    destruct (insertProtocolAudit_quiet a b c d e f g h w2) as [(w3 & [] & E3 & Hq3)|(w3 & er & E3 & Her)]; [done| |] end.
  - rewrite (bind_run _ _ _ _ _ E3). cbv beta.
    match goal with |- context [mbind ?k (insertProtocolAudit ?a ?b ?c ?d ?e ?f ?g ?h)] =>
      destruct (insertProtocolAudit_quiet a b c d e f g h w3) as [(w4 & [] & E4 & Hq4)|(w4 & er & E4 & Her)]; [done| |] end.
    + rewrite (bind_run _ _ _ _ _ E4). left. by exists w4.
    + rewrite (bind_fail _ _ _ _ _ E4). right. by exists w4, er.
  - rewrite (bind_fail _ _ _ _ _ E3). right. by exists w3, er.
Qed.
(** A presented generation of the tables is the candidate its digest selects. *)
Lemma candidate_found input w user client grant family presented :
  quiet w → db_ok (w_db w) → presentable (w_db w) input presented user client grant family presented →
  Client_ID (RefreshInput_Client input) ≠ uuid_Nil → RefreshInput_Now input ≠ Time.zero →
  findRefreshCandidate input w = (w, inl (presented, family)).
Proof.
  intros Hq Hok Hp Hn Hz. pose proof (pr_presented _ _ _ _ _ _ _ _ Hp) as Hk. pose proof (pr_hash _ _ _ _ _ _ _ _ Hp) as Hh.
  pose proof (ok_refresh_check _ Hok _ _ Hk) as Hc. unfold refresh_tokens_check in Hc. simpl in Hc.
  rewrite !andb_true_iff in Hc. destruct Hc as [[[[Hl _] _] _] _]. apply bool_decide_eq_true in Hl. rewrite Hh in Hl.
  unfold findRefreshCandidate. rewrite reject_run by (guard_false; by apply bool_decide_eq_false).
  unfold GetRefreshTokenByHash, GetRefreshTokenFamilyByID.
  erewrite bind_run; [|apply select_run; [exact Hq|]]; [cbv beta|].
  - erewrite bind_run; [|apply select_run; [exact Hq|apply Hp]]. done.
  - simpl. eapply find_row_unique; [exact Hk|by apply bool_decide_eq_true|]. intros k' r' Hk' Hh'.
    apply bool_decide_eq_true in Hh'. assert (rt_ID presented = k') as <-; [|congruence].
    apply (ok_refresh_unique _ Hok _ _ presented r' Hk Hk'). unfold refresh_conflict.
    rewrite (bool_decide_eq_true_2 (rt_TokenHash r' = _)); [done|congruence].
Qed.

(** The refresh exchange, given how its transaction runs. *)
Lemma finish_run input mint candidate family w w' o :
  quiet w → quiet w' →
  exchangeRefreshToken_tx input mint candidate family (resetValues w) = (w', inl o) →
  (finishRefreshExchange input mint candidate family w).2 =
  match o with ReuseDetected => inr token_ErrInvalidGrant | Rotated response => inl response end.
Proof.
  intros Hq Hq' H. unfold finishRefreshExchange. rewrite (bind_run _ _ _ _ _ (inTx_quiet_inl _ _ _ _ Hq Hq' H)).
  unfold mbind, Tx_bind. simpl. by destruct o.
Qed.

Lemma finish_fail input mint candidate family w w' e :
  quiet w → isRetryableTransactionError e = false →
  exchangeRefreshToken_tx input mint candidate family (resetValues w) = (w', inr e) →
  ∃ w2, finishRefreshExchange input mint candidate family w = (w2, inr e) ∧ w_db w2 = w_db w.
Proof.
  intros Hq He H. destruct (inTx_quiet_inr _ _ _ _ Hq He H) as (w2 & H2 & Hdb). exists w2.
  unfold finishRefreshExchange. by rewrite (bind_fail _ _ _ _ _ H2).
Qed.

(** C8: Reuse of a refresh token is always detected and answered.  When the driver
    reports no fault and the clock has not run backwards, presenting a consumed
    generation whose family, owner, client and grant are still valid returns
    invalid_grant and leaves the family revoked together with every live access token
    it issued; the one other outcome is an audit append that failed, which rolls
    everything back and is not reported as invalid_grant. *)
Theorem reuse_revokes_family input mint w w' r user client grant family presented :
  quiet w → db_ok (w_db w) → presentable (w_db w) input presented user client grant family presented →
  is_Some (rt_ConsumedAt presented) → clock_ok (w_db w) family (timestamp (RefreshInput_Now input)) →
  Client_ID (RefreshInput_Client input) ≠ uuid_Nil → RefreshInput_Now input ≠ Time.zero →
  ExchangeRefreshToken input mint w = (w', r) →
  (r = inr token_ErrInvalidGrant ∧ family_dead (rf_ID family) (w_db w') ∧
   map_Forall (λ _ a, at_RefreshFamilyID a = Some (rf_ID family) →
     is_Some (at_RevokedAt a) ∨ at_ExpiresAt a <= timestamp (RefreshInput_Now input)) (access_tokens (w_db w'))) ∨
  (∃ e, r = inr e ∧ audit_failure e ∧ w_db w' = w_db w).
Proof.
  intros Hq Hok Hp Hc Hclock Hn Hz H. unfold ExchangeRefreshToken in H.
  rewrite (bind_run _ _ _ _ _ (candidate_found _ _ _ _ _ _ _ Hq Hok Hp Hn Hz)) in H. simpl in H.
  set (w0 := resetValues w).
  pose proof (pr_family _ _ _ _ _ _ _ _ Hp) as Hf. pose proof (ok_families_key _ Hok _ _ Hf) as Kf. simpl in Kf.
  pose proof (presentable_runs input mint presented w0 user client grant family presented Hq Hok Hp) as Hrun.
  unfold refresh_branch in Hrun. rewrite (bool_decide_eq_true_2 _ Hc) in Hrun.
  destruct (rejectReuse_runs input family presented w0 Hq Hok) as [(w2 & E2 & Hq2)|(w2 & e & E2 & He & Hre)]; rewrite ?Kf; try done;
    [apply Hp|left|right].
  - rewrite E2 in Hrun. pose proof (finish_run _ _ _ _ _ _ _ Hq Hq2 Hrun) as Hr. rewrite H in Hr. simpl in Hr. split; [done|].
    subst r.
    assert (Hreuse : reuse_spec input presented (w_db w) (w_db w')).
    { apply (refresh_committed input mint presented family (w_db w) ReuseDetected); [done|].
      exists w0, w2. split_and!; [done|done|]. unfold finishRefreshExchange in H.
      rewrite (bind_run _ _ _ _ _ (inTx_quiet_inl _ _ _ _ Hq Hq2 Hrun)) in H. by injection H as <-. }
    exact (reuse_kills _ _ _ _ Hok Hreuse).
  - rewrite E2 in Hrun. destruct (finish_fail _ _ _ _ _ _ _ Hq Hre Hrun) as (w3 & E3 & Hdb3).
    rewrite E3 in H. simplify_eq. by exists e.
Qed.
(** ** A valid refresh is not refused *)

Lemma rotate_runs input mint user client grant family presented scopes w s minted :
  quiet w → refresh_tokens (w_db w) !! rt_ID presented = Some presented → rt_ConsumedAt presented = None →
  mint (mkRefreshAuthority (mapRefreshGeneration presented) family grant user client scopes (RefreshInput_Now input)) (w_rand w)
    = (s, inl minted) →
  validRefreshMinted minted (mapRefreshGeneration presented) family (RefreshInput_Now input) = true →
  (∃ w' resp, rotate input mint user client grant family (mapRefreshGeneration presented) scopes w = (w', inl (Rotated resp)) ∧ quiet w') ∨
  ∃ w' e, rotate input mint user client grant family (mapRefreshGeneration presented) scopes w = (w', inr e) ∧
          (audit_failure e ∨ constraint_failure e) ∧ isRetryableTransactionError e = false.
Proof.
  intros Hq Hp Hn Hm Hv. unfold rotate.
  erewrite bind_run; [|apply lift_rand_inl; eexists; split; [exact Hm|reflexivity]]. cbv beta. rewrite Hv.
  rewrite reject_run by done. set (w1 := with_rand s w).
  assert (Hcons : (∃ a db, ConsumeRefreshToken (timestamp (RefreshInput_Now input)) (rt_ID presented) (w_db w1) = inl (a, db)) ∨
    ConsumeRefreshToken (timestamp (RefreshInput_Now input)) (rt_ID presented) (w_db w1) = inr check_violation).
  { unfold ConsumeRefreshToken. simpl. rewrite Hp, Hn. simpl. destruct (refresh_tokens_check _); simpl; [left; by do 2 eexists|by right]. }
  destruct Hcons as [(a & db & Hcons)|Hcons].
  - erewrite bind_run; [|apply query_row_run; [exact Hq|exact Hcons]]. cbv beta. set (w2 := with_db db w1).
    run_insert w2 CreateRefreshToken_inr ltac:(fun w3 => run_insert w3 insert_access_token_inr ltac:(fun w4 =>
      run_audit w4 ltac:(fun w5 => run_audit w5 ltac:(fun w6 => left; exists w6; by eexists)))).
  - assert (E : query_row "consume refresh token generation" token_ErrInvalidGrant
      (ConsumeRefreshToken (timestamp (RefreshInput_Now input)) (rt_ID presented)) w1
      = (w1, inr (wrapError "consume refresh token generation" ErrorKindQuery check_violation))).
    { unfold query_row. apply bind_fail. unfold query_opt. by rewrite statement_quiet, Hcons. }
    erewrite bind_fail; [|exact E]. right. do 2 eexists. split; [done|].
    split; [right; do 2 eexists; split; [by left|done]|done].
Qed.

(** C38: A valid refresh is never refused.  Without driver faults, presenting an
    unconsumed, unexpired generation whose family, owner, client and grant are valid,
    with scopes the selection accepts and a mint that produces a valid result, returns
    the new tokens; it can only fail because an audit append or a table constraint
    failed, in which case nothing changed and the error is not a protocol refusal. *)
Theorem valid_refresh_not_refused input mint w w' r user client grant family presented scopes s minted :
  quiet w → db_ok (w_db w) → presentable (w_db w) input presented user client grant family presented →
  rt_ConsumedAt presented = None → RefreshInput_Now input < rt_ExpiresAt presented →
  SelectRefreshAccessScopes (RefreshInput_RequestedScopes input) (rf_Scopes family) (g_Scopes grant)
    (child_values (oidc_client_scopes (w_db w)) (cl_ID client)) = inl scopes →
  mint (refresh_authority (w_db w) input user client grant family presented scopes) (w_rand w) = (s, inl minted) →
  validRefreshMinted minted (mapRefreshGeneration presented) (mapRefreshFamily family) (RefreshInput_Now input) = true →
  Client_ID (RefreshInput_Client input) ≠ uuid_Nil → RefreshInput_Now input ≠ Time.zero →
  ExchangeRefreshToken input mint w = (w', r) →
  (∃ resp, r = inl resp ∧ rotation_spec input mint presented (w_db w) resp (w_db w')) ∨
  (∃ e, r = inr e ∧ (audit_failure e ∨ constraint_failure e) ∧ w_db w' = w_db w).
Proof.
  intros Hq Hok Hp Hnc Hexp Hsel Hm Hv Hn Hz H. unfold ExchangeRefreshToken in H.
  rewrite (bind_run _ _ _ _ _ (candidate_found _ _ _ _ _ _ _ Hq Hok Hp Hn Hz)) in H. simpl in H.
  set (w0 := resetValues w).
  pose proof (pr_presented _ _ _ _ _ _ _ _ Hp) as Hk.
  pose proof (presentable_runs input mint presented w0 user client grant family presented Hq Hok Hp) as Hrun.
  unfold refresh_branch in Hrun. rewrite bool_decide_eq_false_2 in Hrun by (rewrite Hnc; by intros [? [=]]).
  rewrite reject_run in Hrun by guard_false. change (w_db w0) with (w_db w) in Hrun. rewrite Hsel in Hrun.
  destruct (rotate_runs input mint (mapUser user) (client_of (w_db w) client) (mapConsentGrant grant) (mapRefreshFamily family)
    presented scopes w0 s minted Hq Hk Hnc Hm Hv) as [(w2 & resp & E2 & Hq2)|(w2 & e & E2 & He & Hre)]; rewrite E2 in Hrun.
  - left. pose proof (finish_run _ _ _ _ _ _ _ Hq Hq2 Hrun) as Hr. rewrite H in Hr. simpl in Hr. subst r.
    exists resp. split; [done|]. exact (refresh_outcome _ _ _ _ _ _ _ Hok H).
  - right. destruct (finish_fail _ _ _ _ _ _ _ Hq Hre Hrun) as (w3 & E3 & Hdb3). rewrite E3 in H. simplify_eq. by exists e.
Qed.
End theorems.

(** ** Witnesses *)

Definition reused : RefreshTokenRow := demo_generation refreshed_db (RefreshInput_TokenHash reuse_input).
Definition fresh : RefreshTokenRow := demo_generation exchanged_db (RefreshInput_TokenHash demo_refresh).

Lemma reused_presentable :
  presentable refreshed_db reuse_input reused demo_user demo_client (demo_grant refreshed_db) (demo_family refreshed_db) reused.
Proof. split; vm_compute; try split; reflexivity. Qed.
Lemma fresh_presentable :
  presentable exchanged_db demo_refresh fresh demo_user demo_client (demo_grant exchanged_db) (demo_family exchanged_db) fresh.
Proof. split; vm_compute; try split; reflexivity. Qed.
Lemma reused_clock : clock_ok refreshed_db (demo_family refreshed_db) (timestamp (RefreshInput_Now reuse_input)).
Proof. split; [by vm_compute|]. apply (bool_decide_unpack _). by vm_compute. Qed.

Lemma reused_consumed : is_Some (rt_ConsumedAt reused).
Proof. vm_compute. by eexists. Qed.

Lemma reuse_revokes_family_witness :
  ∃ e, (ExchangeRefreshToken reuse_input demo_mintRefresh (world_of refreshed_db 31)).2 = inr e.
Proof.
  destruct (ExchangeRefreshToken reuse_input demo_mintRefresh (world_of refreshed_db 31)) as [w' r] eqn:E.
  destruct (reuse_revokes_family reuse_input demo_mintRefresh (world_of refreshed_db 31) w' r demo_user demo_client
    (demo_grant refreshed_db) (demo_family refreshed_db) reused eq_refl (world_ok _ _ refreshed_db_ok) reused_presentable
    reused_consumed reused_clock ltac:(vm_compute; discriminate)
    ltac:(vm_compute; discriminate) E) as [[-> _]|(e & -> & _)]; eexists; reflexivity.
Defined.

Abbreviation fresh_world := (world_of exchanged_db 13).

Lemma fresh_minted :
  ∃ s minted, demo_mintRefresh (refresh_authority (w_db fresh_world) demo_refresh demo_user demo_client
                (demo_grant exchanged_db) (demo_family exchanged_db) fresh demo_scopes) (w_rand fresh_world) = (s, inl minted) ∧
  validRefreshMinted minted (mapRefreshGeneration fresh) (mapRefreshFamily (demo_family exchanged_db))
    (RefreshInput_Now demo_refresh) = true.
Proof.
  assert (H : match (demo_mintRefresh (refresh_authority (w_db fresh_world) demo_refresh demo_user demo_client
                (demo_grant exchanged_db) (demo_family exchanged_db) fresh demo_scopes) (w_rand fresh_world)).2 with
              | inl m => validRefreshMinted m (mapRefreshGeneration fresh) (mapRefreshFamily (demo_family exchanged_db))
                           (RefreshInput_Now demo_refresh)
              | inr _ => false end = true) by (vm_compute; reflexivity).
  destruct (demo_mintRefresh _ _) as [s [m|e]]; [by exists s, m|done].
Qed.

Lemma fresh_selected :
  SelectRefreshAccessScopes (RefreshInput_RequestedScopes demo_refresh) (rf_Scopes (demo_family exchanged_db))
    (g_Scopes (demo_grant exchanged_db)) (child_values (oidc_client_scopes (w_db fresh_world)) (cl_ID demo_client)) = inl demo_scopes.
Proof. by vm_compute. Qed.
Lemma fresh_live : rt_ConsumedAt fresh = None ∧ RefreshInput_Now demo_refresh < rt_ExpiresAt fresh.
Proof. by vm_compute. Qed.
Lemma demo_client_known : Client_ID (RefreshInput_Client demo_refresh) ≠ uuid_Nil ∧ RefreshInput_Now demo_refresh ≠ Time.zero.
Proof. by vm_compute. Qed.

Lemma valid_refresh_not_refused_witness :
  ∃ w' resp, ExchangeRefreshToken demo_refresh demo_mintRefresh fresh_world = (w', inl resp) ∧
  rotation_spec demo_refresh demo_mintRefresh fresh (w_db fresh_world) resp (w_db w').
Proof.
  destruct (succeeds_run _ _ demo_refresh_succeeds) as (w' & resp & E). destruct fresh_minted as (s & minted & Em & Hv).
  exists w', resp. split; [exact E|].
  destruct (valid_refresh_not_refused demo_refresh demo_mintRefresh fresh_world w' (inl resp) demo_user demo_client
    (demo_grant exchanged_db) (demo_family exchanged_db) fresh demo_scopes s minted eq_refl (world_ok _ _ exchanged_db_ok)
    fresh_presentable (proj1 fresh_live) (proj2 fresh_live) fresh_selected Em Hv (proj1 demo_client_known)
    (proj2 demo_client_known) E) as [(r & Hr & Hspec)|(e & He & _)]; [|discriminate He].
  injection Hr as <-. exact Hspec.
Defined.
