(* ===== verification/RevocationTheorems.v ===== *)
(** * Revocation: the theorems

    Revoking a grant takes down everything that depends on it, for good; a client can
    revoke its own tokens and nothing else. *)

From S2P Require Import Prelude Errors Platform Scopes Domain Opaque AuditEvents Database Queries Tx StoreCommon.
From S2P Require Import AuthorizationStore TokenStore ConsentStore Invariants StatementFacts ExchangeProofs.
From S2P Require Import RefreshProofs Writes Lifecycle CodeTheorems RefreshTheorems TokenService AuthorizationService.
From S2P Require Import Demo.
Import Refresh.

Section theorems.
Context {P : Platform}.

(** ** Grant revocation *)

Definition revoked_grant (now : time) (g : ConsentGrantRow) : ConsentGrantRow :=
  mkConsentGrantRow (g_ID g) (g_UserID g) (g_ClientID g) (g_Scopes g) (g_CreatedAt g) now (Some now) (g_Version g + 1).

(** The grant, every family under it, and every access token under it that is live. *)
Definition grant_revocation_effect (now : time) (g : ConsentGrantRow) (db : DB) : DB :=
  with_access_tokens
    (update_where (λ r, (at_ConsentGrantID r == g_ID g) && live_access now r) (revoke_access now (Some "grant_revoked")) (access_tokens db))
    (with_refresh_token_families
       (update_where (λ r, (rf_ConsentGrantID r == g_ID g) && (rf_RevokedAt r == None)) (revoke_family now (Some "grant_revoked"))
          (refresh_token_families db))
       (with_consent_grants (<[g_ID g := revoked_grant now g]> (consent_grants db)) db)).

(** The owner's grant for the public client id. *)
Definition owned_grant (db : DB) (input : RevokeInput) (client : OidcClientRow) (g : ConsentGrantRow) : Prop :=
  find_row (λ r, cl_ClientID r == RevokeInput_PublicClientID input) (oidc_clients db) = Some client ∧
  find_row (grant_of (RevokeInput_UserID input) (cl_ID client)) (consent_grants db) = Some g.

Lemma revoke_grant_inv input w w' mg :
  db_ok (w_db w) → revokeCurrentUserGrant_tx input w = (w', inl mg) →
  ∃ client g, owned_grant (w_db w) input client g ∧
    ((is_Some (g_RevokedAt g) ∧ w_db w' = w_db w) ∨
     (g_RevokedAt g = None ∧
      ∃ audits, w_db w' = with_audit_events audits (grant_revocation_effect (timestamp (RevokeInput_Now input)) g (w_db w)))).
Proof.
  intros Hok H. unfold revokeCurrentUserGrant_tx in H. do 3 tx_step H. rename a0 into client, a1 into g.
  destruct (grant_by_owner _ _ _ _ Hok Hstmt1) as (Hk & _ & _).
  exists client, g. split; [done|]. change (Grant_RevokedAt (mapConsentGrant g)) with (g_RevokedAt g) in H.
  destruct (bool_decide (is_Some (g_RevokedAt g))) eqn:Er.
  - left. apply bool_decide_eq_true in Er. tx_step H. done.
  - right. apply bool_decide_eq_false, not_is_Some_None in Er. split; [done|]. do 6 store_step H.
    apply update_grant_inl in Hstmt2 as (r & Hr & _ & -> & ->). simpl in Hr. rewrite Hk in Hr. injection Hr as <-.
    apply revoke_families_inl in Hstmt3 as ->. apply revoke_live_access_inl in Hstmt4 as ->. tx_step H.
    exists audits. by rewrite Hdb12.
Qed.

Lemma revoke_grant_outcome input w w' r :
  db_ok (w_db w) → RevokeCurrentUserGrant input w = (w', r) →
  match r with
  | inl _ => ∃ client g, owned_grant (w_db w) input client g ∧
      ((is_Some (g_RevokedAt g) ∧ w_db w' = w_db w) ∨
       (g_RevokedAt g = None ∧
        ∃ audits, w_db w' = with_audit_events audits (grant_revocation_effect (timestamp (RevokeInput_Now input)) g (w_db w))))
  | inr _ => True
  end.
Proof.
  intros Hok. unfold RevokeCurrentUserGrant, mbind, Tx_bind. destruct (inTx _ w) as [w1 [mg|e]] eqn:E; [|by intros [= <- <-]].
  apply inTx_inl in E as (w2 & w3 & Hw2 & Hrun & Hw3). intros [= <- <-]. simpl. rewrite <- Hw2, <- Hw3.
  eapply revoke_grant_inv; [by rewrite Hw2|done].
Qed.

Lemma live_owned input w w' mg client g :
  db_ok (w_db w) → owned_grant (w_db w) input client g → g_RevokedAt g = None →
  RevokeCurrentUserGrant input w = (w', inl mg) →
  consent_grants (w_db w) !! g_ID g = Some g ∧
  ∃ audits, w_db w' = with_audit_events audits (grant_revocation_effect (timestamp (RevokeInput_Now input)) g (w_db w)).
Proof.
  intros Hok [Hc Hg] Hlive H. apply revoke_grant_outcome in H as (c' & g' & [Hc' Hg'] & H); [|done].
  assert (c' = client) as -> by congruence. assert (g' = g) as -> by congruence.
  destruct (grant_by_owner _ _ _ _ Hok Hg) as (Hk & _ & _). split; [done|].
  destruct H as [[[t Ht] _]|[_ H]]; [congruence|done].
Qed.

(** C16: Revoking a consent grant takes down everything under it and nothing else.
    After a successful revocation of a live grant, the grant is revoked at its next
    version, every refresh family under it is revoked, every access token under it is
    revoked or already expired; grants, families and access tokens of other grants, and
    all codes and refresh generations, are untouched. *)
Theorem grant_revocation_cascade input w w' mg client g :
  db_ok (w_db w) → owned_grant (w_db w) input client g → g_RevokedAt g = None →
  RevokeCurrentUserGrant input w = (w', inl mg) →
  let now := timestamp (RevokeInput_Now input) in
  consent_grants (w_db w') = <[g_ID g := revoked_grant now g]> (consent_grants (w_db w)) ∧
  (∀ k f, refresh_token_families (w_db w') !! k = Some f → rf_ConsentGrantID f = g_ID g → is_Some (rf_RevokedAt f)) ∧
  (∀ k a, access_tokens (w_db w') !! k = Some a → at_ConsentGrantID a = g_ID g → is_Some (at_RevokedAt a) ∨ at_ExpiresAt a <= now) ∧
  (∀ k f, refresh_token_families (w_db w) !! k = Some f → rf_ConsentGrantID f ≠ g_ID g → refresh_token_families (w_db w') !! k = Some f) ∧
  (∀ k a, access_tokens (w_db w) !! k = Some a → at_ConsentGrantID a ≠ g_ID g → access_tokens (w_db w') !! k = Some a) ∧
  authorization_codes (w_db w') = authorization_codes (w_db w) ∧ refresh_tokens (w_db w') = refresh_tokens (w_db w).
Proof.
  intros Hok Hown Hlive H now. destruct (live_owned _ _ _ _ _ _ Hok Hown Hlive H) as (Hk & audits & ->). simpl.
  split_and!; try done; intros k r.
  - rewrite lookup_update_where, fmap_Some. intros (r0 & Hr0 & ->) Hg. destruct (_ && _) eqn:E; [by eexists|].
    rewrite Hg, bool_decide_eq_true_2 in E by done. simpl in E. apply bool_decide_eq_false in E. by apply not_eq_None_Some.
  - rewrite lookup_update_where, fmap_Some. intros (r0 & Hr0 & ->) Hg. destruct (_ && _) eqn:E; [left; by eexists|].
    rewrite Hg, bool_decide_eq_true_2 in E by done. unfold live_access in E. simpl in E. go_bools.
    destruct E as [E|E]; [left; by apply not_eq_None_Some|right; done].
  - intros Hr Hg. rewrite lookup_update_where, Hr. simpl. by rewrite bool_decide_eq_false_2 by done.
  - intros Hr Hg. rewrite lookup_update_where, Hr. simpl. by rewrite bool_decide_eq_false_2 by done.
Qed.

(** ** Codes do not survive a change of their grant *)

(** Codes with this digest are bound to this version of this grant. *)
Definition code_bound (h : bytes) (g : uuid) (v : Z) (db : DB) : Prop :=
  map_Forall (λ _ r, code_CodeHash r = h → code_ConsentGrantID r = g ∧ code_ConsentGrantVersion r = v) (authorization_codes db).

Lemma write_code_bound h g v db db' : write (no_code h) db db' → code_bound h g v db → code_bound h g v db'.
Proof.
  unfold code_bound. destruct 1; simpl in *; try done; intros HI.
  - by apply map_Forall_insert_2.
  - apply map_Forall_insert_2; [|done]. intros Hh. simpl in Hh |- *. by eapply (HI id r).
  - by apply map_Forall_delete_ids.
  - intros k r'. rewrite lookup_fmap, fmap_Some. intros (r & Hk & ->). simpl. by apply (HI k r).
Qed.

Lemma past_not_exchangeable h g v db input code user client grant scopes :
  db_ok db → code_bound h g v db → grant_past g v db → ExchangeInput_CodeHash input = h →
  exchangeable db input code user client grant scopes → False.
Proof.
  intros Hok Hb (r & Hr & Hv) Hh Hex. destruct (code_by_hash _ _ _ Hok (ex_code _ _ _ _ _ _ _ Hex)) as [Hk Hhash].
  destruct (Hb _ _ Hk (eq_trans Hhash Hh)) as [Hbg Hbv].
  destruct (grant_by_owner _ _ _ _ Hok (ex_grant _ _ _ _ _ _ _ Hex)) as (Hkg & _ & _).
  pose proof (ex_grant_id _ _ _ _ _ _ _ Hex). pose proof (ex_grant_version _ _ _ _ _ _ _ Hex).
  assert (r = grant) as -> by congruence. lia.
Qed.

(** A revoked grant takes its pending codes with it, even across a new consent.
    A code bound to the live version of a grant can no longer be exchanged once the
    owner has revoked that grant: not right away and not in any state a sequence of
    store operations reaches, whether or not the grant was reactivated meanwhile (only
    storing the same code digest again is excluded). *)
Theorem grant_revocation_kills_codes input w w' mg client g k code w2 xinput mint w3 r :
  db_ok (w_db w) → owned_grant (w_db w) input client g → g_RevokedAt g = None →
  authorization_codes (w_db w) !! k = Some code →
  code_ConsentGrantID code = g_ID g → code_ConsentGrantVersion code = g_Version g →
  RevokeCurrentUserGrant input w = (w', inl mg) →
  reaches (obeys (no_code (code_CodeHash code))) (w_db w') (w_db w2) →
  ExchangeInput_CodeHash xinput = code_CodeHash code → ExchangeAuthorizationCode xinput mint w2 = (w3, r) →
  (∃ e, r = inr e) ∧ ∃ audits, w_db w3 = with_audit_events audits (w_db w2).
Proof.
  intros Hok Hown Hlive Hcode Hcg Hcv H Hr Hh H2.
  destruct (live_owned _ _ _ _ _ _ Hok Hown Hlive H) as (Hk & audits & Hdb).
  assert (Hok' : db_ok (w_db w')) by (by eapply (run_ok (OpRevokeGrant input)); [|exact H|]).
  assert (Hok2 : db_ok (w_db w2)) by (by eapply reaches_ok).
  assert (Hb : code_bound (code_CodeHash code) (g_ID g) (g_Version g) (w_db w2)).
  { eapply reaches_stable; [apply write_code_bound|exact Hr|]. rewrite Hdb. intros k' c' Hc' Hh'. simpl in Hc'.
    assert (k = k') as <-; [|simplify_eq; by rewrite Hcg, Hcv].
    apply (ok_codes_unique _ Hok _ _ code c' Hcode Hc'). by apply bool_decide_eq_true. }
  assert (Hpast : grant_past (g_ID g) (g_Version g) (w_db w2)).
  { eapply reaches_stable; [intros a b; apply write_grant_past|exact Hr|]. rewrite Hdb. eexists. simpl.
    rewrite lookup_insert_eq. split; [done|simpl; lia]. }
  apply exchange_outcome in H2; [|done]. destruct r as [resp|e].
  - exfalso. destruct H2 as (? & ? & ? & ? & ? & ? & ? & ? & ? & Hex & _). by eapply past_not_exchangeable.
  - split; [by eexists|]. destruct H2 as [H2|[_ [? (? & ? & ? & ? & ? & ? & ? & ? & ? & Hex & _)]]]; [done|].
    exfalso. by eapply past_not_exchangeable.
Qed.
(** ** Token revocation by a client *)

Definition access_revocation_effect (now : time) (token : AccessTokenRow) (db : DB) : DB :=
  with_access_tokens (<[at_ID token := revoke_access now (Some "client_revocation") token]> (access_tokens db)) db.

Definition family_revocation_effect (now : time) (family : RefreshTokenFamilyRow) (db : DB) : DB :=
  with_access_tokens
    (update_where (λ r, (at_RefreshFamilyID r == Some (rf_ID family)) && live_access now r)
       (revoke_access now (Some "family_revoked")) (access_tokens db))
    (with_refresh_token_families (<[rf_ID family := revoke_family now (Some "client_revocation") family]>
       (refresh_token_families db)) db).

(** What the access revocation of an authenticated client did: nothing, or it revoked
    one unexpired access token of that client with the presented identifier. *)
Definition access_revocation (lookup : RevocationLookup) (db db' : DB) : Prop :=
  db' = db ∨ ∃ token audits,
    access_tokens db !! at_ID token = Some token ∧ at_JtiHash token = RevocationLookup_AccessJTIHash lookup ∧
    at_ClientID token = Client_ID (RevocationLookup_Client lookup) ∧ at_RevokedAt token = None ∧
    RevocationLookup_Now lookup < at_ExpiresAt token ∧
    db' = with_audit_events audits (access_revocation_effect (timestamp (RevocationLookup_Now lookup)) token db).

(** The same for a refresh token: the whole family goes. *)
Definition refresh_revocation (lookup : RevocationLookup) (db db' : DB) : Prop :=
  db' = db ∨ ∃ generation family audits,
    refresh_tokens db !! rt_ID generation = Some generation ∧
    rt_TokenHash generation = RevocationLookup_RefreshTokenHash lookup ∧ rt_FamilyID generation = rf_ID family ∧
    refresh_token_families db !! rf_ID family = Some family ∧
    rf_ClientID family = Client_ID (RevocationLookup_Client lookup) ∧ rf_RevokedAt family = None ∧
    db' = with_audit_events audits (family_revocation_effect (timestamp (RevocationLookup_Now lookup)) family db).

(** Invert a locked optional read; the absent case ends the run unchanged. *)
Ltac found_step H :=
  let w1 := fresh "w" in let f := fresh "found" in let Hl := fresh "Hl" in let w0 := fresh "w" in
  let Hdb0 := fresh "Hdb" in let Hr := fresh "Hrand" in
  apply Tx_bind_inl in H as (w1 & f & Hl & H); apply locking_step in Hl as (w0 & Hdb0 & _ & Hl);
  apply query_opt_step in Hl as [_ Hl];
  match type of Hdb0 with _ = w_db ?v => known_db v Hdb0 end; rewrite Hdb0 in Hl;
  destruct f as [?row|]; simpl in H;
  [let db := fresh "db" in let Hs := fresh "Hstmt" in let Hdb := fresh "Hdb" in
   destruct Hl as (db & Hs & Hdb); select_inv Hs
  |destruct Hl as [_ Hl]; left; tx_step H; congruence].
Ltac true_step H E := match type of H with if_true ?b _ _ = _ => destruct b eqn:E; simpl in H; [|left; tx_step H; congruence] end.

Lemma checkCandidateFamily_inv lookup candidate k w w' x :
  checkCandidateFamily lookup candidate k w = (w', inl x) →
  w_db w' = w_db w ∨ ∃ w1, w_db w1 = w_db w ∧ k w1 = (w', inl x).
Proof.
  intros H. unfold checkCandidateFamily in H. destruct (at_RefreshFamilyID candidate) as [fid|]; [|right; by exists w].
  found_step H. true_step H E. right. by eexists.
Qed.

Lemma revokeAccess_inv lookup candidate w w' x :
  db_ok (w_db w) → revokeAccessCandidate_tx lookup candidate w = (w', inl x) →
  access_revocation lookup (w_db w) (w_db w').
Proof.
  intros Hok H. unfold revokeAccessCandidate_tx in H. found_step H. true_step H E1. found_step H.
  store_step H. true_step H E2. found_step H. true_step H E3.
  apply checkCandidateFamily_inv in H as [H|(w7 & Hdb7 & H)]; [left; congruence|]. rewrite Hdb5 in Hdb7.
  found_step H. rename row2 into token. true_step H E4. pose proof (ok_access_key _ Hok _ _ Hstmt2) as Hk. simpl in Hk.
  right. tx_step H. apply insertProtocolAudit_step in H as (audits & Hau & _).
  apply RevokeAccessToken_inl in Hstmt3 as (r & Hr & Hn & ->). simpl in Hr. rewrite Hk, Hstmt2 in Hr. injection Hr as <-.
  exists token, audits. time_unfold. rewrite negb_true_iff, !orb_false_iff in E4. simpl in E4. go_bools.
  rewrite Hk. split_and!; try done. by rewrite Hau, Hdb9.
Qed.

Lemma revokeRefresh_inv lookup candidate cfamily w w' x :
  db_ok (w_db w) → revokeRefreshCandidate_tx lookup candidate cfamily w = (w', inl x) →
  refresh_revocation lookup (w_db w) (w_db w').
Proof.
  intros Hok H. unfold revokeRefreshCandidate_tx in H. found_step H. true_step H E1. found_step H.
  store_step H. true_step H E2. found_step H. true_step H E3. found_step H. rename row2 into family. true_step H E4.
  found_step H. rename row2 into generation. true_step H E5.
  pose proof (ok_families_key _ Hok _ _ Hstmt2) as Kf. pose proof (ok_refresh_key _ Hok _ _ Hstmt3) as Kr.
  pose proof (sameAuthenticatedClient_spec _ _ E2) as (Hcl & _). simpl in Kf, Kr, Hcl.
  right. tx_step H. tx_step H. apply insertProtocolAudit_step in H as (audits & Hau & _).
  apply RevokeRefreshTokenFamily_inl in Hstmt4 as (r & Hr & Hn & ->). simpl in Hr. rewrite Kf, Hstmt2 in Hr. injection Hr as <-.
  apply revoke_live_access_inl in Hstmt5 as ->.
  exists generation, family, audits. rewrite negb_true_iff, !orb_false_iff in E4, E5. simpl in E4, E5. go_bools.
  rewrite Kf, Kr. split_and!; try done; try congruence. rewrite Hau.
  by match goal with E : w_db _ = with_access_tokens _ _ |- _ => rewrite E end.
Qed.
(** What any return of [RevokeToken] did to the tables. *)
Lemma RevokeToken_outcome lookup w w' r :
  db_ok (w_db w) → RevokeToken lookup w = (w', r) →
  access_revocation lookup (w_db w) (w_db w') ∨ refresh_revocation lookup (w_db w) (w_db w').
Proof.
  assert (Hfind : ∀ A op h (s : bytes → Stmt A), (∀ b, stmt_rel eq (s b)) → tx_rel eq (find_by_hash op h s)).
  { intros A op h s Hs. unfold find_by_hash. tx_rel_auto. }
  intros Hok. unfold RevokeToken. destruct (_ || _); [intros [= <- <-]; by left; left|].
  unfold mbind at 1, Tx_bind at 1. destruct (find_by_hash _ (RevocationLookup_AccessJTIHash lookup) _ w) as [w1 f] eqn:E1.
  apply Hfind in E1; [|intros b; apply stmt_rel_select_one, _].
  destruct f as [[candidate|]|e]; [| |intros [= <- <-]; left; by left].
  - unfold revokeAccessCandidate, mbind, Tx_bind. destruct (inTx _ w1) as [w2 [x|e]] eqn:E; apply inTx_attempts_cases in E;
      intros [= <- <-]; left; simpl.
    + destruct E as (w3 & w4 & E3 & Hrun & <-). rewrite E1, <- E3. by eapply revokeAccess_inv; [rewrite E3, <- E1|].
    + destruct E as [->|[[a (w3 & w4 & E3 & Hrun & <-)] _]]; [by left|]. rewrite E1, <- E3.
      by eapply revokeAccess_inv; [rewrite E3, <- E1|].
  - unfold mbind at 1, Tx_bind at 1. destruct (find_by_hash _ (RevocationLookup_RefreshTokenHash lookup) _ w1) as [w2 f2] eqn:E2.
    apply Hfind in E2; [|intros b; apply stmt_rel_select_one, _]. rewrite E1, E2 in *.
    destruct f2 as [[candidate|]|e]; [|intros [= <- <-]; left; by left..].
    unfold revokeRefreshCandidate. unfold mbind at 1, Tx_bind at 1.
    destruct (query_opt _ _ w2) as [w3 f3] eqn:E3. apply (tx_rel_query_opt eq) in E3; [|apply stmt_rel_select_one, _].
    rewrite E3 in *. destruct f3 as [[cfamily|]|e]; [|intros [= <- <-]; left; by left..].
    unfold mbind, Tx_bind. destruct (inTx _ w3) as [w4 [x|e]] eqn:E; apply inTx_attempts_cases in E;
      intros [= <- <-]; right; simpl.
    + destruct E as (w5 & w6 & E5 & Hrun & <-). rewrite <- E5. by eapply revokeRefresh_inv; [rewrite E5|].
    + destruct E as [->|[[a (w5 & w6 & E5 & Hrun & <-)] _]]; [by left|]. rewrite <- E5.
      by eapply revokeRefresh_inv; [rewrite E5|].
Qed.

(** A client revokes its own tokens only.  Whatever [RevokeToken] returns, and
    under any driver faults, the tables are unchanged, or one access token whose owner
    is the authenticated client and whose identifier was presented was revoked, or the
    family of a presented refresh token of that client was revoked together with its
    live access tokens.  In particular a token of another client is left alone. *)
Theorem revoke_own_tokens_only lookup w w' r :
  db_ok (w_db w) → RevokeToken lookup w = (w', r) →
  access_revocation lookup (w_db w) (w_db w') ∨ refresh_revocation lookup (w_db w) (w_db w').
Proof. apply RevokeToken_outcome. Qed.
End theorems.

(** ** Witnesses *)

Definition demo_revoke : RevokeInput := mkRevokeInput 1 (cl_ClientID demo_client) "req-5" (t0 + 3 * Time.Minute).
Definition issued_code_row : AuthorizationCodeRow :=
  default (mkAuthorizationCodeRow 0 "" 0 0 0 0 "" [] "" "" None 0 0 0 None 0 None None) (head (rows (authorization_codes issued_db))).

Lemma revoke_exchanged_succeeds : succeeds (RevokeCurrentUserGrant demo_revoke) (world_of exchanged_db 70) = true.
Proof. by vm_compute. Qed.
Lemma revoke_issued_succeeds : succeeds (RevokeCurrentUserGrant demo_revoke) (world_of issued_db 70) = true.
Proof. by vm_compute. Qed.
Lemma owned_exchanged : owned_grant (w_db (world_of exchanged_db 70)) demo_revoke demo_client (demo_grant exchanged_db).
Proof. split; vm_compute; reflexivity. Qed.
Lemma owned_issued : owned_grant (w_db (world_of issued_db 70)) demo_revoke demo_client (demo_grant issued_db).
Proof. split; vm_compute; reflexivity. Qed.
Lemma demo_grants_live : g_RevokedAt (demo_grant exchanged_db) = None ∧ g_RevokedAt (demo_grant issued_db) = None.
Proof. split; vm_compute; reflexivity. Qed.
Lemma issued_code_stored : authorization_codes (w_db (world_of issued_db 70)) !! code_ID issued_code_row = Some issued_code_row.
Proof. vm_compute. reflexivity. Qed.
Lemma issued_code_binding :
  code_ConsentGrantID issued_code_row = g_ID (demo_grant issued_db) ∧
  code_ConsentGrantVersion issued_code_row = g_Version (demo_grant issued_db) ∧
  ExchangeInput_CodeHash demo_exchange = code_CodeHash issued_code_row.
Proof. vm_compute. done. Qed.

Lemma grant_revocation_cascade_witness :
  ∃ w' mg, RevokeCurrentUserGrant demo_revoke (world_of exchanged_db 70) = (w', inl mg) ∧
  consent_grants (w_db w') = <[g_ID (demo_grant exchanged_db) := revoked_grant (timestamp (RevokeInput_Now demo_revoke)) (demo_grant exchanged_db)]>
    (consent_grants (w_db (world_of exchanged_db 70))).
Proof.
  destruct (succeeds_run _ _ revoke_exchanged_succeeds) as (w' & mg & E). exists w', mg. split; [exact E|].
  exact (proj1 (grant_revocation_cascade _ _ _ _ _ _ (world_ok _ _ exchanged_db_ok) owned_exchanged (proj1 demo_grants_live) E)).
Defined.

Lemma grant_revocation_kills_codes_witness :
  ∃ w' mg, RevokeCurrentUserGrant demo_revoke (world_of issued_db 70) = (w', inl mg) ∧
  ∃ e, (ExchangeAuthorizationCode demo_exchange (mint demo_service) (world_of (w_db w') 7)).2 = inr e.
Proof.
  destruct (succeeds_run _ _ revoke_issued_succeeds) as (w' & mg & E). exists w', mg. split; [exact E|].
  destruct (ExchangeAuthorizationCode demo_exchange (mint demo_service) (world_of (w_db w') 7)) as [w3 r] eqn:E2.
  destruct issued_code_binding as (H1 & H2 & H3).
  exact (proj1 (grant_revocation_kills_codes _ _ _ _ _ _ _ issued_code_row (world_of (w_db w') 7) _ _ _ _
    (world_ok _ _ issued_db_ok) owned_issued (proj2 demo_grants_live) issued_code_stored H1 H2 E (rtc_refl _ _) H3 E2)).
Defined.

Definition demo_lookup : RevocationLookup :=
  mkRevocationLookup demo_authenticated "" (RefreshInput_TokenHash demo_refresh) "req-6" (t0 + Time.Minute).

Lemma revoke_own_tokens_only_witness :
  let '(w', r) := RevokeToken demo_lookup (world_of exchanged_db 70) in
  access_revocation demo_lookup (w_db (world_of exchanged_db 70)) (w_db w') ∨
  refresh_revocation demo_lookup (w_db (world_of exchanged_db 70)) (w_db w').
Proof.
  destruct (RevokeToken demo_lookup (world_of exchanged_db 70)) as [w' r] eqn:E.
  exact (revoke_own_tokens_only _ _ _ _ (world_ok _ _ exchanged_db_ok) E).
Defined.
