(* ===== verification/CredentialTheorems.v ===== *)
(** * Values: the theorems

    The scope lists refine finite sets; the scope claim, the authorization code, the
    refresh token and the PKCE challenge have exact grammars; the three bearer
    credentials cannot be confused; and the refresh deadlines and scopes never grow. *)

From S2P Require Import Prelude Sha256 Base64 Errors Platform Scopes Domain Opaque AuditEvents Database Queries Tx.
From S2P Require Import StoreCommon TokenStore TokenService.
Import Authorization Refresh AccessID.

(** ** Scopes *)

(** A scope list as the set it stands for, and the set of supported scopes. *)
Definition set_of (l : list string) : gset string := list_to_set l.
Definition supported_set : gset string := set_of all_scopes.

Lemma elem_of_set_of x l : x ∈ set_of l ↔ x ∈ l.
Proof. apply elem_of_list_to_set. Qed.
Lemma elem_of_supported_set x : x ∈ supported_set ↔ supported x = true.
Proof. by rewrite supported_spec, <- elem_of_set_of. Qed.

(** [CanonicalScopes] is canonicalization.  It succeeds exactly when the input is
    a rearrangement of a canonical list (sorted in byte order, without duplicates, all
    supported, with openid), and that list is the result. *)
Theorem canonical_scopes_spec l r : CanonicalScopes l = Some r ↔ canonical r ∧ r ≡ₚ l.
Proof.
  split.
  - intros H. split; [by eapply CanonicalScopes_canonical|]. apply CanonicalScopes_Some in H as [-> _]. apply sort_Strings_perm.
  - intros [(Hs & Hnd & Hf & Ho) Hp]. apply CanonicalScopes_Some. split; [|by rewrite <- Hp].
    symmetry. by apply sort_Strings_unique.
Qed.

(** The scope operations refine set algebra.  [Union], [Intersection] and
    [Difference] are union, intersection and difference of the represented sets cut to
    the supported scopes, their results are sorted without duplicates, the subset test
    is set inclusion, and the binary search [contains] is membership on them. *)
Theorem scope_operations_refine_sets l r :
  set_of (Union l r) = (set_of l ∪ set_of r) ∩ supported_set ∧
  set_of (Intersection l r) = set_of l ∩ set_of r ∩ supported_set ∧
  set_of (Difference l r) = (set_of l ∖ set_of r) ∩ supported_set ∧
  (scopeSubset l r = true ↔ set_of l ⊆ set_of r) ∧
  Forall (λ s, StronglySorted string_le s ∧ NoDup s ∧ ∀ x, contains s x = true ↔ x ∈ set_of s)
    [Union l r; Intersection l r; Difference l r].
Proof.
  assert (Hsorted : ∀ set, StronglySorted string_le (sortedSet set) ∧ NoDup (sortedSet set) ∧
                           ∀ x, contains (sortedSet set) x = true ↔ x ∈ set_of (sortedSet set)).
  { intros set. destruct (sortedSet_sorted set). split_and!; try done. intros x.
    rewrite contains_spec by done. by rewrite bool_decide_eq_true, elem_of_set_of. }
  split_and!.
  - apply set_eq. intros x. rewrite elem_of_intersection, elem_of_union, elem_of_supported_set, !elem_of_set_of, elem_of_Union. tauto.
  - apply set_eq. intros x. rewrite !elem_of_intersection, elem_of_supported_set, !elem_of_set_of, elem_of_Intersection. tauto.
  - apply set_eq. intros x. rewrite elem_of_intersection, elem_of_difference, elem_of_supported_set, !elem_of_set_of, elem_of_Difference. tauto.
  - rewrite scopeSubset_spec, elem_of_subseteq. by setoid_rewrite elem_of_set_of.
  - repeat constructor; apply Hsorted.
Qed.

Lemma StronglySorted_filter (Q : string → Prop) `{!∀ x, Decision (Q x)} l :
  StronglySorted string_le l → StronglySorted string_le (filter Q l).
Proof.
  induction 1 as [|a l Hs IH Ha]; [constructor|]. rewrite filter_cons. case_decide; [|done].
  constructor; [done|]. rewrite Forall_forall in *. intros x [_ Hx]%list_elem_of_filter. auto.
Qed.

(** A canonical list is one of the eight selections from the supported scopes. *)
Lemma canonical_filter l : canonical l → l = filter (λ x, x ∈ l) all_scopes.
Proof.
  intros (Hs & Hnd & Hf & _). apply (StronglySorted_unique string_le); [done|..].
  - apply StronglySorted_filter. repeat constructor.
  - apply NoDup_Permutation; [done|apply NoDup_filter, (bool_decide_unpack _); by vm_compute|].
    intros x. rewrite list_elem_of_filter, <- supported_spec. rewrite Forall_forall in Hf. split; [|tauto].
    intros Hx. split; [done|]. by apply Is_true_true, Hf.
Qed.

Lemma canonical_cases (Q : list string → Prop) :
  Q ["openid"] → Q ["email"; "openid"] → Q ["offline_access"; "openid"] → Q ["openid"; "profile"] →
  Q ["email"; "offline_access"; "openid"] → Q ["email"; "openid"; "profile"] → Q ["offline_access"; "openid"; "profile"] →
  Q all_scopes → ∀ l, canonical l → Q l.
Proof.
  intros ???????? l Hl. pose proof (canonical_filter l Hl) as Heq. destruct Hl as (_ & _ & _ & Ho). revert Heq.
  unfold all_scopes. rewrite !filter_cons, filter_nil.
  destruct (decide ("email" ∈ l)), (decide ("offline_access" ∈ l)), (decide ("openid" ∈ l)), (decide ("profile" ∈ l));
    try done; by intros ->.
Qed.

Lemma parseScopeClaim_join l : canonical l → parseScopeClaim (join_space l) = Some l.
Proof. revert l. apply canonical_cases; by vm_compute. Qed.

(** The scope claim of an access token is parsed back to exactly what was written.
    The parser accepts a string exactly when it is a canonical scope list joined with
    single spaces, and returns that list. *)
Theorem scope_claim_roundtrip raw l : parseScopeClaim raw = Some l ↔ canonical l ∧ raw = join_space l.
Proof.
  split.
  - unfold parseScopeClaim. destruct (_ || _); [done|]. destruct (CanonicalScopes _) as [c|] eqn:Ec; [|done].
    destruct (join_space c != raw) eqn:Ej; [done|]. intros [= ->]. go_bools. split; [by eapply CanonicalScopes_canonical|done].
  - intros [Hc ->]. by apply parseScopeClaim_join.
Qed.

(** ** Bearer values *)

Lemma ReadFull_app n e raw rest : String.length raw = n → ReadFull n e (raw +:+ rest) = (rest, inl raw).
Proof.
  intros <-. rewrite ReadFull_enough by (rewrite length_app_string; lia). by rewrite str_drop_app, str_take_app.
Qed.

Lemma length_of_len s n : len s = Z.of_nat n → String.length s = n.
Proof. unfold len. lia. Qed.

(** The refresh-token grammar is exact.  A presented value is recognised exactly
    when the generator produces it from some 32 random bytes, and its digest is then
    the one the generator stores. *)
Theorem refresh_token_grammar v h :
  DigestPresentedRefreshToken v = Some h ↔
  ∃ raw, len raw = 32 ∧ ∀ rest, GenerateRefreshToken (raw +:+ rest) = (rest, inl (v, h)).
Proof.
  rewrite DigestPresentedRefreshToken_Some. split.
  - intros (raw & Hl & -> & ->). exists raw. split; [done|]. intros rest.
    unfold GenerateRefreshToken, mbind, Rnd_bind. by rewrite ReadFull_app by (by apply length_of_len).
  - intros (raw & Hl & H). specialize (H ""). unfold GenerateRefreshToken, mbind, Rnd_bind in H.
    rewrite ReadFull_app in H by (by apply length_of_len). simpl in H. injection H as <- <-. by exists raw.
Qed.

(** The authorization-code grammar is exact.  A presented code is recognised
    exactly when the generator produces it from some 32 random bytes, and its digest is
    [HashCode] of it. *)
Theorem code_grammar v h :
  DigestPresentedCode v = Some h ↔
  ∃ raw, len raw = 32 ∧ (∀ rest, newCode (raw +:+ rest) = (rest, inl v)) ∧ h = HashCode v.
Proof.
  rewrite DigestPresentedCode_Some. split.
  - intros (raw & Hl & -> & ->). exists raw. split_and!; [done| |done]. intros rest.
    unfold newCode, mbind, Rnd_bind. by rewrite ReadFull_app by (by apply length_of_len).
  - intros (raw & Hl & H & ->). specialize (H ""). unfold newCode, mbind, Rnd_bind in H.
    rewrite ReadFull_app in H by (by apply length_of_len). injection H as <-. by exists raw.
Qed.

(** The three bearer credentials cannot be confused.  No value is recognised as two
    of authorization code, refresh token and access token, whatever the signature
    library and the keys are. *)
Theorem credentials_disjoint {C : TokenCodec} (s : Service) v now :
  ¬ (is_Some (DigestPresentedCode v) ∧ is_Some (DigestPresentedRefreshToken v)) ∧
  ¬ (is_Some (DigestPresentedCode v) ∧ is_Some (verifyAccessToken s v now)) ∧
  ¬ (is_Some (DigestPresentedRefreshToken v) ∧ is_Some (verifyAccessToken s v now)).
Proof.
  assert (Hacc : is_Some (verifyAccessToken s v now) → count_dots v = 2).
  { unfold verifyAccessToken. destruct (_ || (count_dots v != 2)) eqn:E; [by intros [? ?]|]. intros _. by go_bools. }
  assert (Hdots : ∀ p raw, v = p +:+ Base64.Encode raw → count_dots v = count_dots p).
  { intros p raw ->. rewrite count_dots_app, count_dots_Encode. lia. }
  split_and!; intros [[h1 H1] [h2 H2]];
    first [apply DigestPresentedCode_Some in H1 as (raw & _ & Hv & _)|apply DigestPresentedRefreshToken_Some in H1 as (raw & _ & Hv & _)].
  - apply DigestPresentedRefreshToken_Some in H2 as (raw2 & _ & Hv2 & _). by subst v.
  - apply Hdots in Hv. rewrite Hacc in Hv by done. done.
  - apply Hdots in Hv. rewrite Hacc in Hv by done. done.
Qed.

(** PKCE accepts exactly the verifier behind the challenge.  [VerifyS256] accepts
    when the verifier has the RFC 7636 grammar (43 to 128 unreserved characters) and the
    challenge is the unpadded base64url form of its SHA-256, and never otherwise. *)
Theorem pkce_exact verifier challenge :
  VerifyS256 verifier challenge = true ↔
  43 <= len verifier <= 128 ∧ every isVerifierCharacter verifier = true ∧
  challenge = Base64.Encode (Sha256.Sum256 verifier).
Proof.
  unfold VerifyS256, ValidateVerifier. assert (Hl : len (Base64.Encode (Sha256.Sum256 verifier)) = 43).
  { rewrite Base64.len_Encode, Sha256.Sum256_length. reflexivity. }
  revert Hl. generalize (Base64.Encode (Sha256.Sum256 verifier)). intros expected Hl.
  destruct (Z.ltb_spec (len verifier) 43); simpl; [split; [done|lia]|].
  destruct (Z.ltb_spec 128 (len verifier)); simpl; [split; [done|lia]|].
  destruct (every _ _) eqn:Ev; simpl; [|naive_solver]. case_bool_decide as Hc; simpl; [|].
  - rewrite bool_decide_eq_true. naive_solver lia.
  - naive_solver.
Qed.

(** ** Refresh lifetimes and scopes *)

Lemma RefreshDeadlines_Some issuedAt rolling absolute x y :
  RefreshDeadlines issuedAt rolling absolute = Some (x, y) ↔
  issuedAt ≠ Time.zero ∧ Time.Hour <= rolling <= 30 * 24 * Time.Hour ∧
  24 * Time.Hour <= absolute <= 365 * 24 * Time.Hour ∧ rolling <= absolute ∧ x = issuedAt + rolling ∧ y = issuedAt + absolute.
Proof.
  unfold RefreshDeadlines, maxRefreshRolling, maxRefreshAbsolute. time_unfold.
  destruct (_ || _) eqn:E; go_bools; [split; [done|intros; lia]|].
  destruct (Z.ltb_spec (issuedAt + absolute) (issuedAt + rolling)); [lia|].
  split; [intros [= <- <-]; by split_and!|]. by intros (? & ? & ? & ? & -> & ->).
Qed.

Lemma ReplacementRefreshExpiry_Some issuedAt rolling deadline x :
  ReplacementRefreshExpiry issuedAt rolling deadline = Some x ↔
  issuedAt ≠ Time.zero ∧ deadline ≠ Time.zero ∧ issuedAt < deadline ∧ Time.Hour <= rolling <= 30 * 24 * Time.Hour ∧
  x = Z.min (issuedAt + rolling) deadline.
Proof.
  unfold ReplacementRefreshExpiry, maxRefreshRolling. time_unfold.
  destruct (_ || _) eqn:E; go_bools; [split; [done|intros; lia]|].
  destruct (Z.ltb_spec deadline (issuedAt + rolling)); split; try (by intros (? & ? & ? & ? & ->); f_equal; lia);
    intros [= <-]; split_and!; lia || done.
Qed.

(** Refresh deadlines are exactly the configured ones, inside fixed bounds.  A family
    gets deadlines exactly for a rolling lifetime of one hour to 30 days and an absolute
    lifetime of one to 365 days that is no shorter, and they are the issue time plus those;
    a rotation gets an expiry exactly before the absolute deadline, and it is the rolling
    one cut to the absolute deadline, so no rotation outlives its family. *)
Theorem refresh_deadlines_exact issuedAt rolling absolute deadline x y :
  (RefreshDeadlines issuedAt rolling absolute = Some (x, y) ↔
     issuedAt ≠ Time.zero ∧ Time.Hour <= rolling <= 30 * 24 * Time.Hour ∧
     24 * Time.Hour <= absolute <= 365 * 24 * Time.Hour ∧ rolling <= absolute ∧
     x = issuedAt + rolling ∧ y = issuedAt + absolute) ∧
  (ReplacementRefreshExpiry issuedAt rolling deadline = Some x ↔
     issuedAt ≠ Time.zero ∧ deadline ≠ Time.zero ∧ issuedAt < deadline ∧ Time.Hour <= rolling <= 30 * 24 * Time.Hour ∧
     x = Z.min (issuedAt + rolling) deadline).
Proof. split; [apply RefreshDeadlines_Some|apply ReplacementRefreshExpiry_Some]. Qed.

(** The scopes a family can still use: its own, cut to the grant and the registration. *)
Definition usable_scopes (family grant client : list string) : gset string := set_of family ∩ set_of grant ∩ set_of client.
Definition refresh_base : gset string := {["openid"; "offline_access"]}.

(** A refreshable family: canonicalizable with openid and offline_access. *)
Definition refreshable (family grant client : list string) : Prop :=
  is_Some (CanonicalScopes family) ∧ refresh_base ⊆ usable_scopes family grant client.

Lemma SelectRefreshAccessScopes_cases requested family grant client :
  refreshable family grant client ∧
  (∃ effective, canonical effective ∧ set_of effective = usable_scopes family grant client ∧
     SelectRefreshAccessScopes requested family grant client =
     match requested with
     | None => inl effective
     | Some q => if decide (CanonicalScopes q = Some q ∧ set_of q ⊆ set_of effective) then inl q else inr token_ErrInvalidScope
     end) ∨
  ¬ refreshable family grant client ∧ SelectRefreshAccessScopes requested family grant client = inr token_ErrInvalidGrant.
Proof.
  unfold SelectRefreshAccessScopes, CanonicalRefreshScopes, refreshable.
  destruct (CanonicalScopes family) as [c|] eqn:Ec; [|right; split; [by intros [[??] _]|done]].
  set (effective := Intersection (Intersection c grant) client).
  assert (Hmem : ∀ x, x ∈ effective ↔ x ∈ usable_scopes family grant client).
  { intros x. unfold effective, usable_scopes. rewrite !elem_of_Intersection, !elem_of_intersection, !elem_of_set_of,
      (CanonicalScopes_elem _ _ x Ec). apply CanonicalScopes_Some in Ec as (_ & _ & Hs & _). rewrite Forall_forall in Hs.
    split; [tauto|]. intros [[Hx ?] ?]. split; [by apply Is_true_true, Hs|]. split; [|done]. split; [by apply Is_true_true, Hs|done]. }
  assert (Hbase : refresh_base ⊆ usable_scopes family grant client ↔ "openid" ∈ effective ∧ "offline_access" ∈ effective).
  { unfold refresh_base. rewrite !Hmem. set_solver. }
  destruct (decide ("openid" ∈ effective ∧ "offline_access" ∈ effective)) as [[Ho Hf]|Hn].
  - left. split; [split; [done|by apply Hbase]|]. exists effective. split; [by apply Intersection_canonical|].
    split; [apply set_eq; intros x; by rewrite elem_of_set_of|].
    assert ("openid" ∈ c ∧ "offline_access" ∈ c) as [Hoc Hfc].
    { unfold effective in Ho, Hf. rewrite !elem_of_Intersection in Ho, Hf. tauto. }
    rewrite (bool_decide_eq_true_2 _ Hoc), (bool_decide_eq_true_2 _ Hfc). cbv beta iota zeta delta [andb]. fold effective.
    rewrite (bool_decide_eq_true_2 _ Ho), (bool_decide_eq_true_2 _ Hf). cbn [negb orb].
    destruct requested as [q|]; [|done]. destruct (CanonicalScopes q) as [r|] eqn:Eq; [|by case_decide; naive_solver].
    destruct (decide (r = q)) as [->|Hne].
    + rewrite bool_decide_eq_true_2 by done. cbn [negb orb].
      destruct (scopeSubset q effective) eqn:Es; case_decide as Hd; try done; exfalso.
      * apply Hd. split; [done|]. rewrite scopeSubset_spec in Es. intros x. rewrite !elem_of_set_of. apply Es.
      * apply not_true_iff_false in Es. apply Es, scopeSubset_spec. intros x Hx. apply elem_of_set_of, (proj2 Hd), elem_of_set_of, Hx.
    + rewrite bool_decide_eq_false_2 by done. case_decide; naive_solver.
  - right. split; [tauto|]. destruct (_ && _); [|done]. cbv beta iota zeta. fold effective.
    rewrite <- negb_andb. destruct (bool_decide _ && _) eqn:E; [|done]. go_bools. naive_solver.
Qed.

(** A refresh never widens scopes.  Without a request it grants exactly the scopes in
    the family, the grant and the registration; a request is granted exactly when it is
    canonical and inside those, and then as requested.  The refusal is invalid_grant
    exactly when the family itself is no longer refreshable, else invalid_scope. *)
Theorem refresh_scopes_exact requested family grant client r :
  (SelectRefreshAccessScopes requested family grant client = inl r ↔
     refreshable family grant client ∧ canonical r ∧
     match requested with
     | None => set_of r = usable_scopes family grant client
     | Some q => r = q ∧ set_of r ⊆ usable_scopes family grant client
     end) ∧
  (SelectRefreshAccessScopes requested family grant client = inr token_ErrInvalidGrant ↔ ¬ refreshable family grant client) ∧
  ∀ e, SelectRefreshAccessScopes requested family grant client = inr e → e = token_ErrInvalidGrant ∨ e = token_ErrInvalidScope.
Proof.
  destruct (SelectRefreshAccessScopes_cases requested family grant client) as [(Hr & eff & Hc & Heff & ->)|[Hr ->]]; [|naive_solver].
  rewrite <- Heff. destruct requested as [q|]; [case_decide as Hd|].
  - rewrite <- canonical_iff in Hd. split_and!; [naive_solver|naive_solver|naive_solver].
  - rewrite <- canonical_iff in Hd. split_and!; [naive_solver|naive_solver|naive_solver].
  - split_and!; [|naive_solver|naive_solver]. split; [naive_solver|]. intros (_ & Hcr & Heq). f_equal.
    apply canonical_ext; [done..|]. intros x. by rewrite <- !elem_of_set_of, Heq.
Qed.
