(* ===== verification/TokenTheorems.v ===== *)
(** * The token service: the theorems

    What the service mints is what the store accepts and verifies back to its claims, the
    credential grammars are disjoint, and an access token opens UserInfo or introspection only while every
    authority behind it is alive.  The reads are proved against the interface
    [RepositoryLaws], which the PostgreSQL store satisfies. *)

From S2P Require Import Prelude Sha256 Base64 Errors Platform Scopes Domain Opaque AuditEvents Database Queries Tx StoreCommon.
From S2P Require Import TokenStore Invariants TokenService AuthorizationService Demo CredentialTheorems.
Import Authorization Refresh AccessID.
(** ** Interfaces *)

Section snapshot.
Context {P : Platform}.

(** The rows behind an access token identifier, as one consistent read. *)
Record access_snapshot (db : DB) (jtiHash : bytes) (row : AccessTokenRow) (user : UserRow) (client : OidcClientRow)
    (grant : ConsentGrantRow) (family : option RefreshTokenFamilyRow) : Prop := {
  as_token : find_row (λ r, at_JtiHash r == jtiHash) (access_tokens db) = Some row;
  as_user : users db !! at_UserID row = Some user;
  as_client : oidc_clients db !! at_ClientID row = Some client;
  as_grant : find_row (grant_of (at_UserID row) (at_ClientID row)) (consent_grants db) = Some grant;
  as_family : family = at_RefreshFamilyID row ≫= λ f, refresh_token_families db !! f;
  as_family_found : is_Some (at_RefreshFamilyID row) → is_Some family }.

Definition access_authority_of (db : DB) (row : AccessTokenRow) (user : UserRow) (client : OidcClientRow)
    (grant : ConsentGrantRow) (family : option RefreshTokenFamilyRow) : AccessAuthority :=
  mkAccessAuthority (mapAccessMetadata row) (mapConsentGrant grant) (mapUser user) (client_of db client)
    (mapRefreshFamily <$> family).

Record refresh_snapshot (db : DB) (hash : bytes) (row : RefreshTokenRow) (family : RefreshTokenFamilyRow) (user : UserRow)
    (client : OidcClientRow) (grant : ConsentGrantRow) : Prop := {
  rs_token : find_row (λ r, rt_TokenHash r == hash) (refresh_tokens db) = Some row;
  rs_family : refresh_token_families db !! rt_FamilyID row = Some family;
  rs_user : users db !! rf_UserID family = Some user;
  rs_client : oidc_clients db !! rf_ClientID family = Some client;
  rs_grant : find_row (grant_of (rf_UserID family) (rf_ClientID family)) (consent_grants db) = Some grant }.

Definition refresh_authority_of (db : DB) (row : RefreshTokenRow) (family : RefreshTokenFamilyRow) (user : UserRow)
    (client : OidcClientRow) (grant : ConsentGrantRow) : RefreshTokenAuthority :=
  mkRefreshTokenAuthority (mapRefreshGeneration row) (mapRefreshFamily family) (mapConsentGrant grant) (mapUser user)
    (client_of db client).

(** What the token service relies on of its repository's reads. *)
Class RepositoryLaws (R : Repository) : Prop := {
  access_read : ∀ h now w w' a, Repository_GetAccessTokenAuthority h now w = (w', inl a) →
    ∃ row user client grant family, access_snapshot (w_db w) h row user client grant family ∧
      a = access_authority_of (w_db w) row user client grant family ∧ w_db w' = w_db w;
  refresh_read : ∀ h w w' a, Repository_GetRefreshTokenAuthority h w = (w', inl a) →
    ∃ row family user client grant, refresh_snapshot (w_db w) h row family user client grant ∧
      a = refresh_authority_of (w_db w) row family user client grant ∧ w_db w' = w_db w }.

Lemma loadClientOr_inl e id w w' c :
  loadClientOr e id w = (w', inl c) →
  ∃ row, oidc_clients (w_db w) !! id = Some row ∧ c = client_of (w_db w) row ∧ w_db w' = w_db w.
Proof.
  unfold loadClientOr. destruct (loadClient id w) as [w1 [c1|e1]] eqn:E; [|done]. intros [= <- <-].
  by apply loadClient_inl in E.
Qed.

(** The PostgreSQL store keeps them. *)
Lemma access_read_tx h now w w' a :
  getAccessTokenAuthority_tx h now w = (w', inl a) →
  ∃ row user client grant family, access_snapshot (w_db w) h row user client grant family ∧
    a = access_authority_of (w_db w) row user client grant family ∧ w_db w' = w_db w.
Proof.
  intros H. unfold getAccessTokenAuthority_tx in H. do 4 tx_step H.
  apply Tx_bind_inl in H as (w3 & c & Hc & H). apply loadClientOr_inl in Hc as (client & Hcl & -> & Hdbc).
  rewrite Hdb0 in Hcl, Hdbc. do 3 tx_step H. apply Tx_bind_inl in H as (w5 & fam & Hf & H). tx_step H.
  exists a0, a2, client, a5. simpl in Hf. destruct (at_RefreshFamilyID a0) as [fid|] eqn:Ef; simpl in Hf.
  - repeat tx_step Hf. exists (refresh_token_families (w_db w) !! fid). rewrite Hstmt2.
    split; [split; simpl; rewrite ?Ef; simpl; done|]. unfold access_authority_of. by rewrite Hdb0.
  - tx_step Hf. exists None. split; [split; simpl; rewrite ?Ef; done|]. unfold access_authority_of. by rewrite Hdb0.
Qed.

Lemma refresh_read_tx h w w' a :
  getRefreshTokenAuthority_tx h w = (w', inl a) →
  ∃ row family user client grant, refresh_snapshot (w_db w) h row family user client grant ∧
    a = refresh_authority_of (w_db w) row family user client grant ∧ w_db w' = w_db w.
Proof.
  intros H. unfold getRefreshTokenAuthority_tx in H. do 3 tx_step H.
  apply Tx_bind_inl in H as (w3 & c & Hc & H). apply loadClientOr_inl in Hc as (client & Hcl & -> & Hdbc).
  rewrite Hdb1 in Hcl, Hdbc. do 3 tx_step H. do 5 eexists. split; [by split|].
  unfold refresh_authority_of. by rewrite Hdb1.
Qed.

#[export] Instance postgres_RepositoryLaws : RepositoryLaws postgres_Repository.
Proof.
  split; simpl.
  - intros h now w w' a H. unfold GetAccessTokenAuthority in H. tx_step H.
    apply inTx_inl in H as (w1 & w2 & <- & Hrun & <-). by eapply access_read_tx.
  - intros h w w' a H. unfold GetRefreshTokenAuthority in H. tx_step H.
    apply inTx_inl in H as (w1 & w2 & <- & Hrun & <-). by eapply refresh_read_tx.
Qed.
End snapshot.

(** ** Access tokens open nothing once an authority behind them is gone *)

Section reads.
Context {P : Platform} {C : TokenCodec} {R : Repository} {RL : RepositoryLaws R} (s : Service).

(** Everything an accepted access token rests on, at the moment it is presented. *)
Record alive (db : DB) (now : time) (row : AccessTokenRow) (user : UserRow) (client : OidcClientRow) (grant : ConsentGrantRow)
    (family : option RefreshTokenFamilyRow) : Prop := {
  al_token : at_RevokedAt row = None ∧ now < at_ExpiresAt row;
  al_user : u_ID user = at_UserID row ∧ u_Status user = identity_StatusActive;
  al_client : cl_ID client = at_ClientID row ∧ cl_Status client = client_StatusActive;
  al_grant : g_ID grant = at_ConsentGrantID row ∧ g_RevokedAt grant = None;
  al_scopes : ∀ x, x ∈ at_Scopes row → x ∈ g_Scopes grant ∧ x ∈ child_values (oidc_client_scopes db) (cl_ID client);
  al_family : ∀ f, family = Some f → rf_RevokedAt f = None ∧ now < rf_AbsoluteExpiresAt f ∧ ∀ x, x ∈ at_Scopes row → x ∈ rf_Scopes f }.

Lemma family_ok_spec metadata family scopes now f :
  family_ok metadata family scopes now = true → family = Some f →
  RefreshFamily_RevokedAt f = None ∧ now < RefreshFamily_AbsoluteExpiresAt f ∧ ∀ x, x ∈ scopes → x ∈ RefreshFamily_Scopes f.
Proof.
  intros H ->. unfold family_ok in H. destruct (AccessMetadata_RefreshFamilyID metadata) as [fid|]; [|done].
  destruct (_ || _) eqn:E; [done|]. destruct (CanonicalRefreshScopes _) as [fs|] eqn:Ec; [|done].
  rewrite scopeSubset_spec in H. unfold CanonicalRefreshScopes in Ec. destruct (CanonicalScopes _) as [c|] eqn:Ecs; [|done].
  destruct (_ && _); [|done]. injection Ec as <-. time_unfold. rewrite !orb_false_iff in E. go_bools.
  split_and!; [by apply not_is_Some_None|done|]. intros x Hx. rewrite <- (CanonicalScopes_elem _ _ x Ecs). by apply H.
Qed.

Lemma accessAuthorityMatches_alive db h row user client grant family claims now :
  access_snapshot db h row user client grant family →
  accessAuthorityMatches s (access_authority_of db row user client grant family) claims now = true →
  alive db now row user client grant family.
Proof.
  intros [_ _ _ _ _ _] H. unfold accessAuthorityMatches in H. cbv zeta in H.
  cbn [access_authority_of AccessAuthority_Metadata AccessMetadata_Scopes mapAccessMetadata] in H.
  destruct (CanonicalScopes (at_Scopes row)) as [scopes|] eqn:Ec; [|done].
  match type of H with (if ?b then _ else _) = _ => destruct b eqn:E1; [done|] end.
  destruct (negb (source_ok _)); [done|]. destruct (family_ok _ _ _ _) eqn:Ef; [|done]. cbn [negb] in H.
  destruct (parseScopeClaim _) as [claimed|]; [|done].
  match type of H with (if ?b then _ else _) = _ => destruct b eqn:E2; [done|] end. clear H.
  pose proof (CanonicalScopes_canonical _ _ Ec) as (_ & _ & Hsup & _).
  rewrite !orb_false_iff in E1, E2. destruct E2 as [_ E2]. apply negb_false_iff, bool_decide_eq_true in E2.
  rewrite Difference_nil in E2 by done. unfold activeClient in E1. time_unfold. simpl in E1.
  split.
  - go_bools. split; [by apply not_is_Some_None|done].
  - by go_bools.
  - by go_bools.
  - go_bools. split; [done|by apply not_is_Some_None].
  - intros x Hx. rewrite <- (CanonicalScopes_elem _ _ x Ec) in Hx.
    by apply E2, elem_of_Intersection in Hx as (_ & ? & ?).
  - intros f ->. destruct (family_ok_spec _ _ _ _ (mapRefreshFamily f) Ef eq_refl) as (H1 & H2 & H3). split_and!; [done|done|].
    intros x Hx. apply H3. by rewrite (CanonicalScopes_elem _ _ x Ec).
Qed.

(** C36: UserInfo answers only for living authority and reveals only what was granted.
    When UserInfo answers, the presented token names an unrevoked, unexpired stored
    token whose user and client are active, whose grant is unrevoked and, if it belongs
    to a refresh family, whose family is unrevoked and unexpired; all its scopes are in
    the grant, the client's registration and the family; the answer has the name fields
    exactly with the profile scope and the mail fields exactly with the email scope; and
    the tables are unchanged. *)
Theorem userinfo_living_authority compact now w w' info :
  UserInfoForAccessToken s compact now w = (w', inl info) →
  ∃ claims row user client grant family,
    verifyAccessToken s compact now = Some claims ∧
    access_snapshot (w_db w) (HashJTI (Claim_JWTID claims)) row user client grant family ∧
    alive (w_db w) now row user client grant family ∧ w_db w' = w_db w ∧
    UserInfo_Subject info = u_Subject user ∧
    (UserInfo_Name info = if bool_decide ("profile" ∈ at_Scopes row) then Some (u_DisplayName user) else None) ∧
    (UserInfo_PreferredUsername info = if bool_decide ("profile" ∈ at_Scopes row) then Some (u_Username user) else None) ∧
    (UserInfo_Email info = if bool_decide ("email" ∈ at_Scopes row) then Some (u_Email user) else None) ∧
    (UserInfo_EmailVerified info = if bool_decide ("email" ∈ at_Scopes row) then Some (u_EmailVerified user) else None).
Proof.
  unfold UserInfoForAccessToken. destruct (verifyAccessToken s compact now) as [claims|] eqn:Ev; [|done]. intros H.
  apply Tx_bind_inl in H as (w1 & a & Ha & H). apply access_read in Ha as (row & user & client & grant & family & Hs & -> & Hdb).
  do 2 tx_step H. apply negb_false_iff in Hguard. exists claims, row, user, client, grant, family.
  split_and!; [done|done|by eapply accessAuthorityMatches_alive|done|..]; simpl; unfold applyUserInfoClaims; simpl;
    by destruct (bool_decide ("profile" ∈ _)), (bool_decide ("email" ∈ _)).
Qed.

Lemma found_or_inactive_inl {A} e (m : Tx A) k w w' r :
  found_or_inactive e m k w = (w', inl r) → r = inactive ∨ ∃ a, m w = (w', inl a) ∧ r = k a.
Proof.
  unfold found_or_inactive. destruct (m w) as [w1 [a|e1]]; [|destruct (e1 == e)]; intros [= <- <-]; [right; by eexists|by left].
Qed.

(** Everything an active refresh token rests on. *)
Record refresh_alive (now : time) (row : RefreshTokenRow) (family : RefreshTokenFamilyRow) (user : UserRow) (client : OidcClientRow)
    (grant : ConsentGrantRow) : Prop := {
  ra_token : rt_ConsumedAt row = None ∧ now < rt_ExpiresAt row;
  ra_family : rf_RevokedAt family = None ∧ now < rf_AbsoluteExpiresAt family;
  ra_user : u_Status user = identity_StatusActive;
  ra_client : cl_Status client = client_StatusActive;
  ra_grant : g_RevokedAt grant = None }.

Lemma refreshIntrospection_alive db input digest row family user client grant :
  IR_Active (refreshIntrospection s input digest (refresh_authority_of db row family user client grant)) = true →
  refresh_alive (IntrospectionInput_Now input) row family user client grant ∧
  cl_ID client = Client_ID (IntrospectionInput_Client input).
Proof.
  unfold refreshIntrospection. cbv zeta.
  match goal with |- IR_Active (if ?b then _ else _) = _ → _ => destruct b eqn:E; [done|] end. intros _.
  rewrite !orb_false_iff in E. unfold activeClient in E. time_unfold. simpl in E. go_bools.
  split; [split|done]; try done; try (by apply not_is_Some_None); split; try done; by apply not_is_Some_None.
Qed.

Lemma accessIntrospection_alive db h input claims row user client grant family :
  access_snapshot db h row user client grant family →
  IR_Active (accessIntrospection s input claims (access_authority_of db row user client grant family)) = true →
  alive db (IntrospectionInput_Now input) row user client grant family ∧ cl_ID client = Client_ID (IntrospectionInput_Client input).
Proof.
  intros Hs. unfold accessIntrospection. destruct (_ || negb (accessAuthorityMatches _ _ _ _)) eqn:E; [done|]. intros _.
  rewrite !orb_false_iff in E. destruct E as [[E1 _] E2]. apply negb_false_iff in E1, E2. apply bool_decide_eq_true in E1.
  split; [by eapply accessAuthorityMatches_alive|done].
Qed.

(** Introspection calls a token active only for its own confidential client and
    only while it is alive.  An active answer is given to an authenticated confidential
    client that owns the token; the token is then an access token whose token, user,
    client, grant and family rows are all alive, or a refresh token that is unconsumed,
    unexpired and of an unrevoked family with active user, client and grant.  The
    tables are unchanged. *)
Theorem introspection_living_authority input w w' r :
  Introspect s input w = (w', inl r) → IR_Active r = true →
  Client_Type (IntrospectionInput_Client input) = TypeConfidential ∧
  ((∃ h row user client grant family, access_snapshot (w_db w) h row user client grant family ∧
      alive (w_db w) (IntrospectionInput_Now input) row user client grant family ∧
      cl_ID client = Client_ID (IntrospectionInput_Client input)) ∨
   (∃ h row family user client grant, refresh_snapshot (w_db w) h row family user client grant ∧
      refresh_alive (IntrospectionInput_Now input) row family user client grant ∧
      cl_ID client = Client_ID (IntrospectionInput_Client input))) ∧
  w_db w' = w_db w.
Proof.
  intros H Hact. unfold Introspect in H. destruct (_ || negb (presentable_token _)) eqn:E; [by injection H as <- <-|].
  rewrite !orb_false_iff in E. destruct E as [[[[E _] _] _] _]. apply negb_false_iff, bool_decide_eq_true in E.
  assert (Hacc : ∀ m, introspectAccess s input = Some m → m w = (w', inl r) →
    ∃ h row user client grant family, access_snapshot (w_db w) h row user client grant family ∧
      alive (w_db w) (IntrospectionInput_Now input) row user client grant family ∧
      cl_ID client = Client_ID (IntrospectionInput_Client input) ∧ w_db w' = w_db w).
  { intros m Hm Hr. unfold introspectAccess in Hm. destruct (verifyAccessToken _ _ _) as [claims|]; [|done]. injection Hm as <-.
    apply found_or_inactive_inl in Hr as [->|(a & Ha & ->)]; [done|].
    apply access_read in Ha as (row & user & client & grant & family & Hs & -> & Hdb).
    destruct (accessIntrospection_alive _ _ _ _ _ _ _ _ _ Hs Hact). by exists (HashJTI (Claim_JWTID claims)), row, user, client, grant, family. }
  assert (Href : ∀ m, introspectRefresh s input = Some m → m w = (w', inl r) →
    ∃ h row family user client grant, refresh_snapshot (w_db w) h row family user client grant ∧
      refresh_alive (IntrospectionInput_Now input) row family user client grant ∧
      cl_ID client = Client_ID (IntrospectionInput_Client input) ∧ w_db w' = w_db w).
  { intros m Hm Hr. unfold introspectRefresh in Hm. destruct (DigestPresentedRefreshToken _) as [h|]; [|done]. injection Hm as <-.
    apply found_or_inactive_inl in Hr as [->|(a & Ha & ->)]; [done|].
    apply refresh_read in Ha as (row & family & user & client & grant & Hs & -> & Hdb).
    destruct (refreshIntrospection_alive _ _ _ _ _ _ _ _ Hact). by exists h, row, family, user, client, grant. }
  split; [done|]. unfold first_found in H.
  destruct (IntrospectionInput_Hint input == "refresh_token"), (introspectAccess s input) as [ma|], (introspectRefresh s input) as [mr|];
    try (by injection H as <- <-); first [specialize (Hacc _ eq_refl H)|specialize (Href _ eq_refl H)]; naive_solver.
Qed.
End reads.

(** ** Witnesses *)

Lemma demo_userinfo_runs :
  succeeds (UserInfoForAccessToken demo_service (Response_AccessToken demo_response) (t0 + Time.Minute)) (world_of exchanged_db 9) = true.
Proof. by vm_compute. Qed.

Lemma userinfo_living_authority_witness :
  ∃ info row user client grant family, alive (w_db (world_of exchanged_db 9)) (t0 + Time.Minute) row user client grant family ∧
    UserInfo_Subject info = u_Subject user.
Proof.
  destruct (succeeds_run _ _ demo_userinfo_runs) as (w' & info & Hrun).
  destruct (userinfo_living_authority _ _ _ _ _ _ Hrun) as (claims & row & user & client & grant & family & _ & _ & Ha & _ & Hsub & _).
  exists info, row, user, client, grant, family. exact (conj Ha Hsub).
Defined.

(** The same installation with the client registered as confidential. *)
Definition confidential_client : OidcClientRow :=
  mkOidcClientRow 2 "ois_cli_QUJDREVGR0hJSktMTU5PUFFSU1RVVldYWVo" "confidential" "client_secret_basic" "App" "" None "active" true t0 t0 1.
Definition confidential_db : DB :=
  with_oidc_clients {[ 2%N := confidential_client ]} exchanged_db.
Definition demo_introspection : IntrospectionInput :=
  mkIntrospectionInput (client_of confidential_db confidential_client) (Response_AccessToken demo_response) "" (t0 + Time.Minute).

Definition answers_active (m : Tx IntrospectionResponse) (w : World) : bool :=
  match (m w).2 with inl r => IR_Active r | inr _ => false end.
Lemma answers_active_run m w : answers_active m w = true → ∃ w' r, m w = (w', inl r) ∧ IR_Active r = true.
Proof. unfold answers_active. destruct (m w) as [w' [r|e]]; [by eauto|done]. Qed.

Lemma demo_introspection_active :
  answers_active (Introspect demo_service demo_introspection) (world_of confidential_db 9) = true.
Proof. by vm_compute. Qed.

Lemma introspection_living_authority_witness :
  Client_Type (IntrospectionInput_Client demo_introspection) = TypeConfidential.
Proof.
  destruct (answers_active_run _ _ demo_introspection_active) as (w' & r & Hrun & Hact).
  exact (proj1 (introspection_living_authority _ _ _ _ _ Hrun Hact)).
Defined.

(** ** Minted tokens *)
(** ** Configuration *)

Record service_ok (s : Service) : Prop := {
  so_id : Time.Minute <= Service_idTokenTTL s <= 15 * Time.Minute;
  so_access : Time.Minute <= Service_accessTokenTTL s <= 30 * Time.Minute;
  so_skew : 0 <= Service_clockSkew s <= 2 * Time.Minute;
  so_rolling : Time.Hour <= Service_refreshTokenTTL s <= 30 * 24 * Time.Hour;
  so_absolute : 24 * Time.Hour <= Service_refreshAbsoluteTTL s <= 365 * 24 * Time.Hour;
  so_order : Service_refreshTokenTTL s <= Service_refreshAbsoluteTTL s }.

(** A list of [WithRefreshLifetimes] options. *)
Definition lifetime_options (lifetimes : list (duration * duration)) : list (Service → option Service) :=
  (λ l, WithRefreshLifetimes l.1 l.2) <$> lifetimes.

Lemma WithRefreshLifetimes_ok rolling absolute s s' :
  service_ok s → WithRefreshLifetimes rolling absolute s = Some s' → service_ok s'.
Proof.
  intros Hs. unfold WithRefreshLifetimes. destruct (RefreshDeadlines _ _ _) as [[x y]|] eqn:E; [|done]. intros [= <-].
  unfold RefreshDeadlines, maxRefreshRolling, maxRefreshAbsolute in E. destruct (_ || _) eqn:Eb; [done|]. clear E.
  rewrite !orb_false_iff in Eb. destruct Eb as [[[[[_ E1] E2] E3] E4] E5]. go_bools. destruct Hs. by split.
Qed.

Lemma options_none {A} (options : list (A → option A)) : foldl (λ s option, s ≫= option) None options = None.
Proof. by induction options. Qed.

Lemma NewService_ok issuer idTTL accessTTL skew lifetimes s :
  NewService issuer idTTL accessTTL skew (lifetime_options lifetimes) = Some s → service_ok s.
Proof.
  unfold NewService. destruct (_ || (2 * Time.Minute <? skew)) eqn:E; [done|]. rewrite !orb_false_iff in E.
  set (s0 := mkService _ _ _ _ _ _ _). assert (service_ok s0) as Hs0 by (go_bools; by split).
  clearbody s0. clear E. revert s0 Hs0. induction lifetimes as [|l lifetimes IH]; intros s0 Hs0; simpl; [by intros [= <-]|].
  destruct (WithRefreshLifetimes l.1 l.2 s0) as [s1|] eqn:E1; [|by rewrite options_none].
  apply IH. by eapply WithRefreshLifetimes_ok.
Qed.

(** ** What a successful mint did *)

Section mint.
Context {P : Platform} {PL : PlatformLaws P} {C : TokenCodec} {CL : TokenCodecLaws C} (s : Service) (Hs : service_ok s).

Lemma sign_with_inl payload typ e1 e2 r r' t :
  sign_with payload typ e1 e2 r = (r', inl t) → ∃ p, payload = Some p ∧ Sign p typ = Some t ∧ r' = r.
Proof.
  unfold sign_with. destruct payload as [p|]; [|done]. destruct (Sign p typ) as [t'|] eqn:E; [|done].
  intros [= <- <-]. by exists p.
Qed.

Lemma Sign_nonempty p typ t : Sign p typ = Some t → t ≠ "".
Proof. intros H ->. by apply sign_compact in H as [_ H]. Qed.

Lemma NewRandomFromReader_inl e r r' i : NewRandomFromReader e r = (r', inl i) → i ≠ uuid_Nil.
Proof.
  intros H. unfold NewRandomFromReader in H. apply Rnd_bind_inl in H as (r1 & b & _ & H). injection H as <- <-.
  apply uuid_v4_not_Nil.
Qed.

Lemma GenerateRefreshToken_inl r r' t h :
  GenerateRefreshToken r = (r', inl (t, h)) → DigestPresentedRefreshToken t = Some h ∧ t ≠ "" ∧ len h = 32.
Proof.
  intros H. unfold GenerateRefreshToken in H. apply Rnd_bind_inl in H as (r1 & raw & Hr & H). injection H as <- <- <-.
  apply ReadFull_inl in Hr as (Hl & _ & ->). split_and!; [|done|apply Sha256.Sum256_length].
  apply DigestPresentedRefreshToken_Some. eexists. split; [|by split]. unfold len. by rewrite str_take_length.
Qed.

Lemma newJTI_inl r r' jti : newJTI r = (r', inl jti) → validJTI jti = true ∧ every (λ c, (N_of_ascii c <? 128)%N) jti = true.
Proof.
  intros H. unfold newJTI in H. apply Rnd_bind_inl in H as (r1 & raw & Hr & H). injection H as <- <-.
  apply ReadFull_inl in Hr as (Hl & _ & ->). unfold validJTI, HasPrefix.
  rewrite prefix_app, TrimPrefix_app, Base64.DecodeString_Encode. split.
  - apply bool_decide_eq_true. unfold len. by rewrite str_take_length.
  - rewrite every_app. apply andb_true_iff. split; [done|]. apply Base64.Encode_every, (bool_decide_unpack _). by vm_compute.
Qed.

Lemma mintInitialRefresh_inl a issuedAt r r' i :
  mintInitialRefresh s a issuedAt r = (r', inl i) →
  InitialRefresh_FamilyID i ≠ uuid_Nil ∧ InitialRefresh_TokenID i ≠ uuid_Nil ∧
  len (InitialRefresh_TokenHash i) = 32 ∧ InitialRefresh_ClearToken i ≠ "" ∧
  DigestPresentedRefreshToken (InitialRefresh_ClearToken i) = Some (InitialRefresh_TokenHash i) ∧
  InitialRefresh_ExpiresAt i = issuedAt + Service_refreshTokenTTL s ∧
  InitialRefresh_AbsoluteExpiresAt i = issuedAt + Service_refreshAbsoluteTTL s.
Proof.
  intros H. unfold mintInitialRefresh in H. apply Rnd_bind_inl in H as (r1 & [] & _ & H).
  apply Rnd_bind_inl in H as (r2 & [t h] & (Hd & Ht & Hh)%GenerateRefreshToken_inl & H).
  apply Rnd_bind_inl in H as (r3 & f & Hf%NewRandomFromReader_inl & H).
  apply Rnd_bind_inl in H as (r4 & g & Hg%NewRandomFromReader_inl & H).
  destruct (RefreshDeadlines _ _ _) as [[x y]|] eqn:E; [|done]. injection H as <- <-. simpl.
  unfold RefreshDeadlines in E. destruct (_ || _); [done|]. destruct Hs. time_unfold.
  destruct (Z.ltb_spec (issuedAt + Service_refreshAbsoluteTTL s) (issuedAt + Service_refreshTokenTTL s)); [lia|].
  injection E as <- <-. by split_and!.
Qed.

(** The tokens of a successful mint: their identifiers, their signed claims and their
    lifetimes. *)
Record minted_by (a : Authority) (m : Minted) (scopes : list string) (jti : string) (payload : bytes) : Prop := {
  mb_scopes : CanonicalScopes (Authority_Scopes a) = Some scopes;
  mb_id : Minted_AccessTokenID m ≠ uuid_Nil;
  mb_jti : validJTI jti = true ∧ every (λ c, (N_of_ascii c <? 128)%N) jti = true;
  mb_hash : Minted_JTIHash m = HashJTI jti;
  mb_claims : Marshal_AccessTokenClaims (accessClaims s (Authority_User a) (Authority_Client a) scopes (Authority_IssuedAt a)
                (Authority_IssuedAt a + Service_accessTokenTTL s) jti) = Some payload;
  mb_access : Sign payload "at+jwt" = Some (Minted_AccessToken m);
  mb_idtoken : ∃ p, Sign p "JWT" = Some (Minted_IDToken m);
  mb_times : Minted_IssuedAt m = Authority_IssuedAt a ∧
    Minted_AccessExpiresAt m = Authority_IssuedAt a + Service_accessTokenTTL s ∧
    Minted_IDExpiresAt m = Authority_IssuedAt a + Service_idTokenTTL s;
  mb_refresh : match Minted_InitialRefresh m with
               | Some i => "offline_access" ∈ scopes ∧ ∃ r r', mintInitialRefresh s a (Authority_IssuedAt a) r = (r', inl i)
               | None => "offline_access" ∉ scopes
               end }.

Lemma mint_inl a r r' m : mint s a r = (r', inl m) → ∃ scopes jti payload, minted_by a m scopes jti payload.
Proof.
  intros H. unfold mint in H. destruct (CanonicalScopes _) as [scopes|] eqn:Ec; [|done].
  apply Rnd_bind_inl in H as (r1 & [] & _ & H).
  apply Rnd_bind_inl in H as (r2 & jti & Hj%newJTI_inl & H).
  apply Rnd_bind_inl in H as (r3 & i & Hi%NewRandomFromReader_inl & H).
  apply Rnd_bind_inl in H as (r4 & it & (p & _ & Hp & _)%sign_with_inl & H).
  apply Rnd_bind_inl in H as (r5 & at_ & (p' & Hm & Hp' & _)%sign_with_inl & H).
  apply Rnd_bind_inl in H as (r6 & init & Hinit & H). injection H as <- <-.
  exists scopes, jti, p'. split; try done; simpl; [by exists p|].
  case_bool_decide as Ho.
  - apply Rnd_bind_inl in Hinit as (r7 & i7 & Hi7 & H). injection H as <- <-. split; [done|by exists r5, r7].
  - by injection Hinit as <- <-.
Qed.
End mint.

(** ** The store accepts what the service mints *)

(** A guard of which every test is false lets the code through. *)
Lemma guard_passes {A} (b : bool) (x y : A) : b = false → (if b then x else y) = y.
Proof. by intros ->. Qed.

Ltac guard_tests :=
  time_unfold; unfold Time.Hour, Time.Minute, Time.Second in *; rewrite ?orb_false_iff; split_and!; rewrite ?negb_false_iff, ?bool_decide_eq_true, ?bool_decide_eq_false, ?Z.ltb_lt, ?Z.ltb_ge,
    ?Z.eqb_eq; first [done | lia].

Section accepted.
Context {P : Platform} {PL : PlatformLaws P} {C : TokenCodec} {CL : TokenCodecLaws C}.

Lemma mint_valid s a r r' m :
  service_ok s → mint s a r = (r', inl m) →
  validMintedTokens m (Authority_IssuedAt a) (bool_decide ("offline_access" ∈ Authority_Scopes a)) = true.
Proof.
  intros Hs Hm. destruct (mint_inl s a r r' m Hm) as (scopes & jti & payload & [Hsc Hid _ Hh _ Hacc [p Hit] (Ht1 & Ht2 & Ht3) Hr]).
  apply Sign_nonempty in Hacc, Hit. pose proof Hs as [Hs1 Hs2 _ Hs4 Hs5 Hs6].
  pose proof (Sha256.Sum256_length _ : len (HashJTI jti) = 32) as Hjh. unfold validMintedTokens.
  rewrite guard_passes by (rewrite Ht1, Ht2, Ht3, Hh; guard_tests).
  rewrite <- (bool_decide_ext _ _ (CanonicalScopes_elem _ _ "offline_access" Hsc)).
  destruct (Minted_InitialRefresh m) as [i|]; [|by rewrite bool_decide_eq_false_2].
  destruct Hr as (Ho & r1 & r2 & Hi). rewrite (bool_decide_eq_true_2 _ Ho). cbn [negb].
  destruct (mintInitialRefresh_inl s Hs _ _ _ _ _ Hi) as (H1 & H2 & H3 & H4 & H5 & H6 & H7).
  rewrite guard_passes by (rewrite H6, H7, Ht1; guard_tests). by apply bool_decide_eq_true.
Qed.

(** The store accepts everything an exchange mints.  With a configuration the service's
    constructor accepts, every successful [mint] passes the store's [validMintedTokens]
    for the authority's own time and scopes: the identifiers are set, the tokens are not
    empty, the lifetimes are inside the store's bounds, and there is a refresh family
    exactly for offline_access, with a token the refresh endpoint recognises. *)
Theorem mint_accepted issuer idTTL accessTTL skew lifetimes s a r r' m :
  NewService issuer idTTL accessTTL skew (lifetime_options lifetimes) = Some s →
  mint s a r = (r', inl m) →
  validMintedTokens m (Authority_IssuedAt a) (bool_decide ("offline_access" ∈ Authority_Scopes a)) = true.
Proof. intros Hs%NewService_ok. by apply mint_valid. Qed.

(** The store accepts everything a rotation mints.  With an accepted configuration
    every successful [mintRefresh] passes the store's [validRefreshMinted], unless the
    fresh identifier equals the presented one or the generation counter is exhausted. *)
Theorem mint_refresh_accepted issuer idTTL accessTTL skew lifetimes s a r r' m :
  NewService issuer idTTL accessTTL skew (lifetime_options lifetimes) = Some s →
  mintRefresh s a r = (r', inl m) →
  RefreshMinted_ReplacementTokenID m ≠ RefreshGeneration_ID (RA_Presented a) →
  RefreshGeneration_Generation (RA_Presented a) ≠ 2 ^ 63 - 1 →
  validRefreshMinted m (RA_Presented a) (RA_Family a) (RA_IssuedAt a) = true.
Proof.
  intros [_ Hs _ Hsr _ _]%NewService_ok H Hne Hgen. unfold mintRefresh in H. destruct (CanonicalScopes _) as [scopes|]; [|done].
  apply Rnd_bind_inl in H as (r1 & [] & _ & H).
  apply Rnd_bind_inl in H as (r2 & [t h] & (Hd & Ht & Hh)%GenerateRefreshToken_inl & H).
  apply Rnd_bind_inl in H as (r3 & i & Hi%NewRandomFromReader_inl & H).
  destruct (ReplacementRefreshExpiry _ _ _) as [x|] eqn:Ex; [|done].
  apply Rnd_bind_inl in H as (r4 & jti & Hj & H).
  apply Rnd_bind_inl in H as (r5 & j & Hj'%NewRandomFromReader_inl & H).
  apply Rnd_bind_inl in H as (r6 & tok & (p & _ & Hp%Sign_nonempty & _)%sign_with_inl & H). injection H as <- <-.
  apply ReplacementRefreshExpiry_Some in Ex as (_ & _ & Hlt & _ & ->).
  pose proof (Sha256.Sum256_length _ : len (HashJTI jti) = 32) as Hjh.
  unfold validRefreshMinted. cbn -[HashJTI] in *. rewrite guard_passes by guard_tests. by apply bool_decide_eq_true.
Qed.
End accepted.

(** ** A minted access token verifies *)

Lemma wrap64_id n : - 2 ^ 63 <= n < 2 ^ 63 → wrap64 n = n.
Proof. intros H. unfold wrap64. rewrite Z.mod_small; lia. Qed.

Lemma time_Unix_id sec : 0 <= sec < 2 ^ 62 → time_Unix sec = sec * Time.Second.
Proof. intros H. unfold time_Unix. rewrite wrap64_id by lia. lia. Qed.

Lemma NewService_names issuer idTTL accessTTL skew lifetimes s :
  NewService issuer idTTL accessTTL skew (lifetime_options lifetimes) = Some s →
  Service_issuer s = issuer ∧ Service_userinfoAudience s = issuer +:+ "/oauth2/userinfo".
Proof.
  unfold NewService. destruct (_ || (2 * Time.Minute <? skew)); [done|].
  set (s0 := mkService _ _ _ _ _ _ _). assert (Service_issuer s0 = issuer ∧ Service_userinfoAudience s0 = issuer +:+ "/oauth2/userinfo") as Hs0 by done.
  clearbody s0. revert s0 Hs0. induction lifetimes as [|l lifetimes IH]; intros s0 Hs0; simpl; [by intros [= <-]|].
  destruct (WithRefreshLifetimes l.1 l.2 s0) as [s1|] eqn:E1; [|by rewrite options_none]. apply IH.
  unfold WithRefreshLifetimes in E1. destruct (RefreshDeadlines _ _ _); [|done]. by injection E1 as <-.
Qed.

Lemma join_space_ascii scopes : canonical scopes → ascii_string (join_space scopes).
Proof. revert scopes. apply canonical_cases; by vm_compute. Qed.

(** The seconds of the claims, for times after the epoch. *)
Lemma claim_times issuedAt ttl :
  Time.Second <= issuedAt < 2 ^ 90 → Time.Minute <= ttl <= 30 * Time.Minute →
  0 < Time.Unix issuedAt < Time.Unix (issuedAt + ttl) ∧ Time.Unix (issuedAt + ttl) < 2 ^ 62 ∧
  Time.Unix (issuedAt + ttl) - Time.Unix issuedAt <= 1800 ∧ Time.Unix issuedAt * Time.Second <= issuedAt.
Proof.
  unfold Time.Unix, Time.Minute, Time.Second. intros H1 H2.
  pose proof (Z.div_mod issuedAt 1000000000). pose proof (Z.mod_pos_bound issuedAt 1000000000).
  pose proof (Z.div_mod (issuedAt + ttl) 1000000000). pose proof (Z.mod_pos_bound (issuedAt + ttl) 1000000000). lia.
Qed.

Section verifies.
Context {P : Platform} {PL : PlatformLaws P} {C : TokenCodec} {CL : TokenCodecLaws C}.

(** Claims that are inside their window, with the service's names, pass. *)
Lemma accessClaims_ok s user client scopes issuedAt jti now :
  service_ok s → validJTI jti = true → User_Subject user ≠ "" → Client_ClientID client ≠ "" →
  Time.Second <= issuedAt < 2 ^ 90 →
  issuedAt - Service_clockSkew s <= now <= Time.Unix (issuedAt + Service_accessTokenTTL s) * Time.Second + Service_clockSkew s →
  claims_ok s (accessClaims s user client scopes issuedAt (issuedAt + Service_accessTokenTTL s) jti) now = true.
Proof.
  intros [_ Ht _ _ _ _] Hj Hu Hc Hi Hn. destruct (claim_times issuedAt _ Hi Ht) as ([Hp Hlt] & Hb & Hd & Hf).
  unfold claims_ok, accessClaims. cbn [Claim_Issuer Claim_Audience Claim_Subject Claim_ClientID Claim_IssuedAt Claim_ExpiresAt Claim_JWTID].
  rewrite !bool_decide_eq_true_2, (bool_decide_eq_false_2 _ Hu), (bool_decide_eq_false_2 _ Hc), Hj by done.
  rewrite !time_Unix_id by lia. rewrite (wrap64_id (_ - _)) by lia.
  rewrite (wrap64_id (_ * Time.Second)) by (unfold Time.Second in *; lia).
  time_unfold. rewrite !andb_true_iff, !negb_true_iff, !Z.ltb_lt, !Z.ltb_ge. unfold Time.Minute, Time.Second in *. split_and!; lia || done.
Qed.

(** C37: A minted access token verifies.  With an accepted configuration, ASCII names and
    a token that fits the size limit, the access token of a successful mint is verified
    from its issue time to its expiry (to the second, widened by the clock skew), and the
    verified claims are the minted ones: issuer, subject, audience, client, the canonical
    scopes, the times and the identifier whose digest the store keeps. *)
Theorem minted_token_verifies issuer idTTL accessTTL skew lifetimes s a r r' m now :
  NewService issuer idTTL accessTTL skew (lifetime_options lifetimes) = Some s →
  mint s a r = (r', inl m) →
  ascii_string issuer → ascii_string (User_Subject (Authority_User a)) → ascii_string (Client_ClientID (Authority_Client a)) →
  User_Subject (Authority_User a) ≠ "" → Client_ClientID (Authority_Client a) ≠ "" →
  Time.Second <= Authority_IssuedAt a < 2 ^ 90 → len (Minted_AccessToken m) <= maxCompactTokenBytes →
  Minted_IssuedAt m - Service_clockSkew s <= now <= Time.Unix (Minted_AccessExpiresAt m) * Time.Second + Service_clockSkew s →
  ∃ jti scopes, HashJTI jti = Minted_JTIHash m ∧ CanonicalScopes (Authority_Scopes a) = Some scopes ∧
    verifyAccessToken s (Minted_AccessToken m) now =
    Some (mkAccessTokenClaims issuer (User_Subject (Authority_User a)) (issuer +:+ "/oauth2/userinfo")
            (Client_ClientID (Authority_Client a)) (join_space scopes) (Time.Unix (Minted_IssuedAt m))
            (Time.Unix (Minted_AccessExpiresAt m)) jti).
Proof.
  intros HN Hm Hai Has Hac Hu Hc Hi Hl Hnow. pose proof (NewService_ok _ _ _ _ _ _ HN) as Hs.
  destruct (NewService_names _ _ _ _ _ _ HN) as [Hiss Haud].
  destruct (mint_inl s a r r' m Hm) as (scopes & jti & payload & [Hsc _ [Hj Hja] Hh Hcl Hsign _ (Ht1 & Ht2 & _) _]).
  exists jti, scopes. split_and!; [done|done|]. rewrite Ht1, Ht2 in *. pose proof (CanonicalScopes_canonical _ _ Hsc) as Hcan.
  destruct (sign_compact _ _ _ Hsign) as [Htrim Hdots].
  destruct (sign_verifies _ _ _ Hsign) as (kid & key & Hkid & Hparse & Hkey & Hver).
  apply decode_marshal in Hcl as Hdec.
  2: { unfold ascii_claims, accessClaims. cbn. rewrite Hiss, Haud. split_and!; try done; [|by apply join_space_ascii].
       unfold ascii_string in *. by rewrite every_app, Hai. }
  unfold verifyAccessToken. rewrite guard_passes.
  2: { rewrite Htrim, Hdots. rewrite (bool_decide_eq_false_2 _ (Sign_nonempty _ _ _ Hsign)), (proj2 (Z.ltb_ge _ _) Hl). done. }
  rewrite Hparse. unfold header_ok. cbn [Header_KeyID Header_Algorithm Header_JSONWebKey Header_Nonce Header_ExtraHeaders].
  rewrite (bool_decide_eq_false_2 _ Hkid), !bool_decide_eq_true_2 by done. cbn [andb negb]. rewrite Hkey, Hver, Hdec.
  rewrite accessClaims_ok by done. cbn [negb].
  change (Claim_Scope _) with (join_space scopes). rewrite (parseScopeClaim_join _ Hcan). destruct Hcan as (_ & _ & _ & Ho).
  rewrite bool_decide_eq_true_2 by done. unfold accessClaims. time_unfold. by rewrite Hiss, Haud.
Qed.
End verifies.

(** ** Witnesses *)

#[local] Existing Instance demo_platform_laws.

Lemma demo_NewService :
  NewService "https://issuer.example" (5 * Time.Minute) (10 * Time.Minute) (30 * Time.Second) (lifetime_options []) = Some demo_service.
Proof. by vm_compute. Qed.

Definition demo_authority : Authority :=
  mkAuthority 7 6 (Some 4%N) (Some 5%N) (mapUser demo_user) demo_authenticated demo_scopes "nonce" t0 (t0 + 2 * Time.Second).
Definition demo_refresh_authority : RefreshAuthority :=
  mkRefreshAuthority (mkRefreshGeneration 9 8 (hash_of "r") 1 t0 (t0 + Time.Hour) None)
    (mkRefreshFamily 8 None 6 1 2 (Some 4%N) 5 demo_scopes t0 (t0 + 24 * Time.Hour) None "")
    (mkGrant 6 1 2 demo_scopes t0 t0 None 1) (mapUser demo_user) demo_authenticated demo_scopes (t0 + Time.Minute).

Lemma demo_mint_runs : ∃ r' m, mint demo_service demo_authority (byte_run 300) = (r', inl m) ∧
  len (Minted_AccessToken m) <= maxCompactTokenBytes ∧ Minted_IssuedAt m - Service_clockSkew demo_service <= t0 + Time.Minute ∧
  t0 + Time.Minute <= Time.Unix (Minted_AccessExpiresAt m) * Time.Second + Service_clockSkew demo_service.
Proof. do 2 eexists. split; [vm_compute; reflexivity|]. by vm_compute. Qed.

Lemma demo_mint_refresh_runs : ∃ r' m, mintRefresh demo_service demo_refresh_authority (byte_run 300) = (r', inl m) ∧
  RefreshMinted_ReplacementTokenID m ≠ RefreshGeneration_ID (RA_Presented demo_refresh_authority).
Proof. do 2 eexists. split; [vm_compute; reflexivity|]. by vm_compute. Qed.

Lemma demo_ascii_issuer : ascii_string "https://issuer.example".
Proof. by vm_compute. Qed.
Lemma demo_ascii_subject : ascii_string (User_Subject (Authority_User demo_authority)).
Proof. by vm_compute. Qed.
Lemma demo_ascii_client : ascii_string (Client_ClientID (Authority_Client demo_authority)).
Proof. by vm_compute. Qed.
Lemma demo_subject_set : User_Subject (Authority_User demo_authority) ≠ "".
Proof. by vm_compute. Qed.
Lemma demo_client_set : Client_ClientID (Authority_Client demo_authority) ≠ "".
Proof. by vm_compute. Qed.
Lemma demo_time_range : Time.Second <= Authority_IssuedAt demo_authority < 2 ^ 90.
Proof. by vm_compute. Qed.

Lemma mint_accepted_witness : ∃ m,
  validMintedTokens m (Authority_IssuedAt demo_authority) (bool_decide ("offline_access" ∈ Authority_Scopes demo_authority)) = true.
Proof. destruct demo_mint_runs as (r' & m & Hm & _). exists m. exact (mint_accepted _ _ _ _ _ _ _ _ _ _ demo_NewService Hm). Defined.

Lemma mint_refresh_accepted_witness : ∃ m,
  validRefreshMinted m (RA_Presented demo_refresh_authority) (RA_Family demo_refresh_authority) (RA_IssuedAt demo_refresh_authority) = true.
Proof.
  destruct demo_mint_refresh_runs as (r' & m & Hm & Hne). exists m.
  exact (mint_refresh_accepted _ _ _ _ _ _ _ _ _ _ demo_NewService Hm Hne ltac:(done)).
Defined.

Lemma minted_token_verifies_witness : ∃ m claims, verifyAccessToken demo_service (Minted_AccessToken m) (t0 + Time.Minute) = Some claims.
Proof.
  destruct demo_mint_runs as (r' & m & Hm & Hl & Hlo & Hhi). exists m.
  destruct (minted_token_verifies _ _ _ _ _ _ _ _ _ _ (t0 + Time.Minute) demo_NewService Hm demo_ascii_issuer demo_ascii_subject
    demo_ascii_client demo_subject_set demo_client_set demo_time_range Hl (conj Hlo Hhi)) as (jti & scopes & _ & _ & H).
  eexists. exact H.
Defined.
