(* ===== verification/AuthorizationTheorems.v ===== *)
(** * Issuing codes: the theorems

    [IssueAuthorizationCode] refines its specification, the consent grant only grows by
    what the user approved, what was issued can be exchanged, and the consent screen
    ([Evaluate]) agrees with the commit. *)

From S2P Require Import Prelude Errors Platform Scopes Domain Opaque AuditEvents Database Queries Tx StoreCommon.
From S2P Require Import AuthorizationStore TokenStore ConsentStore Invariants StatementFacts ExchangeProofs Writes Lifecycle.
From S2P Require Import Quiet IssueProofs TokenService AuthorizationService Demo CredentialTheorems.
Import Authorization.
Section theorems.
Context {P : Platform}.

Definition issue_spec (commit : IssueCommit) (db : DB) (grant : Grant) (db' : DB) : Prop :=
  ∃ tx user client requested g db1 audits,
    issuable db commit tx user client requested ∧
    consent_applied commit (client_of db client) requested db g db1 ∧
    authorization_codes db !! IssueCommit_CodeID commit = None ∧
    authorization_codes_check (issued_code commit tx client requested g) = true ∧
    db' = with_audit_events audits (issue_effect commit tx (issued_code commit tx client requested g) db1) ∧
    Grant_ID grant = g_ID g ∧ Grant_Version grant = g_Version g.

Lemma issue_committed commit db grant db' :
  db_ok db → committed (issueAuthorizationCode_tx commit) db grant db' → issue_spec commit db grant db'.
Proof. intros Hok (w & w' & <- & Hrun & <-). by apply issue_inv in Hrun. Qed.

Lemma issue_outcome commit w w' r :
  db_ok (w_db w) → IssueAuthorizationCode commit w = (w', r) →
  match r with
  | inl grant => validateIssueCommit commit = true ∧ issue_spec commit (w_db w) grant (w_db w')
  | inr e => w_db w' = w_db w ∨
             ((∃ d, e = wrapError "commit transaction" ErrorKindQuery d) ∧ ∃ grant, issue_spec commit (w_db w) grant (w_db w'))
  end.
Proof.
  intros Hok. unfold IssueAuthorizationCode, mbind, Tx_bind, reject_if.
  destruct (validateIssueCommit commit); simpl; [|intros [= <- <-]; by left].
  unfold mret, Tx_ret. destruct (inTx _ w) as [w1 [g|e]] eqn:E; apply inTx_attempts_cases in E; intros [= <- <-].
  - split; [done|]. by apply issue_committed.
  - destruct E as [E|[[g E] Hd]]; [by left|right]. split; [done|]. exists g. by apply issue_committed.
Qed.

(** The issue transaction refines its specification.  A grant is returned only
    for a run of [issue_spec]: the locked browser transaction is live and equal to the
    one the request validated, the user and the client are active, the redirect URI and
    the scopes are still registered, the consent decision of [consent_applied] was
    taken, the stored code binds all of it together with the version of the grant in
    force, and the transaction row is consumed.  An error leaves the tables unchanged
    unless the commit was ambiguous. *)
Theorem issue_refines commit w w' r :
  db_ok (w_db w) → IssueAuthorizationCode commit w = (w', r) →
  match r with
  | inl grant => validateIssueCommit commit = true ∧ issue_spec commit (w_db w) grant (w_db w')
  | inr e => w_db w' = w_db w ∨
             ((∃ d, e = wrapError "commit transaction" ErrorKindQuery d) ∧ ∃ grant, issue_spec commit (w_db w) grant (w_db w'))
  end.
Proof. apply issue_outcome. Qed.

(** ** Consent *)

(** The decision stores the grant it returns under its id, alive, for the owner, and
    with nothing beyond the request and what was live before. *)
Lemma consent_applied_spec commit client requested db g db' :
  db_ok db → canonical requested → consent_applied commit client requested db g db' →
  consent_grants db' !! g_ID g = Some g ∧ g_UserID g = IssueCommit_UserID commit ∧ g_ClientID g = Client_ID client ∧
  g_RevokedAt g = None ∧ (∀ s, s ∈ requested → s ∈ g_Scopes g) ∧
  (∀ s, s ∈ g_Scopes g → s ∈ requested ∨ ∃ old, consent_grants db !! g_ID g = Some old ∧ g_RevokedAt old = None ∧ s ∈ g_Scopes old) ∧
  (IssueCommit_InteractiveConsent commit = false → consent_grants db' = consent_grants db) ∧
  (consent_grants db' = consent_grants db ∨ ∀ old, consent_grants db !! g_ID g = Some old → g_Version g = g_Version old + 1).
Proof.
  intros Hok (_ & _ & Hsup & _) H. rewrite Forall_forall in Hsup.
  destruct H as [g Hi _ Hnew ->|old g Hi Hf _ ->|g Hf Hr Hcov Hcl|old g Hi Hf Hr _ ->]; simpl.
  - rewrite lookup_insert_eq. split_and!; try done; [by left|congruence|right; congruence].
  - destruct (grant_by_owner _ _ _ _ Hok Hf) as (Hk & Hu & Hc).
    rewrite lookup_insert_eq. split_and!; try done; [by left|congruence|right; congruence].
  - destruct (grant_by_owner _ _ _ _ Hok Hf) as (Hk & Hu & Hc). split_and!; try done; [by eauto|by left].
  - destruct (grant_by_owner _ _ _ _ Hok Hf) as (Hk & Hu & Hc).
    rewrite lookup_insert_eq. split_and!; try done; [| |congruence|right; congruence].
    + intros s Hs. apply elem_of_Union. split; [by apply Is_true_true, Hsup|by right].
    + intros s [_ [Hs|Hs]]%elem_of_Union; [right; by eauto|by left].
Qed.

(** Consent is never widened behind the user's back.  When a code is issued, the
    (user, client) pair has one unrevoked grant covering every requested scope; each of
    its scopes was requested now or was already granted and unrevoked; without
    interactive consent no grant changes at all; and a grant that does change moves to
    the next version, which invalidates the codes bound to the old one. *)
Theorem consent_never_silent commit w w' grant :
  db_ok (w_db w) → IssueAuthorizationCode commit w = (w', inl grant) →
  ∃ g requested clientID,
    consent_grants (w_db w') !! g_ID g = Some g ∧ g_UserID g = IssueCommit_UserID commit ∧ g_ClientID g = clientID ∧
    Transaction_ClientID (IssueCommit_Transaction commit) = Some clientID ∧
    CanonicalScopes (Transaction_Scopes (IssueCommit_Transaction commit)) = Some requested ∧
    g_RevokedAt g = None ∧ (∀ s, s ∈ requested → s ∈ g_Scopes g) ∧
    (∀ s, s ∈ g_Scopes g → s ∈ requested ∨
       ∃ old, consent_grants (w_db w) !! g_ID g = Some old ∧ g_RevokedAt old = None ∧ s ∈ g_Scopes old) ∧
    (IssueCommit_InteractiveConsent commit = false → consent_grants (w_db w') = consent_grants (w_db w)) ∧
    (consent_grants (w_db w') = consent_grants (w_db w) ∨
     ∀ old, consent_grants (w_db w) !! g_ID g = Some old → g_Version g = g_Version old + 1).
Proof.
  intros Hok H. apply issue_outcome in H as [_ (tx & user & client & requested & g & db1 & audits & His & Hc & _ & _ & -> & _)]; [|done].
  pose proof (CanonicalScopes_canonical _ _ (is_scopes _ _ _ _ _ _ His)) as Hcan.
  destruct (consent_applied_spec _ _ _ _ _ _ Hok Hcan Hc) as (H1 & H2 & H3 & H4 & H5 & H6 & H7 & H8).
  destruct (is_bound _ _ _ _ _ _ His) as (_ & _ & Hcid & _ & Hsc & _ & _).
  destruct (is_client _ _ _ _ _ _ His) as (cid & Hcid' & Hrow). pose proof (ok_clients_key _ Hok _ _ Hrow) as Hkey.
  exists g, requested, cid. simpl in *. rewrite <- Hsc, <- Hcid. split_and!; try done; [congruence|apply His].
Qed.

(** ** What was issued can be exchanged *)

(** Issue and exchange agree.  Right after a code was issued, whoever presents
    its digest as the client the transaction names, with the transaction's redirect URI
    and a verifier of its challenge, before the code expires, holds everything the
    exchange requires. *)
Theorem issued_exchangeable commit w w' grant input :
  db_ok (w_db w) → IssueAuthorizationCode commit w = (w', inl grant) →
  ExchangeInput_CodeHash input = IssueCommit_CodeHash commit →
  Some (Client_ID (ExchangeInput_Client input)) = Transaction_ClientID (IssueCommit_Transaction commit) →
  (∀ row, oidc_clients (w_db w) !! Client_ID (ExchangeInput_Client input) = Some row →
     sameAuthenticatedClient (client_of (w_db w) row) (ExchangeInput_Client input) = true) →
  ExchangeInput_RedirectURI input = Transaction_RedirectURI (IssueCommit_Transaction commit) →
  VerifyS256 (ExchangeInput_CodeVerifier input) (Transaction_PKCEChallenge (IssueCommit_Transaction commit)) = true →
  ExchangeInput_Now input < timestamp (IssueCommit_ExpiresAt commit) →
  ∃ code user client g scopes, exchangeable (w_db w') input code user client g scopes.
Proof.
  intros Hok H Hh Hcl Hauth Hred Hpkce Hnow.
  assert (Hok' : db_ok (w_db w')) by (by eapply (run_ok (OpIssue commit)); [|exact H|]).
  apply issue_outcome in H as [_ (tx & user & client & requested & g & db1 & audits & His & Hc & _ & _ & Hdb & _)]; [|done].
  pose proof (CanonicalScopes_canonical _ _ (is_scopes _ _ _ _ _ _ His)) as Hcan.
  destruct (consent_applied_spec _ _ _ _ _ _ Hok Hcan Hc) as (H1 & H2 & H3 & H4 & H5 & _ & _ & _).
  destruct (consent_applied_frame _ _ _ _ _ _ Hc) as (Hfr & _ & _).
  destruct His as [_ _ _ _ (_ & _ & Hcid & Hr & Hsc & Hp & _) [Hu Hus] (cid & Hcid' & Hrow) _ Hreg Hs Hss].
  pose proof (ok_clients_key _ Hok _ _ Hrow) as Hkey. simpl in Hkey, H3.
  assert (cid = Client_ID (ExchangeInput_Client input)) as -> by congruence.
  set (code := issued_code commit tx client requested g) in *.
  assert (Hcode : authorization_codes (w_db w') !! code_ID code = Some code) by (rewrite Hdb; simpl; by rewrite lookup_insert_eq).
  assert (Hgrant : consent_grants (w_db w') !! g_ID g = Some g) by (by rewrite Hdb).
  assert (Hsame : ∃ audits grants codes txs, w_db w' = with_audit_events audits (with_auth_transactions txs
    (with_authorization_codes codes (with_consent_grants grants (w_db w))))).
  { rewrite Hdb, Hfr. unfold issue_effect. simpl. by do 4 eexists. }
  destruct Hsame as (? & ? & ? & ? & Hsame).
  exists code, user, client, g, requested. split; try done; try (rewrite Hsame; simpl; done).
  - eapply find_row_unique; [exact Hcode|by apply bool_decide_eq_true|]. intros k' r' Hk' Hh'. apply bool_decide_eq_true in Hh'.
    assert (code_ID code = k') as <-; [|congruence]. apply (ok_codes_unique _ Hok' _ _ code r' Hcode Hk').
    unfold same_code_hash. apply bool_decide_eq_true. simpl. congruence.
  - simpl. congruence.
  - simpl. split; [done|]. by rewrite Hp.
  - rewrite Hsame. simpl. by rewrite Hkey.
  - rewrite Hsame. by apply Hauth.
  - simpl. by apply canonical_CanonicalScopes.
  - eapply find_row_unique; [exact Hgrant|unfold grant_of; simpl; rewrite H2, H3; by rewrite !bool_decide_eq_true_2 by done|].
    intros k' r' Hk' Ho. unfold grant_of in Ho. simpl in Ho. go_bools. assert (g_ID g = k') as <-; [|congruence].
    apply (ok_grants_unique _ Hok' _ _ g r' Hgrant Hk'). unfold same_grant_owner.
    by rewrite !bool_decide_eq_true_2 by congruence.
Qed.
End theorems.

(** ** Witnesses *)

Lemma issue_refines_witness :
  ∃ w' grant, IssueAuthorizationCode demo_commit (world_of demo_db 0) = (w', inl grant) ∧
  issue_spec demo_commit (w_db (world_of demo_db 0)) grant (w_db w').
Proof.
  destruct (succeeds_run _ _ demo_commit_succeeds) as (w' & grant & E). exists w', grant. split; [exact E|].
  exact (proj2 (issue_refines _ _ _ _ (world_ok _ _ demo_db_ok) E)).
Defined.

Lemma consent_never_silent_witness :
  ∃ w' grant g, IssueAuthorizationCode demo_commit (world_of demo_db 0) = (w', inl grant) ∧
  consent_grants (w_db w') !! g_ID g = Some g ∧ g_RevokedAt g = None.
Proof.
  destruct (succeeds_run _ _ demo_commit_succeeds) as (w' & grant & E).
  destruct (consent_never_silent _ _ _ _ (world_ok _ _ demo_db_ok) E) as (g & _ & _ & Hg & _ & _ & _ & _ & Hr & _).
  exists w', grant, g. split; [exact E|]. split; [exact Hg|exact Hr].
Defined.

Lemma issued_exchangeable_witness :
  ∃ w' grant code user client g scopes, IssueAuthorizationCode demo_commit (world_of demo_db 0) = (w', inl grant) ∧
  exchangeable (w_db w') demo_exchange code user client g scopes.
Proof.
  destruct (succeeds_run _ _ demo_commit_succeeds) as (w' & grant & E).
  destruct (issued_exchangeable demo_commit (world_of demo_db 0) w' grant demo_exchange (world_ok _ _ demo_db_ok) E)
    as (code & user & client & g & scopes & Hex).
  - reflexivity.
  - vm_compute; reflexivity.
  - intros row Hrow. vm_compute in Hrow. injection Hrow as <-. vm_compute. reflexivity.
  - reflexivity.
  - vm_compute. reflexivity.
  - vm_compute. reflexivity.
  - exists w', grant, code, user, client, g, scopes. split; [exact E|exact Hex].
Defined.

(** ** Consent and audit events *)
Section theorems.
Context {P : Platform}.

(** The scopes a user granted a client and has not revoked. *)
Definition granted_scopes (db : DB) (userID clientID : uuid) : gset string :=
  match find_row (grant_of userID clientID) (consent_grants db) with
  | Some g => if bool_decide (is_Some (g_RevokedAt g)) then ∅ else set_of (g_Scopes g)
  | None => ∅
  end.

(** The read finds the row of the pair; only a driver fault can hide it. *)
Lemma GetConsentGrant_cases userID clientID w w' found :
  not_found_none consent_ErrNotFound (GetConsentGrant userID clientID) w = (w', inl found) →
  w_db w' = w_db w ∧
  match found with
  | Some g => ∃ row, find_row (grant_of userID clientID) (consent_grants (w_db w)) = Some row ∧ g = mapConsentGrant row
  | None => quiet w → find_row (grant_of userID clientID) (consent_grants (w_db w)) = None
  end.
Proof.
  unfold not_found_none. destruct (GetConsentGrant userID clientID w) as [w1 [g|e]] eqn:E.
  - intros [= <- <-]. unfold GetConsentGrant in E. repeat tx_step E. split; [done|by eexists].
  - destruct (bool_decide (e = consent_ErrNotFound)) eqn:Ee; [|done]. intros [= <- <-]. apply bool_decide_eq_true in Ee as ->.
    unfold GetConsentGrant, query_row, mbind, Tx_bind in E.
    destruct (query_opt _ _ w) as [w2 [[row|]|e2]] eqn:Eq; [done| |].
    + injection E as <-. apply query_opt_inl in Eq as [(? & ? & ? & _)|(_ & -> & Hn)]; [done|]. split; [done|].
      intros Hq. unfold GetConsentGrantByUserClient, select_one in Hn. by destruct (find_row _ _).
    + injection E as <- ->. unfold query_opt in Eq. destruct (statement _ w) as [w3 [row|[]]]; discriminate Eq.
Qed.

(** What [evaluateGrant] answers for a row. *)
Lemma evaluateGrant_inl userID client requested row w w' ev :
  canonical requested → (∀ x, x ∈ requested → x ∈ Client_Scopes client) →
  evaluateGrant userID client requested (mapConsentGrant row) w = (w', inl ev) →
  let granted := if bool_decide (is_Some (g_RevokedAt row)) then ∅ else set_of (g_Scopes row) in
  w_db w' = w_db w ∧ set_of (Evaluation_NewScopes ev) = set_of requested ∖ granted ∧
  set_of (Evaluation_AlreadyGranted ev) = set_of requested ∩ granted ∧
  (Evaluation_Covers ev = true ↔ set_of requested ⊆ granted).
Proof.
  intros (_ & _ & Hsup & _) Hcl H. unfold evaluateGrant in H. tx_step H.
  change (Grant_Scopes (mapConsentGrant row)) with (g_Scopes row) in H.
  change (Grant_RevokedAt (mapConsentGrant row)) with (g_RevokedAt row) in H.
  destruct (CanonicalScopes (g_Scopes row)) as [scopes|] eqn:Ec; tx_step H. cbn.
  set (effective := if bool_decide (is_Some (g_RevokedAt row)) then [] else Intersection scopes (Client_Scopes client)).
  assert (Hsup' : ∀ x, x ∈ requested → supported x = true).
  { intros x Hx. rewrite Forall_forall in Hsup. by apply Is_true_true, Hsup. }
  assert (Heff : ∀ x, x ∈ requested → x ∈ effective ↔ x ∈ (if bool_decide (is_Some (g_RevokedAt row)) then ∅ else set_of (g_Scopes row) : gset string)).
  { intros x Hx. unfold effective. destruct (bool_decide (is_Some (g_RevokedAt row))); [set_solver|].
    rewrite elem_of_Intersection, elem_of_set_of, (CanonicalScopes_elem _ _ x Ec). naive_solver. }
  split_and!; [done|..].
  - apply set_eq. intros x. rewrite elem_of_difference, !elem_of_set_of, elem_of_Difference. naive_solver.
  - apply set_eq. intros x. rewrite elem_of_intersection, !elem_of_set_of, elem_of_Intersection. naive_solver.
  - rewrite bool_decide_eq_true, Difference_nil by done. rewrite elem_of_subseteq. setoid_rewrite elem_of_set_of at 1. naive_solver.
Qed.

(** The consent screen tells the truth.  When [Evaluate] answers, the tables are
    unchanged; "covered" is said only if every requested scope is in the user's unrevoked
    grant for the client; and when the read did not fail, the answer is exact: covered
    means that, the new scopes are the requested ones outside the grant and the already
    granted ones those inside, which is the rule by which the issue transaction decides. *)
Theorem evaluate_exact userID client requested w w' ev :
  Evaluate userID client requested w = (w', inl ev) →
  let granted := granted_scopes (w_db w) userID (Client_ID client) in
  w_db w' = w_db w ∧ (Evaluation_Covers ev = true → set_of requested ⊆ granted) ∧
  (quiet w → (Evaluation_Covers ev = true ↔ set_of requested ⊆ granted) ∧
     set_of (Evaluation_NewScopes ev) = set_of requested ∖ granted ∧
     set_of (Evaluation_AlreadyGranted ev) = set_of requested ∩ granted).
Proof.
  unfold Evaluate. destruct (CanonicalScopes requested) as [r|] eqn:Er; [|done]. intros H.
  pose proof (CanonicalScopes_canonical _ _ Er) as Hcan.
  assert (Hset : set_of requested = set_of r).
  { apply set_eq. intros x. by rewrite !elem_of_set_of, (CanonicalScopes_elem _ _ x Er). }
  rewrite Hset. apply Tx_bind_inl in H as (w0 & [] & Hg & H). apply reject_if_inl in Hg as [Hg ->].
  rewrite !orb_false_iff in Hg. destruct Hg as [_ Hg]. apply negb_false_iff in Hg. rewrite scopeSubset_spec in Hg.
  apply Tx_bind_inl in H as (w1 & found & Hf & H). apply GetConsentGrant_cases in Hf as [Hdb Hf]. unfold granted_scopes. destruct found as [g|].
  - destruct Hf as (row & -> & ->). apply evaluateGrant_inl in H as (H1 & H2 & H3 & H4); [|done..]. rewrite H1, Hdb. tauto.
  - tx_step H. split_and!; [done|done|]. intros Hq. rewrite (Hf Hq). cbn. destruct Hcan as (_ & _ & _ & Ho).
    split_and!; [|set_solver|set_solver]. split; [done|]. intros Hs. exfalso. apply (elem_of_set_of "openid" r) in Ho. set_solver.
Qed.

(** An audit event is canonical or refused.  [New] returns an event only if the event
    passes [Validate], and then it has a set identifier, the given type, result, actor,
    request and time, and exactly the given changed fields, sorted, without duplicates
    and all from the known list. *)
Theorem audit_new_canonical {PL : PlatformLaws P} ty res actor tty target rid changed at_ r r' e :
  audit.New ty res actor tty target rid changed at_ r = (r', inl e) →
  audit.Validate e = None ∧ Event_ID e ≠ uuid_Nil ∧ Event_Type e = ty ∧ Event_Result e = res ∧ Event_ActorUserID e = actor ∧
  Event_RequestID e = rid ∧ Event_OccurredAt e = at_ ∧
  StronglySorted string_le (Event_ChangedFields e) ∧ NoDup (Event_ChangedFields e) ∧
  (∀ x, x ∈ Event_ChangedFields e ↔ x ∈ changed) ∧ (∀ x, x ∈ changed → x ∈ audit.validChangedFields).
Proof.
  intros H. unfold audit.New in H. apply Rnd_bind_inl in H as (r1 & id & Hid & H).
  destruct (audit.Validate _) as [err|] eqn:Ev; [done|]. injection H as <- <-.
  assert (Hmem : ∀ x, x ∈ audit.compact (sort_Strings changed) ↔ x ∈ changed) by (intros x; by rewrite audit.elem_of_compact, elem_of_sort_Strings).
  destruct (audit.compact_sorted _ (sort_Strings_sorted changed)) as [Hs Hn].
  split_and!; try done.
  - unfold NewRandomFromReader in Hid. apply Rnd_bind_inl in Hid as (r2 & b & _ & Hid). injection Hid as <- <-. apply uuid_v4_not_Nil.
  - intros x Hx. assert (Hall : forallb (λ field, bool_decide (field ∈ audit.validChangedFields)) (audit.compact (sort_Strings changed)) = true).
    { unfold audit.Validate in Ev. cbn -[sort_Strings audit.compact audit.validChangedFields audit.validEvents] in Ev. by repeat case_match. }
    rewrite forallb_forall in Hall. apply Hmem, list_elem_of_In, Hall, bool_decide_eq_true in Hx. done.
Qed.
End theorems.

(** ** Witnesses *)

Lemma demo_evaluate_runs : succeeds (Evaluate 1 demo_authenticated demo_scopes) (world_of issued_db 3) = true.
Proof. by vm_compute. Qed.

Lemma evaluate_exact_witness : ∃ w' ev, Evaluate 1 demo_authenticated demo_scopes (world_of issued_db 3) = (w', inl ev) ∧
  w_db w' = w_db (world_of issued_db 3).
Proof.
  destruct (succeeds_run _ _ demo_evaluate_runs) as (w' & ev & E). exists w', ev. split; [exact E|].
  exact (proj1 (evaluate_exact _ _ _ _ _ _ E)).
Defined.

Lemma demo_audit_runs : ∃ r' e,
  audit.New "authorization_code_issued" "success" (Some 1%N) "authorization_code" (Some 7%N) "req-1" ["issued"; "created"; "issued"] t0
    (byte_run 20) = (r', inl e).
Proof. do 2 eexists. vm_compute. reflexivity. Qed.

Lemma audit_new_canonical_witness : ∃ e : AuditEvent, audit.Validate e = None.
Proof. destruct demo_audit_runs as (r' & e & E). exists e. exact (proj1 (audit_new_canonical (PL := demo_platform_laws) _ _ _ _ _ _ _ _ _ _ _ E)). Defined.
