(* ===== verification/SessionTheorems.v ===== *)
(** * Sessions: the theorems

    Revoking a session takes down what its binding carries, for good; a cookie is
    accepted exactly while its session lives. *)

From S2P Require Import Prelude Errors Platform Scopes Domain Opaque SessionTokens AuditEvents Database Queries.
From S2P Require Import RegistryQueries BrowserQueries Tx StoreCommon SessionStore UserStore.
From S2P Require Import Invariants StatementFacts Quiet Writes Lifecycle TokenService AuthorizationService SessionService.
From S2P Require Import SessionProofs Demo.

Section theorems.
Context {P : Platform}.

(** ** Revoking one session *)

(** The three ways one session is revoked: by its owner, by the browser that holds its
    token, by an administrator. *)
Inductive Revoker := ByOwner (userID target : uuid) | ByToken (hash : bytes) (reason : string) | ByAdministrator (id : uuid).

Definition revoke_by (how : Revoker) (now : time) (event : AuditEvent) : Tx unit :=
  match how with
  | ByOwner userID target => RevokeUserSession userID target now event
  | ByToken hash reason => RevokeSessionByHash hash now reason event
  | ByAdministrator id => RevokeManagedSession id now event
  end.

Definition revoke_op (how : Revoker) (now : time) (event : AuditEvent) : Op :=
  match how with
  | ByOwner userID target => OpRevokeUserSession userID target now event
  | ByToken hash reason => OpRevokeSessionByHash hash now reason event
  | ByAdministrator id => OpRevokeManagedSession id now event
  end.

(** The session selected, and the reason recorded on it. *)
Definition selects (how : Revoker) (db : DB) (s : LoginSessionRow) : Prop :=
  match how with
  | ByOwner userID target => login_sessions db !! target = Some s ∧ ls_UserID s = userID
  | ByToken hash _ => find_row (λ r, ls_TokenHash r == hash) (login_sessions db) = Some s
  | ByAdministrator id => login_sessions db !! id = Some s
  end.
Definition reason_of (how : Revoker) : string :=
  match how with ByOwner _ _ => "user" | ByToken _ reason => reason | ByAdministrator _ => "admin" end.

Definition session_revocation_effect (now : time) (reason : option string) (s : LoginSessionRow) (db : DB) : DB :=
  with_login_sessions (<[ls_ID s := revoke_session now reason s]> (login_sessions db))
    (bindings_revoked [ls_SessionBindingID s] now (Some "session_revoked") db).

Lemma session_key db k s : db_ok db → login_sessions db !! k = Some s → ls_ID s = k.
Proof. intros Hok Hk. by apply (proj1 (ok_sessions db Hok) k s Hk). Qed.
Lemma session_by_hash db h s :
  db_ok db → find_row (λ r, ls_TokenHash r == h) (login_sessions db) = Some s →
  login_sessions db !! ls_ID s = Some s ∧ ls_TokenHash s = h.
Proof.
  intros Hok Hf. apply find_row_Some in Hf as [Hh [k Hk]]. rewrite (session_key _ _ _ Hok Hk). by go_bools.
Qed.

Lemma revoke_session_inl db id p now reason x db' :
  revoke_session_where id p now reason db = inl (x, db') →
  ∃ r, login_sessions db !! id = Some r ∧ p r = true ∧ ls_RevokedAt r = None ∧ x = revoke_session now reason r ∧
       db' = with_login_sessions (<[id := revoke_session now reason r]> (login_sessions db)) db.
Proof. intros (r & Hk & Hp & _ & -> & ->)%update_row_inl. go_bools. by exists r. Qed.

Lemma revoke_by_inv how now event w w' x :
  db_ok (w_db w) → revoke_by how now event w = (w', inl x) →
  ∃ s, selects how (w_db w) s ∧ login_sessions (w_db w) !! ls_ID s = Some s ∧ ls_RevokedAt s = None ∧
    ∃ audits, w_db w' = with_audit_events audits
                (session_revocation_effect (timestamp now) (pointerString (reason_of how)) s (w_db w)).
Proof.
  intros Hok H. destruct how as [userID target|hash reason|id]; simpl in H;
    apply inTxWithAudit_inl in H as (w1 & w2 & Hw1 & Hrun & Hw2); rewrite <- Hw1 in *; rewrite <- Hw2; clear Hw1 Hw2 w w'.
  - unfold revokeUserSession_tx in Hrun. do 4 browser_step Hrun.
    apply revoke_session_inl in Hstmt0 as (r & Hr & _ & Hn & -> & ->). simpl in Hr. assert (r = a) as -> by congruence. go_bools.
    pose proof (session_key _ _ _ Hok Hstmt). subst. exists a. repeat (split; [done|]). exists audits. by rewrite Hdb3.
  - unfold revokeSessionByHash_tx in Hrun. do 4 browser_step Hrun.
    destruct (session_by_hash _ _ _ Hok Hstmt) as [Hk _].
    apply revoke_session_inl in Hstmt0 as (r & Hr & _ & Hn & -> & ->). simpl in Hr. assert (r = a) as -> by congruence. go_bools.
    exists a. repeat (split; [done|]). exists audits. by rewrite Hdb3.
  - unfold revokeManagedSession_tx in Hrun. do 4 browser_step Hrun.
    apply revoke_session_inl in Hstmt0 as (r & Hr & _ & Hn & -> & ->). simpl in Hr. assert (r = a) as -> by congruence. go_bools.
    pose proof (session_key _ _ _ Hok Hstmt). subst. exists a. repeat (split; [done|]). exists audits. by rewrite Hdb3.
Qed.

(** *** What a revoked binding carries *)

(** Nothing on the binding is live: families are revoked, access tokens are revoked or expired. *)
Definition binding_dead (b : uuid) (now : time) (db : DB) : Prop :=
  map_Forall (λ _ f, rf_SessionBindingID f = b → is_Some (rf_RevokedAt f)) (refresh_token_families db) ∧
  map_Forall (λ _ a, at_SessionBindingID a = Some b → is_Some (at_RevokedAt a) ∨ at_ExpiresAt a <= now) (access_tokens db).

(** Families and access tokens on other bindings are those of before. *)
Definition other_bindings_kept (bs : list uuid) (db db' : DB) : Prop :=
  (∀ k f, refresh_token_families db !! k = Some f → rf_SessionBindingID f ∉ bs → refresh_token_families db' !! k = Some f) ∧
  (∀ k a, access_tokens db !! k = Some a → (∀ b, at_SessionBindingID a = Some b → b ∉ bs) → access_tokens db' !! k = Some a).

Lemma bindings_revoked_dead bs b now reason db : b ∈ bs → binding_dead b now (bindings_revoked bs now reason db).
Proof.
  intros Hb. split; intros k r; simpl; rewrite lookup_update_where, fmap_Some; intros (r0 & Hr0 & ->) He.
  - destruct (_ && _) eqn:E; [by eexists|]. unfold bound_family, set_member in E.
    rewrite bool_decide_eq_true_2 in E by (by rewrite He). simpl in E. apply bool_decide_eq_false in E.
    by apply not_eq_None_Some.
  - destruct (_ && _) eqn:E; [left; by eexists|]. unfold bound_access, set_member in E. rewrite He in E.
    rewrite bool_decide_eq_true_2 in E by done. unfold live_access in E. simpl in E. go_bools.
    destruct E as [E|E]; [left; by apply not_eq_None_Some|by right].
Qed.

Lemma bindings_revoked_others bs now reason db : other_bindings_kept bs db (bindings_revoked bs now reason db).
Proof.
  split; intros k r Hr Hb; simpl; rewrite lookup_update_where, Hr; simpl.
  - unfold bound_family, set_member. by rewrite bool_decide_eq_false_2.
  - unfold bound_access, set_member. destruct (at_SessionBindingID r) as [b|] eqn:E; [|done].
    by rewrite bool_decide_eq_false_2 by (by apply Hb).
Qed.

(** C10: Revoking a session takes down what its binding carries and nothing else.  After a
    successful revocation, by the owner, by the browser or by an administrator, exactly
    the selected session, which was not revoked before, is revoked with its reason; every
    refresh family on its binding is revoked and every access token on it is revoked or
    expired; families and access tokens on other bindings, codes and refresh generations
    are untouched. *)
Theorem session_revocation_cascade how now event w w' x :
  db_ok (w_db w) → revoke_by how now event w = (w', inl x) →
  ∃ s, selects how (w_db w) s ∧ ls_RevokedAt s = None ∧
    login_sessions (w_db w') =
      <[ls_ID s := revoke_session (timestamp now) (pointerString (reason_of how)) s]> (login_sessions (w_db w)) ∧
    binding_dead (ls_SessionBindingID s) (timestamp now) (w_db w') ∧
    other_bindings_kept [ls_SessionBindingID s] (w_db w) (w_db w') ∧
    authorization_codes (w_db w') = authorization_codes (w_db w) ∧ refresh_tokens (w_db w') = refresh_tokens (w_db w).
Proof.
  intros Hok H. destruct (revoke_by_inv _ _ _ _ _ _ Hok H) as (s & Hs & Hk & Hn & audits & ->).
  exists s. do 3 (split; [done|]). split; [by apply bindings_revoked_dead, list_elem_of_here|].
  split; [exact (bindings_revoked_others _ _ _ _)|done].
Qed.

(** ** Revoking many sessions *)

(** A user's other sessions, or all sessions of a user. *)
Inductive MassRevoker := OthersOf (userID current : uuid) | AllOf (userID : uuid).

Definition mass_revoke (how : MassRevoker) (now : time) (event : AuditEvent) : Tx Z :=
  match how with
  | OthersOf userID current => RevokeOtherUserSessions userID current now event
  | AllOf userID => RevokeAllManagedUserSessions userID now event
  end.
Definition mass_selects (how : MassRevoker) (r : LoginSessionRow) : bool :=
  match how with
  | OthersOf userID current => unrevoked_of userID r && (ls_ID r != current)
  | AllOf userID => unrevoked_of userID r
  end.
Definition mass_reason (how : MassRevoker) : string := match how with OthersOf _ _ => "others" | AllOf _ => "admin" end.

Lemma mass_revoke_inv how now event w w' n :
  db_ok (w_db w) → mass_revoke how now event w = (w', inl n) →
  ∃ bs audits, (∀ b, b ∈ bs ↔ b ≠ uuid_Nil ∧ ∃ k s, login_sessions (w_db w) !! k = Some s ∧ mass_selects how s = true ∧
                                                    ls_SessionBindingID s = b) ∧
    n = count_where (mass_selects how) (login_sessions (w_db w)) ∧
    w_db w' = with_audit_events audits (sessions_revoked (mass_selects how) (timestamp now) (pointerString (mass_reason how))
                (bindings_revoked bs (timestamp now) (Some "session_revoked") (w_db w))).
Proof.
  intros Hok H.
  assert (Hkey : keyed ls_ID (login_sessions (w_db w))) by apply (ok_sessions _ Hok).
  assert (Htail : ∃ targets w1, w_db w1 = w_db w ∧
    (∀ s, s ∈ targets ↔ (∃ k, login_sessions (w_db w) !! k = Some s) ∧ mass_selects how s = true) ∧
    Z.of_nat (length targets) = count_where (mass_selects how) (login_sessions (w_db w)) ∧
    ∃ op w2, (revokeSessionBindingsCascade (ls_SessionBindingID <$> targets) now "session_revoked";;
              revoke_locked (mass_reason how) now op targets;; insertAudit event;; mret (Z.of_nat (length targets))) w1 = (w2, inl n) ∧
             w_db w2 = w_db w').
  { destruct how as [userID current|userID]; simpl in H;
      apply inTxWithAudit_inl in H as (w1 & w2 & Hw1 & Hrun & Hw2).
    - unfold revokeOtherUserSessions_tx in Hrun. tx_step Hrun.
      exists (List.filter (λ row, ls_ID row != current) (active_sessions userID (w_db w))). eexists. split; [exact Hdb0|]. split_and!.
      + intros s. rewrite list_elem_of_In, filter_In, <- list_elem_of_In, elem_of_active_sessions.
        change (mass_selects _ s) with (unrevoked_of userID s && (ls_ID s != current)).
        rewrite andb_true_iff. tauto.
      + unfold count_where, active_sessions. rewrite (length_filter_Permutation _ _ _ (merge_sort_Permutation _ _)), filter_filter. done.
      + eexists _, _. by split.
    - unfold revokeAllManagedUserSessions_tx in Hrun. do 2 tx_step Hrun.
      exists (active_sessions userID (w_db w)). eexists. split; [exact Hdb1|]. split_and!.
      + intros s. apply elem_of_active_sessions.
      + unfold count_where, active_sessions. by rewrite merge_sort_Permutation.
      + eexists _, _. by split. }
  clear H. destruct Htail as (targets & w1 & Hw1 & Ht & Hn & op & w2 & Hrun & Hw2). rewrite <- Hw2. clear Hw2 w'.
  apply bind_assoc_inl in Hrun as (w3 & y & Hend & Hrun).
  apply (end_sessions_step (mass_selects how)) in Hend as (bs & Hbs & Hdb & _); [|by rewrite Hw1..]. rewrite Hw1 in Hbs, Hdb.
  do 2 browser_step Hrun. exists bs, audits. split_and!; [done|done|]. etrans; [eassumption|done].
Qed.

(** Signing out other sessions, or all sessions of a user, ends exactly those.  After a
    successful call the count returned is the number of sessions selected (the user's
    unrevoked ones, less the current one); each of them is revoked and what its binding
    carries is dead; every other session, and every family and access token on a binding
    none of them has, is as before. *)
Theorem mass_revocation_exact how now event w w' n :
  db_ok (w_db w) → mass_revoke how now event w = (w', inl n) →
  n = count_where (mass_selects how) (login_sessions (w_db w)) ∧
  (∀ k, login_sessions (w_db w') !! k =
     (λ s, if mass_selects how s then revoke_session (timestamp now) (pointerString (mass_reason how)) s else s)
       <$> login_sessions (w_db w) !! k) ∧
  (∀ k s, login_sessions (w_db w) !! k = Some s → mass_selects how s = true → ls_SessionBindingID s ≠ uuid_Nil →
     binding_dead (ls_SessionBindingID s) (timestamp now) (w_db w')) ∧
  ∃ bs, (∀ b, b ∈ bs → ∃ k s, login_sessions (w_db w) !! k = Some s ∧ mass_selects how s = true ∧ ls_SessionBindingID s = b) ∧
    other_bindings_kept bs (w_db w) (w_db w').
Proof.
  intros Hok H. destruct (mass_revoke_inv _ _ _ _ _ _ Hok H) as (bs & audits & Hbs & -> & ->).
  split; [done|]. split; [intros k; apply lookup_update_where|]. split.
  - intros k s Hk Hs Hb. apply bindings_revoked_dead, Hbs. split; [done|]. by exists k, s.
  - exists bs. split; [intros b Hb; by apply Hbs in Hb as [_ Hb]|]. exact (bindings_revoked_others _ _ _ _).
Qed.

(** ** A revoked session is over for good *)

(** Sessions with this token digest are revoked. *)
Definition session_over (h : bytes) (db : DB) : Prop :=
  map_Forall (λ _ r, ls_TokenHash r = h → is_Some (ls_RevokedAt r)) (login_sessions db).
Definition no_session (h : bytes) : policy := mkPolicy any any any any (λ r, ls_TokenHash r ≠ h) any any any any any any_change.

Lemma write_session_over h db db' : write (no_session h) db db' → session_over h db → session_over h db'.
Proof.
  unfold session_over. destruct 1; simpl in *; try done; intros HI.
  - by apply map_Forall_insert_2.
  - eapply map_Forall_pointwise; [|done|done]. intros k r r' (_ & _ & Eh & _ & _ & _ & Er) HQ Hh.
    rewrite Eh in Hh. specialize (HQ Hh). by rewrite (Er HQ).
  - by apply map_Forall_delete.
Qed.

Lemma revoked_session_over how now event w w' x s :
  db_ok (w_db w) → revoke_by how now event w = (w', inl x) → selects how (w_db w) s → session_over (ls_TokenHash s) (w_db w').
Proof.
  intros Hok H Hs. destruct (revoke_by_inv _ _ _ _ _ _ Hok H) as (s' & Hs' & Hk & Hn & audits & ->).
  assert (s' = s) as -> by (destruct how; simpl in *; naive_solver).
  intros k r. simpl. destruct (decide (k = ls_ID s)) as [->|Hne].
  - rewrite lookup_insert_eq. intros [= <-] _. by eexists.
  - rewrite lookup_insert_ne by done. intros Hr Hh. destruct Hne.
    destruct (ok_sessions _ Hok) as (_ & _ & Hu). apply (Hu k (ls_ID s) r s Hr Hk). simpl. by rewrite bool_decide_eq_true.
Qed.

(** ** Authentication *)

(** The session behind a token: live, of an active user. *)
Record authenticates (db : DB) (token : string) (now : time) (row : LoginSessionRow) (user : UserRow) : Prop := {
  au_row : find_row (λ r, ls_TokenHash r == HashToken token) (login_sessions db) = Some row;
  au_user : users db !! ls_UserID row = Some user;
  au_unrevoked : ls_RevokedAt row = None;
  au_expires : now < ls_ExpiresAt row;
  au_idle : now < ls_IdleExpiresAt row;
  au_active : u_Status user = identity_StatusActive }.

Lemma not_found_none_inl {A} e (m : Tx A) w w' r :
  not_found_none e m w = (w', inl r) → match r with Some a => m w = (w', inl a) | None => True end.
Proof. unfold not_found_none. destruct (m w) as [w1 [a|e1]]; [|destruct (_ == _)]; by intros [= <- <-]. Qed.

Lemma FindLoginSession_inl h w w' p :
  FindLoginSession h w = (w', inl p) →
  w_db w' = w_db w ∧ ∃ row user, find_row (λ r, ls_TokenHash r == h) (login_sessions (w_db w)) = Some row ∧
    users (w_db w) !! ls_UserID row = Some user ∧ p = mapPrincipal (row, user).
Proof.
  unfold FindLoginSession. intros H. do 2 tx_step H. destruct (find_row _ _) as [row|]; [|done]. simpl in Hstmt.
  destruct (users (w_db w) !! ls_UserID row) as [user|] eqn:E; [|done]. simpl in Hstmt. injection Hstmt as <-.
  split; [done|]. by exists row, user.
Qed.

(** What a request touches of its session. *)
Definition touched (db : DB) (row : LoginSessionRow) (now idle : time) : DB :=
  with_login_sessions (<[ls_ID row := touch_session now idle row]> (login_sessions db)) db.

Lemma Authenticate_inl s token now w w' p :
  db_ok (w_db w) → Authenticate s token now w = (w', inl p) →
  validToken token "s1_" = true ∧
  ∃ row user, authenticates (w_db w) token now row user ∧
    User_ID (Principal_User p) = ls_UserID row ∧ Principal_SessionID p = ls_ID row ∧
    Principal_SessionBindingID p = ls_SessionBindingID row ∧
    Principal_AuthenticatedAt p = ls_AuthenticatedAt row ∧ Principal_CSRFHash p = ls_CsrfHash row ∧ User_Role (Principal_User p) = u_Role user ∧
    (w_db w' = w_db w ∨ ∃ idle, w_db w' = touched (w_db w) row (timestamp now) idle).
Proof.
  intros Hok H. unfold Authenticate in H. do 2 tx_step H. apply negb_false_iff in Hguard. split; [done|].
  apply not_found_none_inl in Hrun. destruct a0 as [q|]; [|tx_step H].
  simpl in Hrun. apply FindLoginSession_inl in Hrun as (Hdb & row & user & Hrow & Huser & ->).
  tx_step H. unfold principal_refused in Hguard0. time_unfold. simpl in Hguard0. go_bools.
  exists row, user. split; [split; try done; by apply eq_None_not_Some|].
  destruct (_ <=? _).
  - tx_step H. simpl in Hrun. unfold SessionStore.TouchLoginSession in Hrun. tx_step Hrun. tx_step H.
    simpl. do 6 (split; [done|]). rewrite Hdb0. apply exec_inl in Hstmt as [(x & Hs)|[_ ->]]; [|by left].
    apply update_row_inl in Hs as (r & Hr & _ & _ & _ & ->). right.
    destruct (session_by_hash _ _ _ Hok Hrow) as [Hk _]. simpl in Hr. assert (r = row) as -> by congruence. by eexists.
  - tx_step H. simpl. do 6 (split; [done|]). by left.
Qed.

(** C15: A browser cookie is accepted only on current server state.  Whatever the driver
    does, when authentication succeeds the token is well formed and its digest selects a
    session that is not revoked, whose absolute and idle deadlines are both ahead, of a
    user who is active now; the principal is that user on that session and binding, with its role,
    its authentication time and its CSRF digest, and the tables are unchanged or only that session was touched. *)
Theorem authenticate_sound s token now w w' p :
  db_ok (w_db w) → Authenticate s token now w = (w', inl p) →
  validToken token "s1_" = true ∧
  ∃ row user, authenticates (w_db w) token now row user ∧
    User_ID (Principal_User p) = ls_UserID row ∧ Principal_SessionID p = ls_ID row ∧
    Principal_SessionBindingID p = ls_SessionBindingID row ∧
    Principal_AuthenticatedAt p = ls_AuthenticatedAt row ∧ Principal_CSRFHash p = ls_CsrfHash row ∧ User_Role (Principal_User p) = u_Role user ∧
    (w_db w' = w_db w ∨ ∃ idle, w_db w' = touched (w_db w) row (timestamp now) idle).
Proof. apply Authenticate_inl. Qed.

(** A revoked session never authenticates again.  Once a session was revoked, no
    state that any sequence of store operations reaches accepts its token, at any time
    and by any session service (only storing the same token digest again is excluded). *)
Theorem revoked_session_refused how now event w w' x s svc db2 token now2 w2 w3 r :
  db_ok (w_db w) → revoke_by how now event w = (w', inl x) → selects how (w_db w) s →
  reaches (obeys (no_session (ls_TokenHash s))) (w_db w') db2 →
  HashToken token = ls_TokenHash s → w_db w2 = db2 → Authenticate svc token now2 w2 = (w3, r) →
  ∃ e, r = inr e.
Proof.
  intros Hok H Hs Hr Hh Hw2 Ha. destruct r as [p|e]; [|by exists e].
  assert (Hok' : db_ok (w_db w')).
  { eapply (run_ok (revoke_op how now event) _ (λ _, ResultDone)); [|exact H|done]. by destruct how. }
  assert (Hok2 : db_ok (w_db w2)) by (rewrite Hw2; by eapply reaches_ok).
  destruct (Authenticate_inl _ _ _ _ _ _ Hok2 Ha) as (_ & row & user & [Hrow _ Hn _ _ _] & _).
  destruct (session_by_hash _ _ _ Hok2 Hrow) as [Hk Hh2].
  assert (Ho : session_over (ls_TokenHash s) (w_db w2)).
  { rewrite Hw2. eapply reaches_stable; [apply write_session_over|exact Hr|exact (revoked_session_over _ _ _ _ _ _ _ Hok H Hs)]. }
  destruct (Ho _ _ Hk (eq_trans Hh2 Hh)) as [t Ht]. congruence.
Qed.
End theorems.

Section progress.
Context {P : Platform} {PL : PlatformLaws P}.

Lemma manager_positive a b c m : NewTokenManager a b c = Some m → 0 < idleTimeout m.
Proof. unfold NewTokenManager. destruct (_ || _) eqn:E; [done|]. intros [= <-]. go_bools. simpl. lia. Qed.

(** Touching a session that is live now passes the table's CHECK. *)
Lemma touch_check row now idle :
  login_sessions_check row = true → ls_LastSeenAt row + 1000 <= now → now < idle →
  login_sessions_check (touch_session (timestamp now) (timestamp idle) row) = true.
Proof.
  unfold login_sessions_check, timestamp. intros Hc Hl Hi. pose proof (pg_timestamptz_close now).
  pose proof (pg_timestamptz_close idle). pose proof (pg_timestamptz_mono now idle ltac:(lia)).
  rewrite !andb_true_iff in *. simpl. destruct_and!. rewrite ?Z.leb_le, ?Z.ltb_lt in *. split_and!; try done; lia.
Qed.

Lemma authenticates_check db token now row user :
  db_ok db → authenticates db token now row user → login_sessions_check row = true.
Proof.
  intros Hok [Hr _ _ _ _ _]. destruct (session_by_hash _ _ _ Hok Hr) as [Hk _].
  by apply (proj1 (proj2 (ok_sessions db Hok)) _ _ Hk).
Qed.

Lemma exec_run {A} op (s : Stmt A) w a db : quiet w → s (w_db w) = inl (a, db) → exec_query op s w = (with_db db w, inl a).
Proof.
  intros Hq Hs. unfold exec_query, autocommit. rewrite current_fault_quiet, statement_quiet by done. by rewrite Hs.
Qed.

Lemma touch_runs db row now idle :
  db_ok db → login_sessions db !! ls_ID row = Some row → login_sessions_check row = true →
  ls_LastSeenAt row + 1000 <= now → now < idle →
  ∃ db', BrowserQueries.TouchLoginSession (timestamp now) (timestamp idle) (ls_ID row) db = inl ((), db').
Proof.
  intros Hok Hk Hc Hl Hi. unfold BrowserQueries.TouchLoginSession, exec, update_row.
  change (tbl_get login_sessions_table db) with (login_sessions db). rewrite Hk. cbv beta.
  destruct (_ && _); simpl; [|by eexists]. rewrite touch_check by done. by eexists.
Qed.

Lemma Authenticate_runs a b c m token now w row user :
  NewTokenManager a b c = Some m → quiet w → db_ok (w_db w) →
  validToken token "s1_" = true → authenticates (w_db w) token now row user →
  ∃ w' p, Authenticate (NewSessionService m) token now w = (w', inl p).
Proof.
  intros Hm Hq Hok Hv Ha. pose proof (authenticates_check _ _ _ _ _ Hok Ha) as Hc. destruct Ha as [Hr Hu Hn He Hi Hs].
  destruct (session_by_hash _ _ _ Hok Hr) as [Hk _]. pose proof (manager_positive _ _ _ _ Hm) as Hpos.
  unfold Authenticate. rewrite reject_run by (by rewrite Hv).
  assert (Hf : FindLoginSession (HashToken token) w = (w, inl (mapPrincipal (row, user)))).
  { unfold FindLoginSession, GetLoginSessionByTokenHash. erewrite bind_run; [|apply select_run; [done|]]; [done|].
    simpl. rewrite Hr. simpl. by rewrite Hu. }
  erewrite bind_run; [|unfold not_found_none; simpl; by rewrite Hf]. cbv beta iota.
  rewrite reject_run.
  2: { unfold principal_refused. time_unfold. simpl. rewrite Hn, Hs. by rewrite (proj2 (Z.ltb_lt _ _) He), (proj2 (Z.ltb_lt _ _) Hi). }
  destruct (_ <=? _) eqn:Et; [|by do 2 eexists].
  apply Z.leb_le in Et. unfold Time.Sub in Et. simpl in Et.
  set (idle := NextIdleExpiry _ _ _).
  assert (Hidle : now < idle).
  { unfold idle, NextIdleExpiry. time_unfold. simpl. destruct (_ <? _) eqn:E; lia. }
  destruct (touch_runs _ row now idle Hok Hk Hc) as (db' & Hdb); [|done|].
  { unfold Time.max_duration, Time.min_duration in Et. unfold Time.Minute, Time.Second in Et. lia. }
  erewrite bind_run; [|by apply exec_run]. by do 2 eexists.
Qed.

(** A live session is never refused.  Without driver faults, a well-formed token whose
    session is live, of an active user, authenticates: the touch that prolongs the idle
    deadline passes every table constraint, for every configuration of lifetimes that
    [NewTokenManager] accepts. *)
Theorem live_session_accepted a b c m token now w row user :
  NewTokenManager a b c = Some m → quiet w → db_ok (w_db w) →
  validToken token "s1_" = true → authenticates (w_db w) token now row user →
  ∃ w' p, Authenticate (NewSessionService m) token now w = (w', inl p).
Proof. apply Authenticate_runs. Qed.
End progress.

(** ** Witnesses *)

Definition session_event (id : uuid) : AuditEvent :=
  mkAuditEvent id audit.SessionRevoked audit.ResultSuccess (Some 1%N) (Some audit.TargetSession) (Some 4%N) "req-9" ["revoked"]
    (t0 + 5 * Time.Minute).
Definition demo_revoker : Revoker := ByToken (HashToken demo_cookie) "logout".

(** The demo session, which by now carries a refresh family and two access tokens, is logged out. *)
Lemma demo_session_revoked : ∃ w' x,
  revoke_by demo_revoker (t0 + 5 * Time.Minute) (session_event 90) (world_of refreshed_db 0) = (w', inl x).
Proof. apply succeeds_run. by vm_compute. Qed.

Lemma session_revocation_cascade_witness : ∃ w' s,
  selects demo_revoker (w_db (world_of refreshed_db 0)) s ∧ binding_dead (ls_SessionBindingID s) (t0 + 5 * Time.Minute) (w_db w').
Proof.
  destruct demo_session_revoked as (w' & x & H). exists w'.
  destruct (session_revocation_cascade _ _ _ _ _ _ (world_ok _ _ refreshed_db_ok) H) as (s & Hs & _ & _ & Hd & _).
  exists s. split; [exact Hs|exact Hd].
Defined.

Lemma mass_revocation_exact_witness : ∃ w' n,
  mass_revoke (AllOf 1) (t0 + 5 * Time.Minute) (session_event 90) (world_of refreshed_db 0) = (w', inl n) ∧ n = 1.
Proof.
  destruct (succeeds_run (mass_revoke (AllOf 1) (t0 + 5 * Time.Minute) (session_event 90)) (world_of refreshed_db 0))
    as (w' & n & H); [by vm_compute|]. exists w', n. split; [exact H|].
  destruct (mass_revocation_exact _ _ _ _ _ _ (world_ok _ _ refreshed_db_ok) H) as [-> _]. by vm_compute.
Defined.

Definition demo_manager : TokenManager := mkTokenManager (8 * Time.Hour) Time.Hour Time.Hour.

Lemma demo_authenticates : authenticates refreshed_db demo_cookie (t0 + 10 * Time.Minute) demo_session demo_user.
Proof. split; by vm_compute. Qed.

Lemma live_session_accepted_witness : ∃ w' p,
  Authenticate (NewSessionService demo_manager) demo_cookie (t0 + 10 * Time.Minute) (world_of refreshed_db 0) = (w', inl p).
Proof.
  apply (live_session_accepted (PL := demo_platform_laws) (8 * Time.Hour) Time.Hour Time.Hour _ _ _ _ demo_session demo_user).
  - by vm_compute.
  - done.
  - exact (world_ok _ _ refreshed_db_ok).
  - by vm_compute.
  - exact demo_authenticates.
Defined.

Lemma authenticate_sound_witness : ∃ w' p,
  Authenticate (NewSessionService demo_manager) demo_cookie (t0 + 10 * Time.Minute) (world_of refreshed_db 0) = (w', inl p) ∧
  validToken demo_cookie "s1_" = true.
Proof.
  destruct (succeeds_run (Authenticate (NewSessionService demo_manager) demo_cookie (t0 + 10 * Time.Minute))
    (world_of refreshed_db 0)) as (w' & p & H); [by vm_compute|]. exists w', p. split; [exact H|].
  exact (proj1 (authenticate_sound _ _ _ _ _ _ (world_ok _ _ refreshed_db_ok) H)).
Defined.

Lemma revoked_session_refused_witness : ∃ w' x,
  revoke_by demo_revoker (t0 + 5 * Time.Minute) (session_event 90) (world_of refreshed_db 0) = (w', inl x) ∧
  ∃ e, (Authenticate (NewSessionService demo_manager) demo_cookie (t0 + 6 * Time.Minute) (world_of (w_db w') 7)).2 = inr e.
Proof.
  destruct demo_session_revoked as (w' & x & H). exists w', x. split; [exact H|].
  destruct (Authenticate (NewSessionService demo_manager) demo_cookie (t0 + 6 * Time.Minute) (world_of (w_db w') 7)) as [w3 r] eqn:E.
  refine (revoked_session_refused _ _ _ _ _ _ demo_session _ _ _ _ _ _ _ (world_ok _ _ refreshed_db_ok) H _ (rtc_refl _ _) eq_refl _ E).
  - by vm_compute.
  - done.
Defined.
