(* ===== verification/LogoutTheorems.v ===== *)
(** * Logout: the theorems

    The logout transaction as a state machine: what a completion can do, that it is done
    at most once, that guesses of the proof are bounded, and what binding promises. *)

From S2P Require Import Prelude Errors Platform Scopes Domain Opaque SessionTokens AuditEvents Database Queries RegistryQueries.
From S2P Require Import BrowserQueries Tx StoreCommon ServiceCommon TokenStore SessionStore LogoutStore UserStore Invariants RegistryInvariants.
From S2P Require Import StatementFacts Writes Lifecycle Quiet TokenService AuthorizationService SessionService SessionProofs Demo.
From S2P Require Import SessionTheorems.

Section theorems.
Context {P : Platform}.

(** ** What a completion can do *)

(** The transaction is bound to the presented session, open and not exhausted; the session is live. *)
Record confirmable (db : DB) (input : CompleteInput) (t : LogoutTransactionRow) (s : LoginSessionRow) : Prop := {
  lc_row : find_row (λ r, lo_LookupHash r == CompleteInput_LookupHash input) (logout_transactions db) = Some t;
  lc_stage : lo_Stage t = StageBoundConfirmable;
  lc_open : lo_ConsumedAt t = None;
  lc_live : CompleteInput_Now input < lo_ExpiresAt t;
  lc_attempts : lo_AttemptCount t < CompleteInput_MaxAttempts input;
  lc_user : lo_UserID t = Some (CompleteInput_UserID input);
  lc_session_id : lo_SessionID t = Some (CompleteInput_SessionID input);
  lc_binding : lo_SessionBindingID t = Some (CompleteInput_SessionBindingID input);
  lc_session : login_sessions db !! CompleteInput_SessionID input = Some s;
  lc_session_user : ls_UserID s = CompleteInput_UserID input;
  lc_session_binding : ls_SessionBindingID s = CompleteInput_SessionBindingID input;
  lc_unrevoked : ls_RevokedAt s = None;
  lc_expires : CompleteInput_Now input < ls_ExpiresAt s;
  lc_idle : CompleteInput_Now input < ls_IdleExpiresAt s }.

Definition candidate_of (confirmed : bool) (t : LogoutTransactionRow) : CompletionCandidate :=
  mkCompletionCandidate confirmed (lo_VerifiedClientID t) (valueString (lo_PostLogoutRedirectUri t))
    (valueString (lo_StateValue t)).

Definition set_logout (t : LogoutTransactionRow) (db : DB) : DB :=
  with_logout_transactions (<[lo_ID t := t]> (logout_transactions db)) db.

(** The outcomes of a completion, with the tables each leaves. *)
Inductive logout_outcome (db : DB) (input : CompleteInput) : CompletionCandidate + error → DB → Prop :=
| outcome_confirmed t s audits :
    confirmable db input t s → lo_CsrfHash t = Some (CompleteInput_CSRFHash input) →
    CompleteInput_Decision input = DecisionConfirm →
    logout_outcome db input (inl (candidate_of true t))
      (with_audit_events audits (set_logout (finish_logout StageConfirmed (timestamp (CompleteInput_Now input)) t)
        (with_login_sessions (<[ls_ID s := revoke_session (timestamp (CompleteInput_Now input)) (Some "logout") s]> (login_sessions db))
          (bindings_revoked [ls_SessionBindingID s] (timestamp (CompleteInput_Now input)) (Some "session_revoked") db))))
| outcome_canceled t s :
    confirmable db input t s → lo_CsrfHash t = Some (CompleteInput_CSRFHash input) →
    CompleteInput_Decision input = DecisionCancel →
    logout_outcome db input (inl (candidate_of false t))
      (set_logout (finish_logout StageCanceled (timestamp (CompleteInput_Now input)) t) db)
| outcome_wrong_proof t s :
    confirmable db input t s → lo_CsrfHash t ≠ Some (CompleteInput_CSRFHash input) →
    logout_outcome db input (inr logout_ErrCSRF) (set_logout (count_logout_attempt t) db).

Lemma sameDigest_true a b : sameDigest a b = true → a = b ∧ len b = 32.
Proof. unfold sameDigest. intros H. go_bools. by subst. Qed.
Lemma sameDigest_false_csrf (h : option bytes) b :
  unless_null h (λ h, len h =? 32) = true → len b = 32 → sameDigest (default "" h) b = false → h ≠ Some b.
Proof.
  unfold sameDigest. intros Hh Hb H ->. simpl in *. rewrite Hb in H.
  by rewrite !bool_decide_eq_true_2 in H by done.
Qed.

Lemma logout_key db k t : db_ok db → logout_transactions db !! k = Some t → lo_ID t = k.
Proof. intros Hok Hk. by apply (proj1 (ok_logouts db Hok) k t Hk). Qed.
Lemma logout_by_hash db h t :
  db_ok db → find_row (λ r, lo_LookupHash r == h) (logout_transactions db) = Some t →
  logout_transactions db !! lo_ID t = Some t ∧ lo_LookupHash t = h.
Proof.
  intros Hok Hf. apply find_row_Some in Hf as [Hh [k Hk]]. rewrite (logout_key _ _ _ Hok Hk). by go_bools.
Qed.
Lemma update_logout_inl db id p f x db' :
  update_row logout_transactions_table id p f db = inl (x, db') →
  ∃ r, logout_transactions db !! id = Some r ∧ p r = true ∧ x = f r ∧
       db' = with_logout_transactions (<[id := f r]> (logout_transactions db)) db.
Proof. intros (r & Hk & Hp & _ & -> & ->)%update_row_inl. by exists r. Qed.

Lemma confirmLogout_step input id w w' x :
  confirmLogout input id w = (w', inl x) →
  ∃ s t audits, login_sessions (w_db w) !! CompleteInput_SessionID input = Some s ∧
    logout_transactions (w_db w) !! id = Some t ∧
    w_db w' = with_audit_events audits
      (with_logout_transactions (<[id := finish_logout StageConfirmed (timestamp (CompleteInput_Now input)) t]> (logout_transactions (w_db w)))
        (with_login_sessions (<[CompleteInput_SessionID input := revoke_session (timestamp (CompleteInput_Now input)) (Some "logout") s]>
            (login_sessions (w_db w)))
          (bindings_revoked [CompleteInput_SessionBindingID input] (timestamp (CompleteInput_Now input)) (Some "session_revoked") (w_db w)))).
Proof.
  unfold confirmLogout. intros H. do 11 browser_step H. 
  apply revoke_families_inl in Hstmt as ->. apply revoke_live_access_inl in Hstmt0 as ->.
  apply revoke_session_inl in Hstmt1 as (s & Hs & _ & _ & _ & ->). apply update_logout_inl in Hstmt2 as (t & Ht & _ & _ & ->).
  simpl in Hs, Ht. eexists s, t, _. do 2 (split; [done|]). by etrans; [eassumption|].
Qed.

Lemma completeLogout_inv input w w' o :
  db_ok (w_db w) → len (CompleteInput_CSRFHash input) = 32 →
  (CompleteInput_Decision input = DecisionConfirm ∨ CompleteInput_Decision input = DecisionCancel) →
  completeLogoutTransaction_tx input w = (w', inl o) → logout_outcome (w_db w) input o (w_db w').
Proof.
  intros Hok Hlen Hdec H. unfold completeLogoutTransaction_tx in H. do 4 browser_step H. rename a into t, a1 into s.
  unfold foreign_authority, stale_session in *. time_unfold. simpl in Hguard, Hguard0. go_bools.
  assert (Hc : confirmable (w_db w) input t s) by (split; try done; by apply eq_None_not_Some).
  destruct (logout_by_hash _ _ _ Hok Hstmt) as [Hk _]. pose proof (session_key _ _ _ Hok Hstmt0) as Hid.
  simpl in H. destruct (sameDigest (default "" (lo_CsrfHash t)) _) eqn:Ed; simpl in H.
  - apply sameDigest_true in Ed as [Ed _].
    assert (Hcsrf : lo_CsrfHash t = Some (CompleteInput_CSRFHash input)).
    { destruct (lo_CsrfHash t) as [h|]; simpl in Ed; [by subst|]. by rewrite <- Ed in Hlen. }
    case_bool_decide as Ecancel.
    + do 2 browser_step H. apply update_logout_inl in Hstmt1 as (t' & Ht' & _ & _ & ->).
      assert (t' = t) as -> by congruence. rewrite Hdb3. rewrite bool_decide_eq_false_2 by (by rewrite Ecancel).
      by apply (outcome_canceled _ _ t s).
    + destruct Hdec as [Hconf|?]; [|done]. tx_step H. tx_step H.
      apply confirmLogout_step in Hrun as (s' & t' & audits & Hs' & Ht' & Hdb4).
      rewrite Hdb2 in Hs', Ht', Hdb4. assert (s' = s) as -> by congruence. assert (t' = t) as -> by congruence.
      rewrite Hdb4, bool_decide_eq_true_2 by done. rewrite <- Hid, <- (lc_session_binding _ _ _ _ Hc).
      by apply (outcome_confirmed _ _ t s).
  - assert (Hwrong : lo_CsrfHash t ≠ Some (CompleteInput_CSRFHash input)).
    { intros E. rewrite E in Ed. simpl in Ed. unfold sameDigest in Ed. rewrite Hlen, !bool_decide_eq_true_2 in Ed by done. done. }
    rewrite (proj2 (Z.ltb_lt _ _) (lc_attempts _ _ _ _ Hc)) in H. do 2 tx_step H. tx_step Hrun.
    apply query_opt_step in Hrun0 as [_ Hq]. destruct a1 as [r|].
    + destruct Hq as (db & Hs & Hq). rewrite Hdb2 in Hs. apply update_logout_inl in Hs as (t' & Ht' & _ & _ & ->).
      assert (t' = t) as -> by congruence. rewrite Hq. by apply (outcome_wrong_proof _ _ t s).
    + destruct Hq as [Hs _]. rewrite Hdb2 in Hs. unfold IncrementLogoutTransactionAttempt, update_row in Hs.
      change (tbl_get logout_transactions_table (w_db w)) with (logout_transactions (w_db w)) in Hs. rewrite Hk in Hs.
      rewrite (lc_open _ _ _ _ Hc), (proj2 (Z.ltb_lt _ _) (lc_attempts _ _ _ _ Hc)) in Hs. simpl in Hs.
      by destruct (negb _).
Qed.

(** ** Why a completion fails without a change *)

Lemma finish_logout_inr op stage now t w w' e :
  logout_transactions (w_db w) !! lo_ID t = Some t → lo_Stage t = StageBoundConfirmable → lo_ConsumedAt t = None →
  query_row op logout_ErrNotFound (finish_bound_logout stage now (lo_ID t)) w = (w', inr e) → technical_failure e.
Proof.
  intros Ht Hs Hc [H|[_ H]]%query_row_inr; [done|]. exfalso. revert H. eapply update_row_present; [exact Ht|].
  by rewrite Hs, Hc.
Qed.

Lemma confirmLogout_inr input t s w w' e :
  logout_transactions (w_db w) !! lo_ID t = Some t → lo_Stage t = StageBoundConfirmable → lo_ConsumedAt t = None →
  login_sessions (w_db w) !! CompleteInput_SessionID input = Some s → ls_RevokedAt s = None →
  confirmLogout input (lo_ID t) w = (w', inr e) → technical_failure e.
Proof.
  intros Ht Hst Hc Hs Hr H. unfold confirmLogout in H. cbv zeta in H.
  apply bind_cases in H as [(v1 & x1 & H1 & H)|(e' & [= <-] & H)]; [|by eapply query_inr]. tx_step H1.
  apply bind_cases in H as [(v2 & x2 & H2 & H)|(e' & [= <-] & H)]; [|by eapply query_inr]. tx_step H2.
  apply bind_cases in H as [(v3 & x3 & H3 & H)|(e' & [= <-] & H)]; [|by eapply query_inr].
  tx_step H3. apply revoke_families_inl in Hstmt as ->.
  apply bind_cases in H as [(v4 & x4 & H4 & H)|(e' & [= <-] & H)]; [|by eapply query_inr].
  tx_step H4. apply revoke_live_access_inl in Hstmt as ->.
  assert (Hs4 : login_sessions (w_db v4) !! CompleteInput_SessionID input = Some s) by (by rewrite Hdb4).
  assert (Ht4 : logout_transactions (w_db v4) !! lo_ID t = Some t) by (by rewrite Hdb4). clear Hdb3 Hdb4.
  apply bind_cases in H as [(v5 & x5 & H5 & H)|(e' & [= <-] & H)].
  2: { apply query_row_inr in H as [H|[_ H]]; [done|]. exfalso. revert H.
       eapply update_row_present; [exact Hs4|]. by rewrite Hr. }
  tx_step H5. apply revoke_session_inl in Hstmt as (s' & _ & _ & _ & _ & ->).
  apply bind_cases in H as [(v6 & x6 & H6 & H)|(e' & [= <-] & H)]; [|by refine (finish_logout_inr _ _ _ t _ _ _ _ Hst Hc H); rewrite Hdb3].
  repeat (apply bind_cases in H as [(? & ? & _ & H)|(? & [= <-] & H)];
    [|first [done|by eapply audit_New_inr|by eapply insertAudit_inr]]). done.
Qed.

(** The body fails for technical reasons, or because there is nothing to complete. *)
Lemma completeLogout_inr input w w' e :
  db_ok (w_db w) → len (CompleteInput_LookupHash input) = 32 → completeLogoutTransaction_tx input w = (w', inr e) →
  technical_failure e ∨ (e = logout_ErrNotFound ∧ ¬ ∃ t s, confirmable (w_db w) input t s).
Proof.
  intros Hok Hlen H. unfold completeLogoutTransaction_tx in H.
  apply bind_cases in H as [(v1 & t & H1 & H)|(e' & [= <-] & H)].
  2: { apply query_row_inr in H as [H|[-> H]]; [by left|]. right. split; [done|]. intros (t & s & Hc).
       unfold LockLogoutTransactionByLookupHash, select_one in H. by rewrite (lc_row _ _ _ _ Hc) in H. }
  tx_step H1. cbv zeta in H. destruct (logout_by_hash _ _ _ Hok Hstmt) as [Hk Hh].
  apply bind_cases in H as [(v2 & x2 & H2 & H)|(e' & [= <-] & H)].
  2: { right. unfold reject_if in H. destruct (_ || _) eqn:Eg in H; [|done]. injection H as _ <-. split; [done|]. intros (t' & s & Hc).
       pose proof (lc_row _ _ _ _ Hc) as Hrow. rewrite Hstmt in Hrow. injection Hrow as <-.
       destruct Hc as [_ C1 C2 C3 C4 C5 C6 C7 _ _ _ _ _ _]. revert Eg. apply not_true_iff_false.
       unfold foreign_authority, sameDigest. simpl. rewrite Hh, Hlen, C1, C2, C5, C6, C7. time_unfold.
       rewrite (proj2 (Z.ltb_lt _ _) C3), (proj2 (Z.leb_gt _ _) C4).
       rewrite (bool_decide_eq_false_2 (is_Some None)) by (by intros [? [=]]). by rewrite !(bool_decide_eq_true_2 _ eq_refl). }
  apply reject_if_inl in H2 as [Hg ->].
  apply bind_cases in H as [(v2 & s & H2 & H)|(e' & [= <-] & H)].
  2: { apply query_row_inr in H as [H|[-> H]]; [by left|]. right. split; [done|]. intros (t' & s & Hc).
       unfold LockLoginSessionByID, select_one in H. rewrite Hdb0 in H. by rewrite (lc_session _ _ _ _ Hc) in H. }
  tx_step H2.
  apply bind_cases in H as [(v3 & x3 & H3 & H)|(e' & [= <-] & H)].
  2: { right. unfold reject_if in H. destruct (stale_session _ _ _ _) eqn:Eg in H; [|done]. injection H as _ <-. split; [done|].
       intros (t' & s' & Hc). pose proof (lc_session _ _ _ _ Hc) as Hrow. rewrite Hstmt0 in Hrow. injection Hrow as <-.
       destruct Hc as [_ _ _ _ _ _ _ _ _ C1 C2 C3 C4 C5]. revert Eg. apply not_true_iff_false.
       unfold stale_session. rewrite C1, C2, C3. time_unfold. rewrite (proj2 (Z.ltb_lt _ _) C4), (proj2 (Z.ltb_lt _ _) C5).
       rewrite (bool_decide_eq_false_2 (is_Some None)) by (by intros [? [=]]). by rewrite !(bool_decide_eq_true_2 _ eq_refl). }
  apply reject_if_inl in H3 as [Hg2 ->]. left.
  destruct (negb (sameDigest _ _)) in H.
  - apply bind_cases in H as [(? & ? & _ & H)|(e' & [= <-] & H)]; [done|]. destruct (_ <? _) in H; [|done].
    apply bind_cases in H as [(? & ? & _ & H)|(e' & [= <-] & H)]; [done|by eapply query_opt_inr].
  - unfold foreign_authority, stale_session in *. simpl in Hg. time_unfold. go_bools.
    assert (lo_ConsumedAt t = None) by (by apply eq_None_not_Some). assert (ls_RevokedAt s = None) by (by apply eq_None_not_Some).
    destruct (_ == DecisionCancel) in H; apply bind_cases in H as [(? & ? & _ & H)|(e' & [= <-] & H)]; try done.
    + refine (finish_logout_inr _ _ _ t _ _ _ _ _ _ H); [by rewrite Hdb2|done|done].
    + refine (confirmLogout_inr _ t s _ _ _ _ _ _ _ _ H); [by rewrite Hdb2|done|done|by rewrite Hdb2|done].
Qed.

(** The guard of the operation: digests, identifiers, a time, one of the two decisions and
    a bound between one and ten attempts. *)
Definition complete_input (input : CompleteInput) : bool :=
  (len (CompleteInput_LookupHash input) == 32) && (len (CompleteInput_CSRFHash input) == 32) &&
  (CompleteInput_UserID input != uuid_Nil) && (CompleteInput_SessionID input != uuid_Nil) &&
  (CompleteInput_SessionBindingID input != uuid_Nil) && (CompleteInput_Now input != Time.zero) &&
  ((CompleteInput_Decision input == DecisionConfirm) || (CompleteInput_Decision input == DecisionCancel)) &&
  (1 <=? CompleteInput_MaxAttempts input) && (CompleteInput_MaxAttempts input <=? 10).

Lemma CompleteLogout_cases input w w' r :
  db_ok (w_db w) → CompleteLogoutTransaction input w = (w', r) →
  (∃ o, logout_outcome (w_db w) input o (w_db w') ∧ (r = o ∨ ∃ d, r = inr (wrapError "commit transaction" ErrorKindQuery d))) ∨
  (w_db w' = w_db w ∧ ∃ e, r = inr e ∧
     (technical_failure e ∨ (e = logout_ErrNotFound ∧ (complete_input input = false ∨ ¬ ∃ t s, confirmable (w_db w) input t s)))).
Proof.
  intros Hok. unfold CompleteLogoutTransaction. unfold reject_if. destruct (_ || _) eqn:Eg.
  { intros [= <- <-]. right. split; [done|]. eexists. split; [done|]. right. split; [done|]. left.
    apply not_true_iff_false. intros Hin. unfold complete_input in Hin. revert Eg. apply not_true_iff_false.
    unfold Time.IsZero. go_bools. tauto. }
  assert (Hlook : len (CompleteInput_LookupHash input) = 32).
  { destruct (len (CompleteInput_LookupHash input) != 32) eqn:E; [by rewrite !orb_true_l in Eg|]. by go_bools. }
  assert (Hlen : len (CompleteInput_CSRFHash input) = 32).
  { destruct (len (CompleteInput_CSRFHash input) != 32) eqn:E; [by rewrite !orb_true_r in Eg|]. by go_bools. }
  assert (Hdec : CompleteInput_Decision input = DecisionConfirm ∨ CompleteInput_Decision input = DecisionCancel).
  { destruct (decide (CompleteInput_Decision input = DecisionConfirm)); [by left|].
    destruct (decide (CompleteInput_Decision input = DecisionCancel)); [by right|].
    by rewrite !(bool_decide_eq_false_2 (CompleteInput_Decision input = _)), !orb_true_r in Eg by done. }
  unfold mbind, Tx_bind, mret, Tx_ret, observeAuditEvents. destruct (inTx _ w) as [w1 o] eqn:E. simpl.
  destruct o as [o|e].
  - apply inTx_inl in E as (w2 & w3 & Hw2 & Hrun & Hw3). rewrite <- Hw2 in Hok. pose proof (completeLogout_inv _ _ _ _ Hok Hlen Hdec Hrun) as Ho.
    rewrite Hw2, Hw3 in Ho. destruct o as [c|e]; intros [= <- <-]; left; eauto.
  - intros [= <- <-].
    assert (He : technical_failure e ∨ (e = logout_ErrNotFound ∧ ¬ ∃ t s, confirmable (w_db w) input t s)).
    { refine (inTx_inr _ (λ e, technical_failure e ∨ (e = logout_ErrNotFound ∧ ¬ ∃ t s, confirmable (w_db w) input t s)) _ _ _ _ _ E); [intros d op; left; left; by exists op, d|]. intros w2 w3 e' Hw2 Hrun.
      rewrite <- Hw2. apply completeLogout_inr in Hrun; [done|by rewrite Hw2|done]. }
    apply inTx_attempts_cases in E as [E|[(o & w2 & w3 & Hw2 & Hrun & Hw3) (d & ->)]].
    { right. split; [done|]. exists e. split; [done|]. destruct He as [He|[-> He]]; auto. }
    rewrite <- Hw2 in Hok. pose proof (completeLogout_inv _ _ _ _ Hok Hlen Hdec Hrun) as Ho. rewrite Hw2, Hw3 in Ho.
    left. eauto.
Qed.

(** C13: Completing a logout does exactly one of three things.  When the proof matches, a
    confirmation ends the bound session, marks the transaction confirmed, revokes every
    refresh family on the session's binding and its live access tokens; a cancellation
    only marks the transaction canceled.  When the proof does not match, nothing but the
    transaction's attempt counter changes, by one, and the call reports the failure; a
    completion whose commit was lost reports the ambiguous commit error.  Only two causes
    leave the tables unchanged: the driver or the audit log failed, or there was nothing to
    complete, the input being malformed or no open, unexhausted transaction of the digest
    being bound to a live session of the user, and the error is then [ErrNotFound].  So a
    wrong proof on an open transaction is counted whenever the storage answers. *)
Theorem logout_completion_refines input w w' r :
  db_ok (w_db w) → CompleteLogoutTransaction input w = (w', r) →
  (∃ o, logout_outcome (w_db w) input o (w_db w') ∧ (r = o ∨ ∃ d, r = inr (wrapError "commit transaction" ErrorKindQuery d))) ∨
  (w_db w' = w_db w ∧ ∃ e, r = inr e ∧
     (technical_failure e ∨ (e = logout_ErrNotFound ∧ (complete_input input = false ∨ ¬ ∃ t s, confirmable (w_db w) input t s)))).
Proof. apply CompleteLogout_cases. Qed.

(** ** A closed transaction stays closed *)

(** Transactions with this lookup digest are finished, or have no attempt left. *)
Definition logout_closed (h : bytes) (attempts : Z) (db : DB) : Prop :=
  map_Forall (λ _ t, lo_LookupHash t = h → is_Some (lo_ConsumedAt t) ∨ attempts <= lo_AttemptCount t) (logout_transactions db).
Definition no_logout (h : bytes) : policy := mkPolicy any any any any any any any (λ r, lo_LookupHash r ≠ h) any any any_change.

Lemma write_logout_closed h n db db' : write (no_logout h) db db' → logout_closed h n db → logout_closed h n db'.
Proof.
  unfold logout_closed. destruct 1; simpl in *; try done; intros HI.
  - by apply map_Forall_insert_2.
  - eapply map_Forall_pointwise; [|done|done]. intros k r r' (_ & Eh & _ & _ & Ea & _ & Ec) HQ Hh.
    rewrite Eh in Hh. destruct (HQ Hh) as [Hs|Hs]; [left; by rewrite (Ec Hs)|right; lia].
  - by apply map_Forall_delete_ids.
Qed.

(** A closed transaction has no outcome. *)
Lemma closed_no_outcome db input o db' n :
  db_ok db → logout_closed (CompleteInput_LookupHash input) n db → CompleteInput_MaxAttempts input <= n →
  logout_outcome db input o db' → False.
Proof.
  intros Hok Hcl Hn Ho. assert (∃ t s, confirmable db input t s) as (t & s & Hc) by (destruct Ho; eauto).
  destruct (logout_by_hash _ _ _ Hok (lc_row _ _ _ _ Hc)) as [Hk Hh].
  pose proof (lc_open _ _ _ _ Hc). pose proof (lc_attempts _ _ _ _ Hc).
  destruct (Hcl _ _ Hk Hh) as [[x Hx]|Hx]; [congruence|lia].
Qed.

Lemma set_logout_closed db t t' n :
  db_ok db → logout_transactions db !! lo_ID t = Some t → lo_ID t' = lo_ID t →
  is_Some (lo_ConsumedAt t') ∨ n <= lo_AttemptCount t' → logout_closed (lo_LookupHash t) n (set_logout t' db).
Proof.
  intros Hok Hk Hid Hc k r. unfold set_logout. simpl. rewrite Hid.
  destruct (decide (k = lo_ID t)) as [->|Hne]; [rewrite lookup_insert_eq|rewrite lookup_insert_ne by done].
  - by intros [= <-] _.
  - intros Hr Hh. destruct Hne. destruct (ok_logouts _ Hok) as (_ & _ & Hu). apply (Hu k (lo_ID t) r t Hr Hk).
    simpl. by rewrite bool_decide_eq_true.
Qed.

(** A completed transaction, or one whose last attempt was spent, is closed. *)
Lemma outcome_closes db input o db' :
  db_ok db → logout_outcome db input o db' →
  match o with
  | inl _ => ∀ n, logout_closed (CompleteInput_LookupHash input) n db'
  | inr _ => ∃ t, logout_transactions db' !! lo_ID t = Some t ∧ lo_LookupHash t = CompleteInput_LookupHash input ∧
      ∀ n, n <= lo_AttemptCount t → logout_closed (CompleteInput_LookupHash input) n db'
  end.
Proof.
  intros Hok [t s audits Hc _ _|t s Hc _ _|t s Hc _];
    destruct (logout_by_hash _ _ _ Hok (lc_row _ _ _ _ Hc)) as [Hk Hh]; rewrite <- Hh.
  - intros n. apply (set_logout_closed db t (finish_logout _ _ t)); [done|done|done|left; by eexists].
  - intros n. apply (set_logout_closed db t (finish_logout _ _ t)); [done|done|done|left; by eexists].
  - exists (count_logout_attempt t). unfold set_logout. simpl. rewrite lookup_insert_eq. do 2 (split; [done|]).
    intros n Hn. apply (set_logout_closed db t (count_logout_attempt t)); [done|done|done|by right].
Qed.

Lemma complete_ok input w w' r : db_ok (w_db w) → CompleteLogoutTransaction input w = (w', r) → db_ok (w_db w').
Proof. intros Hok H. by eapply (run_ok (OpCompleteLogout input) _ ResultCandidate). Qed.

Lemma closed_refused input w w' r n :
  db_ok (w_db w) → logout_closed (CompleteInput_LookupHash input) n (w_db w) → CompleteInput_MaxAttempts input <= n →
  CompleteLogoutTransaction input w = (w', r) → w_db w' = w_db w ∧ ∃ e, r = inr e.
Proof.
  intros Hok Hcl Hn H. destruct (CompleteLogout_cases _ _ _ _ Hok H) as [(o & Ho & _)|[Hsame (e & He & _)]]; [|by eauto].
  by destruct (closed_no_outcome _ _ _ _ _ Hok Hcl Hn Ho).
Qed.

(** A logout transaction is completed at most once, and its proof can be guessed only a
    bounded number of times.  Once a completion returned, or once the stored attempt
    counter reached the bound a caller uses, no later completion with that lookup digest
    has any effect, in any state a sequence of store operations reaches: it returns an
    error and leaves the tables as they are (only storing the digest again is excluded). *)
Theorem logout_at_most_once input w w' r input2 db2 w2 w3 r2 :
  db_ok (w_db w) → CompleteLogoutTransaction input w = (w', r) →
  (∃ c, r = inl c) ∨ (∃ k t, logout_transactions (w_db w') !! k = Some t ∧ lo_LookupHash t = CompleteInput_LookupHash input ∧
                             CompleteInput_MaxAttempts input2 <= lo_AttemptCount t) →
  reaches (obeys (no_logout (CompleteInput_LookupHash input))) (w_db w') db2 →
  CompleteInput_LookupHash input2 = CompleteInput_LookupHash input → w_db w2 = db2 →
  CompleteLogoutTransaction input2 w2 = (w3, r2) → w_db w3 = w_db w2 ∧ ∃ e, r2 = inr e.
Proof.
  intros Hok H Hclosed Hr Hh Hw2 H2. pose proof (complete_ok _ _ _ _ Hok H) as Hok'.
  assert (Hc : logout_closed (CompleteInput_LookupHash input) (CompleteInput_MaxAttempts input2) (w_db w')).
  { destruct Hclosed as [[c ->]|(k & t & Hk & Ht & Hn)].
    - destruct (CompleteLogout_cases _ _ _ _ Hok H) as [(o & Ho & Ho2)|[_ (e & ? & _)]]; [|done].
      destruct o as [c'|e]; [|by destruct Ho2 as [|[]]]. by apply (outcome_closes _ _ _ _ Hok Ho).
    - intros k' t' Hk' Ht'. right. destruct (ok_logouts _ Hok') as (_ & _ & Hu).
      assert (k' = k) as -> by (apply (Hu k' k t' t Hk' Hk); simpl; apply bool_decide_eq_true; congruence). by simplify_eq. }
  eapply (closed_refused input2); [rewrite Hw2; by eapply reaches_ok|rewrite Hh, Hw2|done|done].
  eapply reaches_stable; [apply write_logout_closed|exact Hr|done].
Qed.

(** ** Binding *)

(** Bind the pre-confirm transaction, or give the bound one a new proof. *)
Definition bound_row (input : BindInput) (t : LogoutTransactionRow) : LogoutTransactionRow :=
  if lo_Stage t == StagePreConfirm then
    bind_logout (mkBindLogoutParams (BindInput_CSRFHash input) (BindInput_UserID input) (BindInput_SessionID input)
      (BindInput_SessionBindingID input) (timestamp (BindInput_Now input)) (pointerString (BindInput_Subject input)) (lo_ID t)) t
  else set_logout_csrf (BindInput_CSRFHash input) t.

Lemma bindLogout_inv input w w' x :
  db_ok (w_db w) → bindLogoutTransaction_tx input w = (w', inl x) →
  ∃ t s, find_row (λ r, lo_LookupHash r == BindInput_LookupHash input) (logout_transactions (w_db w)) = Some t ∧
    lo_ConsumedAt t = None ∧ BindInput_Now input < lo_ExpiresAt t ∧ lo_AttemptCount t < BindInput_MaxAttempts input ∧
    login_sessions (w_db w) !! BindInput_SessionID input = Some s ∧
    stale_session s (BindInput_UserID input) (BindInput_SessionBindingID input) (BindInput_Now input) = false ∧
    (lo_Stage t = StagePreConfirm ∧
       count_where (live_bound (BindInput_SessionID input) (timestamp (BindInput_Now input))) (logout_transactions (w_db w)) <
         BindInput_MaxActive input ∨
     lo_Stage t = StageBoundConfirmable ∧ lo_SessionID t = Some (BindInput_SessionID input)) ∧
    x = mapLogoutTransaction (bound_row input t) ∧ w_db w' = set_logout (bound_row input t) (w_db w).
Proof.
  intros Hok H. unfold bindLogoutTransaction_tx in H. do 4 browser_step H. rename a into t, a1 into s.
  time_unfold. simpl in Hguard. go_bools.
  destruct (logout_by_hash _ _ _ Hok Hstmt) as [Hk _]. exists t, s. unfold bound_row, set_logout.
  do 1 (split; [done|]). split; [by apply eq_None_not_Some|]. do 4 (split; [done|]).
  simpl in H. case_bool_decide as E1.
  - browser_step H. injection Hstmt1 as <- <-. browser_step H. browser_step H.
    apply BindPreConfirmLogoutTransaction_inl in Hstmt1 as (t' & Ht' & _ & _ & _ & _ & -> & _ & _ & ->).
    simpl in Ht'. assert (t' = t) as -> by congruence. browser_step H. go_bools. split; [by left|]. split; [done|]. etrans; [eassumption|done].
  - case_bool_decide as E2; [|tx_step H]. do 3 browser_step H.
    apply update_logout_inl in Hstmt1 as (t' & Ht' & _ & -> & ->). assert (t' = t) as -> by congruence.
    unfold foreign_authority in *. simpl in *. go_bools. split; [by right|]. split; [done|]. etrans; [eassumption|done].
Qed.

Lemma bound_row_live input t :
  lo_Stage t = StagePreConfirm ∨ lo_Stage t = StageBoundConfirmable →
  lo_SessionID (bound_row input t) = (if lo_Stage t == StagePreConfirm then Some (BindInput_SessionID input) else lo_SessionID t) ∧
  lo_Stage (bound_row input t) = StageBoundConfirmable ∧ lo_ConsumedAt (bound_row input t) = lo_ConsumedAt t ∧
  lo_ExpiresAt (bound_row input t) = lo_ExpiresAt t.
Proof.
  unfold bound_row. intros [E|E]; rewrite E;
    [rewrite bool_decide_eq_true_2 by done|rewrite bool_decide_eq_false_2 by done]; by simpl.
Qed.

(** Binding a logout transaction keeps a browser session within its bound of open
    logouts, and never carries a redirect across accounts.  After a successful bind the
    presented transaction is bound to the presented live session of the presented user;
    the session has at most the allowed number of live bound transactions, or no more
    than before when the transaction was bound already; and a transaction that is bound
    first keeps its post-logout redirect only if its hint names no other subject. *)
Theorem logout_bind_bounded input w w' x :
  db_ok (w_db w) → BindLogoutTransaction input w = (w', inl x) →
  let live db := count_where (live_bound (BindInput_SessionID input) (timestamp (BindInput_Now input))) (logout_transactions db) in
  ∃ t s, find_row (λ r, lo_LookupHash r == BindInput_LookupHash input) (logout_transactions (w_db w)) = Some t ∧
    login_sessions (w_db w) !! BindInput_SessionID input = Some s ∧
    stale_session s (BindInput_UserID input) (BindInput_SessionBindingID input) (BindInput_Now input) = false ∧
    x = mapLogoutTransaction (bound_row input t) ∧ w_db w' = set_logout (bound_row input t) (w_db w) ∧
    live (w_db w') <= Z.max (BindInput_MaxActive input) (live (w_db w)) ∧
    (lo_Stage t = StagePreConfirm → live (w_db w') <= BindInput_MaxActive input ∧
       (lo_PostLogoutRedirectUri (bound_row input t) ≠ None →
        lo_HintSubject t = None ∨ lo_HintSubject t = pointerString (BindInput_Subject input))).
Proof.
  intros Hok H live. unfold BindLogoutTransaction in H. tx_step H. clear Hguard.
  apply inTx_inl in H as (w1 & w2 & Hw1 & Hrun & Hw2). rewrite <- Hw1 in *.
  destruct (bindLogout_inv _ _ _ _ Hok Hrun) as (t & s & Hf & Hn & Hl & Ha & Hs & Hst & Hstage & -> & Hdb).
  exists t, s. rewrite <- Hw2. do 5 (split; [done|]). destruct (logout_by_hash _ _ _ Hok Hf) as [Hk _].
  assert (Hid : lo_ID (bound_row input t) = lo_ID t) by (unfold bound_row; by destruct (_ == _)).
  assert (Hcount : live (w_db w2) <= live (w_db w1) + 1 ∧
                   (lo_Stage t = StageBoundConfirmable ∧ lo_SessionID t = Some (BindInput_SessionID input) → live (w_db w2) = live (w_db w1))).
  { unfold live. rewrite Hdb. unfold set_logout. simpl. rewrite Hid.
    pose proof (count_where_insert (live_bound (BindInput_SessionID input) (timestamp (BindInput_Now input)))
      _ _ _ (bound_row input t) Hk) as E. split.
    - destruct (live_bound _ _ t), (live_bound _ _ (bound_row input t)); lia.
    - intros [E1 E2]. destruct (bound_row_live input t (or_intror E1)) as (B1 & B2 & B3 & B4).
      rewrite E1, bool_decide_eq_false_2 in B1 by done.
      unfold live_bound in E at 2 4. rewrite B1, B2, B3, B4, E1, E2 in E. lia. }
  destruct Hstage as [[E1 Hlt]|E1].
  - change (live (w_db w1) < BindInput_MaxActive input) in Hlt. destruct Hcount as [Hc _].
    split; [lia|]. intros _. split; [lia|]. unfold bound_row. rewrite E1, bool_decide_eq_true_2 by done.
    simpl. intros Hne. destruct ((lo_HintSubject t == None) || _) eqn:Ek; [|done]. rewrite orb_true_iff, !bool_decide_eq_true in Ek. done.
  - destruct Hcount as [_ Hc]. rewrite (Hc E1). split; [lia|]. destruct E1 as [E1 _]. rewrite E1. done.
Qed.
End theorems.

(** ** Witnesses *)

(** A relying party sends the signed-in browser to log out; the user confirms. *)
Definition demo_logout : LogoutTransaction :=
  mkLogoutTransaction 20 (hash_of "l") StagePreConfirm "" (Some 2%N) "https://app.example/bye" "logout-state"
    "ois_sub_QUJDREVGR0hJSktMTU5P" None None None (t0 + 4 * Time.Minute) (t0 + 9 * Time.Minute) None None 0.
Definition logout_db : DB := run_db (LogoutStore.CreateLogoutTransaction demo_logout) (world_of refreshed_db 0).
Definition demo_bind : BindInput :=
  mkBindInput (hash_of "l") (hash_of "k") 1 "ois_sub_QUJDREVGR0hJSktMTU5P" 4 5 (t0 + 5 * Time.Minute) 5 5.
Definition bound_db : DB := run_db (BindLogoutTransaction demo_bind) (world_of logout_db 0).
Definition demo_complete (csrf : bytes) : CompleteInput :=
  mkCompleteInput (hash_of "l") csrf DecisionConfirm 1 4 5 "req-8" (t0 + 6 * Time.Minute) 5.

Lemma logout_db_ok : db_ok logout_db.
Proof. apply db_okb_spec. by vm_compute. Qed.
Lemma bound_db_ok : db_ok bound_db.
Proof. apply db_okb_spec. by vm_compute. Qed.

Lemma logout_bind_bounded_witness : ∃ w' x,
  BindLogoutTransaction demo_bind (world_of logout_db 0) = (w', inl x) ∧
  ∃ t, x = mapLogoutTransaction (bound_row demo_bind t).
Proof.
  destruct (succeeds_run (BindLogoutTransaction demo_bind) (world_of logout_db 0)) as (w' & x & H); [by vm_compute|].
  exists w', x. split; [exact H|].
  destruct (logout_bind_bounded _ _ _ _ (world_ok _ _ logout_db_ok) H) as (t & s & _ & _ & _ & Hx & _). exists t. exact Hx.
Defined.

Lemma demo_completes : ∃ w' c, CompleteLogoutTransaction (demo_complete (hash_of "k")) (world_of bound_db 77) = (w', inl c).
Proof. apply succeeds_run. by vm_compute. Qed.

Lemma logout_completion_refines_witness : ∃ w' c,
  CompleteLogoutTransaction (demo_complete (hash_of "k")) (world_of bound_db 77) = (w', inl c) ∧
  logout_outcome (w_db (world_of bound_db 77)) (demo_complete (hash_of "k")) (inl c) (w_db w').
Proof.
  destruct demo_completes as (w' & c & H). exists w', c. split; [exact H|].
  destruct (logout_completion_refines _ _ _ _ (world_ok _ _ bound_db_ok) H) as [(o & Ho & [E|[d E]])|[_ (e & E & _)]];
    [rewrite E; exact Ho|discriminate E|discriminate E].
Defined.

Lemma logout_at_most_once_witness : ∃ w' c,
  CompleteLogoutTransaction (demo_complete (hash_of "k")) (world_of bound_db 77) = (w', inl c) ∧
  ∃ e, (CompleteLogoutTransaction (demo_complete (hash_of "k")) (world_of (w_db w') 5)).2 = inr e.
Proof.
  destruct demo_completes as (w' & c & H). exists w', c. split; [exact H|].
  destruct (CompleteLogoutTransaction (demo_complete (hash_of "k")) (world_of (w_db w') 5)) as [w3 r] eqn:E.
  refine (proj2 (logout_at_most_once _ _ _ _ _ _ _ _ _ (world_ok _ _ bound_db_ok) H (or_introl (ex_intro _ c eq_refl)) (rtc_refl _ _) eq_refl _ E)).
  done.
Defined.

(** ** An interleaving of logout and code exchange

    The cascade of a logout reaches the refresh families and access tokens that exist when
    it commits.  A code that is still unspent then is not among them, and the exchange
    reads no session: this concrete run records what follows. *)
(** The session the demo code was issued in ends by logout, before the code is spent. *)
Definition demo_principal : Principal :=
  mkPrincipal 4 5 (mapUser demo_user) (hash_of "c") (t0 + Time.Hour) t0 t0 t0 (t0 + 8 * Time.Hour) (t0 + Time.Hour) None.
Definition logged_out : World * (unit + error) :=
  Logout demo_principal demo_cookie "req-10" (t0 + Time.Second) (world_of issued_db 3).
Definition spent_after_logout : World * (Response + error) := Exchange demo_service demo_exchange (world_of (w_db logged_out.1) 7).

(** Logging out succeeds and revokes the session of the binding; the code issued in it is
    exchanged afterwards, and the answer leaves a live refresh family on that binding. *)
Theorem unspent_code_outlives_logout :
  logged_out.2 = inl () ∧
  option_map ls_RevokedAt (login_sessions (w_db logged_out.1) !! 4%N) = Some (Some (t0 + Time.Second)) ∧
  (match spent_after_logout.2 with inl r => Response_RefreshToken r != "" | inr _ => false end) = true ∧
  map (λ f, (rf_SessionBindingID f, rf_RevokedAt f)) (rows (refresh_token_families (w_db spent_after_logout.1))) = [(5%N, None)].
Proof. split_and!; by vm_compute. Qed.
