(* ===== verification/LoginTheorems.v ===== *)
(** * Login: the theorems

    What a login or a registration commits, that a pre-authentication session serves one
    of them at most once, and that the cookie it hands out authenticates. *)

From S2P Require Import Prelude Base64 Errors Platform Scopes Domain Opaque SessionTokens AuditEvents Database Queries.
From S2P Require Import RegistryQueries BrowserQueries Tx StoreCommon SessionStore LoginStore UserStore.
From S2P Require Import Invariants StatementFacts Quiet Writes Lifecycle TokenService AuthorizationService RegistryInvariants.
From S2P Require Import SessionService SessionProofs Demo SessionTheorems.

Section theorems.
Context {P : Platform}.

(** ** The session the browser presented *)

(** The live session behind the presented digest, if any. *)
Definition presented (db : DB) (hash : bytes) (now : time) : option LoginSessionRow :=
  if 0 <? len hash then
    match find_row (λ r, ls_TokenHash r == hash) (login_sessions db) with
    | Some s => if live_session now s then Some s else None
    | None => None
    end
  else None.

Lemma lock_existing_step op hash now w w' r :
  lock_existing op hash now w = (w', inl r) →
  r = presented (w_db w) hash now ∧ w_db w' = w_db w ∧ w_rand w' = w_rand w.
Proof.
  unfold lock_existing, presented. destruct (0 <? len hash); simpl; [|by intros [= <- <-]].
  intros H. apply Tx_bind_inl in H as (w1 & found & Hl & H). apply locking_step in Hl as (w0 & Hdb0 & Hr0 & Hl).
  apply query_opt_step in Hl as [Hr1 Hf]. injection H as <- <-. rewrite Hdb0 in Hf. destruct found as [s|].
  - destruct Hf as (db & Hs & Hdb). select_inv Hs. rewrite Hs. split; [|split; congruence].
    unfold live_session. time_unfold. destruct (ls_RevokedAt s); simpl; [done|]. done.
  - destruct Hf as [Hs Hdb]. split; [|split; congruence]. unfold LockLoginSessionByTokenHash, select_one in Hs.
    by destruct (find_row _ _).
Qed.

Lemma revoke_existing_step op reason s actor rid now w w' x :
  revoke_existing op reason s actor rid now w = (w', inl x) →
  ∃ r audits, login_sessions (w_db w) !! ls_ID s = Some r ∧
    w_db w' = with_audit_events audits (with_login_sessions (<[ls_ID s := revoke_session (timestamp now) (pointerString reason) r]>
      (login_sessions (w_db w))) (w_db w)) ∧ w_rand w' = w_rand w.
Proof.
  unfold revoke_existing. intros H. do 3 browser_step H. apply revoke_session_inl in Hstmt as (r & Hr & _ & _ & _ & ->).
  exists r, audits. split; [done|]. split; [|done]. etrans; [eassumption|done].
Qed.

(** What becomes of the presented session in a login of [user], and what it takes down. *)
Definition replace_reason (user : uuid) (s : LoginSessionRow) : string :=
  if ls_UserID s == user then "rotation" else "account_switch".
Definition replaced_sessions (user : uuid) (now : time) (existing : option LoginSessionRow) (t : gmap uuid LoginSessionRow)
    : gmap uuid LoginSessionRow :=
  match existing with
  | Some s => <[ls_ID s := revoke_session now (Some (replace_reason user s)) s]> t
  | None => t
  end.
Definition switched_account (user : uuid) (now : time) (existing : option LoginSessionRow) (db : DB) : DB :=
  match existing with
  | Some s => if ls_UserID s == user then db else bindings_revoked [ls_SessionBindingID s] now (Some "account_switch") db
  | None => db
  end.
(** The binding survives a rotation and nothing else. *)
Definition login_binding (commit : LoginCommit) (existing : option LoginSessionRow) : uuid :=
  match existing with
  | Some s => if ls_UserID s == LoginCommit_UserID commit then ls_SessionBindingID s
              else SR_SessionBindingID (LoginCommit_Session commit)
  | None => SR_SessionBindingID (LoginCommit_Session commit)
  end.

Lemma replace_existing_step commit s w w' b :
  login_sessions (w_db w) !! ls_ID s = Some s → replace_existing commit s w = (w', inl b) →
  ∃ audits, b = login_binding commit (Some s) ∧
    w_db w' = with_audit_events audits
      (with_login_sessions (replaced_sessions (LoginCommit_UserID commit) (timestamp (LoginCommit_Now commit)) (Some s) (login_sessions (w_db w)))
         (switched_account (LoginCommit_UserID commit) (timestamp (LoginCommit_Now commit)) (Some s) (w_db w))) ∧
    w_rand w' = w_rand w.
Proof.
  intros Hk. unfold replace_existing, login_binding, replaced_sessions, replace_reason, switched_account.
  destruct (ls_UserID s == LoginCommit_UserID commit); intros H.
  - do 2 browser_step H. apply revoke_existing_step in Hrun as (r & audits & Hr & Hdb & Hrd).
    assert (r = s) as -> by congruence. by exists audits.
  - do 3 browser_step H. apply revoke_existing_step in Hrun as (r & audits & Hr & Hdb0 & Hrd).
    rewrite Hdb in Hr, Hdb0. simpl in Hr. assert (r = s) as -> by congruence. exists audits.
    split; [done|]. split; [by rewrite Hdb0|congruence].
Qed.

(** ** What a login commits *)

Definition finished_transaction (consume : bool) (id : uuid) (now : time) (t t' : gmap uuid AuthTransactionRow) : Prop :=
  if consume then ∃ r, t !! id = Some r ∧ tx_ConsumedAt r = None ∧ now < tx_ExpiresAt r ∧ t' = <[id := finish_transaction now (tx_FailureReason r) r]> t
  else t' = t.

(** The tables after a login: the flow is spent, the presented session is replaced, the
    new one is stored; of the user only the last login moves. *)
Record logged_in (commit : LoginCommit) (db : DB) (b : uuid) (db' : DB) : Prop := {
  li_user : ∃ u, users db !! LoginCommit_UserID commit = Some u ∧ u_Status u = identity_StatusActive;
  li_preauth : ∃ p, preauth_sessions db !! LoginCommit_PreAuthID commit = Some p ∧
    live_preauth (timestamp (LoginCommit_Now commit)) p = true ∧
    preauth_sessions db' = <[LoginCommit_PreAuthID commit := consume_preauth (timestamp (LoginCommit_Now commit)) p]> (preauth_sessions db);
  li_transaction : finished_transaction (LoginCommit_ConsumeTransaction commit) (LoginCommit_TransactionID commit)
    (timestamp (LoginCommit_Now commit)) (auth_transactions db) (auth_transactions db');
  li_binding : b = login_binding commit (presented db (LoginCommit_ExistingSessionHash commit) (LoginCommit_Now commit));
  li_fresh : login_sessions db !! SR_ID (LoginCommit_Session commit) = None;
  li_sessions : login_sessions db' = <[SR_ID (LoginCommit_Session commit) := session_row (set_binding b (LoginCommit_Session commit))]>
    (replaced_sessions (LoginCommit_UserID commit) (timestamp (LoginCommit_Now commit))
       (presented db (LoginCommit_ExistingSessionHash commit) (LoginCommit_Now commit)) (login_sessions db));
  li_tokens : let cut := switched_account (LoginCommit_UserID commit) (timestamp (LoginCommit_Now commit))
      (presented db (LoginCommit_ExistingSessionHash commit) (LoginCommit_Now commit)) db in
    refresh_token_families db' = refresh_token_families cut ∧ access_tokens db' = access_tokens cut;
  li_accounts : rowwise same_account (users db) (users db');
  li_untouched : authorization_codes db' = authorization_codes db ∧ refresh_tokens db' = refresh_tokens db ∧
    consent_grants db' = consent_grants db ∧ logout_transactions db' = logout_transactions db ∧ oidc_clients db' = oidc_clients db }.

Lemma presented_key db hash now s : db_ok db → presented db hash now = Some s → login_sessions db !! ls_ID s = Some s.
Proof.
  unfold presented. intros Hok. destruct (0 <? _); [|done]. destruct (find_row _ _) as [r|] eqn:E; [|done].
  destruct (live_session now r); [|done]. intros [= <-]. by apply (session_by_hash _ _ _ Hok E).
Qed.

Lemma UpdateLastLogin_inl t id db x db' :
  UpdateLastLogin t id db = inl (x, db') → ∃ t', db' = with_users t' db ∧ rowwise same_account (users db) t'.
Proof.
  intros [(r & (o & Ho & _ & _ & _ & ->)%update_row_inl)|[_ ->]]%exec_inl.
  - eexists. split; [done|]. eapply rowwise_insert; [by intros o'|exact Ho|done].
  - exists (users db). split; [by destruct db|]. intros k r Hr. by exists r.
Qed.
Lemma UpdateCredentialHash_inl h t u db x db' :
  UpdateCredentialHash h t u db = inl (x, db') → ∃ t', db' = with_credentials t' db.
Proof. intros [(r & (o & _ & _ & _ & _ & ->)%update_row_inl)|[_ ->]]%exec_inl; [by eexists|]. exists (credentials db). by destruct db. Qed.

Lemma finish_step {A} (consume : bool) op e id now (rest : Tx A) w w' a :
  ((if consume then query_row op e (ConsumeAuthTransaction now id);; mret () else mret ());; rest) w = (w', inl a) →
  ∃ w1 t', finished_transaction consume id now (auth_transactions (w_db w)) t' ∧ rest w1 = (w', inl a) ∧
    w_db w1 = with_auth_transactions t' (w_db w) ∧ w_rand w1 = w_rand w.
Proof.
  intros H. destruct consume; simpl; tx_step H.
  - tx_step Hrun. apply update_live_transaction_inl in Hstmt as (r & Hr & Hn & Hl & ->).
    eexists _, _. split; [by exists r|]. split; [exact H|]. done.
  - exists w, (auth_transactions (w_db w)). by destruct (w_db w).
Qed.
Lemma rehash_step {A} (b : bool) op s (rest : Tx A) w w' a :
  (∀ db x db', s db = inl (x, db') → ∃ t', db' = with_credentials t' db) →
  ((if b then query op s else mret ());; rest) w = (w', inl a) →
  ∃ w1 t', rest w1 = (w', inl a) ∧ w_db w1 = with_credentials t' (w_db w) ∧ w_rand w1 = w_rand w.
Proof.
  intros Hs H. destruct b; tx_step H.
  - apply Hs in Hstmt as [t' ->]. eexists _, t'. split; [exact H|]. done.
  - exists w, (credentials (w_db w)). by destruct (w_db w).
Qed.

Lemma replace_step commit existing w w' b :
  (∀ s, existing = Some s → login_sessions (w_db w) !! ls_ID s = Some s) →
  (match existing with
   | Some s => replace_existing commit s
   | None => mret (SR_SessionBindingID (LoginCommit_Session commit))
   end : Tx uuid) w = (w', inl b) →
  ∃ audits, b = login_binding commit existing ∧
    w_db w' = with_audit_events audits
      (with_login_sessions (replaced_sessions (LoginCommit_UserID commit) (timestamp (LoginCommit_Now commit)) existing (login_sessions (w_db w)))
         (switched_account (LoginCommit_UserID commit) (timestamp (LoginCommit_Now commit)) existing (w_db w))) ∧
    w_rand w' = w_rand w.
Proof.
  intros Hk H. destruct existing as [s|].
  - apply replace_existing_step in H; [done|by apply Hk].
  - tx_step H. exists (audit_events (w_db w)). split; [done|]. split; [|done]. simpl. by destruct (w_db w).
Qed.

Lemma createLoginSession_step record w w' x :
  createLoginSession record w = (w', inl x) →
  login_sessions (w_db w) !! SR_ID record = None ∧
  w_db w' = with_login_sessions (<[SR_ID record := session_row record]> (login_sessions (w_db w))) (w_db w) ∧ w_rand w' = w_rand w.
Proof.
  unfold createLoginSession. intros H. do 2 tx_step H. apply insert_row_inl in Hstmt as (_ & -> & _ & _ & _ & Hn & _). done.
Qed.

Lemma replaced_None user now existing t k : replaced_sessions user now existing t !! k = None → t !! k = None.
Proof. destruct existing; simpl; [|done]. by intros [? _]%lookup_insert_None. Qed.

(** Switching accounts touches families and access tokens only. *)
Lemma switched_tables user now existing db :
  let cut := switched_account user now existing db in
  users cut = users db ∧ credentials cut = credentials db ∧ preauth_sessions cut = preauth_sessions db ∧
  auth_transactions cut = auth_transactions db ∧ authorization_codes cut = authorization_codes db ∧
  refresh_tokens cut = refresh_tokens db ∧ consent_grants cut = consent_grants db ∧
  logout_transactions cut = logout_transactions db ∧ oidc_clients cut = oidc_clients db.
Proof. unfold switched_account. destruct existing as [s|]; [destruct (_ == _)|]; done. Qed.
Lemma switched_tokens user now existing db db' :
  refresh_token_families db = refresh_token_families db' → access_tokens db = access_tokens db' →
  refresh_token_families (switched_account user now existing db) = refresh_token_families (switched_account user now existing db') ∧
  access_tokens (switched_account user now existing db) = access_tokens (switched_account user now existing db').
Proof. unfold switched_account. destruct existing as [s|]; [destruct (_ == _)|]; simpl; by intros -> ->. Qed.

Ltac switched :=
  rewrite ?(proj1 (switched_tables _ _ _ _)), ?(proj1 (proj2 (switched_tables _ _ _ _))),
    ?(proj1 (proj2 (proj2 (switched_tables _ _ _ _)))), ?(proj1 (proj2 (proj2 (proj2 (switched_tables _ _ _ _))))).

Lemma login_inv commit w w' b : db_ok (w_db w) → commitLogin_tx commit w = (w', inl b) → logged_in commit (w_db w) b (w_db w').
Proof.
  intros Hok H. unfold commitLogin_tx in H. do 3 browser_step H.
  apply update_row_inl in Hstmt0 as (p & Hp & Hlive & _ & _ & ->). simpl in Hp, Hdb1.
  apply finish_step in H as (w5 & txs & Htx & H & Hdb5 & Hr5). rewrite Hdb1 in Htx, Hdb5. simpl in Htx.
  apply Tx_bind_inl in H as (w6 & existing & Hex & H). apply lock_existing_step in Hex as (Hex & Hdb6 & Hr6).
  rewrite Hdb5 in Hex, Hdb6. change (existing = presented (w_db w) (LoginCommit_ExistingSessionHash commit) (LoginCommit_Now commit)) in Hex.
  apply Tx_bind_inl in H as (w7 & b' & Hrep & H).
  apply replace_step in Hrep as (audits & -> & Hdb7 & Hr7); [|rewrite Hdb6, Hex; simpl; intros s; by apply presented_key].
  rewrite Hdb6 in Hdb7. simpl in Hdb7. rewrite Hex in *. clear Hex.
  apply rehash_step in H as (w8 & creds & H & Hdb8 & Hr8); [|apply UpdateCredentialHash_inl]. rewrite Hdb7 in Hdb8.
  tx_step H. apply UpdateLastLogin_inl in Hstmt0 as (us & -> & Hus).
  tx_step H. apply createLoginSession_step in Hrun as (Hfresh & Hdb10 & Hr10). 
  match goal with E : w_db _ = with_users us _ |- _ => rewrite E in Hfresh, Hdb10 end. simpl in Hfresh.
  do 2 browser_step H. go_bools.
  match goal with E : w_db ?v = _ |- logged_in _ _ _ (w_db ?v) => rewrite E end.
  apply replaced_None in Hfresh as Hfresh'. simpl in Hus.
  rewrite (proj1 (switched_tables _ _ _ _)) in Hus. simpl in Hus.
  split; simpl; try done; eauto; switched; eauto.
  - by apply switched_tokens.
  - match goal with |- authorization_codes (switched_account ?u ?n ?e ?db) = _ ∧ _ =>
      destruct (switched_tables u n e db) as (_ & _ & _ & _ & ?) end. done.
Qed.

Lemma CommitLogin_inl commit w w' b :
  db_ok (w_db w) → CommitLogin commit w = (w', inl b) → logged_in commit (w_db w) b (w_db w') ∧
  SR_UserID (LoginCommit_Session commit) = LoginCommit_UserID commit.
Proof.
  intros Hok H. unfold CommitLogin in H. tx_step H. go_bools. split; [|done].
  apply Tx_bind_inl in H as (w1 & b' & H & Ho). apply inTx_inl in H as (w2 & w3 & Hw2 & Hrun & Hw3).
  unfold mbind, Tx_bind, mret, Tx_ret, observe_with, observeAuditEvents in Ho. simpl in Ho. injection Ho as <- <-. simpl.
  rewrite <- Hw2, <- Hw3. rewrite <- Hw2 in Hok. by apply login_inv.
Qed.

(** A login commits exactly what it promises.  When it succeeds the user was active and
    the flow live; the pre-authentication session (and the authorization transaction when
    asked) is consumed; the presented live session, if any, is revoked — rotated when it
    is the same user's, otherwise as an account switch that also revokes what its binding
    carries; the new session is stored on the presented session's binding in a rotation
    and on its own otherwise; no other session, no code, generation, grant, client or
    account datum changes. *)
Theorem login_refines commit w w' b :
  db_ok (w_db w) → CommitLogin commit w = (w', inl b) → logged_in commit (w_db w) b (w_db w').
Proof. intros Hok H. by apply CommitLogin_inl. Qed.

(** ** A pre-authentication session serves once *)

(** The pre-authentication session is consumed, or gone. *)
Definition preauth_spent (id : uuid) (db : DB) : Prop :=
  map_Forall (λ k p, k = id → is_Some (pa_ConsumedAt p)) (preauth_sessions db).
Definition no_preauth (id : uuid) : policy := mkPolicy any any any any any (λ r, pa_ID r ≠ id) any any any any any_change.

Lemma write_preauth_spent id db db' : write (no_preauth id) db db' → preauth_spent id db → preauth_spent id db'.
Proof.
  unfold preauth_spent. destruct 1; simpl in *; try done; intros HI.
  - by apply map_Forall_insert_2.
  - eapply map_Forall_pointwise; [|done|done]. intros k r r' (_ & _ & _ & _ & _ & Er) HQ Hk.
    specialize (HQ Hk). by rewrite (Er HQ).
  - by apply map_Forall_delete_ids.
Qed.

(** The two commits that spend one. *)
Inductive FlowCommit := Login (commit : LoginCommit) | Registration (commit : RegisterCommit).
Definition flow_run (c : FlowCommit) : Tx unit :=
  match c with Login commit => CommitLogin commit;; mret () | Registration commit => CommitRegistration commit end.
Definition flow_preauth (c : FlowCommit) : uuid :=
  match c with Login commit => LoginCommit_PreAuthID commit | Registration commit => RegisterCommit_PreAuthID commit end.


(** ** What a registration commits *)

(** The tables after a registration: a new account with its password, the flow spent, the
    presented session — which is another account's — ended with what its binding carries. *)
Record registered (commit : RegisterCommit) (db db' : DB) : Prop := {
  rg_free : taken_by_other uuid_Nil (User_UsernameNormalized (PreparedUser_User (RegisterCommit_User commit))) db = false ∧
    taken_by_other uuid_Nil (User_EmailNormalized (PreparedUser_User (RegisterCommit_User commit))) db = false;
  rg_new : users db !! User_ID (PreparedUser_User (RegisterCommit_User commit)) = None;
  rg_account : users db' = users (with_new_user (RegisterCommit_User commit) db) ∧
    credentials db' = credentials (with_new_user (RegisterCommit_User commit) db);
  rg_preauth : ∃ p, preauth_sessions db !! RegisterCommit_PreAuthID commit = Some p ∧
    live_preauth (timestamp (SR_CreatedAt (RegisterCommit_Session commit))) p = true ∧
    preauth_sessions db' = <[RegisterCommit_PreAuthID commit :=
      consume_preauth (timestamp (SR_CreatedAt (RegisterCommit_Session commit))) p]> (preauth_sessions db);
  rg_transaction : finished_transaction (RegisterCommit_ConsumeTransaction commit) (RegisterCommit_TransactionID commit)
    (timestamp (SR_CreatedAt (RegisterCommit_Session commit))) (auth_transactions db) (auth_transactions db');
  rg_sessions : login_sessions db' = <[SR_ID (RegisterCommit_Session commit) := session_row (RegisterCommit_Session commit)]>
    (replaced_sessions (User_ID (PreparedUser_User (RegisterCommit_User commit))) (timestamp (SR_CreatedAt (RegisterCommit_Session commit)))
       (presented db (RegisterCommit_ExistingSessionHash commit) (SR_CreatedAt (RegisterCommit_Session commit))) (login_sessions db));
  rg_tokens : let cut := switched_account (User_ID (PreparedUser_User (RegisterCommit_User commit)))
      (timestamp (SR_CreatedAt (RegisterCommit_Session commit)))
      (presented db (RegisterCommit_ExistingSessionHash commit) (SR_CreatedAt (RegisterCommit_Session commit))) db in
    refresh_token_families db' = refresh_token_families cut ∧ access_tokens db' = access_tokens cut }.

Lemma switch_step commit existing w w' x :
  (∀ s, existing = Some s → login_sessions (w_db w) !! ls_ID s = Some s ∧ ls_UserID s ≠ User_ID (PreparedUser_User (RegisterCommit_User commit))) →
  (match existing with
   | Some existing =>
       if ls_UserID existing != User_ID (PreparedUser_User (RegisterCommit_User commit)) then
         revokeSessionBindingCascade (ls_SessionBindingID existing) (SR_CreatedAt (RegisterCommit_Session commit)) "account_switch";;
         revoke_existing "revoke existing registration session" "account_switch" existing (ls_UserID existing)
           (RegisterCommit_RequestID commit) (SR_CreatedAt (RegisterCommit_Session commit))
       else mret ()
   | None => mret ()
   end : Tx unit) w = (w', inl x) →
  let user := User_ID (PreparedUser_User (RegisterCommit_User commit)) in
  let now := timestamp (SR_CreatedAt (RegisterCommit_Session commit)) in
  ∃ audits, w_db w' = with_audit_events audits
      (with_login_sessions (replaced_sessions user now existing (login_sessions (w_db w))) (switched_account user now existing (w_db w))) ∧
    w_rand w' = w_rand w.
Proof.
  intros Hk H user now. destruct existing as [s|].
  - destruct (Hk s eq_refl) as [Hs Hne]. rewrite bool_decide_eq_false_2 in H by done. simpl in H. do 1 browser_step H.
    apply revoke_existing_step in H as (r & audits & Hr & Hdb0 & Hrd). rewrite Hdb in Hr, Hdb0. simpl in Hr.
    assert (r = s) as -> by congruence. exists audits. split; [|congruence]. rewrite Hdb0.
    unfold replaced_sessions, replace_reason, switched_account. by rewrite bool_decide_eq_false_2.
  - tx_step H. exists (audit_events (w_db w)). split; [|done]. simpl. by destruct (w_db w).
Qed.

Lemma registration_inv commit w w' x :
  db_ok (w_db w) → commitRegistration_tx commit w = (w', inl x) → registered commit (w_db w) (w_db w').
Proof.
  intros Hok H. unfold commitRegistration_tx in H.
  apply Tx_bind_inl in H as (w1 & y & Hl & H). apply lock_identifiers_step in Hl as [Hdb1 _].
  apply Tx_bind_inl in H as (w2 & y2 & Hl & H).
  apply (refuse_taken_step _ _ (taken_by_other uuid_Nil)) in Hl as (Hdb2 & _ & Ht); [|by intros i db]. rewrite Hdb1 in Hdb2, Ht.
  apply Tx_bind_inl in H as (w3 & y3 & Hl & H). apply createUser_step in Hl as (Hnew & Hdb3 & _). rewrite Hdb2 in Hdb3, Hnew.
  apply Tx_bind_inl in H as (w4 & existing & Hl & H). apply lock_existing_step in Hl as (Hex & Hdb4 & _). rewrite Hdb3 in Hex, Hdb4.
  change (existing = presented (w_db w) (RegisterCommit_ExistingSessionHash commit) (SR_CreatedAt (RegisterCommit_Session commit))) in Hex.
  apply Tx_bind_inl in H as (w5 & y5 & Hl & H). apply switch_step in Hl as (au & Hdb5 & _).
  2: { intros s ->. symmetry in Hex. pose proof (presented_key _ _ _ _ Hok Hex) as Hs. rewrite Hdb4. split; [exact Hs|].
       destruct (ok_session_user _ Hok _ _ Hs) as [u Hu]. intros E. rewrite E in Hu. congruence. }
  rewrite Hdb4 in Hdb5. simpl in Hdb5. rewrite Hex in Hdb5. clear Hex existing.
  apply Tx_bind_inl in H as (w6 & y6 & Hl & H). apply createLoginSession_step in Hl as (Hfresh & Hdb6 & _). rewrite Hdb5 in Hfresh, Hdb6.
  tx_step H. apply update_row_inl in Hstmt as (p & Hp & Hlive & _ & _ & ->).
  apply finish_step in H as (w8 & txs & Htx & H & Hdb8 & _). apply insert_audits_step in H as (au2 & Hdb9 & _).
  rewrite Hdb in Htx, Hdb8. rewrite Hdb8 in Hdb9. rewrite Hdb9. simpl in *.
  revert Hp Htx. switched. simpl. intros Hp Htx.
  split; simpl; switched; simpl; try done; eauto.
  - split; apply Ht, elem_of_sort_Strings; set_solver.
  - by apply switched_tokens.
Qed.

Lemma CommitRegistration_inl commit w w' x :
  db_ok (w_db w) → CommitRegistration commit w = (w', inl x) → registered commit (w_db w) (w_db w').
Proof.
  intros Hok H. unfold CommitRegistration in H. tx_step H.
  apply Tx_bind_inl in H as (w1 & b' & H & Ho). apply inTx_inl in H as (w2 & w3 & Hw2 & Hrun & Hw3).
  unfold mbind, Tx_bind, observe_with, observeAuditEvents in Ho. simpl in Ho. injection Ho as <- _. simpl.
  rewrite <- Hw2, <- Hw3. rewrite <- Hw2 in Hok. by eapply registration_inv.
Qed.

(** A registration commits exactly what it promises.  When it succeeds neither of the two
    identifiers was any user's username or email; the account and its password row are
    new; the flow was live and is consumed; a live session the browser presented, which is
    another account's, is revoked with every family and live access token on its binding;
    and the new session is stored. *)
Theorem registration_refines commit w w' x :
  db_ok (w_db w) → CommitRegistration commit w = (w', inl x) → registered commit (w_db w) (w_db w').
Proof. apply CommitRegistration_inl. Qed.

(** A successful commit found its pre-authentication session unspent, and spent it. *)
Lemma flow_spends c w w' x :
  db_ok (w_db w) → flow_run c w = (w', inl x) →
  (∃ p, preauth_sessions (w_db w) !! flow_preauth c = Some p ∧ pa_ConsumedAt p = None) ∧ preauth_spent (flow_preauth c) (w_db w').
Proof.
  intros Hok H.
  assert (∃ p t, preauth_sessions (w_db w) !! flow_preauth c = Some p ∧ live_preauth t p = true ∧
            preauth_sessions (w_db w') = <[flow_preauth c := consume_preauth t p]> (preauth_sessions (w_db w)))
    as (p & t & Hp & Hl & E).
  { destruct c as [commit|commit]; simpl in *.
    - tx_step H. tx_step H. destruct (CommitLogin_inl _ _ _ _ Hok Hrun) as [Hl _]. destruct (li_preauth _ _ _ _ Hl) as (p & ?). eauto.
    - pose proof (CommitRegistration_inl _ _ _ _ Hok H) as Hl. destruct (rg_preauth _ _ _ Hl) as (p & ?). eauto. }
  split.
  - exists p. split; [done|]. unfold live_preauth in Hl. by go_bools.
  - intros k r Hk ->. rewrite E, lookup_insert_eq in Hk. injection Hk as <-. by eexists.
Qed.

Definition flow_op (c : FlowCommit) : Op := match c with Login commit => OpLogin commit | Registration commit => OpRegister commit end.
Lemma flow_ok c w w' r : db_ok (w_db w) → flow_run c w = (w', r) → db_ok (w_db w').
Proof.
  intros Hok H. destruct c as [commit|commit]; simpl in H.
  - unfold mbind, Tx_bind, mret, Tx_ret in H. destruct (CommitLogin commit w) as [w1 o] eqn:E.
    assert (w1 = w') as -> by (destruct o; congruence). by eapply (run_ok (OpLogin commit) _ ResultBinding).
  - by eapply (run_ok (OpRegister commit) _ (λ _, ResultDone)).
Qed.

(** A pre-authentication session serves one login or registration.  After either
    succeeded with it, neither ever succeeds with it again, in any state a sequence of
    store operations reaches (only storing the same identifier again is excluded). *)
Theorem preauth_single_use c w w' x db2 c2 w2 w3 r :
  db_ok (w_db w) → flow_run c w = (w', inl x) →
  reaches (obeys (no_preauth (flow_preauth c))) (w_db w') db2 →
  flow_preauth c2 = flow_preauth c → w_db w2 = db2 → flow_run c2 w2 = (w3, r) → ∃ e, r = inr e.
Proof.
  intros Hok H Hr Hid Hw2 H2. destruct r as [y|e]; [|by exists e].
  assert (Hok2 : db_ok (w_db w2)) by (rewrite Hw2; eapply reaches_ok; [exact Hr|by eapply flow_ok]).
  destruct (flow_spends _ _ _ _ Hok2 H2) as [(p & Hp & Hn) _]. rewrite Hid, Hw2 in Hp.
  assert (Hs : preauth_spent (flow_preauth c) db2).
  { eapply reaches_stable; [apply write_preauth_spent|exact Hr|]. by apply (flow_spends _ _ _ _ Hok H). }
  destruct (Hs _ _ Hp eq_refl) as [t Ht]. congruence.
Qed.
End theorems.

(** ** The cookie of a login authenticates *)

Lemma newToken_valid prefix s s' v : newToken prefix s = (s', inl v) → validToken v prefix = true.
Proof.
  unfold newToken. intros (s1 & raw & Hr & H)%Rnd_bind_inl. injection H as _ <-. apply ReadFull_inl in Hr as (Hl & _ & ->).
  unfold validToken. unfold HasPrefix. rewrite prefix_app, TrimPrefix_app, Base64.DecodeString_Encode. cbn [negb].
  apply Z.eqb_eq. unfold len. by rewrite str_take_length.
Qed.

Section progress.
Context {P : Platform} {PL : PlatformLaws P}.

Lemma NewAuthenticated_inl m user now ua ip s s' i :
  NewAuthenticated m user now ua ip s = (s', inl i) →
  validToken (SessionTokens.Issued_Token i) "s1_" = true ∧
  SR_TokenHash (SessionTokens.Issued_Record i) = HashToken (SessionTokens.Issued_Token i) ∧
  SR_UserID (SessionTokens.Issued_Record i) = user.
Proof.
  unfold NewAuthenticated. intros (s1 & token & Ht & H)%Rnd_bind_inl. apply Rnd_bind_inl in H as (s2 & csrf & _ & H).
  apply Rnd_bind_inl in H as (s3 & id & _ & H). injection H as _ <-. simpl. split; [by eapply newToken_valid|done].
Qed.

(** The session a login stored, read back by its token. *)
Lemma logged_in_authenticates commit w w' b m user now ua ip rs rs' i now2 :
  db_ok (w_db w) → CommitLogin commit w = (w', inl b) →
  NewAuthenticated m user now ua ip rs = (rs', inl i) → LoginCommit_Session commit = SessionTokens.Issued_Record i →
  now2 < timestamp (SR_ExpiresAt (SessionTokens.Issued_Record i)) → now2 < timestamp (SR_IdleExpiresAt (SessionTokens.Issued_Record i)) →
  ∃ row u, authenticates (w_db w') (SessionTokens.Issued_Token i) now2 row u ∧ ls_UserID row = LoginCommit_UserID commit.
Proof.
  intros Hok H Hi Hses He Hidle. destruct (CommitLogin_inl _ _ _ _ Hok H) as [Hl Hu].
  destruct (NewAuthenticated_inl _ _ _ _ _ _ _ _ Hi) as (_ & Hh & _).
  assert (Hok' : db_ok (w_db w')) by (by eapply (run_ok (OpLogin commit) _ ResultBinding)).
  set (row := session_row (set_binding b (LoginCommit_Session commit))).
  assert (Hk : login_sessions (w_db w') !! SR_ID (LoginCommit_Session commit) = Some row)
    by (rewrite (li_sessions _ _ _ _ Hl); apply lookup_insert_eq).
  destruct (ok_session_user _ Hok' _ _ Hk) as [u' Hu']. change (ls_UserID row) with (SR_UserID (LoginCommit_Session commit)) in Hu'.
  rewrite Hu in Hu'. destruct (li_accounts _ _ _ _ Hl _ _ Hu') as (u0 & Hu0 & Hsame).
  destruct (li_user _ _ _ _ Hl) as (u1 & Hu1 & Hact). assert (u1 = u0) as -> by congruence.
  exists row, u'. split; [|exact Hu]. split.
  - eapply find_row_unique; [exact Hk| |].
    + apply bool_decide_eq_true. unfold row. simpl. rewrite Hses, <- Hh. done.
    + intros k r Hr Hm. apply bool_decide_eq_true in Hm. destruct (ok_sessions _ Hok') as (_ & _ & Huniq).
      assert (k = SR_ID (LoginCommit_Session commit)) as ->; [|congruence].
      apply (Huniq _ _ _ _ Hr Hk). simpl. apply bool_decide_eq_true. rewrite Hm, Hses, <- Hh. done.
  - change (ls_UserID row) with (SR_UserID (LoginCommit_Session commit)). by rewrite Hu.
  - done.
  - simpl. by rewrite Hses.
  - simpl. by rewrite Hses.
  - destruct Hsame as (_ & _ & _ & _ & -> & _). done.
Qed.

(** The cookie of a login works.  After a login committed the session that
    [NewAuthenticated] issued, the clear token it returned authenticates, without driver
    faults, at every instant before the session's idle and absolute deadlines, as the
    user who logged in. *)
Theorem login_authenticates commit w w' b a1 a2 a3 m user now ua ip rs rs' i w2 now2 :
  NewTokenManager a1 a2 a3 = Some m → db_ok (w_db w) → CommitLogin commit w = (w', inl b) →
  NewAuthenticated m user now ua ip rs = (rs', inl i) → LoginCommit_Session commit = SessionTokens.Issued_Record i →
  now2 < timestamp (SR_ExpiresAt (SessionTokens.Issued_Record i)) → now2 < timestamp (SR_IdleExpiresAt (SessionTokens.Issued_Record i)) →
  quiet w2 → w_db w2 = w_db w' →
  ∃ w3 p, Authenticate (NewSessionService m) (SessionTokens.Issued_Token i) now2 w2 = (w3, inl p) ∧
    User_ID (Principal_User p) = LoginCommit_UserID commit.
Proof.
  intros Hm Hok H Hi Hses He Hidle Hq Hw2.
  destruct (logged_in_authenticates _ _ _ _ _ _ _ _ _ _ _ _ _ Hok H Hi Hses He Hidle) as (row & u & Ha & Hu).
  assert (Hok2 : db_ok (w_db w2)) by (rewrite Hw2; by eapply (run_ok (OpLogin commit) _ ResultBinding)).
  rewrite <- Hw2 in Ha. destruct (NewAuthenticated_inl _ _ _ _ _ _ _ _ Hi) as (Hv & _ & _).
  destruct (Authenticate_runs _ _ _ _ _ _ _ _ _ Hm Hq Hok2 Hv Ha) as (w3 & p & Hrun). exists w3, p. split; [done|].
  destruct (Authenticate_inl _ _ _ _ _ _ Hok2 Hrun) as (_ & row' & u' & [Hr _ _ _ _ _] & -> & _).
  pose proof (au_row _ _ _ _ _ Ha). congruence.
Qed.
End progress.

(** ** Witnesses *)

Definition demo_preauth : PreAuthRecord := mkPreAuthRecord 30 (hash_of "p") (hash_of "q") 3 t0 (t0 + Time.Hour) None 0.
Definition preauth_db : DB := run_db (CreatePreAuth demo_preauth) (world_of demo_db 0).
Lemma preauth_db_ok : db_ok preauth_db.
Proof. apply db_okb_spec. by vm_compute. Qed.

Definition empty_record : SessionRecord := mkSessionRecord 0 0 0 "" "" 0 0 0 0 0 0 None "".
Definition demo_new_session (user : uuid) : string * (SessionTokens.Issued + error) :=
  NewAuthenticated demo_manager user (t0 + Time.Second) "agent" (Addr4 [203; 0; 113; 9]%N) (byte_run 240).
Definition demo_issued (user : uuid) : SessionTokens.Issued :=
  match (demo_new_session user).2 with inl i => i | inr _ => SessionTokens.mkIssued "" "" empty_record end.

(** The signed-in user of the demo logs in again with the old cookie still in the browser. *)
Definition demo_login : LoginCommit :=
  mkLoginCommit 1 (SessionTokens.Issued_Record (demo_issued 1)) 30 3 true (HashToken demo_cookie) "" (t0 + Time.Second) "req-7" [].
Lemma demo_logs_in : ∃ w' b, CommitLogin demo_login (world_of preauth_db 0) = (w', inl b).
Proof. apply succeeds_run. by vm_compute. Qed.

Lemma login_refines_witness : ∃ w' b,
  CommitLogin demo_login (world_of preauth_db 0) = (w', inl b) ∧ b = 5%N.
Proof.
  destruct demo_logs_in as (w' & b & H). exists w', b. split; [exact H|].
  rewrite (li_binding _ _ _ _ (login_refines _ _ _ _ (world_ok _ _ preauth_db_ok) H)). by vm_compute.
Defined.

Lemma login_authenticates_witness : ∃ w' b, CommitLogin demo_login (world_of preauth_db 0) = (w', inl b) ∧
  ∃ w3 p, Authenticate (NewSessionService demo_manager) (SessionTokens.Issued_Token (demo_issued 1)) (t0 + 30 * Time.Minute)
    (world_of (w_db w') 9) = (w3, inl p) ∧ User_ID (Principal_User p) = 1%N.
Proof.
  destruct demo_logs_in as (w' & b & H). exists w', b. split; [exact H|].
  refine (login_authenticates (PL := demo_platform_laws) demo_login _ _ _ (8 * Time.Hour) Time.Hour Time.Hour demo_manager 1 (t0 + Time.Second) "agent"
    (Addr4 [203; 0; 113; 9]%N) (byte_run 240) (demo_new_session 1).1 (demo_issued 1) (world_of (w_db w') 9) (t0 + 30 * Time.Minute) _
    (world_ok _ _ preauth_db_ok) H _ _ _ _ _ _); by vm_compute.
Defined.

Definition demo_new_user : PreparedUser :=
  mkPreparedUser (mkUser 40 "ois_sub_QUJDREVGR0hJSktMTU5Q" "bob" "bob" "Bob" "bob@example.com" "bob@example.com" false "active" "user"
    (t0 + Time.Second) (t0 + Time.Second) None 1)
    "$argon2id$v=19$m=65536,t=3,p=2$c2FsdHNhbHRzYWx0c2FsdA$aGFzaGhhc2hoYXNoaGFzaGhhc2hoYXNoaGFzaGhhc2g".
Definition demo_register : RegisterCommit :=
  mkRegisterCommit demo_new_user (SessionTokens.Issued_Record (demo_issued 40)) 30 3 false (HashToken demo_cookie) "req-7" [].
Lemma demo_registers : ∃ w' x, CommitRegistration demo_register (world_of preauth_db 0) = (w', inl x).
Proof. apply succeeds_run. by vm_compute. Qed.

Lemma registration_refines_witness : ∃ w' x,
  CommitRegistration demo_register (world_of preauth_db 0) = (w', inl x) ∧ registered demo_register (w_db (world_of preauth_db 0)) (w_db w').
Proof.
  destruct demo_registers as (w' & x & H). exists w', x. split; [exact H|].
  exact (registration_refines _ _ _ _ (world_ok _ _ preauth_db_ok) H).
Defined.

Lemma preauth_single_use_witness : ∃ w' x,
  flow_run (Login demo_login) (world_of preauth_db 0) = (w', inl x) ∧
  ∃ e, (flow_run (Registration demo_register) (world_of (w_db w') 3)).2 = inr e.
Proof.
  destruct (succeeds_run (flow_run (Login demo_login)) (world_of preauth_db 0)) as (w' & x & H); [by vm_compute|].
  exists w', x. split; [exact H|]. destruct (flow_run (Registration demo_register) (world_of (w_db w') 3)) as [w3 r] eqn:E.
  refine (preauth_single_use (Login demo_login) _ _ _ _ (Registration demo_register) _ _ _ (world_ok _ _ preauth_db_ok) H (rtc_refl _ _) eq_refl _ E).
  done.
Defined.
