(* ===== verification/AdminTheorems.v ===== *)
(** * Administration: the theorems

    An active administrator remains, a login identifier names one user, and disabling a
    user takes down what the user holds. *)

From S2P Require Import Prelude Errors Platform Scopes Domain Opaque SessionTokens AuditEvents Database Queries.
From S2P Require Import RegistryQueries BrowserQueries Tx StoreCommon SessionStore LoginStore UserStore.
From S2P Require Import Invariants RegistryInvariants StatementFacts ExchangeProofs Quiet Writes Lifecycle.
From S2P Require Import TokenService AuthorizationService SessionService SessionProofs Demo SessionTheorems LoginTheorems.

Section theorems.
Context {P : Platform}.

(** ** What an update commits *)

Definition user_tokens_revoked (user : uuid) (now : time) (db : DB) : DB :=
  with_access_tokens
    (update_where (λ r, (at_UserID r == user) && live_access now r) (revoke_access now (Some "user_disabled")) (access_tokens db))
    (with_refresh_token_families
       (update_where (λ r, (rf_UserID r == user) && (rf_RevokedAt r == None)) (revoke_family now (Some "user_disabled"))
          (refresh_token_families db)) db).

Definition updated_users (updated : User) (cur : UserRow) (db : DB) : DB :=
  with_users (<[User_ID updated := updated_user_row (update_user_params updated) cur]> (users db)) db.

Definition disabled_user (updated : User) : bool := User_Status updated == identity_StatusDisabled.

(** Sessions ended by an update, with what their bindings carry. *)
Definition update_ends_sessions (updated : User) (bs : list uuid) (db : DB) : DB :=
  let now := timestamp (User_UpdatedAt updated) in
  let disabled := disabled_user updated in
  sessions_revoked (unrevoked_of (User_ID updated)) now (Some (if disabled then "user_disabled" else "role_changed"))
    (bindings_revoked bs now (Some (if disabled then "user_disabled" else "session_revoked")) db).

Lemma revokeDisabledUser_step updated w w' x :
  revokeDisabledUser updated w = (w', inl x) →
  w_db w' = user_tokens_revoked (User_ID updated) (timestamp (User_UpdatedAt updated)) (w_db w) ∧ w_rand w' = w_rand w.
Proof.
  unfold revokeDisabledUser. intros H. do 5 browser_step H.
  apply revoke_families_inl in Hstmt as ->. apply revoke_live_access_inl in Hstmt0 as ->. done.
Qed.

Lemma UpdateUser_inl a db x db' :
  UpdateUser a db = inl (x, db') →
  ∃ r, users db !! UU_ID a = Some r ∧ u_Version r = UU_ExpectedVersion a ∧ x = updated_user_row a r ∧
       db' = with_users (<[UU_ID a := updated_user_row a r]> (users db)) db.
Proof. unfold UpdateUser. intros H. stmt_cases H. go_bools. by eexists. Qed.

Lemma keepLastAdmin_step a b w w' x :
  keepLastAdmin a b w = (w', inl x) →
  (loses_admin a b = true → 1 < count_where active_admin (users (w_db w))) ∧ w_db w' = w_db w ∧ w_rand w' = w_rand w.
Proof.
  unfold keepLastAdmin. destruct (loses_admin a b); intros H.
  - do 2 tx_step H. injection Hstmt as <- <-. go_bools. done.
  - by tx_step H.
Qed.

(** What a committed update did, with the row it replaced and the bindings it took down. *)
Record user_updated (commit : UpdateUserCommit) (cur : UserRow) (bs : list uuid) (db db' : DB) : Prop := {
  uu_found : users db !! User_ID (UpdateUser_Updated commit) = Some cur;
  uu_version : u_Version cur = User_Version (UpdateUser_Updated commit);
  uu_admin : loses_admin (mapUser cur) (UpdateUser_Updated commit) = true → 1 < count_where active_admin (users db);
  uu_username : taken_by_other (User_ID (UpdateUser_Updated commit)) (User_UsernameNormalized (UpdateUser_Updated commit)) db = false;
  uu_email : taken_by_other (User_ID (UpdateUser_Updated commit)) (User_EmailNormalized (UpdateUser_Updated commit)) db = false;
  uu_bindings : ∀ b, b ∈ bs ↔ b ≠ uuid_Nil ∧ ∃ k s, login_sessions db !! k = Some s ∧
    unrevoked_of (User_ID (UpdateUser_Updated commit)) s = true ∧ ls_SessionBindingID s = b;
  uu_effect : let base := updated_users (UpdateUser_Updated commit) cur db in
    let cut := if disabled_user (UpdateUser_Updated commit)
               then user_tokens_revoked (User_ID (UpdateUser_Updated commit)) (timestamp (User_UpdatedAt (UpdateUser_Updated commit))) base
               else base in
    ∃ audits, db' = with_audit_events audits
      (if UpdateUser_RevokeSessions commit then update_ends_sessions (UpdateUser_Updated commit) bs cut else cut) }.

(** The sessions an update may end, once the row is written. *)
Lemma update_sessions_step commit (row : UserRow) w w' u :
  db_ok (w_db w) →
  (sessionRows ← (if UpdateUser_RevokeSessions commit
                  then locking (query "lock sessions after user change" (LockActiveLoginSessionsByUser (User_ID (UpdateUser_Updated commit))))
                  else mret [] : Tx (list LoginSessionRow));
   (if User_Status (UpdateUser_Updated commit) == identity_StatusDisabled then revokeDisabledUser (UpdateUser_Updated commit) else mret ());;
   (if UpdateUser_RevokeSessions commit
    then revokeAfterUserChange (UpdateUser_Updated commit) sessionRows;; insert_optional (UpdateUser_SessionEvent commit)
    else mret ());;
   insertAudit (UpdateUser_Event commit);;
   mret (mapUser row)) w = (w', inl u) →
  ∃ bs audits, (∀ b, b ∈ bs ↔ b ≠ uuid_Nil ∧ ∃ k s, login_sessions (w_db w) !! k = Some s ∧
      unrevoked_of (User_ID (UpdateUser_Updated commit)) s = true ∧ ls_SessionBindingID s = b) ∧
    let cut := if disabled_user (UpdateUser_Updated commit)
               then user_tokens_revoked (User_ID (UpdateUser_Updated commit)) (timestamp (User_UpdatedAt (UpdateUser_Updated commit))) (w_db w)
               else w_db w in
    w_db w' = with_audit_events audits
      (if UpdateUser_RevokeSessions commit then update_ends_sessions (UpdateUser_Updated commit) bs cut else cut).
Proof.
  intros Hok H. set (updated := UpdateUser_Updated commit) in *.
  apply Tx_bind_inl in H as (w1 & targets & Hl & H).
  assert (Hrows : w_db w1 = w_db w ∧ (UpdateUser_RevokeSessions commit = true → targets = active_sessions (User_ID updated) (w_db w))).
  { destruct (UpdateUser_RevokeSessions commit); tx_step Hl; done. }
  clear Hl. destruct Hrows as [Hdb1 Ht].
  apply Tx_bind_inl in H as (w2 & y & Hl & H).
  assert (Hdb2 : w_db w2 = if disabled_user updated then user_tokens_revoked (User_ID updated) (timestamp (User_UpdatedAt updated)) (w_db w) else w_db w).
  { unfold disabled_user. destruct (_ == _); [|by tx_step Hl]. apply revokeDisabledUser_step in Hl as [-> _]. by rewrite Hdb1. }
  clear Hl. set (cut := if disabled_user updated then _ else _) in *.
  assert (Hses : login_sessions cut = login_sessions (w_db w)) by (unfold cut; by destruct (disabled_user updated)).
  pose proof (elem_of_active_sessions (User_ID updated)) as Hact.
  destruct (UpdateUser_RevokeSessions commit).
  - specialize (Ht eq_refl). subst targets. apply Tx_bind_inl in H as (w3 & y3 & Hl & H). apply Tx_bind_inl in Hl as (w4 & y4 & Hl & Ho).
    apply (end_sessions_step (unrevoked_of (User_ID updated))) in Hl as (bs & Hbs & Hdb3 & _).
    + apply insert_optional_step in Ho as (au1 & Hdb4 & _). do 2 browser_step H. rewrite Hdb2 in Hbs, Hdb3. rewrite Hses in Hbs.
      eexists bs, _. split; [exact Hbs|]. etrans; [eassumption|]. rewrite ?Hdb4, Hdb3. unfold update_ends_sessions, disabled_user. by destruct (_ == _).
    + rewrite Hdb2, Hses. apply (ok_sessions _ Hok).
    + intros s. rewrite Hdb2, Hses. apply Hact.
  - tx_step H. do 2 browser_step H. eexists _, _. split; [|etrans; [eassumption|done]].
    intros b. apply elem_of_ended_bindings. intros s. apply Hact.
Qed.

Lemma update_user_inv commit w w' u :
  db_ok (w_db w) → updateManagedUser_tx commit w = (w', inl u) → ∃ cur bs, user_updated commit cur bs (w_db w) (w_db w').
Proof.
  intros Hok H. unfold updateManagedUser_tx in H. tx_step H. injection Hstmt as _ <-.
  tx_step H. rename a0 into cur. apply Tx_bind_inl in H as (w5 & y5 & Hl & H). apply keepLastAdmin_step in Hl as (Hadm & Hdb5 & _). rewrite Hdb2 in Hadm, Hdb5.
  apply Tx_bind_inl in H as (w6 & y6 & Hl & H). apply lockAndCheckIdentifiers_step in Hl as (Hdb6 & _ & Hun & Hem). rewrite Hdb5 in Hdb6, Hun, Hem.
  apply Tx_bind_inl in H as (w7 & row & Hl & H). unfold query_row_map in Hl. tx_step Hl.
  pose proof Hstmt0 as Hs7. apply UpdateUser_inl in Hstmt0 as (r & Hr & Hv & -> & ->). simpl in Hr, Hv.
  assert (r = cur) as -> by congruence.
  assert (Hok7 : db_ok (w_db w7)).
  { rewrite Hdb3. eapply (UpdateUser_ok (update_user_params (UpdateUser_Updated commit))); [|exact Hok]. exact Hs7. }
  apply update_sessions_step in H as (bs & audits & Hbs & Heff); [|done]. rewrite Hdb3 in Hbs, Heff.
  exists cur, bs. split; try done. by exists audits.
Qed.

(** ** Operations that leave the accounts alone *)

(** No user is updated by an administrator; with [frozen_users] none is created either. *)
Definition kept_users : policy := mkPolicy any any any any any any any any any any (λ _ _, False).
Definition frozen_users : policy := mkPolicy any any any any any any any any any (λ _, False) (λ _ _, False).

Lemma write_keeps_admin db db' : write kept_users db db' → has_active_admin db → has_active_admin db'.
Proof.
  unfold has_active_admin. destruct 1; simpl in *; try done; intros (k & u & Hk & Ha).
  - exists k, u. rewrite lookup_insert_ne; [done|]. intros <-. congruence.
  - destruct (decide (k = id)) as [->|Hne].
    + exists id, r'. rewrite lookup_insert_eq. split; [done|]. assert (u = r) as -> by congruence.
      match goal with H : same_account r r' |- _ => destruct H as (_ & _ & _ & _ & Es & Er & _) end.
      unfold active_admin in *. by rewrite Es, Er.
    + exists k, u. by rewrite lookup_insert_ne.
Qed.

Lemma write_keeps_unambiguous db db' : write frozen_users db db' → unambiguous db → unambiguous db'.
Proof.
  intros Hw HI. destruct Hw; try exact HI; simpl in *; try done.
  apply (unambiguous_insert db _ id r'); [exact HI|done|].
  match goal with H : same_account r r' |- _ => destruct H as (_ & _ & Eu & Ee & _) end. rewrite Eu, Ee.
  intros k v Hv Hne. split; apply not_true_iff_false; intros Hi; destruct Hne.
  - eapply (HI k id v r); [done|done|exact Hi|]. apply has_identifier_spec. by left.
  - eapply (HI k id v r); [done|done|exact Hi|]. apply has_identifier_spec. by right.
Qed.

Lemma op_step_commits {A} op events (m : Tx A) f db db' :
  op_run op = (inTxWithAudit events m ≫= λ a, mret (f a)) → op_step op db db' → db' = db ∨ ∃ a, committed m db a db'.
Proof.
  intros Hop (w & w' & r & <- & Hrun & <-). rewrite Hop in Hrun. unfold mbind, Tx_bind, mret, Tx_ret in Hrun.
  destruct (inTxWithAudit events m w) as [w1 o] eqn:E. apply inTxWithAudit_commits in E.
  assert (w1 = w') as -> by (destruct o; congruence). done.
Qed.

(** ** An active administrator remains *)

Lemma update_keeps_admin commit cur bs db db' :
  user_updated commit cur bs db db' → has_active_admin db → has_active_admin db'.
Proof.
  intros [Hf _ Hadm _ _ _ (audits & ->)] (k & u & Hk & Ha). set (id := User_ID (UpdateUser_Updated commit)) in *.
  set (row := updated_user_row (update_user_params (UpdateUser_Updated commit)) cur).
  assert (Hgoal : ∃ k u, <[id := row]> (users db) !! k = Some u ∧ active_admin u = true); [|].
  - destruct (decide (k = id)) as [->|Hne]; [|exists k, u; by rewrite lookup_insert_ne].
    assert (u = cur) as -> by congruence. destruct (loses_admin (mapUser cur) (UpdateUser_Updated commit)) eqn:El.
    + specialize (Hadm eq_refl). rewrite (count_where_delete _ _ _ _ Hk) in Hadm.
      destruct (count_where_pos active_admin (delete id (users db))) as (k' & v & Hv & Hav); [destruct (active_admin cur); lia|].
      apply lookup_delete_Some in Hv as [Hne Hv]. exists k', v. by rewrite lookup_insert_ne.
    + exists id, row. rewrite lookup_insert_eq. split; [done|]. unfold active_admin, loses_admin in *. simpl in *.
      go_bools. unfold RoleAdmin, identity_StatusActive in *. destruct El as [[El|El]|[El1 El2]]; [done|done|].
      unfold row. simpl. by rewrite El1, El2.
  - destruct (disabled_user _), (UpdateUser_RevokeSessions commit); exact Hgoal.
Qed.

(** C17: The installation never loses its last active administrator.  From tables with an
    active administrator, every state that any sequence of store operations reaches has
    one, whoever is disabled or demoted, under any driver faults. *)
Theorem last_admin_kept allowed db db' :
  db_ok db → has_active_admin db → reaches allowed db db' → has_active_admin db'.
Proof.
  intros Hok Ha Hr. induction Hr as [|a b c (op & _ & Hs) _ IH]; [done|]. apply IH; [by eapply op_step_ok|]. clear IH.
  destruct op; try (eapply rtc_preserves; [apply write_keeps_admin|eapply op_step_writes; [|exact Hs]|exact Ha];
    simpl; unfold mint_obeys, refresh_mint_obeys, any; first [done|naive_solver|by destruct secret]).
  destruct (op_step_commits _ _ _ _ _ _ (eq_refl : op_run (OpUpdateUser commit) = _) Hs) as [->|(u & w & w' & <- & Hrun & <-)]; [done|].
  destruct (update_user_inv _ _ _ _ Hok Hrun) as (cur & bs & Hu). by eapply update_keeps_admin.
Qed.

(** ** A login identifier names one user *)

Lemma new_user_unambiguous prepared db db' :
  unambiguous db → users db' = users (with_new_user prepared db) →
  taken_by_other uuid_Nil (User_UsernameNormalized (PreparedUser_User prepared)) db = false →
  taken_by_other uuid_Nil (User_EmailNormalized (PreparedUser_User prepared)) db = false → unambiguous db'.
Proof.
  intros HI E H1 H2. eapply unambiguous_insert; [exact HI|exact E|]. intros k v Hv _. simpl.
  split; eapply exists_row_taken; eauto.
Qed.

Lemma update_unambiguous commit cur bs db db' :
  db_ok db → user_updated commit cur bs db db' → unambiguous db → unambiguous db'.
Proof.
  intros Hok [Hf _ _ Hun Hem _ (audits & ->)] HI. set (id := User_ID (UpdateUser_Updated commit)) in *.
  eapply (unambiguous_insert db _ id); [exact HI| |].
  - destruct (disabled_user _), (UpdateUser_RevokeSessions commit); done.
  - intros k v Hv Hne. simpl. assert (u_ID v ≠ id) by (by rewrite (proj1 (ok_users _ Hok) _ _ Hv : u_ID v = k)).
    split; eapply exists_row_taken; eauto.
Qed.

Lemma bootstrap_step prepared event w w' x :
  bootstrapAdmin_tx prepared event w = (w', inl x) →
  taken_by_other uuid_Nil (User_UsernameNormalized (PreparedUser_User prepared)) (w_db w) = false ∧
  taken_by_other uuid_Nil (User_EmailNormalized (PreparedUser_User prepared)) (w_db w) = false ∧
  exists_row (λ r, u_Role r == "admin") (users (w_db w)) = false ∧
  users (w_db w) !! User_ID (PreparedUser_User prepared) = None ∧
  ∃ audits, w_db w' = with_audit_events audits (with_new_user prepared (w_db w)).
Proof.
  unfold bootstrapAdmin_tx. intros H. tx_step H. injection Hstmt as _ <-. do 2 tx_step H. injection Hstmt as <- <-.
  apply Tx_bind_inl in H as (w5 & y5 & Hl & H). apply lockAndCheckIdentifiers_step in Hl as (Hdb5 & _ & Hun & Hem).
  apply Tx_bind_inl in H as (w6 & y6 & Hl & H). apply createUser_step in Hl as (Hfresh & Hdb6 & _).
  apply insertAudit_step in H as (audits & Hdb7 & _). rewrite Hdb5 in Hfresh.
  match goal with E : w_db ?v = w_db w, H : w_db w5 = w_db ?v |- _ => rewrite E in * end.
  do 4 (split; [done|]). exists audits. by rewrite Hdb7, Hdb6, Hdb5.
Qed.

Lemma create_user_step prepared event w w' x :
  createManagedUser_tx prepared event w = (w', inl x) →
  taken_by_other uuid_Nil (User_UsernameNormalized (PreparedUser_User prepared)) (w_db w) = false ∧
  taken_by_other uuid_Nil (User_EmailNormalized (PreparedUser_User prepared)) (w_db w) = false ∧
  ∃ audits, w_db w' = with_audit_events audits (with_new_user prepared (w_db w)).
Proof.
  unfold createManagedUser_tx. intros H.
  apply Tx_bind_inl in H as (w5 & y5 & Hl & H). apply lockAndCheckIdentifiers_step in Hl as (Hdb5 & _ & Hun & Hem).
  apply Tx_bind_inl in H as (w6 & y6 & Hl & H). apply createUser_step in Hl as (_ & Hdb6 & _).
  apply insertAudit_step in H as (audits & Hdb7 & _). do 2 (split; [done|]). exists audits. by rewrite Hdb7, Hdb6, Hdb5.
Qed.

Lemma registration_commits commit db db' :
  op_step (OpRegister commit) db db' → db' = db ∨ ∃ a, committed (commitRegistration_tx commit) db a db'.
Proof.
  intros (w & w' & r & <- & Hrun & <-). simpl in Hrun. unfold CommitRegistration, reject_if in Hrun.
  destruct (_ || _); [injection Hrun as <- _; by left|].
  unfold mbind, Tx_bind, mret, Tx_ret, observe_with, observeAuditEvents in Hrun.
  destruct (inTx _ w) as [w1 o] eqn:E. apply inTx_commits in E. destruct o; simpl in Hrun; by injection Hrun as <- _.
Qed.

Lemma op_step_unambiguous op db db' : db_ok db → op_step op db db' → unambiguous db → unambiguous db'.
Proof.
  intros Hok Hs HI.
  destruct op; try (eapply rtc_preserves; [apply write_keeps_unambiguous|eapply op_step_writes; [|exact Hs]|exact HI];
    simpl; unfold mint_obeys, refresh_mint_obeys, any; first [done|naive_solver|by destruct secret]).
  - destruct (registration_commits _ _ _ Hs) as [->|(u & w & w' & <- & Hrun & <-)]; [done|].
    destruct (registration_inv _ _ _ _ Hok Hrun) as [[H1 H2] _ [E _] _ _ _ _]. by eapply new_user_unambiguous.
  - destruct (op_step_commits _ _ _ _ _ _ (eq_refl : op_run (OpBootstrapAdmin prepared event) = _) Hs) as [->|(u & w & w' & <- & Hrun & <-)]; [done|].
    destruct (bootstrap_step _ _ _ _ _ Hrun) as (H1 & H2 & _ & _ & audits & ->). by eapply new_user_unambiguous.
  - destruct (op_step_commits _ _ _ _ _ _ (eq_refl : op_run (OpCreateUser prepared event) = _) Hs) as [->|(u & w & w' & <- & Hrun & <-)]; [done|].
    destruct (create_user_step _ _ _ _ _ Hrun) as (H1 & H2 & audits & ->). by eapply new_user_unambiguous.
  - destruct (op_step_commits _ _ _ _ _ _ (eq_refl : op_run (OpUpdateUser commit) = _) Hs) as [->|(u & w & w' & <- & Hrun & <-)]; [done|].
    destruct (update_user_inv _ _ _ _ Hok Hrun) as (cur & bs & Hu). by eapply update_unambiguous.
Qed.

Lemma login_row_inl db i matches u c :
  login_row db i matches = Some (u, c) → matches u = true ∧ ∃ k, users db !! k = Some u.
Proof.
  unfold login_row. intros H. destruct (find_row _ _) as [v|] eqn:E; [|done]. simpl in H.
  apply find_row_Some in E as [Hp Hk]. destruct (credentials db !! u_ID v); [|done]. simpl in H. simplify_eq.
  apply andb_true_iff in Hp as [Hm _]. done.
Qed.
Lemma FindLoginRecord_inl i w w' rec :
  FindLoginRecord i w = (w', inl rec) →
  ∃ k u, users (w_db w) !! k = Some u ∧ has_identifier i u = true ∧ LoginRecord_User rec = mapUser u.
Proof.
  unfold FindLoginRecord. intros H. do 2 tx_step H. destruct a as [u c]. cbv beta in Hstmt.
  destruct (login_row _ _ _) as [[u1 c1]|] eqn:E1.
  - injection Hstmt as -> ->. apply login_row_inl in E1 as [Hm [k Hk]]. exists k, u. split; [done|]. split; [|done].
    unfold has_identifier. by rewrite Hm.
  - apply login_row_inl in Hstmt as [Hm [k Hk]]. exists k, u. split; [done|]. split; [|done].
    unfold has_identifier. by rewrite Hm, orb_true_r.
Qed.

(** A login identifier names one user.  If no string is the username or email of two
    users, that stays true in every state any sequence of store operations reaches, across
    registration, administration and concurrent changes; so the credential a login looks
    up is that of the only user who has the identifier. *)
Theorem login_identifier_unambiguous allowed db db' :
  db_ok db → unambiguous db → reaches allowed db db' →
  unambiguous db' ∧
  ∀ w w' i rec k u, w_db w = db' → FindLoginRecord i w = (w', inl rec) →
    users db' !! k = Some u → has_identifier i u = true → LoginRecord_User rec = mapUser u.
Proof.
  intros Hok HI Hr. assert (HI' : unambiguous db').
  { induction Hr as [|a b c (op & _ & Hs) _ IH]; [done|]. apply IH; [by eapply op_step_ok|by eapply op_step_unambiguous]. }
  split; [done|]. intros w w' i rec k u <- Hf Hk Hi. destruct (FindLoginRecord_inl _ _ _ _ Hf) as (k' & u' & Hk' & Hi' & ->).
  assert (k' = k) as -> by (by eapply HI'). by assert (u' = u) as -> by congruence.
Qed.

(** ** Disabling a user *)

Lemma revoked_by_user user now db :
  map_Forall (λ _ f, rf_UserID f = user → is_Some (rf_RevokedAt f)) (refresh_token_families (user_tokens_revoked user now db)) ∧
  map_Forall (λ _ a, at_UserID a = user → is_Some (at_RevokedAt a) ∨ at_ExpiresAt a <= now) (access_tokens (user_tokens_revoked user now db)).
Proof.
  split; intros k r; simpl; rewrite lookup_update_where, fmap_Some; intros (r0 & Hr0 & ->) He.
  - destruct (_ && _) eqn:E; [by eexists|]. rewrite He, bool_decide_eq_true_2 in E by done. simpl in E.
    apply bool_decide_eq_false in E. by apply not_eq_None_Some.
  - destruct (_ && _) eqn:E; [left; by eexists|]. rewrite He, bool_decide_eq_true_2 in E by done.
    unfold live_access in E. simpl in E. go_bools. destruct E as [E|E]; [left; by apply not_eq_None_Some|by right].
Qed.

(** Revoking more keeps what is revoked. *)
Lemma bindings_revoked_keeps bs now reason db user :
  map_Forall (λ _ f, rf_UserID f = user → is_Some (rf_RevokedAt f)) (refresh_token_families db) →
  map_Forall (λ _ a, at_UserID a = user → is_Some (at_RevokedAt a) ∨ at_ExpiresAt a <= now) (access_tokens db) →
  map_Forall (λ _ f, rf_UserID f = user → is_Some (rf_RevokedAt f)) (refresh_token_families (bindings_revoked bs now reason db)) ∧
  map_Forall (λ _ a, at_UserID a = user → is_Some (at_RevokedAt a) ∨ at_ExpiresAt a <= now) (access_tokens (bindings_revoked bs now reason db)).
Proof.
  intros Hf Ha. split; intros k r; simpl; rewrite lookup_update_where, fmap_Some; intros (r0 & Hr0 & ->) He.
  - destruct (_ && _); [by eexists|by eapply Hf].
  - destruct (_ && _); [left; by eexists|by eapply Ha].
Qed.

(** A disabled user is locked out at once.  After an update that disables a user, the
    account is disabled at its next version; every refresh family and every live access
    token of the user is revoked, and with the session flag every session of the user
    too; in the resulting state no cookie authenticates as the user and no authorization
    code of the user carries authority. *)
Theorem disabled_user_locked_out commit w w' u :
  db_ok (w_db w) → UpdateManagedUser commit w = (w', inl u) →
  User_Status (UpdateUser_Updated commit) = identity_StatusDisabled →
  let user := User_ID (UpdateUser_Updated commit) in
  let now := timestamp (User_UpdatedAt (UpdateUser_Updated commit)) in
  (∃ row, users (w_db w') !! user = Some row ∧ u_Status row = identity_StatusDisabled ∧
          u_Version row = User_Version (UpdateUser_Updated commit) + 1) ∧
  map_Forall (λ _ f, rf_UserID f = user → is_Some (rf_RevokedAt f)) (refresh_token_families (w_db w')) ∧
  map_Forall (λ _ a, at_UserID a = user → is_Some (at_RevokedAt a) ∨ at_ExpiresAt a <= now) (access_tokens (w_db w')) ∧
  (UpdateUser_RevokeSessions commit = true →
     map_Forall (λ _ s, ls_UserID s = user → is_Some (ls_RevokedAt s)) (login_sessions (w_db w'))) ∧
  (∀ token t row usr, authenticates (w_db w') token t row usr → ls_UserID row ≠ user) ∧
  (∀ input code usr client grant scopes, exchangeable (w_db w') input code usr client grant scopes → code_UserID code ≠ user).
Proof.
  intros Hok H Hd user now. apply inTxWithAudit_inl in H as (w1 & w2 & Hw1 & Hrun & Hw2). rewrite <- Hw1 in *. rewrite <- Hw2. clear Hw1 Hw2 w w'.
  destruct (update_user_inv _ _ _ _ Hok Hrun) as (cur & bs & [Hf Hv _ _ _ _ (audits & Heff)]).
  assert (Hdis : disabled_user (UpdateUser_Updated commit) = true) by (by apply bool_decide_eq_true). rewrite Hdis in Heff.
  assert (Hrow : ∃ row, users (w_db w2) !! user = Some row ∧ u_Status row = identity_StatusDisabled ∧
          u_Version row = User_Version (UpdateUser_Updated commit) + 1).
  { eexists. split; [|split].
    - rewrite Heff. destruct (UpdateUser_RevokeSessions commit); apply lookup_insert_eq.
    - exact Hd.
    - simpl. by rewrite Hv. }
  split; [exact Hrow|]. destruct Hrow as (row & Hrow & Hst & _). destruct (revoked_by_user user now (updated_users (UpdateUser_Updated commit) cur (w_db w1))) as [F A].
  assert (HFA : map_Forall (λ _ f, rf_UserID f = user → is_Some (rf_RevokedAt f)) (refresh_token_families (w_db w2)) ∧
    map_Forall (λ _ a, at_UserID a = user → is_Some (at_RevokedAt a) ∨ at_ExpiresAt a <= now) (access_tokens (w_db w2))).
  { rewrite Heff. destruct (UpdateUser_RevokeSessions commit); [|by split]. by apply (bindings_revoked_keeps bs now _ _ user). }
  destruct HFA as [F' A']. split; [done|]. split; [done|]. split; [|split].
  - intros Hrev. rewrite Heff, Hrev. intros k s. simpl. rewrite lookup_update_where, fmap_Some. intros (s0 & Hs0 & ->) Hu.
    destruct (unrevoked_of _ s0) eqn:E; [by eexists|]. unfold unrevoked_of in E. rewrite Hu, bool_decide_eq_true_2 in E by done.
    simpl in E. apply bool_decide_eq_false in E. by apply not_eq_None_Some.
  - intros token t r usr [_ Hu _ _ _ Ha] E. rewrite E in Hu. assert (usr = row) as -> by congruence. by rewrite Hst in Ha.
  - intros input code usr client grant scopes Hex E. destruct (ex_user _ _ _ _ _ _ _ Hex) as [Hu Ha].
    rewrite E in Hu. assert (usr = row) as -> by congruence. by rewrite Hst in Ha.
Qed.
End theorems.

(** ** Witnesses *)

(** The demo installation with an administrator, who disables its user. *)
Definition demo_admin : UserRow :=
  mkUserRow 50 "ois_sub_QUJDREVGR0hJSktMTU5R" "root" "root" "Root" "root@example.com" "root@example.com" true "active" "admin" t0 t0 None 1.
Definition admin_db : DB := with_users (<[50%N := demo_admin]> (users refreshed_db)) refreshed_db.
Lemma admin_db_ok : db_ok admin_db.
Proof. apply db_okb_spec. by vm_compute. Qed.

Definition demo_disable : UpdateUserCommit :=
  mkUpdateUserCommit 50 (mkUser 1 "ois_sub_QUJDREVGR0hJSktMTU5P" "alice" "alice" "Alice" "alice@example.com" "alice@example.com" true
    "disabled" "user" t0 (t0 + 10 * Time.Minute) None 1) ["status"] true
    (mkAuditEvent 91 audit.UserStatusChanged audit.ResultSuccess (Some 50%N) (Some audit.TargetUser) (Some 1%N) "req-6" ["status"] (t0 + 10 * Time.Minute))
    None.
Lemma demo_disables : ∃ w' u, UpdateManagedUser demo_disable (world_of admin_db 0) = (w', inl u).
Proof. apply succeeds_run. by vm_compute. Qed.
Lemma demo_disable_reaches : ∃ w' u, UpdateManagedUser demo_disable (world_of admin_db 0) = (w', inl u) ∧
  reaches (λ _, True) (w_db (world_of admin_db 0)) (w_db w').
Proof.
  destruct demo_disables as (w' & u & H). exists w', u. split; [exact H|]. apply rtc_once. exists (OpUpdateUser demo_disable).
  split; [done|]. by eapply (run_step (OpUpdateUser demo_disable) _ ResultUser).
Qed.

Lemma disabled_user_locked_out_witness : ∃ w' u, UpdateManagedUser demo_disable (world_of admin_db 0) = (w', inl u) ∧
  ∃ row, users (w_db w') !! 1%N = Some row ∧ u_Status row = identity_StatusDisabled.
Proof.
  destruct demo_disables as (w' & u & H). exists w', u. split; [exact H|].
  destruct (disabled_user_locked_out _ _ _ _ (world_ok _ _ admin_db_ok) H eq_refl) as ((row & Hr & Hs & _) & _).
  exists row. split; [exact Hr|exact Hs].
Defined.

Lemma last_admin_kept_witness : ∃ db', reaches (λ _, True) (w_db (world_of admin_db 0)) db' ∧ has_active_admin db'.
Proof.
  destruct demo_disable_reaches as (w' & u & _ & Hr). exists (w_db w'). split; [exact Hr|].
  refine (last_admin_kept _ _ _ (world_ok _ _ admin_db_ok) _ Hr). exists 50%N, demo_admin. split; by vm_compute.
Defined.

Lemma demo_unambiguous : unambiguous (w_db (world_of admin_db 0)).
Proof.
  assert (Hu : map_to_list (users admin_db) = [(50%N, demo_admin); (1%N, demo_user)]) by (by vm_compute).
  intros k k' u v i Hk Hk' Hi Hj. apply has_identifier_spec in Hi, Hj.
  apply elem_of_map_to_list in Hk, Hk'. rewrite world_of_db, Hu, !elem_of_cons in Hk, Hk'.
  destruct Hk as [[= -> ->]|[[= -> ->]|[]%elem_of_nil]], Hk' as [[= -> ->]|[[= -> ->]|[]%elem_of_nil]]; [done| | |done];
    exfalso; destruct Hi as [->| ->], Hj as [E|E]; by vm_compute in E.
Qed.

Lemma login_identifier_unambiguous_witness : ∃ db', reaches (λ _, True) (w_db (world_of admin_db 0)) db' ∧ unambiguous db'.
Proof.
  destruct demo_disable_reaches as (w' & u & _ & Hr). exists (w_db w'). split; [exact Hr|].
  exact (proj1 (login_identifier_unambiguous _ _ _ (world_ok _ _ admin_db_ok) demo_unambiguous Hr)).
Defined.
