(* ===== verification/RegistryTheorems.v ===== *)
(** * The client registry: the theorems

    What an update of a client stores and revokes, that it reads back, and that a
    rotated secret is the only one a client authenticates with. *)

From S2P Require Import Prelude Errors Platform Pagination Scopes Domain AuditEvents Database Queries RegistryQueries.
From S2P Require Import Tx StoreCommon ConsentStore ClientStore Invariants StatementFacts ExchangeProofs Writes Lifecycle.
From S2P Require Import Quiet SessionProofs Demo.

(** ** The child tables *)

(** The values of a client, each stamped with the same time, over the rows of the others. *)
Definition added_children (id : uuid) (now : time) (values : list string) (t : gmap (uuid * string) time) :
    gmap (uuid * string) time :=
  foldl (λ t v, <[(id, v) := now]> t) t values.
Definition replaced_children (id : uuid) (now : time) (values : list string) (t : gmap (uuid * string) time) :
    gmap (uuid * string) time :=
  added_children id now values (delete_children id t).

Definition raw_children (t : gmap (uuid * string) time) (id : uuid) : list string :=
  snd <$> List.filter (λ k, k.1 == id) (fst <$> map_to_list t).

Lemma elem_of_raw_children t id v : v ∈ raw_children t id ↔ is_Some (t !! (id, v)).
Proof.
  unfold raw_children. rewrite list_elem_of_fmap. split.
  - intros ([i v'] & -> & H). rewrite list_elem_of_In, filter_In, <- list_elem_of_In, list_elem_of_fmap in H.
    destruct H as [([k t'] & -> & Hk%elem_of_map_to_list) E]. simpl in *. go_bools. subst. by eexists.
  - intros [t' Ht]. exists (id, v). split; [done|]. rewrite list_elem_of_In, filter_In, <- list_elem_of_In, list_elem_of_fmap.
    split; [|by apply bool_decide_eq_true]. exists ((id, v), t'). split; [done|]. by apply elem_of_map_to_list.
Qed.

Lemma NoDup_raw_children t id : NoDup (raw_children t id).
Proof.
  unfold raw_children. apply (NoDup_fmap_2_strong snd).
  - intros [i v] [j v']. rewrite !list_elem_of_In, !filter_In. simpl. intros [_ E] [_ E'] ->. go_bools. congruence.
  - rewrite NoDup_ListNoDup. apply List.NoDup_filter. rewrite <- NoDup_ListNoDup. apply NoDup_fst_map_to_list.
Qed.

Lemma lookup_added_children id now values t k :
  added_children id now values t !! k = if bool_decide (k.1 = id ∧ k.2 ∈ values) then Some now else t !! k.
Proof.
  revert t. induction values as [|v values IH]; intros t; simpl.
  - rewrite bool_decide_eq_false_2; [done|]. set_solver.
  - rewrite IH. destruct k as [i u]; simpl in *. destruct (decide (i = id ∧ u ∈ values)) as [H|H].
    + rewrite !bool_decide_eq_true_2 by set_solver. done.
    + rewrite (bool_decide_eq_false_2 (i = id ∧ u ∈ values)) by done.
      destruct (decide ((i, u) = (id, v))) as [E|E].
      * rewrite E, lookup_insert_eq. injection E as -> ->. by rewrite bool_decide_eq_true_2 by set_solver.
      * rewrite lookup_insert_ne by congruence. rewrite bool_decide_eq_false_2; [done|]. set_solver.
Qed.

Lemma lookup_delete_children id t k : delete_children id t !! k = if bool_decide (k.1 = id) then None else t !! k.
Proof.
  unfold delete_children. case_bool_decide as E.
  - apply map_lookup_filter_None. right. intros x _. simpl. by intros [].
  - destruct (t !! k) as [x|] eqn:Ek; [by apply map_lookup_filter_Some|apply map_lookup_filter_None; by left].
Qed.

(** Listing what was stored gives the values back, in order. *)
Lemma child_values_replaced id now values t :
  NoDup values → child_values (replaced_children id now values t) id = sort_Strings values.
Proof.
  intros Hn. apply sort_Strings_unique; [apply sort_Strings_sorted|]. rewrite sort_Strings_perm.
  apply NoDup_Permutation; [apply NoDup_raw_children|done|]. intros v. change (v ∈ raw_children (replaced_children id now values t) id ↔ v ∈ values).
  rewrite elem_of_raw_children. unfold replaced_children. rewrite lookup_added_children, lookup_delete_children. simpl.
  case_bool_decide as E; [by split; [intros _; apply E|eauto]|]. rewrite bool_decide_eq_true_2 by done.
  split; [by intros [? [=]]|]. intros Hv. by destruct E.
Qed.

Section theorems.
Context {P : Platform}.

(** ** Replacing the children *)

(** A child table: reading what was put, and putting twice. *)
Record child_table (put : gmap (uuid * string) time → DB → DB) (get : DB → gmap (uuid * string) time) : Prop := {
  child_get_put : ∀ t db, get (put t db) = t;
  child_put_put : ∀ t t' db, put t (put t' db) = put t db;
  child_put_get : ∀ db, put (get db) db = db }.

Lemma redirect_table : child_table with_oidc_client_redirect_uris oidc_client_redirect_uris.
Proof. split; by intros; destruct db. Qed.
Lemma logout_table : child_table with_oidc_client_logout_uris oidc_client_logout_uris.
Proof. split; by intros; destruct db. Qed.
Lemma scope_table : child_table with_oidc_client_scopes oidc_client_scopes.
Proof. split; by intros; destruct db. Qed.

Lemma create_children_step put get valid op id now values w w' x :
  child_table put get →
  create_children op (λ v, insert_child put get valid id v now) values w = (w', inl x) →
  w_db w' = put (added_children id now values (get (w_db w))) (w_db w) ∧ NoDup values ∧
  (∀ v, v ∈ values → get (w_db w) !! (id, v) = None) ∧ w_rand w' = w_rand w.
Proof.
  intros [Hgp Hpp Hpg]. revert w. induction values as [|v values IH]; intros w H; simpl in H.
  - tx_step H. simpl. rewrite Hpg. split_and!; try done; [constructor|set_solver].
  - tx_step H. unfold insert_child in Hstmt. stmt_cases Hstmt. apply IH in H as (Hdb' & Hn & Hfree & Hr).
    rewrite Hdb in *. rewrite Hgp, Hpp in Hdb'. rewrite Hgp in Hfree. go_bools.
    match goal with E : ¬ is_Some (get _ !! _) |- _ => rewrite <- eq_None_not_Some in E end.
    split_and!; [done| | |congruence].
    + constructor; [|done]. intros Hv. specialize (Hfree v Hv). by rewrite lookup_insert_eq in Hfree.
    + intros u [->|Hu]%elem_of_cons; [done|]. specialize (Hfree u Hu). by apply lookup_insert_None in Hfree as [? _].
Qed.

Definition children_replaced (value : Client) (db : DB) : DB :=
  let now := timestamp (Client_UpdatedAt value) in
  let id := Client_ID value in
  with_oidc_client_scopes (replaced_children id now (Client_Scopes value) (oidc_client_scopes db))
    (with_oidc_client_logout_uris (replaced_children id now (Client_LogoutURIs value) (oidc_client_logout_uris db))
      (with_oidc_client_redirect_uris (replaced_children id now (Client_RedirectURIs value) (oidc_client_redirect_uris db)) db)).

Lemma replace_children_step value w w' x :
  replaceClientChildren value true w = (w', inl x) →
  w_db w' = children_replaced value (w_db w) ∧
  NoDup (Client_RedirectURIs value) ∧ NoDup (Client_LogoutURIs value) ∧ NoDup (Client_Scopes value).
Proof.
  unfold replaceClientChildren, deleteClientChildren. intros H.
  apply Tx_bind_inl in H as (v1 & y1 & Hd & H). do 3 tx_step Hd.
  injection Hstmt as _ <-. injection Hstmt0 as _ <-. injection Hstmt1 as _ <-.
  apply Tx_bind_inl in H as (v2 & y2 & Hc & H). apply (create_children_step _ _ _ _ _ _ _ _ _ _ redirect_table) in Hc as (E2 & N2 & _ & _).
  apply Tx_bind_inl in H as (v3 & y3 & Hc & H). apply (create_children_step _ _ _ _ _ _ _ _ _ _ logout_table) in Hc as (E3 & N3 & _ & _).
  apply (create_children_step _ _ _ _ _ _ _ _ _ _ scope_table) in H as (E4 & N4 & _ & _).
  split; [|done]. rewrite E4, E3, E2. by repeat match goal with E : w_db _ = _ |- _ => rewrite E end.
Qed.

(** ** What an update revokes *)

Definition client_disabled (value : Client) : bool := Client_Status value == client_StatusDisabled.
Definition offline_withdrawn (value : Client) (db : DB) : bool :=
  bool_decide ("offline_access" ∈ child_values (oidc_client_scopes db) (Client_ID value)) &&
  negb (bool_decide ("offline_access" ∈ Client_Scopes value)).

(** Every family of the client; of its live access tokens all, or those of the families. *)
Definition client_tokens_revoked (value : Client) (disabled : bool) (db : DB) : DB :=
  let now := timestamp (Client_UpdatedAt value) in
  let reason := Some (if disabled then "client_disabled" else "offline_scope_removed") in
  with_access_tokens
    (update_where (λ r, ((at_ClientID r == Client_ID value) && (disabled || bool_decide (is_Some (at_RefreshFamilyID r)))) &&
                        live_access now r) (revoke_access now reason) (access_tokens db))
    (with_refresh_token_families
       (update_where (λ r, (rf_ClientID r == Client_ID value) && (rf_RevokedAt r == None)) (revoke_family now reason)
          (refresh_token_families db)) db).

Lemma revoke_client_step value disabled w w' x :
  revokeClientTokens value disabled w = (w', inl x) → w_db w' = client_tokens_revoked value disabled (w_db w).
Proof.
  unfold revokeClientTokens. intros H. tx_step H.
  apply Tx_bind_inl in H as (v2 & y2 & Hl & H).
  assert (w_db v2 = w_db w) as E by (destruct disabled; tx_step Hl; congruence). clear Hl.
  tx_step H. apply revoke_families_inl in Hstmt as ->. apply Tx_bind_inl in H as (v4 & y4 & Hl & H).
  tx_step H. unfold client_tokens_revoked. destruct disabled; tx_step Hl; apply revoke_live_access_inl in Hstmt as ->; simpl in *.
  - etrans; [eassumption|]. f_equal. apply update_where_ext. intros k r _. by rewrite andb_true_r.
  - by etrans; [eassumption|].
Qed.

(** What a committed update did to the row it replaced. *)
Record client_updated (value : Client) (cur : OidcClientRow) (db db' : DB) : Prop := {
  cu_found : oidc_clients db !! Client_ID value = Some cur;
  cu_version : cl_Version cur = Client_Version value;
  cu_redirects : NoDup (Client_RedirectURIs value);
  cu_logouts : NoDup (Client_LogoutURIs value);
  cu_scopes : NoDup (Client_Scopes value);
  cu_effect :
    let stored := children_replaced value
      (with_oidc_clients (<[Client_ID value := updated_client_row (update_client_params value) cur]> (oidc_clients db)) db) in
    ∃ audits, db' = with_audit_events audits
      (if client_disabled value || offline_withdrawn value db then client_tokens_revoked value (client_disabled value) stored
       else stored) }.

Lemma update_client_inv value event w w' x :
  updateClient_tx value event w = (w', inl x) → ∃ cur, client_updated value cur (w_db w) (w_db w').
Proof.
  unfold updateClient_tx. intros H. tx_step H. rename a into cur. tx_step H. tx_step H.
  unfold UserStore.query_row_map in Hrun. tx_step Hrun. unfold UpdateOIDCClient in Hstmt0. simpl in Hstmt0. rewrite Hstmt in Hstmt0.
  destruct ((cl_Version cur == _) && _); [done|]. apply update_row_inl in Hstmt0 as (r & Hr & Hv & _ & -> & ->). simpl in Hr, Hv.
  assert (r = cur) as -> by congruence. go_bools.
  apply Tx_bind_inl in H as (v4 & y4 & Hc & H). apply replace_children_step in Hc as (E4 & N1 & N2 & N3).
  apply Tx_bind_inl in H as (v5 & y5 & Hc & H). apply insertAudit_step in H as (audits & E6 & _).
  exists cur. split; try done. exists audits. rewrite E6. f_equal. unfold client_disabled, offline_withdrawn.
  destruct (_ || _); [apply revoke_client_step in Hc as ->|tx_step Hc]; by rewrite E4, Hdb2.
Qed.

(** Refinement: updating a client.  A successful update found the row at the version
    the caller read; it leaves the next version with the new settings, the given redirect
    URIs, logout URIs and scopes in place of the old ones, and revokes exactly what the
    change withdraws: all refresh families and live access tokens of a client that is
    disabled, the families and their access tokens of one that loses offline_access,
    nothing otherwise. *)
Theorem client_update_refines value event w w' x :
  UpdateClient value event w = (w', inl x) → ∃ cur, client_updated value cur (w_db w) (w_db w').
Proof.
  intros H. apply inTxWithAudit_inl in H as (w1 & w2 & <- & Hrun & <-). by eapply update_client_inv.
Qed.

(** The client a row of the update becomes, as callers see it. *)
Definition stored_client (value : Client) (cur : OidcClientRow) : Client :=
  mkClient (Client_ID value) (cl_ClientID cur) (cl_ClientType cur) (cl_TokenEndpointAuthMethod cur) (Client_Name value)
    (Client_Description value) (Client_LogoURI value) (Client_Status value) (Client_RegistrationEnabled value)
    (sort_Strings (Client_RedirectURIs value)) (sort_Strings (Client_LogoutURIs value)) (sort_Strings (Client_Scopes value))
    (cl_CreatedAt cur) (timestamp (Client_UpdatedAt value)) (Client_Version value + 1).

Lemma updated_row value cur db db' :
  client_updated value cur db db' →
  oidc_clients db' !! Client_ID value = Some (updated_client_row (update_client_params value) cur).
Proof.
  intros [_ _ _ _ _ (audits & ->)]. destruct (_ || _); simpl; apply lookup_insert_eq.
Qed.

Lemma updated_client_of value cur db db' :
  keyed cl_ID (oidc_clients db) → client_updated value cur db db' →
  client_of db' (updated_client_row (update_client_params value) cur) = stored_client value cur.
Proof.
  intros Hkey [Hf Hv H1 H2 H3 (audits & ->)]. pose proof (Hkey _ _ Hf) as Hid. simpl in Hid.
  unfold client_of, set_children, mapClient, stored_client. simpl. rewrite Hid, Hv, valueString_pointerString.
  destruct (_ || _); simpl; by rewrite !child_values_replaced.
Qed.

Lemma GetClient_run id row w :
  quiet w → oidc_clients (w_db w) !! id = Some row → ∃ w', GetClient id w = (w', inl (client_of (w_db w) row)).
Proof.
  intros Hq Hr. set (w1 := resetValues w). assert (quiet w1) by done.
  exists w1. apply inTx_quiet_inl; [done|done|]. unfold loadClient.
  rewrite (bind_run _ _ w1 w1 row); [by rewrite (loadClientChildren_run row w1)|by apply select_run].
Qed.

(** An update reads back.  After a successful update, reading the client in a
    fault-free run returns the new settings, the lists in order, the next version, and the
    public identifier, type, authentication method and creation time unchanged. *)
Theorem client_update_reads_back value event w w' x w2 :
  db_ok (w_db w) → UpdateClient value event w = (w', inl x) → quiet w2 → w_db w2 = w_db w' →
  ∃ cur w3, oidc_clients (w_db w) !! Client_ID value = Some cur ∧
            GetClient (Client_ID value) w2 = (w3, inl (stored_client value cur)).
Proof.
  intros Hok H Hq E. apply inTxWithAudit_inl in H as (w1 & w4 & Hw1 & Hrun & Hw4). rewrite <- Hw1 in *. rewrite <- Hw4 in E.
  destruct (update_client_inv _ _ _ _ _ Hrun) as (cur & Hu).
  destruct (GetClient_run (Client_ID value) (updated_client_row (update_client_params value) cur) w2) as (w3 & H3); [done| |].
  - rewrite E. by eapply updated_row.
  - exists cur, w3. split; [apply (cu_found _ _ _ _ Hu)|]. rewrite H3, E.
    by erewrite updated_client_of; [|apply (ok_clients_key _ Hok)|exact Hu].
Qed.

(** What a client's update leaves of one access token and one family. *)
Lemma updated_access value cur db db' k a :
  client_updated value cur db db' → access_tokens db !! k = Some a →
  access_tokens db' !! k = Some
    (if (client_disabled value || offline_withdrawn value db) &&
        (((at_ClientID a == Client_ID value) && (client_disabled value || bool_decide (is_Some (at_RefreshFamilyID a)))) &&
         live_access (timestamp (Client_UpdatedAt value)) a)
     then revoke_access (timestamp (Client_UpdatedAt value))
            (Some (if client_disabled value then "client_disabled" else "offline_scope_removed")) a
     else a).
Proof.
  intros [_ _ _ _ _ (audits & ->)] Ha. destruct (client_disabled value || _); simpl; [|done].
  by rewrite lookup_update_where, Ha.
Qed.
Lemma updated_family value cur db db' k f :
  client_updated value cur db db' → refresh_token_families db !! k = Some f →
  refresh_token_families db' !! k = Some
    (if (client_disabled value || offline_withdrawn value db) && ((rf_ClientID f == Client_ID value) && (rf_RevokedAt f == None))
     then revoke_family (timestamp (Client_UpdatedAt value))
            (Some (if client_disabled value then "client_disabled" else "offline_scope_removed")) f
     else f).
Proof.
  intros [_ _ _ _ _ (audits & ->)] Ha. destruct (client_disabled value || _); simpl; [|done].
  by rewrite lookup_update_where, Ha.
Qed.

Lemma updated_family_inv value cur db db' k f' :
  client_updated value cur db db' → refresh_token_families db' !! k = Some f' → ∃ f, refresh_token_families db !! k = Some f.
Proof.
  intros [_ _ _ _ _ (audits & ->)]. destruct (client_disabled value || _); simpl; [|by eexists].
  rewrite lookup_update_where, fmap_Some. intros (f & Hf & _). by exists f.
Qed.
Lemma updated_access_inv value cur db db' k a' :
  client_updated value cur db db' → access_tokens db' !! k = Some a' → ∃ a, access_tokens db !! k = Some a.
Proof.
  intros [_ _ _ _ _ (audits & ->)]. destruct (client_disabled value || _); simpl; [|by eexists].
  rewrite lookup_update_where, fmap_Some. intros (f & Hf & _). by exists f.
Qed.

(** No family of the client is left alive, and no access token the change covers. *)
Lemma cut_off_families value cur db db' :
  client_updated value cur db db' → client_disabled value || offline_withdrawn value db = true →
  map_Forall (λ _ f, rf_ClientID f = Client_ID value → is_Some (rf_RevokedAt f)) (refresh_token_families db').
Proof.
  intros Hu Hc k f' Hf'. destruct (updated_family_inv _ _ _ _ _ _ Hu Hf') as [f Hf].
  rewrite (updated_family _ _ _ _ _ _ Hu Hf), Hc in Hf'. injection Hf' as <-. simpl.
  destruct (_ && _) eqn:E; [by eexists|]. intros Hid. rewrite Hid, bool_decide_eq_true_2 in E by done.
  simpl in E. apply bool_decide_eq_false in E. by apply not_eq_None_Some.
Qed.
Lemma cut_off_access value cur db db' :
  client_updated value cur db db' → client_disabled value || offline_withdrawn value db = true →
  map_Forall (λ _ a, at_ClientID a = Client_ID value → client_disabled value = true ∨ is_Some (at_RefreshFamilyID a) →
    is_Some (at_RevokedAt a) ∨ at_ExpiresAt a <= timestamp (Client_UpdatedAt value)) (access_tokens db').
Proof.
  intros Hu Hc k a' Ha'. destruct (updated_access_inv _ _ _ _ _ _ Hu Ha') as [a Ha].
  rewrite (updated_access _ _ _ _ _ _ Hu Ha), Hc in Ha'. injection Ha' as <-. simpl.
  destruct (_ && _) eqn:E; [intros; left; by eexists|]. intros Hid Hcov.
  rewrite Hid, bool_decide_eq_true_2 in E by done. simpl in E.
  assert (client_disabled value || bool_decide (is_Some (at_RefreshFamilyID a)) = true) as Hd.
  { destruct Hcov as [->|Hcov]; [done|]. by rewrite bool_decide_eq_true_2, orb_true_r. }
  rewrite Hd in E. unfold live_access in E. simpl in E. go_bools. destruct E as [E|E]; [left; by apply not_eq_None_Some|by right].
Qed.

(** C18: What changing a client cuts off, and what not.  Disabling a client revokes all its
    refresh families and live access tokens, and no code of it is exchangeable any more.
    Withdrawing offline_access revokes its families and the access tokens that came from
    them.  Tokens of other clients, and without disabling the tokens outside any family,
    stay as they were. *)
Theorem client_cutoff value event w w' x :
  UpdateClient value event w = (w', inl x) →
  let id := Client_ID value in
  let now := timestamp (Client_UpdatedAt value) in
  (client_disabled value || offline_withdrawn value (w_db w) = true →
     map_Forall (λ _ f, rf_ClientID f = id → is_Some (rf_RevokedAt f)) (refresh_token_families (w_db w')) ∧
     map_Forall (λ _ a, at_ClientID a = id → client_disabled value = true ∨ is_Some (at_RefreshFamilyID a) →
       is_Some (at_RevokedAt a) ∨ at_ExpiresAt a <= now) (access_tokens (w_db w'))) ∧
  (client_disabled value = true → ∀ input code usr client grant scopes,
     exchangeable (w_db w') input code usr client grant scopes → code_ClientID code ≠ id) ∧
  (∀ k a, access_tokens (w_db w) !! k = Some a →
     at_ClientID a ≠ id ∨ (client_disabled value = false ∧ at_RefreshFamilyID a = None) → access_tokens (w_db w') !! k = Some a) ∧
  (∀ k f, refresh_token_families (w_db w) !! k = Some f → rf_ClientID f ≠ id → refresh_token_families (w_db w') !! k = Some f).
Proof.
  intros H id now. apply inTxWithAudit_inl in H as (w1 & w2 & <- & Hrun & <-).
  destruct (update_client_inv _ _ _ _ _ Hrun) as (cur & Hu). split; [|split; [|split]].
  - intros Hc. split; [by eapply cut_off_families|by eapply cut_off_access].
  - intros Hd input code usr client grant scopes Hex E. pose proof (ex_client _ _ _ _ _ _ _ Hex) as Hc.
    unfold id in E. rewrite E, (updated_row _ _ _ _ Hu) in Hc. injection Hc as <-. pose proof (ex_authenticated _ _ _ _ _ _ _ Hex) as Hs.
    unfold sameAuthenticatedClient in Hs. rewrite !andb_true_iff in Hs. destruct Hs as [[[[[_ _] Hst] _] _] _].
    apply bool_decide_eq_true in Hd, Hst. simpl in Hst. by rewrite Hd in Hst.
  - intros k a Ha Hout. rewrite (updated_access _ _ _ _ _ _ Hu Ha). f_equal. destruct Hout as [Hne|[-> ->]].
    + by rewrite (bool_decide_eq_false_2 (at_ClientID a = _)), andb_false_r.
    + rewrite (bool_decide_eq_false_2 (is_Some None)), andb_false_r; [|by intros []]. simpl. by rewrite andb_false_r.
  - intros k f Hf Hne. rewrite (updated_family _ _ _ _ _ _ Hu Hf). f_equal.
    by rewrite (bool_decide_eq_false_2 (rf_ClientID f = _)), andb_false_r.
Qed.

(** ** Secrets *)

(** A retired secret: its digest is stored, revoked. *)
Definition retired_secret (h : bytes) (db : DB) : Prop :=
  ∃ k r, oidc_client_secrets db !! k = Some r ∧ sec_SecretHash r = h ∧ is_Some (sec_RevokedAt r).

Lemma write_keeps_retired h db db' : write any_row db db' → retired_secret h db → retired_secret h db'.
Proof.
  unfold retired_secret. destruct 1; simpl in *; try done; intros (k & s & Hk & Hh & Hr).
  - exists k, s. rewrite lookup_insert_ne; [done|]. intros <-. congruence.
  - match goal with H : pointwise _ _ _ |- _ => specialize (H k); rewrite Hk in H; inversion H as [? s' Hs E1 E2|]; subst end.
    exists k, s'. split; [done|]. destruct Hs as [->|(Hn & _)]; [done|]. rewrite Hn in Hr. by destruct Hr.
Qed.

Definition rotated_secrets (id : uuid) (secret : SecretRecord) (now : time) (t : gmap uuid OidcClientSecretRow) :
    gmap uuid OidcClientSecretRow :=
  <[SecretRecord_ID secret := secret_row id secret]>
    (update_where (live_secret_of id) (λ r, mkOidcClientSecretRow (sec_ID r) (sec_ClientID r) (sec_SecretHash r) (sec_Version r)
       (sec_CreatedAt r) (Some (timestamp now))) t).

Lemma rotate_inv id secret now event w w' x :
  rotateClientSecret_tx id secret now event w = (w', inl x) →
  (∃ c, oidc_clients (w_db w) !! id = Some c ∧ cl_ClientType c = TypeConfidential) ∧
  oidc_client_secrets (w_db w) !! SecretRecord_ID secret = None ∧
  ∃ audits, w_db w' = with_audit_events audits
    (with_oidc_client_secrets (rotated_secrets id secret now (oidc_client_secrets (w_db w))) (w_db w)).
Proof.
  unfold rotateClientSecret_tx. intros H. tx_step H. tx_step H. tx_step H. tx_step H.
  apply update_rows_inl in Hstmt0 as (_ & -> & _). apply insert_row_inl in Hstmt1 as (_ & -> & _ & _ & _ & Hnew & _).
  apply insertAudit_step in H as (audits & E & _). go_bools. split; [by eexists|].
  simpl in Hnew. rewrite lookup_update_where, fmap_None in Hnew. split; [done|]. exists audits. rewrite E.
  by repeat match goal with E : w_db _ = _ |- _ => rewrite E end.
Qed.

Lemma active_secret_hashes id db :
  ListActiveOIDCClientSecretHashes id db =
  inl (sec_SecretHash <$> merge_sort newest_secret (List.filter (live_secret_of id) (rows (oidc_client_secrets db))), db).
Proof. done. Qed.

Lemma elem_of_active_hashes id db hashes h :
  ListActiveOIDCClientSecretHashes id db = inl (hashes, db) →
  h ∈ hashes ↔ ∃ k r, oidc_client_secrets db !! k = Some r ∧ live_secret_of id r = true ∧ sec_SecretHash r = h.
Proof.
  rewrite active_secret_hashes. intros [= <-]. rewrite list_elem_of_fmap. setoid_rewrite merge_sort_Permutation.
  split.
  - intros (r & -> & Hr). rewrite list_elem_of_In, filter_In, <- list_elem_of_In, elem_of_rows in Hr.
    destruct Hr as [[k Hk] Hl]. by exists k, r.
  - intros (k & r & Hk & Hl & <-). exists r. split; [done|]. rewrite list_elem_of_In, filter_In, <- list_elem_of_In, elem_of_rows.
    split; [by exists k|done].
Qed.

Lemma filter_Permutation {A} (p : A → bool) l k : l ≡ₚ k → List.filter p l ≡ₚ List.filter p k.
Proof. induction 1; simpl; repeat case_match; try done; [by constructor|by constructor|by etrans]. Qed.
Lemma filter_none {A} (p : A → bool) l : (∀ x, x ∈ l → p x = false) → List.filter p l = [].
Proof.
  induction l as [|x l IH]; simpl; [done|]. intros Hp. rewrite (Hp x) by set_solver. apply IH. set_solver.
Qed.

(** A secret stored where no live one of the client is. *)
Lemma inserted_live id secret (t : gmap uuid OidcClientSecretRow) :
  t !! SecretRecord_ID secret = None → (∀ k r, t !! k = Some r → live_secret_of id r = false) →
  List.filter (live_secret_of id) (rows (<[SecretRecord_ID secret := secret_row id secret]> t)) = [secret_row id secret].
Proof.
  intros Hn Ht. apply Permutation_singleton_r. transitivity (List.filter (live_secret_of id) (secret_row id secret :: rows t)).
  - apply filter_Permutation. unfold rows. by rewrite map_to_list_insert.
  - simpl. unfold live_secret_of at 1. simpl. rewrite !bool_decide_eq_true_2 by done. simpl. constructor.
    rewrite filter_none; [done|]. intros r (k & Hk)%elem_of_rows. by eapply Ht.
Qed.

(** After the rotation the client has one live secret, the new one. *)
Lemma rotated_live id secret now (t : gmap uuid OidcClientSecretRow) :
  t !! SecretRecord_ID secret = None →
  List.filter (live_secret_of id) (rows (rotated_secrets id secret now t)) = [secret_row id secret].
Proof.
  intros Hn. apply inserted_live; [by rewrite lookup_update_where, Hn|]. intros k r Hk.
  rewrite lookup_update_where, fmap_Some in Hk. destruct Hk as (r0 & _ & ->). by destruct (live_secret_of id r0) eqn:E; [apply andb_false_r|].
Qed.

Lemma GetClientByPublicID_row id c db :
  db_ok db → oidc_clients db !! id = Some c → find_row (λ r, cl_ClientID r == cl_ClientID c) (oidc_clients db) = Some c.
Proof.
  intros Hok Hc. eapply find_row_unique; [exact Hc|by apply bool_decide_eq_true|]. intros k r Hk Hr.
  destruct (ok_clients _ Hok) as (_ & _ & Huniq). apply bool_decide_eq_true in Hr.
  assert (k = id) as -> by (apply (Huniq _ _ _ _ Hk Hc); simpl; by apply bool_decide_eq_true). congruence.
Qed.

Lemma GetClientSecretHashes_run id c hashes w :
  db_ok (w_db w) → quiet w → oidc_clients (w_db w) !! id = Some c →
  ListActiveOIDCClientSecretHashes id (w_db w) = inl (hashes, w_db w) →
  ∃ w', GetClientSecretHashes (cl_ClientID c) w = (w', inl (client_of (w_db w) c, hashes)).
Proof.
  intros Hok Hq Hc Hh. assert (cl_ID c = id) as Hid by (by apply (ok_clients_key _ Hok) in Hc).
  destruct (GetClient_run id c w Hq Hc) as (w' & Hg). exists w'. unfold GetClientSecretHashes.
  rewrite (bind_run _ _ w w c) by (apply select_run; [done|by eapply GetClientByPublicID_row]). rewrite Hid.
  rewrite (bind_run _ _ w w hashes) by (by rewrite (query_run _ _ w hashes (w_db w)), with_db_same).
  by rewrite (bind_run _ _ w w' _ Hg).
Qed.

(** A retired digest is active for no client: a digest is stored once. *)
Lemma retired_inactive h client db hashes :
  db_ok db → retired_secret h db → ListActiveOIDCClientSecretHashes client db = inl (hashes, db) → h ∉ hashes.
Proof.
  intros Hok (k & r & Hk & Hh & Hr) Hl Hin. rewrite (elem_of_active_hashes _ _ _ _ Hl) in Hin.
  destruct Hin as (k' & r' & Hk' & Hl' & Hh'). destruct (ok_secrets _ Hok) as (_ & _ & Huniq).
  assert (k' = k) as -> by (eapply (Huniq _ _ _ _ Hk' Hk); simpl; rewrite bool_decide_eq_true; congruence).
  assert (r' = r) as -> by congruence. unfold live_secret_of in Hl'. go_bools. match goal with E : sec_RevokedAt r = None |- _ => rewrite E in Hr end.
  by destruct Hr.
Qed.

Lemma rotation_retires id secret now db hashes h :
  oidc_client_secrets db !! SecretRecord_ID secret = None →
  ListActiveOIDCClientSecretHashes id db = inl (hashes, db) → h ∈ hashes →
  ∀ audits, retired_secret h (with_audit_events audits (with_oidc_client_secrets (rotated_secrets id secret now (oidc_client_secrets db)) db)).
Proof.
  intros Hn Hl Hin audits. rewrite (elem_of_active_hashes _ _ _ _ Hl) in Hin. destruct Hin as (k & r & Hk & Hlive & Hh).
  eexists k, _. simpl. unfold rotated_secrets. rewrite lookup_insert_ne by congruence. rewrite lookup_update_where, Hk. simpl.
  rewrite Hlive. split; [done|]. split; [done|by eexists].
Qed.

Lemma rotation_elsewhere id secret now (t : gmap uuid OidcClientSecretRow) k r :
  t !! SecretRecord_ID secret = None → sec_ClientID r ≠ id → rotated_secrets id secret now t !! k = Some r ↔ t !! k = Some r.
Proof.
  intros Hn Hne. unfold rotated_secrets. destruct (decide (k = SecretRecord_ID secret)) as [->|Hk].
  - rewrite lookup_insert_eq, Hn. split; [|done]. intros [= <-]. by destruct Hne.
  - rewrite lookup_insert_ne, lookup_update_where by done. destruct (t !! k) as [r0|]; simpl; [|done].
    unfold live_secret_of. destruct (decide (sec_ClientID r0 = id)) as [E|E].
    + split; intros [= <-]; destruct Hne; [by destruct (_ && _)|done].
    + by rewrite (bool_decide_eq_false_2 (sec_ClientID r0 = id)).
Qed.

(** A rotated secret is the only one.  After a successful rotation the client is
    confidential and its active secrets are exactly the new one, as the lookup that
    authenticates the client reports in a fault-free run; the secrets of other clients are
    as before; and a secret that was active before is active for no client in any later
    state. *)
Theorem secret_rotation_exclusive id secret now event w w' x :
  db_ok (w_db w) → RotateClientSecret id secret now event w = (w', inl x) →
  (∃ c, oidc_clients (w_db w') !! id = Some c ∧ cl_ClientType c = TypeConfidential ∧
     ∀ w2, quiet w2 → w_db w2 = w_db w' →
       ∃ w3, GetClientSecretHashes (cl_ClientID c) w2 = (w3, inl (client_of (w_db w2) c, [SecretRecord_SecretHash secret]))) ∧
  (∀ k r, sec_ClientID r ≠ id → oidc_client_secrets (w_db w') !! k = Some r ↔ oidc_client_secrets (w_db w) !! k = Some r) ∧
  (∀ old hashes allowed db2 client hashes2,
     ListActiveOIDCClientSecretHashes id (w_db w) = inl (hashes, w_db w) → old ∈ hashes → reaches allowed (w_db w') db2 →
     ListActiveOIDCClientSecretHashes client db2 = inl (hashes2, db2) → old ∉ hashes2).
Proof.
  intros Hok H. assert (Hok' : db_ok (w_db w')) by (by eapply (run_ok (OpRotateSecret id secret now event) _ (λ _, ResultDone))).
  apply inTxWithAudit_inl in H as (w1 & w4 & Hw1 & Hrun & Hw4). rewrite <- Hw1 in *. rewrite <- Hw4 in *. clear Hw1 Hw4 w w'.
  destruct (rotate_inv _ _ _ _ _ _ _ Hrun) as ((c & Hc & Hty) & Hnew & audits & E). split; [|split].
  - exists c. split; [by rewrite E|]. split; [done|]. intros w2 Hq Ew.
    apply (GetClientSecretHashes_run id); [by rewrite Ew|done|by rewrite Ew, E|].
    rewrite active_secret_hashes, Ew, E. simpl. by rewrite rotated_live.
  - intros k r Hne. rewrite E. by apply rotation_elsewhere.
  - intros old hashes allowed db2 client hashes2 Hl Hin Hr. apply retired_inactive; [by eapply reaches_ok|].
    eapply (reaches_preserves any_row); [apply write_keeps_retired|intros; apply any_row_obeys|exact Hr|].
    rewrite E. by eapply rotation_retires.
Qed.
End theorems.

(** ** Witnesses *)

(** An administrator disables the demo client while it holds a refresh family. *)
Definition demo_client_value : Client :=
  mkClient 2 "ois_cli_QUJDREVGR0hJSktMTU5PUFFSU1RVVldYWVo" "public" "none" "App" "" "" "disabled" true [redirect] []
    ["profile"; "openid"] t0 (t0 + 10 * Time.Minute) 1.
Definition demo_client_event : AuditEvent :=
  mkAuditEvent 92 audit.ClientUpdated audit.ResultSuccess (Some 1%N) (Some audit.TargetClient) (Some 2%N) "req-8" ["status"] (t0 + 10 * Time.Minute).
Lemma demo_updates_client : ∃ w' x, UpdateClient demo_client_value demo_client_event (world_of refreshed_db 0) = (w', inl x).
Proof. apply succeeds_run. by vm_compute. Qed.

Lemma client_update_refines_witness : ∃ w' x cur,
  UpdateClient demo_client_value demo_client_event (world_of refreshed_db 0) = (w', inl x) ∧
  client_updated demo_client_value cur (w_db (world_of refreshed_db 0)) (w_db w').
Proof.
  destruct demo_updates_client as (w' & x & H). destruct (client_update_refines _ _ _ _ _ H) as [cur Hu].
  exists w', x, cur. split; [exact H|exact Hu].
Defined.

Lemma client_update_reads_back_witness : ∃ w' x,
  UpdateClient demo_client_value demo_client_event (world_of refreshed_db 0) = (w', inl x) ∧
  ∃ cur w3, GetClient 2 (world_of (w_db w') 0) = (w3, inl (stored_client demo_client_value cur)).
Proof.
  destruct demo_updates_client as (w' & x & H). exists w', x. split; [exact H|].
  destruct (client_update_reads_back _ _ _ _ _ (world_of (w_db w') 0) (world_ok _ _ refreshed_db_ok) H eq_refl eq_refl)
    as (cur & w3 & Hc & Hg). exists cur, w3. exact Hg.
Defined.

Lemma client_cutoff_witness : ∃ w' x,
  UpdateClient demo_client_value demo_client_event (world_of refreshed_db 0) = (w', inl x) ∧
  map_Forall (λ _ f, rf_ClientID f = 2%N → is_Some (rf_RevokedAt f)) (refresh_token_families (w_db w')).
Proof.
  destruct demo_updates_client as (w' & x & H). exists w', x. split; [exact H|].
  exact (proj1 (proj1 (client_cutoff _ _ _ _ _ H) eq_refl)).
Defined.

(** A confidential client rotates its only secret. *)
Definition secret_client : OidcClientRow :=
  mkOidcClientRow 6 "ois_cli_QUJDREVGR0hJSktMTU5PUFFSU1RVVldYWVp" TypeConfidential AuthMethodClientSecretBasic "Server" "" None "active" true t0 t0 1.
Definition secret_db : DB :=
  with_oidc_client_secrets {[ 70%N := mkOidcClientSecretRow 70 6 (hash_of "o") 1 t0 None ]}
    (with_oidc_clients (<[6%N := secret_client]> (oidc_clients refreshed_db)) refreshed_db).
Lemma secret_db_ok : db_ok secret_db.
Proof. apply db_okb_spec. by vm_compute. Qed.
Definition demo_secret : SecretRecord := mkSecretRecord 71 6 (hash_of "n") (t0 + 10 * Time.Minute).
Definition demo_secret_event : AuditEvent :=
  mkAuditEvent 93 audit.ClientSecretRotated audit.ResultSuccess (Some 1%N) (Some audit.TargetClient) (Some 6%N) "req-9" ["secret"]
    (t0 + 10 * Time.Minute).

Lemma secret_rotation_exclusive_witness : ∃ w' x,
  RotateClientSecret 6 demo_secret (t0 + 10 * Time.Minute) demo_secret_event (world_of secret_db 0) = (w', inl x) ∧
  ∃ c w3, GetClientSecretHashes (cl_ClientID c) (world_of (w_db w') 0) =
    (w3, inl (client_of (w_db (world_of (w_db w') 0)) c, [SecretRecord_SecretHash demo_secret])).
Proof.
  destruct (succeeds_run (RotateClientSecret 6 demo_secret (t0 + 10 * Time.Minute) demo_secret_event) (world_of secret_db 0))
    as (w' & x & H); [by vm_compute|]. exists w', x. split; [exact H|].
  destruct (secret_rotation_exclusive _ _ _ _ _ _ _ (world_ok _ _ secret_db_ok) H) as ((c & _ & _ & Hq) & _).
  destruct (Hq (world_of (w_db w') 0) eq_refl eq_refl) as (w3 & H3). exists c, w3. exact H3.
Defined.
