(* ===== verification/SystemTheorems.v ===== *)
(** * The store as a whole: the theorems

    Transactions are atomic, preserve the schema invariant in every reachable state and
    never rewrite the audit log; cleanup ends, deletes retired rows only, and leaves of them
    only what other transactions held. *)

From S2P Require Import Prelude Errors Platform Scopes Domain Opaque SessionTokens AuditEvents Database Queries RegistryQueries.
From S2P Require Import BrowserQueries Tx StoreCommon AuthorizationStore TokenStore ConsentStore SessionStore FlowStore.
From S2P Require Import LoginStore LogoutStore UserStore ClientStore Invariants StatementFacts Writes Lifecycle IssueProofs.
From S2P Require Import TokenService AuthorizationService Demo RefreshTheorems.
(** ** Atomicity *)

Lemma inTx_events {A} (op : Tx A) w w' e : inTx op w = (w', inr e) → w_events w' = [].
Proof.
  assert (Hobs : ∀ e w, w_events (observeAuditWriteFailure e w) = w_events w).
  { intros e0 w0. unfold observeAuditWriteFailure. by destruct (auditWriteFailure e0). }
  assert (Hcom : ∀ b db w0, w_events (if b : bool then resetValues w0 else with_db db (resetValues w0)) = []) by (by intros []).
  unfold inTx, maxTransactionAttempts, inTx_attempts. intros H.
  repeat match type of H with
  | context [match ?x with _ => _ end] => destruct x eqn:?
  | context [if ?x then _ else _] => destruct x eqn:?
  end; simplify_eq/=; rewrite ?Hobs; try done; by apply Hcom.
Qed.

(** C33: A transaction is all or nothing, under any driver faults.  When [inTx] returns
    a value, the tables are those of exactly one complete run of the operation from the
    tables it began with; when it returns an error, the tables are the old ones, or the
    error is the ambiguous commit error and the tables are those of one complete run.
    After an error no audit event is left to be reported. *)
Theorem inTx_atomic {A} (op : Tx A) w :
  let '(w', r) := inTx op w in
  match r with
  | inl a => committed op (w_db w) a (w_db w')
  | inr e => w_events w' = [] ∧
      (w_db w' = w_db w ∨ (∃ a, committed op (w_db w) a (w_db w')) ∧ ∃ d, e = wrapError "commit transaction" ErrorKindQuery d)
  end.
Proof.
  destruct (inTx op w) as [w' [a|e]] eqn:E.
  - by apply inTx_inl.
  - split; [by eapply inTx_events|]. by apply inTx_attempts_cases in E.
Qed.

Section theorems.
Context {P : Platform}.

(** ** The invariant *)

(** C14: The schema invariant holds in every reachable state.  Starting from tables in
    which keys, CHECK constraints, uniqueness and the containment of generations and
    access tokens in their family hold, every sequence of store operations, each under
    any driver faults and with any stale candidates, reaches only such tables. *)
Theorem reachable_ok allowed db db' : db_ok db → reaches allowed db db' → db_ok db'.
Proof. intros Hok Hr. by eapply reaches_ok. Qed.

(** The lifetime and scope bounds of a state. *)
Record bounded (db : DB) : Prop := {
  bd_codes : map_Forall (λ _ r, code_CreatedAt r < code_ExpiresAt r <= code_CreatedAt r + 5 * Time.Minute ∧
                                canonical (code_Scopes r)) (authorization_codes db);
  bd_access : map_Forall (λ _ r, at_IssuedAt r < at_ExpiresAt r <= at_IssuedAt r + 30 * Time.Minute ∧
                                 canonical (at_Scopes r) ∧
                                 (∀ f, at_RefreshFamilyID r = Some f → ∃ family, refresh_token_families db !! f = Some family ∧
                                    ∀ s, s ∈ at_Scopes r → s ∈ rf_Scopes family)) (access_tokens db);
  bd_refresh : map_Forall (λ _ r, rt_IssuedAt r < rt_ExpiresAt r <= rt_IssuedAt r + 30 * 24 * Time.Hour ∧
                                  ∃ family, refresh_token_families db !! rt_FamilyID r = Some family ∧
                                    rt_ExpiresAt r <= rf_AbsoluteExpiresAt family) (refresh_tokens db);
  bd_families : map_Forall (λ _ r, rf_AbsoluteExpiresAt r <= rf_CreatedAt r + 365 * 24 * Time.Hour ∧
                                   canonical (rf_Scopes r) ∧ "offline_access" ∈ rf_Scopes r) (refresh_token_families db);
  bd_grants : map_Forall (λ _ r, canonical (g_Scopes r) ∧ 0 < g_Version r) (consent_grants db) }.

Lemma db_ok_bounded db : db_ok db → bounded db.
Proof.
  intros Hok. split; intros k r Hk.
  - pose proof (ok_codes_check _ Hok _ _ Hk) as Hc. simpl in Hc. unfold authorization_codes_check in Hc.
    rewrite !andb_true_iff in Hc. destruct_and!. split; [go_bools; lia|by apply scopes_valid_canonical].
  - pose proof (ok_access_check _ Hok _ _ Hk) as Hc. simpl in Hc. unfold access_tokens_check in Hc.
    rewrite !andb_true_iff in Hc. destruct_and!. split_and!; [by apply Z.ltb_lt|by apply Z.leb_le|by apply scopes_valid_canonical|].
    intros f Hf. destruct (ok_access_family _ Hok _ _ Hk f Hf) as (fam & Hfam & _ & _ & _ & Hs). by exists fam.
  - pose proof (ok_refresh_check _ Hok _ _ Hk) as Hc. simpl in Hc. unfold refresh_tokens_check in Hc.
    rewrite !andb_true_iff in Hc. destruct_and!. split; [go_bools; lia|].
    destruct (ok_refresh_family _ Hok _ _ Hk) as (fam & Hfam & _ & He). by exists fam.
  - pose proof (ok_families_check _ Hok _ _ Hk) as Hc. simpl in Hc. unfold refresh_token_families_check in Hc.
    rewrite !andb_true_iff in Hc. destruct_and!. split_and!; [by apply Z.leb_le|by apply scopes_valid_canonical|by go_bools].
  - pose proof (ok_grants_check _ Hok _ _ Hk) as Hc. simpl in Hc. unfold consent_grants_check in Hc.
    rewrite !andb_true_iff in Hc. destruct_and!. split; [by apply scopes_valid_canonical|by apply Z.ltb_lt].
Qed.

(** Every stored authority is bounded in time and scope, in every reachable state:
    codes live at most five minutes, access tokens thirty, refresh generations thirty
    days and never beyond their family, families at most a year; every stored scope list
    is canonical and an access token carries no scope outside its family. *)
Theorem reachable_bounded allowed db db' : db_ok db → reaches allowed db db' → bounded db'.
Proof. intros Hok Hr. apply db_ok_bounded. by eapply reaches_ok. Qed.

(** The audit log is append-only: no sequence of store operations changes or
    removes a recorded event. *)
Theorem audit_append_only allowed db db' : rtc (sys_step allowed) db db' → audit_events db ⊆ audit_events db'.
Proof.
  intros Hr. apply (reaches_writes any_row) in Hr; [|intros; apply any_row_obeys].
  induction Hr as [|a b c Hab _ IH]; [done|]. etrans; [by eapply write_audit_append|done].
Qed.

End theorems.

(** ** Witnesses *)

(** One step of the demo installation: its code is issued. *)
Lemma demo_reaches : ∃ w' grant, IssueAuthorizationCode demo_commit (world_of demo_db 0) = (w', inl grant) ∧
  reaches (λ _, True) (w_db (world_of demo_db 0)) (w_db w').
Proof.
  destruct (succeeds_run _ _ demo_commit_succeeds) as (w' & grant & Hrun). exists w', grant. split; [exact Hrun|].
  apply rtc_once. exists (OpIssue demo_commit). split; [done|]. by eapply (run_step (OpIssue demo_commit) _ ResultGrant).
Qed.

Lemma reachable_ok_witness : ∃ db', reaches (λ _, True) (w_db (world_of demo_db 0)) db' ∧ db_ok db'.
Proof.
  destruct demo_reaches as (w' & grant & _ & Hr). exists (w_db w'). split; [exact Hr|].
  exact (reachable_ok _ _ _ (world_ok _ _ demo_db_ok) Hr).
Defined.

Lemma reachable_bounded_witness : ∃ db', reaches (λ _, True) (w_db (world_of demo_db 0)) db' ∧ bounded db'.
Proof.
  destruct demo_reaches as (w' & grant & _ & Hr). exists (w_db w'). split; [exact Hr|].
  exact (reachable_bounded _ _ _ (world_ok _ _ demo_db_ok) Hr).
Defined.

Lemma audit_append_only_witness : ∃ db', reaches (λ _, True) (w_db (world_of demo_db 0)) db' ∧
  audit_events (w_db (world_of demo_db 0)) ⊆ audit_events db'.
Proof.
  destruct demo_reaches as (w' & grant & _ & Hr). exists (w_db w'). split; [exact Hr|].
  exact (audit_append_only _ _ _ Hr).
Defined.

(** ** Cleanup *)
(** ** Batches *)

Section batch.
Context {R : Type} (held : gset uuid) (key : R → Z) (id : R → uuid) (p : R → bool).
Implicit Types t : gmap uuid R.

Lemma elem_of_ordered t i :
  i ∈ (snd <$> merge_sort batch_le ((λ r, (key r, id r)) <$> List.filter (λ r, p r && bool_decide (id r ∉ held)) (rows t))) ↔
  ∃ k r, t !! k = Some r ∧ p r = true ∧ (i ∉ held) ∧ id r = i.
Proof.
  rewrite list_elem_of_fmap. setoid_rewrite merge_sort_Permutation. setoid_rewrite list_elem_of_fmap. split.
  - intros ([z i'] & -> & r & [= -> ->] & Hr). apply list_elem_of_In, filter_In in Hr as [Hr [Hp Hh%bool_decide_eq_true]%andb_true_iff].
    apply list_elem_of_In, elem_of_rows in Hr as [k Hk]. by exists k, r.
  - intros (k & r & Hk & Hp & Hh & <-). exists (key r, id r). split; [done|]. exists r. split; [done|].
    apply list_elem_of_In, filter_In. split; [apply list_elem_of_In, elem_of_rows; by exists k|].
    apply andb_true_iff. split; [done|by apply bool_decide_eq_true].
Qed.

(** A short batch took every retired row that nobody held. *)
Lemma batch_short limit t k r :
  Z.of_nat (length (batch held key id p limit t)) < limit → t !! k = Some r → p r = true → id r ∉ held →
  id r ∈ batch held key id p limit t.
Proof.
  unfold batch. intros Hl Hk Hp Hh. rewrite length_take in Hl.
  rewrite take_ge by lia. apply elem_of_ordered. by exists k, r.
Qed.

(** A batch that took anything made the table smaller. *)
Lemma batch_shrinks limit t :
  keyed id t → 0 < Z.of_nat (length (batch held key id p limit t)) →
  (size (delete_ids (batch held key id p limit t) t) < size t)%nat.
Proof.
  intros Hkey Hl. destruct (batch held key id p limit t) as [|i ids] eqn:E; [done|].
  assert (Hi : i ∈ batch held key id p limit t) by (rewrite E; left). apply elem_of_batch in Hi as (k & r & Hk & _ & Hid).
  pose proof (Hkey _ _ Hk) as Hkk. simpl in Hkk.
  apply map_subset_size. split; [apply map_filter_subseteq|]. intros Hsub.
  apply (lookup_weaken _ _ _ _ Hk) in Hsub. apply map_lookup_filter_Some in Hsub as [_ Hn]. apply Hn.
  rewrite <- Hkk, Hid. left.
Qed.

Lemma lookup_delete_ids ids t k r : delete_ids ids t !! k = Some r ↔ t !! k = Some r ∧ k ∉ ids.
Proof. unfold delete_ids. by rewrite map_lookup_filter_Some. Qed.

Lemma delete_ids_size ids t : (size (delete_ids ids t) ≤ size t)%nat.
Proof. apply map_size_filter. Qed.

(** What is not retired stays. *)
Lemma batch_keeps limit t k r :
  keyed id t → t !! k = Some r → p r = false → delete_ids (batch held key id p limit t) t !! k = Some r.
Proof.
  intros Hkey Hk Hp. apply lookup_delete_ids. split; [done|]. intros Hin.
  apply elem_of_batch in Hin as (k' & r' & Hk' & Hp' & Hid).
  pose proof (Hkey _ _ Hk'). pose proof (Hkey _ _ Hk). simpl in *. congruence.
Qed.

(** After a short batch a retired row is left only if it was held. *)
Lemma batch_complete limit t k r :
  keyed id t → Z.of_nat (length (batch held key id p limit t)) < limit →
  delete_ids (batch held key id p limit t) t !! k = Some r → p r = true → k ∈ held.
Proof.
  intros Hkey Hl [Hk Hn]%lookup_delete_ids Hp. destruct (decide (k ∈ held)) as [|Hh]; [done|]. exfalso. apply Hn.
  pose proof (Hkey _ _ Hk) as Hkk. simpl in Hkk. rewrite <- Hkk in *. by eapply batch_short.
Qed.
End batch.

(** ** One batch transaction *)

Section theorems.
Context {P : Platform}.

Definition protocol_rows (db : DB) : nat := size (authorization_codes db) + size (access_tokens db).

(** Codes and access tokens that outlive the cutoff are still there; an access token
    may have lost the link to its retired code. *)
Definition live_kept (cutoff : time) (db db' : DB) : Prop :=
  (∀ k r, authorization_codes db !! k = Some r → cutoff < code_ExpiresAt r → authorization_codes db' !! k = Some r) ∧
  (∀ k r, access_tokens db !! k = Some r → cutoff < at_ExpiresAt r →
     ∃ ids, access_tokens db' !! k = Some (detach_access_code ids r)).

(** The retired codes and access tokens are among these. *)
Definition retired_within (ids : gset uuid) (cutoff : time) (db : DB) : Prop :=
  map_Forall (λ k r, code_ExpiresAt r <= cutoff → k ∈ ids) (authorization_codes db) ∧
  map_Forall (λ k r, at_ExpiresAt r <= cutoff → k ∈ ids) (access_tokens db).

(** All rows that other transactions hold at some statement of the run. *)
Definition held_rows (w : World) : gset uuid := ⋃ (w_held w).
Definition held_less (w w' : World) : Prop := held_rows w' ⊆ held_rows w.
#[local] Instance held_less_unseen : Unseen held_less.
Proof. split; [split; [intros w|intros ? ? ?]; unfold held_less; set_solver|intros; unfold held_less; done..]. Qed.

Lemma held_head w : default ∅ (head (w_held w)) ⊆ held_rows w.
Proof. unfold held_rows. destruct (w_held w) as [|h l]; simpl; set_solver. Qed.
Lemma held_locked_elsewhere : world_rel held_less locked_elsewhere.
Proof. intros w. unfold held_less, held_rows. simpl. destruct (w_held w) as [|h l]; simpl; set_solver. Qed.
Lemma skipping_inl {A B} op (s : gset uuid → Stmt A) (k : A → Tx B) w w' b :
  (held ← locked_elsewhere; a ← query op (s held); k a) w = (w', inl b) →
  ∃ held w1 a, held ⊆ held_rows w ∧ held_less w w1 ∧ s held (w_db w) = inl (a, w_db w1) ∧ k a w1 = (w', inl b).
Proof.
  intros (w0 & held & Hl & (w1 & a & Hq & Hk)%Tx_bind_inl)%Tx_bind_inl. pose proof (held_locked_elsewhere w) as H0.
  rewrite Hl in H0. pose proof (world_query held_less op (s held) w0) as H1. rewrite Hq in H1. simpl in H0, H1.
  tx_step Hl. tx_step Hq. subst held db. exists (default ∅ (head (w_held w))), w1, a. split; [apply held_head|]. by split; [etrans|].
Qed.
Lemma held_cleanupProtocol cutoff : world_rel held_less (cleanupProtocol_tx cutoff).
Proof.
  unfold cleanupProtocol_tx. repeat first [apply held_locked_elsewhere | apply (world_query held_less) | apply (world_ret held_less) |
    apply (world_bind held_less); [|intros ?]].
Qed.

Lemma detach_detach ids ids' r : detach_access_code ids' (detach_access_code ids r) = detach_access_code (ids ++ ids') r.
Proof.
  unfold detach_access_code. simpl. f_equal. unfold detach. destruct (at_AuthorizationCodeID r) as [c|]; [|done].
  destruct (bool_decide (c ∈ ids)) eqn:E.
  - apply bool_decide_eq_true in E. rewrite bool_decide_eq_true_2; [done|]. apply elem_of_app. by left.
  - apply bool_decide_eq_false in E. destruct (bool_decide (c ∈ ids')) eqn:E'.
    + apply bool_decide_eq_true in E'. rewrite bool_decide_eq_true_2; [done|]. apply elem_of_app. by right.
    + apply bool_decide_eq_false in E'. rewrite bool_decide_eq_false_2; [done|]. rewrite elem_of_app. tauto.
Qed.

Lemma detach_nil r : detach_access_code [] r = r.
Proof. destruct r as [? ? [c|]]; done. Qed.

Lemma retired_within_mono ids ids' cutoff db : ids ⊆ ids' → retired_within ids cutoff db → retired_within ids' cutoff db.
Proof. intros Hs [H1 H2]. split; intros k r Hk Hr; apply Hs; [by eapply H1|by eapply H2]. Qed.

Lemma live_kept_refl cutoff db : live_kept cutoff db db.
Proof. split; [done|]. intros k r Hk _. exists []. by rewrite detach_nil. Qed.

Lemma live_kept_trans cutoff a b c : live_kept cutoff a b → live_kept cutoff b c → live_kept cutoff a c.
Proof.
  intros [H1 H2] [H3 H4]. split; [eauto|]. intros k r Hk Hl. destruct (H2 _ _ Hk Hl) as [ids Hb].
  destruct (H4 _ _ Hb) as [ids' Hc]; [done|]. exists (ids ++ ids'). by rewrite <- detach_detach.
Qed.

Lemma cleanupProtocol_inv cutoff w w' a b :
  db_ok (w_db w) → cleanupProtocol_tx cutoff w = (w', inl (a, b)) →
  live_kept (timestamp cutoff) (w_db w) (w_db w') ∧
  (protocol_rows (w_db w') ≤ protocol_rows (w_db w))%nat ∧
  (0 < a ∨ 0 < b → (protocol_rows (w_db w') < protocol_rows (w_db w))%nat) ∧
  (a < cleanupBatchSize → b < cleanupBatchSize → retired_within (held_rows w) (timestamp cutoff) (w_db w')).
Proof.
  intros Hok H. unfold cleanupProtocol_tx in H.
  apply skipping_inl in H as (h1 & w1 & a1 & Hh1 & Hw1 & Hs1 & H). apply skipping_inl in H as (h2 & w2 & a2 & Hh2 & _ & Hs2 & H).
  injection H as <- <- <-. assert (Hh : h1 ⊆ held_rows w ∧ h2 ⊆ held_rows w) by (unfold held_less in Hw1; set_solver). clear Hh1 Hh2 Hw1.
  unfold DeleteRetiredAuthorizationCodes in Hs1. injection Hs1 as <- Hdb0. symmetry in Hdb0.
  rewrite Hdb0 in Hs2. unfold DeleteRetiredAccessTokens in Hs2. injection Hs2 as <- Hdb1. simpl in Hdb1. rename w2 into w'.
  set (codes := batch _ _ _ _ _ (authorization_codes _)) in *. set (tokens := detach_access_code codes <$> _) in *.
  set (dead := batch _ _ _ _ _ tokens) in *.
  assert (Hkey : keyed at_ID tokens).
  { intros k r. unfold tokens. rewrite lookup_fmap, fmap_Some. intros (r0 & Hr0 & ->). simpl. by apply (ok_access_key _ Hok). }
  assert (Hc : authorization_codes (w_db w') = delete_ids codes (authorization_codes (w_db w))) by (by rewrite <- Hdb1).
  assert (Ha : access_tokens (w_db w') = delete_ids dead tokens) by (by rewrite <- Hdb1).
  assert (Hsz : size tokens = size (access_tokens (w_db w))) by apply map_size_fmap.
  pose proof (ok_codes_key _ Hok) as Hck. unfold protocol_rows. rewrite Hc, Ha. split_and!.
  - split.
    + intros k r Hk Hl. rewrite Hc. apply batch_keeps; [done|done|]. by apply Z.leb_gt.
    + intros k r Hk Hl. rewrite Ha. exists codes. apply batch_keeps; [done| |by apply Z.leb_gt].
      unfold tokens. by rewrite lookup_fmap, Hk.
  - pose proof (delete_ids_size codes (authorization_codes (w_db w))). pose proof (delete_ids_size dead tokens). lia.
  - pose proof (delete_ids_size codes (authorization_codes (w_db w))). pose proof (delete_ids_size dead tokens).
    intros [Hpos|Hpos].
    + pose proof (batch_shrinks _ _ _ _ _ _ Hck Hpos). unfold codes in *. lia.
    + pose proof (batch_shrinks _ _ _ _ _ _ Hkey Hpos). unfold dead in *. lia.
  - intros H1 H2. split.
    + rewrite Hc. intros k r Hk Hr%Z.leb_le. apply (proj1 Hh). exact (batch_complete _ _ _ _ _ _ _ _ Hck H1 Hk Hr).
    + rewrite Ha. intros k r Hk Hr%Z.leb_le. apply (proj2 Hh). exact (batch_complete _ _ _ _ _ _ _ _ Hkey H2 Hk Hr).
Qed.

(** ** The loop *)

Lemma cleanup_loop_ends cutoff fuel : ∀ total w,
  db_ok (w_db w) → (protocol_rows (w_db w) < fuel)%nat →
  ∃ w' n err, cleanup_loop fuel (cleanupProtocol_tx cutoff) total w = Some (w', n, err) ∧
    live_kept (timestamp cutoff) (w_db w) (w_db w') ∧ (err = None → retired_within (held_rows w) (timestamp cutoff) (w_db w')).
Proof.
  induction fuel as [|fuel IH]; intros total w Hok Hf; [lia|]. simpl.
  destruct (inTx (cleanupProtocol_tx cutoff) w) as [w1 [[a b]|e]] eqn:E.
  - assert (Hok1 : db_ok (w_db w1)) by (by eapply (run_ok (OpCleanupProtocol cutoff)); [|exact E|]).
    apply (inTx_world_inl held_less) in E as [Hw1 (w2 & w3 & Hw2 & Hh2 & Hrun & ->)]; [|apply held_cleanupProtocol].
    destruct (cleanupProtocol_inv cutoff w2 w3 a b) as (Hk & _ & Hlt & Hleft); [by rewrite Hw2|done|].
    rewrite w_db_pop_fault in *. rewrite Hw2 in *. destruct (_ && _) eqn:Eb.
    + apply andb_true_iff in Eb as [Eb Ea]. apply Z.ltb_lt in Ea, Eb. do 3 eexists. split; [done|]. split; [done|]. intros _.
      eapply retired_within_mono; [exact Hh2|by apply Hleft].
    + apply andb_false_iff in Eb. unfold cleanupBatchSize in Eb. rewrite !Z.ltb_ge in Eb.
      destruct (IH (total + (a + b)) (pop_fault w3)) as (w' & n & err & Hl & Hk' & Hn'); [done|rewrite w_db_pop_fault; destruct Hlt; lia|].
      exists w', n, err. split; [done|]. split; [by eapply live_kept_trans|].
      intros He. eapply retired_within_mono; [exact Hw1|by apply Hn'].
  - do 3 eexists. split; [done|]. split; [|done]. apply inTx_attempts_cases in E as [->|[[[a b] (w2 & w3 & Hw2 & Hrun & Hw3)] _]].
    + apply live_kept_refl.
    + rewrite <- Hw2, <- Hw3. eapply cleanupProtocol_inv; [by rewrite Hw2|done].
Qed.

(** C39: The retirement of codes and access tokens ends and is exact.  Whatever the
    driver does, the loop stops after at most one batch per stored row (so a fuel above
    the number of rows is enough); no code or access token that outlives the cutoff is
    lost, even when a batch fails; and when the loop reports success, a retired code or
    access token is left only if another transaction held its row while a batch passed over
    it (FOR UPDATE SKIP LOCKED), so none is left when nothing was held. *)
Theorem cleanup_exact cutoff fuel w :
  db_ok (w_db w) → (protocol_rows (w_db w) < fuel)%nat →
  ∃ w' n err, CleanupProtocolArtifacts fuel cutoff w = Some (w', n, err) ∧
    live_kept (timestamp cutoff) (w_db w) (w_db w') ∧ (err = None → retired_within (held_rows w) (timestamp cutoff) (w_db w')).
Proof. apply cleanup_loop_ends. Qed.
End theorems.

(** Another transaction holds the retired code while the first batch runs: the loop
    reports success and the code is left. *)
Definition held_code : gset uuid := dom (authorization_codes exchanged_db).
Definition holding_world : World := with_held [held_code] (world_of exchanged_db 0).
Example held_code_left :
  (λ '(w, n, err), (size (authorization_codes (w_db w)), size (access_tokens (w_db w)), n, err)) <$>
    CleanupProtocolArtifacts 3 (t0 + Time.Hour) holding_world = Some (1%nat, 0%nat, 1, None).
Proof. vm_compute. reflexivity. Qed.

Lemma cleanup_exact_witness :
  ∃ w' n err, CleanupProtocolArtifacts 3 (t0 + Time.Hour) holding_world = Some (w', n, err) ∧
    (err = None → retired_within (held_rows holding_world) (timestamp (t0 + Time.Hour)) (w_db w')).
Proof.
  destruct (cleanup_exact (t0 + Time.Hour) 3 holding_world (world_ok _ _ exchanged_db_ok)) as (w' & n & err & E & _ & H).
  - apply Nat.ltb_lt. vm_compute. reflexivity.
  - exists w', n, err. split; [exact E|exact H].
Defined.
