(* ===== verification/FlowTheorems.v ===== *)
(** * Browser transactions: the theorems

    What [internal/authflow] stores can be resolved again until it expires and carries
    exactly the verified request; once finished, a transaction never resolves again. *)

From S2P Require Import Prelude Base64 Errors Platform Scopes Domain Opaque SessionTokens Url AuditEvents Database Queries.
From S2P Require Import RegistryQueries BrowserQueries Tx StoreCommon ServiceCommon FlowStore Invariants StatementFacts.
From S2P Require Import Quiet Writes Lifecycle ServiceSteps TokenService AuthorizationService SessionProofs FlowService Demo.

Section theorems.
Context {P : Platform} {PL : PlatformLaws P} (s : authflow.Service).

(** ** Creating *)

Definition stored_row (t : Transaction) : AuthTransactionRow := new_transaction_row (authTransactionParams t).

Lemma create_inv kind input rid now w w' token t :
  authflow.create s kind input rid now w = (w', inl (token, t)) →
  authflow.validToken token = true ∧
  ∃ id, id ≠ uuid_Nil ∧ t = authflow.new_transaction s id token kind input now ∧
    auth_transactions_check (stored_row t) = true ∧
    exists_row (λ o, tx_TokenHash o == Transaction_TokenHash t) (auth_transactions (w_db w)) = false ∧
    ∃ audits, w_db w' = with_audit_events audits
      (with_auth_transactions (<[id := stored_row t]> (auth_transactions (w_db w))) (w_db w)).
Proof.
  unfold authflow.create. intros H.
  apply Tx_bind_inl in H as (w1 & tok & (s1 & Htok & ->)%lift_rand_inl & H).
  apply Tx_bind_inl in H as (w2 & id & (s2 & Hid & ->)%lift_rand_inl & H).
  apply Tx_bind_inl in H as (w3 & event & (s3 & _ & ->)%lift_sysrand_inl & H).
  apply Tx_bind_inl in H as (w4 & x & Hc & H). unfold mret, Tx_ret in H. injection H as <- <- <-.
  apply authflow.flow_token_valid in Htok as [Hv _]. split; [done|]. exists id.
  assert (Hnil : id ≠ uuid_Nil).
  { unfold NewRandomFromReader in Hid. apply Rnd_bind_inl in Hid as (? & ? & _ & Hid). injection Hid as _ <-. apply uuid_v4_not_Nil. }
  split; [done|]. split; [done|]. simpl in Hc.
  apply inTxWithAudit_inl in Hc as (w5 & w6 & Hw5 & Hrun & Hw6). unfold createAuthTransaction_tx in Hrun.
  browser_step Hrun. apply insert_row_inl in Hstmt as (_ & -> & _ & _ & Hchk & Hnew & Hun).
  split; [exact Hchk|]. split; [exact Hun|]. exists audits. by rewrite <- Hw6, Hdb0.
Qed.

(** How the record comes back: instants at the database's resolution. *)
Definition stored (t : Transaction) : Transaction := mapAuthTransaction (stored_row t).

Lemma find_created db (t : Transaction) id audits :
  Transaction_ID t = id → exists_row (λ o, tx_TokenHash o == Transaction_TokenHash t) (auth_transactions db) = false →
  find_row (λ r, tx_TokenHash r == Transaction_TokenHash t)
    (auth_transactions (with_audit_events audits (with_auth_transactions (<[id := stored_row t]> (auth_transactions db)) db))) =
  Some (stored_row t).
Proof.
  intros Hid Hun. simpl. apply (find_row_unique _ _ id); [apply lookup_insert_eq|by apply bool_decide_eq_true|].
  intros k r Hr Hp. destruct (decide (k = id)) as [->|Hne].
  - rewrite lookup_insert_eq in Hr. by injection Hr as <-.
  - rewrite lookup_insert_ne in Hr by done. rewrite exists_row_false in Hun. rewrite (Hun k r Hr) in Hp. done.
Qed.

Lemma FindAuthTransaction_inl h w w' t :
  FindAuthTransaction h w = (w', inl t) →
  w_db w' = w_db w ∧ ∃ r, find_row (λ r, tx_TokenHash r == h) (auth_transactions (w_db w)) = Some r ∧ t = mapAuthTransaction r.
Proof. unfold FindAuthTransaction. intros H. do 2 tx_step H. split; [done|]. by eexists. Qed.

(** Resolving reads the one row with the digest. *)
Lemma Resolve_inl token now w w' t :
  authflow.Resolve token now w = (w', inl t) →
  w_db w' = w_db w ∧ authflow.validToken token = true ∧
  ∃ r, find_row (λ r, tx_TokenHash r == authflow.HashToken token) (auth_transactions (w_db w)) = Some r ∧
    t = mapAuthTransaction r ∧ tx_ConsumedAt r = None ∧ now < tx_ExpiresAt r.
Proof.
  unfold authflow.Resolve. simpl. intros H. tx_step H. apply negb_false_iff in Hguard.
  tx_step H. apply FindAuthTransaction_inl in Hrun as (Hdb & r & Hr & ->). do 3 tx_step H.
  apply bool_decide_eq_false, not_is_Some_None in Hguard0. apply negb_false_iff, Z.ltb_lt in Hguard1.
  split; [done|]. split; [done|]. by exists r.
Qed.

Lemma Resolve_run token now w r :
  quiet w → authflow.validToken token = true →
  find_row (λ r, tx_TokenHash r == authflow.HashToken token) (auth_transactions (w_db w)) = Some r →
  tx_ConsumedAt r = None → now < tx_ExpiresAt r →
  authflow.Resolve token now w = (w, inl (mapAuthTransaction r)).
Proof.
  intros Hq Hv Hf Hc Hx. unfold authflow.Resolve. rewrite reject_run by (by rewrite Hv). simpl. unfold FindAuthTransaction.
  erewrite bind_run; [|erewrite bind_run; [|by apply select_run]; reflexivity].
  rewrite reject_run by (simpl; rewrite Hc; by apply bool_decide_eq_false; intros [? ?]).
  rewrite reject_run; [done|]. simpl. unfold Time.Before. by rewrite (proj2 (Z.ltb_lt _ _)).
Qed.

(** ** Starting a flow

    The two entry points: a local sign-in, and an authorization request a protocol
    adapter has checked. *)

Inductive Start := LocalFlow | VerifiedFlow (input : authflow.VerifiedInput).
Definition start_flow (f : Start) (rid : string) (now : time) : Tx (string * Transaction) :=
  match f with LocalFlow => authflow.CreateLocal s rid now | VerifiedFlow input => authflow.CreateVerified s input rid now end.

(** The input is well typed: a [uint32], when there is one. *)
Definition uint32_age (f : Start) : Prop :=
  match f with
  | VerifiedFlow input => match authflow.VerifiedInput_MaxAgeSeconds input with Some n => 0 <= n < 2 ^ 32 | None => True end
  | LocalFlow => True
  end.

(** The request as the transaction carries it. *)
Definition carried (input : authflow.VerifiedInput) : authflow.VerifiedInput :=
  authflow.default_prompts (authflow.with_scopes (authflow.canonicalStrings (authflow.VerifiedInput_Scopes input)) input).
Definition flow_kind (f : Start) : string := match f with LocalFlow => KindLocal | VerifiedFlow _ => KindAuthorization end.
Definition flow_input (f : Start) : authflow.VerifiedInput :=
  match f with LocalFlow => authflow.noInput | VerifiedFlow input => carried input end.

Lemma start_create f rid now w w' x :
  start_flow f rid now w = (w', inl x) → authflow.create s (flow_kind f) (flow_input f) rid now w = (w', inl x).
Proof. destruct f as [|input]; [done|]. simpl. unfold authflow.CreateVerified. intros H. do 5 tx_step H. done. Qed.

Lemma start_expires f rid now w w' token t :
  start_flow f rid now w = (w', inl (token, t)) → Transaction_ExpiresAt t = Time.Add now (authflow.ttl s).
Proof. intros (_ & id & _ & -> & _)%start_create%create_inv. done. Qed.

(** What the checks of [CreateVerified] establish. *)
Lemma CreateVerified_checked input rid now w w' x :
  authflow.CreateVerified s input rid now w = (w', inl x) →
  let i := carried input in
  authflow.VerifiedInput_ClientID i ≠ uuid_Nil ∧ authflow.validAbsoluteURI (authflow.VerifiedInput_RedirectURI i) = true ∧
  authflow.VerifiedInput_ResponseType i = "code" ∧ authflow.VerifiedInput_ResponseMode i = "query" ∧
  canonical (authflow.VerifiedInput_Scopes i) ∧ len (authflow.VerifiedInput_PKCEChallenge i) = 43.
Proof.
  unfold authflow.CreateVerified, carried. intros H. do 5 tx_step H. clear H Hguard1 Hguard2 Hguard3.
  set (j := authflow.with_scopes _ input) in *.
  assert (E : ∀ (f : authflow.VerifiedInput → Prop), f j → (∀ p, f (authflow.with_prompts p j)) → f (authflow.default_prompts j)).
  { intros f H1 H2. unfold authflow.default_prompts. by destruct (_ && _). }
  rewrite !orb_false_iff, !negb_false_iff, !bool_decide_eq_false, !bool_decide_eq_true in Hguard.
  destruct Hguard as ((((((Hid & Huri) & Hty) & Hmode) & _) & _) & Hsc). apply negb_false_iff in Hguard0.
  unfold authflow.validS256Challenge in Hguard0. destruct (len _ != 43) eqn:Hlen; [done|]. apply negb_false_iff, bool_decide_eq_true in Hlen.
  apply authflow.canonicalStrings_canonical in Hsc.
  split_and!; apply E; done.
Qed.

(** ** A started flow can be resolved *)

(** The record with its instants at the database's resolution. *)
Definition truncated (t : Transaction) : Transaction :=
  mkTransaction (Transaction_ID t) (Transaction_TokenHash t) (Transaction_Kind t) (Transaction_ClientID t)
    (Transaction_RedirectURI t) (Transaction_Scopes t) (Transaction_PKCEChallenge t) (Transaction_PKCEMethod t)
    (Transaction_State t) (Transaction_Nonce t) (Transaction_PromptCreate t) (Transaction_ResponseType t)
    (Transaction_ResponseMode t) (Transaction_Prompts t) (Transaction_MaxAgeSeconds t)
    (timestamp (Transaction_CreatedAt t)) (timestamp (Transaction_ExpiresAt t)) None "".

Lemma stored_truncated t :
  match Transaction_MaxAgeSeconds t with Some n => 0 <= n < 2 ^ 32 | None => True end → stored t = truncated t.
Proof.
  intros Ha. unfold stored, truncated, stored_row, mapAuthTransaction, authTransactionParams, uint32ToInt64. simpl.
  rewrite !valueString_pointerString. f_equal. unfold int64ToUint32. destruct (Transaction_MaxAgeSeconds t) as [n|]; [|done].
  rewrite (proj2 (Z.ltb_ge n 0)), (proj2 (Z.ltb_ge (2 ^ 32 - 1) n)) by lia. done.
Qed.

Lemma flow_age f : uint32_age f → match authflow.VerifiedInput_MaxAgeSeconds (flow_input f) with Some n => 0 <= n < 2 ^ 32 | None => True end.
Proof. destruct f as [|input]; [done|]. simpl. unfold carried, authflow.default_prompts. by destruct (_ && _). Qed.

(** Canonicalization and the prompt default touch nothing else. *)
Lemma carried_field {A} (field : authflow.VerifiedInput → A) input :
  (∀ p i, field (authflow.with_prompts p i) = field i) → (∀ l i, field (authflow.with_scopes l i) = field i) →
  field (carried input) = field input.
Proof. intros Hp Hs. unfold carried, authflow.default_prompts. destruct (_ && _); by rewrite ?Hp, Hs. Qed.
Lemma carried_scopes input :
  authflow.VerifiedInput_Scopes (carried input) = authflow.canonicalStrings (authflow.VerifiedInput_Scopes input).
Proof. unfold carried, authflow.default_prompts. by destruct (_ && _). Qed.

(** A checked request makes a transaction the authorization service accepts. *)
Lemma checked_valid id token input now :
  id ≠ uuid_Nil → authflow.VerifiedInput_ClientID input ≠ uuid_Nil → authflow.VerifiedInput_RedirectURI input ≠ "" →
  authflow.VerifiedInput_ResponseType input = "code" → authflow.VerifiedInput_ResponseMode input = "query" →
  canonical (authflow.VerifiedInput_Scopes input) → len (authflow.VerifiedInput_PKCEChallenge input) = 43 →
  validAuthorizationTransaction (truncated (authflow.new_transaction s id token KindAuthorization input now)) = true.
Proof.
  intros Hid Hcl Huri Hty Hmode Hsc Hlen. unfold validAuthorizationTransaction. simpl.
  assert (authflow.VerifiedInput_PKCEChallenge input ≠ "") by (intros E0; rewrite E0 in Hlen; done).
  rewrite !(bool_decide_eq_false_2 (_ = uuid_Nil)), Hty, Hmode, (bool_decide_eq_false_2 (_ = "")), (bool_decide_eq_false_2 (_ = "")), Hlen by done.
  simpl. destruct Hsc as (_ & Hnd & Hsup & Ho). pose proof (NoDup_supported_length _ Hnd Hsup).
  assert (length (authflow.VerifiedInput_Scopes input) ≠ 0%nat) by (intros E0%nil_length_inv; rewrite E0 in Ho; by apply not_elem_of_nil in Ho).
  apply andb_true_intro. split; apply Z.leb_le; lia.
Qed.

(** A started browser flow can be resumed, and carries what was verified.  When a flow
    starts, its token resolves, until the deadline at the database's resolution, to the
    very transaction that was returned; for an authorization request that transaction
    passes the checks of the authorization service and carries the request's client,
    redirect URI, state, nonce and challenge, with the scopes in canonical form. *)
Theorem flow_resumes f rid now w w' token t now2 w2 :
  uint32_age f → start_flow f rid now w = (w', inl (token, t)) →
  quiet w2 → w_db w2 = w_db w' → now2 < timestamp (Transaction_ExpiresAt t) →
  authflow.Resolve token now2 w2 = (w2, inl (truncated t)) ∧
  match f with
  | LocalFlow => Transaction_Kind t = KindLocal
  | VerifiedFlow input =>
      validAuthorizationTransaction (truncated t) = true ∧ canonical (Transaction_Scopes t) ∧
      (∀ x, x ∈ Transaction_Scopes t ↔ x ∈ authflow.VerifiedInput_Scopes input ∧ x ≠ "") ∧
      Transaction_ClientID t = Some (authflow.VerifiedInput_ClientID input) ∧
      Transaction_RedirectURI t = authflow.VerifiedInput_RedirectURI input ∧
      Transaction_State t = authflow.VerifiedInput_State input ∧ Transaction_Nonce t = authflow.VerifiedInput_Nonce input ∧
      Transaction_PKCEChallenge t = authflow.VerifiedInput_PKCEChallenge input
  end.
Proof.
  intros Hage H Hq Hdb Hx. pose proof (start_create _ _ _ _ _ _ H) as Hc.
  apply create_inv in Hc as (Hv & id & Hid & Ht & Hchk & Hun & audits & Hdb').
  assert (Hhash : Transaction_TokenHash t = authflow.HashToken token) by (by subst t).
  assert (Hst : stored t = truncated t) by (apply stored_truncated; subst t; by apply flow_age).
  split.
  - rewrite <- Hst. apply Resolve_run; [done|done| |done|done].
    rewrite Hdb, Hdb', <- Hhash. apply find_created; [by subst t|done].
  - destruct f as [|input]; [by subst t|]. simpl in H, Ht.
    apply CreateVerified_checked in H as (Hcl & Huri & Hty & Hmode & Hsc & Hlen). subst t.
    split; [apply checked_valid; try done; intros E; by rewrite E in Huri|]. simpl. split; [done|].
    rewrite carried_scopes, !carried_field by done. split; [apply authflow.canonicalStrings_spec|done].
Qed.

(** ** A finished flow stays finished *)

Definition flow_spent (h : bytes) (db : DB) : Prop :=
  map_Forall (λ _ r, tx_TokenHash r = h → is_Some (tx_ConsumedAt r)) (auth_transactions db).
Definition no_flow (h : bytes) : policy := mkPolicy any any any any any any (λ r, tx_TokenHash r ≠ h) any any any any_change.

Lemma write_flow_spent h db db' : write (no_flow h) db db' → flow_spent h db → flow_spent h db'.
Proof.
  unfold flow_spent. destruct 1; simpl in *; try done; intros HI.
  - apply map_Forall_insert_2; [|done]. intros _. by eexists.
  - by apply map_Forall_insert_2.
  - eapply map_Forall_pointwise; [|done|done]. intros k r r' [->|[_ (t & reason & ->)]] HQ Hk; [by apply HQ|by eexists].
  - by apply map_Forall_delete_ids.
Qed.

(** The two ways a browser flow ends at this service. *)
Inductive Ending := Consumed | Rejected (reason : string).
Definition end_flow (e : Ending) (t : Transaction) (actor : option uuid) (rid : string) (now : time) : Tx Transaction :=
  match e with
  | Consumed => authflow.Consume t actor rid now
  | Rejected reason => authflow.Reject t reason actor rid now
  end.
Definition ended (e : Ending) (now : time) (r : AuthTransactionRow) : AuthTransactionRow :=
  finish_transaction now (match e with Consumed => tx_FailureReason r | Rejected reason => pointerString reason end) r.

Lemma live_transaction_result t id f db x db' :
  update_live_transaction t id f db = inl (x, db') →
  ∃ r, auth_transactions db !! id = Some r ∧ tx_ConsumedAt r = None ∧ t < tx_ExpiresAt r ∧ x = f r ∧
       db' = with_auth_transactions (<[id := f r]> (auth_transactions db)) db.
Proof. unfold update_live_transaction. intros H. stmt_cases H. go_bools. eexists. split_and!; done. Qed.

(** Ending a flow found it live and marks exactly it. *)
Lemma end_flow_inv e t actor rid now w w' x :
  end_flow e t actor rid now w = (w', inl x) →
  ∃ r audits, auth_transactions (w_db w) !! Transaction_ID t = Some r ∧ tx_ConsumedAt r = None ∧
    timestamp now < tx_ExpiresAt r ∧ x = mapAuthTransaction (ended e (timestamp now) r) ∧
    w_db w' = with_audit_events audits
      (with_auth_transactions (<[Transaction_ID t := ended e (timestamp now) r]> (auth_transactions (w_db w))) (w_db w)).
Proof.
  intros H. destruct e as [|reason]; simpl in H.
  - unfold authflow.Consume in H. apply Tx_bind_inl in H as (w1 & ev & (s1 & _ & ->)%lift_sysrand_inl & H). simpl in H.
    apply inTxWithAudit_inl in H as (w2 & w3 & Hw2 & Hrun & Hw3). unfold consumeAuthTransaction_tx in Hrun.
    do 3 browser_step Hrun. apply live_transaction_result in Hstmt as (r & Hr & Hc & Hx & -> & ->).
    exists r, audits. split_and!; try done. by rewrite <- Hw3, Hdb0.
  - unfold authflow.Reject in H. tx_step H. apply Tx_bind_inl in H as (w1 & ev & (s1 & _ & ->)%lift_sysrand_inl & H). simpl in H.
    apply inTxWithAudit_inl in H as (w2 & w3 & Hw2 & Hrun & Hw3). unfold rejectAuthTransaction_tx in Hrun.
    do 3 browser_step Hrun. apply live_transaction_result in Hstmt as (r & Hr & Hc & Hx & -> & ->).
    exists r, audits. split_and!; try done. by rewrite <- Hw3, Hdb0.
Qed.

Lemma ended_spent db k r : db_ok db → auth_transactions db !! k = Some r → is_Some (tx_ConsumedAt r) → flow_spent (tx_TokenHash r) db.
Proof.
  intros Hok Hk Hc k' r' Hk' Hh. destruct (ok_transactions db Hok) as (_ & _ & Hu).
  assert (k' = k) as -> by (apply (Hu k' k r' r Hk' Hk); simpl; by apply bool_decide_eq_true). congruence.
Qed.

Lemma end_flow_within e t actor rid now : within any (end_flow e t actor rid now).
Proof. destruct e; simpl; unfold authflow.Consume, authflow.Reject; simpl; within_auto; done. Qed.

(** A finished browser flow never resumes.  When consuming or rejecting a transaction
    succeeds, it was live, and it alone is marked finished; in every state any sequence of
    store operations reaches from there (only storing the same token digest again is
    excluded) its token resolves no more. *)
Theorem flow_never_reopens e t actor rid now w w' x token now2 w2 w3 r :
  db_ok (w_db w) → end_flow e t actor rid now w = (w', inl x) →
  authflow.HashToken token = Transaction_TokenHash x →
  reaches (obeys (no_flow (Transaction_TokenHash x))) (w_db w') (w_db w2) →
  authflow.Resolve token now2 w2 = (w3, r) →
  (∃ row, auth_transactions (w_db w) !! Transaction_ID t = Some row ∧ tx_ConsumedAt row = None ∧
     auth_transactions (w_db w') = <[Transaction_ID t := ended e (timestamp now) row]> (auth_transactions (w_db w))) ∧
  ∃ err, r = inr err.
Proof.
  intros Hok H Hh Hr H2. pose proof (within_ok _ _ _ _ _ (end_flow_within e t actor rid now) H Hok) as Hok'.
  apply end_flow_inv in H as (row & audits & Hrow & Hc & _ & -> & Hdb).
  split; [exists row; by rewrite Hdb|]. destruct r as [t2|err]; [|by exists err]. exfalso.
  apply Resolve_inl in H2 as (_ & _ & r2 & Hf & _ & Hc2 & _). apply find_row_Some in Hf as [Hh2 [k Hk]].
  apply bool_decide_eq_true in Hh2. rewrite Hh in Hh2. simpl in Hh2, Hr.
  assert (Hs : flow_spent (tx_TokenHash row) (w_db w2)).
  { eapply reaches_stable; [apply write_flow_spent|exact Hr|].
    apply (ended_spent _ (Transaction_ID t) (ended e (timestamp now) row) Hok'); [|by eexists].
    rewrite Hdb. simpl. apply lookup_insert_eq. }
  destruct (Hs k r2 Hk Hh2) as [t' Ht']. congruence.
Qed.
End theorems.

(** ** A flow at the demonstration installation *)

#[local] Existing Instance demo_platform_laws.

Definition demo_flow : authflow.Service := authflow.mkService (10 * Time.Minute).
Definition demo_request : authflow.VerifiedInput :=
  authflow.mkVerifiedInput 2 redirect ["profile"; "openid"; "offline_access"; "openid"] challenge "state" "nonce" true "code"
    "query" [] (Some 3600).

Lemma flow_resumes_witness : ∃ w' token t,
  start_flow demo_flow (VerifiedFlow demo_request) "req-1" t0 (world_of demo_db 0) = (w', inl (token, t)) ∧
  authflow.Resolve token (t0 + Time.Minute) (world_of (w_db w') 5) = (world_of (w_db w') 5, inl (truncated t)) ∧
  validAuthorizationTransaction (truncated t) = true.
Proof.
  destruct (succeeds_run (start_flow demo_flow (VerifiedFlow demo_request) "req-1" t0) (world_of demo_db 0)) as (w' & [token t] & H);
    [by vm_compute|].
  pose proof (start_expires _ _ _ _ _ _ _ _ H) as Hx. exists w', token, t. split; [exact H|].
  assert (Hnow : t0 + Time.Minute < timestamp (Transaction_ExpiresAt t)) by (rewrite Hx; by vm_compute).
  destruct (flow_resumes demo_flow (VerifiedFlow demo_request) "req-1" t0 _ w' token t (t0 + Time.Minute) (world_of (w_db w') 5)
              ltac:(split; by vm_compute) H eq_refl eq_refl Hnow) as [H1 [H2 _]].
  split; [exact H1|exact H2].
Defined.

(** The same flow, denied by the user. *)
Definition flow_started : World * (string * Transaction + error) :=
  start_flow demo_flow (VerifiedFlow demo_request) "req-1" t0 (world_of demo_db 0).
Definition flow_db : DB := w_db flow_started.1.
Definition flow_token : string := match flow_started.2 with inl (token, _) => token | inr _ => "" end.
Definition flow_transaction : Transaction :=
  match flow_started.2 with inl (_, t) => t | inr _ => mapAuthTransaction demo_transaction end.
Lemma flow_db_ok : db_ok flow_db.
Proof. apply db_okb_spec. by vm_compute. Qed.
Lemma denied_token :
  match (end_flow (Rejected "access_denied") flow_transaction (Some 1%N) "req-2" (t0 + Time.Minute) (world_of flow_db 7)).2 with
  | inl x => authflow.HashToken flow_token = Transaction_TokenHash x
  | inr _ => False
  end.
Proof. by vm_compute. Qed.

Lemma flow_never_reopens_witness : ∃ w' x,
  end_flow (Rejected "access_denied") flow_transaction (Some 1%N) "req-2" (t0 + Time.Minute) (world_of flow_db 7) = (w', inl x) ∧
  ∃ err, (authflow.Resolve flow_token (t0 + 2 * Time.Minute) (world_of (w_db w') 3)).2 = inr err.
Proof.
  pose proof denied_token as Hh.
  destruct (end_flow (Rejected "access_denied") flow_transaction (Some 1%N) "req-2" (t0 + Time.Minute) (world_of flow_db 7))
    as [w' [x|e]] eqn:H; [|destruct Hh].
  exists w', x. split; [exact eq_refl|].
  destruct (authflow.Resolve flow_token (t0 + 2 * Time.Minute) (world_of (w_db w') 3)) as [w3 r] eqn:E.
  exact (proj2 (flow_never_reopens (Rejected "access_denied") flow_transaction (Some 1%N) "req-2" (t0 + Time.Minute)
    (world_of flow_db 7) w' x flow_token (t0 + 2 * Time.Minute) (world_of (w_db w') 3) w3 r (world_ok flow_db 7 flow_db_ok) H Hh
    (rtc_refl _ _) E)).
Defined.
