(* ===== verification/IdentityTheorems.v ===== *)
(** * Passwords: the theorems

    A stored digest verifies exactly the passwords that derive it, and needs no
    replacement while the parameters stand; no stored digest can ask for more resources
    than the limits; a prepared account satisfies the account rules. *)

From S2P Require Import Prelude Text Base64 Errors Platform Domain Database Tx StoreCommon ServiceCommon LoginStore.
From S2P Require Import Sha256 IdentityService Demo.

(** What the checks of [PrepareUser] and [PrepareUpdate] establish of an account. *)
Definition account_shape `{TextLibrary} (u : User) : Prop :=
  User_UsernameNormalized u = Fold_String (User_Username u) ∧ utf8.ValidString (User_Username u) = true ∧
  3 <= Z.of_nat (length (identity.runes (User_Username u))) <= 64 ∧ Forall identity.username_rune (identity.runes (User_Username u)) ∧
  utf8.ValidString (User_Email u) = true ∧ len (User_Email u) <= 320 ∧
  (User_Status u = identity_StatusActive ∨ User_Status u = identity_StatusDisabled) ∧ (User_Role u = RoleUser ∨ User_Role u = RoleAdmin).
Definition account_fields `{TextLibrary} (u : User) : Prop :=
  account_shape u ∧ User_UsernameNormalized u ≠ User_EmailNormalized u.

Section hashing.
Context {K : KeyDerivation} {KL : KeyDerivationLaws K} (h : identity.PasswordHasher).

(** The digest of a password under the hasher's parameters. *)
Definition derive (password salt : bytes) : bytes :=
  IDKey password salt (identity.Time_ (identity.params h)) (identity.MemoryKiB (identity.params h))
    (identity.Threads (identity.params h)) (identity.KeyLen (identity.params h)).

Lemma Hash_inl gate password s s' encoded :
  identity.Hash h gate password s = (s', inl encoded) →
  gate = None ∧ ∃ salt, String.length salt = Z.to_nat (identity.SaltLen (identity.params h)) ∧
    s = salt +:+ s' ∧ encoded = identity.phc h salt (derive password salt).
Proof.
  unfold identity.Hash. destruct gate; [done|]. rewrite Rnd_bind_inl. intros (s1 & salt & (Hl & -> & ->)%ReadFull_inl & H).
  injection H as <- <-. split; [done|]. eexists. split; [by apply str_take_length|]. by rewrite str_take_drop.
Qed.

Lemma Verify_phc password password2 salt :
  identity.readable (identity.params h) → len salt = identity.SaltLen (identity.params h) →
  identity.Verify h None password2 (identity.phc h salt (derive password salt)) =
  inl (derive password2 salt == derive password salt, false).
Proof.
  intros Hr Hs. assert (Hd : len (derive password salt) = identity.KeyLen (identity.params h)).
  { apply IDKey_length. destruct Hr as (_ & _ & _ & _ & ?). lia. }
  unfold identity.Verify. rewrite identity.parsePHC_phc; [|done|destruct Hr as (_ & _ & _ & ? & _); lia|destruct Hr as (_ & _ & _ & _ & ?); lia].
  simpl. rewrite Hd, Hs. fold (derive password2 salt). 
  assert (Hz : ∀ x : Z, (x != x) = false) by (intros x; by rewrite bool_decide_eq_true_2). rewrite !Hz. by rewrite andb_false_r.
Qed.

(** C32: Hashing and verifying passwords round trip.  With parameters inside the limits of
    the stored format, a hashed password verifies against its PHC string and is not marked
    for replacement; any other password verifies exactly if it derives the same digest. *)
Theorem password_roundtrip password s s' encoded :
  identity.readable (identity.params h) → identity.Hash h None password s = (s', inl encoded) →
  identity.Verify h None password encoded = inl (true, false) ∧
  ∃ salt, len salt = identity.SaltLen (identity.params h) ∧
    ∀ password2, identity.Verify h None password2 encoded = inl (derive password2 salt == derive password salt, false).
Proof.
  intros Hr (_ & salt & Hl & _ & ->)%Hash_inl.
  assert (Hs : len salt = identity.SaltLen (identity.params h)).
  { unfold len. rewrite Hl. destruct Hr as (_ & _ & _ & ? & _). lia. }
  split; [rewrite Verify_phc by done; by rewrite bool_decide_eq_true_2|]. exists salt. split; [done|].
  intros password2. by apply Verify_phc.
Qed.
End hashing.

(** Written numbers are not negative. *)
Lemma decimal_nonneg acc s n : 0 <= acc → decimal acc s = Some n → 0 <= n.
Proof.
  revert acc. induction s as [|c s IH]; intros acc Ha; simpl; [by intros [= <-]|].
  unfold digit. destruct (_ && _) eqn:E; [|done]. go_bools. apply IH. lia.
Qed.
Lemma parse_items_pos items values values' :
  map_Forall (λ _ v, 0 < v) values → identity.parse_items values items = Some values' → map_Forall (λ _ v, 0 < v) values'.
Proof.
  revert values. induction items as [|i items IH]; intros values Hv; simpl; [by intros [= <-]|].
  unfold identity.parse_item. destruct (Cut "=" i) as [[name text] found]. destruct (_ || _); [done|].
  unfold ParseUint. destruct (text == ""); [done|]. destruct (decimal 0 text) as [n|] eqn:E; [|done].
  destruct (n <? 2 ^ 32); [|done]. destruct (n =? 0) eqn:E0; [done|]. apply IH, map_Forall_insert_2; [|done].
  apply decimal_nonneg in E; [|done]. apply Z.eqb_neq in E0. lia.
Qed.
Lemma parse_items_nonneg items values name :
  identity.parse_items ∅ items = Some values → 0 <= default 0 (values !! name).
Proof.
  intros H. apply parse_items_pos in H; [|apply map_Forall_empty].
  destruct (values !! name) as [v|] eqn:E; simpl; [|lia]. specialize (H name v E). simpl in H. lia.
Qed.

(** A stored digest cannot ask for unbounded work.  Whatever string is stored, if it
    parses, verifying it uses between 8 MiB and 1 GiB of memory, at most twenty passes and
    thirty-two threads, and a salt and a digest of sixteen to sixty-four bytes. *)
Theorem phc_bounded encoded p salt digest :
  identity.parsePHC encoded = Some (p, salt, digest) →
  8 * 1024 <= identity.MemoryKiB p <= 1024 * 1024 ∧ 0 <= identity.Time_ p <= 20 ∧ 0 <= identity.Threads p <= 32 ∧
  identity.SaltLen p = len salt ∧ identity.KeyLen p = len digest ∧ 16 <= len salt <= 64 ∧ 16 <= len digest <= 64.
Proof.
  unfold identity.parsePHC. destruct (Split "$" encoded) as [|e [|a [|v [|ps [|st [|dt [|]]]]]]]; try done.
  destruct (_ || _); [done|]. destruct (negb _); [done|]. destruct (identity.parse_items ∅ _) as [values|] eqn:Ev; [|done].
  pose proof (parse_items_nonneg _ _ "t" Ev) as Ht. pose proof (parse_items_nonneg _ _ "p" Ev) as Hq.
  set (t := default 0 (values !! "t")) in *. set (q := default 0 (values !! "p")) in *. set (m := default 0 (values !! "m")).
  destruct ((m <? 8 * 1024) || _ || _ || _) eqn:E; [done|].
  destruct (identity.StdDecode st) as [salt0|]; [|done]. destruct (identity.StdDecode dt) as [digest0|]; [|done].
  destruct ((len salt0 <? 16) || _ || _ || _) eqn:E2; [done|]. intros [= <- <- <-]. simpl.
  rewrite !orb_false_iff, !Z.ltb_ge in E, E2. rewrite Z.mod_small by lia. lia.
Qed.

Section accounts.
Context {P : Platform} {T : TextLibrary} {K : KeyDerivation} (s : identity.Service).

Lemma NormalizeUsername_inl raw display normalized :
  identity.NormalizeUsername raw = inl (display, normalized) →
  normalized = Fold_String display ∧ utf8.ValidString display = true ∧
  3 <= Z.of_nat (length (identity.runes display)) <= 64 ∧ Forall identity.username_rune (identity.runes display).
Proof.
  unfold identity.NormalizeUsername. set (d := NFC_String _). destruct (utf8.ValidString d) eqn:Ev; [|done]. simpl.
  next_guard El. destruct (forallb _ _ && _) eqn:Ef; [|done]. intros [= <- <-].
  rewrite orb_false_iff, !Z.ltb_ge in El. unfold identity.minUsernameRunes, identity.maxUsernameRunes in El.
  apply andb_true_iff in Ef as [Ef _]. split_and!; [done|done|lia|lia|].
  apply Forall_forall. intros r Hr. rewrite forallb_forall in Ef. apply Is_true_true, Ef. by apply list_elem_of_In.
Qed.

Lemma NormalizeEmail_inl raw display normalized :
  identity.NormalizeEmail raw = inl (display, normalized) → utf8.ValidString display = true ∧ len display <= 320.
Proof.
  unfold identity.NormalizeEmail. set (d := NFC_String _). next_guard El. next_guard Ea.
  destruct (CutLast "@" d) as [[before after]|]; [|done]. next_guard E1. next_guard E2. intros H. injection H as <- _.
  apply orb_false_iff in El as [E3 E4]. apply negb_false_iff in E3. apply Z.ltb_ge in E4. done.
Qed.

Lemma PrepareUser_inl gate input role now w w' u :
  identity.PrepareUser s gate input role now w = (w', inl u) →
  w_db w' = w_db w ∧ account_fields (PreparedUser_User u) ∧ User_Status (PreparedUser_User u) = identity_StatusActive ∧
  User_Role (PreparedUser_User u) = role ∧ User_Version (PreparedUser_User u) = 1 ∧
  identity.ValidatePassword (identity.policy s) (identity.CreateInput_Password input) = None.
Proof.
  unfold identity.PrepareUser. intros H.
  apply Tx_bind_inl in H as (w1 & [un unn] & [Hun ->]%or_error_inl & H). apply Tx_bind_inl in H as (w2 & [em emn] & [Hem ->]%or_error_inl & H).
  tx_step H. apply bool_decide_eq_false in Hguard. simpl in Hguard.
  apply Tx_bind_inl in H as (w3 & dn & [Hdn ->]%or_error_inl & H). tx_step H.
  apply Tx_bind_inl in H as (w4 & x & [Hpw ->]%check_passes & H). do 4 tx_step H.
  apply NormalizeUsername_inl in Hun as (Hn & Hv & Hl & Hr). apply NormalizeEmail_inl in Hem as (Hev & Hel).
  split; [congruence|]. unfold account_fields, account_shape. simpl. split_and!; try done; [lia|lia|by left|].
  apply andb_false_iff in Hguard0 as [E|E]; apply negb_false_iff, bool_decide_eq_true in E; auto.
Qed.

(** A prepared account obeys the account rules.  When [PrepareUser] succeeds it has
    touched no table; the account is active, its username and email are normalized, of
    allowed length and characters and distinct as identifiers, its role is a role, and
    its password was within the policy. *)
Theorem account_prepared gate input role now w w' u :
  identity.PrepareUser s gate input role now w = (w', inl u) →
  w_db w' = w_db w ∧ account_fields (PreparedUser_User u) ∧ User_Status (PreparedUser_User u) = identity_StatusActive ∧
  User_Role (PreparedUser_User u) = role ∧ User_Version (PreparedUser_User u) = 1 ∧
  identity.ValidatePassword (identity.policy s) (identity.CreateInput_Password input) = None.
Proof. apply PrepareUser_inl. Qed.

(** The fields an administrative patch may not touch. *)
Definition same_identity (u v : User) : Prop :=
  User_ID v = User_ID u ∧ User_Subject v = User_Subject u ∧ User_EmailVerified v = User_EmailVerified u ∧
  User_CreatedAt v = User_CreatedAt u ∧ User_LastLoginAt v = User_LastLoginAt u ∧ User_Version v = User_Version u.

(** The patch in progress: rules, untouched fields, and the names recorded. *)
Definition patching (existing u : User) (changed : list string) : Prop :=
  same_identity existing u ∧
  (User_Username u ≠ User_Username existing → "username" ∈ changed) ∧ (User_Email u ≠ User_Email existing → "email" ∈ changed) ∧
  (User_DisplayName u ≠ User_DisplayName existing → "display_name" ∈ changed) ∧
  (User_Status u ≠ User_Status existing → "status" ∈ changed) ∧ (User_Role u ≠ User_Role existing → "role" ∈ changed).

Section update.
Context (existing : User).
Let J (u : User) (changed : list string) : Prop := account_shape u ∧ patching existing u changed.

Ltac patched HJ := destruct HJ as [Hs Hp]; unfold J, account_shape, patching, same_identity in *; simpl in *; set_solver.

Lemma patch_username_inl input u changed u' changed' :
  J u changed → identity.patch_username existing input u changed = inl (u', changed') → J u' changed'.
Proof.
  unfold identity.patch_username. intros HJ. destruct input as [raw|]; [|by intros [= <- <-]].
  destruct (identity.NormalizeUsername raw) as [[d n]|] eqn:E; [|done]. apply NormalizeUsername_inl in E as (Hn & Hv & Hl & Hr).
  destruct (d != _); [intros [= <- <-]; patched HJ|by intros [= <- <-]].
Qed.
Lemma patch_email_inl input u changed u' changed' :
  J u changed → identity.patch_email existing input u changed = inl (u', changed') → J u' changed'.
Proof.
  unfold identity.patch_email. intros HJ. destruct input as [raw|]; [|by intros [= <- <-]].
  destruct (identity.NormalizeEmail raw) as [[d n]|] eqn:E; [|done]. apply NormalizeEmail_inl in E as (Hv & Hl).
  destruct (d != _); [intros [= <- <-]; patched HJ|by intros [= <- <-]].
Qed.
Lemma patch_display_name_inl input u changed u' changed' :
  J u changed → identity.patch_display_name existing input u changed = inl (u', changed') →
  J u' changed' ∧ User_UsernameNormalized u' = User_UsernameNormalized u ∧ User_EmailNormalized u' = User_EmailNormalized u.
Proof.
  unfold identity.patch_display_name. intros HJ. destruct input as [raw|]; [|by intros [= <- <-]].
  destruct (identity.normalizeDisplayName raw _) as [d|]; [|done]. destruct (d != _); [|by intros [= <- <-]].
  intros [= <- <-]. split; [patched HJ|done].
Qed.
Lemma patch_status_inl input u changed u' changed' :
  J u changed → identity.patch_enum "status" [identity_StatusActive; identity_StatusDisabled] (User_Status existing)
                  identity.set_status input u changed = inl (u', changed') →
  J u' changed' ∧ User_UsernameNormalized u' = User_UsernameNormalized u ∧ User_EmailNormalized u' = User_EmailNormalized u.
Proof.
  unfold identity.patch_enum. intros HJ. destruct input as [v|]; [|by intros [= <- <-]]. next_guard Ev.
  apply negb_false_iff, bool_decide_eq_true in Ev. destruct (v != _); [|by intros [= <- <-]].
  intros [= <- <-]. split; [patched HJ|done].
Qed.
Lemma patch_role_inl input u changed u' changed' :
  J u changed → identity.patch_enum "role" [RoleUser; RoleAdmin] (User_Role existing) identity.set_role input u changed = inl (u', changed') →
  J u' changed' ∧ User_UsernameNormalized u' = User_UsernameNormalized u ∧ User_EmailNormalized u' = User_EmailNormalized u.
Proof.
  unfold identity.patch_enum. intros HJ. destruct input as [v|]; [|by intros [= <- <-]]. next_guard Ev.
  apply negb_false_iff, bool_decide_eq_true in Ev. destruct (v != _); [|by intros [= <- <-]].
  intros [= <- <-]. split; [patched HJ|done].
Qed.

Lemma then_inl p f r : identity.then_ p f = inl r → ∃ u changed, p = inl (u, changed) ∧ f u changed = inl r.
Proof. destruct p as [[u changed]|]; [|done]. intros H. by exists u, changed. Qed.
End update.

(** An administrative patch keeps the account rules and names what it changed.  From an
    account that obeys the rules, [PrepareUpdate] yields one that does, with the same
    identity, creation time, last login and version; every field that differs is named in
    the list for the audit record, which is not empty. *)
Theorem account_update_keeps existing input now u changed :
  account_fields existing → identity.PrepareUpdate existing input now = inl (u, changed) →
  account_fields u ∧ patching existing u changed ∧ changed ≠ [] ∧ User_UpdatedAt u = now.
Proof.
  intros [Hs _] H. unfold identity.PrepareUpdate in H. apply then_inl in H as (u1 & c1 & H1 & H).
  apply patch_username_inl in H1 as J1; [|by split; [|unfold patching, same_identity; split_and!]].
  apply then_inl in H as (u2 & c2 & H2 & H). apply patch_email_inl in H2 as J2; [|done].
  destruct (_ == _) eqn:Ed; [done|]. apply bool_decide_eq_false in Ed.
  apply then_inl in H as (u3 & c3 & H3 & H). apply patch_display_name_inl in H3 as (J3 & N3 & M3); [|done].
  apply then_inl in H as (u4 & c4 & H4 & H). apply patch_status_inl in H4 as (J4 & N4 & M4); [|done].
  apply then_inl in H as (u5 & c5 & H5 & H). apply patch_role_inl in H5 as (J5 & N5 & M5); [|done].
  destruct (c5 == []) eqn:Ec; [done|]. injection H as <- <-. apply bool_decide_eq_false in Ec. destruct J5 as [S5 P5].
  split_and!; [|exact P5|done|done]. split; [exact S5|]. simpl. congruence.
Qed.
End accounts.

(** ** At concrete parameters *)

(** ASCII text and a digest by SHA-256, cut or padded to the requested length. *)
#[export] Instance demo_text : TextLibrary := {|
  NFC_String s := s; Fold_String := lower_ascii; ToLower := lower_ascii;
  IsLetter r := ((65 <=? r) && (r <=? 90)) || ((97 <=? r) && (r <=? 122)); IsDigit r := (48 <=? r) && (r <=? 57);
  mail_ParseAddress s := if contains_byte "@" s then Some s else None |}.
#[export] Instance demo_kdf : KeyDerivation := {|
  IDKey password salt _ _ _ keyLen :=
    str_take (Z.to_nat keyLen) (Sha256.Sum256 (password +:+ salt) +:+ Nat.iter (Z.to_nat keyLen) (String NUL) "") |}.
#[export] Instance demo_kdf_laws : KeyDerivationLaws demo_kdf.
Proof.
  split. intros password salt t m p n Hn. simpl. unfold len. rewrite str_take_length; [lia|]. rewrite length_app_string.
  assert (∀ k, String.length (Nat.iter k (String NUL) "") = k) as -> by (induction k; simpl; congruence). lia.
Qed.

Definition demo_hasher : identity.PasswordHasher :=
  identity.mkPasswordHasher (identity.mkArgon2Params 65536 3 2 16 32) 4.
Definition demo_password : string := "correct horse battery staple".

Lemma password_roundtrip_witness : ∃ s' encoded,
  identity.Hash demo_hasher None demo_password (byte_run 64) = (s', inl encoded) ∧
  identity.Verify demo_hasher None demo_password encoded = inl (true, false).
Proof.
  destruct (identity.Hash demo_hasher None demo_password (byte_run 64)) as [s' [encoded|e]] eqn:H.
  - exists s', encoded. split; [exact eq_refl|].
    refine (proj1 (password_roundtrip demo_hasher demo_password (byte_run 64) s' encoded _ H)).
    unfold identity.readable, demo_hasher. cbn [identity.params identity.MemoryKiB identity.Time_ identity.Threads identity.SaltLen identity.KeyLen]. lia.
  - vm_compute in H. discriminate H.
Defined.

Definition demo_phc : string := identity.phc demo_hasher (byte_run 16) (byte_run 32).
Lemma phc_bounded_witness : ∃ p salt digest, identity.parsePHC demo_phc = Some (p, salt, digest) ∧ identity.MemoryKiB p <= 1024 * 1024.
Proof.
  destruct (identity.parsePHC demo_phc) as [[[p salt] digest]|] eqn:H; [|vm_compute in H; discriminate H].
  exists p, salt, digest. split; [exact eq_refl|]. exact (proj2 (proj1 (phc_bounded _ _ _ _ H))).
Defined.

(** A string without the time and thread parameters parses as well, with zeros for them. *)
Example phc_without_cost :
  (λ r, (identity.Time_ r.1.1, identity.Threads r.1.1)) <$>
  identity.parsePHC ("$argon2id$v=19$m=65536,x=1,y=1$" +:+ identity.StdEncode (byte_run 16) +:+ "$" +:+ identity.StdEncode (byte_run 32)) = Some (0, 0).
Proof. vm_compute. reflexivity. Qed.

Definition demo_identity : identity.Service := identity.mkService (identity.mkPasswordPolicy 15 1024) demo_hasher demo_phc.
Definition demo_account : identity.CreateInput := identity.mkCreateInput " Bob.Smith" "" "Bob@Example.com" demo_password.

Lemma account_prepared_witness : ∃ w' u,
  identity.PrepareUser demo_identity None demo_account RoleUser t0 (world_of demo_db 0) = (w', inl u) ∧ account_fields (PreparedUser_User u).
Proof.
  destruct (succeeds_run (identity.PrepareUser demo_identity None demo_account RoleUser t0) (world_of demo_db 0)) as (w' & u & H); [by vm_compute|].
  exists w', u. split; [exact H|]. exact (proj1 (proj2 (account_prepared demo_identity None demo_account RoleUser t0 _ w' u H))).
Defined.

Definition demo_person : User := mkUser 1 "sub" "alice" "alice" "Alice" "alice@example.com" "alice@example.com" true "active" "user" t0 t0 None 1.
Lemma account_update_keeps_witness : ∃ u changed,
  identity.PrepareUpdate demo_person (identity.mkUpdateInput (Some "Alice.B") None None (Some "disabled") None) t0 = inl (u, changed) ∧
  account_fields u.
Proof.
  destruct (identity.PrepareUpdate demo_person (identity.mkUpdateInput (Some "Alice.B") None None (Some "disabled") None) t0)
    as [[u changed]|e] eqn:H; [|vm_compute in H; discriminate H].
  exists u, changed. split; [exact eq_refl|].
  refine (proj1 (account_update_keeps demo_person _ t0 u changed _ H)).
  split; [split_and!; [reflexivity|reflexivity|vm_compute; discriminate|vm_compute; discriminate|repeat constructor|reflexivity|vm_compute; discriminate|by left|by left]|discriminate].
Defined.
