(* ===== verification/AuthnTheorems.v ===== *)
(** * Authentication: the theorems

    A login succeeds only for the password of an active account inside a live browser
    flow; a flow buys at most five guesses; a refusal does not tell why; registration
    follows the policy of the installation and of the client. *)

From S2P Require Import Prelude Base64 Errors Platform Scopes Domain Opaque SessionTokens AuditEvents Database Queries.
From S2P Require Import RegistryQueries BrowserQueries Tx StoreCommon ServiceCommon SessionStore LoginStore ClientStore.
From S2P Require Import Invariants RegistryInvariants StatementFacts Quiet Writes Lifecycle ServiceSteps TokenService AuthorizationService.
From S2P Require Import SessionService SessionProofs FlowService IdentityService AuthnService Demo SessionTheorems.
From S2P Require Import LoginTheorems FlowTheorems IdentityTheorems.

Section theorems.
Context {P : Platform} {T : TextLibrary} {K : KeyDerivation} (s : authn.Service).

(** ** The checks of a flow *)

(** The live flow behind the three values of the browser. *)
Record live_flow (preauthToken csrfToken transactionToken : string) (now : time) (db : DB)
    (p : PreauthSessionRow) (t : AuthTransactionRow) : Prop := {
  lf_shape : validToken preauthToken "p1_" = true ∧ authflow.validToken transactionToken = true;
  lf_preauth : find_row (λ r, pa_TokenHash r == HashToken preauthToken) (preauth_sessions db) = Some p;
  lf_unconsumed : pa_ConsumedAt p = None;
  lf_unexpired : now < pa_ExpiresAt p;
  lf_csrf : csrfMatches csrfToken (pa_CsrfHash p) = true;
  lf_transaction : find_row (λ r, tx_TokenHash r == authflow.HashToken transactionToken) (auth_transactions db) = Some t;
  lf_live : tx_ConsumedAt t = None ∧ now < tx_ExpiresAt t;
  lf_same : tx_ID t = pa_AuthTransactionID p }.

Lemma FindPreAuth_inl h w w' r :
  FindPreAuth h w = (w', inl r) →
  w_db w' = w_db w ∧ ∃ p, find_row (λ p, pa_TokenHash p == h) (preauth_sessions (w_db w)) = Some p ∧ r = mapPreAuth p.
Proof. unfold FindPreAuth. intros H. do 2 tx_step H. split; [done|]. by eexists. Qed.

Lemma ValidatePreAuth_None r cookie csrf now :
  ValidatePreAuth r cookie csrf now = None →
  validToken cookie "p1_" = true ∧ PreAuth_ConsumedAt r = None ∧ now < PreAuth_ExpiresAt r ∧ csrfMatches csrf (PreAuth_CSRFHash r) = true.
Proof.
  unfold ValidatePreAuth. next_guard E1. next_guard E2. intros _.
  apply orb_false_iff in E1 as [[E0 E1]%orb_false_iff E3]. apply orb_false_iff in E2 as [_ E2]. apply bool_decide_eq_false, not_is_Some_None in E1.
  apply negb_false_iff in E0, E2, E3. apply Z.ltb_lt in E3. done.
Qed.

Lemma validateFlow_inl preauthToken csrfToken transactionToken now w w' r :
  authn.validateFlow preauthToken csrfToken transactionToken now w = (w', inl r) →
  w_db w' = w_db w ∧ ∃ p t, live_flow preauthToken csrfToken transactionToken now (w_db w) p t ∧
    r = (mapPreAuth p, mapAuthTransaction t).
Proof.
  unfold authn.validateFlow. simpl. intros H. tx_step H.
  apply Tx_bind_inl in H as (w1 & pr & Hf%replace_error_inl & H). apply FindPreAuth_inl in Hf as (Hdb1 & p & Hp & ->).
  destruct (ValidatePreAuth _ _ _ _) as [e|] eqn:Ev; [tx_step H|]. apply ValidatePreAuth_None in Ev as (E0 & E1 & E2 & E3).
  apply Tx_bind_inl in H as (w2 & t & Ht%replace_error_inl & H). apply Resolve_inl in Ht as (Hdb2 & E4 & t0 & Ht & -> & Hc & Hx).
  do 2 tx_step H. apply negb_false_iff, bool_decide_eq_true in Hguard0. rewrite Hdb1 in Ht.
  split; [congruence|]. exists p, t0. split; [|done]. by split.
Qed.

(** ** An attempt is paid before anything is tried *)

Definition count_attempt (p : PreauthSessionRow) : PreauthSessionRow :=
  mkPreauthSessionRow (pa_ID p) (pa_TokenHash p) (pa_CsrfHash p) (pa_AuthTransactionID p) (pa_CreatedAt p) (pa_ExpiresAt p)
    (pa_ConsumedAt p) (pa_AttemptCount p + 1).
Definition reserved (p : PreauthSessionRow) (db : DB) : DB :=
  with_preauth_sessions (<[pa_ID p := count_attempt p]> (preauth_sessions db)) db.

Lemma reserve_inl id now maximum w w' x :
  LoginStore.ReservePreAuthAttempt id now maximum w = (w', inl x) →
  ∃ p, preauth_sessions (w_db w) !! id = Some p ∧ pa_AttemptCount p < maximum ∧
    w_db w' = with_preauth_sessions (<[id := count_attempt p]> (preauth_sessions (w_db w))) (w_db w).
Proof.
  unfold LoginStore.ReservePreAuthAttempt. intros H. do 2 tx_step H.
  apply update_row_inl in Hstmt as (p & Hp & Hc & _ & _ & ->). apply andb_true_iff in Hc as [_ Hc]. apply Z.ltb_lt in Hc.
  exists p. split; [done|]. split; [done|]. by rewrite Hdb.
Qed.

Lemma preauth_key db h p :
  db_ok db → find_row (λ r, pa_TokenHash r == h) (preauth_sessions db) = Some p →
  preauth_sessions db !! pa_ID p = Some p ∧ pa_TokenHash p = h.
Proof.
  intros Hok [Hh [k Hk]]%find_row_Some. apply bool_decide_eq_true in Hh.
  destruct (ok_preauth db Hok) as [Hkey _]. apply Hkey in Hk as E. simpl in E. by subst k.
Qed.

(** The errors of a flow that is not usable. *)
Definition flow_error (e : error) : Prop := e = authn_ErrInvalidFlow ∨ e = session_ErrInvalidCSRF ∨ e = go_panic.

Lemma validateFlow_fails preauthToken csrfToken transactionToken now :
  fails_only flow_error (authn.validateFlow preauthToken csrfToken transactionToken now).
Proof.
  unfold authn.validateFlow, flow_error. apply fails_bind; [auto with fails|]. intros _. apply fails_bind; [auto with fails|]. intros r.
  destruct (ValidatePreAuth _ _ _ _) as [e|]; [destruct (e == _); auto with fails|].
  apply fails_bind; [auto with fails|]. intros t. auto with fails.
Qed.

(** The two steps every attempt starts with. *)
Lemma flow_reserved {A} preauthToken csrfToken transactionToken now (k : PreAuthRecord → Transaction → Tx A) w w' r :
  db_ok (w_db w) →
  (flow ← authn.validateFlow preauthToken csrfToken transactionToken now;
   (let '(preauth, transaction) := flow in
    replace_error authn_ErrInvalidFlow
      (authn.Repository_ReservePreAuthAttempt (PreAuth_ID preauth) now authn.maxAuthenticationAttempts);; k preauth transaction)) w = (w', r) →
  (∃ p t w1, live_flow preauthToken csrfToken transactionToken now (w_db w) p t ∧ pa_AttemptCount p < 5 ∧
    w_db w1 = reserved p (w_db w) ∧ db_ok (w_db w1) ∧ k (mapPreAuth p) (mapAuthTransaction t) w1 = (w', r)) ∨
  (∃ e, r = inr e ∧ flow_error e).
Proof.
  intros Hok H. apply bind_cases in H as [(w1 & fl & Hv & H)|(e & -> & He)].
  2: { right. exists e. split; [done|]. by apply validateFlow_fails in He. }
  apply validateFlow_inl in Hv as (Hdb1 & p & t & Hlf & ->).
  apply bind_cases in H as [(w2 & x & Hr%replace_error_inl & H)|(e & -> & [->| ->]%replace_error_inr)].
  2,3: right; eexists; split; [done|]; unfold flow_error; auto.
  left. simpl in Hr. assert (Hok2 : db_ok (w_db w2)).
  { refine (run_ok (OpReserveAttempt _ _ _) _ (λ _ : unit, ResultDone) _ _ _ eq_refl Hr _). congruence. }
  apply reserve_inl in Hr as (p' & Hp' & Hc & Hdb2).
  destruct (preauth_key _ _ _ Hok (lf_preauth _ _ _ _ _ _ _ Hlf)) as [Hk _]. rewrite Hdb1 in Hp', Hdb2.
  assert (p' = p) as -> by congruence. by exists p, t, w2.
Qed.

(** ** Credentials *)

(** The account a login identifier names: the username match first. *)
Definition login_account (identifier : string) (db : DB) : option (UserRow * CredentialRow) :=
  match login_row db identifier (λ u, u_UsernameNormalized u == identifier) with
  | Some found => Some found
  | None => login_row db identifier (λ u, u_EmailNormalized u == identifier)
  end.
Definition record_of (r : UserRow * CredentialRow) : LoginRecord := mkLoginRecord (mapUser r.1) (cr_PasswordHash r.2).

Lemma find_record_inl identifier w w' r :
  authn.find_record identifier w = (w', inl (Some r)) →
  w_db w' = w_db w ∧ ∃ normalized found, identity.NormalizeLoginIdentifier identifier = inl normalized ∧
    login_account normalized (w_db w) = Some found ∧ r = record_of found.
Proof.
  unfold authn.find_record. destruct (identity.NormalizeLoginIdentifier identifier) as [n|e] eqn:En; [|done].
  intros H. apply Tx_bind_inl in H as (w1 & [x|e] & [Hf _]%attempt_inl & H); [|by destruct (e == _)].
  tx_step H. simpl in Hf. unfold FindLoginRecord in Hf. do 2 tx_step Hf. split; [done|]. by exists n, a.
Qed.

Lemma VerifyLogin_inl ids gate rg password record w w' r :
  identity.VerifyLogin ids gate rg password record w = (w', inl r) →
  w_db w' = w_db w ∧ ∃ x rehash, record = Some x ∧ User_Status (LoginRecord_User x) = identity_StatusActive ∧
    identity.Verify (identity.hasher ids) gate password (LoginRecord_PasswordHash x) = inl (true, rehash) ∧
    (rehash = false → r.2 = "") ∧
    (rehash = true → ∃ s s', identity.Hash (identity.hasher ids) rg password s = (s', inl r.2)).
Proof.
  unfold identity.VerifyLogin. intros H. apply Tx_bind_inl in H as (w1 & [m n] & (Hv & Hdb1 & _)%identity.compare_password_inl & H).
  destruct record as [x|]; [|tx_step H]. do 2 tx_step H. apply negb_false_iff in Hguard, Hguard0. apply bool_decide_eq_true in Hguard0.
  subst m. destruct n.
  - do 2 tx_step H. split; [congruence|]. exists x, true. repeat (split; [done|]). intros _. by exists (w_rand w1), s0.
  - tx_step H. split; [done|]. by exists x, false.
Qed.

(** ** Login *)

Definition login_flow (input : authn.LoginInput) (now : time) : DB → PreauthSessionRow → AuthTransactionRow → Prop :=
  live_flow (authn.LoginInput_PreAuthToken input) (authn.LoginInput_CSRFToken input) (authn.LoginInput_TransactionToken input) now.

(** The password of the stored digest. *)
Definition right_password (gate : option error) (password : string) (c : CredentialRow) : Prop :=
  ∃ rehash, identity.Verify (identity.hasher (authn.identities s)) gate password (cr_PasswordHash c) = inl (true, rehash).

Lemma NewAuthenticated_hash m user now ua ip r r' i :
  NewAuthenticated m user now ua ip r = (r', inl i) →
  SR_TokenHash (Issued_Record i) = HashToken (Issued_Token i) ∧ SR_UserID (Issued_Record i) = user.
Proof.
  unfold NewAuthenticated. intros (? & tok & _ & H)%Rnd_bind_inl. apply Rnd_bind_inl in H as (? & csrf & _ & H).
  apply Rnd_bind_inl in H as (? & id & _ & H). injection H as _ <-. done.
Qed.

Lemma login_commit_inl input preauth transaction record replacement now w w' issued user :
  db_ok (w_db w) →
  authn.login_commit s input preauth transaction record replacement now w = (w', inl (issued, user)) →
  user = authn.set_last_login now (LoginRecord_User record) ∧
  ∃ commit b, LoginCommit_UserID commit = User_ID (LoginRecord_User record) ∧ LoginCommit_PreAuthID commit = PreAuth_ID preauth ∧
    LoginCommit_ReplacementHash commit = replacement ∧ LoginCommit_Now commit = now ∧
    SR_UserID (LoginCommit_Session commit) = LoginCommit_UserID commit ∧
    SR_TokenHash (LoginCommit_Session commit) = HashToken (Issued_Token issued) ∧
    SR_ID (LoginCommit_Session commit) = SR_ID (Issued_Record issued) ∧ b ≠ uuid_Nil ∧
    logged_in commit (w_db w) b (w_db w').
Proof.
  intros Hok H. unfold authn.login_commit in H. tx_step H. rename a into fresh.
  apply Tx_bind_inl in H as (w2 & events & (s2 & _ & ->)%lift_sysrand_inl & H). simpl in H.
  apply Tx_bind_inl in H as (w3 & b & Hc & H). rewrite <- Hdb in Hok.
  apply CommitLogin_inl in Hc as [Hl Hu]; [|exact Hok]. do 2 tx_step H. apply bool_decide_eq_false in Hguard.
  split; [done|]. match type of Hl with logged_in ?c _ _ _ => exists c, b end. split; [reflexivity|]. split; [reflexivity|]. split; [reflexivity|]. split; [reflexivity|].
  split; [exact Hu|]. split; [|split; [done|split; [done|]]].
  - exact (proj1 (NewAuthenticated_hash _ _ _ _ _ _ _ _ Hmint)).
  - simpl in Hl. rewrite <- Hdb. exact Hl.
Qed.

Lemma login_refused_inr input record e now w w' r : authn.login_refused input record e now w ≠ (w', inl r).
Proof. unfold authn.login_refused. intros (w1 & x & _ & H)%Tx_bind_inl. by destruct (_ || _). Qed.

Lemma rejected_inr {A} (m : Tx unit) e w w' (a : A) : (m;; throw e) w ≠ (w', inl a).
Proof. by intros (w1 & x & _ & H)%Tx_bind_inl. Qed.

(** C9: A login proves knowledge of an active account's password.  When [Login] succeeds,
    the browser's three values named a live flow with attempts left; the identifier
    normalizes to that of an account with a password row; the account is active and the
    password verifies against its digest; that account is returned; its new, unrevoked
    session is stored under the digest of the returned cookie, and the flow's
    pre-authentication session is consumed. *)
Theorem login_sound gate rg input now w w' issued user :
  db_ok (w_db w) → authn.Login s gate rg input now w = (w', inl (issued, user)) →
  ∃ p t normalized u c,
    login_flow input now (w_db w) p t ∧ pa_AttemptCount p < 5 ∧
    identity.NormalizeLoginIdentifier (authn.LoginInput_Identifier input) = inl normalized ∧
    login_account normalized (w_db w) = Some (u, c) ∧ u_Status u = identity_StatusActive ∧
    right_password gate (authn.LoginInput_Password input) c ∧ user = authn.set_last_login now (mapUser u) ∧
    (∃ row, login_sessions (w_db w') !! SR_ID (Issued_Record issued) = Some row ∧ ls_UserID row = u_ID u ∧
       ls_TokenHash row = HashToken (Issued_Token issued) ∧ ls_RevokedAt row = None) ∧
    preauth_spent (pa_ID p) (w_db w').
Proof.
  intros Hok H. unfold authn.Login in H. apply flow_reserved in H as [(p & t & w1 & Hlf & Hc & Hdb1 & Hok1 & H)|(e & [=] & _)]; [|done].
  apply Tx_bind_inl in H as (w2 & record & Hf & H). apply Tx_bind_inl in H as (w3 & verified & [Hv Hnp]%attempt_inl & H).
  destruct verified as [[rehash replacement]|e].
  2: { by apply login_refused_inr in H. }
  apply VerifyLogin_inl in Hv as (Hdb3 & x & b & -> & Hact & Hver & _). apply find_record_inl in Hf as (Hdb2 & n & [u c] & Hn & Hacc & ->).
  apply login_commit_inl in H as (-> & commit & bd & E1 & E2 & E3 & E4 & E5 & E6 & E7 & Hbd & Hl); [|by rewrite Hdb3, Hdb2].
  exists p, t, n, u, c. split; [done|]. split; [done|]. split; [done|].
  split; [by rewrite Hdb1 in Hacc|]. split; [done|]. split; [by exists b|]. split; [done|]. split.
  - exists (session_row (set_binding bd (LoginCommit_Session commit))). rewrite (li_sessions _ _ _ _ Hl), <- E7.
    split; [apply lookup_insert_eq|]. rewrite E1 in E5. by split.
  - destruct (li_preauth _ _ _ _ Hl) as (q & _ & _ & Hq). unfold preauth_spent. rewrite Hq, E2.
    intros k r [[<- <-]|[Hne _]]%lookup_insert_Some Hk; [|by subst k]. by eexists.
Qed.

(** ** A flow buys five guesses *)

(** Every pre-authentication session with the digest has counted [n] attempts. *)
Definition attempts (h : bytes) (n : Z) (db : DB) : Prop :=
  map_Forall (λ _ p, pa_TokenHash p = h → n <= pa_AttemptCount p) (preauth_sessions db).
(** Nobody draws the same pre-authentication cookie again. *)
Definition no_preauth_token (h : bytes) : policy := mkPolicy any any any any any (λ r, pa_TokenHash r ≠ h) any any any any any_change.

Lemma write_attempts h n db db' : write (no_preauth_token h) db db' → attempts h n db → attempts h n db'.
Proof.
  unfold attempts. destruct 1; simpl in *; try done; intros HI.
  - by apply map_Forall_insert_2.
  - refine (map_Forall_pointwise _ _ _ _ _ H HI). unfold preauth_update. intros k r r' Hu Hle Hh.
    destruct Hu as (_ & E & _ & _ & Hc & _). rewrite E in Hh. etrans; [by apply Hle|done].
  - by apply map_Forall_delete_ids.
Qed.

(** An attempt on a flow. *)
Inductive Try :=
| TryLogin (gate rehashGate : option error) (input : authn.LoginInput)
| TryRegister (gate : option error) (input : authn.RegisterInput).
Definition try_token (t : Try) : string :=
  match t with TryLogin _ _ input => authn.LoginInput_PreAuthToken input | TryRegister _ input => authn.RegisterInput_PreAuthToken input end.
Definition try_run (t : Try) (now : time) : Tx unit :=
  match t with
  | TryLogin gate rehashGate input => authn.Login s gate rehashGate input now;; mret ()
  | TryRegister gate input => authn.Register s gate input now;; mret ()
  end.
(** The answer tells more than that the flow is not usable. *)
Definition answered {A} (r : A + error) : Prop := match r with inl _ => True | inr e => ¬ flow_error e end.

Lemma reserved_attempts h n p db :
  preauth_sessions db !! pa_ID p = Some p → pa_TokenHash p = h → attempts h n db → db_ok db →
  n <= pa_AttemptCount p ∧ attempts h (n + 1) (reserved p db).
Proof.
  intros Hp Hh Ha Hok. pose proof (Ha _ _ Hp Hh) as Hle. split; [done|]. unfold attempts, reserved. simpl.
  intros k r [[<- <-]|[Hne Hr]]%lookup_insert_Some Hk; [simpl; lia|]. destruct (ok_preauth db Hok) as (_ & _ & Hun).
  destruct Hne. apply (Hun _ _ p r Hp Hr). simpl. apply bool_decide_eq_true. congruence.
Qed.

Lemma after_ret {A} (m : Tx A) w w' (r : unit + error) :
  (m;; mret ()) w = (w', r) → ∃ r1, m w = (w', r1) ∧ (answered r → answered r1).
Proof. intros [(w1 & a & H & [= <- <-])|(e & -> & H)]%bind_cases; eexists; by split; [exact H|]. Qed.

(** What follows the reservation never lowers the count. *)
Lemma counted {A} (m : Tx A) h n p w w1 w' r :
  db_ok (w_db w) → attempts h n (w_db w) → find_row (λ r, pa_TokenHash r == h) (preauth_sessions (w_db w)) = Some p →
  pa_AttemptCount p < 5 → w_db w1 = reserved p (w_db w) → db_ok (w_db w1) →
  within (obeys (no_preauth_token h)) m → m w1 = (w', r) →
  n < 5 ∧ db_ok (w_db w') ∧ attempts h (n + 1) (w_db w').
Proof.
  intros Hok Ha Hp Hc Hdb1 Hok1 Hin Hm. destruct (preauth_key _ _ _ Hok Hp) as [Hk Hh].
  destruct (reserved_attempts _ _ _ _ Hk Hh Ha Hok) as [Hle Hn]. rewrite <- Hdb1 in Hn. split; [lia|].
  split; [exact (within_ok _ _ _ _ _ Hin Hm Hok1)|]. eapply reaches_stable; [apply write_attempts|exact (Hin _ _ _ Hm)|done].
Qed.

Lemma try_counts t now w w' r n :
  db_ok (w_db w) → attempts (HashToken (try_token t)) n (w_db w) → try_run t now w = (w', r) → answered r →
  n < 5 ∧ db_ok (w_db w') ∧ attempts (HashToken (try_token t)) (n + 1) (w_db w').
Proof.
  intros Hok Ha H Hr. destruct t as [gate rg input|gate input]; simpl in H, Ha |- *;
    apply after_ret in H as (r1 & H & Hr1);
    (apply flow_reserved in H as [(p & t0 & w1 & Hlf & Hc & Hdb1 & Hok1 & H)|(e & -> & He)]; [|by destruct (Hr1 Hr He)|exact Hok]);
    refine (counted _ _ _ _ _ _ _ _ Hok Ha (lf_preauth _ _ _ _ _ _ _ Hlf) Hc Hdb1 Hok1 _ H).
  - unfold authn.find_record, identity.VerifyLogin, authn.login_refused, authn.recordLoginFailure, authn.login_commit.
    simpl. within_auto; done.
  - unfold authn.checkRegistration, identity.PrepareUser, authn.recordRejected. simpl. within_auto; done.
Qed.

(** A history: answered attempts with the cookie of digest [h], and anything else in
    between that does not draw the same cookie again. *)
Inductive guessing (h : bytes) : DB → nat → DB → Prop :=
| guess_none db : guessing h db 0 db
| guess_other db db1 n db2 : reaches (obeys (no_preauth_token h)) db db1 → guessing h db1 n db2 → guessing h db n db2
| guess_try t now w w' r n db2 :
    HashToken (try_token t) = h → try_run t now w = (w', r) → answered r → guessing h (w_db w') n db2 →
    guessing h (w_db w) (S n) db2.

Lemma guessing_bound h db n db' k : guessing h db n db' → db_ok db → attempts h k db → k <= 5 → k + Z.of_nat n <= 5.
Proof.
  intros Hg. revert k. induction Hg as [db|db db1 n db2 Hr _ IH|t now w w' r n db2 <- Hrun Hans _ IH]; intros k Hok Ha Hk.
  - lia.
  - apply IH; [by eapply reaches_ok| |done]. eapply reaches_stable; [apply write_attempts|exact Hr|done].
  - destruct (try_counts _ _ _ _ _ _ Hok Ha Hrun Hans) as (Hlt & Hok' & Ha'). specialize (IH _ Hok' Ha'). lia.
Qed.

(** C30: A pre-authentication session buys at most five attempts.  In any history of the
    store in which its cookie is not drawn a second time, at most five calls of [Login]
    or [Register] with that cookie get an answer that depends on more than the flow's
    own validity — a success, a credential refusal or any other error. *)
Theorem login_attempts_bounded h db n db' : db_ok db → guessing h db n db' → (n ≤ 5)%nat.
Proof.
  intros Hok Hg. enough (0 + Z.of_nat n <= 5) by lia. apply (guessing_bound _ _ _ _ _ Hg Hok); [|lia].
  intros k p Hp _. destruct (ok_preauth _ Hok) as (_ & Hc & _). specialize (Hc k p Hp). simpl in Hc.
  unfold preauth_sessions_check in Hc. rewrite !andb_true_iff in Hc. destruct Hc as [[_ Hc] _]. by apply Z.leb_le in Hc.
Qed.

(** ** Refusals look alike *)

Lemma ReservePreAuthAttempt_run p now w :
  quiet w → db_ok (w_db w) → preauth_sessions (w_db w) !! pa_ID p = Some p → pa_ConsumedAt p = None → timestamp now < pa_ExpiresAt p →
  pa_AttemptCount p < 5 →
  LoginStore.ReservePreAuthAttempt (pa_ID p) now 5 w = (with_db (reserved p (w_db w)) w, inl ()).
Proof.
  intros Hq Hok Hp Hc Hx Ha. unfold LoginStore.ReservePreAuthAttempt.
  erewrite bind_run; [reflexivity|]. apply exec_row_run; [done|]. refine (update_row_run preauth_sessions_table _ _ count_attempt _ p Hp _ _).
  - unfold live_preauth. rewrite Hc. simpl. by rewrite !(proj2 (Z.ltb_lt _ _)).
  - destruct (ok_preauth _ Hok) as (_ & Hk & _). specialize (Hk _ p Hp). revert Hk. unfold tbl_check, preauth_sessions_table, preauth_sessions_check.
    simpl. rewrite !andb_true_iff, !Z.leb_le. intros [[? ?] ?]. split_and!; naive_solver lia.
Qed.

Lemma FindPreAuth_run h w p :
  quiet w → find_row (λ p, pa_TokenHash p == h) (preauth_sessions (w_db w)) = Some p → FindPreAuth h w = (w, inl (mapPreAuth p)).
Proof. intros Hq Hp. unfold FindPreAuth. erewrite bind_run; [|by apply select_run]. done. Qed.

Lemma ValidatePreAuth_run p cookie csrf now :
  validToken cookie "p1_" = true → pa_ConsumedAt p = None → now < pa_ExpiresAt p → pa_TokenHash p = HashToken cookie →
  csrfMatches csrf (pa_CsrfHash p) = true → ValidatePreAuth (mapPreAuth p) cookie csrf now = None.
Proof.
  intros Hpt Hc Hx Hh Hcs. unfold ValidatePreAuth. cbn [mapPreAuth PreAuth_ConsumedAt PreAuth_ExpiresAt PreAuth_TokenHash PreAuth_CSRFHash].
  rewrite Hpt, Hc, Hcs, Hh. unfold Time.Before. rewrite (proj2 (Z.ltb_lt _ _)) by exact Hx. rewrite (bool_decide_eq_true_2 _ eq_refl). reflexivity.
Qed.

Lemma validateFlow_run preauthToken csrfToken transactionToken now w p t :
  quiet w → db_ok (w_db w) → live_flow preauthToken csrfToken transactionToken now (w_db w) p t →
  authn.validateFlow preauthToken csrfToken transactionToken now w = (w, inl (mapPreAuth p, mapAuthTransaction t)).
Proof.
  intros Hq Hok [[Hpt Htt] Hp Hc Hx Hcs Ht [Htc Htx] Hs]. destruct (preauth_key _ _ _ Hok Hp) as [Hk Hh].
  unfold authn.validateFlow. rewrite reject_run.
  2: { apply orb_false_iff. split; apply bool_decide_eq_false; by intros ->. }
  erewrite bind_run; [|apply replace_error_run; exact (FindPreAuth_run _ _ _ Hq Hp)].
  rewrite ValidatePreAuth_run by done.
  erewrite bind_run; [|apply replace_error_run, Resolve_run; eassumption]. rewrite reject_run; [done|]. simpl.
  apply negb_false_iff, bool_decide_eq_true. done.
Qed.

(** The record and the digest a login with the identifier is checked against. *)
Definition login_record (identifier : string) (db : DB) : option LoginRecord :=
  match identity.NormalizeLoginIdentifier identifier with inl n => record_of <$> login_account n db | inr _ => None end.
Definition compared_hash (record : option LoginRecord) : string :=
  match record with Some r => LoginRecord_PasswordHash r | None => identity.dummyHash (authn.identities s) end.

Lemma find_record_run identifier w : quiet w → authn.find_record identifier w = (w, inl (login_record identifier (w_db w))).
Proof.
  intros Hq. unfold authn.find_record, login_record. destruct (identity.NormalizeLoginIdentifier identifier) as [n|e]; [|done].
  simpl. unfold FindLoginRecord. destruct (login_account n (w_db w)) as [r|] eqn:E.
  - erewrite bind_run; [|apply attempt_run; erewrite bind_run; [|by apply select_run]; reflexivity]. done.
  - erewrite bind_run; [|unfold attempt; erewrite bind_fail; [|by apply select_none_run]; reflexivity]. done.
Qed.

(** The trace of the password hasher is not touched. *)
Definition same_compared (w w' : World) : Prop := w_compared w' = w_compared w.
#[local] Instance same_compared_unseen : Unseen same_compared.
Proof. split; [split; [intros w|intros ? ? ? H1 H2; red; rewrite H2, H1]|..]; done. Qed.
Lemma same_compared_AppendAudit event : world_rel same_compared (AppendAudit event).
Proof.
  intros w. unfold AppendAudit. destruct (audit.Validate event); [apply (world_failure same_compared)|].
  match goal with |- context [exec_query ?op ?s w] => pose proof (world_exec_query same_compared op s w) as H1; destruct (exec_query op s w) as [w1 [x|e]] end.
  - etrans; [exact H1|apply (unseen_observed)].
  - etrans; [exact H1|apply (world_failure same_compared)].
Qed.
Lemma same_compared_attempt {A} (m : Tx A) : world_rel same_compared m → world_rel same_compared (attempt m).
Proof. intros Hm w. unfold attempt. specialize (Hm w). destruct (m w) as [w1 [x|[]]]; done. Qed.
Lemma same_compared_refused input record e now : world_rel same_compared (authn.login_refused input record e now).
Proof.
  unfold authn.login_refused, authn.recordLoginFailure, record_event, ignore_error.
  repeat first [apply (world_bind same_compared); [|intros ?] | apply same_compared_attempt | apply (world_lift_sysrand same_compared) |
    apply same_compared_AppendAudit | apply (world_throw same_compared) | apply (world_ret same_compared) | case_match].
Qed.

Lemma VerifyLogin_refused gate rg password record ok rehash w :
  identity.Verify (identity.hasher (authn.identities s)) gate password (compared_hash record) = inl (ok, rehash) →
  (∀ r, record = Some r → ok = true → User_Status (LoginRecord_User r) ≠ identity_StatusActive) →
  ∃ e, identity.VerifyLogin (authn.identities s) gate rg password record w =
    (with_compared (w_compared w ++ [compared_hash record]) w, inr e) ∧
    (e = identity_ErrDisabled ∨ e = identity_ErrInvalidCredentials).
Proof.
  intros Hv Hr. unfold identity.VerifyLogin. fold (compared_hash record). unfold mbind, Tx_bind, identity.compare_password. rewrite Hv. simpl.
  destruct record as [r|]; [|eexists; split; [reflexivity|by right]].
  destruct ok; [|eexists; split; [reflexivity|by right]]. simpl. rewrite (bool_decide_eq_false_2 _ (Hr r eq_refl eq_refl)).
  eexists. split; [reflexivity|by left].
Qed.

Lemma login_refused_uniform input record e now :
  e = identity_ErrDisabled ∨ e = identity_ErrInvalidCredentials →
  fails_only (λ e, e = identity_ErrInvalidCredentials ∨ e = go_panic) (authn.login_refused input record e now).
Proof.
  intros He. unfold authn.login_refused. apply fails_bind; [apply fails_record; by right|]. intros _.
  assert ((e == identity_ErrDisabled) || (e == identity_ErrInvalidCredentials) = true) as ->; [|apply fails_throw; by left].
  destruct He as [-> | ->]; done.
Qed.

(** C31: A refused login does not tell why.  On a live flow with attempts left, with a
    free password worker and a well-formed stored digest, an unknown identifier, an
    identifier that is none, a wrong password and a disabled account get the same error,
    [ErrInvalidCredentials]; and in every case Argon2 runs exactly once, on the digest of
    the account or, when there is none, on the dummy digest.  (The other outcome is a dead
    source of randomness while the audit record is written.) *)
Theorem login_uniform_refusal gate rg input now w p t ok rehash :
  quiet w → db_ok (w_db w) → login_flow input now (w_db w) p t → timestamp now < pa_ExpiresAt p → pa_AttemptCount p < 5 →
  let record := login_record (authn.LoginInput_Identifier input) (w_db w) in
  identity.Verify (identity.hasher (authn.identities s)) gate (authn.LoginInput_Password input) (compared_hash record) = inl (ok, rehash) →
  (∀ r, record = Some r → ok = true → User_Status (LoginRecord_User r) ≠ identity_StatusActive) →
  ∃ w' e, authn.Login s gate rg input now w = (w', inr e) ∧ (e = identity_ErrInvalidCredentials ∨ e = go_panic) ∧
    w_compared w' = w_compared w ++ [compared_hash record].
Proof.
  intros Hq Hok Hlf Hx Ha record Hv Hr. unfold authn.Login. rewrite (bind_run _ _ _ _ _ (validateFlow_run _ _ _ _ _ _ _ Hq Hok Hlf)).
  destruct (preauth_key _ _ _ Hok (lf_preauth _ _ _ _ _ _ _ Hlf)) as [Hk _]. destruct Hlf as [_ _ Hc _ _ _ _ _].
  cbv beta iota. erewrite bind_run; [|apply replace_error_run; exact (ReservePreAuthAttempt_run p now w Hq Hok Hk Hc Hx Ha)].
  erewrite bind_run; [|apply find_record_run; exact Hq]. change (login_record _ _) with record.
  destruct (VerifyLogin_refused gate rg _ record ok rehash (with_db (reserved p (w_db w)) w) Hv Hr) as (e & He & Hcase).
  erewrite (bind_run _ _ _ _ (inr e)); [|unfold attempt; erewrite He; by destruct Hcase as [-> | ->]]. cbv iota.
  match goal with |- context [authn.login_refused ?i ?r ?e ?n ?w] => destruct (authn.login_refused i r e n w) as [w' [x|x]] eqn:E end.
  - by apply login_refused_inr in E.
  - exists w', x. split; [done|]. split; [exact (login_refused_uniform _ _ _ _ Hcase _ _ _ E)|].
    match type of E with ?m ?w0 = _ => pose proof (same_compared_refused input record e now w0) as Hcmp end.
    rewrite E in Hcmp. exact Hcmp.
Qed.

(** ** Registration *)

(** The policy under which the transaction may register: the installation's, and for a
    client's flow that of the client. *)
Definition registration_allowed (t : AuthTransactionRow) (db : DB) : Prop :=
  authn.registrationEnabled s = true ∧
  (tx_TransactionKind t = KindLocal ∨
   ∃ id c, tx_ClientID t = Some id ∧ oidc_clients db !! id = Some c ∧ cl_Status c = client_StatusActive ∧ cl_RegistrationEnabled c = true).

Lemma checkRegistration_inl t w w' x :
  authn.checkRegistration s (mapAuthTransaction t) w = (w', inl x) → w_db w' = w_db w ∧ registration_allowed t (w_db w).
Proof.
  unfold authn.checkRegistration, registration_allowed. intros H. tx_step H. apply negb_false_iff in Hguard.
  destruct (Transaction_Kind _ == KindLocal) eqn:Ek.
  { apply bool_decide_eq_true in Ek. tx_step H. auto. }
  simpl in H. destruct (tx_ClientID t) as [id|] eqn:Eid; [|tx_step H].
  apply Tx_bind_inl in H as (w1 & c & Hc%replace_error_inl & H). apply GetClient_inl in Hc as (Hdb & row & Hrow & ->).
  apply reject_if_inl in H as [[E1 E2]%orb_false_iff ->]. apply negb_false_iff in E1, E2. apply bool_decide_eq_true in E1.
  split; [done|]. split; [done|]. right. by exists id, row.
Qed.

(** C40: A registration follows the rules.  When [Register] succeeds, the browser's three
    values named a live flow with attempts left; the installation registers users, and
    the flow is local or belongs to an active client that registers users; what is stored
    is a fresh, active account with the role of a user that obeys the account rules; its
    session is stored under the digest of the returned cookie, and the flow's
    pre-authentication session is consumed. *)
Theorem register_sound gate input now w w' issued :
  db_ok (w_db w) → authn.Register s gate input now w = (w', inl issued) →
  ∃ p t prepared,
    live_flow (authn.RegisterInput_PreAuthToken input) (authn.RegisterInput_CSRFToken input) (authn.RegisterInput_TransactionToken input)
      now (w_db w) p t ∧ pa_AttemptCount p < 5 ∧ registration_allowed t (w_db w) ∧
    account_fields (PreparedUser_User prepared) ∧ User_Status (PreparedUser_User prepared) = identity_StatusActive ∧
    User_Role (PreparedUser_User prepared) = RoleUser ∧ users (w_db w) !! User_ID (PreparedUser_User prepared) = None ∧
    users (w_db w') !! User_ID (PreparedUser_User prepared) = Some (user_row prepared) ∧
    (∃ row, login_sessions (w_db w') !! SR_ID (Issued_Record issued) = Some row ∧ ls_UserID row = User_ID (PreparedUser_User prepared) ∧
       ls_TokenHash row = HashToken (Issued_Token issued) ∧ ls_RevokedAt row = None) ∧
    preauth_spent (pa_ID p) (w_db w').
Proof.
  intros Hok H. unfold authn.Register in H. apply flow_reserved in H as [(p & t & w1 & Hlf & Hc & Hdb1 & Hok1 & H)|(e & [=] & _)]; [|done].
  apply Tx_bind_inl in H as (w2 & [x|e] & [Hall _]%attempt_inl & H); [|by apply rejected_inr in H].
  apply checkRegistration_inl in Hall as [Hdb2 Hall].
  apply Tx_bind_inl in H as (w3 & [prepared|e] & [Hp _]%attempt_inl & H); [|by apply rejected_inr in H].
  apply PrepareUser_inl in Hp as (Hdb3 & Hf & Hst & Hro & _ & _). simpl in H.
  tx_step H. rename a into fresh.
  apply Tx_bind_inl in H as (w4 & events & (s4 & _ & ->)%lift_sysrand_inl & H).
  apply Tx_bind_inl in H as (w5 & [y|e] & [Hcm _]%attempt_inl & H); [|by destruct (e == _); [apply rejected_inr in H|]].
  injection H as <- <-. apply NewAuthenticated_hash in Hmint as [Hth Hus].
  assert (Hdb4 : w_db (with_sysrand s4 w0) = reserved p (w_db w)) by (simpl; congruence).
  apply CommitRegistration_inl in Hcm as [_ Hnew [Hacc _] (q & _ & _ & Hq) _ Hsess _]; [|congruence].
  rewrite Hdb4 in Hnew, Hacc. rewrite Hdb1 in Hall. exists p, t, prepared. do 7 (split; [done|]). split; [rewrite Hacc; apply lookup_insert_eq|]. split.
  - exists (session_row (Issued_Record fresh)). rewrite Hsess. split; [apply lookup_insert_eq|]. done.
  - unfold preauth_spent. rewrite Hq. intros k r [[<- <-]|[Hne _]]%lookup_insert_Some Hk; [by eexists|by subst k].
Qed.
End theorems.

(** ** An account is registered and signs in *)

Definition demo_authn : authn.Service := authn.mkService demo_identity demo_manager demo_flow true.
Definition no_begin : authn.BeginResult :=
  authn.mkBeginResult "" (mapAuthTransaction demo_transaction) (mkIssuedPreAuth "" "" demo_preauth).
Definition begun (mode : string) (db : DB) (seed : nat) : DB * authn.BeginResult :=
  let '(w, r) := authn.Begin demo_authn mode "" "req-1" t0 (world_of db seed) in
  (w_db w, match r with inl b => b | inr _ => no_begin end).
Definition register_input (b : authn.BeginResult) : authn.RegisterInput :=
  authn.mkRegisterInput (IssuedPreAuth_Token (authn.BeginResult_PreAuth b)) (IssuedPreAuth_CSRFToken (authn.BeginResult_PreAuth b))
    (authn.BeginResult_TransactionToken b) demo_account "" "agent" (Addr4 [203; 0; 113; 9]%N) "req-2".
Definition login_input (b : authn.BeginResult) (identifier password : string) : authn.LoginInput :=
  authn.mkLoginInput (IssuedPreAuth_Token (authn.BeginResult_PreAuth b)) (IssuedPreAuth_CSRFToken (authn.BeginResult_PreAuth b))
    (authn.BeginResult_TransactionToken b) identifier password "" "agent" (Addr4 [203; 0; 113; 9]%N) "req-3".

Definition register_form : DB * authn.BeginResult := Eval vm_compute in begun authn.BeginRegister demo_db 0.
Lemma register_db_ok : db_ok register_form.1.
Proof. apply db_okb_spec. by vm_compute. Qed.

Lemma register_sound_witness : ∃ w' issued,
  authn.Register demo_authn None (register_input register_form.2) (t0 + Time.Second) (world_of register_form.1 50) = (w', inl issued) ∧
  ∃ row, login_sessions (w_db w') !! SR_ID (Issued_Record issued) = Some row ∧ ls_RevokedAt row = None.
Proof.
  destruct (succeeds_run (authn.Register demo_authn None (register_input register_form.2) (t0 + Time.Second)) (world_of register_form.1 50))
    as (w' & issued & H); [by vm_compute|]. exists w', issued. split; [exact H|].
  destruct (register_sound demo_authn None _ _ _ w' issued (world_ok _ _ register_db_ok) H)
    as (p & t & u & _ & _ & _ & _ & _ & _ & _ & _ & (row & Hr & _ & _ & Hn) & _).
  exists row. split; [exact Hr|exact Hn].
Defined.

(** The login form, after the registration. *)
Definition login_form : DB * authn.BeginResult := Eval vm_compute in
  begun authn.BeginLogin
    (w_db (authn.Register demo_authn None (register_input register_form.2) (t0 + Time.Second) (world_of register_form.1 50)).1) 100.
Lemma login_db_ok : db_ok login_form.1.
Proof. apply db_okb_spec. by vm_compute. Qed.
Definition right_login : authn.LoginInput := login_input login_form.2 "BOB@example.com " demo_password.
Definition wrong_login : authn.LoginInput := login_input login_form.2 "bob.smith" "wrong".
Definition login_at : time := t0 + 2 * Time.Second.

Lemma login_sound_witness : ∃ w' issued user,
  authn.Login demo_authn None None right_login login_at (world_of login_form.1 150) = (w', inl (issued, user)) ∧
  ∃ u, User_Username user = u_Username u ∧ u_Status u = identity_StatusActive.
Proof.
  destruct (succeeds_run (authn.Login demo_authn None None right_login login_at) (world_of login_form.1 150)) as (w' & [issued user] & H); [by vm_compute|].
  exists w', issued, user. split; [exact H|].
  destruct (login_sound demo_authn None None _ _ _ w' issued user (world_ok _ _ login_db_ok) H)
    as (p & t & n & u & c & _ & _ & _ & _ & Hu & _ & -> & _).
  exists u. split; [exact eq_refl|exact Hu].
Defined.

(** One wrong guess, then the right password. *)
Lemma wrong_then_right : let first := try_run demo_authn (TryLogin None None wrong_login) login_at (world_of login_form.1 150) in
  answered first.2 ∧ answered (try_run demo_authn (TryLogin None None right_login) login_at (world_of (w_db first.1) 200)).2.
Proof. vm_compute. split; [|done]. intros [?|[?|?]]; discriminate. Qed.
Lemma login_attempts_bounded_witness : ∃ n db',
  guessing demo_authn (HashToken (authn.LoginInput_PreAuthToken right_login)) (w_db (world_of login_form.1 150)) (S (S n)) db' ∧ (S (S n) ≤ 5)%nat.
Proof.
  destruct wrong_then_right as [H1 H2].
  destruct (try_run demo_authn (TryLogin None None wrong_login) login_at (world_of login_form.1 150)) as [w1 r1] eqn:E1.
  destruct (try_run demo_authn (TryLogin None None right_login) login_at (world_of (w_db w1) 200)) as [w2 r2] eqn:E2.
  cbn [fst snd] in H1, H2. rewrite E2 in H2. cbn [snd] in H2.
  pose proof (guess_try demo_authn _ (TryLogin None None right_login) login_at _ w2 r2 0 _ eq_refl E2 H2 (guess_none _ _ _)) as G2.
  pose proof (guess_try demo_authn _ (TryLogin None None wrong_login) login_at _ w1 r1 1 _ eq_refl E1 H1 G2) as G1.
  exists 0%nat, (w_db w2). split; [exact G1|]. exact (login_attempts_bounded demo_authn _ _ _ _ (world_ok _ _ login_db_ok) G1).
Defined.

(** Nobody has the name. *)
Definition unknown_login : authn.LoginInput := login_input login_form.2 "nobody" demo_password.
Definition form_preauth : option PreauthSessionRow :=
  find_row (λ r, pa_TokenHash r == HashToken (authn.LoginInput_PreAuthToken unknown_login)) (preauth_sessions login_form.1).
Definition form_transaction : option AuthTransactionRow :=
  find_row (λ r, tx_TokenHash r == authflow.HashToken (authn.LoginInput_TransactionToken unknown_login)) (auth_transactions login_form.1).
Lemma unknown_flow : ∃ p t, login_flow unknown_login login_at login_form.1 p t ∧ timestamp login_at < pa_ExpiresAt p ∧ pa_AttemptCount p < 5.
Proof.
  destruct form_preauth as [p|] eqn:Hp; [|by vm_compute in Hp]. destruct form_transaction as [t|] eqn:Ht; [|by vm_compute in Ht].
  exists p, t. pose proof Hp as Hp'. pose proof Ht as Ht'. vm_compute in Hp', Ht'. injection Hp' as Ep. injection Ht' as Et.
  split; [split; [split; vm_compute; reflexivity|exact Hp| | | |exact Ht| |]|]; rewrite <- ?Ep, <- ?Et; vm_compute; try split; reflexivity.
Qed.
Lemma login_uniform_refusal_witness : ∃ w' e,
  authn.Login demo_authn None None unknown_login login_at (world_of login_form.1 150) = (w', inr e) ∧
  (e = identity_ErrInvalidCredentials ∨ e = go_panic) ∧ w_compared w' = [demo_phc].
Proof.
  destruct unknown_flow as (p & t & Hf & Hx & Ha).
  destruct (identity.Verify demo_hasher None demo_password demo_phc) as [[ok rehash]|e] eqn:Hv; [|by vm_compute in Hv].
  assert (Hn : login_record "nobody" login_form.1 = None) by by vm_compute.
  refine (login_uniform_refusal demo_authn None None unknown_login login_at (world_of login_form.1 150) p t ok rehash
    eq_refl (world_ok _ _ login_db_ok) Hf Hx Ha _ _).
  - change (login_record _ _) with (login_record "nobody" login_form.1). rewrite Hn. exact Hv.
  - change (login_record _ _) with (login_record "nobody" login_form.1). rewrite Hn. intros r [=].
Defined.
