(* ===== verification/ClientTheorems.v ===== *)
(** * The client registry service: the theorems

    Whatever the service stores passed its URI and scope rules; a secret is handed out
    once and is, until the next rotation, exactly what authenticates the client. *)

From S2P Require Import Prelude Text Sha256 Base64 Errors Platform Pagination Scopes Domain SessionTokens NetAddr Url.
From S2P Require Import AuditEvents Database Queries RegistryQueries Tx StoreCommon ServiceCommon ClientStore.
From S2P Require Import Invariants RegistryInvariants StatementFacts Quiet Writes Lifecycle ServiceSteps TokenService AuthorizationService.
From S2P Require Import SessionProofs FlowService IdentityService ClientService Demo RegistryTheorems.

(** ** Canonical lists *)

Lemma append_new_keep last l : Forall (λ v, v ≠ "") l → client.append_new last l = authflow.keep_distinct last l.
Proof.
  intros Hl. revert last. induction Hl as [|v l Hv Hl IH]; intros last; simpl; [done|].
  rewrite (bool_decide_eq_false_2 (v = "")) by done. simpl. destruct (last == Some v); [apply IH|by rewrite IH].
Qed.

Lemma client_canonical_spec l :
  StronglySorted string_le (client.canonical l) ∧ NoDup (client.canonical l) ∧
  ∀ x, x ∈ client.canonical l ↔ (∃ y, y ∈ l ∧ x = TrimSpace y) ∧ x ≠ "".
Proof.
  unfold client.canonical. set (k := List.filter _ _).
  assert (Hk : ∀ x, x ∈ k ↔ (∃ y, y ∈ l ∧ x = TrimSpace y) ∧ x ≠ "").
  { intros x. unfold k. rewrite list_elem_of_In, filter_In, <- list_elem_of_In, list_elem_of_fmap.
    rewrite negb_true_iff, bool_decide_eq_false. split; [intros [(y & -> & Hy) Hne]|intros [(y & Hy & ->) Hne]]; split; try done; by exists y. }
  rewrite append_new_keep.
  - destruct (authflow.canonicalStrings_spec k) as (H1 & H2 & H3). split; [exact H1|]. split; [exact H2|].
    intros x. change (authflow.keep_distinct None (sort_Strings k)) with (authflow.canonicalStrings k). rewrite H3, Hk. tauto.
  - apply Forall_forall. intros x Hx. rewrite elem_of_sort_Strings in Hx. apply Hk in Hx. by destruct Hx.
Qed.

(** ** URIs and scopes *)

(** Where a browser may be sent: https, or http on the local host when allowed; a plain
    host, no credentials, no fragment, no wildcard. *)
Definition secure_uri (allowLoopback : bool) (raw : string) : Prop :=
  len raw <= 2048 ∧ contains_byte "*" raw = false ∧ ∃ u, Url.Parse raw = Some u ∧ URL_Host u ≠ "" ∧ URL_User u = None ∧ URL_Fragment u = "" ∧
  (URL_Scheme u = "https" ∨ allowLoopback = true ∧ URL_Scheme u = "http" ∧
     (EqualFold (Hostname u) "localhost" = true ∨ ∃ ip, ParseIP (Hostname u) = Some ip ∧ IsLoopback ip = true)).

Lemma validateURI_secure raw allow : client.validateURI raw allow = None → secure_uri allow raw.
Proof.
  unfold client.validateURI, secure_uri. next_guard E1. rewrite !orb_false_iff in E1. destruct E1 as [[[[_ E1] _] E2] _].
  destruct (Url.Parse raw) as [u|]; [|done]. next_guard E3. rewrite !orb_false_iff in E3. destruct E3 as [[[[_ E3] E4] E5] _].
  apply Z.ltb_ge in E1. apply negb_false_iff in E4, E5. apply bool_decide_eq_true in E4, E5. apply bool_decide_eq_false in E3.
  intros H. split; [done|]. split; [done|]. exists u. split; [done|]. split; [done|]. split; [done|]. split; [done|].
  destruct (URL_Scheme u == "https") eqn:Es; [left; by apply bool_decide_eq_true in Es|]. right. revert H. next_guard E6.
  apply orb_false_iff in E6 as [E6 E7]. apply negb_false_iff in E6, E7. apply bool_decide_eq_true in E6.
  destruct (EqualFold _ _); [intros _; split; [done|]; split; [done|by left]|]. destruct (ParseIP _) as [ip|]; [|done].
  destruct (IsLoopback ip) eqn:El; [|done]. intros _. split; [done|]. split; [done|]. right. by exists ip.
Qed.

Definition uris_ok (allow required : bool) (uris : list string) : Prop :=
  Forall (secure_uri allow) uris ∧ NoDup uris ∧ (length uris ≤ 32)%nat ∧ (required = true → uris ≠ []).

Lemma validateURIs_inl field values allow required uris :
  client.validateURIs field values allow required = inl uris → uris_ok allow required uris.
Proof.
  unfold client.validateURIs. next_guard E1. next_guard E2. intros H. injection H as <-. apply orb_false_iff in E1 as [E1 E3].
  apply Nat.ltb_ge in E3. destruct (client_canonical_spec values) as (_ & Hn & _). split_and!; [|done|done|].
  - apply Forall_forall. intros x Hx. apply validateURI_secure. apply dec_stable. intros Hne.
    apply not_true_iff_false in E2. apply E2. apply existsb_exists. exists x. split; [by apply list_elem_of_In|].
    apply negb_true_iff. by apply bool_decide_eq_false.
  - intros -> Hnil. by rewrite Hnil in E1.
Qed.

Section service.
Context {P : Platform} (s : client.Service).

Record profile_ok (uris logouts scopes : list string) : Prop := {
  po_redirects : uris_ok (client.allowHTTPOnLoopback s) true uris;
  po_logouts : uris_ok (client.allowHTTPOnLoopback s) false logouts;
  po_scopes : "openid" ∈ scopes ∧ (∀ x, x ∈ scopes → x ∈ client.allowedScopes s) }.

Lemma contains_elem l x : StronglySorted string_le l → client.contains l x = true → x ∈ l.
Proof. intros _ H. unfold client.contains in H. apply andb_true_iff in H as [_ H]. apply bool_decide_eq_true in H. by eapply list_elem_of_lookup_2. Qed.

Lemma validateScopes_inl values scopes :
  client.validateScopes s values = inl scopes → "openid" ∈ scopes ∧ (∀ x, x ∈ scopes → x ∈ client.allowedScopes s).
Proof.
  unfold client.validateScopes. next_guard E1. next_guard E2. next_guard E3. intros H. injection H as <-.
  apply orb_false_iff in E3 as [_ E3]. apply negb_false_iff in E3. destruct (client_canonical_spec values) as (Hs & _ & _).
  split; [by apply contains_elem|]. intros x Hx. apply dec_stable. intros Hne. apply not_true_iff_false in E2. apply E2.
  apply existsb_exists. exists x. split; [by apply list_elem_of_In|]. apply negb_true_iff. by apply bool_decide_eq_false.
Qed.

Lemma validateProfile_inl name description logo redirects logouts scopes p :
  client.validateProfile s name description logo redirects logouts scopes = inl p →
  profile_ok (client.Profile_RedirectURIs p) (client.Profile_LogoutURIs p) (client.Profile_Scopes p).
Proof.
  unfold client.validateProfile. next_guard E1. next_guard E2. next_guard E3.
  destruct (client.validateURIs "redirect_uris" _ _ _) as [r|] eqn:Er; [|done]. apply validateURIs_inl in Er.
  destruct (client.validateURIs "logout_uris" _ _ _) as [l|] eqn:El; [|done]. apply validateURIs_inl in El.
  destruct (client.validateScopes s scopes) as [c|] eqn:Ec; [|done]. apply validateScopes_inl in Ec. intros H. injection H as <-. by split.
Qed.

Lemma newSecret_inl clientID now r r' p :
  client.newSecret clientID now r = (r', inl p) →
  client.validSecret p.1 = true ∧ ∃ id, p.2 = mkSecretRecord id clientID (client.HashSecret p.1) now.
Proof.
  unfold client.newSecret, client.randomValue. intros (r1 & clear & (r2 & b & (Hl & _ & Hb)%ReadFull_inl & [= _ <-])%Rnd_bind_inl & H)%Rnd_bind_inl.
  apply Rnd_bind_inl in H as (r3 & id & _ & H). injection H as _ <-. cbn [fst snd]. split; [|by exists id].
  pose proof (str_take_length _ _ Hl) as Hlen. rewrite <- Hb in Hlen. clear Hb Hl.
  unfold client.validSecret, HasPrefix. rewrite prefix_app, TrimPrefix_app, Base64.DecodeString_Encode. unfold len. by rewrite Hlen.
Qed.

Lemma prepareCreate_inl input now w w' c secret clear :
  client.prepareCreate s input now w = (w', inl (c, secret, clear)) →
  w_db w' = w_db w ∧ profile_ok (Client_RedirectURIs c) (Client_LogoutURIs c) (Client_Scopes c) ∧ Client_Status c = client_StatusActive ∧
  (Client_Type c = TypePublic ∧ secret = None ∧ clear = "" ∨
   Client_Type c = TypeConfidential ∧ client.validSecret clear = true ∧ ∃ id, secret = Some (mkSecretRecord id (Client_ID c) (client.HashSecret clear) now)).
Proof.
  unfold client.prepareCreate. intros H. tx_step H. apply Tx_bind_inl in H as (w1 & p & [Hp ->]%or_error_inl & H).
  apply validateProfile_inl in Hp. tx_step H. tx_step H. destruct (client.CreateInput_Type input == TypePublic) eqn:Et.
  - apply bool_decide_eq_true in Et. tx_step H. split; [done|]. split; [done|]. split; [done|]. by left.
  - tx_step H. tx_step H. apply newSecret_inl in Hmint1 as [Hv Hr]. split; [done|]. split; [done|]. split; [done|]. right.
    apply andb_false_iff in Hguard as [E|E]; apply negb_false_iff in E; [congruence|]. apply bool_decide_eq_true in E.
    split; [done|]. split; [done|]. destruct Hr as [id ->]. by exists id.
Qed.

Lemma prepareUpdate_inl existing input now c changed :
  client.prepareUpdate s existing input now = inl (c, changed) →
  profile_ok (Client_RedirectURIs c) (Client_LogoutURIs c) (Client_Scopes c) ∧ Client_ID c = Client_ID existing ∧
  Client_ClientID c = Client_ClientID existing ∧ Client_Type c = Client_Type existing ∧
  Client_TokenEndpointAuthMethod c = Client_TokenEndpointAuthMethod existing ∧ Client_Version c = Client_Version existing ∧ changed ≠ [].
Proof.
  unfold client.prepareUpdate. repeat match goal with |- context [let '(_, _) := ?x in _] => destruct x end.
  next_guard E1. destruct (client.validateProfile s _ _ _ _ _ _) as [p|] eqn:Ep; [|done]. apply validateProfile_inl in Ep.
  next_guard E2. intros H. injection H as <- <-. split; [done|]. do 5 (split; [done|]). intros E. by rewrite E in E2.
Qed.

(** ** The stored registry *)

(** Every redirect and logout URI in the tables is one a browser may be sent to, and every
    scope is a supported one. *)
Record registry_secure (db : DB) : Prop := {
  rs_redirects : map_Forall (λ k _, secure_uri (client.allowHTTPOnLoopback s) k.2) (oidc_client_redirect_uris db);
  rs_logouts : map_Forall (λ k _, secure_uri (client.allowHTTPOnLoopback s) k.2) (oidc_client_logout_uris db);
  rs_scopes : map_Forall (λ k _, k.2 ∈ client.allowedScopes s) (oidc_client_scopes db) }.

Lemma added_Forall (Q : string → Prop) id now values t :
  Forall Q values → map_Forall (λ k _, Q k.2) t → map_Forall (λ k _, Q k.2) (added_children id now values t).
Proof.
  intros Hv Ht k x. rewrite lookup_added_children. case_bool_decide as E; [|apply Ht].
  intros _. rewrite Forall_forall in Hv. apply Hv, E.
Qed.
Lemma replaced_Forall (Q : string → Prop) id now values t :
  Forall Q values → map_Forall (λ k _, Q k.2) t → map_Forall (λ k _, Q k.2) (replaced_children id now values t).
Proof. intros Hv Ht. apply added_Forall; [done|]. intros k x. rewrite lookup_delete_children. case_bool_decide; [done|apply Ht]. Qed.

Lemma profile_scopes uris logouts scopes : profile_ok uris logouts scopes → Forall (λ x, x ∈ client.allowedScopes s) scopes.
Proof. intros [_ _ [_ H]]. by apply Forall_forall. Qed.

(** What a creation leaves: the row, its URIs and scopes, and its first secret. *)
Definition with_new_client (value : Client) (secret : option SecretRecord) (db : DB) : DB :=
  let now := timestamp (Client_UpdatedAt value) in
  let id := Client_ID value in
  with_oidc_client_secrets
    (match secret with Some x => <[SecretRecord_ID x := secret_row (SecretRecord_ClientID x) x]> (oidc_client_secrets db) | None => oidc_client_secrets db end)
    (with_oidc_client_scopes (added_children id now (Client_Scopes value) (oidc_client_scopes db))
       (with_oidc_client_logout_uris (added_children id now (Client_LogoutURIs value) (oidc_client_logout_uris db))
          (with_oidc_client_redirect_uris (added_children id now (Client_RedirectURIs value) (oidc_client_redirect_uris db))
             (with_oidc_clients (<[id := new_client_row (createClientParams value)]> (oidc_clients db)) db)))).

Lemma create_client_inv value secret event w w' x :
  createClient_tx value secret event w = (w', inl x) →
  oidc_clients (w_db w) !! Client_ID value = None ∧
  (∀ r, secret = Some r → oidc_client_secrets (w_db w) !! SecretRecord_ID r = None) ∧
  ∃ audits, w_db w' = with_audit_events audits (with_new_client value secret (w_db w)).
Proof.
  unfold createClient_tx, replaceClientChildren. intros H. tx_step H. apply insert_row_inl in Hstmt as (_ & -> & _ & _ & _ & Hnew & _).
  apply Tx_bind_inl in H as (v1 & y1 & Hc & H). apply Tx_bind_inl in Hc as (v2 & y2 & [= <- _] & Hc).
  apply Tx_bind_inl in Hc as (v3 & y3 & Hr & Hc). apply (create_children_step _ _ _ _ _ _ _ _ _ _ redirect_table) in Hr as (E2 & _ & _ & _).
  apply Tx_bind_inl in Hc as (v4 & y4 & Hl & Hc). apply (create_children_step _ _ _ _ _ _ _ _ _ _ logout_table) in Hl as (E3 & _ & _ & _).
  apply (create_children_step _ _ _ _ _ _ _ _ _ _ scope_table) in Hc as (E4 & _ & _ & _). rewrite E3, E2, Hdb in E4. simpl in E4, Hnew.
  apply Tx_bind_inl in H as (v5 & y5 & Hs & H). apply insertAudit_step in H as (audits & E6 & _). split; [done|].
  destruct secret as [r|].
  - do 2 tx_step Hs. apply insert_row_inl in Hstmt as (_ & -> & _ & _ & _ & Hn & _). simpl in Hn.
    split; [by intros ? [= <-]|]. exists audits. by rewrite E6, Hdb0.
  - tx_step Hs. split; [done|]. exists audits. rewrite E6, E4. by destruct (w_db w).
Qed.

Lemma created_secure value secret event w w' x :
  profile_ok (Client_RedirectURIs value) (Client_LogoutURIs value) (Client_Scopes value) →
  createClient_tx value secret event w = (w', inl x) → registry_secure (w_db w) → registry_secure (w_db w').
Proof.
  intros Hp (_ & _ & audits & ->)%create_client_inv [H1 H2 H3]. pose proof (profile_scopes _ _ _ Hp) as Hs.
  destruct Hp as [[Hr _] [Hl _] _]. split; simpl;
    [by apply (added_Forall (secure_uri _))|by apply (added_Forall (secure_uri _))|by apply (added_Forall (λ x, x ∈ _))].
Qed.

Lemma updated_secure value event w w' x :
  profile_ok (Client_RedirectURIs value) (Client_LogoutURIs value) (Client_Scopes value) →
  updateClient_tx value event w = (w', inl x) → registry_secure (w_db w) → registry_secure (w_db w').
Proof.
  intros Hp (cur & [_ _ _ _ _ (audits & ->)])%update_client_inv [H1 H2 H3]. pose proof (profile_scopes _ _ _ Hp) as Hs.
  destruct Hp as [[Hr _] [Hl _] _]. destruct (_ || _); split; simpl;
    first [by apply (replaced_Forall (secure_uri _))|by apply (replaced_Forall (λ x, x ∈ _))].
Qed.

(** The operations that change the registry. *)
Inductive RegistryCall :=
| CallCreate (actor : uuid) (input : client.CreateInput)
| CallUpdate (actor id : uuid) (input : client.UpdateInput)
| CallRotate (actor id : uuid).
Definition call_run (c : RegistryCall) (requestID : string) (now : time) : Tx unit :=
  match c with
  | CallCreate actor input => client.Create s actor input requestID now;; mret ()
  | CallUpdate actor id input => client.Update s actor id input requestID now;; mret ()
  | CallRotate actor id => client.RotateSecret actor id requestID now;; mret ()
  end.

#[local] Instance secure_PreOrder : PreOrder (λ db db', registry_secure db → registry_secure db').
Proof. split; [intros db; done|intros a b c; auto]. Qed.
Abbreviation keeps_secure := (tx_rel (λ db db', registry_secure db → registry_secure db')).

Lemma reads_secure {A} (m : Tx A) : reads m → keeps_secure m.
Proof. intros Hm w w' r H. by rewrite (Hm _ _ _ H). Qed.
Lemma commit_secure {A} events (op : Tx A) :
  (∀ w w' x, op w = (w', inl x) → registry_secure (w_db w) → registry_secure (w_db w')) → keeps_secure (inTxWithAudit events op).
Proof. intros Hop w w' r [E|(a & w1 & w2 & E1 & H & E2)]%inTxWithAudit_commits; [by rewrite E|]. rewrite <- E1, <- E2. by apply (Hop _ _ _ H). Qed.

(** C20: The registry holds only what passed the rules.  If every stored redirect URI and
    logout URI is secure and every stored scope supported, the same holds after any call
    of [Create], [Update] or [RotateSecret], whatever it returned. *)
Theorem registry_stays_secure c requestID now w w' r :
  registry_secure (w_db w) → call_run c requestID now w = (w', r) → registry_secure (w_db w').
Proof.
  intros Hs H. revert Hs. refine ((_ : keeps_secure (call_run c requestID now)) _ _ _ H). clear.
  destruct c as [actor input|actor id input|actor id]; simpl; (apply tx_rel_bind; [apply _| |intros; apply tx_rel_ret; apply _]).
  - apply tx_rel_bind_dep; [apply _|apply reads_secure; unfold reads, client.prepareCreate; tx_rel_auto|].
    intros w w1 [[c secret] clear] (_ & Hp & _)%prepareCreate_inl. tx_rel_auto. apply commit_secure. intros. by eapply created_secure.
  - apply tx_rel_bind; [apply _|apply reads_secure, reads_GetClient|]. intros existing.
    apply tx_rel_bind_dep; [apply _|apply reads_secure; unfold reads; tx_rel_auto|].
    intros w w1 [c changed] [(Hp & _)%prepareUpdate_inl _]%or_error_inl. cbv zeta. tx_rel_auto. apply commit_secure. intros. by eapply updated_secure.
  - apply tx_rel_bind; [apply _|apply reads_secure, reads_GetClient|]. intros existing. tx_rel_auto. apply commit_secure.
    intros w2 w3 ? (_ & _ & audits & ->)%rotate_inv [H1 H2 H3]. by split.
Qed.

(** ** Secrets *)

(** The client's secret that is live in the tables, alone. *)
Definition sole_secret (id : uuid) (clear : string) (db : DB) : Prop :=
  ListActiveOIDCClientSecretHashes id db = inl ([client.HashSecret clear], db).

Lemma rotate_sole id secret now event w w' x :
  rotateClientSecret_tx id secret now event w = (w', inl x) →
  ListActiveOIDCClientSecretHashes id (w_db w') = inl ([SecretRecord_SecretHash secret], w_db w').
Proof. intros (_ & Hnew & audits & ->)%rotate_inv. rewrite active_secret_hashes. simpl. by rewrite rotated_live. Qed.

(** A new client has no older secret. *)
Lemma create_sole value r event w w' x :
  db_ok (w_db w) → SecretRecord_ClientID r = Client_ID value → createClient_tx value (Some r) event w = (w', inl x) →
  ListActiveOIDCClientSecretHashes (Client_ID value) (w_db w') = inl ([SecretRecord_SecretHash r], w_db w').
Proof.
  intros Hok Hid (Hnew & Hn & audits & ->)%create_client_inv. rewrite active_secret_hashes. do 2 f_equal.
  specialize (Hn r eq_refl). cbn [oidc_client_secrets with_audit_events with_new_client with_oidc_client_secrets]. rewrite Hid, inserted_live; [done|done|].
  intros k o Ho. destruct (live_secret_of _ o) eqn:E; [|done]. apply andb_true_iff in E as [E _]. apply bool_decide_eq_true in E.
  pose proof (ok_secret_client _ Hok _ _ Ho) as Hg. unfold confidential_secret_guard in Hg. by rewrite E, Hnew in Hg.
Qed.

Lemma HashSecret_len clear : (len (client.HashSecret clear) =? Sha256.Size) = true.
Proof. apply Z.eqb_eq, Sha256.Sum256_length. Qed.

Lemma ValidateSecret_iff id c clear w presented :
  quiet w → db_ok (w_db w) → oidc_clients (w_db w) !! id = Some c → cl_ClientType c = TypeConfidential →
  cl_Status c = client_StatusActive → sole_secret id clear (w_db w) → client.validSecret presented = true →
  (client.HashSecret presented = client.HashSecret clear →
     ∃ w', client.ValidateSecret (cl_ClientID c) presented w = (w', inl (client_of (w_db w) c))) ∧
  (client.HashSecret presented ≠ client.HashSecret clear →
     ∃ w', client.ValidateSecret (cl_ClientID c) presented w = (w', inr client_ErrNotFound)).
Proof.
  intros Hq Hok Hc Hty Hst Hs Hv. destruct (GetClientSecretHashes_run id c _ w Hok Hq Hc Hs) as (w1 & Hg).
  assert (Hrun : client.ValidateSecret (cl_ClientID c) presented w =
    if client.HashSecret presented == client.HashSecret clear then (w1, inl (client_of (w_db w) c)) else (w1, inr client_ErrNotFound)).
  { unfold client.ValidateSecret. rewrite reject_run by (by rewrite Hv). erewrite bind_run; [|by apply replace_error_run, Hg].
    cbv beta iota. rewrite reject_run by (simpl; by rewrite Hty, Hst).
    cbn [existsb]. rewrite orb_false_r, HashSecret_len, andb_true_l. generalize (client.HashSecret presented == client.HashSecret clear). by intros []. }
  rewrite Hrun. split; intros E; [rewrite bool_decide_eq_true_2 by done|rewrite bool_decide_eq_false_2 by done]; by eexists.
Qed.

(** The two operations that hand out a secret, with the client it belongs to. *)
Inductive SecretCall := AtCreation (actor : uuid) (input : client.CreateInput) | AtRotation (actor id : uuid).
Definition hand_out (c : SecretCall) (requestID : string) (now : time) : Tx (uuid * string) :=
  match c with
  | AtCreation actor input =>
      created ← client.Create s actor input requestID now;
      mret (Client_ID (client.Created_Client created), client.Created_Secret created)
  | AtRotation actor id => clear ← client.RotateSecret actor id requestID now; mret (id, clear)
  end.

Lemma hand_out_sole c requestID now w w' id clear :
  db_ok (w_db w) → hand_out c requestID now w = (w', inl (id, clear)) → clear ≠ "" →
  db_ok (w_db w') ∧ client.validSecret clear = true ∧ sole_secret id clear (w_db w') ∧
  ∃ row, oidc_clients (w_db w') !! id = Some row ∧ cl_ClientType row = TypeConfidential.
Proof.
  intros Hok H Hne. destruct c as [actor input|actor cid]; simpl in H; apply Tx_bind_inl in H as (w1 & r & H & [= <- <- <-]).
  - unfold client.Create in H. apply Tx_bind_inl in H as (w2 & [[c secret] clear] & Hp & H).
    apply prepareCreate_inl in Hp as (Hdb & _ & _ & Hcase).
    apply Tx_bind_inl in H as (w3 & event & (s3 & _ & ->)%lift_sysrand_inl & H). apply Tx_bind_inl in H as (w4 & x & Hc & [= <- <-]).
    cbn [client.Created_Client client.Created_Secret] in *. simpl in Hc.
    destruct Hcase as [(_ & _ & Hcl)|(Hty & Hv & sid & ->)]; [done|].
    split; [by apply (run_ok (OpCreateClient _ _ _) _ (λ _ : unit, ResultDone) _ _ _ eq_refl Hc); simpl; rewrite Hdb|]. split; [done|].
    apply inTxWithAudit_inl in Hc as (w5 & w6 & E5 & Hc & E6). simpl in E5. rewrite Hdb in E5. rewrite <- E6. split.
    + refine (create_sole _ _ _ _ _ _ _ _ Hc); [congruence|done].
    + apply create_client_inv in Hc as (_ & _ & audits & ->). exists (new_client_row (createClientParams c)). simpl.
      split; [apply lookup_insert_eq|exact Hty].
  - unfold client.RotateSecret in H. apply Tx_bind_inl in H as (w2 & c & [Hdb _]%GetClient_inl & H). tx_step H. tx_step H.
    apply newSecret_inl in Hmint as [Hv [sid Hr]]. apply Tx_bind_inl in H as (w3 & event & (s3 & _ & ->)%lift_sysrand_inl & H).
    apply Tx_bind_inl in H as (w4 & x & Hc & [= <- <-]). simpl in Hc.
    split; [apply (run_ok (OpRotateSecret _ _ _ _) _ (λ _ : unit, ResultDone) _ _ _ eq_refl Hc); simpl; congruence|]. split; [done|].
    apply inTxWithAudit_inl in Hc as (w5 & w6 & E5 & Hc & E6). rewrite <- E6. split.
    + unfold sole_secret. rewrite (rotate_sole _ _ _ _ _ _ _ Hc), Hr. done.
    + apply rotate_inv in Hc as ((row & Hrow & Hty) & _ & audits & ->). by exists row.
Qed.

(** A secret is what authenticates, and the only one.  The clear secret that [Create]
    or [RotateSecret] hands out has the shape of a secret and belongs to a confidential
    client; as long as nothing changes and the client is active, [ValidateSecret] accepts
    exactly the well-formed values with the digest of that secret, and returns the client;
    every other value is refused as an unknown client. *)
Theorem client_secret_roundtrip c requestID now w w' id clear :
  db_ok (w_db w) → hand_out c requestID now w = (w', inl (id, clear)) → clear ≠ "" →
  client.validSecret clear = true ∧
  ∃ row, oidc_clients (w_db w') !! id = Some row ∧ cl_ClientType row = TypeConfidential ∧
  ∀ w2 presented, quiet w2 → w_db w2 = w_db w' → cl_Status row = client_StatusActive → client.validSecret presented = true →
    (client.HashSecret presented = client.HashSecret clear →
       ∃ w3, client.ValidateSecret (cl_ClientID row) presented w2 = (w3, inl (client_of (w_db w2) row))) ∧
    (client.HashSecret presented ≠ client.HashSecret clear →
       ∃ w3, client.ValidateSecret (cl_ClientID row) presented w2 = (w3, inr client_ErrNotFound)).
Proof.
  intros Hok H Hne. destruct (hand_out_sole _ _ _ _ _ _ _ Hok H Hne) as (Hok' & Hv & Hs & row & Hrow & Hty).
  split; [done|]. exists row. split; [done|]. split; [done|]. intros w2 presented Hq Ew Hst Hp.
  eapply ValidateSecret_iff; by rewrite ?Ew.
Qed.

(** A redirect URI matches byte for byte.  For a client whose registered URIs passed
    the rules, [RedirectURIMatches] accepts a candidate exactly when it is one of them;
    there is no prefix, wildcard or normalizing match. *)
Theorem redirect_match_exact c candidate :
  (∀ u, u ∈ Client_RedirectURIs c → client.validateURI u (client.allowHTTPOnLoopback s) = None) →
  client.RedirectURIMatches s c candidate = true ↔ candidate ∈ Client_RedirectURIs c.
Proof.
  intros Hu. unfold client.RedirectURIMatches. rewrite list_elem_of_In. split.
  - destruct (_ != _); [done|]. intros (u & Hin & E)%existsb_exists. apply bool_decide_eq_true in E. by subst.
  - intros Hin. rewrite (Hu candidate) by (by apply list_elem_of_In). simpl. apply existsb_exists. exists candidate.
    split; [done|]. by apply bool_decide_eq_true.
Qed.
End service.

(** ** A confidential client at the demonstration installation *)

Definition demo_clients : client.Service := client.NewService false.
Definition demo_registration : client.CreateInput :=
  client.mkCreateInput TypeConfidential " Web app " "" "" false ["https://app.example/cb "; "https://app.example/cb"] []
    ["profile"; "openid"].

Lemma client_secret_roundtrip_witness : ∃ w' id clear,
  hand_out demo_clients (AtCreation 1 demo_registration) "req-1" t0 (world_of demo_db 0) = (w', inl (id, clear)) ∧
  client.validSecret clear = true.
Proof.
  assert (Hn : match (hand_out demo_clients (AtCreation 1 demo_registration) "req-1" t0 (world_of demo_db 0)).2 with
               | inl (_, clear) => clear ≠ "" | inr _ => False end) by (vm_compute; discriminate).
  destruct (hand_out demo_clients (AtCreation 1 demo_registration) "req-1" t0 (world_of demo_db 0)) as [w' [[id clear]|e]] eqn:H; [|destruct Hn].
  exists w', id, clear. split; [exact eq_refl|].
  exact (proj1 (client_secret_roundtrip demo_clients _ _ _ _ w' id clear (world_ok _ _ demo_db_ok) H Hn)).
Defined.

Lemma demo_redirect_secure : client.validateURI redirect false = None.
Proof. by vm_compute. Qed.
Lemma demo_secure : registry_secure demo_clients demo_db.
Proof.
  split; simpl.
  - apply map_Forall_singleton. simpl. apply validateURI_secure, demo_redirect_secure.
  - apply map_Forall_empty.
  - repeat (apply map_Forall_insert_2; [simpl; set_solver|]). apply map_Forall_empty.
Qed.

Lemma registry_stays_secure_witness : ∃ w' r,
  call_run demo_clients (CallCreate 1 demo_registration) "req-1" t0 (world_of demo_db 0) = (w', r) ∧ registry_secure demo_clients (w_db w').
Proof.
  destruct (call_run demo_clients (CallCreate 1 demo_registration) "req-1" t0 (world_of demo_db 0)) as [w' r] eqn:H.
  exists w', r. split; [exact eq_refl|]. exact (registry_stays_secure demo_clients _ _ _ (world_of demo_db 0) w' r demo_secure H).
Defined.

Lemma redirect_match_exact_witness :
  client.RedirectURIMatches demo_clients demo_client_value redirect = true ↔ redirect ∈ Client_RedirectURIs demo_client_value.
Proof. apply (redirect_match_exact demo_clients demo_client_value redirect). intros u Hu. apply list_elem_of_singleton in Hu as ->. exact demo_redirect_secure. Defined.
