(* ===== verification/AdminServiceTheorems.v ===== *)
(** * The administration service: the theorems

    What an administrative call changes, it changes for an active administrator; what it
    changes in accounts' privileges or in the client registry, for one that has just
    authenticated. *)

From S2P Require Import Prelude Errors Platform Pagination Scopes Domain Opaque SessionTokens AuditEvents Database Queries.
From S2P Require Import RegistryQueries BrowserQueries Tx StoreCommon ServiceCommon SessionStore LoginStore UserStore ClientStore.
From S2P Require Import Invariants RegistryInvariants StatementFacts Quiet Writes Lifecycle ServiceSteps TokenService.
From S2P Require Import AuthorizationService SessionService SessionProofs FlowService IdentityService ClientService AdminService.
From S2P Require Import Demo SessionTheorems LoginTheorems RegistryTheorems AdminTheorems FlowTheorems IdentityTheorems ClientTheorems.

(** ** What a session revocation leaves alone *)

Definition same_registry (db db' : DB) : Prop :=
  users db' = users db ∧ oidc_clients db' = oidc_clients db ∧ oidc_client_secrets db' = oidc_client_secrets db ∧
  oidc_client_redirect_uris db' = oidc_client_redirect_uris db ∧ oidc_client_logout_uris db' = oidc_client_logout_uris db ∧
  oidc_client_scopes db' = oidc_client_scopes db.

#[local] Instance same_registry_PreOrder : PreOrder same_registry.
Proof. split; unfold same_registry; [by intros db|]. intros a b c. intuition congruence. Qed.

Section service.
Context {P : Platform} {T : TextLibrary} {K : KeyDerivation} (s : admin.Service).

Lemma same_RevokeFamilies t r bs : stmt_rel same_registry (RevokeRefreshTokenFamiliesByBindings t r bs).
Proof. intros db x db' H. apply revoke_families_inl in H as ->. done. Qed.
Lemma same_RevokeAccess t r bs : stmt_rel same_registry (RevokeLiveAccessTokensByBindings t r bs).
Proof. intros db x db' H. apply revoke_live_access_inl in H as ->. done. Qed.
Lemma same_RevokeSession t r id : stmt_rel same_registry (RevokeLoginSessionBindingByID t r id).
Proof. intros db x db' H. apply revoke_session_inl in H as (row & _ & _ & _ & _ & ->). done. Qed.
Lemma same_audit event : stmt_rel same_registry (CreateAuditEvent event).
Proof. intros db x db' H. unfold CreateAuditEvent in H. stmt_cases H; done. Qed.
#[local] Hint Resolve same_RevokeFamilies same_RevokeAccess same_RevokeSession same_audit : tx_rel.

Lemma same_revoke_locked reason now op targets : tx_rel same_registry (revoke_locked reason now op targets).
Proof. induction targets; simpl; tx_rel_auto. Qed.
Lemma same_RevokeAllManagedUserSessions id now event : tx_rel same_registry (UserStore.RevokeAllManagedUserSessions id now event).
Proof.
  unfold UserStore.RevokeAllManagedUserSessions, revokeAllManagedUserSessions_tx, revokeSessionBindingsCascade. tx_rel_auto.
  apply same_revoke_locked.
Qed.
Lemma same_RevokeManagedSession id now event : tx_rel same_registry (UserStore.RevokeManagedSession id now event).
Proof. unfold UserStore.RevokeManagedSession, revokeManagedSession_tx, revokeSessionBindingCascade, revokeSessionBindingsCascade. tx_rel_auto. Qed.

(** ** The guards *)

Definition is_admin (p : Principal) : Prop :=
  User_Status (Principal_User p) = identity_StatusActive ∧ User_Role (Principal_User p) = RoleAdmin.
Definition recently (p : Principal) (now : time) : Prop :=
  0 < admin.reauthWindow s ∧ Principal_AuthenticatedAt p <= now ∧ Time.Sub now (Principal_AuthenticatedAt p) <= admin.reauthWindow s.

Lemma Authorize_None p : admin.Authorize p = None → is_admin p.
Proof.
  unfold admin.Authorize. next_guard E. intros _. apply orb_false_iff in E as [E1 E2]. apply negb_false_iff in E1, E2.
  by apply bool_decide_eq_true in E1, E2.
Qed.
Lemma RequireRecent_None p now : admin.RequireRecent s p now = None → is_admin p ∧ recently p now.
Proof.
  unfold admin.RequireRecent. destruct (admin.Authorize p) eqn:E; [done|]. apply Authorize_None in E. next_guard E1. intros _.
  rewrite !orb_false_iff in E1. destruct E1 as [[E1 E2] E3]. apply Z.leb_gt in E1. apply Z.ltb_ge in E2, E3. done.
Qed.

Lemma guarded {A} e (k : Tx A) w w' r :
  (check e;; k) w = (w', r) → (∃ x, r = inr x ∧ w' = w) ∨ (e = None ∧ k w = (w', r)).
Proof. destruct e as [x|]; [intros [= <- <-]; left; by exists x|]. intros H. by right. Qed.

(** What needs a recent authentication: the client registry, a new administrator, and the
    status or the role of an account. *)
Definition privileged_change (db db' : DB) : Prop :=
  oidc_clients db' ≠ oidc_clients db ∨ oidc_client_secrets db' ≠ oidc_client_secrets db ∨
  oidc_client_redirect_uris db' ≠ oidc_client_redirect_uris db ∨ oidc_client_logout_uris db' ≠ oidc_client_logout_uris db ∨
  oidc_client_scopes db' ≠ oidc_client_scopes db ∨
  (∃ k u, users db !! k = None ∧ users db' !! k = Some u ∧ u_Role u = RoleAdmin) ∨
  (∃ k u u', users db !! k = Some u ∧ users db' !! k = Some u' ∧ (u_Status u' ≠ u_Status u ∨ u_Role u' ≠ u_Role u)).

Lemma same_not_privileged db db' : same_registry db db' → ¬ privileged_change db db'.
Proof.
  intros (Eu & E1 & E2 & E3 & E4 & E5) [H|[H|[H|[H|[H|[H|H]]]]]]; try done.
  - destruct H as (k & u & Hn & Hs & _). congruence.
  - destruct H as (k & u & u' & Hn & Hs & Hd). rewrite Eu in Hs. assert (u' = u) as -> by congruence. by destruct Hd.
Qed.

(** The client tables stayed. *)
Definition same_clients (db db' : DB) : Prop :=
  oidc_clients db' = oidc_clients db ∧ oidc_client_secrets db' = oidc_client_secrets db ∧
  oidc_client_redirect_uris db' = oidc_client_redirect_uris db ∧ oidc_client_logout_uris db' = oidc_client_logout_uris db ∧
  oidc_client_scopes db' = oidc_client_scopes db.

Lemma patch_enum_id field allowed current set input u changed u' changed' :
  (∀ v u, User_ID (set v u) = User_ID u) → identity.patch_enum field allowed current set input u changed = inl (u', changed') →
  User_ID u' = User_ID u.
Proof. unfold identity.patch_enum. intros Hs H. repeat case_match; simplify_eq; done. Qed.

Lemma PrepareUpdate_id existing input now u changed :
  identity.PrepareUpdate existing input now = inl (u, changed) → User_ID u = User_ID existing.
Proof.
  unfold identity.PrepareUpdate. intros H. apply then_inl in H as (u1 & c1 & H1 & H). apply then_inl in H as (u2 & c2 & H2 & H).
  destruct (_ == _); [done|]. apply then_inl in H as (u3 & c3 & H3 & H). apply then_inl in H as (u4 & c4 & H4 & H).
  apply then_inl in H as (u5 & c5 & H5 & H). destruct (c5 == []); [done|]. injection H as <- _.
  transitivity (User_ID u4); [by eapply patch_enum_id in H5|]. transitivity (User_ID u3); [by eapply patch_enum_id in H4|].
  transitivity (User_ID u2); [unfold identity.patch_display_name in H3; repeat case_match; by simplify_eq|].
  transitivity (User_ID u1); [unfold identity.patch_email in H2; repeat case_match; by simplify_eq|].
  unfold identity.patch_username in H1. repeat case_match; by simplify_eq.
Qed.

(** ** The calls *)

Inductive AdminCall :=
| DoListUsers (search : string) (cursor : pagination.Cursor) (limit : Z)
| DoGetUser (id : uuid)
| DoCreateUser (gate : option error) (input : identity.CreateInput) (role : string)
| DoUpdateUser (id : uuid) (input : identity.UpdateInput)
| DoRevokeUserSessions (id : uuid)
| DoCreateClient (input : client.CreateInput)
| DoListClients (cursor : pagination.Cursor) (limit : Z)
| DoGetClient (id : uuid)
| DoUpdateClient (id : uuid) (input : client.UpdateInput)
| DoRotateClientSecret (id : uuid)
| DoListSessions (cursor : pagination.Cursor) (limit : Z)
| DoRevokeSession (id : uuid)
| DoListAudit (eventType : string) (cursor : pagination.Cursor) (limit : Z).

Definition admin_run (c : AdminCall) (p : Principal) (requestID : string) (now : time) : Tx unit :=
  match c with
  | DoListUsers search cursor limit => admin.ListUsers p search cursor limit;; mret ()
  | DoGetUser id => admin.GetUser p id;; mret ()
  | DoCreateUser gate input role => admin.CreateUser s gate p input role requestID now;; mret ()
  | DoUpdateUser id input => admin.UpdateUser s p id input requestID now;; mret ()
  | DoRevokeUserSessions id => admin.RevokeUserSessions p id requestID now;; mret ()
  | DoCreateClient input => admin.CreateClient s p input requestID now;; mret ()
  | DoListClients cursor limit => admin.ListClients p cursor limit;; mret ()
  | DoGetClient id => admin.GetClient p id;; mret ()
  | DoUpdateClient id input => admin.UpdateClient s p id input requestID now;; mret ()
  | DoRotateClientSecret id => admin.RotateClientSecret s p id requestID now;; mret ()
  | DoListSessions cursor limit => admin.ListSessions p cursor limit;; mret ()
  | DoRevokeSession id => admin.RevokeSession p id requestID now;; mret ()
  | DoListAudit eventType cursor limit => admin.ListAudit p eventType cursor limit;; mret ()
  end.

(** The effect of a call is that of its code, and it returned nothing but an error or did
    its work. *)
Lemma call_cases {A} (m : Tx A) w w' (r : unit + error) :
  (m;; mret ()) w = (w', r) → ∃ r', m w = (w', r') ∧ (∀ x, r' = inr x → r = inr x).
Proof. intros [(w1 & a & H & [= <- <-])|(e & -> & H)]%bind_cases; eexists; split; [exact H|done|exact H|by intros x [= ->]]. Qed.

Lemma passed {A} e (k : Tx A) w w' (r : unit + error) :
  ((check e;; k);; mret ()) w = (w', r) → r = inl () ∨ w_db w' ≠ w_db w → e = None ∧ ∃ r', k w = (w', r').
Proof.
  intros (r1 & H & Hr)%call_cases Hd. apply guarded in H as [(x & -> & ->)|[He H]]; [|split; [done|by exists r1]].
  specialize (Hr x eq_refl). subst r. by destruct Hd.
Qed.

(** A run that makes no such change, as a relation that composes. *)
Definition keeps_privilege (o o' : option UserRow) : Prop :=
  match o, o' with
  | Some u, Some u' => u_Status u' = u_Status u ∧ u_Role u' = u_Role u
  | Some _, None => False
  | None, Some u => u_Role u ≠ RoleAdmin
  | None, None => True
  end.
Definition unprivileged (db db' : DB) : Prop := same_clients db db' ∧ ∀ k, keeps_privilege (users db !! k) (users db' !! k).

#[local] Instance unprivileged_PreOrder : PreOrder unprivileged.
Proof.
  unfold unprivileged, same_clients. split.
  - intros db. split; [done|]. intros k. by destruct (users db !! k).
  - intros x y z [H1 U1] [H2 U2]. split; [intuition congruence|]. intros k. specialize (U1 k). specialize (U2 k).
    destruct (users x !! k), (users y !! k), (users z !! k); simpl in *; try done; intuition congruence.
Qed.
Lemma unprivileged_spec db db' : unprivileged db db' → ¬ privileged_change db db'.
Proof.
  intros [(E1 & E2 & E3 & E4 & E5) U] [H|[H|[H|[H|[H|[H|H]]]]]]; try done.
  - destruct H as (k & u & Hn & Hs & Hr). specialize (U k). by rewrite Hn, Hs in U.
  - destruct H as (k & u & u' & Hn & Hs & Hd). specialize (U k). rewrite Hn, Hs in U. destruct U as [U1 U2]. by destruct Hd.
Qed.
Lemma same_unprivileged db db' : same_registry db db' → unprivileged db db'.
Proof. intros (Eu & H). split; [exact H|]. intros k. rewrite Eu. by destruct (users db !! k). Qed.
Lemma one_user_unprivileged db db' id row :
  same_clients db db' → users db' = <[id := row]> (users db) → keeps_privilege (users db !! id) (Some row) → unprivileged db db'.
Proof.
  intros Hc Eu Hk. split; [done|]. intros k. rewrite Eu. destruct (decide (k = id)) as [->|Hne].
  - by rewrite lookup_insert_eq.
  - rewrite lookup_insert_ne by done. by destruct (users db !! k).
Qed.

Lemma CreateManagedUser_unprivileged prepared event :
  User_Role (PreparedUser_User prepared) ≠ RoleAdmin → tx_rel unprivileged (UserStore.CreateManagedUser prepared event).
Proof.
  intros Hr w w' r [E|(x & w1 & w2 & <- & H & <-)]%inTxWithAudit_commits; [by rewrite E|]. unfold createManagedUser_tx in H.
  apply Tx_bind_inl in H as (w5 & y5 & Hl & H). apply lockAndCheckIdentifiers_step in Hl as (Hdb5 & _ & _ & _).
  apply Tx_bind_inl in H as (w6 & y6 & Hl & H). apply createUser_step in Hl as (Hn & Hdb6 & _). rewrite Hdb5 in Hn, Hdb6.
  apply insertAudit_step in H as (audits & -> & _). rewrite Hdb6.
  eapply (one_user_unprivileged _ _ (User_ID (PreparedUser_User prepared))); [done|reflexivity|]. by rewrite Hn.
Qed.

Lemma CreateUser_unprivileged gate input role p requestID now :
  role ≠ RoleAdmin → tx_rel unprivileged (admin.CreateUser s gate p input role requestID now).
Proof.
  intros Hr. unfold admin.CreateUser. rewrite (bool_decide_eq_false_2 (role = RoleAdmin)) by done.
  apply tx_rel_bind; [apply _|tx_rel_auto|]. intros _. apply tx_rel_bind; [apply _|tx_rel_auto|]. intros _.
  apply tx_rel_bind_dep; [apply _|unfold identity.PrepareUser; tx_rel_auto|]. intros w w1 u (_ & _ & _ & Hro & _)%PrepareUser_inl.
  tx_rel_auto. apply CreateManagedUser_unprivileged. congruence.
Qed.

Lemma UpdateManagedUser_unprivileged commit cur w w' r :
  db_ok (w_db w) → users (w_db w) !! User_ID (UpdateUser_Updated commit) = Some cur →
  User_Status (UpdateUser_Updated commit) = u_Status cur → User_Role (UpdateUser_Updated commit) = u_Role cur →
  UserStore.UpdateManagedUser commit w = (w', r) → unprivileged (w_db w) (w_db w').
Proof.
  intros Hok Hcur Hst Hro [E|(x & w1 & w2 & E1 & H & <-)]%inTxWithAudit_commits; [by rewrite E|]. rewrite <- E1 in *.
  apply update_user_inv in H as (cur' & bs & [Hf _ _ _ _ _ (audits & ->)]); [|done]. assert (cur' = cur) as -> by congruence.
  eapply (one_user_unprivileged _ _ (User_ID (UpdateUser_Updated commit)) (updated_user_row (update_user_params (UpdateUser_Updated commit)) cur)).
  - by destruct (disabled_user _), (UpdateUser_RevokeSessions commit).
  - by destruct (disabled_user _), (UpdateUser_RevokeSessions commit).
  - by rewrite Hf.
Qed.

Lemma GetUser_inl id w w' u :
  UserStore.GetUser id w = (w', inl u) → w_db w' = w_db w ∧ ∃ row, users (w_db w) !! id = Some row ∧ u = mapUser row.
Proof. unfold UserStore.GetUser. intros H. do 2 tx_step H. split; [done|]. by eexists. Qed.

Lemma unprivileged_eq db db' : db' = db → unprivileged db db'.
Proof. intros ->. reflexivity. Qed.

Lemma UpdateUser_privileged p id input requestID now w w' r :
  db_ok (w_db w) → admin.UpdateUser s p id input requestID now w = (w', r) →
  recently p now ∨ unprivileged (w_db w) (w_db w').
Proof.
  intros Hok H. unfold admin.UpdateUser in H. apply guarded in H as [(x & _ & ->)|[_ H]]; [by right|].
  apply bind_cases in H as [(w1 & existing & Hg & H)|(e & _ & H)]; [|right; apply unprivileged_eq; symmetry; exact (reads_GetUser _ _ _ _ H)].
  apply GetUser_inl in Hg as (Hdb1 & row & Hrow & ->).
  apply bind_cases in H as [(w2 & [updated changed] & [Hp ->]%or_error_inl & H)|(e & _ & H)].
  2: { right. apply unprivileged_eq. destruct (identity.PrepareUpdate _ _ _); [done|]. by injection H as <- _. }
  destruct (_ || _) eqn:Er.
  { apply guarded in H as [(x & _ & ->)|[He _]]; [right; by apply unprivileged_eq|]. left. exact (proj2 (RequireRecent_None _ _ He)). }
  right. apply orb_false_iff in Er as [E1 E2]. apply negb_false_iff in E1, E2. apply bool_decide_eq_true in E1, E2.
  apply bind_cases in H as [(w3 & x & [= <- _] & H)|(e & _ & [=])].
  apply bind_cases in H as [(w3 & event & (s3 & _ & ->)%lift_sysrand_inl & H)|(e & _ & H)].
  2: { apply unprivileged_eq. rewrite <- Hdb1. symmetry. exact (tx_rel_lift_sysrand eq _ _ _ _ H). }
  apply bind_cases in H as [(w4 & ev & [= <- _] & H)|(e & _ & [=])]. simpl in H.
  assert (Hid : User_ID updated = id). { apply PrepareUpdate_id in Hp. rewrite Hp. by apply (proj1 (ok_users _ Hok)) in Hrow. }
  rewrite <- Hdb1. refine (UpdateManagedUser_unprivileged _ row (with_sysrand s3 w1) w' r _ _ _ _ H); simpl; [congruence..|exact (eq_sym E1)|exact (eq_sym E2)].
Qed.

(** The calls that ask for a recent authentication before anything else. *)
Definition sensitive (c : AdminCall) : bool :=
  match c with DoCreateClient _ | DoUpdateClient _ _ | DoRotateClientSecret _ => true | _ => false end.

Lemma reads_keep {A} (m : Tx A) : reads m → tx_rel unprivileged m.
Proof. intros Hm w w' r H. rewrite (Hm _ _ _ H). reflexivity. Qed.
Lemma same_keep {A} (m : Tx A) : tx_rel same_registry m → tx_rel unprivileged m.
Proof. intros Hm w w' r H. exact (same_unprivileged _ _ (Hm _ _ _ H)). Qed.
#[local] Hint Resolve reads_keep same_keep same_RevokeAllManagedUserSessions same_RevokeManagedSession : tx_rel.

Lemma call_privileged c p requestID now w w' r :
  db_ok (w_db w) → sensitive c = false → admin_run c p requestID now w = (w', r) →
  recently p now ∨ unprivileged (w_db w) (w_db w').
Proof.
  intros Hok Es H.
  destruct c as [search cursor limit|id|gate input role|id input|id|input|cursor limit|id|id input|id|cursor limit|id|ty cursor limit];
    try discriminate Es; simpl in H.
  3: { destruct (decide (role = RoleAdmin)) as [->|Hne].
       - apply call_cases in H as (r1 & H & _). apply guarded in H as [(x & _ & ->)|[_ H]]; [right; reflexivity|].
         apply guarded in H as [(x & _ & ->)|[He _]]; [right; reflexivity|]. left. exact (proj2 (RequireRecent_None _ _ He)).
       - right. apply call_cases in H as (r1 & H & _). exact (CreateUser_unprivileged gate input role p requestID now Hne _ _ _ H). }
  3: { apply call_cases in H as (r1 & H & _). exact (UpdateUser_privileged _ _ _ _ _ _ _ _ Hok H). }
  all: right; refine ((_ : tx_rel unprivileged _) _ _ _ H);
    unfold admin.ListUsers, admin.GetUser, admin.RevokeUserSessions, admin.ListClients, admin.GetClient, admin.ListSessions,
      admin.RevokeSession, admin.ListAudit, client.List_, client.Get; simpl; tx_rel_auto; eauto with tx_rel reads.
Qed.

(** C19: Administration is for administrators, and its sensitive part for administrators
    who have just authenticated.  A call that succeeds, or that changes any table at all,
    was made by an active principal with the administrator's role; if it changed the
    client registry, a client secret, the status or role of an account, or created an
    administrator, the principal authenticated within the configured window. *)
Theorem admin_calls_guarded c p requestID now w w' r :
  db_ok (w_db w) → admin_run c p requestID now w = (w', r) → r = inl () ∨ w_db w' ≠ w_db w →
  is_admin p ∧ (privileged_change (w_db w) (w_db w') → recently p now).
Proof.
  intros Hok H Hd. destruct (sensitive c) eqn:Es.
  - destruct c as [| | | | |input| | |id input|id| | |]; try discriminate Es; simpl in H; apply passed in H as [He _]; try done;
      destruct (RequireRecent_None _ _ He); done.
  - split.
    + destruct c; try discriminate Es; simpl in H; apply passed in H as [He _]; try done; by apply Authorize_None.
    + intros Hp. destruct (call_privileged c p requestID now w w' r Hok Es H) as [Hr|Hu]; [done|]. by apply unprivileged_spec in Hu.
Qed.
End service.

(** ** An administrator disables an account *)

Definition demo_admin_service : admin.Service := admin.mkService demo_identity demo_clients (15 * Time.Minute).
Definition demo_principal : Principal :=
  mkPrincipal 60 61 (mapUser demo_admin) "" (t0 + Time.Hour) t0 t0 t0 (t0 + Time.Hour) (t0 + Time.Hour) None.
Definition demo_disabling : AdminCall := DoUpdateUser 1 (identity.mkUpdateInput None None None (Some "disabled") None).

Lemma admin_calls_guarded_witness : ∃ w',
  admin_run demo_admin_service demo_disabling demo_principal "req-9" (t0 + 10 * Time.Minute) (world_of admin_db 60) = (w', inl ()) ∧
  is_admin demo_principal.
Proof.
  destruct (succeeds_run (admin_run demo_admin_service demo_disabling demo_principal "req-9" (t0 + 10 * Time.Minute)) (world_of admin_db 60))
    as (w' & [] & H); [by vm_compute|].
  exists w'. split; [exact H|].
  exact (proj1 (admin_calls_guarded demo_admin_service _ _ _ _ _ _ _ (world_ok _ _ admin_db_ok) H (or_introl eq_refl))).
Defined.
