(* ===== verification/LogoutServiceTheorems.v ===== *)
(** * The logout service: the theorems

    A logout redirects only to a URI an active client has registered, named by a verified
    hint; and only once the browser's session is gone. *)

From S2P Require Import Prelude Text Sha256 Base64 Errors Platform Scopes Domain Opaque SessionTokens Url AuditEvents Database Queries.
From S2P Require Import RegistryQueries BrowserQueries Tx StoreCommon ServiceCommon SessionStore LogoutStore ClientStore.
From S2P Require Import Invariants RegistryInvariants StatementFacts Quiet Writes Lifecycle ServiceSteps TokenService.
From S2P Require Import AuthorizationService SessionService SessionProofs FlowService IdentityService ClientService LogoutService.
From S2P Require Import Demo SessionTheorems LogoutTheorems ClientTheorems.

(** ** The state parameter *)

Lemma Split_not_nil c s : Split c s ≠ [].
Proof. destruct s as [|d s]; simpl; [done|]. destruct (Ascii.eqb d c); [done|]. by destruct (Split c s). Qed.
Lemma Split_snoc q x : contains_byte "&" x = false → Split "&" (q +:+ String "&" x) = Split "&" q ++ [x].
Proof.
  intros Hx. induction q as [|c q IH]; simpl; [by rewrite (Split_none _ x)|].
  rewrite IH. destruct (Ascii.eqb c "&"); [done|]. pose proof (Split_not_nil "&" q). by destruct (Split "&" q).
Qed.

Lemma Cut_found c s t : contains_byte c s = true → (Cut c (s +:+ t)).1.2 = (Cut c s).1.2 +:+ t.
Proof.
  unfold contains_byte. rewrite negb_true_iff. induction s as [|d s IH]; simpl; [done|].
  rewrite (Ascii.eqb_sym c d). destruct (Ascii.eqb d c); simpl; [done|]. intros H. specialize (IH H).
  destruct (Cut c (s +:+ t)) as [[a b] e], (Cut c s) as [[a' b'] e']. done.
Qed.

Definition state_setting (state : string) : string := setting ("state", state).
Lemma state_setting_eq state : state_setting state = "state=" +:+ QueryEscape state.
Proof. done. Qed.

Lemma ParseQuery_snoc q state values :
  ParseQuery q = (values, true) → Count "&" q + 2 <= maxQueryParams →
  ParseQuery (q +:+ String "&" (state_setting state)) = (values_add values "state" state, true).
Proof.
  unfold ParseQuery. intros H Hc. assert (Hn : contains_byte "&" (state_setting state) = false) by (by apply setting_no).
  rewrite Count_app. cbn [Count]. rewrite (Count_none _ (state_setting state)) by done. rewrite (proj2 (Z.ltb_ge _ _)) in H by lia.
  change (Ascii.eqb "&" "&") with true. rewrite (proj2 (Z.ltb_ge _ _)) by lia.
  rewrite Split_snoc, fold_left_app' by done. rewrite H. cbn [fold_left]. apply (parse_setting_setting _ _ ("state", state)).
Qed.
Lemma ParseQuery_one state : ParseQuery (state_setting state) = (values_add ∅ "state" state, true).
Proof.
  unfold ParseQuery. assert (Hn : contains_byte "&" (state_setting state) = false) by (by apply setting_no).
  rewrite Count_none by done. rewrite (proj2 (Z.ltb_ge _ _)) by (unfold maxQueryParams; lia). rewrite Split_none by done.
  cbn [fold_left]. apply (parse_setting_setting _ _ ("state", state)).
Qed.

(** The state arrives: the query of the location is the query of the URI and the state. *)
Lemma appendState_delivers uri state values :
  state ≠ "" → ParseQuery (query_of uri) = (values, true) → values !! "state" = None → Count "&" (query_of uri) + 2 <= maxQueryParams →
  ParseQuery (query_of (logout.appendState uri state)) = (<["state" := [state]]> values, true).
Proof.
  intros Hs Hq Hn Hc. unfold logout.appendState. rewrite bool_decide_eq_false_2 by done.
  assert (Hadd : values_add values "state" state = <["state" := [state]]> values) by (unfold values_add, values_at; by rewrite Hn).
  rewrite <- state_setting_eq. destruct (contains_byte "?" uri) eqn:Eq; unfold query_of in *.
  - rewrite Cut_found by done. rewrite <- Hadd. by apply ParseQuery_snoc.
  - change ("?" +:+ state_setting state) with (String "?" (state_setting state)). rewrite Cut_app by done.
    cbn [fst snd]. rewrite ParseQuery_one, <- Hadd. f_equal.
    rewrite Cut_none in Hq by done. by injection Hq as <-.
Qed.

(** ** Resolving clients *)

Section service.
Context {P : Platform} {C : TokenCodec} {H : logout.HintCodec} (s : logout.Service).

(** An active client of the registry, as the row and the value callers see. *)
Definition active_client (db : DB) (row : OidcClientRow) (c : Client) : Prop :=
  oidc_clients db !! cl_ID row = Some row ∧ c = client_of db row ∧ cl_Status row = client_StatusActive.

Lemma activeClientRecord_active c : activeClientRecord c = true → Client_Status c = client_StatusActive.
Proof. unfold activeClientRecord. intros E. apply andb_true_iff in E as [E _]. apply andb_true_iff in E as [_ E]. by apply bool_decide_eq_true in E. Qed.

Lemma GetActive_inl id w w' c :
  keyed cl_ID (oidc_clients (w_db w)) → client.GetActive id w = (w', inl c) → w_db w' = w_db w ∧ ∃ row, cl_ID row = id ∧ active_client (w_db w) row c.
Proof.
  intros Hok. unfold client.GetActive. intros E. tx_step E. apply Tx_bind_inl in E as (w1 & v & Hv%replace_error_inl & E).
  apply GetClient_inl in Hv as (Hdb & row & Hrow & ->). do 2 tx_step E. apply negb_false_iff, activeClientRecord_active in Hguard0.
  split; [done|]. pose proof (Hok _ _ Hrow) as Hid. simpl in Hid. exists row. split; [done|]. by split; [rewrite Hid|].
Qed.

Lemma ResolveActive_inl public w w' c :
  db_ok (w_db w) → client.ResolveActive public w = (w', inl c) →
  w_db w' = w_db w ∧ ∃ row, cl_ClientID row = public ∧ active_client (w_db w) row c.
Proof.
  intros Hok. unfold client.ResolveActive. intros E. tx_step E. apply Tx_bind_inl in E as (w1 & v & Hv%replace_error_inl & E).
  apply GetClientByPublicID_inl in Hv as (Hdb & row & Hrow & ->). do 2 tx_step E. apply negb_false_iff, activeClientRecord_active in Hguard0.
  apply find_row_Some in Hrow as [Hp [k Hk]]. apply bool_decide_eq_true in Hp. pose proof (proj1 (ok_clients _ Hok) _ _ Hk) as Hid. simpl in Hid. subst k.
  split; [done|]. exists row. by split.
Qed.

Lemma ResolveActive_reads public : reads (client.ResolveActive public).
Proof. unfold reads, client.ResolveActive. simpl. tx_rel_auto. apply tx_rel_replace_error; [apply _|]. apply reads_GetClientByPublicID. Qed.

Lemma exactLogoutURI_true c uri : logout.exactLogoutURI c uri = true → uri ≠ "" ∧ uri ∈ Client_LogoutURIs c.
Proof.
  unfold logout.exactLogoutURI. destruct (_ || _) eqn:E; [done|]. intros (u & Hin & Eu)%existsb_exists. apply bool_decide_eq_true in Eu. subst u.
  rewrite !orb_false_iff in E. destruct E as [[E _] _]. apply bool_decide_eq_false in E. by rewrite list_elem_of_In.
Qed.

Lemma hasDecodedStateKey_false uri :
  logout.hasDecodedStateKey uri = false → contains_byte "#" uri = false →
  ∃ values, ParseQuery (query_of uri) = (values, true) ∧ values !! "state" = None.
Proof.
  unfold logout.hasDecodedStateKey. intros E Hh. destruct (Url.Parse uri) as [u|] eqn:Ep; [|done]. apply Parse_query in Ep; [|done].
  rewrite Ep in E. destruct (_ != _); [done|]. destruct (ParseQuery (query_of uri)) as [values ok]. destruct ok; [|done]. simpl in E.
  exists values. split; [done|]. unfold Has in E. by apply bool_decide_eq_false, eq_None_not_Some in E.
Qed.

(** Where the browser goes: the registered URI, with the state as one more setting of
    its query. *)
Definition carries (uri state location : string) : Prop :=
  location = logout.appendState uri state ∧
  (state ≠ "" → contains_byte "#" uri = false → Count "&" (query_of uri) + 2 <= maxQueryParams →
   ∃ values, ParseQuery (query_of uri) = (values, true) ∧ values !! "state" = None ∧
     ParseQuery (query_of location) = (<["state" := [state]]> values, true)).

Lemma carries_state uri state :
  (state == "") || negb (logout.hasDecodedStateKey uri) = true → carries uri state (logout.appendState uri state).
Proof.
  intros E. split; [done|]. intros Hs Hh Hc. apply orb_true_iff in E as [E|E]; [by apply bool_decide_eq_true in E|].
  apply negb_true_iff, hasDecodedStateKey_false in E as (values & Hq & Hn); [|done]. exists values.
  split; [done|]. split; [done|]. by apply appendState_delivers.
Qed.

Lemma delivered_inl candidate w w' location :
  db_ok (w_db w) → logout.delivered candidate w = (w', inl location) → location ≠ "" →
  w_db w' = w_db w ∧ ∃ row c, Candidate_VerifiedClientID candidate = Some (cl_ID row) ∧ active_client (w_db w) row c ∧
    Candidate_PostLogoutRedirectURI candidate ∈ Client_LogoutURIs c ∧
    carries (Candidate_PostLogoutRedirectURI candidate) (Candidate_State candidate) location.
Proof.
  intros Hok E Hne. unfold logout.delivered in E. destruct (Candidate_VerifiedClientID candidate) as [id|]; [|by injection E as _ <-].
  destruct (Candidate_PostLogoutRedirectURI candidate != ""); [|by injection E as _ <-].
  apply Tx_bind_inl in E as (w1 & r & [Hr _]%attempt_inl & E). injection E as <- <-.
  destruct r as [c|]; [|done]. apply GetActive_inl in Hr as (Hdb & row & <- & Hc); [|by apply ok_clients_key].
  destruct (_ && _) eqn:Eg; [|done]. apply andb_true_iff in Eg as [Eu Es]. apply exactLogoutURI_true in Eu as [_ Eu].
  split; [done|]. exists row, c. split; [done|]. split; [done|]. split; [done|]. by apply carries_state.
Qed.

(** A logout redirects only where a client is registered, and only after the session
    is gone.  When [Complete] returns a location, the user confirmed, the session of the
    browser is revoked in the tables, and the transaction behind the lookup cookie names a
    client that is still active in the registry and one of its registered logout URIs; the
    location is that URI, and the state is delivered as one more setting of its query. *)
Theorem logout_location_safe lookup csrfProof decision principal requestID now w w' c :
  db_ok (w_db w) → logout.Complete lookup csrfProof decision principal requestID now w = (w', inl c) → logout.Completion_Location c ≠ "" →
  decision = DecisionConfirm ∧ logout.Completion_Confirmed c = true ∧
  (∃ row, login_sessions (w_db w') !! Principal_SessionID principal = Some row ∧ is_Some (ls_RevokedAt row)) ∧
  ∃ h t row v, logout.DigestLookupToken lookup = Some h ∧
    find_row (λ r, lo_LookupHash r == h) (logout_transactions (w_db w)) = Some t ∧
    lo_VerifiedClientID t = Some (cl_ID row) ∧ active_client (w_db w') row v ∧
    valueString (lo_PostLogoutRedirectUri t) ∈ Client_LogoutURIs v ∧
    carries (valueString (lo_PostLogoutRedirectUri t)) (valueString (lo_StateValue t)) (logout.Completion_Location c).
Proof.
  intros Hok E Hne. unfold logout.Complete in E. destruct (logout.DigestLookupToken lookup) as [h|]; [|by destruct (logout.DigestCSRFProof csrfProof)].
  destruct (logout.DigestCSRFProof csrfProof) as [h2|]; [|done]. tx_step E.
  apply Tx_bind_inl in E as (w1 & candidate & Hc & E). simpl in Hc. pose proof (complete_ok _ _ _ _ Hok Hc) as Hok1.
  destruct (Candidate_Confirmed candidate) eqn:Econf; simpl in E; [|by injection E as _ <-].
  apply Tx_bind_inl in E as (w2 & location & Hd & [= <- <-]). simpl in Hne.
  apply delivered_inl in Hd as (Hdb2 & row & v & Hid & Hv & Hin & Hcar); [|done|done].
  destruct (CompleteLogout_cases _ _ _ _ Hok Hc) as [(o & Ho & [<-|[d [=]]])|[_ (e & [=] & _)]].
  inversion Ho as [t row0 audits Hcf Hcs Hdec E1 E2|t row0 Hcf Hcs Hdec E1 E2|]; subst candidate; simpl in *; [|done].
  destruct Hcf as [Hrow _ _ _ _ _ _ _ Hs _ _ _ _ _]. simpl in Hrow, Hs, Hdec.
  split; [done|]. split; [done|]. split.
  - eexists. rewrite Hdb2, <- E2. simpl. rewrite (session_key _ _ _ Hok Hs), lookup_insert_eq. split; [done|by eexists].
  - exists h, t, row, v. rewrite Hdb2. done.
Qed.

(** ** The hint *)

(** A hint this issuer signed: one signature, RS256, under the one public key the header
    names, on claims of this issuer for one audience, not older than the configured age
    (or not yet expired). *)
Record verified_hint (compact : string) (now : time) (claims : IDTokenClaims) : Prop := {
  vh_signed : ∃ header key payload, ParseSignedCompact compact = Some [header] ∧ Header_Algorithm header = "RS256" ∧
    matching_keys (Header_KeyID header) = [key] ∧ Verify compact key = Some payload ∧ logout.Decode_IDTokenClaims payload = Some claims;
  vh_issuer : ID_Issuer claims = logout.issuer s;
  vh_audience : ID_Audience claims ≠ "" ∧ ID_AuthorizedParty claims = ID_Audience claims;
  vh_issued : time_Unix (ID_IssuedAt claims) <= now + logout.clockSkew s;
  vh_fresh : now <= time_Unix (ID_ExpiresAt claims) + logout.clockSkew s ∨
             now <= time_Unix (ID_IssuedAt claims) + logout.hintMaxAge s + logout.clockSkew s }.

Lemma verifyHint_Some compact now claims : logout.verifyHint s compact now = Some claims → verified_hint compact now claims.
Proof.
  unfold logout.verifyHint. next_guard E1. destruct (Base64.DecodeString _) as [hb|]; [|done]. next_guard E2.
  destruct (ParseSignedCompact compact) as [[|header [|]]|] eqn:Ep; try done. next_guard E3. apply negb_false_iff in E3.
  destruct (matching_keys _) as [|key [|]] eqn:Ek; try done. destruct (Verify compact key) as [payload|] eqn:Ev; [|done]. next_guard E4.
  destruct (logout.Decode_IDTokenClaims payload) as [c|] eqn:Ed; [|done]. destruct (logout.hint_claims_ok s c now) eqn:Ec; [|done].
  intros [= <-]. unfold logout.hint_claims_ok in Ec. apply andb_true_iff in Ec as [Ec Ef]. apply negb_true_iff in Ec. rewrite !orb_false_iff in Ec.
  destruct Ec as [[[[[[[[[[E5 E6] E7] _] _] _] _] _] _] _] E8]. apply negb_false_iff in E5, E7. apply bool_decide_eq_true in E5, E7.
  apply bool_decide_eq_false in E6. unfold Time.After, Time.Add in *. apply Z.ltb_ge in E8.
  unfold logout.hint_header_ok in E3. rewrite !andb_true_iff in E3. destruct E3 as [[[[E3 _] _] _] _]. apply bool_decide_eq_true in E3.
  split; [by exists header, key, payload|done|done|done|].
  apply orb_true_iff in Ef as [Ef|Ef]; apply negb_true_iff, Z.ltb_ge in Ef; auto.
Qed.

(** The redirect authority of a started logout. *)
Definition hint_redirect (input : logout.StartInput) (db : DB) (t : LogoutTransaction) : Prop :=
  (LT_VerifiedClientID t = None ∧ LT_PostLogoutRedirectURI t = "") ∨
  ∃ claims row v, verified_hint (logout.StartInput_IDTokenHint input) (logout.StartInput_Now input) claims ∧
    cl_ClientID row = ID_Audience claims ∧ active_client db row v ∧ LT_VerifiedClientID t = Some (cl_ID row) ∧
    (logout.StartInput_ClientID input = "" ∨ logout.StartInput_ClientID input = ID_Audience claims) ∧
    LT_HintSubject t = ID_Subject claims ∧
    (LT_PostLogoutRedirectURI t ≠ "" → LT_PostLogoutRedirectURI t = logout.StartInput_PostLogoutRedirectURI input ∧
       LT_PostLogoutRedirectURI t ∈ Client_LogoutURIs v).

Lemma hint_authority_inl input t w w' r :
  db_ok (w_db w) → LT_VerifiedClientID t = None → LT_PostLogoutRedirectURI t = "" →
  logout.hint_authority s input (logout.StartInput_Now input) t w = (w', inl r) →
  w_db w' = w_db w ∧ ∃ t', r = Some t' ∧ hint_redirect input (w_db w) t' ∧ LT_LookupHash t' = LT_LookupHash t.
Proof.
  intros Hok H1 H2. unfold logout.hint_authority, hint_redirect.
  destruct (logout.verifyHint _ _ _) as [claims|] eqn:Eh; [|intros [= <- <-]; eauto 8].
  destruct (_ || _) eqn:Ec; [|intros [= <- <-]; eauto 8]. intros E.
  apply Tx_bind_inl in E as (w1 & res & [Hr _]%attempt_inl & E). destruct res as [c|e].
  2: { destruct (e == client_ErrNotFound) eqn:Ee; [|done]. apply bool_decide_eq_true in Ee as ->. injection E as <- <-.
       split; [|eauto 8]. symmetry. exact (ResolveActive_reads _ _ _ _ Hr). }
  simpl in Hr. apply ResolveActive_inl in Hr as (Hdb & row & Hrow & Hact); [|done].
  assert (Hid : Client_ID c = cl_ID row ∧ Client_ClientID c = ID_Audience claims) by (by destruct Hact as (_ & -> & _)). destruct Hid as [Hid Hpub].
  rewrite bool_decide_eq_true_2 in E by done. apply verifyHint_Some in Eh. rewrite orb_true_iff, !bool_decide_eq_true in Ec.
  destruct (_ && _) eqn:Eg; injection E as <- <-; (split; [done|]); (eexists; split; [done|]); (split; [right|done]); exists claims, row, c;
    (do 3 (split; [done|])); (split; [simpl; by rewrite Hid|]); (split; [done|]); (split; [done|]).
  - apply andb_true_iff in Eg as [Eu _]. apply exactLogoutURI_true in Eu. simpl. naive_solver.
  - simpl. by rewrite H2.
Qed.

Lemma logout_secret prefix digest r r' p :
  every visible_byte prefix = true → logout.newSecret prefix digest r = (r', inl p) →
  logout.validSecret p.1 prefix = true ∧ p.2 = digest p.1.
Proof.
  intros Hp. unfold logout.newSecret. intros (r1 & b & (Hl & _ & Hb)%ReadFull_inl & [= _ <-])%Rnd_bind_inl. cbn [fst snd]. split; [|done].
  pose proof (str_take_length _ _ Hl) as Hlen. rewrite <- Hb in Hlen. clear Hb Hl.
  unfold logout.validSecret, HasPrefix. rewrite TrimSpace_visible by (by apply token_visible).
  rewrite prefix_app, TrimPrefix_app, Base64.DecodeString_Encode, (bool_decide_eq_true_2 _ eq_refl). unfold len. by rewrite Hlen.
Qed.

Lemma CreateLogoutTransaction_inl t w w' x :
  LogoutStore.CreateLogoutTransaction t w = (w', inl x) → logout_transactions (w_db w') = <[LT_ID t := logout_row t]> (logout_transactions (w_db w)).
Proof. unfold LogoutStore.CreateLogoutTransaction. intros E. do 3 tx_step E. apply insert_row_inl in Hstmt as (_ & -> & _). by rewrite Hdb. Qed.

(** C21: Only a verified hint gives a logout the authority to redirect.  What [Start] stores
    under the digest of the lookup cookie it returns names a client only if the hint was
    signed by this issuer, for that client, which is active, and is fresh; and it names a
    redirect only if that is the requested URI and the client registered it.  Every other
    logout is local: no client, no redirect. *)
Theorem logout_start_authority input w w' i :
  db_ok (w_db w) → logout.Start s input w = (w', inl i) →
  hint_redirect input (w_db w) (logout.Issued_Transaction i) ∧
  logout.DigestLookupToken (logout.Issued_LookupToken i) = Some (LT_LookupHash (logout.Issued_Transaction i)) ∧
  logout_transactions (w_db w') !! LT_ID (logout.Issued_Transaction i) = Some (logout_row (logout.Issued_Transaction i)).
Proof.
  intros Hok E. unfold logout.Start in E. tx_step E. tx_step E.
  destruct a0 as [lookup hash]. cbv beta iota zeta in E.
  apply logout_secret in Hmint as [Hv Hh]; [|done]. cbn [fst snd] in Hv, Hh.
  apply Tx_bind_inl in E as (w1 & id & (r1 & _ & ->)%lift_rand_inl & E). cbv zeta in E.
  apply Tx_bind_inl in E as (w3 & authority & Ha & E).
  assert (Hok2 : db_ok (w_db w0)) by congruence. apply hint_authority_inl in Ha as (Hdb3 & t & -> & Hr & Hlt); [|done|done|done].
  apply Tx_bind_inl in E as (w4 & x & Hc & [= <- <-]). apply CreateLogoutTransaction_inl in Hc. cbn [logout.Issued_Transaction logout.Issued_LookupToken].
  simpl in Hr. rewrite Hdb in Hr. split; [done|]. split.
  - unfold logout.DigestLookupToken. rewrite Hv, Hlt. simpl. by rewrite Hh.
  - rewrite Hc. apply lookup_insert_eq.
Qed.
End service.

(** ** Witnesses *)

(** The header of the demonstration codec is the token type alone; a payload is the list
    of its fields. *)
Definition demo_id_claims (payload : bytes) : option IDTokenClaims :=
  fields ← mapM Base64.DecodeString (split_on "," payload);
  match fields with
  | [iss; sub; aud; azp; exp; iat; auth_time] =>
      exp ← read_Z exp; iat ← read_Z iat; auth_time ← read_Z auth_time;
      Some (mkIDTokenClaims iss sub aud azp exp iat auth_time "" None None None None)
  | _ => None
  end.
Definition demo_hint_codec : logout.HintCodec := {|
  logout.Object_Members payload :=
    if payload == "JWT" then Some [("alg", "RS256"); ("kid", "demo-key"); ("typ", "JWT")] else Some [("claims", payload)];
  logout.Unmarshal_string := Some;
  logout.Decode_IDTokenClaims := demo_id_claims |}.
#[local] Existing Instance demo_hint_codec.

Definition logout_service : logout.Service := logout.mkService "https://issuer.example" (10 * Time.Minute) Time.Hour (30 * Time.Second) 5.
Definition logout_uri : string := "https://app.example/bye?lang=en".
Definition relying_client : OidcClientRow :=
  mkOidcClientRow 2 ("ois_cli_" +:+ Base64.Encode (byte_run 24)) "public" "none" "App" "" None "active" true t0 t0 1.
Definition relying_db : DB :=
  with_oidc_client_logout_uris {[ (2%N, logout_uri) := t0 ]} (with_oidc_clients {[ 2%N := relying_client ]} demo_db).
Definition relying_payload : bytes :=
  join_with "," (Base64.Encode <$> ["https://issuer.example"; u_Subject demo_user; cl_ClientID relying_client; cl_ClientID relying_client;
                                    show_Z 1700000300; show_Z 1700000000; show_Z 1700000000]).
Definition relying_input : logout.StartInput :=
  logout.mkStartInput (demo_compact relying_payload "JWT") "" "" logout_uri "a state" "" (t0 + Time.Minute).
Definition relying_start : World * (logout.Issued + error) := logout.Start logout_service relying_input (world_of relying_db 3).
Definition relying_lookup : string := match relying_start.2 with inl i => logout.Issued_LookupToken i | inr _ => "" end.
Definition relying_principal : Principal :=
  mkPrincipal 4 5 (mapUser demo_user) (hash_of "c") (t0 + Time.Hour) t0 t0 t0 (t0 + 8 * Time.Hour) (t0 + Time.Hour) None.
Definition relying_bind : World * (logout.Bound + error) :=
  logout.Bind logout_service relying_lookup relying_principal (t0 + 2 * Time.Minute) (world_of (w_db relying_start.1) 17).
Definition relying_proof : string := match relying_bind.2 with inl b => logout.Bound_CSRFProof b | inr _ => "" end.
Definition relying_bound_db : DB := w_db relying_bind.1.
Definition relying_complete : Tx logout.Completion :=
  logout.Complete relying_lookup relying_proof DecisionConfirm relying_principal "req-9" (t0 + 3 * Time.Minute).

Lemma relying_db_ok : db_ok relying_db.
Proof. apply db_okb_spec. vm_compute. exact eq_refl. Qed.
Lemma relying_bound_db_ok : db_ok relying_bound_db.
Proof. apply db_okb_spec. vm_compute. exact eq_refl. Qed.

Lemma logout_start_authority_witness : ∃ w' i,
  logout.Start logout_service relying_input (world_of relying_db 3) = (w', inl i) ∧
  hint_redirect logout_service relying_input relying_db (logout.Issued_Transaction i).
Proof.
  destruct (succeeds_run (logout.Start logout_service relying_input) (world_of relying_db 3)) as (w' & i & H); [vm_compute; exact eq_refl|].
  exists w', i. split; [exact H|]. exact (proj1 (logout_start_authority logout_service relying_input _ w' i (world_ok _ _ relying_db_ok) H)).
Defined.

(** The same run, to its end: the redirect is delivered with the state in its query. *)
Definition relying_location : string := "https://app.example/bye?lang=en&state=a+state".
Lemma relying_completes : relying_complete (world_of relying_bound_db 41) =
  ((relying_complete (world_of relying_bound_db 41)).1, inl (logout.mkCompletion true relying_location)).
Proof. rewrite (surjective_pairing (relying_complete _)) at 1. apply (f_equal2 pair eq_refl). vm_compute. exact eq_refl. Qed.

Lemma logout_location_safe_witness : ∃ w' row,
  relying_complete (world_of relying_bound_db 41) = (w', inl (logout.mkCompletion true relying_location)) ∧
  login_sessions (w_db w') !! 4%N = Some row ∧ is_Some (ls_RevokedAt row).
Proof.
  destruct (logout_location_safe _ _ _ _ _ _ _ _ _ (world_ok _ 41 relying_bound_db_ok) relying_completes ltac:(discriminate))
    as (_ & _ & (row & Hrow) & _).
  exists (relying_complete (world_of relying_bound_db 41)).1, row. split; [exact relying_completes|exact Hrow].
Defined.

(** What [appendState] does when the registered URI ends in a bare fragment mark: the
    registry takes such a URI, and the state lands after the mark. *)
Example state_after_fragment_mark :
  client.validateURI "https://app.example/cb#" false = None ∧ logout.hasDecodedStateKey "https://app.example/cb#" = false ∧
  logout.appendState "https://app.example/cb#" "s" = "https://app.example/cb#?state=s".
Proof. vm_compute. repeat split. Qed.
