(* ===== verification/EndpointTheorems.v ===== *)
(** * The protocol requests and endpoints: the theorems

    What the reader of authorization requests accepts, the browser flow accepts as it is;
    the authorization endpoint sends a browser to a hosted form or to a registered redirect
    URI and nowhere else; a silent request never meets a form; a code enters the tables only
    for a live, fresh session and with consent; the back channel answers clients that proved
    themselves only. *)

From S2P Require Import Prelude Text Sha256 Base64 Errors Platform Scopes Domain Opaque SessionTokens Url AuditEvents.
From S2P Require Import Database Queries RegistryQueries BrowserQueries Tx StoreCommon ServiceCommon AuthorizationStore.
From S2P Require Import ConsentStore SessionStore FlowStore LogoutStore ClientStore Invariants RegistryInvariants.
From S2P Require Import StatementFacts Writes Lifecycle Quiet ServiceSteps TokenService AuthorizationService.
From S2P Require Import SessionService FlowService IdentityService AuthnService ClientService AdminService LogoutService Requests.
From S2P Require Import Endpoints Demo CredentialTheorems AuthorizationTheorems SessionTheorems RegistryTheorems FlowTheorems.
From S2P Require Import IdentityTheorems AuthnTheorems ClientTheorems LogoutServiceTheorems.
Import httpserver.
(** ** The reader of authorization requests *)

Section authorize.
Context {P : Platform} (clients : client.Service).
#[local] Instance resolver : oidc.ClientResolver := oidc.client_resolver clients.

(** The redirect URI is one an active client registered, byte for byte, and well formed. *)
Definition registered_redirect (db : DB) (uri : string) (v : Client) : Prop :=
  ∃ row, active_client db row v ∧ activeClientRecord v = true ∧ uri ∈ Client_RedirectURIs v ∧ client.validateURI uri (client.allowHTTPOnLoopback clients) = None.

Lemma ResolveActive_record public w w' v : client.ResolveActive public w = (w', inl v) → activeClientRecord v = true.
Proof.
  unfold client.ResolveActive. intros E. tx_step E. apply Tx_bind_inl in E as (w1 & c & _ & E). do 2 tx_step E. by apply negb_false_iff in Hguard0.
Qed.

Lemma RedirectURIMatches_true v uri :
  client.RedirectURIMatches clients v uri = true → uri ∈ Client_RedirectURIs v ∧ client.validateURI uri (client.allowHTTPOnLoopback clients) = None.
Proof.
  unfold client.RedirectURIMatches. destruct (client.validateURI _ _ != None) eqn:E; [done|]. apply negb_false_iff, bool_decide_eq_true in E.
  intros (u & Hin & Eu)%existsb_exists. apply bool_decide_eq_true in Eu. subst u. by rewrite list_elem_of_In.
Qed.

(** What the request asked for, read from its query. *)
Definition query_values (rawQuery : string) : Values := (ParseQuery rawQuery).1.
Definition one_value (values : Values) (name value : string) : Prop := values_at values name = [value].

(** The state that goes back: the request's, or none. *)
Definition echoed_state (values : Values) (state : string) : Prop := state = "" ∨ one_value values "state" state.

Lemma many_one values name : oidc.many values name = 1 → one_value values name (Get values name).
Proof. unfold oidc.many, one_value, Get. destruct (values_at values name) as [|x [|]]; [done|done|]. simpl. lia. Qed.

Lemma ParseAuthorizationRequest_inl rawQuery w w' r :
  db_ok (w_db w) → oidc.ParseAuthorizationRequest rawQuery w = (w', inl r) →
  w_db w' = w_db w ∧
  ((∃ code status, r = inr (oidc.localAuthorizationError code status)) ∨
   ∃ v state uri, registered_redirect (w_db w) uri v ∧ one_value (query_values rawQuery) "client_id" (Client_ClientID v) ∧
     one_value (query_values rawQuery) "redirect_uri" uri ∧ echoed_state (query_values rawQuery) state ∧
     (state = "" ∨ oidc.validOpaqueParameter state = true) ∧
     ((∃ code, r = inr (oidc.trustedError uri state code) ∧ oidc.verify_parameters (query_values rawQuery) v uri state = inr code) ∨
      (∃ x, r = inl x ∧ oidc.verify_parameters (query_values rawQuery) v uri state = inl x))).
Proof.
  intros Hok. unfold oidc.ParseAuthorizationRequest, query_values. destruct (_ || _); [intros [= <- <-]; eauto|].
  destruct (ParseQuery rawQuery) as [values ok]. simpl. destruct (_ || _); [intros [= <- <-]; eauto|].
  destruct (_ || _) eqn:E1; [intros [= <- <-]; eauto|]. rewrite !orb_false_iff in E1. destruct E1 as [[[E1 _] E2] _].
  apply negb_false_iff, bool_decide_eq_true in E1, E2. intros E.
  apply Tx_bind_inl in E as (w1 & res & [Hr _]%attempt_inl & [= <- <-]). simpl in Hr. destruct res as [v|e].
  2: { split; [symmetry; exact (ResolveActive_reads _ _ _ _ Hr)|]. left. by destruct (e == client_ErrNotFound); do 2 eexists. }
  pose proof (ResolveActive_record _ _ _ _ Hr) as Hrec. apply ResolveActive_inl in Hr as (Hdb & row & Hrow & Hact); [|done]. split; [done|].
  destruct (client.RedirectURIMatches _ _ _) eqn:Em; simpl; [|left; eauto]. right.
  apply RedirectURIMatches_true in Em as [Hin Hv].
  set (state := if (oidc.many values "state" == 1) && oidc.validOpaqueParameter (Get values "state") then Get values "state" else "").
  exists v, state, (Get values "redirect_uri").
  split; [by exists row|]. split. { destruct Hact as (_ & -> & _). simpl. rewrite Hrow. by apply many_one. }
  split; [by apply many_one|].
  assert (Hs : echoed_state values state ∧ (state = "" ∨ oidc.validOpaqueParameter state = true)).
  { subst state. destruct (_ && _) eqn:Es; [|split; by left]. apply andb_true_iff in Es as [Es Ev]. apply bool_decide_eq_true in Es.
    split; [right; by apply many_one|by right]. }
  destruct Hs as [Hs1 Hs2]. split; [done|]. split; [done|].
  destruct (oidc.verify_parameters _ _ _ _) as [x|code] eqn:Ep; [right|left]; eexists; by split.
Qed.
End authorize.

(** ** What the reader accepts, the flow service accepts *)

Lemma every_elem (P : string → Prop) l : Forall P l → ∀ x, x ∈ l → P x.
Proof. by rewrite Forall_forall. Qed.

Lemma splitStrictSpaceList_Some raw parts : oidc.splitStrictSpaceList raw = Some parts → Forall (λ x, x ≠ "") parts ∧ parts ≠ [].
Proof.
  unfold oidc.splitStrictSpaceList. next_guard E1. next_guard E2. intros [= <-]. split; [|apply Split_not_nil].
  apply Forall_forall. intros x Hx ->. apply not_true_iff_false in E2. apply E2, existsb_exists. exists "". by rewrite <- list_elem_of_In.
Qed.

Lemma collect_scopes_Some allowed parts result l :
  oidc.collect_scopes allowed result parts = Some l → NoDup result → Forall (λ x, supported x = true ∧ x ∈ allowed) result →
  NoDup l ∧ Forall (λ x, supported x = true ∧ x ∈ allowed) l ∧ ∀ x, x ∈ l ↔ x ∈ result ∨ x ∈ parts.
Proof.
  revert result. induction parts as [|scope parts IH]; intros result; simpl; [intros [= <-] ??; set_solver|].
  destruct (_ || _) eqn:E; [done|]. apply orb_false_iff in E as [E1 E2]. apply negb_false_iff, bool_decide_eq_true in E2.
  assert (Hsup : supported scope = true).
  { apply supported_spec. unfold all_scopes. rewrite !andb_false_iff, !negb_false_iff, !bool_decide_eq_true in E1. set_solver. }
  intros H Hnd Hf. apply IH in H.
  - destruct H as (H1 & H2 & H3). split; [done|]. split; [done|]. intros x. rewrite H3. case_bool_decide; set_solver.
  - case_bool_decide; [done|]. apply NoDup_app. split; [done|]. split; [set_solver|apply NoDup_singleton].
  - case_bool_decide; [done|]. apply Forall_app. split; [done|]. by apply Forall_singleton.
Qed.

Lemma parseScope_Some raw allowed l :
  oidc.parseScope raw allowed = Some l → canonical l ∧ (∀ x, x ∈ l → x ∈ allowed).
Proof.
  unfold oidc.parseScope. destruct (oidc.splitStrictSpaceList raw) as [parts|]; [|done].
  destruct (oidc.collect_scopes allowed [] parts) as [k|] eqn:E; [|done]. case_bool_decide as Ho; [|done]. intros [= <-].
  apply collect_scopes_Some in E as (Hnd & Hf & _); [|constructor|constructor]. rewrite Forall_forall in Hf. split.
  - split_and!; [apply sort_Strings_sorted|by apply NoDup_sort_Strings| |by apply elem_of_sort_Strings].
    apply Forall_forall. intros x Hx. rewrite elem_of_sort_Strings in Hx. by rewrite (proj1 (Hf x Hx)).
  - intros x Hx. rewrite elem_of_sort_Strings in Hx. by apply Hf.
Qed.

(** The flow service's canonical form does nothing to a sorted list without duplicates. *)
Lemma canonicalStrings_id l : StronglySorted string_le l → NoDup l → "" ∉ l → authflow.canonicalStrings l = l.
Proof.
  intros Hs Hn He. destruct (authflow.canonicalStrings_spec l) as (Hs' & Hn' & Hel).
  apply (StronglySorted_unique string_le); [done|done|]. apply NoDup_Permutation; [done|done|]. intros x. rewrite Hel. set_solver.
Qed.

Lemma collect_prompts_Some parts seen l :
  oidc.collect_prompts seen parts = Some l → NoDup seen → Forall (λ x, authflow.valid_prompt x = true) seen →
  NoDup l ∧ Forall (λ x, authflow.valid_prompt x = true) l ∧ (length l = length seen + length parts)%nat.
Proof.
  revert seen. induction parts as [|value parts IH]; intros seen; simpl; [intros [= <-] ??; split_and!; [done|done|lia]|].
  next_guard E1. next_guard E2. apply bool_decide_eq_false in E2. intros H Hnd Hf. apply IH in H; [|by apply NoDup_cons|].
  - destruct H as (H1 & H2 & H3). split_and!; [done|done|]. simpl in H3. lia.
  - apply Forall_cons. split; [|done]. unfold authflow.valid_prompt.
    destruct (value == "none"), (value == "login"), (value == "consent"), (value == "create"); done.
Qed.

Lemma parsePrompt_Some entries l :
  oidc.parsePrompt entries = Some l → authflow.validPrompts l = true ∧ StronglySorted string_le l.
Proof.
  unfold oidc.parsePrompt. destruct entries as [|e [|]]; [intros [= <-]; split; [done|constructor]|..|done].
  destruct (oidc.splitStrictSpaceList e) as [parts|]; [|done]. destruct (oidc.collect_prompts [] parts) as [seen|] eqn:E; [|done].
  next_guard Eg. intros [= <-]. apply collect_prompts_Some in E as (Hnd & Hf & _); [|constructor|constructor].
  assert (Hs : StronglySorted string_le (sort_Strings seen)) by apply sort_Strings_sorted. split; [|done].
  assert (Hne : "" ∉ sort_Strings seen).
  { rewrite elem_of_sort_Strings. intros Hin. rewrite Forall_forall in Hf. by specialize (Hf _ Hin). }
  unfold authflow.validPrompts. rewrite canonicalStrings_id by (try done; by apply NoDup_sort_Strings).
  rewrite !authflow.contains_contains, !contains_spec by done. rewrite Nat.eqb_refl, (bool_decide_eq_true_2 _ eq_refl).
  assert (Hall : forallb authflow.valid_prompt (sort_Strings seen) = true).
  { apply forallb_forall. intros x Hx. rewrite <- list_elem_of_In, elem_of_sort_Strings in Hx. rewrite Forall_forall in Hf. by apply Hf. }
  rewrite Hall, length_sort_Strings. rewrite !(bool_decide_ext _ _ (elem_of_sort_Strings _ _)).
  apply orb_false_iff in Eg as [E1 E2]. simpl. rewrite andb_true_iff, !orb_true_iff, !negb_true_iff.
  apply andb_false_iff in E1, E2. rewrite negb_false_iff in E1. tauto.
Qed.

Lemma parseMaxAge_Some entries age :
  oidc.parseMaxAge entries = Some (Some age) → 0 <= age <= oidc.maxAgeSeconds.
Proof.
  unfold oidc.parseMaxAge. destruct entries as [|raw [|]]; [done|..|done]. next_guard E1. next_guard E2.
  destruct (ParseUint raw 32) as [v|] eqn:Ev; [|done]. next_guard E3. intros [= <-]. apply Z.ltb_ge in E3. split; [|done].
  unfold ParseUint in Ev. destruct (raw == ""); [done|]. destruct (decimal 0 raw) as [n|] eqn:E; [|done].
  destruct (n <? _); [|done]. injection Ev as <-. by apply decimal_nonneg in E.
Qed.

(** What a verified request promises. *)
Record checked_request (x : oidc.VerifiedAuthorizationRequest) (v : Client) (uri state : string) : Prop := {
  cr_client : oidc.Verified_Client x = v;
  cr_uri : oidc.Verified_RedirectURI x = uri;
  cr_state : oidc.Verified_State x = state;
  cr_response : oidc.Verified_ResponseType x = "code" ∧ oidc.Verified_ResponseMode x = "query";
  cr_scopes : canonical (oidc.Verified_Scopes x) ∧ ∀ scope, scope ∈ oidc.Verified_Scopes x → scope ∈ Client_Scopes v;
  cr_challenge : oidc.validS256Challenge (oidc.Verified_PKCEChallenge x) = true;
  cr_nonce : len (oidc.Verified_Nonce x) <= 1024;
  cr_prompts : authflow.validPrompts (oidc.Verified_Prompts x) = true ∧ StronglySorted string_le (oidc.Verified_Prompts x);
  cr_max_age : match oidc.Verified_MaxAge x with Some age => 0 <= age <= oidc.maxAgeSeconds | None => True end }.

Lemma opaque_length value : oidc.validOpaqueParameter value = true → len value <= 1024.
Proof. unfold oidc.validOpaqueParameter, oidc.maxOpaqueParameterBytes. rewrite !andb_true_iff, !Z.leb_le. tauto. Qed.

Lemma Get_absent values name : oidc.many values name = 0 → Get values name = "".
Proof. unfold oidc.many, Get. by destruct (values_at values name). Qed.

Lemma single_or_none values name :
  (1 <? oidc.many values name) = false → oidc.many values name = 1 ∨ oidc.many values name = 0.
Proof. unfold oidc.many. intros H%Z.ltb_ge. lia. Qed.

Lemma verify_parameters_inl values v uri state x :
  oidc.verify_parameters values v uri state = inl x → checked_request x v uri state.
Proof.
  unfold oidc.verify_parameters. next_guard E1. next_guard Eq1. next_guard Eq2. next_guard Eq3. next_guard Eq4. next_guard En.
  next_guard Er1. next_guard Er2.
  destruct (oidc.parseScope _ _) as [scopes|] eqn:Es; [|done]. next_guard Ec. apply orb_false_iff in Ec as [Ec _]. apply negb_false_iff in Ec.
  destruct (oidc.parsePrompt _) as [prompts|] eqn:Ep; [|done]. destruct (oidc.parseMaxAge _) as [age|] eqn:Ea; [|done]. intros [= <-].
  split; try done; simpl.
  - by apply parseScope_Some in Es.
  - destruct (single_or_none values "nonce") as [Hn|Hn].
    + apply not_true_iff_false in E1. destruct (1 <? oidc.many values "nonce") eqn:E; [|done]. exfalso. apply E1, existsb_exists.
      exists "nonce". split; [unfold oidc.securityParameters; simpl; tauto|done].
    + rewrite (bool_decide_eq_true_2 _ Hn) in En. simpl in En. apply negb_false_iff in En. by apply opaque_length.
    + rewrite (Get_absent _ _ Hn). by vm_compute.
  - by apply parsePrompt_Some in Ep.
  - destruct age as [age|]; [by apply parseMaxAge_Some in Ea|done].
Qed.

Lemma validateURI_absolute uri allow : client.validateURI uri allow = None → authflow.validAbsoluteURI uri = true.
Proof.
  unfold client.validateURI, authflow.validAbsoluteURI. next_guard E1. destruct (Url.Parse uri) as [u|]; [|done]. next_guard E2. intros _.
  rewrite !orb_false_iff, !negb_false_iff in E2. destruct E2 as [[[[E2 E3] E4] E5] _]. by rewrite E2, E3, E4, E5.
Qed.

(** A check that passes is no step. *)
Lemma reject_pass {A} b e (m : Tx A) : b = false → (reject_if b e;; m) = m.
Proof. by intros ->. Qed.

Section composition.
Context {P : Platform} (clients : client.Service) (s : authflow.Service).
#[local] Instance composed_resolver : oidc.ClientResolver := oidc.client_resolver clients.

Lemma CreateVerified_create rawQuery w w' x requestID now :
  db_ok (w_db w) → oidc.ParseAuthorizationRequest rawQuery w = (w', inl (inl x)) →
  authflow.CreateVerified s (httpserver.verified_input x) requestID now =
  authflow.create s KindAuthorization (httpserver.verified_input x) requestID now.
Proof.
  intros Hok H. apply ParseAuthorizationRequest_inl in H as [_ [(code & st & [=])|(v & state & uri & Hreg & _ & _ & _ & Hst & [(c & [=] & _)|(y & [= <-] & Hp)])]]; [|done].
  apply verify_parameters_inl in Hp. destruct Hreg as (row & Hact & Hrec & _ & Huri). apply validateURI_absolute in Huri.
  destruct Hp as [Hc Hu Hs [Hr1 Hr2] [(Hsort & Hnd & Hsup & Hopen) _] Hch Hn [Hpv Hps] Hage].
  assert (Hcan : authflow.canonicalStrings (oidc.Verified_Scopes x) = oidc.Verified_Scopes x).
  { apply canonicalStrings_id; [done|done|]. intros Hin. rewrite Forall_forall in Hsup. by specialize (Hsup _ Hin). }
  assert (Hscopes : authflow.with_scopes (authflow.canonicalStrings (authflow.VerifiedInput_Scopes (httpserver.verified_input x)))
            (httpserver.verified_input x) = httpserver.verified_input x).
  { simpl. unfold authflow.with_scopes. simpl. by rewrite Hcan. }
  assert (Hcontains : authflow.contains (oidc.Verified_Prompts x) "create" = oidc.Prompts_Has (oidc.Verified_Prompts x) "create") by done.
  assert (Hprompts : authflow.default_prompts (httpserver.verified_input x) = httpserver.verified_input x).
  { unfold authflow.default_prompts. simpl. rewrite <- Hcontains. destruct (oidc.Verified_Prompts x); [done|]. simpl. by rewrite andb_false_r. }
  unfold authflow.CreateVerified. cbv zeta. rewrite Hscopes, Hprompts. simpl. rewrite !reject_pass; [done|..].
  - destruct (oidc.Verified_MaxAge x) as [age|]; [|done]. apply Z.ltb_ge. unfold oidc.maxAgeSeconds in Hage. lia.
  - rewrite Hpv, Hcontains. simpl. by rewrite bool_decide_eq_true_2.
  - rewrite orb_false_iff, !Z.ltb_ge. split; [|lia]. rewrite Hs. destruct Hst as [->|Hst]; [done|]. by apply opaque_length.
  - by apply negb_false_iff.
  - rewrite Hu, Huri, Hr1, Hr2, Hc. apply andb_true_iff in Hrec as [[Hid _]%andb_true_iff _]. apply negb_true_iff in Hid. rewrite Hid. simpl.
    pose proof (NoDup_supported_length _ Hnd Hsup) as Hlen. rewrite (proj2 (Z.ltb_ge _ _)) by lia.
    rewrite bool_decide_eq_false_2 by (intros E; by rewrite E in Hopen; apply not_elem_of_nil in Hopen). simpl.
    apply negb_false_iff. unfold authflow.validOIDCScopes. rewrite authflow.contains_contains, contains_spec, bool_decide_eq_true_2 by done. simpl.
    apply forallb_Forall_true. done.
Qed.

Lemma verified_values rawQuery w w' x :
  db_ok (w_db w) → oidc.ParseAuthorizationRequest rawQuery w = (w', inl (inl x)) →
  oidc.Verified_PKCEChallenge x ≠ "" ∧ match oidc.Verified_MaxAge x with Some n => 0 <= n < 2 ^ 32 | None => True end.
Proof.
  intros Hok H. apply ParseAuthorizationRequest_inl in H as [_ [(code & st & [=])|(v & state & uri & _ & _ & _ & _ & _ & [(c & [=] & _)|(y & [= <-] & Hp)])]]; [|done].
  apply verify_parameters_inl in Hp. destruct Hp as [_ _ _ _ _ Hch _ _ Hage]. split; [by intros E; rewrite E in Hch|].
  destruct (oidc.Verified_MaxAge x) as [n|]; [|done]. unfold oidc.maxAgeSeconds in Hage. lia.
Qed.

(** The transaction carries the verified request. *)
Record carries (x : oidc.VerifiedAuthorizationRequest) (t : Transaction) : Prop := {
  ca_client : Transaction_Kind t = KindAuthorization ∧ Transaction_ClientID t = Some (Client_ID (oidc.Verified_Client x));
  ca_uri : Transaction_RedirectURI t = oidc.Verified_RedirectURI x;
  ca_scopes : Transaction_Scopes t = oidc.Verified_Scopes x;
  ca_pkce : Transaction_PKCEChallenge t = oidc.Verified_PKCEChallenge x ∧ Transaction_PKCEMethod t = "S256";
  ca_values : Transaction_State t = oidc.Verified_State x ∧ Transaction_Nonce t = oidc.Verified_Nonce x;
  ca_response : Transaction_ResponseType t = oidc.Verified_ResponseType x ∧ Transaction_ResponseMode t = oidc.Verified_ResponseMode x;
  ca_prompts : Transaction_Prompts t = oidc.Verified_Prompts x ∧
    Transaction_PromptCreate t = oidc.Prompts_Has (oidc.Verified_Prompts x) "create";
  ca_age : Transaction_MaxAgeSeconds t = oidc.Verified_MaxAge x;
  ca_open : Transaction_ConsumedAt t = None }.

(** The service's random reader ran dry. *)
Definition no_randomness (e : error) : Prop :=
  e = errors_New "secure transaction token generation failed" ∨ e = errors_New "transaction identifier generation failed".

Lemma create_inr kind input requestID now w w' e :
  authflow.create s kind input requestID now w = (w', inr e) → no_randomness e ∨ technical_failure e.
Proof.
  unfold authflow.create, no_randomness. intros [(w1 & token & _ & H)|(e' & [= <-] & H)]%bind_cases.
  2: { left; left. unfold lift_rand, authflow.newToken, mbind, Rnd_bind, ReadFull in H. by destruct (_ <=? _)%nat; injection H. }
  apply bind_cases in H as [(w2 & id & _ & H)|(e' & [= <-] & H)].
  2: { left; right. unfold lift_rand, NewRandomFromReader, mbind, Rnd_bind, ReadFull in H. by destruct (_ <=? _)%nat; injection H. }
  right. apply bind_cases in H as [(w3 & event & _ & H)|(e' & [= <-] & H)]; [|by eapply audit_New_inr].
  apply bind_cases in H as [(w4 & x & _ & H)|(e' & [= <-] & H)]; [done|]. simpl in H. unfold CreateAuthTransaction, inTxWithAudit in H.
  apply bind_cases in H as [(w4 & x & _ & H)|(e' & [= <-] & H)]; [done|].
  refine (inTx_inr _ technical_failure _ _ _ _ _ H); [intros d op; left; by exists op, d|].
  intros v1 v2 e0 _ [(v3 & x & _ & H0)|(e' & [= <-] & H0)]%bind_cases; [by eapply insertAudit_inr|by eapply query_inr].
Qed.

(** C35: What the reader of authorization requests accepts, the browser flow takes as it
    is.  None of the checks of [CreateVerified] refuses a request that was read from a
    query: creating its transaction, whenever and in whatever world, fails only because a
    source of randomness ran dry or because the storage or the audit log failed.  When it
    succeeds, the row stored under the digest of the returned token maps back to a
    transaction with the client, redirect URI, scopes, challenge, state, nonce, prompts and
    age that were read, still open. *)
Theorem verified_request_accepted {PL : PlatformLaws P} rawQuery w w' x requestID now v v' r :
  db_ok (w_db w) → oidc.ParseAuthorizationRequest rawQuery w = (w', inl (inl x)) →
  authflow.CreateVerified s (httpserver.verified_input x) requestID now v = (v', r) →
  match r with
  | inl (token, t) => carries x t ∧
      ∃ row, find_row (λ r, tx_TokenHash r == authflow.HashToken token) (auth_transactions (w_db v')) = Some row ∧ carries x (mapAuthTransaction row)
  | inr e => no_randomness e ∨ technical_failure e
  end.
Proof.
  intros Hok Hp Hc. rewrite (CreateVerified_create _ _ _ _ _ _ Hok Hp) in Hc. destruct r as [[token t]|e]; [|by eapply create_inr].
  destruct (verified_values _ _ _ _ Hok Hp) as [Hch Hage]. apply create_inv in Hc as (_ & id & _ & -> & _ & Hun & audits & Hdb).
  assert (Hcar : ∀ t, t = authflow.new_transaction s id token KindAuthorization (httpserver.verified_input x) now →
    carries x t ∧ carries x (truncated t)).
  { intros t ->. split; split; try done; simpl; by rewrite (bool_decide_eq_false_2 _ Hch). }
  destruct (Hcar _ eq_refl) as [H1 H2]. split; [done|]. exists (stored_row (authflow.new_transaction s id token KindAuthorization (httpserver.verified_input x) now)).
  rewrite Hdb.
  split; [exact (find_created (w_db v) (authflow.new_transaction s id token KindAuthorization (httpserver.verified_input x) now) id audits eq_refl Hun)|]. by rewrite <- stored_truncated in H2.
Qed.
End composition.

(** ** Witness *)

Definition request_query (prompt : string) : string :=
  "response_type=code&client_id=" +:+ cl_ClientID relying_client +:+ "&redirect_uri=https%3A%2F%2Fapp.example%2Fcallback&scope=openid+profile" +:+
  "&code_challenge=" +:+ challenge +:+ "&code_challenge_method=S256&state=a+state" +:+ prompt.

#[local] Instance query_resolver : oidc.ClientResolver := oidc.client_resolver demo_clients.
Definition parsed_query : World * ((oidc.VerifiedAuthorizationRequest + oidc.AuthorizationError) + error) :=
  oidc.ParseAuthorizationRequest (request_query "&prompt=login&max_age=300") (world_of relying_db 0).

Lemma verified_request_accepted_witness : ∃ x token t row v',
  parsed_query.2 = inl (inl x) ∧ oidc.Verified_MaxAge x = Some 300 ∧
  authflow.CreateVerified demo_flow (httpserver.verified_input x) "req-7" t0 (world_of relying_db 3) = (v', inl (token, t)) ∧
  find_row (λ r, tx_TokenHash r == authflow.HashToken token) (auth_transactions (w_db v')) = Some row ∧ carries x (mapAuthTransaction row).
Proof.
  destruct (parsed_query.2) as [[x|e]|e] eqn:E; [|exfalso; revert E; vm_compute; discriminate..].
  destruct (authflow.CreateVerified demo_flow (httpserver.verified_input x) "req-7" t0 (world_of relying_db 3)) as [v' r] eqn:Ec.
  assert (Hx : x = match parsed_query.2 with inl (inl y) => y | _ => x end) by (by rewrite E).
  pose proof (verified_request_accepted (PL := demo_platform_laws) demo_clients demo_flow (request_query "&prompt=login&max_age=300") (world_of relying_db 0) parsed_query.1 x
    "req-7" t0 (world_of relying_db 3) v' r (world_ok _ _ relying_db_ok)) as Hacc.
  rewrite <- E in Hacc. specialize (Hacc (surjective_pairing parsed_query) Ec).
  destruct r as [[token t]|e].
  - destruct Hacc as [_ (row & Hrow & Hcar)]. exists x, token, t, row, v'. split; [exact eq_refl|]. split; [|exact (conj Ec (conj Hrow Hcar))].
    rewrite Hx. vm_compute. reflexivity.
  - exfalso. clear Hacc. rewrite Hx in Ec. apply (f_equal snd) in Ec. revert Ec. vm_compute. discriminate.
Defined.

(** ** The endpoints *)
Section handlers.
Context {P : Platform} {C : TokenCodec} {H : logout.HintCodec} {T : TextLibrary} {K : KeyDerivation} {F : Fosite} {M : HttpLibrary}.
Context (a : Application).
#[local] Instance app_resolver : oidc.ClientResolver := httpserver.resolver a.

(** ** Where an authorization sends the browser *)

(** The answer, if it redirects, redirects to this URI with its query rewritten. *)
Definition goes_to (uri : string) (r : HTTPResponse) : Prop :=
  ∀ loc, Location r = Some loc → ∃ response, oidc.BuildAuthorizationRedirect uri response = Some loc.
Definition hosted (r : HTTPResponse) : Prop :=
  ∃ path token, path ∈ ["/login"; "/register"; "/consent"] ∧ r = redirectToBrowserFlow path token.

Lemma goes_page uri status body : goes_to uri (page status body).
Proof. by intros loc. Qed.

Lemma writeAuthorizationError_goes uri state code : goes_to uri (writeAuthorizationError (oidc.trustedError uri state code)).
Proof.
  intros loc. unfold writeAuthorizationError. simpl. destruct (oidc.BuildAuthorizationErrorRedirect _) as [l|] eqn:E; [|done]. intros [= <-].
  revert E. unfold oidc.BuildAuthorizationErrorRedirect. next_guard Eg. eauto.
Qed.
Lemma local_error_stays code status loc : Location (writeAuthorizationError (oidc.localAuthorizationError code status)) ≠ Some loc.
Proof. done. Qed.

Lemma terminate_goes request t code reason actor now w w' r :
  terminateAuthorization request t code reason actor now w = (w', inl r) → goes_to (Transaction_RedirectURI t) r.
Proof.
  unfold terminateAuthorization. intros (w1 & res & _ & [= _ <-])%Tx_bind_inl. destruct res; apply writeAuthorizationError_goes.
Qed.

(** Either the client's URI, or a hosted form that a silent request never sees. *)
Definition answered (t : Transaction) (r : HTTPResponse) : Prop :=
  goes_to (Transaction_RedirectURI t) r ∨ (hosted r ∧ transactionHasPrompt t "none" = false).

Lemma hosted_answer t path token :
  path ∈ ["/login"; "/register"; "/consent"] → transactionHasPrompt t "none" = false → answered t (redirectToBrowserFlow path token).
Proof. intros Hp Hn. right. split; [by exists path, token|done]. Qed.

Lemma unauthenticated_answer request token t now w w' r :
  unauthenticated a request token t now w = (w', inl r) → answered t r.
Proof.
  unfold unauthenticated. destruct (transactionHasPrompt t "none") eqn:En; [intros H0; left; by eapply terminate_goes|].
  destruct (transactionHasPrompt t "create").
  - intros (w1 & allowed & _ & H0)%Tx_bind_inl. destruct allowed; simpl in H0; [|left; by eapply terminate_goes].
    injection H0 as _ <-. by apply hosted_answer; [set_solver|].
  - intros [= _ <-]. apply hosted_answer; [set_solver|done].
Qed.

Lemma consentPrincipal_answer request token t n1 n2 n3 w w' r :
  consentPrincipal a request token t n1 n2 n3 w = (w', inl (inr r)) → answered t r.
Proof.
  unfold consentPrincipal. intros (w1 & res & _ & H0)%Tx_bind_inl. destruct res as [p|e].
  - unfold session_checks in H0. destruct (_ && _); [apply Tx_bind_inl in H0 as (w2 & x & Ht & [= _ <-]); left; by eapply terminate_goes|].
    destruct (authorizationNeedsReauthentication _ _ _); [|done]. destruct (transactionHasPrompt t "none") eqn:En.
    + apply Tx_bind_inl in H0 as (w2 & x & Ht & [= _ <-]). left. by eapply terminate_goes.
    + injection H0 as _ <-. apply hosted_answer; [set_solver|done].
  - destruct (negb _); apply Tx_bind_inl in H0 as (w2 & x & Ht & [= _ <-]); [left; by eapply terminate_goes|by eapply unauthenticated_answer].
Qed.

Lemma issue_answer request token t p interactive n1 n2 w w' r :
  issueAuthorizationCode a request token t p interactive n1 n2 w = (w', inl r) → answered t r.
Proof.
  unfold issueAuthorizationCode. intros (w1 & res & _ & H0)%Tx_bind_inl. destruct res as [i|e].
  - injection H0 as _ <-. left. destruct (oidc.BuildAuthorizationSuccessRedirect _ _ _) as [l|] eqn:E; [|apply goes_page].
    intros loc [= <-]. revert E. unfold oidc.BuildAuthorizationSuccessRedirect. next_guard Eg. eauto.
  - destruct (flow_error e); [injection H0 as _ <-; left; apply goes_page|]. destruct (_ && _) eqn:Ec; [|left; by eapply terminate_goes].
    injection H0 as _ <-. apply andb_true_iff in Ec as [_ Ec]. apply negb_true_iff in Ec. apply hosted_answer; [set_solver|done].
Qed.

Lemma advance_answer request token t clock w w' r :
  advanceAuthorization a request token t clock w = (w', inl r) → answered t r.
Proof.
  unfold advanceAuthorization. intros (w1 & checked & Hc & H0)%Tx_bind_inl. destruct checked as [p|x].
  2: { injection H0 as _ <-. by eapply consentPrincipal_answer. }
  apply Tx_bind_inl in H0 as (w2 & ev & _ & H0). destruct ev as [[c ev]|e]; [|left; by eapply terminate_goes].
  destruct (_ && _); [by eapply issue_answer|]. destruct (transactionHasPrompt t "none") eqn:En; [left; by eapply terminate_goes|].
  injection H0 as _ <-. apply hosted_answer; [set_solver|done].
Qed.

Lemma create_transaction s kind input rid now w w' token t :
  authflow.create s kind input rid now w = (w', inl (token, t)) → ∃ id, t = authflow.new_transaction s id token kind input now.
Proof.
  unfold authflow.create. intros (w1 & tok & _ & H0)%Tx_bind_inl. apply Tx_bind_inl in H0 as (w2 & id & _ & H0).
  apply Tx_bind_inl in H0 as (w3 & event & _ & H0). apply Tx_bind_inl in H0 as (w4 & x & _ & [= _ <- <-]). by exists id.
Qed.

(** C4: The authorization endpoint is no open redirector.  Whatever the query, an answer
    that redirects goes to one of the three hosted forms, or to the redirect URI of the
    query, of which there is one, and which the active client that the query names has
    registered byte for byte; every other failure is a page of the provider. *)
Theorem authorize_redirects_safe request clock w w' r loc :
  db_ok (w_db w) → handleAuthorize a request clock w = (w', inl r) → Location r = Some loc →
  hosted r ∨
  ∃ v uri response, registered_redirect (app_clients a) (w_db w) uri v ∧
    one_value (query_values (Request_RawQuery request)) "client_id" (Client_ClientID v) ∧
    one_value (query_values (Request_RawQuery request)) "redirect_uri" uri ∧
    oidc.BuildAuthorizationRedirect uri response = Some loc.
Proof.
  intros Hok H0 Hl. unfold handleAuthorize in H0. destruct (_ != _); [injection H0 as _ <-; done|].
  apply Tx_bind_inl in H0 as (w1 & parsed & Hp & H0). pose proof Hp as Hp0.
  apply ParseAuthorizationRequest_inl in Hp as [Hdb [(code & st & ->)|(v & state & uri & Hreg & H1 & H2 & _ & _ & Hr)]]; [by injection H0 as _ <-| |done].
  destruct Hr as [(code & -> & _)|(x & -> & Hx)].
  - injection H0 as _ <-. right. destruct (writeAuthorizationError_goes _ _ _ _ Hl) as [response Hb]. by exists v, uri, response.
  - apply verify_parameters_inl in Hx. apply Tx_bind_inl in H0 as (w2 & created & [Hc _]%attempt_inl & H0). destruct created as [[token t]|e].
    + rewrite (CreateVerified_create (app_clients a) (app_transactions a) _ _ _ _ _ _ Hok Hp0) in Hc.
      apply create_transaction in Hc as (id & Et). destruct (advance_answer _ _ _ _ _ _ _ H0) as [Hg|[Hh _]]; [right|by left].
      destruct (Hg _ Hl) as [response Hb]. exists v, uri, response. do 3 (split; [done|]). rewrite Et in Hb. simpl in Hb. by rewrite (cr_uri _ _ _ _ Hx) in Hb.
    + injection H0 as _ <-. right. rewrite (cr_uri _ _ _ _ Hx) in Hl. destruct (writeAuthorizationError_goes _ _ _ _ Hl) as [response Hb].
      by exists v, uri, response.
Qed.

(** A silent request never meets a form.  When the transaction asks for no interaction,
    advancing it answers with a page of the provider or goes back to the client's redirect
    URI: it never sends the browser to log in, to register or to consent. *)
Theorem silent_never_interacts request token t clock w w' r :
  transactionHasPrompt t "none" = true → advanceAuthorization a request token t clock w = (w', inl r) →
  goes_to (Transaction_RedirectURI t) r.
Proof. intros Hn H0. destruct (advance_answer _ _ _ _ _ _ _ H0) as [Hg|[_ Hh]]; [done|congruence]. Qed.

(** ** When a code enters the tables *)

Definition codes_kept (db db' : DB) : Prop := authorization_codes db' = authorization_codes db.
#[local] Instance codes_kept_PreOrder : PreOrder codes_kept.
Proof. split; unfold codes_kept; [done|]. intros x y z. congruence. Qed.

Lemma kept_reject now reason id : stmt_rel codes_kept (Queries.RejectAuthTransaction now reason id).
Proof. intros db x db' H0. apply update_live_transaction_inl in H0 as (row & _ & _ & _ & ->). done. Qed.
Lemma kept_consume now id : stmt_rel codes_kept (Queries.ConsumeAuthTransaction now id).
Proof. intros db x db' H0. apply update_live_transaction_inl in H0 as (row & _ & _ & _ & ->). done. Qed.
Lemma kept_touch now idle id : stmt_rel codes_kept (BrowserQueries.TouchLoginSession now idle id).
Proof. apply stmt_rel_exec; [apply _|]. intros db x db' H0. apply update_row_inl in H0 as (row & _ & _ & _ & _ & ->). done. Qed.
Lemma kept_audit event : stmt_rel codes_kept (CreateAuditEvent event).
Proof. intros db x db' H0. unfold CreateAuditEvent in H0. stmt_cases H0; done. Qed.
#[local] Hint Resolve kept_reject kept_consume kept_touch kept_audit : tx_rel.

Lemma kept_reads {A} (m : Tx A) : reads m → tx_rel codes_kept m.
Proof. intros Hm w w' r E. unfold codes_kept. by rewrite <- (Hm _ _ _ E). Qed.

Lemma kept_terminate request t code reason actor now : tx_rel codes_kept (terminateAuthorization request t code reason actor now).
Proof.
  unfold terminateAuthorization. apply tx_rel_bind; [apply _| |intros x; apply tx_rel_ret, _]. apply tx_rel_attempt.
  unfold authflow.Reject. simpl. unfold FlowStore.RejectAuthTransaction, rejectAuthTransaction_tx. tx_rel_auto.
Qed.
Lemma kept_authenticate svc token now : tx_rel codes_kept (Authenticate svc token now).
Proof.
  unfold Authenticate. tx_rel_auto.
  - intros w w' r E. unfold not_found_none in E. destruct (Repository_FindLoginSession _ w) as [w1 x] eqn:Ef.
    apply (kept_reads _ (reads_FindLoginSession _)) in Ef. destruct x as [p|e]; [|destruct (_ == _)]; by injection E as <- _.
  - simpl. unfold SessionStore.TouchLoginSession. tx_rel_auto.
Qed.
Lemma kept_can_register t : tx_rel codes_kept (authn.CanRegister (app_authn a) t).
Proof.
  unfold authn.CanRegister. apply tx_rel_bind; [apply _| |intros x; apply tx_rel_ret, _]. apply tx_rel_attempt.
  unfold authn.checkRegistration. tx_rel_auto. apply tx_rel_replace_error; [apply _|]. apply kept_reads, reads_GetClient.
Qed.
#[local] Hint Resolve kept_terminate kept_authenticate kept_can_register : tx_rel.

Lemma kept_consentPrincipal request token t n1 n2 n3 : tx_rel codes_kept (consentPrincipal a request token t n1 n2 n3).
Proof.
  unfold consentPrincipal. apply tx_rel_bind; [apply _|apply tx_rel_attempt, kept_authenticate|intros [p|e]].
  - unfold session_checks. tx_rel_auto.
  - destruct (negb _); [tx_rel_auto|]. unfold unauthenticated. tx_rel_auto.
Qed.
Lemma kept_authorize_evaluate user t : reads (evaluateAuthorization a user t).
Proof.
  unfold reads, evaluateAuthorization. tx_rel_auto.
  - apply tx_rel_replace_error; [apply _|]. unfold client.GetActive. simpl. tx_rel_auto.
  - unfold Evaluate. tx_rel_auto.
    + intros w w' r E. unfold not_found_none in E. destruct (Repository_GetConsentGrant _ _ w) as [w1 x] eqn:Ef.
      apply reads_GetConsentGrant in Ef. destruct x as [p|e]; [|destruct (_ == _)]; by injection E as <- _.
    + unfold evaluateGrant. tx_rel_auto.
Qed.

(** The session behind the request is live, and fresh enough for the transaction. *)
Definition fresh_session (db : DB) (request : Request) (t : Transaction) (now1 now2 : time) (row : LoginSessionRow) : Prop :=
  (∃ user, authenticates db (session_cookie a request) now1 row user) ∧
  authorizationNeedsReauthentication t (ls_AuthenticatedAt row) now2 = false ∧
  (transactionHasPrompt t "create" = true → Transaction_CreatedAt t < ls_AuthenticatedAt row).

Lemma consentPrincipal_inl request token t n1 n2 n3 w w' p :
  db_ok (w_db w) → consentPrincipal a request token t n1 n2 n3 w = (w', inl (inl p)) →
  ∃ row, fresh_session (w_db w) request t n1 n2 row ∧ User_ID (Principal_User p) = ls_UserID row ∧ Principal_CSRFHash p = ls_CsrfHash row ∧
    (w_db w' = w_db w ∨ ∃ idle, w_db w' = touched (w_db w) row (timestamp n1) idle).
Proof.
  intros Hok. unfold consentPrincipal. intros (w1 & res & [Ha _]%attempt_inl & H0)%Tx_bind_inl. destruct res as [q|e].
  2: { destruct (negb _); by apply Tx_bind_inl in H0 as (w2 & x & _ & H0). }
  apply Authenticate_inl in Ha as (_ & row & user & Ha & Hu & _ & _ & Hat & Hcsrf & _ & Hdb); [|done].
  unfold session_checks in H0. destruct (_ && _) eqn:Ec; [by apply Tx_bind_inl in H0 as (w2 & x & _ & H0)|].
  destruct (authorizationNeedsReauthentication _ _ _) eqn:En.
  { destruct (transactionHasPrompt t "none"); [by apply Tx_bind_inl in H0 as (w2 & x & _ & H0)|done]. }
  injection H0 as <- <-. rewrite Hat in En, Ec. exists row. split; [|done]. split; [by exists user|]. split; [done|]. intros Hc. rewrite Hc in Ec.
  simpl in Ec. apply negb_false_iff, Z.ltb_lt in Ec. done.
Qed.

(** The client of the transaction is active and has registered its redirect URI. *)
Definition serves (db : DB) (t : Transaction) (row : OidcClientRow) : Prop :=
  Transaction_ClientID t = Some (cl_ID row) ∧ ∃ c, active_client db row c ∧ Transaction_RedirectURI t ∈ Client_RedirectURIs c.

Lemma evaluateAuthorization_inl user t w w' c ev :
  keyed cl_ID (oidc_clients (w_db w)) → evaluateAuthorization a user t w = (w', inl (c, ev)) →
  ∃ row, serves (w_db w) t row ∧ (Evaluation_Covers ev = true → set_of (Transaction_Scopes t) ⊆ granted_scopes (w_db w) user (cl_ID row)).
Proof.
  intros Hk. unfold evaluateAuthorization. destruct (Transaction_ClientID t) as [id|] eqn:Eid; [|done]. intros H0. tx_step H0.
  apply Tx_bind_inl in H0 as (w1 & v & Hv%replace_error_inl & H0). apply GetActive_inl in Hv as (Hdb & row & <- & Hact); [|done].
  tx_step H0. apply negb_false_iff, RedirectURIMatches_true in Hguard0 as [Hin _]. apply Tx_bind_inl in H0 as (w2 & ev2 & Hev & [= _ <- <-]).
  exists row. split; [by split; [|exists v]|]. intros Hc. apply evaluate_exact in Hev as (_ & Hev & _). rewrite Hdb in Hev.
  specialize (Hev Hc). by destruct Hact as (_ & -> & _).
Qed.

(** A step that keeps the codes succeeded, and the change comes after it. *)
Lemma kept_then {A B} (m : Tx A) (k : A → Tx B) w w' r :
  tx_rel codes_kept m → (m ≫= k) w = (w', r) → ¬ codes_kept (w_db w) (w_db w') →
  ∃ w1 x, m w = (w1, inl x) ∧ k x w1 = (w', r) ∧ ¬ codes_kept (w_db w1) (w_db w').
Proof.
  intros Hm E Hn. unfold mbind, Tx_bind in E. destruct (m w) as [w1 [x|e]] eqn:Em; pose proof (Hm _ _ _ Em) as Hk; simpl in Hk.
  - exists w1, x. split_and!; [done..|]. intros Hk2. apply Hn. by transitivity (w_db w1).
  - injection E as <- _. done.
Qed.

(** C5: A code is issued silently only when it is owed.  If advancing an authorization
    changes the code table, whatever the driver does, then at that moment the browser's
    cookie selects a live session of an active user that satisfies max_age and the prompts of
    the request, the client is active and has registered the redirect URI, the request does
    not ask for the consent form, and the unrevoked grant of that user for that client holds
    every requested scope. *)
Theorem silent_code_justified request token t clock w w' r :
  db_ok (w_db w) → advanceAuthorization a request token t clock w = (w', r) → authorization_codes (w_db w') ≠ authorization_codes (w_db w) →
  ∃ row crow, fresh_session (w_db w) request t (clock 1%nat) (clock 1%nat) row ∧ serves (w_db w) t crow ∧
    transactionHasPrompt t "consent" = false ∧ set_of (Transaction_Scopes t) ⊆ granted_scopes (w_db w) (ls_UserID row) (cl_ID crow).
Proof.
  intros Hok H0 Hn. apply kept_then in H0 as (w1 & checked & Hc & H0 & Hn1); [|apply kept_consentPrincipal|done].
  destruct checked as [p|x]; [|by injection H0 as <- _]. apply consentPrincipal_inl in Hc as (row & Hf & Hu & _ & Hdb); [|done].
  apply kept_then in H0 as (w2 & ev & [He _]%attempt_inl & H0 & Hn2); [|apply tx_rel_attempt, kept_reads, kept_authorize_evaluate|done].
  destruct ev as [[c ev]|e]; [|destruct Hn2; by eapply kept_terminate]. apply evaluateAuthorization_inl in He as (crow & Hs & Hcov).
  2: { apply ok_clients_key in Hok. by destruct Hdb as [->|[idle ->]]. }
  destruct (_ && _) eqn:Ec; [|destruct Hn2; destruct (transactionHasPrompt t "none"); [by eapply kept_terminate|by injection H0 as <- _]].
  apply andb_true_iff in Ec as [Ecov Econ%negb_true_iff]. exists row, crow. rewrite Hu in Hcov. specialize (Hcov Ecov).
  by destruct Hdb as [Hdb|[idle Hdb]]; rewrite Hdb in Hs, Hcov.
Qed.

Lemma kept_deny t user rid now : tx_rel codes_kept (Deny t user rid now).
Proof. unfold Deny. simpl. unfold DenyAuthorization, denyAuthorization_tx, lockAndValidateAuthorizationClient. tx_rel_auto. Qed.
Lemma kept_resolve token now : tx_rel codes_kept (resolve_authorization token now).
Proof.
  unfold resolve_authorization. apply tx_rel_bind; [apply _| |intros x; apply tx_rel_ret, _]. apply tx_rel_attempt.
  unfold authflow.Resolve. simpl. tx_rel_auto. apply kept_reads, reads_FindAuthTransaction.
Qed.

(** ** What the origin check gives *)

(** The text is the issuer's origin, up to case. *)
Definition issuer_origin_text (issuer : URL) (origin : string) : Prop :=
  ∃ u, Url.Parse origin = Some u ∧ EqualFold (URL_Scheme u) (URL_Scheme issuer) = true ∧ EqualFold (URL_Host u) (URL_Host issuer) = true ∧
    URL_Path u ∈ [""; "/"] ∧ URL_RawQuery u = "" ∧ URL_Fragment u = "".
(** The request names no foreign origin: an Origin header is the issuer's; without one, a
    Referer header is of the issuer's origin.  A request with neither passes. *)
Definition no_foreign_origin (issuer : URL) (request : Request) : Prop :=
  let origin := TrimSpace (Header_Get (Request_Header request) "Origin") in
  let referer := TrimSpace (Header_Get (Request_Header request) "Referer") in
  (origin ≠ "" → issuer_origin_text issuer origin) ∧
  (origin = "" → referer ≠ "" →
     ∃ u, Url.Parse referer = Some u ∧ issuer_origin_text issuer (URL_Scheme u +:+ "://" +:+ URL_Host u)).

Lemma sameOrigin_true issuer request : sameOrigin issuer request = true → no_foreign_origin issuer request.
Proof.
  unfold sameOrigin, no_foreign_origin. cbv zeta.
  assert (Hcheck : ∀ origin, match Url.Parse origin with
    | None => false
    | Some parsed => if ((URL_Path parsed != "") && (URL_Path parsed != "/")) || (URL_RawQuery parsed != "") || (URL_Fragment parsed != "") then false
        else EqualFold (URL_Scheme parsed) (URL_Scheme issuer) && EqualFold (URL_Host parsed) (URL_Host issuer)
    end = true → issuer_origin_text issuer origin).
  { intros origin Ho. unfold issuer_origin_text. destruct (Url.Parse origin) as [u|]; [|done]. exists u. split; [done|].
    destruct (_ || _) eqn:E; [done|]. go_bools. split_and!; try done. destruct H2 as [-> | ->]; [left|right; left]. }
  case_bool_decide as Eo.
  - case_bool_decide as Er; [by split|]. destruct (Url.Parse _) as [u|]; [|done]. intros Hc%Hcheck. split; [done|]. intros _ _. by exists u.
  - intros Hc%Hcheck. by split.
Qed.

(** C6: A code is issued interactively only on the user's own approval.  If posting the
    consent form changes the code table, then the request names no foreign origin (an Origin
    header, or without one a Referer, is of the issuer's origin; neither need be sent), the
    form's CSRF token equals the cookie's and matches the digest of the session row that the
    session cookie selects, the decision is "approve", the transaction token selects an
    unconsumed, unexpired authorization transaction, that session is live and satisfies the
    request's max_age and prompts, and the client is active with the redirect URI
    registered. *)
Theorem interactive_code_justified request clock w w' r :
  db_ok (w_db w) → postConsent a request clock w = (w', r) → authorization_codes (w_db w') ≠ authorization_codes (w_db w) →
  ∃ form t row crow, no_foreign_origin (app_issuer a) request ∧ parseConsentForm request = Some form ∧
    Get form "decision" = "approve" ∧ Get form "csrf_token" = csrf_cookie a request ∧ csrfMatches (Get form "csrf_token") (ls_CsrfHash row) = true ∧
    (∃ trow, find_row (λ r, tx_TokenHash r == authflow.HashToken (Get form "transaction")) (auth_transactions (w_db w)) = Some trow ∧
       t = mapAuthTransaction trow ∧ tx_TransactionKind trow = KindAuthorization ∧ tx_ConsumedAt trow = None ∧ clock 0%nat < tx_ExpiresAt trow) ∧
    fresh_session (w_db w) request t (clock 1%nat) (clock 2%nat) row ∧ serves (w_db w) t crow.
Proof.
  intros Hok H0 Hn. unfold postConsent in H0. destruct (negb (sameOrigin _ _)) eqn:Eo; [by injection H0 as <- _|]. apply negb_false_iff, sameOrigin_true in Eo.
  destruct (parseConsentForm request) as [form|]; [|by injection H0 as <- _].
  apply kept_then in H0 as (w0 & res & Hres & H0 & Hn0); [|apply kept_resolve|done]. destruct res as [t|]; [|by injection H0 as <- _].
  apply Tx_bind_inl in Hres as (w1 & res & [Hres _]%attempt_inl & Hk). destruct res as [t'|]; [|done]. simpl in Hk.
  destruct (_ != _) eqn:Ek; [done|]. injection Hk as <- ->. apply Resolve_inl in Hres as (Hdb0 & _ & trow & Hrow & -> & Hcons & Hexp).
  apply kept_then in H0 as (w2 & checked & Hc & H0 & Hn1); [|apply kept_consentPrincipal|done]. destruct checked as [p|x]; [|by injection H0 as <- _].
  apply consentPrincipal_inl in Hc as (row & Hf & Hu & Hcsrf & Hdb); [|by rewrite Hdb0]. rewrite Hdb0 in Hf, Hdb.
  destruct (_ || _) eqn:Ecs; [by injection H0 as <- _|]. unfold sameClearToken, ValidateCSRF in Ecs. rewrite Hcsrf in Ecs.
  apply kept_then in H0 as (w3 & ev & [He _]%attempt_inl & H0 & Hn2); [|apply tx_rel_attempt, kept_reads, kept_authorize_evaluate|done].
  destruct ev as [[c ev]|e]; [|destruct Hn2; by eapply kept_terminate]. apply evaluateAuthorization_inl in He as (crow & Hs & _).
  2: { apply ok_clients_key in Hok. by destruct Hdb as [->|[idle ->]]. }
  destruct (Get form "decision" == "deny").
  { apply kept_then in H0 as (w4 & d & _ & H0 & Hn3); [|apply tx_rel_attempt, kept_deny|done]. destruct Hn3.
    destruct d as [u|e]; [by injection H0 as <- _|]. unfold handleAuthorizationDecisionError in H0. destruct (flow_error e); [by injection H0 as <- _|].
    by eapply kept_terminate. }
  destruct (Get form "decision" == "approve") eqn:Ed; [|destruct Hn2; by injection H0 as <- _].
  exists form, (mapAuthTransaction trow), row, crow. go_bools. split_and!; try done.
  - by destruct (csrfMatches _ _); [|rewrite orb_true_r in H2].
  - by exists trow.
  - by destruct Hdb as [Hdb|[idle Hdb]]; rewrite Hdb in Hs.
Qed.

(** ** Who the back channel answers *)

(** The client proved itself: a public client by name alone, without credentials; a
    confidential one by the Basic header alone, with a secret whose digest is live. *)
Definition client_proved (db : DB) (form : Values) (header : Header) (v : Client) : Prop :=
  ∃ row, active_client db row v ∧ oidc.many form "client_secret" = 0 ∧
  ((Client_Type v = TypePublic ∧ Client_TokenEndpointAuthMethod v = AuthMethodNone ∧ Header_Values header "Authorization" = [] ∧
      one_value form "client_id" (Client_ClientID v)) ∨
   (Client_Type v = TypeConfidential ∧ Client_TokenEndpointAuthMethod v = AuthMethodClientSecretBasic ∧ oidc.many form "client_id" = 0 ∧
      ∃ value secret k sec, Header_Values header "Authorization" = [value] ∧ oidc.parseStrictBasic value = Some (Client_ClientID v, secret) ∧
        oidc_client_secrets db !! k = Some sec ∧ live_secret_of (cl_ID row) sec = true ∧ sec_SecretHash sec = client.HashSecret secret)).

Lemma ValidateSecret_inl id secret w w' v :
  keyed cl_ID (oidc_clients (w_db w)) → client.ValidateSecret id secret w = (w', inl v) →
  ∃ row k sec, active_client (w_db w) row v ∧ cl_ClientID row = id ∧
    oidc_client_secrets (w_db w) !! k = Some sec ∧ live_secret_of (cl_ID row) sec = true ∧ sec_SecretHash sec = client.HashSecret secret.
Proof.
  intros Hkey. unfold client.ValidateSecret. intros H0. tx_step H0. apply Tx_bind_inl in H0 as (w1 & [c hashes] & Hv%replace_error_inl & H0).
  do 2 tx_step H0. simpl in Hv. unfold GetClientSecretHashes in Hv. do 2 tx_step Hv.
  apply Tx_bind_inl in Hv as (w4 & c' & (Hdb' & row & Hrow & ->)%GetClient_inl & Hv). injection Hv as _ <- <-. injection H0 as _ <-.
  apply find_row_Some in Hstmt as [Hid [k Hk]]. pose proof (Hkey _ _ Hk) as Hkk. simpl in Hkk. subst k. rewrite Hdb0, Hk in Hrow. injection Hrow as <-.
  go_bools. apply existsb_exists in Hguard1 as (h & Hin & Eh). rewrite <- list_elem_of_In in Hin. go_bools. subst h.
  apply (elem_of_active_hashes (cl_ID a3) (w_db w)) in Hin as (k & sec & Hsec); [|apply active_secret_hashes].
  exists a3, k, sec. split; [|done]. rewrite Hdb0. by split.
Qed.

Lemma authenticateTokenClient_inl form header w w' challenged v :
  db_ok (w_db w) → oidc.many form "client_secret" = 0 → oidc.authenticateTokenClient form header w = (w', inl (challenged, Some v)) →
  client_proved (w_db w) form header v.
Proof.
  intros Hok Hs. unfold oidc.authenticateTokenClient. destruct (Header_Values header "Authorization") as [|value [|]] eqn:Eh; [| |done].
  - destruct (_ || _) eqn:Ec; [done|]. intros (w1 & res & [Hr _]%attempt_inl & [= _ H0])%Tx_bind_inl. destruct res as [c|e]; [|done].
    destruct ((_ != TypePublic) || _) eqn:Ev; [done|]. injection H0 as _ ->. apply ResolveActive_inl in Hr as (_ & row & Hid & Hact); [|done].
    exists row. do 2 (split; [done|]). left. go_bools. split_and!; try done. destruct Hact as (_ & -> & _). simpl. rewrite Hid. by apply many_one.
  - destruct (_ != _) eqn:Ec; [done|]. destruct (oidc.parseStrictBasic value) as [[id secret]|] eqn:Eb; [|done].
    intros (w1 & res & [Hr _]%attempt_inl & [= _ _ H0])%Tx_bind_inl. destruct res as [c|e]; [|done]. destruct ((_ != TypeConfidential) || _) eqn:Ev; [done|].
    injection H0 as ->. apply ValidateSecret_inl in Hr as (row & k & sec & Hact & Hid & Hsec); [|by apply ok_clients_key].
    exists row. do 2 (split; [done|]). right. go_bools. split_and!; try done. exists value, secret, k, sec. split; [done|].
    destruct Hact as (_ & -> & _). simpl. by rewrite Hid.
Qed.

Lemma reads_authenticate form header : reads (oidc.authenticateTokenClient form header).
Proof.
  unfold reads, oidc.authenticateTokenClient. destruct (Header_Values header "Authorization") as [|value [|]]; [| |tx_rel_auto].
  - destruct (_ || _); [tx_rel_auto|]. apply tx_rel_bind; [apply _| |intros x; apply tx_rel_ret, _]. apply tx_rel_attempt, ResolveActive_reads.
  - destruct (_ != _); [tx_rel_auto|]. destruct (oidc.parseStrictBasic value) as [[id secret]|]; [|tx_rel_auto].
    apply tx_rel_bind; [apply _| |intros x; apply tx_rel_ret, _]. apply tx_rel_attempt. simpl. unfold client.ValidateSecret. tx_rel_auto.
    apply tx_rel_replace_error; [apply _|]. apply reads_GetClientSecretHashes.
Qed.

(** What a parser that authenticates says: nothing was written, and a verified request names a
    client that proved itself. *)
Definition verifies {V} (client_of_request : V → Client) (form : Values) (header : Header) (m : Tx (V + oidc.TokenError)) : Prop :=
  reads m ∧ ∀ w w' v, db_ok (w_db w) → m w = (w', inl (inl v)) → client_proved (w_db w) form header (client_of_request v).

Lemma token_request_verifies form header : verifies oidc.TokenRequest_Client form header (oidc.ParseTokenRequest form header).
Proof.
  unfold oidc.ParseTokenRequest. split.
  - unfold reads. tx_rel_auto. apply reads_authenticate.
  - intros w w' v Hok. destruct (negb _); [done|]. destruct ((_ != 1) || _); [done|]. destruct (existsb _ _); [done|]. cbv zeta.
    destruct (_ && _); [done|]. destruct (_ != 0) eqn:Es; [done|]. apply negb_false_iff, bool_decide_eq_true in Es.
    intros (w1 & [challenged [c|]] & Ha & [= _ H0])%Tx_bind_inl. apply authenticateTokenClient_inl in Ha; [|done..].
    destruct (negb _ || _); [done|]. destruct (_ == "authorization_code"); revert H0; unfold oidc.codeGrant, oidc.refreshGrant;
      repeat case_match; intros [= <-]; done.
Qed.
Lemma revocation_request_verifies form header : verifies oidc.LifecycleRequest_Client form header (oidc.ParseRevocationRequest form header).
Proof.
  unfold oidc.ParseRevocationRequest. split.
  - unfold reads. tx_rel_auto. apply reads_authenticate.
  - intros w w' v Hok. destruct (negb _ || _); [done|]. destruct (_ != 0) eqn:Es; [done|]. apply negb_false_iff, bool_decide_eq_true in Es.
    intros (w1 & [challenged [c|]] & Ha & [= _ <-])%Tx_bind_inl. by apply authenticateTokenClient_inl in Ha.
Qed.
Lemma introspection_request_verifies form header : verifies oidc.LifecycleRequest_Client form header (oidc.ParseIntrospectionRequest form header).
Proof.
  unfold oidc.ParseIntrospectionRequest. split.
  - unfold reads. tx_rel_auto. apply reads_authenticate.
  - intros w w' v Hok. destruct (negb _ || _); [done|]. destruct (_ != 0) eqn:Es; [done|]. apply negb_false_iff, bool_decide_eq_true in Es.
    intros (w1 & [challenged [c|]] & Ha & [= _ H0])%Tx_bind_inl. apply authenticateTokenClient_inl in Ha; [|done..].
    destruct (_ || _); [done|]. by injection H0 as <-.
Qed.

(** The three endpoints that clients call for themselves. *)
Inductive BackChannel := AtToken | AtRevocation | AtIntrospection.
Definition back_channel (endpoint : BackChannel) : (uuid → bool) → Request → time → Tx HTTPResponse :=
  match endpoint with
  | AtToken => handleToken a
  | AtRevocation => handleRevocation a
  | AtIntrospection => handleIntrospection a
  end.

Lemma rate_limit_status request : Status (writeOAuthRateLimitResponse request) ≠ 200.
Proof. unfold writeOAuthRateLimitResponse. by repeat case_match. Qed.
Lemma writeOAuthError_status e : Status (writeOAuthError e) ≠ 200.
Proof. unfold writeOAuthError. simpl. repeat case_match; [lia|go_bools; lia|lia]. Qed.

(** A handler that parses a form, verifies the client and then works for it. *)
Lemma verified_first {V} (cl : V → Client) form header (m : Tx (V + oidc.TokenError)) (limited : uuid → bool) refusal work w w' r :
  verifies cl form header m → Status refusal ≠ 200 → db_ok (w_db w) →
  (parsed ← m; match parsed with
               | inr e => mret (writeOAuthError e)
               | inl v => if limited (Client_ID (cl v)) then mret refusal else work v
               end) w = (w', r) →
  (w_db w' ≠ w_db w ∨ ∃ answer, r = inl answer ∧ Status answer = 200) →
  ∃ v, client_proved (w_db w) form header (cl v) ∧ limited (Client_ID (cl v)) = false.
Proof.
  intros [Hr Hv] Hrefusal Hok E Hc. unfold mbind, Tx_bind in E. destruct (m w) as [w1 [[v|e]|e]] eqn:Em; pose proof (Hr _ _ _ Em) as Hdb.
  - destruct (limited (Client_ID (cl v))) eqn:El; [|exists v; eauto]. injection E as <- <-.
    destruct Hc as [Hc|(answer & [= <-] & Hs)]; [by rewrite Hdb in Hc|done].
  - injection E as <- <-. destruct Hc as [Hc|(answer & [= <-] & Hs)]; [by rewrite Hdb in Hc|by apply writeOAuthError_status in Hs].
  - injection E as <- <-. destruct Hc as [Hc|(answer & ? & Hs)]; [by rewrite Hdb in Hc|done].
Qed.

(** C3: The back channel works for authenticated clients only.  If a call of the token, the
    revocation or the introspection endpoint changes any table or answers with success, then
    it was a POST of an acceptable form without a client_secret field, by an active client
    that proved itself: a public client by its one client_id and no Authorization header, a
    confidential client by one Basic header alone whose secret has the digest of a live
    secret of that client; and the limiter let it pass. *)
Theorem back_channel_authenticated endpoint limited request now w w' r :
  db_ok (w_db w) → back_channel endpoint limited request now w = (w', r) →
  (w_db w' ≠ w_db w ∨ ∃ answer, r = inl answer ∧ Status answer = 200) →
  ∃ form v, Request_Method request = "POST" ∧ parseTokenForm request = Some form ∧
    client_proved (w_db w) form (Request_Header request) v ∧ limited (Client_ID v) = false.
Proof.
  intros Hok E Hc. assert (Hidle : ∀ answer, (w', r) = (w, inl answer) → Status answer ≠ 200 → False).
  { intros answer [= -> ->] Hs. destruct Hc as [Hc|(x & [= <-] & Hx)]; done. }
  destruct endpoint; simpl in E; [unfold handleToken in E|unfold handleRevocation in E|unfold handleIntrospection in E].
  all: destruct (_ != _) eqn:Em in E; [by destruct (Hidle methodNotAllowed)|]; apply negb_false_iff, bool_decide_eq_true in Em.
  all: destruct (parseTokenForm request) as [form|]; [|by destruct (Hidle _ (eq_sym E))].
  - destruct (verified_first _ _ _ _ _ _ _ _ _ _ (token_request_verifies form _) (rate_limit_status _) Hok E Hc) as (v & Hv & Hl). by exists form, (oidc.TokenRequest_Client v).
  - destruct (verified_first _ _ _ _ _ _ _ _ _ _ (revocation_request_verifies form _) (rate_limit_status _) Hok E Hc) as (v & Hv & Hl). by exists form, (oidc.LifecycleRequest_Client v).
  - destruct (verified_first _ _ _ _ _ _ _ _ _ _ (introspection_request_verifies form _) (rate_limit_status _) Hok E Hc) as (v & Hv & Hl). by exists form, (oidc.LifecycleRequest_Client v).
Qed.
End handlers.

(** ** Witnesses *)

#[local] Existing Instance demo_hint_codec.
#[export] Instance demo_fosite : Fosite := {|
  ErrInvalidRequest := mkRFC6749Error "invalid_request" 400; ErrInvalidClient := mkRFC6749Error "invalid_client" 401;
  ErrInvalidGrant := mkRFC6749Error "invalid_grant" 400; ErrInvalidScope := mkRFC6749Error "invalid_scope" 400;
  ErrUnsupportedGrantType := mkRFC6749Error "unsupported_grant_type" 400;
  Arguments_Has l x := existsb (EqualFold x) l |}.
#[export] Instance demo_http : HttpLibrary := {| ParseMediaType value := Some (value, []) |}.

Definition demo_issuer : URL := mkURL "https" "" None "issuer.example" "" "" false false "" "" "".
Definition demo_metadata : oidc.ProviderMetadata :=
  default (oidc.mkProviderMetadata "" "" "" "" "" "" "" "" [] [] [] [] [] [] [] [] [] [] [] []) (oidc.BuildProviderMetadata demo_issuer true).
Definition demo_app : Application :=
  mkApplication demo_clients demo_flow (NewSessionService demo_manager) demo_authorization demo_service demo_authn logout_service
    (NewCookieManager "session" true (8 * Time.Hour) Time.Hour) (logout.NewCookieManager "session" true (10 * Time.Minute))
    demo_issuer (admin.mkService demo_identity demo_clients Time.Hour) ("{}", "etag") demo_metadata.

(** One browser: it authorizes, meets the consent form, approves it, and comes back. *)
Definition browser_at (path method query body csrf : string) (headers : list (string * string)) : Request :=
  mkRequest method path (path +:+ "?" +:+ query) query false (list_to_map ((λ h, (h.1, [h.2])) <$> headers)) (len body) (Some body)
    (λ name, if name == "session" then demo_cookie else if name == "session_csrf" then csrf else "") "" AddrInvalid "req-7".
Definition browser : string → string → string → string → list (string * string) → Request := browser_at "/".
Definition minutes (n : Z) (k : nat) : time := t0 + n * Time.Minute + Z.of_nat k * Time.Second.
Definition location_of (r : HTTPResponse + error) : string := match r with inl r => default "" (Location r) | inr _ => "" end.
Definition query_of (uri name : string) : string := match Url.Parse uri with Some u => Get (ParseQuery (URL_RawQuery u)).1 name | None => "" end.

Definition authorized : World * (HTTPResponse + error) :=
  handleAuthorize demo_app (browser "GET" (request_query "") "" "" []) (minutes 1) (world_of relying_db 0).
Definition authorized_token : string := query_of (location_of authorized.2) "transaction".
Definition shown : World * (HTTPResponse + error) :=
  getConsent demo_app (browser "GET" ("transaction=" +:+ authorized_token) "" "" []) (minutes 2) (world_of (w_db authorized.1) 17).
Definition shown_csrf : string :=
  match shown.2 with inl r => match Cookies r with SetCSRF token :: _ => token | _ => "" end | inr _ => "" end.
Definition approval : Request :=
  browser "POST" "" ("transaction=" +:+ authorized_token +:+ "&csrf_token=" +:+ shown_csrf +:+ "&decision=approve") shown_csrf
    [("Content-Type", form_media_type); ("Origin", "https://issuer.example")].
Definition approved : World * (HTTPResponse + error) := postConsent demo_app approval (minutes 3) (world_of (w_db shown.1) 29).
Definition returned : World * (HTTPResponse + error) :=
  handleAuthorize demo_app (browser "GET" (request_query "&prompt=none") "" "" []) (minutes 4) (world_of (w_db approved.1) 41).
Definition code_request : Request :=
  browser "POST" "" ("grant_type=authorization_code&client_id=" +:+ cl_ClientID relying_client +:+ "&code=" +:+ query_of (location_of approved.2) "code" +:+
    "&redirect_uri=https%3A%2F%2Fapp.example%2Fcallback&code_verifier=" +:+ verifier) "" [("Content-Type", form_media_type)].
Definition exchanged_at_endpoint : World * (HTTPResponse + error) :=
  back_channel demo_app AtToken (λ _, false) code_request (t0 + 3 * Time.Minute + 20 * Time.Second) (world_of (w_db approved.1) 53).

Lemma answered_run {A} (run : World * (A + error)) (x : A) : run.2 = inl x → run = (run.1, inl x).
Proof. intros <-. by destruct run. Qed.
Lemma approved_db_ok : db_ok (w_db approved.1).
Proof. apply db_okb_spec. vm_compute. exact eq_refl. Qed.
Lemma shown_db_ok : db_ok (w_db shown.1).
Proof. apply db_okb_spec. vm_compute. exact eq_refl. Qed.

Definition answer_of (run : World * (HTTPResponse + error)) : HTTPResponse := match run.2 with inl r => r | inr _ => page 0 NoBody end.
Definition callback : string := "https://app.example/callback".

Lemma authorize_redirects_safe_witness : ∃ loc, Location (answer_of returned) = Some loc ∧
  ∃ response, oidc.BuildAuthorizationRedirect callback response = Some loc.
Proof.
  assert (Hrun : returned = (returned.1, inl (answer_of returned))) by (apply answered_run; vm_compute; exact eq_refl).
  assert (Hloc : Location (answer_of returned) = Some (location_of returned.2)) by (vm_compute; exact eq_refl).
  exists (location_of returned.2). split; [exact Hloc|].
  destruct (authorize_redirects_safe demo_app _ _ _ _ _ _ (world_ok _ _ approved_db_ok) Hrun Hloc) as [(path & token & _ & Hh)|(v & uri & response & _ & _ & Hu & Hb)].
  - exfalso. assert (Hs : Status (answer_of returned) = 303) by (rewrite Hh; reflexivity). revert Hs. vm_compute. discriminate.
  - assert (Huri : uri = callback) by (revert Hu; vm_compute; congruence). rewrite Huri in Hb. exact (ex_intro _ response Hb).
Defined.

(** The silent transaction, before it is advanced. *)
Definition silent_request : Request := browser "GET" (request_query "&prompt=none") "" "" [].
Definition silent_created : World * (string * Transaction + error) :=
  (parsed ← oidc.ParseAuthorizationRequest (R := httpserver.resolver demo_app) (Request_RawQuery silent_request);
   match parsed with
   | inl v => authflow.CreateVerified demo_flow (verified_input v) "req-7" (minutes 4 0)
   | inr _ => throw go_panic
   end) (world_of (w_db approved.1) 41).
Definition silent_transaction : Transaction := match silent_created.2 with inl (_, t) => t | inr _ => mapAuthTransaction demo_transaction end.
Definition silent_advance (db : DB) : World * (HTTPResponse + error) :=
  advanceAuthorization demo_app silent_request "" silent_transaction (minutes 4) (world_of db 47).

(** Without the session the same request is refused at the client's own address. *)
Lemma silent_never_interacts_witness : transactionHasPrompt silent_transaction "none" = true ∧
  ∃ r, (silent_advance (with_login_sessions ∅ (w_db silent_created.1))).2 = inl r ∧ goes_to (Transaction_RedirectURI silent_transaction) r.
Proof.
  assert (Hn : transactionHasPrompt silent_transaction "none" = true) by (vm_compute; exact eq_refl). split; [exact Hn|].
  set (run := silent_advance (with_login_sessions ∅ (w_db silent_created.1))).
  assert (Hrun : run = (run.1, inl (answer_of run))) by (apply answered_run; vm_compute; exact eq_refl).
  exists (answer_of run). split; [exact (f_equal snd Hrun)|]. 
  exact (silent_never_interacts demo_app silent_request "" silent_transaction (minutes 4)
    (world_of (with_login_sessions ∅ (w_db silent_created.1)) 47) run.1 (answer_of run) Hn Hrun).
Defined.

Lemma silent_db_ok : db_ok (w_db silent_created.1).
Proof. apply db_okb_spec. vm_compute. exact eq_refl. Qed.

Definition silent_world : World := world_of (w_db silent_created.1) 47.
Lemma silent_code_justified_witness : ∃ row crow,
  fresh_session demo_app (w_db silent_world) silent_request silent_transaction (minutes 4 1) (minutes 4 1) row ∧
  set_of (Transaction_Scopes silent_transaction) ⊆ granted_scopes (w_db silent_world) (ls_UserID row) (cl_ID crow).
Proof.
  set (run := advanceAuthorization demo_app silent_request "" silent_transaction (minutes 4) silent_world).
  destruct (silent_code_justified demo_app silent_request "" silent_transaction (minutes 4) silent_world run.1 run.2
    (world_ok _ _ silent_db_ok)) as (row & crow & Hf & _ & _ & Hg).
  - exact (surjective_pairing run).
  - intros E. apply (f_equal size) in E. revert E. vm_compute. discriminate.
  - exists row, crow. split; [exact Hf|exact Hg].
Defined.

Lemma interactive_code_justified_witness : ∃ form row,
  parseConsentForm approval = Some form ∧ csrfMatches (Get form "csrf_token") (ls_CsrfHash row) = true.
Proof.
  destruct (interactive_code_justified demo_app approval (minutes 3) (world_of (w_db shown.1) 29) approved.1 approved.2 (world_ok _ _ shown_db_ok))
    as (form & t & row & crow & _ & Hform & _ & _ & Hcsrf & _).
  - exact (surjective_pairing approved).
  - intros E. apply (f_equal size) in E. revert E. vm_compute. discriminate.
  - exists form, row. split; [exact Hform|exact Hcsrf].
Defined.

Definition token_world : World := world_of (w_db approved.1) 53.
Lemma back_channel_authenticated_witness : ∃ form v,
  parseTokenForm code_request = Some form ∧ client_proved (w_db token_world) form (Request_Header code_request) v.
Proof.
  destruct (back_channel_authenticated demo_app AtToken (λ _, false) code_request (t0 + 3 * Time.Minute + 20 * Time.Second)
    token_world exchanged_at_endpoint.1 exchanged_at_endpoint.2 (world_ok _ _ approved_db_ok)) as (form & v & _ & Hf & Hv & _).
  - exact (surjective_pairing exchanged_at_endpoint).
  - right. exists (answer_of exchanged_at_endpoint). split; vm_compute; exact eq_refl.
  - exists form, v. split; [exact Hf|exact Hv].
Defined.
