(* ===== verification/ApiTheorems.v ===== *)
(** * The management API: the theorems

    Nothing behind the API changes but a session's own bookkeeping, unless the request is
    the owner's own and, on an administrative path, the owner is an administrator. *)

From S2P Require Import Prelude Text Errors Platform Pagination Scopes Domain SessionTokens Url AuditEvents Database Queries.
From S2P Require Import BrowserQueries Tx StoreCommon ServiceCommon ConsentStore SessionStore UserStore ClientStore Invariants StatementFacts.
From S2P Require Import ServiceSteps TokenService AuthorizationService SessionService FlowService IdentityService AuthnService ClientService.
From S2P Require Import AdminService LogoutService Requests Endpoints Api Demo SessionTheorems IdentityTheorems AdminServiceTheorems EndpointTheorems.
Import httpserver api.

Section handlers.
Context {P : Platform} {C : TokenCodec} {H : logout.HintCodec} {T : TextLibrary} {K : KeyDerivation} {F : Fosite} {M : HttpLibrary}.
Context {G : GrantCursorCodec} {L : ApiLibrary}.
Context (a : Application).

(** Only the rows of the session table differ. *)
Definition only_sessions (db db' : DB) : Prop := ∃ s, db' = with_login_sessions s db.
#[local] Instance only_sessions_PreOrder : PreOrder only_sessions.
Proof.
  split.
  - intros db. exists (login_sessions db). by destruct db.
  - intros x y z [s ->] [s' ->]. by exists s'.
Qed.

Lemma reads_only {A} (m : Tx A) : reads m → tx_rel only_sessions m.
Proof. intros Hm w w' r E. rewrite (Hm _ _ _ E). reflexivity. Qed.

Lemma only_touch now idle id : stmt_rel only_sessions (BrowserQueries.TouchLoginSession now idle id).
Proof. apply stmt_rel_exec; [apply _|]. intros db x db' H0. apply update_row_inl in H0 as (row & _ & _ & _ & _ & ->). by eexists. Qed.
Lemma only_rotate hash expires id : stmt_rel only_sessions (BrowserQueries.RotateLoginSessionCSRF hash expires id).
Proof. apply stmt_rel_exec; [apply _|]. intros db x db' H0. apply update_row_inl in H0 as (row & _ & _ & _ & _ & ->). by eexists. Qed.
#[local] Hint Resolve reads_only only_touch only_rotate : tx_rel.

Lemma only_authenticate svc token now : tx_rel only_sessions (Authenticate svc token now).
Proof.
  unfold Authenticate. tx_rel_auto.
  - intros w w' r E. unfold not_found_none in E. destruct (Repository_FindLoginSession _ w) as [w1 x] eqn:Ef.
    apply (reads_only _ (reads_FindLoginSession _)) in Ef. destruct x as [p|e]; [|destruct (_ == _)]; by injection E as <- _.
  - simpl. unfold SessionStore.TouchLoginSession. tx_rel_auto.
Qed.
Lemma only_ensureCSRF request p now : tx_rel only_sessions (ensureCSRF a request p now).
Proof.
  unfold ensureCSRF, EnsureCSRF. destruct (ValidateCSRF p (csrf_cookie a request) now); tx_rel_auto. simpl. unfold RotateSessionCSRF. tx_rel_auto.
Qed.
Lemma only_principal request now : tx_rel only_sessions (requirePrincipal a request now).
Proof. apply tx_rel_bind; [apply _|apply tx_rel_attempt, only_authenticate|intros x; apply tx_rel_ret, _]. Qed.
Lemma only_respond {A} (m : Tx A) answer : tx_rel only_sessions m → tx_rel only_sessions (respond m answer).
Proof. intros Hm. apply tx_rel_bind; [apply _|by apply tx_rel_attempt|intros x; apply tx_rel_ret, _]. Qed.
Lemma only_with_csrf request p now k : tx_rel only_sessions k → tx_rel only_sessions (with_csrf a request p now k).
Proof.
  intros Hk. apply tx_rel_bind; [apply _|apply tx_rel_attempt, only_ensureCSRF|intros [[token cookies]|e]; [|apply tx_rel_ret, _]].
  apply tx_rel_bind; [apply _|done|intros x; apply tx_rel_ret, _].
Qed.
Lemma only_guarded request now k : (∀ p, tx_rel only_sessions (k p)) → tx_rel only_sessions (api.guarded (requirePrincipal a request now) k).
Proof. intros Hk. apply tx_rel_bind; [apply _|apply only_principal|intros [p|r]; [apply Hk|apply tx_rel_ret, _]]. Qed.
Lemma only_listing {A} request clock allowed (items : Principal → pagination.Cursor → Z → Tx (list A)) position body :
  (∀ p c l, reads (items p c l)) → tx_rel only_sessions (listing a request clock allowed items position body).
Proof.
  intros Hi. apply only_guarded. intros p. apply only_with_csrf. destruct (parsePage request) as [[c l]|]; [|apply tx_rel_ret, _].
  destruct (negb _); [apply tx_rel_ret, _|]. apply only_respond, reads_only, Hi.
Qed.

(** ** The request is the owner's own *)

(** The session behind the cookie is live, the request names no foreign origin, and
    the token in its header is the cookie's and the one whose digest the session stores. *)
Record own_request (db : DB) (request : Request) (now : time) (row : LoginSessionRow) (user : UserRow) : Prop := {
  or_live : authenticates db (session_cookie a request) now row user;
  or_origin : no_foreign_origin (app_issuer a) request;
  or_cookie : csrfHeader request = csrf_cookie a request;
  or_token : csrfMatches (csrfHeader request) (ls_CsrfHash row) = true }.

Lemma csrf_guard_None request p now :
  csrf_guard a request p now = None →
  no_foreign_origin (app_issuer a) request ∧ csrfHeader request = csrf_cookie a request ∧ csrfMatches (csrfHeader request) (Principal_CSRFHash p) = true.
Proof.
  unfold csrf_guard, requireStateChange, sameClearToken, ValidateCSRF. next_guard E. next_guard E1. next_guard E2. intros _.
  rewrite !orb_false_iff in E. destruct E as [_ E]. apply negb_false_iff in E, E1, E2. apply bool_decide_eq_true in E, E2.
  split_and!; [by apply sameOrigin_true|done|]. destruct (csrfMatches _ _); [done|]. by rewrite orb_true_r in E2.
Qed.

(** A mutation that changes more than sessions passed its guard, and its work did it. *)
Lemma mutation_guarded request clock k w w' r :
  db_ok (w_db w) → api.guarded (requirePrincipalMutation a request clock) k w = (w', r) → ¬ only_sessions (w_db w) (w_db w') →
  ∃ p row user w1, own_request (w_db w) request (clock 0%nat) row user ∧ User_Role (Principal_User p) = u_Role user ∧
    k p w1 = (w', r) ∧ w_db w' ≠ w_db w1.
Proof.
  intros Hok E Hn. unfold api.guarded, requirePrincipalMutation, requirePrincipal, mbind, Tx_bind in E.
  destruct (attempt _ w) as [w1 res] eqn:Ea. pose proof (tx_rel_attempt only_sessions _ (only_authenticate _ _ _) _ _ _ Ea) as Hs. simpl in Hs.
  destruct res as [[p|e]|e]; [|by injection E as <- _..]. simpl in E. destruct (csrf_guard a request p (clock 1%nat)) eqn:Eg; [by injection E as <- _|].
  apply attempt_inl in Ea as [Ea _]. apply Authenticate_inl in Ea as (_ & row & user & Hl & _ & _ & _ & _ & Hc & Hr & _); [|done].
  apply csrf_guard_None in Eg as (H1 & H2 & H3). rewrite Hc in H3. exists p, row, user, w1. split; [by split|]. split_and!; [done|done|].
  intros Hw. by rewrite Hw in Hn.
Qed.

(** ** Every route *)

Section routes.
Context (gates : Gates) (request : Request) (clock : nat → time).

Definition administrative : bool := part (path_parts (Request_Path request)) 1 == "admin".
Definition authorised (db : DB) : Prop :=
  ∃ row user, own_request db request (clock 0%nat) row user ∧ (administrative = true → u_Role user = RoleAdmin).
Definition handler_ok (h : Tx HTTPResponse) : Prop :=
  ∀ w w' r, db_ok (w_db w) → h w = (w', r) → ¬ only_sessions (w_db w) (w_db w') → authorised (w_db w).

Lemma ok_only h : tx_rel only_sessions h → handler_ok h.
Proof. intros Hh w w' r _ E Hn. by apply Hh in E. Qed.
Lemma ok_ret x : handler_ok (mret x).
Proof. apply ok_only, tx_rel_ret, _. Qed.
Lemma ok_if (b : bool) h k : handler_ok h → handler_ok k → handler_ok (if b then h else k).
Proof. by destruct b. Qed.
Lemma ok_owner k : administrative = false → handler_ok (api.guarded (requirePrincipalMutation a request clock) k).
Proof.
  intros Ha w w' r Hok E Hn. destruct (mutation_guarded _ _ _ _ _ _ Hok E Hn) as (p & row & user & w1 & Ho & _).
  exists row, user. split; [done|]. by rewrite Ha.
Qed.

(** The work is done for an administrator only. *)
Definition for_admin (p : Principal) (m : Tx HTTPResponse) : Prop := ∀ w w' r, m w = (w', r) → w_db w' ≠ w_db w → User_Role (Principal_User p) = RoleAdmin.
Lemma for_admin_ret p x : for_admin p (mret x).
Proof. intros w w' r [= <- _] Hw. done. Qed.
Lemma for_admin_check {A} p e (m : Tx A) answer :
  (e = None → is_admin p) → for_admin p (respond (check e;; m) answer).
Proof.
  intros He w w' r E Hw. destruct e as [x|]; [|by destruct He]. exfalso. apply Hw. unfold respond, mbind, Tx_bind, attempt in E. simpl in E.
  destruct x; by injection E as <- _.
Qed.
Lemma ok_admin k : (∀ p, for_admin p (k p)) → handler_ok (api.guarded (requirePrincipalMutation a request clock) k).
Proof.
  intros Hk w w' r Hok E Hn. destruct (mutation_guarded _ _ _ _ _ _ Hok E Hn) as (p & row & user & w1 & Ho & Hr & E1 & Hw).
  exists row, user. split; [done|]. intros _. rewrite <- Hr. by eapply Hk.
Qed.

Lemma check_authorize p : admin.Authorize p = None → is_admin p.
Proof. apply Authorize_None. Qed.
Lemma check_recent s p now : admin.RequireRecent s p now = None → is_admin p.
Proof. intros E. by apply RequireRecent_None in E as [E _]. Qed.
End routes.
Create HintDb api.
#[local] Hint Resolve ok_ret ok_if for_admin_ret : api.
#[local] Hint Resolve check_authorize check_recent : api.

(** The lists and lookups read. *)
Ltac reads_auto := simpl; tx_rel_auto; match goal with |- tx_rel eq ?m => change (reads m); eauto with reads end.

Ltac admin_work := apply ok_admin; intros p; try (destruct (decodeJSON _ _); [|auto with api]); apply for_admin_check; eauto with api.

Lemma admin_users_ok gate request clock : handler_ok request clock (handleAdminUsers a gate request clock).
Proof.
  unfold handleAdminUsers. apply ok_if; [|apply ok_if; [admin_work|auto with api]].
  apply ok_only, only_listing. intros p c l. unfold reads, admin.ListUsers. reads_auto.
Qed.
Lemma admin_user_ok rawID request clock : handler_ok request clock (handleAdminUser a request rawID clock).
Proof.
  unfold handleAdminUser. destruct (parseUUID rawID); [|auto with api]. apply ok_if; [|apply ok_if; [admin_work|auto with api]].
  apply ok_only, only_guarded. intros p. apply only_respond, reads_only. unfold reads, admin.GetUser. reads_auto.
Qed.
Lemma admin_clients_ok request clock : handler_ok request clock (handleAdminClients a request clock).
Proof.
  unfold handleAdminClients. apply ok_if; [|apply ok_if; [admin_work|auto with api]].
  apply ok_only, only_listing. intros p c l. unfold reads, admin.ListClients, client.List_. reads_auto.
Qed.
Lemma admin_client_ok rawID request clock : handler_ok request clock (handleAdminClient a request rawID clock).
Proof.
  unfold handleAdminClient. destruct (parseUUID rawID); [|auto with api]. apply ok_if; [|apply ok_if; [admin_work|auto with api]].
  apply ok_only, only_guarded. intros p. apply only_respond, reads_only. unfold reads, admin.GetClient, client.Get. reads_auto.
Qed.
Lemma admin_posts_ok rawID request clock :
  handler_ok request clock (handleAdminRevokeUserSessions a request rawID clock) ∧
  handler_ok request clock (handleAdminRotateClientSecret a request rawID clock) ∧
  handler_ok request clock (handleAdminRevokeSession a request rawID clock).
Proof.
  unfold handleAdminRevokeUserSessions, handleAdminRotateClientSecret, handleAdminRevokeSession.
  split_and!; (apply ok_if; [auto with api|]); (destruct (parseUUID rawID); [|auto with api]); admin_work.
Qed.

(** The handlers that only read. *)
Lemma read_handlers request clock :
  tx_rel only_sessions (handleMe a request clock) ∧ tx_rel only_sessions (handleMySessions a request clock) ∧
  tx_rel only_sessions (handleMyGrants a request clock) ∧ tx_rel only_sessions (handleAdminMe a request clock) ∧
  tx_rel only_sessions (handleAdminSessions a request clock) ∧ tx_rel only_sessions (handleAdminAudit a request clock).
Proof.
  unfold handleMe, handleMySessions, handleMyGrants, handleAdminMe, handleAdminSessions, handleAdminAudit.
  split_and!; destruct (_ != _); try (apply tx_rel_ret, _).
  - apply only_guarded. intros p. apply only_with_csrf, tx_rel_ret, _.
  - apply only_listing. intros p c l. unfold reads, SessionService.ListMine. reads_auto.
  - apply only_guarded. intros p. apply only_with_csrf. destruct (parseGrantPage request) as [[c l]|]; [|apply tx_rel_ret, _].
    apply only_respond, reads_only. unfold reads, AuthorizationService.ListMine. reads_auto.
  - apply only_guarded. intros p. destruct (admin.Authorize p); [apply tx_rel_ret, _|]. apply only_with_csrf, tx_rel_ret, _.
  - apply only_listing. intros p c l. unfold reads, admin.ListSessions. reads_auto.
  - apply only_listing. intros p c l. unfold reads, admin.ListAudit. reads_auto.
Qed.

(** The owner's mutations are on owner's paths. *)
Lemma owner_posts_ok rawID request clock : administrative request = false →
  handler_ok request clock (handleRevokeMySession a request rawID clock) ∧ handler_ok request clock (handleRevokeOtherSessions a request clock) ∧
  handler_ok request clock (handleRevokeMyGrant a request clock).
Proof.
  intros Ha. unfold handleRevokeMySession, handleRevokeOtherSessions, handleRevokeMyGrant. split_and!; (apply ok_if; [auto with api|]).
  - destruct (parseUUID rawID); [|auto with api]. by apply ok_owner.
  - by apply ok_owner.
  - apply ok_if; [auto with api|]. by apply ok_owner.
Qed.

Lemma fixed_path request path : (Request_Path request == path) = true → administrative request = (part (path_parts path) 1 == "admin").
Proof. unfold administrative. by intros ->%bool_decide_eq_true. Qed.
Lemma under_path request prefix x : (take 4 (path_parts (Request_Path request)) == prefix) = true → prefix !! 1%nat = Some x →
  administrative request = (x == "admin").
Proof.
  intros E%bool_decide_eq_true Hx. rewrite <- E, lookup_take in Hx. unfold administrative, part. case_decide; [|done]. by rewrite Hx.
Qed.

Lemma api_route_ok gates request clock h : api_route a gates request clock = Some h → handler_ok request clock h.
Proof.
  destruct (read_handlers request clock) as (R1 & R2 & R3 & R4 & R5 & R6). unfold api_route. cbv zeta.
  repeat (destruct (Request_Path request == _) eqn:E in |- *;
    [apply fixed_path in E; vm_compute (_ == _) in E; intros [= <-];
     first [by apply ok_only|apply owner_posts_ok; [exact ""|done]|apply admin_users_ok|apply admin_clients_ok]|clear E]).
  done.
Qed.
Lemma serveDynamic_ok request clock h : serveDynamic a request clock = Some h → handler_ok request clock h.
Proof.
  unfold serveDynamic. cbv zeta.
  destruct (_ && (take 4 _ == _) && _) eqn:E1.
  { apply andb_true_iff in E1 as [[_ E1]%andb_true_iff _]. intros [= <-]. apply owner_posts_ok. by apply (under_path _ _ "v1") in E1. }
  repeat match goal with |- (if ?b then _ else _) = _ → _ => destruct b; [intros [= <-]|] end; [..|done].
  - apply admin_user_ok.
  - apply admin_posts_ok.
  - apply admin_client_ok.
  - apply admin_posts_ok.
  - apply admin_posts_ok.
Qed.

(** C2: The API works for its owner, and administration for administrators.  Whatever the
    request, if a path outside the protocol leads to any change beyond the session table,
    then the session cookie selects a live session of an active user, the request names no
    foreign origin (an Origin header, or without one a Referer, is of the issuer's origin;
    neither need be sent), the token in its header equals the one in its cookie and has
    the digest that the session stores, and on an administrative path the user is an
    administrator now. *)
Theorem api_changes_authorised gates request clock w w' r :
  db_ok (w_db w) → protocol_route a gates request clock = None → ServeHTTP a gates request clock w = (w', r) →
  ¬ only_sessions (w_db w) (w_db w') →
  ∃ row user, own_request (w_db w) request (clock 0%nat) row user ∧ (administrative request = true → u_Role user = RoleAdmin).
Proof.
  intros Hok Hp. unfold ServeHTTP. rewrite Hp. destruct (oauthLifecycleRateLimited _ _); [by intros E; apply (ok_ret request clock _ _ _ _ Hok E)|].
  destruct (authenticationRateLimited _ _); [by intros E; apply (ok_ret request clock _ _ _ _ Hok E)|].
  destruct (api_route a gates request clock) as [h|] eqn:Ea; [by apply (api_route_ok _ _ _ _ Ea)|].
  destruct (serveDynamic a request clock) as [h|] eqn:Ed; [by apply (serveDynamic_ok _ _ _ Ed)|]. intros E. apply (ok_ret request clock _ _ _ _ Hok E).
Qed.
End handlers.

(** ** Witness *)

#[local] Existing Instance LogoutServiceTheorems.demo_hint_codec.
#[local] Instance demo_grant_codec : GrantCursorCodec := {|
  Marshal_wire wire := Wire_UpdatedAt wire +:+ "," +:+ Wire_ClientID wire;
  Decode_wire payload := match split_on "," payload with [updated; client] => Some (mkGrantCursorWire 1 updated client) | _ => None end;
  Format_RFC3339Nano := show_Z; Parse_RFC3339Nano := read_Z |}.
#[local] Instance demo_api : ApiLibrary := {|
  Decode_createUserRequest _ := None; Decode_updateUserRequest _ := None; Decode_createClientRequest _ := None;
  Decode_updateClientRequest _ := None; uuid_Parse raw := if raw == "4" then Some 4%N else None |}.

(** The owner revokes the session of this browser. *)
Definition revoke_request : Request :=
  browser_at "/api/v1/me/sessions/4/revoke" "POST" "" "" shown_csrf [("X-CSRF-Token", shown_csrf); ("Origin", "https://issuer.example")].
Definition open_gates : Gates := mkGates true true (λ _, false) None None.
Definition revoke_world : World := world_of (w_db approved.1) 61.
Definition revoked_run : World * (HTTPResponse + error) := ServeHTTP demo_app open_gates revoke_request (minutes 5) revoke_world.

Lemma api_changes_authorised_witness : ∃ row user, own_request demo_app (w_db revoke_world) revoke_request (minutes 5 0) row user.
Proof.
  destruct (api_changes_authorised demo_app open_gates revoke_request (minutes 5) revoke_world revoked_run.1 revoked_run.2
    (world_ok _ _ approved_db_ok)) as (row & user & Ho & _).
  - vm_compute. exact eq_refl.
  - exact (surjective_pairing revoked_run).
  - intros [s Hs]. apply (f_equal (λ db, size (audit_events db))) in Hs. revert Hs. vm_compute. discriminate.
  - exists row, user. exact Ho.
Defined.
