(* ===== verification/ConfigTheorems.v ===== *)
(** * Theorems about the configuration

    A configuration that loads starts every service within the bounds the services assume; a
    production configuration is hardened; the redacted form of a database URL does not
    depend on its secrets.  Then the commands: the bootstrap command creates the first
    administrator or nothing. *)

From S2P Require Import Prelude Text Errors Platform SessionTokens NetAddr Url Scopes Domain Opaque Database Tx TokenService AuthorizationService.
From S2P Require Import SessionService FlowService IdentityService AuthnService ClientService AdminService LogoutService Requests Endpoints Api Config.
From S2P Require Import StoreCommon ServiceCommon LoginStore UserStore Lifecycle SessionProofs Commands TokenTheorems IdentityTheorems AdminTheorems Demo.

Import Refresh config.

(** ** Readers that report nothing *)

(** Readers only append problems. *)
Class Appends {A} (m : Load A) : Prop := appends : ∀ problems, ∃ more, (m problems).2 = problems ++ more.

#[export] Instance ret_Appends {A} (a : A) : Appends (mret a).
Proof. intros l. exists []. by rewrite app_nil_r. Qed.
#[export] Instance bind_Appends {A B} (m : Load A) (k : A → Load B) : Appends m → (∀ a, Appends (k a)) → Appends (m ≫= k).
Proof.
  intros Hm Hk l. unfold mbind, Load_bind. destruct (Hm l) as [l1 E1], (m l) as [a l'] eqn:E. simpl in E1. subst l'.
  destruct (Hk a (l ++ l1)) as [l2 ->]. exists (l1 ++ l2). by rewrite app_assoc.
Qed.
#[export] Instance report_Appends name c : Appends (report name c).
Proof. intros l. by exists [mkProblem name c]. Qed.
#[export] Instance report_if_Appends b name message : Appends (report_if b name message).
Proof. unfold report_if. destruct b; apply _. Qed.
#[export] Instance if_Appends {A} (b : bool) (m n : Load A) : Appends m → Appends n → Appends (if b then m else n).
Proof. by destruct b. Qed.
#[export] Instance option_Appends {A X} (o : option X) (f : X → Load A) (n : Load A) :
  (∀ x, Appends (f x)) → Appends n → Appends (match o with Some x => f x | None => n end).
Proof. by destruct o. Qed.
#[export] Instance read_Appends {A} lookup name (fallback : A) parse : Appends (read lookup name fallback parse).
Proof. unfold read. destruct (lookup name); [destruct (parse _)|]; apply _. Qed.

(** What the value satisfies when no problem is reported. *)
Definition yields {A} (m : Load A) (Q : A → Prop) : Prop := ∀ a, m [] = (a, []) → Q a.

Lemma yields_ret {A} (a : A) (Q : A → Prop) : Q a → yields (mret a) Q.
Proof. by intros H ? [= <-]. Qed.
Lemma yields_bind {A B} (m : Load A) (k : A → Load B) (R : A → Prop) (Q : B → Prop) :
  yields m R → (∀ a, Appends (k a)) → (∀ a, R a → yields (k a) Q) → yields (m ≫= k) Q.
Proof.
  intros Hm Ha Hk b. unfold mbind, Load_bind. destruct (m []) as [a l] eqn:E. intros Eb.
  destruct (Ha a l) as [l' E']. rewrite Eb in E'. simpl in E'. symmetry in E'. apply app_eq_nil in E' as [-> _]. by apply (Hk a (Hm a E)).
Qed.
Lemma yields_weaken {A} (m : Load A) (Q R : A → Prop) : yields m Q → (∀ a, Q a → R a) → yields m R.
Proof. firstorder. Qed.
Lemma yields_any {A} (m : Load A) : yields m (λ _, True).
Proof. done. Qed.
Lemma yields_report name c (Q : unit → Prop) : yields (report name c) Q.
Proof. done. Qed.
Lemma yields_report_if b name message : yields (report_if b name message) (λ _, b = false).
Proof. unfold report_if. destruct b; [apply yields_report|by intros ??]. Qed.
Lemma yields_if {A} (b : bool) (m n : Load A) (Q : A → Prop) : (b = true → yields m Q) → (b = false → yields n Q) → yields (if b then m else n) Q.
Proof. destruct b; auto. Qed.

Section readers.
Context (lookup : string → option string).

Lemma yields_read {A} name (fallback : A) parse (Q : A → Prop) :
  Q fallback → (∀ raw v, lookup name = Some raw → parse raw = inl v → Q v) → yields (read lookup name fallback parse) Q.
Proof.
  intros Hf Hp a. unfold read. destruct (lookup name) as [raw|]; [|by intros [= <-]].
  destruct (parse raw) eqn:E; [|done]. intros [= <-]. by eapply Hp.
Qed.

Lemma yields_bounded scan name fallback lo hi :
  lo <= fallback <= hi → yields (parse_bounded lookup scan name fallback lo hi) (λ v, lo <= v <= hi).
Proof.
  intros Hf. apply yields_read; [done|]. intros raw v _. destruct (scan raw) as [n|]; [|done].
  destruct ((n <? lo) || (hi <? n)) eqn:E; [done|]. intros [= <-]. go_bools. lia.
Qed.
Lemma yields_duration name fallback hi :
  0 < fallback <= hi → yields (parseDuration lookup name fallback hi) (λ v, 0 < v <= hi).
Proof.
  intros Hf. apply yields_read; [done|]. intros raw v _. destruct (ParseDuration raw) as [n|]; [|done].
  destruct (Z.leb_spec n 0); [done|]. destruct (Z.ltb_spec hi n); [done|]. intros [= <-]. lia.
Qed.
Lemma yields_range name fallback lo hi zero :
  lo <= fallback <= hi → yields (parseDurationRange lookup name fallback lo hi zero) (λ v, lo <= v <= hi).
Proof.
  intros Hf. apply yields_read; [done|]. intros raw v _. destruct (ParseDuration raw) as [n|]; [|done].
  destruct ((n <? lo) || (hi <? n) || _) eqn:E; [done|]. intros [= <-]. rewrite !orb_false_iff in E. go_bools. lia.
Qed.
End readers.

(** One step of a reader: the bound of what it reads, or nothing known. *)
Ltac load_bound := first
  [ apply yields_bounded; by vm_compute
  | apply yields_duration; by vm_compute
  | apply yields_range; by vm_compute
  | apply yields_report_if ].
Ltac load_step := eapply yields_bind; [load_bound|apply _|let a := fresh "a" in let H := fresh "H" in intros a H; cbv beta in H].
Ltac load_skip := eapply yields_bind; [apply yields_any|apply _|intros ? _].

Section groups.
Context (lookup : string → option string).

Record password_ok (p : identity.PasswordConfig) : Prop := {
  po_length : 15 <= identity.PasswordConfig_MinLength p <= 128;
  po_bytes : identity.PasswordConfig_MinLength p <= identity.PasswordConfig_MaxBytes p <= 4096;
  po_memory : 19 * 1024 <= identity.PasswordConfig_Argon2MemoryKiB p;
  po_time : 2 <= identity.PasswordConfig_Argon2Time p <= 10;
  po_threads : 1 <= identity.PasswordConfig_Argon2Threads p <= 16;
  po_workers : 1 <= identity.PasswordConfig_MaxConcurrent p <= 64;
  po_budget : identity.PasswordConfig_Argon2MemoryKiB p * identity.PasswordConfig_MaxConcurrent p <= maxArgon2MemoryBudgetKiB }.

Lemma parsePasswordConfig_yields : yields (parsePasswordConfig lookup (Config_Password defaults)) password_ok.
Proof.
  unfold parsePasswordConfig. do 8 load_step. apply yields_ret. unfold maxArgon2MemoryBudgetKiB in *. go_bools.
  assert (0 <= a2 * a5 < 2 ^ 64) by nia. rewrite Z.mod_small in * by done. split; simpl; unfold maxArgon2MemoryBudgetKiB; lia.
Qed.

Record browser_ok (environment : Environment) (b : BrowserConfig) : Prop := {
  bo_session : 0 < Browser_SessionTTL b <= maxSessionTTL;
  bo_idle : 0 < Browser_SessionIdleTimeout b <= Browser_SessionTTL b;
  bo_csrf : 0 < Browser_CSRFTTL b <= maxCSRFTTL;
  bo_flow : 0 < Browser_AuthTransactionTTL b <= maxAuthTransactionTTL;
  bo_rate : 1 <= Browser_AuthRatePerMinute b <= 60000 ∧ 1 <= Browser_AuthRateBurst b <= 1000 ∧
            1 <= Browser_AuthGlobalRate b <= 10000 ∧ 1 <= Browser_AuthGlobalBurst b <= 20000;
  bo_production : environment = EnvironmentProduction → Browser_CookieSecure b = true ∧ HasPrefix (Browser_CookieName b) "__Host-" = true }.

Lemma parseBrowserConfig_yields environment : yields (parseBrowserConfig lookup environment (Config_Browser defaults)) (browser_ok environment).
Proof.
  unfold parseBrowserConfig. load_skip. eapply yields_bind; [apply yields_any|intros; apply _|]. intros secure _.
  do 10 load_step. load_skip. load_step.
  eapply yields_bind with (R := λ _, environment = EnvironmentProduction → secure.1 = true ∧ HasPrefix a "__Host-" = true); [|apply _|].
  - apply yields_if; intros E; go_bools; [|by apply yields_ret].
    load_step. load_step. eapply yields_weaken; [apply yields_any|]. intros _ _ _. go_bools. simplify_eq; split; by rewrite ?negb_false_iff in *.
  - intros _ Hp. apply yields_ret. go_bools. split; simpl; try done; lia.
Qed.

Record oidc_ok (o : OIDCConfig) : Prop := {
  oo_code : minAuthorizationCodeTTL <= OIDC_AuthorizationCodeTTL o <= maxAuthorizationCodeTTL;
  oo_id : minIDTokenTTL <= OIDC_IDTokenTTL o <= maxIDTokenTTL;
  oo_access : minAccessTokenTTL <= OIDC_AccessTokenTTL o <= maxAccessTokenTTL;
  oo_skew : 0 <= OIDC_ClockSkew o <= maxOIDCClockSkew;
  oo_key : OIDC_SigningKeyFile o ≠ "" }.

Lemma parseOIDCConfig_yields : yields (parseOIDCConfig lookup (Config_OIDC defaults)) oidc_ok.
Proof.
  unfold parseOIDCConfig. eapply yields_bind with (R := λ file, file ≠ ""); [|intros; apply _|].
  - destruct (lookup _) as [file|]; [|done]. do 2 (apply yields_if; intros; [done|]). apply yields_ret. intros ->. done.
  - intros file Hf. load_skip. do 4 load_step. apply yields_ret. by split.
Qed.

Record lifecycle_ok (l : LifecycleConfig) : Prop := {
  lo_refresh : Time.Hour <= Lifecycle_RefreshTokenTTL l <= 30 * 24 * Time.Hour;
  lo_absolute : 24 * Time.Hour <= Lifecycle_RefreshTokenAbsoluteTTL l <= 365 * 24 * Time.Hour;
  lo_order : Lifecycle_RefreshTokenTTL l <= Lifecycle_RefreshTokenAbsoluteTTL l;
  lo_logout : Time.Minute <= Lifecycle_LogoutTransactionTTL l <= 15 * Time.Minute;
  lo_active : 1 <= Lifecycle_LogoutMaxActivePerSession l <= 5;
  lo_hint : 5 * Time.Minute <= Lifecycle_LogoutIDTokenHintMaxAge l <= 30 * 24 * Time.Hour;
  lo_rate : 1 <= Lifecycle_OAuthRatePerMinute l <= 60000 ∧ 1 <= Lifecycle_OAuthRateBurst l <= 1000 ∧
            1 <= Lifecycle_OAuthGlobalRate l <= 10000 ∧ 1 <= Lifecycle_OAuthGlobalBurst l <= 20000 }.

Lemma parseLifecycleConfig_yields : yields (parseLifecycleConfig lookup (Config_Lifecycle defaults)) lifecycle_ok.
Proof. unfold parseLifecycleConfig. do 10 load_step. apply yields_ret. go_bools. split; simpl; try done; lia. Qed.

(** The issuer is a canonical origin; plain HTTP only on a loopback host, never in production. *)
Record issuer_ok (environment : Environment) (issuer : URL) : Prop := {
  io_canonical : Url.Parse (URL_String issuer) = Some issuer;
  io_scheme : URL_Scheme issuer = "https" ∨ URL_Scheme issuer = "http" ∧ isLoopbackIssuerHost (Hostname issuer) = true ∧ environment ≠ EnvironmentProduction;
  io_origin : URL_Host issuer ≠ "" ∧ URL_User issuer = None ∧ URL_Opaque issuer = "" ∧ URL_Path issuer = "" ∧ URL_RawPath issuer = "" ∧
              URL_RawQuery issuer = "" ∧ URL_ForceQuery issuer = false ∧ URL_Fragment issuer = "" }.

Lemma validateIssuer_inl raw issuer :
  validateIssuer raw = inl issuer →
  Url.Parse raw = Some issuer ∧ URL_String issuer = raw ∧ (URL_Scheme issuer = "http" ∨ URL_Scheme issuer = "https") ∧
  (URL_Host issuer ≠ "" ∧ URL_User issuer = None ∧ URL_Opaque issuer = "" ∧ URL_Path issuer = "" ∧ URL_RawPath issuer = "" ∧
   URL_RawQuery issuer = "" ∧ URL_ForceQuery issuer = false ∧ URL_Fragment issuer = "").
Proof.
  unfold validateIssuer, issuer_problem. destruct (_ || (raw != _)); [done|]. destruct (Url.Parse raw) as [u|]; [|done].
  destruct (negb (IsAbs u) || _ || _) eqn:E1; [done|]. destruct (_ && _) eqn:E2; [done|]. destruct (URL_User u != None) eqn:E3; [done|].
  destruct ((URL_Path u != "") || _) eqn:E4; [done|]. destruct ((URL_RawQuery u != "") || _ || _ || _) eqn:E5; [done|].
  destruct (_ || ends_with _ _); [done|]. destruct (_ && match Atoi _ with Some _ => _ | None => _ end); [done|].
  destruct (URL_String u != raw) eqn:E6; [done|]. intros [= <-].
  rewrite ?orb_false_iff, ?andb_false_iff in *. go_bools. naive_solver.
Qed.

Lemma load_issuer_yields environment : yields (load_issuer lookup environment) (λ issuer, ∃ u, issuer = Some u ∧ issuer_ok environment u).
Proof.
  unfold load_issuer. destruct (valueOrDefault _ _ _) as [raw set]. destruct (validateIssuer raw) as [u|] eqn:E.
  - apply validateIssuer_inl in E as (Hp & Hs & Hscheme & Ho). load_skip. load_step.
    eapply yields_bind with (R := λ _, environment = EnvironmentProduction → URL_Scheme u = "https"); [|apply _|].
    + apply yields_if; intros E; go_bools; [|by apply yields_ret]. destruct set; [|done]. simpl.
      eapply yields_weaken; [apply yields_report_if|]. intros ? Hb _. cbv beta in Hb. go_bools. done.
    + intros _ Hprod. apply yields_ret. exists u. split; [done|]. split; [congruence| |done].
      destruct Hscheme as [Hh|?]; [|by left]. right. rewrite Hh in *. simpl in *. go_bools. naive_solver.
  - eapply yields_bind with (R := λ _, False); [apply yields_report|intros; apply _|done].
Qed.

Lemma load_database_yields : yields (load_database lookup)
  (λ d, d.2 = EnvironmentProduction → databaseUsesVerifyFull (UnsafeValue (Database_URL d.1)) = true).
Proof.
  unfold load_database. eapply yields_bind with (R := λ url, lookup "ONEISSUER_DATABASE_URL" = Some (UnsafeValue url)); [|intros; apply _|].
  - destruct (lookup _) as [raw|]; [|done]. apply yields_if; [done|intros _]. destruct (validateDatabaseURL raw); [done|]. by apply yields_ret.
  - intros url Hu. load_step. load_skip. load_step. apply yields_ret. simpl. intros ->. rewrite Hu in H0. go_bools. by destruct H0.
Qed.

(** What holds of a configuration that loads for the service. *)
Record config_ok (cfg : Config) : Prop := {
  co_issuer : ∃ issuer, Config_Issuer cfg = Some issuer ∧ issuer_ok (Config_Environment cfg) issuer;
  co_database : Config_Environment cfg = EnvironmentProduction → databaseUsesVerifyFull (UnsafeValue (Database_URL (Config_Database cfg))) = true;
  co_browser : browser_ok (Config_Environment cfg) (Config_Browser cfg);
  co_password : password_ok (Config_Password cfg);
  co_oidc : oidc_ok (Config_OIDC cfg);
  co_lifecycle : lifecycle_ok (Config_Lifecycle cfg) }.

#[local] Instance load_issuer_Appends environment : Appends (load_issuer lookup environment).
Proof. unfold load_issuer. destruct (valueOrDefault _ _ _), (validateIssuer _); apply _. Qed.
#[local] Instance load_http_Appends : Appends (load_http lookup).
Proof. unfold load_http. destruct (valueOrDefault _ _ _). apply _. Qed.

Lemma load_yields : yields (load lookup ScopeService) config_ok.
Proof.
  unfold load. eapply yields_bind; [apply load_database_yields|intros []; apply _|]. intros [database environment] Hd. simpl in *.
  eapply yields_bind; [apply parsePasswordConfig_yields|apply _|]. intros password Hp. unfold load_service.
  eapply yields_bind; [apply load_issuer_yields|apply _|]. intros issuer Hi. do 10 load_skip.
  eapply yields_bind; [apply parseBrowserConfig_yields|apply _|]. intros browser Hb.
  eapply yields_bind; [apply parseOIDCConfig_yields|apply _|]. intros oidc Ho.
  eapply yields_bind; [apply parseLifecycleConfig_yields|apply _|]. intros lifecycle Hl.
  apply yields_ret. by split.
Qed.

Lemma LoadFrom_ok cfg : LoadFrom lookup ScopeService = inl cfg → config_ok cfg.
Proof.
  unfold LoadFrom. destruct (load _ _ _) as [c [|]] eqn:E; [|done]. intros [= <-]. by apply load_yields.
Qed.
End groups.

(** ** Start-up *)

Section startup.
Context {P : Platform} {T : TextLibrary} {K : KeyDerivation} (keys : bytes * string).

Lemma identity_starts cfg source :
  password_ok cfg → (16 <= String.length source)%nat →
  ∃ s, identity.NewService cfg None source = (str_drop 16 source, inl s) ∧
       identity.capacity (identity.hasher s) = identity.PasswordConfig_MaxConcurrent cfg.
Proof.
  intros Hp Hsource. unfold identity.NewService, identity.NewPasswordHasher. destruct Hp. simpl.
  replace (identity.PasswordConfig_Argon2MemoryKiB cfg =? 0) with false by lia.
  replace (identity.PasswordConfig_Argon2Time cfg =? 0) with false by lia.
  replace (identity.PasswordConfig_Argon2Threads cfg =? 0) with false by lia. simpl.
  replace (identity.PasswordConfig_MaxConcurrent cfg <? 1) with false by lia. simpl.
  unfold mbind, Rnd_bind, identity.Hash. simpl. unfold mbind, Rnd_bind. rewrite ReadFull_enough by done. simpl. eauto.
Qed.

Lemma tokens_start o l issuer environment :
  oidc_ok o → lifecycle_ok l → issuer_ok environment issuer →
  ∃ s, NewService (URL_String issuer) (OIDC_IDTokenTTL o) (OIDC_AccessTokenTTL o) (OIDC_ClockSkew o)
         (lifetime_options [(Lifecycle_RefreshTokenTTL l, Lifecycle_RefreshTokenAbsoluteTTL l)]) = Some s ∧
       Service_refreshTokenTTL s = Lifecycle_RefreshTokenTTL l.
Proof.
  intros [_ Hi Ha Hs _] [H1 H2 H3 _ _ _ _] [Hc Hsch (Hh & Hu & Hop & Hp & Hrp & Hq & Hf & Hfr)].
  unfold minIDTokenTTL, maxIDTokenTTL, minAccessTokenTTL, maxAccessTokenTTL, maxOIDCClockSkew in *.
  assert (issuer_origin (URL_String issuer) = true) as Ho.
  { unfold issuer_origin, IsAbs. rewrite Hc, Hp, Hq, Hfr, Hu. simpl. rewrite !andb_true_r. go_bools.
    split; [destruct Hsch as [->|[-> _]]; done|done]. }
  unfold NewService. rewrite Ho. replace (_ || (2 * Time.Minute <? _)) with false; [|symmetry; simpl; rewrite !orb_false_iff, !Z.ltb_ge; lia].
  simpl. unfold WithRefreshLifetimes, RefreshDeadlines. replace (_ || (_ <? Lifecycle_RefreshTokenTTL l)) with false; [eauto|].
  symmetry. rewrite !orb_false_iff, !Z.ltb_ge. unfold maxRefreshRolling, maxRefreshAbsolute. repeat split; lia.
Qed.

Lemma logout_starts o l issuer environment :
  oidc_ok o → lifecycle_ok l → issuer_ok environment issuer →
  ∃ s, logout.NewService (URL_String issuer) (Lifecycle_LogoutTransactionTTL l) (Lifecycle_LogoutIDTokenHintMaxAge l) (OIDC_ClockSkew o)
         (Lifecycle_LogoutMaxActivePerSession l) = Some s ∧ logout.issuer s = URL_String issuer.
Proof.
  intros [_ _ _ Hs _] [_ _ _ H1 H2 H3 _] [Hc Hsch (Hh & Hu & Hop & Hp & Hrp & Hq & Hf & Hfr)]. unfold maxOIDCClockSkew in *.
  unfold logout.NewService. rewrite Hc, Hp, Hq, Hfr, Hu, Hop, Hrp, Hf.
  replace (_ || (5 <? _)) with false; [eauto|]. symmetry. rewrite !orb_false_iff, !Z.ltb_ge. go_bools.
  repeat split; try lia; try done. destruct Hsch as [?|[? _]]; auto.
Qed.

Lemma metadata_built issuer environment :
  issuer_ok environment issuer → ∃ m, oidc.BuildProviderMetadata issuer true = Some m ∧ oidc.Meta_Issuer m = URL_String issuer.
Proof.
  intros [Hc Hsch (Hh & Hu & Hop & Hp & Hrp & Hq & Hf & Hfr)]. unfold oidc.BuildProviderMetadata, IsAbs.
  rewrite Hp, Hq, Hfr, Hu, Hop, Hrp, Hf. replace (_ || _) with false; [eauto|]. symmetry. rewrite !orb_false_iff. go_bools.
  repeat split; try done; destruct Hsch as [E|[E _]]; rewrite E; auto.
Qed.

Lemma browser_starts environment b :
  browser_ok environment b →
  NewTokenManager (Browser_SessionTTL b) (Browser_SessionIdleTimeout b) (Browser_CSRFTTL b) =
    Some (mkTokenManager (Browser_SessionTTL b) (Browser_SessionIdleTimeout b) (Browser_CSRFTTL b)) ∧
  authflow.NewService (Browser_AuthTransactionTTL b) = Some (authflow.mkService (Browser_AuthTransactionTTL b)).
Proof.
  intros [H1 H2 H3 H4 _ _]. unfold maxAuthTransactionTTL in *. unfold NewTokenManager, authflow.NewService.
  replace (_ || (Browser_CSRFTTL b <=? 0)) with false by (symmetry; rewrite !orb_false_iff, !Z.leb_gt, Z.ltb_ge; lia).
  replace (_ || (Time.Hour <? _)) with false by (symmetry; rewrite !orb_false_iff, Z.leb_gt, Z.ltb_ge; lia). done.
Qed.

(** The handler a configuration that loads is served by. *)
Record started (cfg : Config) (app : httpserver.Application) : Prop := {
  st_tokens : service_ok (httpserver.app_tokens app);
  st_refresh : Service_refreshTokenTTL (httpserver.app_tokens app) = Lifecycle_RefreshTokenTTL (Config_Lifecycle cfg);
  st_issuer : Config_Issuer cfg = Some (httpserver.app_issuer app);
  st_agree : Service_issuer (httpserver.app_tokens app) = URL_String (httpserver.app_issuer app) ∧
             logout.issuer (httpserver.app_logout app) = URL_String (httpserver.app_issuer app) ∧
             oidc.Meta_Issuer (httpserver.app_metadata app) = URL_String (httpserver.app_issuer app);
  st_memory : identity.PasswordConfig_Argon2MemoryKiB (Config_Password cfg) *
              identity.capacity (identity.hasher (authn.identities (httpserver.app_authn app))) <= 1024 * 1024;
  st_clients : client.allowHTTPOnLoopback (httpserver.app_clients app) = (Config_Environment cfg != EnvironmentProduction);
  st_cookies : httpserver.app_cookies app = httpserver.NewCookieManager (Browser_CookieName (Config_Browser cfg))
    (Browser_CookieSecure (Config_Browser cfg)) (Browser_SessionTTL (Config_Browser cfg)) (Browser_CSRFTTL (Config_Browser cfg));
  st_logout_cookies : httpserver.app_logout_cookies app = logout.NewCookieManager (Browser_CookieName (Config_Browser cfg))
    (Browser_CookieSecure (Config_Browser cfg)) (Lifecycle_LogoutTransactionTTL (Config_Lifecycle cfg)) }.

Lemma config_starts cfg source :
  config_ok cfg → (16 <= String.length source)%nat →
  ∃ app, services cfg None keys source = (str_drop 16 source, inl app) ∧ started cfg app.
Proof.
  intros [(issuer & Hissuer & Hi) _ Hb Hp Ho Hl] Hsource. unfold services.
  destruct (identity_starts _ source Hp Hsource) as (s & Es & Hcap). destruct (browser_starts _ _ Hb) as [Em Ef].
  destruct (tokens_start _ _ _ _ Ho Hl Hi) as (ts & Et & Htr). destruct (logout_starts _ _ _ _ Ho Hl Hi) as (ls & Els & Hlsi).
  destruct (metadata_built _ _ Hi) as (m & Emeta & Hm).
  assert (NewAuthorizationService (OIDC_AuthorizationCodeTTL (Config_OIDC cfg)) = Some (mkAuthorizationService (OIDC_AuthorizationCodeTTL (Config_OIDC cfg)))) as Ea.
  { destruct Ho as [Hc _ _ _ _]. unfold minAuthorizationCodeTTL, maxAuthorizationCodeTTL in Hc. unfold NewAuthorizationService.
    replace (_ || _) with false by (symmetry; rewrite orb_false_iff, !Z.ltb_ge; lia). done. }
  unfold mbind, Rnd_bind, initialized at 1. rewrite Es, Em, Ef, Ea, Hissuer. simpl. unfold lifetime_options in Et. simpl in Et. rewrite Et, Els.
  simpl. unfold api.NewApplicationHandler. rewrite Emeta. simpl. eexists. split; [done|].
  destruct (NewService_names _ _ _ _ [(_, _)] _ Et) as [Hn _]. pose proof (po_budget _ Hp) as Hbudget.
  split; simpl; try done; [exact (NewService_ok _ _ _ _ [(_, _)] _ Et)|]. by rewrite Hcap.
Qed.
End startup.

Lemma HasPrefix_app p s : HasPrefix (p +:+ s) p = true.
Proof. unfold HasPrefix. induction p as [|c p IH]; [by destruct s|]. simpl. destruct (ascii_dec c c); done. Qed.

(** C22: Every configuration [LoadFrom] accepts starts the service.  With a free password
    worker and sixteen bytes of entropy each constructor [Serve] calls succeeds; the token
    service it builds is within the bounds its theorems assume, with the refresh lifetime
    that was configured; tokens, logout and the metadata name one issuer; the
    password workers together stay within one gibibyte. *)
Theorem loaded_config_starts `{Platform} `{TextLibrary} `{KeyDerivation} lookup cfg keys source :
  LoadFrom lookup ScopeService = inl cfg → (16 <= String.length source)%nat →
  ∃ app, services cfg None keys source = (str_drop 16 source, inl app) ∧ started cfg app.
Proof. intros Hl. by apply config_starts, (LoadFrom_ok lookup). Qed.

(** C23: A production configuration is hardened.  If [LoadFrom] accepts it, the issuer the
    handler serves uses https, the database connection verifies the full certificate, every
    session cookie is secure and named for its host alone, the logout cookie is secure, and
    clients may not register plain HTTP redirects. *)
Theorem production_config_hardened `{Platform} `{TextLibrary} `{KeyDerivation} lookup cfg keys source :
  LoadFrom lookup ScopeService = inl cfg → Config_Environment cfg = EnvironmentProduction → (16 <= String.length source)%nat →
  databaseUsesVerifyFull (UnsafeValue (Database_URL (Config_Database cfg))) = true ∧
  ∃ rest app, services cfg None keys source = (rest, inl app) ∧
    URL_Scheme (httpserver.app_issuer app) = "https" ∧
    httpserver.Secure (httpserver.app_cookies app) = true ∧
    Forall (λ name, HasPrefix name "__Host-" = true)
      [httpserver.SessionName (httpserver.app_cookies app); httpserver.PreAuthName (httpserver.app_cookies app);
       httpserver.CSRFName (httpserver.app_cookies app)] ∧
    logout.Cookie_Secure (httpserver.app_logout_cookies app) = true ∧
    HasPrefix (logout.Cookie_Name (httpserver.app_logout_cookies app)) "__Secure-" = true ∧
    client.allowHTTPOnLoopback (httpserver.app_clients app) = false.
Proof.
  intros Hl Hprod Hsource. pose proof (LoadFrom_ok lookup _ Hl) as Hc. split; [by apply (co_database _ Hc)|].
  destruct (config_starts keys _ _ Hc Hsource) as (app & E & Hs). exists (str_drop 16 source), app. split; [done|].
  destruct (bo_production _ _ (co_browser _ Hc) Hprod) as [Hsecure Hname].
  rewrite (st_cookies _ _ Hs), (st_logout_cookies _ _ Hs), (st_clients _ _ Hs), Hprod, Hsecure.
  destruct (co_issuer _ Hc) as (issuer & Hissuer & Hi). rewrite (st_issuer _ _ Hs) in Hissuer. injection Hissuer as ->.
  split; [destruct (io_scheme _ _ Hi) as [?|(_ & _ & ?)]; [done|by rewrite Hprod in *]|].
  unfold httpserver.NewCookieManager, logout.NewCookieManager. rewrite Hname. split; [done|].
  split_and!; try done; [|apply HasPrefix_app]. repeat constructor; simpl; [done|apply HasPrefix_app..].
Qed.

(** ** Redaction *)

(** Equal in everything the redacted form shows: the passwords and the values of secret
    settings may differ. *)
Record same_public `{TextLibrary} (u v : URL) : Prop := {
  sp_front : URL_Scheme u = URL_Scheme v ∧ URL_Opaque u = URL_Opaque v ∧ URL_Host u = URL_Host v ∧ URL_OmitHost u = URL_OmitHost v;
  sp_path : URL_Path u = URL_Path v ∧ URL_RawPath u = URL_RawPath v;
  sp_fragment : URL_ForceQuery u = URL_ForceQuery v ∧ URL_Fragment u = URL_Fragment v ∧ URL_RawFragment u = URL_RawFragment v;
  sp_user : fst <$> URL_User u = fst <$> URL_User v ∧ (is_Some (URL_User u ≫= snd) ↔ is_Some (URL_User v ≫= snd));
  sp_keys : ∀ key, is_Some ((ParseQuery (URL_RawQuery u)).1 !! key) ↔ is_Some ((ParseQuery (URL_RawQuery v)).1 !! key);
  sp_values : ∀ key, isSecretName key = false → (ParseQuery (URL_RawQuery u)).1 !! key = (ParseQuery (URL_RawQuery v)).1 !! key }.

Section redaction.
Context {T : TextLibrary}.

Lemma redact_values_eq q r :
  (∀ key, is_Some (q !! key) ↔ is_Some (r !! key)) → (∀ key, isSecretName key = false → q !! key = r !! key) →
  redact_values q = redact_values r.
Proof.
  intros Hk Hv. apply map_eq. intros key. unfold redact_values. rewrite !map_lookup_imap.
  destruct (isSecretName key) eqn:E; [|by rewrite (Hv key E)]. specialize (Hk key).
  destruct (q !! key), (r !! key); simpl; try done; destruct Hk as [H1 H2]; [by destruct H1|by destruct H2].
Qed.

Lemma redact_eq u v : same_public u v → redact u = redact v.
Proof.
  intros [(? & ? & ? & ?) [??] (? & ? & ?) [Hu1 Hu2] Hk Hv]. unfold redact, with_raw_query, with_user. simpl.
  rewrite (redact_values_eq _ _ Hk Hv). f_equal; try done. clear -Hu1 Hu2.
  destruct (URL_User u) as [[n [p|]]|], (URL_User v) as [[n' [p'|]]|]; simplify_eq/=; unfold redact_user; simpl; try done;
    destruct Hu2 as [H1 H2]; [by destruct H1|by destruct H2].
Qed.
End redaction.

(** Redaction is a function of the public parts.  Two URLs that agree but for their
    passwords and the values of their secret settings are shown alike, so the shown form,
    and with it every log line and JSON rendering of a database URL, tells nothing of them. *)
Theorem redaction_hides_secrets `{TextLibrary} raw1 raw2 u v :
  Url.Parse raw1 = Some u → Url.Parse raw2 = Some v → same_public u v →
  SecretURL_String (newSecretURL raw1) = SecretURL_String (newSecretURL raw2).
Proof.
  intros E1 E2 Huv. assert (∀ raw w, Url.Parse raw = Some w → RedactURL raw = URL_String (redact w)) as Hr.
  { intros raw w E. unfold RedactURL. destruct (raw == "") eqn:Er; [|by rewrite E]. go_bools. subst. injection E as <-. done. }
  unfold SecretURL_String. simpl. by rewrite (Hr _ _ E1), (Hr _ _ E2), (redact_eq _ _ Huv).
Qed.

(** ** At concrete environments *)

Definition environment_with (entries : list (string * string)) : string → option string :=
  λ name, (list_to_map entries : gmap string string) !! name.

Definition production_entries : list (string * string) :=
  [("ONEISSUER_DATABASE_URL", "postgres://app:pw@db.example:5432/oneissuer?sslmode=verify-full"); ("ONEISSUER_ENV", "production");
   ("ONEISSUER_ISSUER", "https://id.example"); ("ONEISSUER_COOKIE_NAME", "__Host-oneissuer"); ("ONEISSUER_COOKIE_SECURE", "true");
   ("ONEISSUER_REGISTRATION_ENABLED", "false"); ("ONEISSUER_SIGNING_KEY_FILE", "/run/keys/signing.pem");
   ("ONEISSUER_REFRESH_TOKEN_TTL", "168h"); ("ONEISSUER_TRUSTED_PROXIES", "10.0.0.0/8, 192.168.0.0/16")].
Definition production_config : Config :=
  match LoadFrom (environment_with production_entries) ScopeService with inl cfg => cfg | inr _ => defaults end.

(** What is refused: a database without verification, plain HTTP on a public host, an insecure cookie. *)
Example refused_settings :
  (λ changes, match LoadFrom (environment_with (changes ++ production_entries)) ScopeService with
              | inl _ => [] | inr problems => Problem_Variable <$> problems end) <$>
  [[("ONEISSUER_DATABASE_URL", "postgres://app@db/oneissuer?sslmode=require")]; [("ONEISSUER_ISSUER", "http://id.example")];
   [("ONEISSUER_COOKIE_SECURE", "false"); ("ONEISSUER_COOKIE_NAME", "plain")]; [("ONEISSUER_SESSION_TTL", "1h")];
   [("ONEISSUER_ARGON2_MEMORY_KIB", "1048576"); ("ONEISSUER_TRUSTED_PROXIES", "10.0.0.0/8,")]] =
  [["ONEISSUER_DATABASE_URL"]; ["ONEISSUER_ISSUER"; "ONEISSUER_ISSUER"]; ["ONEISSUER_COOKIE_SECURE"; "ONEISSUER_COOKIE_NAME"];
   ["ONEISSUER_SESSION_IDLE_TIMEOUT"]; ["ONEISSUER_ARGON2_MAX_CONCURRENT"; "ONEISSUER_TRUSTED_PROXIES"]].
Proof. vm_compute. reflexivity. Qed.

Lemma production_loads : LoadFrom (environment_with production_entries) ScopeService = inl production_config.
Proof. vm_compute. reflexivity. Qed.

Lemma loaded_config_starts_witness :
  ∃ app, services production_config None ("{}", "tag") "sixteen bytes..." = ("", inl app) ∧ started production_config app.
Proof.
  apply (loaded_config_starts (environment_with production_entries) production_config ("{}", "tag") "sixteen bytes...").
  - apply production_loads.
  - apply Nat.leb_le. reflexivity.
Defined.

Lemma production_config_hardened_witness :
  ∃ rest app, services production_config None ("{}", "tag") "sixteen bytes..." = (rest, inl app) ∧
    URL_Scheme (httpserver.app_issuer app) = "https".
Proof.
  destruct (production_config_hardened (environment_with production_entries) production_config ("{}", "tag") "sixteen bytes...")
    as (_ & rest & app & E & Hs & _).
  - apply production_loads.
  - vm_compute. reflexivity.
  - apply Nat.leb_le. reflexivity.
  - exists rest, app. exact (conj E Hs).
Defined.

Example redacted :
  RedactURL <$> ["postgres://app:hunter2@db:5432/one?sslmode=verify-full&sslpassword=x%21"; "postgres://app@db/one"; ":"] =
  ["postgres://app:xxxxx@db:5432/one?sslmode=verify-full&sslpassword=xxxxx"; "postgres://app@db/one"; "<redacted>"].
Proof. vm_compute. reflexivity. Qed.

Lemma redaction_hides_secrets_witness :
  SecretURL_String (newSecretURL "postgres://app:first@db/one?sslpassword=a") =
  SecretURL_String (newSecretURL "postgres://app:second@db/one?sslpassword=b%26c").
Proof.
  eapply redaction_hides_secrets; [vm_compute; reflexivity|vm_compute; reflexivity|].
  assert (∀ (q r : gmap string (list string)), q = {["sslpassword" := ["a"]]} → r = {["sslpassword" := ["b&c"]]} →
    (∀ key, is_Some (q !! key) ↔ is_Some (r !! key)) ∧ ∀ key, isSecretName key = false → q !! key = r !! key) as Hq.
  { intros q r -> ->. split; intros key; destruct (decide (key = "sslpassword")) as [->|?]; simplify_map_eq; done. }
  destruct (Hq (ParseQuery "sslpassword=a").1 (ParseQuery "sslpassword=b%26c").1) as [Hk Hv]; [vm_compute; reflexivity..|].
  by split.
Defined.

(** ** The bootstrap command *)

Lemma bootstrap_inl `{Platform} `{TextLibrary} `{KeyDerivation} s gate input requestID now w w' user :
  admin.Bootstrap s gate input requestID now w = (w', inl user) →
  ∃ prepared, User_Role (PreparedUser_User prepared) = RoleAdmin ∧ User_Status (PreparedUser_User prepared) = identity_StatusActive ∧
    account_fields (PreparedUser_User prepared) ∧ users (w_db w) !! User_ID (PreparedUser_User prepared) = None ∧
    users (w_db w') = <[User_ID (PreparedUser_User prepared) := user_row prepared]> (users (w_db w)).
Proof.
  unfold admin.Bootstrap. intros H'. apply Tx_bind_inl in H' as (w1 & prepared & Hp & H'). apply PrepareUser_inl in Hp as (Hdb & Hf & Hs & Hr & _).
  apply Tx_bind_inl in H' as (w2 & event & (s2 & _ & ->)%lift_sysrand_inl & H').
  apply Tx_bind_inl in H' as (w3 & [x|e] & [Hb _]%attempt_inl & H'); [|by apply Tx_bind_inl in H' as (? & ? & _ & H')].
  tx_step H'. exists prepared. do 3 (split; [done|]).
  apply inTxWithAudit_inl in Hb as (v & v' & Hv & Hrun & <-). apply bootstrap_step in Hrun as (_ & _ & _ & Hfresh & audits & ->).
  rewrite Hv in *. simpl in *. by rewrite Hdb in *.
Qed.

(** C29: Success means a first administrator.  When the bootstrap command exits with
    success, without having been asked for help, the installation had no administrator
    before and afterwards has exactly one user more, under a fresh identifier: an active
    administrator whose account obeys the account rules; no stored user changes. *)
Theorem bootstrap_creates_first_admin `{Platform} `{TextLibrary} `{KeyDerivation} lookup stdin opened migrated dummy gate clock args values rest w w' :
  executeAdmin lookup stdin opened migrated dummy gate clock ("bootstrap" :: args) w = (w', inl exitSuccess) →
  ParseFlags ["username"; "email"] ["password-stdin"] ∅ args = FlagValues values rest →
  exists_row (λ r, u_Role r == "admin") (users (w_db w)) = false ∧
  ∃ prepared, User_Role (PreparedUser_User prepared) = RoleAdmin ∧ User_Status (PreparedUser_User prepared) = identity_StatusActive ∧
    account_fields (PreparedUser_User prepared) ∧ users (w_db w) !! User_ID (PreparedUser_User prepared) = None ∧
    users (w_db w') = <[User_ID (PreparedUser_User prepared) := user_row prepared]> (users (w_db w)).
Proof.
  intros Hrun Hflags. unfold executeAdmin in Hrun. rewrite (bool_decide_true ("bootstrap" = "bootstrap") eq_refl), Hflags in Hrun.
  cbn [negb] in Hrun. destruct (_ || _); [by injection Hrun|]. destruct (LoadFrom _ _) as [cfg|]; [|by injection Hrun].
  destruct opened, migrated; try by injection Hrun.
  apply Tx_bind_inl in Hrun as (w1 & exists_ & [Hex _]%attempt_inl & Hrun). destruct exists_ as [[]|]; [|clear Hflags|by injection Hrun].
  { apply Tx_bind_inl in Hrun as (w2 & ? & _ & Hrun). by injection Hrun. }
  unfold UserStore.HasAdmin in Hex. tx_step Hex. injection Hstmt as Hnone <-.
  destruct (readBootstrapPassword _ _ _) as [password|]; [|by injection Hrun].
  apply Tx_bind_inl in Hrun as (w2 & [identities|] & [Hid _]%attempt_inl & Hrun); [|by injection Hrun]. tx_step Hid.
  apply Tx_bind_inl in Hrun as (w3 & [user|e] & [Hb _]%attempt_inl & Hrun);
    [injection Hrun as <-|by destruct (e == identity_ErrBootstrapExists); injection Hrun].
  split; [done|]. apply bootstrap_inl in Hb as (prepared & Hr & Hs & Hf & Hn & Hu). exists prepared. rewrite Hdb0 in Hn, Hu. done.
Qed.

Definition bootstrap_args : list string := ["--username"; "root"; "-email=root@example.com"; "--password-stdin"].
Definition bootstrap_stdin : Stdin := mkStdin (demo_password +:+ String LF (demo_password +:+ String LF "")) None.
(** An installation without users. *)
Definition fresh_db : DB := mkDB ∅ ∅ ∅ ∅ ∅ ∅ ∅ ∅ ∅ ∅ ∅ ∅ ∅ ∅ ∅ ∅ ∅.
Definition bootstrap_run : World * (Z + error) :=
  executeAdmin (environment_with production_entries) bootstrap_stdin None None None None (λ _, t0) ("bootstrap" :: bootstrap_args)
    (world_of fresh_db 0).

Lemma bootstrap_creates_first_admin_witness :
  ∃ prepared, User_Role (PreparedUser_User prepared) = RoleAdmin ∧
    users (w_db bootstrap_run.1) = <[User_ID (PreparedUser_User prepared) := user_row prepared]> ∅.
Proof.
  destruct (bootstrap_creates_first_admin (environment_with production_entries) bootstrap_stdin None None None None (λ _, t0) bootstrap_args
    (<["password-stdin" := "true"]> (<["email" := "root@example.com"]> (<["username" := "root"]> ∅))) [] (world_of fresh_db 0) bootstrap_run.1)
    as (_ & prepared & Hr & _ & _ & _ & Hu).
  - rewrite (surjective_pairing bootstrap_run) at 1. vm_compute. reflexivity.
  - vm_compute. reflexivity.
  - exists prepared. exact (conj Hr Hu).
Defined.

(** A second run meets the administrator. *)
Example second_bootstrap :
  (executeAdmin (environment_with production_entries) bootstrap_stdin None None None None (λ _, t0) ("bootstrap" :: bootstrap_args)
     (world_of (w_db bootstrap_run.1) 0)).2 = inl exitConflict.
Proof. vm_compute. reflexivity. Qed.
