(* ===== verification/PerimeterTheorems.v ===== *)
(** * Theorems about the perimeter

    A client cannot choose the address it is counted under; the tables of a rate limiter
    stay bounded and, at one instant, its float buckets count exactly; every request
    identifier is one the audit log accepts; the labels of the metrics and the routes agree. *)

From Stdlib Require Import SpecFloat.
From S2P Require Import Prelude Text Sha256 Base64 Errors Platform Domain SessionTokens NetAddr Url AuditEvents Tx TokenService AuthorizationService.
From S2P Require Import IdentityService LogoutService Requests Endpoints Api Config Perimeter Demo IdentityTheorems.
Import httpserver api.

(** ** Addresses *)

Lemma mapM_app_option {A B} (f : A → option B) l k :
  mapM f (l ++ k) = match mapM f l with Some x => match mapM f k with Some y => Some (x ++ y) | None => None end | None => None end.
Proof.
  induction l as [|a l IH]; simpl; [by destruct (mapM f k)|]. destruct (f a); [|done]. simpl. rewrite IH.
  destruct (mapM f l); [|done]. simpl. by destruct (mapM f k).
Qed.

Section proxies.
Context (trusted : list Prefix).

Lemma Unmap_idem a : Unmap (Unmap a) = Unmap a.
Proof.
  destruct a as [|l|l]; try done. do 9 (destruct l as [|? l]; try done). unfold Unmap.
  destruct (_ && _) eqn:E; [done|]. by rewrite E.
Qed.
Lemma unmap_idem a : unmap (unmap a) = unmap a.
Proof.
  unfold unmap. destruct (Unmap a.1 == a.1) eqn:E; [by rewrite E|]. simpl. rewrite Unmap_idem.
  rewrite (proj2 (bool_decide_eq_true _) eq_refl). done.
Qed.
Lemma addressInPrefixes_unmap a : addressInPrefixes (unmap a) trusted = addressInPrefixes a trusted.
Proof. unfold addressInPrefixes. by rewrite unmap_idem. Qed.

Lemma first_untrusted_skip hops rest :
  Forall (λ a, addressInPrefixes a trusted = true) hops → first_untrusted trusted (hops ++ rest) = first_untrusted trusted rest.
Proof. induction 1 as [|a hops Ha _ IH]; [done|]. simpl. by rewrite Ha. Qed.

(** The part behind which every hop is trusted decides, or the peer does. *)
Lemma forwarded_decided values peer spoofed real address hops addresses :
  addressInPrefixes peer trusted = true →
  forwarded_parts values = spoofed ++ real :: hops →
  ParseAddr (TrimSpace real) = Some address → addressInPrefixes address trusted = false →
  mapM (λ part, ParseAddr (TrimSpace part)) hops = Some addresses → Forall (λ a, addressInPrefixes a trusted = true) addresses →
  forwardedClientIP values peer trusted =
    match mapM (λ part, ParseAddr (TrimSpace part)) spoofed with Some _ => unmap address | None => peer end.
Proof.
  intros Hpeer Hparts Hreal Ha Hhops Htrusted. unfold forwardedClientIP. rewrite Hparts, mapM_app_option. simpl. rewrite Hreal. simpl. rewrite Hhops.
  destruct (mapM _ spoofed) as [front|]; [|done]. simpl. rewrite fmap_app, fmap_cons, <-app_assoc. simpl.
  rewrite reverse_app, reverse_cons, reverse_app. simpl. rewrite Hpeer.
  rewrite <-app_assoc, first_untrusted_skip.
  - simpl. by rewrite addressInPrefixes_unmap, Ha.
  - apply Forall_reverse, Forall_fmap. eapply Forall_impl; [done|]. intros a Hx. simpl. by rewrite addressInPrefixes_unmap.
Qed.
End proxies.

(** C24: The client cannot choose the address it is counted under.  A peer that is no
    trusted proxy is the client, whatever headers it sends; behind trusted proxies the
    client is the address the first of them saw, or else the peer, whatever the client
    itself wrote in front of it. *)
Theorem client_address_unspoofable `{TextLibrary} trusted remoteAddr header :
  let peer := remoteIP remoteAddr in
  let client := Proxy_ClientIP (trustedProxyMiddleware trusted remoteAddr header) in
  (addressInPrefixes peer trusted = false → trustedProxyMiddleware trusted remoteAddr header = mkProxyInfo peer "" "" false) ∧
  (∀ spoofed real address hops addresses,
    addressInPrefixes peer trusted = true →
    forwarded_parts (Header_Values header "X-Forwarded-For") = spoofed ++ real :: hops →
    ParseAddr (TrimSpace real) = Some address → addressInPrefixes address trusted = false →
    mapM (λ part, ParseAddr (TrimSpace part)) hops = Some addresses → Forall (λ a, addressInPrefixes a trusted = true) addresses →
    client = unmap address ∨ client = peer).
Proof.
  intros peer client. unfold client, trustedProxyMiddleware. fold peer. split; [intros ->; by rewrite andb_false_r|].
  intros spoofed real address hops addresses Hpeer Hparts Hreal Ha Hhops Htrusted. rewrite Hpeer.
  destruct (IsValid peer); [|by right]. simpl.
  rewrite (forwarded_decided trusted _ _ _ _ _ _ _ Hpeer Hparts Hreal Ha Hhops Htrusted). destruct (mapM _ spoofed); auto.
Qed.

Definition demo_proxies : list Prefix := [mkPrefix (Addr4 [10; 0; 0; 0]%N) 8].
Definition forwarded (value : string) : Header := {["X-Forwarded-For" := [value]]}.
Example client_addresses :
  (λ v, Proxy_ClientIP (trustedProxyMiddleware demo_proxies "10.0.0.1:9000" (forwarded v))) <$>
  ["203.0.113.9"; "1.2.3.4, 203.0.113.9"; "nonsense, 203.0.113.9"; "203.0.113.9, 10.7.7.7"; "10.1.1.1"] =
  [(Addr4 [203; 0; 113; 9]%N, ""); (Addr4 [203; 0; 113; 9]%N, ""); (Addr4 [10; 0; 0; 1]%N, ""); (Addr4 [203; 0; 113; 9]%N, "");
   (Addr4 [10; 1; 1; 1]%N, "")].
Proof. vm_compute. reflexivity. Qed.

Lemma client_address_unspoofable_witness :
  let client := Proxy_ClientIP (trustedProxyMiddleware demo_proxies "10.0.0.1:9000" (forwarded "1.2.3.4, 203.0.113.9")) in
  client = unmap (Addr4 [203; 0; 113; 9]%N, "") ∨ client = remoteIP "10.0.0.1:9000".
Proof.
  refine (proj2 (client_address_unspoofable demo_proxies "10.0.0.1:9000" (forwarded "1.2.3.4, 203.0.113.9"))
    ["1.2.3.4"] " 203.0.113.9" (Addr4 [203; 0; 113; 9]%N, "") [] [] _ _ _ _ _ _); [vm_compute; reflexivity..|constructor].
Defined.

(** ** Request identifiers *)

Lemma alphanumeric_id c : alphanumeric c = true → audit.requestIDCharacter c = true.
Proof.
  intros Hc. cut (implb (alphanumeric c) (audit.requestIDCharacter c) = true); [by rewrite Hc|]. clear Hc. revert c.
  apply (Base64.ascii_forall (λ c, implb (alphanumeric c) (audit.requestIDCharacter c))). vm_compute. reflexivity.
Qed.

Lemma ValidRequestID_audit value : ValidRequestID value = true → audit.requestIDPattern value = true.
Proof.
  destruct value as [|c rest]; [done|]. cbn [ValidRequestID]. intros H. go_bools. unfold audit.requestIDPattern. go_bools. unfold len in *.
  cbn [String.length every].
  split; [lia|]. rewrite (alphanumeric_id c) by done. simpl. eapply every_impl; [|done]. intros d Hd. cbv beta in Hd.
  apply orb_true_iff in Hd as [Hd|Hd]; [by apply alphanumeric_id|]. cut (implb (one_of ["."; "_"; ":"; "-"]%char d) (audit.requestIDCharacter d) = true); [by rewrite Hd|]. clear Hd. revert d.
  apply (Base64.ascii_forall (λ d, implb (one_of ["."; "_"; ":"; "-"]%char d) (audit.requestIDCharacter d))). vm_compute. reflexivity.
Qed.

Lemma newRequestID_audit random seed :
  (∀ b, random = Some b → len b = 18) → audit.requestIDPattern (newRequestID random seed) = true.
Proof.
  intros Hr. unfold newRequestID. set (b := match random with Some b => b | None => _ end).
  assert (len b = 18) as Hb.
  { unfold b. destruct random as [x|]; [by apply Hr|]. unfold len. rewrite str_take_length; [done|]. pose proof (Sha256.Sum256_length seed) as Hs. unfold len, Sha256.Size in Hs. lia. }
  clearbody b. unfold audit.requestIDPattern.
  rewrite every_app, Base64.Encode_every by (apply (bool_decide_unpack _); by vm_compute).
  assert (len ("req_" +:+ Base64.Encode b) = 28) as ->; [|done].
  unfold len. rewrite length_app_string, Nat2Z.inj_add. fold (len (Base64.Encode b)). by rewrite Base64.len_Encode, Hb.
Qed.

(** Every request carries an identifier the audit log accepts.  Whether it came with
    the request, was drawn, or was derived from the clock, no audit event is refused for the
    identifier of its request. *)
Theorem request_ids_auditable header random seed :
  (∀ b, random = Some b → len b = 18) → audit.requestIDPattern (requestIDMiddleware header random seed) = true.
Proof.
  intros Hr. unfold requestIDMiddleware. destruct (_ == "") eqn:E; [by apply newRequestID_audit|].
  destruct (Header_Values _ _) as [|value [|]]; try done. destruct (ValidRequestID value) eqn:Hv; [|done]. by apply ValidRequestID_audit.
Qed.

Lemma request_ids_auditable_witness : audit.requestIDPattern (requestIDMiddleware ∅ (Some "eighteen bytes ...") "") = true.
Proof. apply request_ids_auditable. intros b [= <-]. reflexivity. Defined.

(** ** The tables of a limiter *)

Section tables.
Context {Key : Type} `{Countable Key}.

Lemma swept_size now (entries : gmap Key tokenBucket) : (size (swept now entries) <= size entries)%nat.
Proof. unfold swept. rewrite <-!size_dom. apply subseteq_size, dom_filter_subseteq. Qed.

Lemma take_token_size (entries : gmap Key tokenBucket) sweepAt key rate burst now :
  (size entries <= maxAuthRateLimitEntries)%nat →
  (size (take_token entries sweepAt key rate burst now).1.1 <= maxAuthRateLimitEntries)%nat.
Proof.
  intros Hsize. unfold take_token. destruct (entries !! key) as [bucket|] eqn:E.
  - destruct (empty _); cbn [fst]; rewrite map_size_insert_Some by eauto; exact Hsize.
  - set (p := if Time.Before now sweepAt then (entries, sweepAt) else (swept now entries, Time.Add now authRateSweepInterval)).
    assert (size p.1 <= maxAuthRateLimitEntries)%nat as Hp.
    { unfold p. destruct (Time.Before now sweepAt); cbn [fst]; [exact Hsize|]. pose proof (swept_size now entries). lia. }
    clearbody p. destruct p as [kept sweepAt']. cbn [fst] in Hp.
    destruct (Nat.leb_spec maxAuthRateLimitEntries (size kept)); [exact Hp|].
    assert (∀ b, size (<[key := b]> kept) <= maxAuthRateLimitEntries)%nat as Hins.
    { intros b. destruct (kept !! key) as [x|] eqn:Ek; [rewrite map_size_insert_Some|rewrite map_size_insert_None]; eauto; lia. }
    destruct (empty _); apply Hins.
Qed.
End tables.

Inductive limiter_step : authenticationRateLimiter → authenticationRateLimiter → Prop :=
| step_allow l address now : limiter_step l (allow l address now).2
| step_allowClient l clientID now : limiter_step l (allowClient l clientID now).2.

Definition tables_bounded (l : authenticationRateLimiter) : Prop :=
  (size (clients l) <= maxAuthRateLimitEntries)%nat ∧ (size (authenticated l) <= maxAuthRateLimitEntries)%nat.

Lemma limiter_step_bounded l l' : limiter_step l l' → tables_bounded l → tables_bounded l'.
Proof.
  intros [l0 address now|l0 clientID now] [Hc Ha].
  - unfold allow. destruct (empty _); [done|].
    pose proof (take_token_size (clients l0) (nextSweep l0) (if IsValid address then unmap address else address) (per_second l0) (burst l0) now Hc) as Ht.
    destruct (take_token _ _ _ _ _ _) as [[entries sweepAt] allowed]. by split.
  - unfold allowClient. destruct (_ == _); [done|].
    pose proof (take_token_size (authenticated l0) (nextAuthSweep l0) clientID (per_second l0) (burst l0) now Ha) as Ht.
    destruct (take_token _ _ _ _ _ _) as [[entries sweepAt] allowed]. by split.
Qed.

(** The memory of a rate limiter is bounded.  Whatever addresses and clients it is
    asked about, in whatever order and at whatever times, neither of its tables ever holds
    more than 4096 buckets. *)
Theorem limiter_tables_bounded config start l :
  rtc limiter_step (newAuthenticationRateLimiter config start) l →
  (size (clients l) <= 4096)%nat ∧ (size (authenticated l) <= 4096)%nat.
Proof.
  intros Hl. change (tables_bounded l). assert (tables_bounded (newAuthenticationRateLimiter config start)) as H0.
  { split; simpl; rewrite map_size_empty; apply Nat.le_0_l. }
  induction Hl as [|l1 l2 l3 Hs _ IH]; [done|]. apply IH. by apply (limiter_step_bounded l1).
Qed.

(** ** Counting at one instant *)

Lemma Zpos_iter_double m d : Zpos (Pos.iter xO m d) = Zpos m * 2 ^ Zpos d.
Proof.
  induction d as [|d IH] using Pos.peano_ind; [simpl; lia|]. rewrite Pos.iter_succ, Pos2Z.inj_succ, Z.pow_succ_r by lia.
  change (Zpos (Pos.iter xO m d)~0) with (2 * Zpos (Pos.iter xO m d)). rewrite IH. lia.
Qed.
Lemma digits2_log2 p : Zpos (digits2_pos p) = Z.log2 (Zpos p) + 1.
Proof.
  induction p as [p IH|p IH|]; [| |done]; simpl digits2_pos; rewrite Pos2Z.inj_succ, IH.
  - rewrite Pos2Z.inj_xI, Z.log2_succ_double by lia. lia.
  - rewrite (Pos2Z.inj_xO p), Z.log2_double by lia. lia.
Qed.

(** Shifting out zeros is exact. *)
Lemma shr_1_double z : 0 < z → shr_1 (Build_shr_record (2 * z) false false) = Build_shr_record z false false.
Proof. by destruct z. Qed.
Lemma iter_shr_exact n z : 0 < z → SpecFloat.iter_pos shr_1 n (Build_shr_record (2 ^ Zpos n * z) false false) = Build_shr_record z false false.
Proof.
  revert z. induction n as [n IH|n IH|]; intros z Hz; cbn [SpecFloat.iter_pos].
  - replace (2 ^ Zpos n~1 * z) with (2 * (2 ^ Zpos n * (2 ^ Zpos n * z))).
    + rewrite shr_1_double, !IH by (repeat apply Z.mul_pos_pos; try apply Z.pow_pos_nonneg; lia). done.
    + rewrite (Pos2Z.inj_xI n), Z.pow_add_r, (Z.mul_comm 2 (Zpos n)), Z.pow_mul_r, Z.pow_2_r by lia. lia.
  - replace (2 ^ Zpos n~0 * z) with (2 ^ Zpos n * (2 ^ Zpos n * z)).
    + rewrite !IH by (repeat apply Z.mul_pos_pos; try apply Z.pow_pos_nonneg; lia). done.
    + rewrite (Pos2Z.inj_xO n), (Z.mul_comm 2 (Zpos n)), Z.pow_mul_r, Z.pow_2_r by lia. lia.
  - change (2 ^ 1) with 2. by apply shr_1_double.
Qed.
Lemma shr_exact s z e : 0 <= s → 0 < z → shr (Build_shr_record (2 ^ s * z) false false) e s = (Build_shr_record z false false, e + s).
Proof.
  intros Hs Hz. destruct s as [|s|s]; [|unfold shr; by rewrite iter_shr_exact|lia]. simpl. by rewrite Z.mul_1_l, Z.add_0_r.
Qed.

Lemma Zdigits2_log2 z : 0 < z → Zdigits2 z = Z.log2 z + 1.
Proof. intros Hz. destruct z; [lia| |lia]. apply digits2_log2. Qed.

(** A mantissa of fifty-three bits followed by zeros is kept. *)
Lemma round_aux_exact m s t :
  Z.log2 (Zpos m) = 52 → 0 <= s → - 1074 <= t <= 971 →
  binary_round_aux 53 1024 false (2 ^ s * Zpos m) (t - s) loc_Exact = S754_finite false m t.
Proof.
  intros Hm Hs Ht. assert (0 < 2 ^ s * Zpos m) as Hpos by (apply Z.mul_pos_pos; [apply Z.pow_pos_nonneg|]; lia).
  unfold binary_round_aux, shr_fexp, fexp, emin. cbn [shr_record_of_loc].
  rewrite Zdigits2_log2 by done. rewrite Z.mul_comm, Z.log2_mul_pow2, Hm by lia.
  replace (Z.max (s + 52 + 1 + (t - s) - 53) (3 - 1024 - 53) - (t - s)) with s by lia.
  rewrite (Z.mul_comm (Zpos m)), shr_exact by lia. cbn [shr_m loc_of_shr_record round_nearest_even].
  rewrite Zdigits2_log2, Hm by lia.
  replace (Z.max (52 + 1 + (t - s + s) - 53) (3 - 1024 - 53) - (t - s + s)) with 0 by lia. cbn [shr shr_m].
  replace (t - s + s) with t by lia. by replace (t <=? 1024 - 53) with true by lia.
Qed.

(** A number of at most fifty-three bits, scaled, is rounded to itself. *)
Lemma round_exact q j e p m :
  let k := Z.log2 q in
  0 < q → k <= 52 → 0 <= j → Zpos p = q * 2 ^ j → Zpos m = q * 2 ^ (52 - k) → - 1074 <= k + j + e - 52 <= 971 →
  binary_round 53 1024 false p e = S754_finite false m (k + j + e - 52).
Proof.
  intros k Hq Hk Hj Hp Hm Ht. pose proof (Z.log2_nonneg q : 0 <= k) as Hk0.
  assert (Z.log2 (Zpos m) = 52) as Hlm. { rewrite Hm, Z.log2_mul_pow2 by lia. fold k. lia. }
  unfold binary_round, fexp, emin. rewrite digits2_log2, Hp, Z.log2_mul_pow2 by lia. fold k.
  replace (Z.max (j + k + 1 + e - 53) (3 - 1024 - 53)) with (k + j + e - 52) by lia. unfold shl_align.
  destruct (k + j + e - 52 - e) as [|s|d] eqn:Es.
  - rewrite <-(round_aux_exact m 0 (k + j + e - 52)) by lia. f_equal; [|lia].
    rewrite Hp, Hm, Z.mul_1_l. do 2 f_equal. lia.
  - rewrite <-(round_aux_exact m (Zpos s) (k + j + e - 52)) by lia. f_equal; [|lia].
    rewrite Hp, Hm, (Z.mul_comm (2 ^ _)), <-Z.mul_assoc, <-Z.pow_add_r by lia. do 2 f_equal. lia.
  - rewrite <-(round_aux_exact m 0 (k + j + e - 52)) by lia. rewrite Z.sub_0_r. f_equal.
    rewrite Zpos_iter_double, Hp, Hm, Z.mul_1_l, <-Z.mul_assoc, <-Z.pow_add_r by lia. do 2 f_equal. lia.
Qed.

Lemma mantissa_of q : 0 < q → Z.log2 q <= 52 → ∃ m, Zpos m = q * 2 ^ (52 - Z.log2 q).
Proof.
  intros Hq Hk. assert (0 < q * 2 ^ (52 - Z.log2 q)) as H by (apply Z.mul_pos_pos; [|apply Z.pow_pos_nonneg]; lia).
  destruct (q * 2 ^ (52 - Z.log2 q)) as [|m|m]; [lia|by exists m|lia].
Qed.

Lemma of_Z_pos q m : 0 < q → Z.log2 q <= 52 → Zpos m = q * 2 ^ (52 - Z.log2 q) → float64.of_Z q = S754_finite false m (Z.log2 q - 52).
Proof.
  intros Hq Hk Hm. unfold float64.of_Z, binary_normalize. destruct q as [|p|p]; [lia| |lia].
  rewrite (round_exact (Zpos p) 0 0 p m); [|try done; pose proof (Z.log2_nonneg (Zpos p)); lia..]. f_equal. lia.
Qed.

Lemma of_Z_sub_1 q : 0 < q → Z.log2 q <= 52 → float64.sub (float64.of_Z q) (float64.of_Z 1) = float64.of_Z (q - 1).
Proof.
  intros Hq Hk. pose proof (Z.log2_nonneg q). destruct (mantissa_of q Hq Hk) as [m Hm].
  rewrite (of_Z_pos q m) by done. change (float64.of_Z 1) with (S754_finite false 4503599627370496 (-52)).
  unfold float64.sub, SFsub, cond_Zopp, shl_align. replace (Z.min (Z.log2 q - 52) (-52)) with (- 52) by lia.
  replace (- 52 - - 52) with 0 by lia. cbn [fst].
  assert (Zpos (fst match - 52 - (Z.log2 q - 52) with Zneg d => (Pos.iter xO m d, - 52) | _ => (m, Z.log2 q - 52) end) = q * 2 ^ 52) as ->.
  { destruct (- 52 - (Z.log2 q - 52)) as [|d|d] eqn:Ed; cbn [fst]; [|lia|].
    - rewrite Hm. do 2 f_equal. lia.
    - rewrite Zpos_iter_double, Hm, <-Z.mul_assoc, <-Z.pow_add_r by lia. do 2 f_equal. lia. }
  change (Zpos 4503599627370496) with (2 ^ 52). replace (q * 2 ^ 52 - 2 ^ 52) with ((q - 1) * 2 ^ 52) by lia.
  destruct (decide (q = 1)) as [->|Hne]; [done|].
  assert (0 < q - 1 ∧ Z.log2 (q - 1) <= 52) as [Hq' Hk']. { split; [lia|]. etransitivity; [apply Z.log2_le_mono|done]. lia. }
  destruct (mantissa_of (q - 1) Hq' Hk') as [m' Hm']. rewrite (of_Z_pos (q - 1) m') by done.
  assert (0 < (q - 1) * 2 ^ 52) as Hd by lia. destruct ((q - 1) * 2 ^ 52) as [|p|p] eqn:Ep; [lia| |lia].
  cbn [binary_normalize]. pose proof (Z.log2_nonneg (q - 1)). rewrite (round_exact (q - 1) 52 (-52) p m') by (done || lia). f_equal. lia.
Qed.

Lemma of_Z_lt_1 q : 0 <= q → Z.log2 q <= 52 → float64.lt (float64.of_Z q) (float64.of_Z 1) = (q <? 1).
Proof.
  intros Hq Hk. destruct (decide (q = 0)) as [->|]; [done|]. destruct (decide (q = 1)) as [->|]; [done|].
  destruct (mantissa_of q ltac:(lia) Hk) as [m Hm]. rewrite (of_Z_pos q m) by (done || lia).
  change (float64.of_Z 1) with (S754_finite false 4503599627370496 (-52)). unfold float64.lt, SFltb, SFcompare.
  assert (0 < Z.log2 q) by (apply Z.log2_pos; lia). rewrite (proj2 (Z.compare_gt_iff (Z.log2 q - 52) (- 52))) by lia. lia.
Qed.

(** The abstract limiter: how many requests passed in all, and how many of each address. *)
Record counters := mkCounters { total : Z; counts : gmap ZonedAddr Z }.
Definition count_step (perAddress overall : Z) (c : counters) (key : ZonedAddr) : bool * counters :=
  if overall <=? total c then (false, c)
  else match counts c !! key with
       | Some n => if perAddress <=? n then (false, c) else (true, mkCounters (total c + 1) (<[key := n + 1]> (counts c)))
       | None => if (maxAuthRateLimitEntries <=? size (counts c))%nat then (false, c)
                 else (true, mkCounters (total c + 1) (<[key := 1]> (counts c)))
       end.

(** One request after the other, with the answers in order. *)
Fixpoint run {S X} (step : S → X → bool * S) (s : S) (inputs : list X) : list bool :=
  match inputs with [] => [] | x :: rest => let '(b, s') := step s x in b :: run step s' rest end.

Section instant.
Context (now : time) (Hnow : Time.IsZero now = false) (B G : Z) (HB : 1 <= B) (HB' : Z.log2 B <= 52) (HG : Z.log2 G <= 52).

Definition bucket_of (full n : Z) : tokenBucket := mkTokenBucket (float64.of_Z (full - n)) now now.

(** At [now] a limiter holds the counters: what is left of each burst. *)
Record holds (l : authenticationRateLimiter) (c : counters) : Prop := {
  h_bursts : burst l = B ∧ globalBurst l = G;
  h_global : global l = bucket_of G (total c) ∧ 0 <= total c <= G;
  h_clients : clients l = bucket_of B <$> counts c;
  h_counts : map_Forall (λ _ n, 1 <= n <= B) (counts c);
  h_sweep : Time.Before now (nextSweep l) = true }.

Lemma refill_now full rate most n : refillBucket (bucket_of full n) rate most now = bucket_of full n.
Proof. unfold refillBucket, bucket_of. simpl. rewrite Hnow. unfold Time.After. by rewrite Z.ltb_irrefl. Qed.

Lemma bucket_empty full n : Z.log2 full <= 52 → 0 <= n <= full → empty (bucket_of full n) = (full <=? n).
Proof.
  intros Hf Hn. unfold empty, bucket_of. simpl. rewrite of_Z_lt_1; [lia|lia|]. etransitivity; [apply Z.log2_le_mono|done]. lia.
Qed.
Lemma bucket_charge full n : Z.log2 full <= 52 → 0 <= n < full → charge (bucket_of full n) now = bucket_of full (n + 1).
Proof.
  intros Hf Hn. unfold charge, bucket_of. simpl. rewrite of_Z_sub_1; [do 2 f_equal; lia|lia|].
  etransitivity; [apply Z.log2_le_mono|done]. lia.
Qed.

Definition key_of (address : ZonedAddr) : ZonedAddr := if IsValid address then unmap address else address.

(** What [take_token] answers for the counters. *)
Lemma take_token_counts (m : gmap ZonedAddr Z) key rate sweepAt :
  map_Forall (λ _ n, 1 <= n <= B) m → Time.Before now sweepAt = true →
  take_token (bucket_of B <$> m) sweepAt key rate B now =
    match m !! key with
    | Some n => if B <=? n then (bucket_of B <$> m, sweepAt, false) else (bucket_of B <$> <[key := n + 1]> m, sweepAt, true)
    | None => if (maxAuthRateLimitEntries <=? size m)%nat then (bucket_of B <$> m, sweepAt, false)
              else (bucket_of B <$> <[key := 1]> m, sweepAt, true)
    end.
Proof.
  intros Hm Hs. unfold take_token. rewrite lookup_fmap. destruct (m !! key) as [n|] eqn:E; cbn [fmap option_fmap option_map].
  - specialize (Hm _ _ E). simpl in Hm. rewrite refill_now, bucket_empty by (done || lia). rewrite fmap_insert.
    destruct (Z.leb_spec B n); [|by rewrite bucket_charge by lia].
    rewrite insert_id; [done|]. by rewrite lookup_fmap, E.
  - rewrite Hs, map_size_fmap. destruct (_ <=? _)%nat; [done|].
    replace (mkTokenBucket (float64.of_Z B) now now) with (bucket_of B 0) by (unfold bucket_of; by rewrite Z.sub_0_r).
    rewrite refill_now, bucket_empty by (done || lia). replace (B <=? 0) with false by lia. by rewrite fmap_insert, bucket_charge by lia.
Qed.

Lemma allow_counts l c address :
  holds l c → ∃ l', allow l address now = ((count_step B G c (key_of address)).1, l') ∧ holds l' (count_step B G c (key_of address)).2.
Proof.
  intros [[Hb Hgb] [Hg Ht] Hcl Hc Hs]. unfold allow. fold (key_of address). rewrite Hg, refill_now, bucket_empty by done.
  unfold count_step. destruct (Z.leb_spec G (total c)); [by eexists|]. rewrite Hcl, Hb, take_token_counts by done.
  assert (∀ n, 1 <= n <= B → map_Forall (λ _ n, 1 <= n <= B) (<[key_of address := n]> (counts c))) as Hins by (intros; by apply map_Forall_insert_2).
  destruct (counts c !! key_of address) as [n|] eqn:E.
  - pose proof (Hc _ _ E) as Hn. simpl in Hn. destruct (Z.leb_spec B n); eexists; (split; [done|]); split; simpl; try done.
    + split; [by rewrite bucket_charge by lia|lia].
    + apply Hins. lia.
  - destruct (_ <=? _)%nat; eexists; (split; [done|]); split; simpl; try done.
    + split; [by rewrite bucket_charge by lia|lia].
    + apply Hins. lia.
Qed.

Lemma run_counts l c addresses :
  holds l c → run (λ l address, allow l address now) l addresses = run (λ c address, count_step B G c (key_of address)) c addresses.
Proof.
  revert l c. induction addresses as [|address rest IH]; intros l c Hl; [done|]. simpl.
  destruct (allow_counts l c address Hl) as (l' & -> & Hl'). destruct (count_step _ _ _ _) as [b c']. simpl in *. f_equal. by apply IH.
Qed.
End instant.

(** How many of the requests passed, of an address and in all. *)
Definition passed (key : option ZonedAddr) (addresses : list ZonedAddr) (answers : list bool) : Z :=
  Z.of_nat (length (filter (λ p : ZonedAddr * bool, p.2 = true ∧ (key = None ∨ key = Some (key_of p.1))) (zip addresses answers))).

Lemma passed_cons key address addresses b answers :
  passed key (address :: addresses) (b :: answers) =
    (if b && (bool_decide (key = None ∨ key = Some (key_of address))) then 1 else 0) + passed key addresses answers.
Proof.
  unfold passed. cbn [zip zip_with]. rewrite filter_cons.
  destruct (bool_decide_reflect (key = None ∨ key = Some (key_of address))) as [Hk|Hk], b; cbn [andb];
    (rewrite decide_True by done) || (rewrite decide_False by (cbn [fst snd]; naive_solver)); cbn [length]; lia.
Qed.

Lemma counters_bound B G c addresses :
  1 <= B → total c <= G → map_Forall (λ _ n, n <= B) (counts c) →
  let answers := run (λ c address, count_step B G c (key_of address)) c addresses in
  total c + passed None addresses answers <= G ∧ ∀ key, default 0 (counts c !! key) + passed (Some key) addresses answers <= B.
Proof.
  intros HB. revert c. induction addresses as [|address rest IH]; intros c Ht Hc; simpl.
  { split; [unfold passed; simpl; lia|]. intros key. destruct (counts c !! key) as [n|] eqn:E; [specialize (Hc _ _ E)|]; unfold passed; simpl in *; lia. }
  destruct (count_step B G c (key_of address)) as [b c'] eqn:E.
  assert (c' = c ∧ b = false ∨ b = true ∧ total c' = total c + 1 ∧ total c' <= G ∧ map_Forall (λ _ n, n <= B) (counts c') ∧
    ∀ key, default 0 (counts c' !! key) = default 0 (counts c !! key) + if bool_decide (key = key_of address) then 1 else 0) as Hcase.
  { unfold count_step in E. destruct (Z.leb_spec G (total c)); [naive_solver|].
    assert (∀ n m, n <= B → n = default 0 (counts c !! key_of address) + 1 → m = <[key_of address := n]> (counts c) →
      map_Forall (λ _ n, n <= B) m ∧ ∀ key, default 0 (m !! key) = default 0 (counts c !! key) + if bool_decide (key = key_of address) then 1 else 0) as Hins.
    { intros n m Hn Hd ->. split; [by apply map_Forall_insert_2|]. intros key. case_bool_decide as Hk; [subst; by rewrite lookup_insert_eq|].
      rewrite lookup_insert_ne by done. lia. }
    destruct (counts c !! key_of address) as [n|] eqn:En.
    - destruct (Z.leb_spec B n); [naive_solver|]. injection E as <- <-. right. simpl. split_and!; [done|lia|lia|..]; by apply (Hins (n + 1)); [lia|..].
    - destruct (_ <=? _)%nat; [naive_solver|]. injection E as <- <-. right. simpl. split_and!; [done|lia|lia|..]; by apply (Hins 1); [lia|..]. }
  destruct Hcase as [[-> ->]|(-> & Ht' & HG' & Hc' & Hk)].
  - destruct (IH c Ht Hc) as [H1 H2]. split; [|intros key; specialize (H2 key)]; rewrite passed_cons; simpl; lia.
  - destruct (IH c' HG' Hc') as [H1 H2]. split.
    + rewrite passed_cons. rewrite bool_decide_true by auto. simpl. lia.
    + intros key. specialize (H2 key). rewrite Hk in H2. rewrite passed_cons. simpl.
      rewrite (bool_decide_ext (Some key = None ∨ Some key = Some (key_of address)) (key = key_of address)) by naive_solver. lia.
Qed.

Lemma new_holds config now :
  Time.IsZero now = false → 1 <= Burst config → 1 <= GlobalBurst config →
  holds now (Burst config) (GlobalBurst config) (newAuthenticationRateLimiter config now) (mkCounters 0 ∅).
Proof.
  intros Hnow HB HG. unfold newAuthenticationRateLimiter.
  replace (Burst config <=? 0) with false by lia. replace (GlobalBurst config <=? 0) with false by lia.
  split; simpl; try done.
  - split; [unfold bucket_of; by rewrite Z.sub_0_r|lia].
  - unfold Time.Before, Time.Add, authRateSweepInterval. apply Z.ltb_lt. unfold Time.Minute, Time.Second. lia.
Qed.

(** C25: At one instant a limiter counts exactly.  However its float buckets round, a new
    limiter answers a sequence of requests the way integer counters do: an address passes
    until its burst is used up, all addresses together until the global burst is, and a new
    address only while the table has room.  So no address ever passes more often than the
    burst, nor all of them more often than the global burst. *)
Theorem limiter_refines_counters config now addresses :
  Time.IsZero now = false → 1 <= Burst config < 2 ^ 53 → 1 <= GlobalBurst config < 2 ^ 53 →
  let answers := run (λ l address, allow l address now) (newAuthenticationRateLimiter config now) addresses in
  answers = run (λ c address, count_step (Burst config) (GlobalBurst config) c (key_of address)) (mkCounters 0 ∅) addresses ∧
  passed None addresses answers <= GlobalBurst config ∧
  ∀ key, passed (Some key) addresses answers <= Burst config.
Proof.
  intros Hnow [HB HB'] [HG HG']. apply Z.log2_lt_pow2 in HB', HG'; [|lia..]. simpl.
  rewrite (run_counts now Hnow (Burst config) (GlobalBurst config) HB ltac:(lia) ltac:(lia) _ (mkCounters 0 ∅)) by (by apply new_holds).
  split; [done|]. destruct (counters_bound (Burst config) (GlobalBurst config) (mkCounters 0 ∅) addresses HB) as [H1 H2];
    [simpl; lia|apply map_Forall_empty|]. split; [exact H1|]. intros key. specialize (H2 key).
  cbn [counts] in H2. rewrite lookup_empty in H2. exact H2.
Qed.

Definition neighbours : list ZonedAddr := [(Addr4 [192; 0; 2; 1]%N, ""); (Addr6 [0; 0; 0; 0; 0; 65535; 49152; 513]%N, ""); (Addr4 [192; 0; 2; 2]%N, "")].

Lemma limiter_refines_counters_witness :
  let config := mkRateLimitConfig 20 2 50 4 in
  let answers := run (λ l address, allow l address t0) (newAuthenticationRateLimiter config t0) (neighbours ++ neighbours ++ neighbours) in
  answers = [true; true; true; false; false; true; false; false; false] ∧ passed None (neighbours ++ neighbours ++ neighbours) answers <= 4.
Proof.
  pose proof (limiter_refines_counters (mkRateLimitConfig 20 2 50 4) t0 (neighbours ++ neighbours ++ neighbours)) as H.
  destruct H as (E & H & _); [reflexivity|split; [done|reflexivity]|split; [done|reflexivity]|]. split; [|exact H].
  rewrite E. vm_compute. reflexivity.
Defined.

Lemma limiter_tables_bounded_witness :
  let l := (allow (newAuthenticationRateLimiter (mkRateLimitConfig 20 2 50 4) t0) (Addr4 [192; 0; 2; 1]%N, "") t0).2 in
  (size (clients l) <= 4096)%nat ∧ (size (authenticated l) <= 4096)%nat.
Proof.
  apply (limiter_tables_bounded (mkRateLimitConfig 20 2 50 4) t0). apply rtc_once. apply step_allow.
Defined.

(** ** Routes and labels *)

Definition dynamic_labels : list string :=
  ["/api/v1/me/sessions/{id}/revoke"; "/api/admin/v1/users/{id}"; "/api/admin/v1/users/{id}/revoke-sessions"; "/api/admin/v1/clients/{id}";
   "/api/admin/v1/clients/{id}/secrets/rotate"; "/api/admin/v1/sessions/{id}/revoke"].

Section routes.
Context {P : Platform} {C : TokenCodec} {H : logout.HintCodec} {T : TextLibrary} {K : KeyDerivation} {F : Fosite} {M : HttpLibrary}.
Context {G : GrantCursorCodec} {L : ApiLibrary} (a : Application) (gates : Gates) (clock : nat → time).

Definition health_paths : list string := ["/health/live"; "/health/ready"; "/metrics"].

Lemma not_fixed path q : path ∉ fixed_routes → q ∈ fixed_routes → (path == q) = false.
Proof. intros Hn Hq. apply bool_decide_eq_false. by intros ->. Qed.

(** Every comparison with a fixed route fails off the table. *)
Ltac off_table Hn := repeat (rewrite (not_fixed _ _ Hn) by (apply (bool_decide_unpack _); by vm_compute); cbn [orb andb]).

Lemma off_table_routes request :
  Request_Path request ∉ fixed_routes →
  protocol_route a gates request clock = None ∧ api_route a gates request clock = None ∧
  oauthLifecycleRateLimited gates request = false ∧ authenticationRateLimited gates request = false.
Proof.
  intros Hn. unfold protocol_route, api_route, oauthLifecycleRateLimited, authenticationRateLimited.
  unfold oidc.AuthorizePath, oidc.AuthorizeContinuePath, oidc.TokenPath, oidc.UserInfoPath, oidc.RevocationPath, oidc.IntrospectionPath,
    oidc.LogoutPath, oidc.LogoutConfirmPath, oidc.DiscoveryPath, oidc.JWKSPath.
  split_and!; by off_table Hn.
Qed.

Lemma on_table_routes request :
  Request_Path request ∈ fixed_routes →
  Request_Path request ∈ health_paths ∨ is_Some (protocol_route a gates request clock) ∨ is_Some (api_route a gates request clock).
Proof.
  intros Hin. unfold protocol_route, api_route, oidc.AuthorizePath, oidc.AuthorizeContinuePath, oidc.TokenPath, oidc.UserInfoPath,
    oidc.RevocationPath, oidc.IntrospectionPath, oidc.LogoutPath, oidc.LogoutConfirmPath, oidc.DiscoveryPath, oidc.JWKSPath.
  unfold fixed_routes in Hin. rewrite !elem_of_cons in Hin.
  destruct_or! Hin; try (by apply elem_of_nil in Hin); rewrite Hin;
    first [left; by apply (bool_decide_unpack _) | right; left; eexists; reflexivity | right; right; eexists; reflexivity].
Qed.

Lemma label_dynamic request :
  Request_Path request ∉ fixed_routes →
  (routeLabel (Request_Path request) = "unmatched" ↔ serveDynamic a request clock = None) ∧
  routeLabel (Request_Path request) ∈ ("unmatched" :: dynamic_labels).
Proof.
  intros Hn. unfold routeLabel, serveDynamic. rewrite bool_decide_false by done. set (parts := path_parts _). clearbody parts. cbv zeta.
  repeat match goal with |- context [bool_decide (take 4 parts = ?x) && (length parts =? ?k)%nat] =>
    rewrite (andb_comm (bool_decide (take 4 parts = x)) (length parts =? k)%nat) end.
  repeat (destruct (_ && _); [split; [done|unfold dynamic_labels; rewrite !elem_of_cons; tauto]|]). split; [done|rewrite elem_of_cons; by left].
Qed.
End routes.

(** C26: The metrics label what the router serves.  A path is labelled "unmatched" exactly
    when no route takes it, and then the answer is "not found" without touching the
    database; the labels are a fixed set, whatever paths are asked for. *)
Theorem labels_match_routes `{Platform} `{TokenCodec} `{logout.HintCodec} `{TextLibrary} `{KeyDerivation} `{Fosite} `{HttpLibrary}
    `{GrantCursorCodec} `{ApiLibrary} a r ping gates request clock :
  let path := Request_Path request in
  (routeLabel path = "unmatched" ↔
    (path ∉ health_paths) ∧ protocol_route a gates request clock = None ∧ api_route a gates request clock = None ∧ serveDynamic a request clock = None) ∧
  (routeLabel path = "unmatched" → router_ServeHTTP a r ping gates request clock = mret (Handled not_found)) ∧
  routeLabel path ∈ ("unmatched" :: fixed_routes ++ dynamic_labels).
Proof.
  intros path. destruct (decide (path ∈ fixed_routes)) as [Hin|Hn].
  - assert (routeLabel path = path) as E by (unfold routeLabel; by rewrite bool_decide_true).
    assert (routeLabel path ≠ "unmatched") as Hl. { rewrite E. intros Hu. rewrite Hu in Hin. by apply (bool_decide_pack _) in Hin. }
    split_and!; [|done|rewrite E, elem_of_cons, elem_of_app; auto]. split; [done|]. intros (Hh & Hp & Ha & _).
    destruct (on_table_routes a gates clock request Hin) as [?|[[? ?]|[? ?]]]; [done|congruence..].
  - destruct (off_table_routes a gates clock request Hn) as (Hp & Ha & Ho & Hauth).
    destruct (label_dynamic a clock request Hn) as [Hd Hlabel].
    assert (path ∉ health_paths) as Hh by (intros ?; apply Hn; change fixed_routes with (health_paths ++ drop 3 fixed_routes); apply elem_of_app; auto).
    fold path in Hd, Hlabel. split_and!; [split; [intros Hu; apply Hd in Hu; auto|intros (_ & _ & _ & Hu); by apply Hd]| |].
    2: { rewrite elem_of_cons in Hlabel. rewrite elem_of_cons, elem_of_app. destruct Hlabel; auto. }
    intros Hu. apply Hd in Hu. unfold router_ServeHTTP. fold path.
    rewrite !bool_decide_false by (intros Hx; apply Hh; rewrite Hx; by apply (bool_decide_unpack _)).
    unfold ServeHTTP. by rewrite Ho, Hauth, Hp, Ha, Hu.
Qed.

Example labels : routeLabel <$> ["/login"; "/api/admin/v1/users/7"; "/api/admin/v1/users/7/8"; "//api/v1/me/sessions/x/revoke/"; "/wp-login.php"] =
  ["/login"; "/api/admin/v1/users/{id}"; "unmatched"; "/api/v1/me/sessions/{id}/revoke"; "unmatched"].
Proof. vm_compute. reflexivity. Qed.
